(* ===== verification/_CoqProject ===== *)
-Q . S2P
Prelude.v
F64.v
Dealer.v
Uniswapx.v
AuthError.v
RateLimiter.v
PriceClient.v
GasSponsorship.v
ServerCache.v
Fireblocks.v
Swap.v
PriceReporter.v
Settlement.v
Stringify.v
ExternalMatch.v
Rfqt.v
Markets.v
PoolRunner.v
PoolListener.v
FundsManager.v
GasWallets.v
Custody.v
PriceServer.v
PriceFeeds.v
Compliance.v
Indexer.v
Venues.v
VenueHttp.v
Warp.v
DealerServer.v
AuthStartup.v
Logging.v
FundsStartup.v
SolverServer.v
PriceSession.v
ExchangeWire.v
PriceEndToEnd.v
RelayerProxy.v
ProverService.v
AuthRoutes.v
FundsRoutes.v
SwapCosts.v
Telemetry.v
ServiceStartup.v
FundsHandlers.v
