(* ===== verification/Prelude.v ===== *)
(** * relayer-extensions: verification library

    The repository holds the services that surround the Renegade relayer.  This
    library models the parts of them that carry decisions about money, access
    and prices, as executable definitions translated from the Rust sources
    under src/, and proves what makes them correct.

    ** The program and its model

    Shared files:
    - [Prelude] (this file): outcomes of a Rust computation ([Ok], [Err],
      [Panic]), stateful fallible code ([eff]), machine integers at their
      width, shared tactics and lemmas.
    - [F64]: IEEE 754 doubles as the standard library's [spec_float], with the
      order, the exactness of small integers, and the casts of Rust.
    - [Warp]: what the HTTP servers use of their web framework: filters on
      method and path, alternatives and rejections, as a class with its laws,
      and the lemmas on tables of disjoint routes.
    - [Logging] (the logger.rs of six services): the line of a task with its outcome,
      its fields and its level, and the panic hook of the funds manager.

    dealer/, the service that hands out correlated randomness to two parties:
    - [Dealer]: [Shares] generates the preprocessing (dealer.rs) over an
      abstract scalar field; [Pairing] is the table of open requests with its
      mutex, as steps on submissions and disconnections; [Front] is the
      validation of main.rs.
    - [DealerServer] (main.rs and the API crate): the routes, the queue of jobs, the
      tasks that hand them to [Dealer], and the handlers that wait for their reply.

    renegade-solver/, which fills UniswapX orders:
    - [Uniswapx]: [FixedPoint] is the 256-bit arithmetic of fixed_point/mod.rs,
      [PriorityOrder] the scaling of an order by a priority fee, [Solver] the
      filter, the request built for an order, and the polling loop with its
      LRU cache.
    - [SolverServer]: the start of the solver, its tokens, the server, and the client
      of the executor contract with its gas estimates.

    auth/, the server in front of the relayer's external match API:
    - [AuthError]: errors and replies.
    - [RateLimiter] (server/rate_limiter/): the Redis counters with their Lua
      script, the limiters of quotes, bundles and gas sponsorship.  A request
      to Redis may be lost before or after it takes effect.
    - [GasSponsorship] (server/gas_sponsorship/): eligibility and amount of a
      refund, its effect on quotes, orders and bundles, its cache entry.
    - [ServerCache] (server/caching.rs, server/db/, api_auth.rs and the
      management handlers): tables, caches, authorization.
    - [ExternalMatch] (server/api_handlers/external_match/): the quote,
      assembly and match handlers as a whole, and the task that records a
      quote, over the components above.
    - [Settlement] (bundle_store/, chain_events/): the store of bundles and
      the listener that credits and books settlements.
    - [Rfqt], [Markets] (connectors/rfqt/, markets.rs): the RFQ-T connector and
      the market data routes.
    - [Stringify] (http_utils/): the formatter that quotes numbers.
    - [AuthRoutes] (main.rs): the table of routes and the reply to a rejection.
    - [Telemetry] (telemetry/, api_handlers/): the spawned tasks of [ExternalMatch]
      whole, with the metrics and log lines of quotes and bundles.
    - [RelayerProxy] (server/mod.rs, http_utils/): the requests to the relayer, which
      the handlers of the matches and the markets make, with their headers and their
      authentication.
    - [AuthStartup] (main.rs, server/setup.rs, server/gas_estimation/): the command
      line, the construction of the server, the gas oracles and their sampler, the
      life of the listener.

    funds-manager/:
    - [FundsManager]: errors, replies, HMAC authentication, chain names, and in
      [SendTx] the submission of a transaction with its retries, which [Venues] and
      [Custody] share.
    - [Fireblocks]: the rate limiter of the custody API, as a step relation
      over tasks.
    - [Swap] (execution_client/swap/, venues/quote.rs): quote selection and
      checks, the retry loop of a swap, swaps into target balances.
    - [Venues] (execution_client/venues/lifi, bebop, cowswap; helpers.rs): the
      clients of the three venues, from quote to receipt, which make up the
      market of [Swap] ([market_of]).
    - [VenueHttp] (execution_client/venues/): the requests of those clients.
    - [SwapCosts] (handlers/swap.rs, metrics/): the swap endpoints and what they
      record of a swap's cost.
    - [FundsRoutes] (main.rs, middleware.rs): the table of routes with their
      authentication.
    - [GasWallets] (custody_client/gas_wallets.rs): the pool of gas wallets of
      the relayers, over its table and its secrets.
    - [Custody] (custody_client/, handlers/): vaults, hot wallets, withdrawals,
      the bridge to Hyperliquid, the signing endpoint, sponsor refills.
    - [FundsHandlers] (handlers/): the remaining handlers, over [GasWallets] and
      [Custody].
    - [FundsStartup] (cli.rs, server.rs, helpers.rs, relayer_client.rs,
      health_snapshot.rs): the command line, the clients of each chain, the server,
      the client of the relayer, the snapshots of the limiter.

    price-reporter/ and price-reporter-client/:
    - [PriceReporter]: the Coinbase order book and its messages, the connection
      loop, the retry budget, the map of price streams as a step relation.
    - [PriceServer]: the other exchanges, topics and pairs, the subscriptions of
      a websocket client, the HTTP routes.
    - [PriceFeeds]: the default set of streams and its refresh, the set-up of
      connections, the renewal of Coinbase subscriptions.
    - [ExchangeWire]: what is sent to the exchanges, and their streams as they are polled.
    - [PriceSession]: a websocket connection over its life, the accept loops, the
      command line and the start of the process.
    - [PriceClient]: the client's shared stream state with its staleness timer,
      as a labelled transition system.
    - [PriceEndToEnd]: the two ends of a connection together.

    The other services:
    - [PoolRunner] (pool-runner/): the routing tasks of orders and the registry
      of fill waiters, as a labelled transition system with a clock.
    - [PoolListener] (pool-runner/): the connection loop of the admin websocket
      with its rescans, as a system that feeds [PoolRunner]; start-up.
    - [Compliance] (compliance/): cached screening of wallets.
    - [Indexer] (indexer/): state objects, their rows, and the consumer of the
      message queue.
    - [ProverService] (prover-service/): the twenty endpoints that prove and link
      circuits, their authentication and errors, and the preparation at
      start-up.
    - [ServiceStartup]: the command lines and processes of [Indexer] and
      [ProverService].

    The components meet where the services do: [ServerCache] provides the rate
    limits and fees that [RateLimiter], [ExternalMatch] and [Markets] consume;
    [ExternalMatch] runs the checks of [RateLimiter] and the sponsorship of
    [GasSponsorship] and fills the bundle store that [Settlement] empties,
    which credits [RateLimiter] again; [Rfqt] goes through the handlers of
    [ExternalMatch]; [Custody] and [GasWallets] reply with the errors of
    [FundsManager]; [SwapCosts] runs the swaps of [Swap], whose market [Venues]
    implements; the servers dispatch with the tables of [Warp]; [PriceServer]
    serves the streams of [PriceReporter], and [PriceSession] runs it for a
    client; [DealerServer] feeds the table of [Dealer].

    ** How code corresponds to definitions

    Definitions keep the names of the functions and types they translate.  A
    stateful method takes the state and returns it with its result; shared
    state touched by several tasks is a step relation or a sequence of events,
    with the reads and writes that can interleave as separate steps.  What the
    outside does during one request (replies, failures, clocks) is a record,
    the [env] of the request.  Code that is not in the repository is a
    parameter: the classes [ScalarField], [OrderCacheOps], [Redis],
    [FixedPointOps], [AddressText], [TokenMap], [BigDecimalOps], [Tokens],
    [AuthServer], [RfqtApi], [RowOrder], [TokenLib], [Darkpool], [VenueLib],
    [WarpLib], [ProverLib], [TelemetryLib], [DealerLib], [Sec1], [StartupLib],
    [FundsLib], [Decimals], [HeaderLib] and [Sdk] state the documented behaviour
    they rely on and have instances in the witnesses; [VenueContract] is what a venue promises
    to the swaps.  Prices, balances, replies, signatures, ciphers, JSON decoding
    and clocks are arguments.  The log lines of most handlers and the metrics are left
    out, except those of external matches, swaps and the ends of processes.  Amounts are [Z] at
    their width: the plain operators wrap, as they do in a release build.
    Times are [Z], in the unit the code uses.

    ** What the theorems show

    - Dealer: a matching pair is answered with correlated, MAC-authenticated
      values in the requested numbers, as long as no event made the dealer panic
      and both clients wait; no channel is answered twice; the size
      check is exact unless the 32-bit sum wraps; a mismatched request poisons
      the table for everyone.
    - DealerServer: shares are dealt only when a request of each of the two parties
      arrived with its signature of the id and the body; such a pair is served in
      whichever order its tasks run; a client that leaves stops the dealer.
    - Uniswapx: the fixed-point routines are exact floor and ceiling divisions;
      scaling favours the swapper; requests are built only for serviceable
      orders and never exceed them; polls do not repeat orders.
    - SolverServer: the tokens that are serviced, what a fill sends and at what fees.
    - RateLimiter: under every interleaving of its Redis requests, with requests
      and replies lost anywhere, the bundle limiter refines an abstract token
      bucket per user and window; the grants are bounded by the limit and what
      the settlements, whose read and write are separate, give back; keys never
      expire.
    - GasSponsorship, ExternalMatch: a client that assembles the quote it was
      answered has the relayer assemble the quote it signed; an assembly is
      forwarded only when authorized, valid and granted; when a refund is
      granted and how much.
    - Settlement: a settlement is processed once, and credited again when a
      later step of it fails.
    - ServerCache: the caches are transparent for every sequence of requests; a
      deactivated key is never authorized, in every interleaving but those with a
      lookup or creation of the key that still has to cache its row.
    - Rfqt, Markets, Stringify: what RFQ-T replies carry, the fees shown to a
      caller, and the round trip of quoted numbers.
    - RelayerProxy: whatever headers a client sends, the relayer gets one request
      signed by the admin over the headers that are sent, and the client the
      relayer's reply.
    - AuthStartup: the parts of a started server share one bundle store, limiter and
      sampler; a failed start-up starts nothing; the end of the listener ends the
      server; how the gas of each chain is priced.
    - Fireblocks: the bucket is bounded and the calls let through are at most
      the burst plus one per period, under every interleaving.
    - Swap: a swap terminates, fills at most once, sends only quotes that passed
      the checks, picks the best quote.
    - Venues: what an execution sends and when it counts as filled; a source that
      failed is tried again only at half the amount or less; Cowswap's polling ends;
      a call whose receipt is lost is repeated.
    - VenueHttp: the requests of a client go to its own service with its own key, none
      is made for a chain the service does not know, and the quotes are those of [Venues].
    - SwapCosts: the swap endpoint from request to reply, the cost series a swap
      reaches, and the swaps a deadline hides.
    - AuthRoutes, FundsRoutes: which request reaches which handler, with what;
      authentication guards the handlers of the funds manager.
    - GasWallets: the table refines a map of wallets to their states; a
      registered peer keeps its wallet, an absent one loses it, and two racing
      registrations share one.
    - Custody, FundsManager: only Hyperliquid messages are signed, for the address
      that Fireblocks gave for the Hyperliquid vault; withdrawals are checked, put on
      the chain at most once, and succeed when confirmed; polling ends, at the first
      final status; what a signature covers.
    - FundsHandlers: a registered peer is listed as the holder of the wallet whose key
      it got; a created hot wallet receives the deposits of its vault.
    - FundsStartup: a server has the clients of the chains it was configured for;
      authentication is off only when asked for; requests to the relayer are signed.
    - ExchangeWire: the symbol an exchange is asked about is the one subscribed to; an
      initial price comes first and once.
    - PriceSession: prices are written only for topics a client is subscribed to, and
      every text is answered; both servers start or neither; what a failed accept stops.
    - PriceEndToEnd: a finite price the server writes for a topic is read by the client
      as the price of the mint that it subscribed to with that topic.
    - PriceReporter, PriceServer, PriceClient: the book replicates the feed;
      published prices are valid and fresh; one publisher per pair;
      subscriptions; which price a client reads.
    - PriceFeeds: a refresh converges to the default set of streams; renewed
      subscriptions are authenticated; a stream whose task panicked stays.
    - PoolRunner: orders return to the global pool and every task ends.
    - PoolListener: a connected listener misses no order of the global pool, and
      recovers within its pause; a started service serves one chain.
    - Telemetry: metrics never interfere with what the tasks write; the metrics
      of a bundle are recorded all or not at all; prices of whole units are
      applied to atomic amounts.
    - Compliance: verdicts are justified by a recent assessment under every
      interleaving, and addresses are screened once a week.
    - Indexer: what is stored is read back, and the rows of an account are
      written together, for every delivery and failure.
    - ProverService: nothing is proved without the credentials, and a reply
      carries the proof asked for with the links of its request.
    - ServiceStartup, Logging: the messages of the queue are handled or logged, the end
      of the consumer is not the status of the process; a line is read back as written.

    ** Bounds and fuel

    Four loops take fuel.  [Swap.swap_loop] gets [SWAP_FUEL] = 660 turns: an
    amount below 2^128 halves at most 128 times, with at most four exclusions
    between two halvings, and the tolerance grows at most fourteen times;
    [swap_terminates] proves that this suffices.  The polling of [Custody] gets
    [POLL_FUEL] = 61 turns, a minute of one-second pauses, after which the code
    gives up; so does that of [Venues], [AWAIT_FUEL] = 61.  [PriceReporter.exhaust_retries] may loop for ever; [retry_budget]
    gives the case in which fifteen turns suffice, and the case in which none
    do.  The limits of [RateLimiter] are below 2^53 - 1, where counters kept as
    doubles are exact.

    ** What is not modelled

    The sinks of logs, traces and metrics, the establishment of database connections
    and the generated schemas are I/O.  External services (the APIs of the
    venues, the Fireblocks SDK, RPC nodes, the proving library) are parameters.
    The fee indexer of the funds manager and the OKX connector of the auth server
    are commented out of the build.  A database transaction is taken as atomic; failures of its queries
    stand for conflicts with others. *)
From Stdlib Require Import ZArith Lia Ascii.
From stdpp Require Import gmap strings list.

(** ** Outcomes of a Rust computation

    A fallible Rust function returns [Ok] or [Err]; it may also panic
    ([unwrap], [expect], [assert!], an out-of-range index).  [Panic] is kept
    apart from [Err] because a panic unwinds the task and poisons any
    [std::sync::Mutex] it holds. *)
Inductive res (E A : Type) : Type :=
  | Ok (a : A)
  | Err (e : E)
  | Panic.
Arguments Ok {E A} a.
Arguments Err {E A} e.
Arguments Panic {E A}.

(** The [?] operator: stdpp's [x ← m; k] notation. *)
#[export] Instance res_ret E : MRet (res E) := fun A a => Ok a.
#[export] Instance res_bind E : MBind (res E) := fun A B f m =>
  match m with Ok a => f a | Err e => Err e | Panic => Panic end.

(** [Result::map_err] and [Option::ok_or]. *)
Definition map_err {E F A} (f : E -> F) (m : res E A) : res F A :=
  match m with Ok a => Ok a | Err e => Err (f e) | Panic => Panic end.
Definition ok_or {E A} (o : option A) (e : E) : res E A :=
  match o with Some a => Ok a | None => Err e end.
(** [Option::unwrap] and [Option::expect]. *)
Definition unwrap {E A} (o : option A) : res E A :=
  match o with Some a => Ok a | None => Panic end.

Lemma bind_Ok_inv {E A B} (m : res E A) (f : A -> res E B) b :
  (m ≫= f) = Ok b -> exists a, m = Ok a /\ f a = Ok b.
Proof. destruct m; cbn; naive_solver. Qed.

Lemma map_err_Ok {E F A} (f : E -> F) (m : res E A) a : map_err f m = Ok a -> m = Ok a.
Proof. destruct m; cbn; congruence. Qed.

(** Stateful fallible code: a computation reads and changes a state of type [S]
    and the change stays when it fails, as writes made before a [?] do. *)
Definition eff (S E A : Type) : Type := S -> res E A * S.
#[export] Instance eff_ret S E : MRet (eff S E) := fun A a s => (Ok a, s).
#[export] Instance eff_bind S E : MBind (eff S E) := fun A B f m s =>
  match m s with
  | (Ok a, s') => f a s'
  | (Err e, s') => (Err e, s')
  | (Panic, s') => (Panic, s')
  end.
(** A step without effect, and one that only changes the state. *)
Definition lift {S E A} (r : res E A) : eff S E A := fun s => (r, s).
Definition modify {S E} (f : S -> S) : eff S E unit := fun s => (Ok tt, f s).
Definition gets {S E A} (f : S -> A) : eff S E A := fun s => (Ok (f s), s).

Lemma lift_Ok {S E A} (r : res E A) (s : S) a s' : lift r s = (Ok a, s') -> r = Ok a /\ s' = s.
Proof. unfold lift. by intros [= -> ->]. Qed.

Section Eff.
Context {S E A B : Type}.

Lemma eff_bind_Ok (m : eff S E A) (f : A -> eff S E B) s b s' :
  (m ≫= f) s = (Ok b, s') -> exists a s1, m s = (Ok a, s1) /\ f a s1 = (Ok b, s').
Proof. unfold mbind, eff_bind. destruct (m s) as [[] ?]; naive_solver. Qed.

Lemma eff_bind_run (m : eff S E A) (f : A -> eff S E B) s a s1 :
  m s = (Ok a, s1) -> (m ≫= f) s = f a s1.
Proof. unfold mbind, eff_bind. by intros ->. Qed.

Lemma eff_bind_cases (m : eff S E A) (f : A -> eff S E B) s r s' :
  (m ≫= f) s = (r, s') -> (exists a s1, m s = (Ok a, s1) /\ f a s1 = (r, s')) \/ s' = (m s).2.
Proof. unfold mbind, eff_bind. destruct (m s) as [[] ?]; naive_solver. Qed.

(** A relation between states kept by every step is kept by the whole. *)
Lemma eff_bind_state (R : S -> S -> Prop) `{!Transitive R} (m : eff S E A) (f : A -> eff S E B) s :
  R s (m s).2 -> (forall a s1, R s1 (f a s1).2) -> R s ((m ≫= f) s).2.
Proof.
  unfold mbind, eff_bind. intros Hm Hf.
  destruct (m s) as [[a|e|] s1]; cbn in *; [|done..]. by etrans.
Qed.
End Eff.

(** ** Machine integers

    Unsigned integers are values of [Z] in their range.  The deployed binaries
    are release builds without [overflow-checks], so the plain operators of
    [u32], [u64] and [u128] wrap; so do the plain operators of alloy's
    [U256]. *)
Definition uwrap (w z : Z) : Z := (z mod 2 ^ w)%Z.
Definition umax (w : Z) : Z := (2 ^ w - 1)%Z.
Definition in_u (w z : Z) : Prop := (0 <= z < 2 ^ w)%Z.
Definition in_ub (w z : Z) : bool := ((0 <=? z) && (z <? 2 ^ w))%Z.

Definition uadd (w a b : Z) : Z := uwrap w (a + b).
Definition usub (w a b : Z) : Z := uwrap w (a - b).
Definition umul (w a b : Z) : Z := uwrap w (a * b).
Definition checked_add (w a b : Z) : option Z :=
  if (a + b <? 2 ^ w)%Z then Some (a + b)%Z else None.
Definition checked_mul (w a b : Z) : option Z :=
  if (a * b <? 2 ^ w)%Z then Some (a * b)%Z else None.
Definition saturating_sub (a b : Z) : Z := Z.max 0 (a - b).
(** [try_into] between unsigned widths. *)
Definition try_into_u (w z : Z) : option Z :=
  if (z <? 2 ^ w)%Z then Some z else None.

Section Machine.
Local Open Scope Z_scope.

Lemma uwrap_range w z : 0 <= w -> in_u w (uwrap w z).
Proof. intros. apply Z.mod_pos_bound. apply Z.pow_pos_nonneg; lia. Qed.

Lemma uwrap_id w z : in_u w z -> uwrap w z = z.
Proof. apply Z.mod_small. Qed.

(** Wrapping addition is undone by wrapping subtraction, overflow or not. *)
Lemma usub_uadd w a b : in_u w a -> usub w (uadd w a b) b = a.
Proof.
  intros Ha. unfold usub, uadd, uwrap.
  rewrite Zminus_mod_idemp_l. replace (a + b - b) with a by lia.
  by apply Z.mod_small.
Qed.

Lemma uadd_usub w a b : in_u w a -> uadd w (usub w a b) b = a.
Proof.
  intros Ha. unfold usub, uadd, uwrap.
  rewrite Zplus_mod_idemp_l. replace (a - b + b) with a by lia.
  by apply Z.mod_small.
Qed.

Lemma checked_mul_Some w a b p : checked_mul w a b = Some p <-> p = a * b /\ a * b < 2 ^ w.
Proof.
  unfold checked_mul. destruct (Z.ltb_spec (a * b) (2 ^ w)); split; [intros [= <-]|intros [? ?]|intros [=]|intros [? ?]]; subst; auto; lia.
Qed.

Lemma checked_add_Some w a b p : checked_add w a b = Some p <-> p = a + b /\ a + b < 2 ^ w.
Proof.
  unfold checked_add. destruct (Z.ltb_spec (a + b) (2 ^ w)); split; [intros [= <-]|intros [? ?]|intros [=]|intros [? ?]]; subst; auto; lia.
Qed.

Lemma try_into_u_Some w a p : try_into_u w a = Some p <-> p = a /\ a < 2 ^ w.
Proof. unfold try_into_u. destruct (Z.ltb_spec a (2 ^ w)); split; [intros [= <-]|intros [? ?]|intros [=]|intros [? ?]]; subst; auto; lia. Qed.

Lemma in_ub_spec w z : in_ub w z = true <-> in_u w z.
Proof. unfold in_ub, in_u. rewrite andb_true_iff, Z.leb_le, Z.ltb_lt. done. Qed.
End Machine.

(** A [Uuid] is a 128-bit identifier, an [Address] a 160-bit one; the code only
    compares and hashes them. *)
Abbreviation Uuid := Z (only parsing).
Abbreviation Address := Z (only parsing).

(** The chains of renegade_types_core. *)
Inductive Chain :=
  | ArbitrumOne | ArbitrumSepolia | BaseMainnet | BaseSepolia
  | EthereumMainnet | EthereumSepolia | Devnet.
#[export] Instance chain_eq_dec : EqDecision Chain.
Proof. solve_decision. Defined.

(** ** Automation *)
Create HintDb rust discriminated.
#[export] Hint Resolve uwrap_range usub_uadd uadd_usub : rust.

(** Splits a hypothesis [m ≫= f = Ok b] into its steps. *)
Ltac inv_ok :=
  repeat match goal with
  | H : (_ ≫= _) = Ok _ |- _ => apply bind_Ok_inv in H as (? & ? & H)
  | H : Ok _ = Ok _ |- _ => injection H as H
  | H : Err _ = Ok _ |- _ => discriminate H
  | H : Panic = Ok _ |- _ => discriminate H
  | H : Ok _ = Err _ |- _ => discriminate H
  | H : Ok _ = Panic |- _ => discriminate H
  end.

(** Case analysis on the scrutinee of the first [match] or [if] of the goal. *)
Ltac split_match :=
  match goal with
  | |- context [match ?x with _ => _ end] => destruct x eqn:?
  end.

(** Same in a hypothesis. *)
Ltac split_match_in H :=
  match type of H with
  | context [match ?x with _ => _ end] => destruct x eqn:?
  end.

(** ** Strings

    [str::split] with a character, [to_lowercase] on ASCII and [contains]. *)
Fixpoint split_on (sep : Ascii.ascii) (s : string) : list string :=
  match s with
  | EmptyString => [EmptyString]
  | String c s =>
      if Ascii.eqb c sep then EmptyString :: split_on sep s
      else match split_on sep s with
           | p :: ps => String c p :: ps
           | [] => [String c EmptyString]
           end
  end.

Definition lower_ascii (c : Ascii.ascii) : Ascii.ascii :=
  let n := Ascii.N_of_ascii c in
  if ((65 <=? n) && (n <=? 90))%N then Ascii.ascii_of_N (n + 32)%N else c.
Fixpoint to_lowercase (s : string) : string :=
  match s with EmptyString => EmptyString | String c s => String (lower_ascii c) (to_lowercase s) end.

Fixpoint str_contains (pat s : string) : bool :=
  String.prefix pat s ||
  match s with EmptyString => false | String _ s => str_contains pat s end.

Fixpoint str_mem (c : Ascii.ascii) (s : string) : bool :=
  match s with EmptyString => false | String d s => Ascii.eqb d c || str_mem c s end.

Lemma split_on_none sep s : str_mem sep s = false -> split_on sep s = [s].
Proof.
  induction s as [|c s IH]; cbn; [done|]. intros [-> Hs]%orb_false_iff. by rewrite IH.
Qed.

Lemma split_on_app sep a b :
  str_mem sep a = false -> split_on sep (a +:+ String sep b) = a :: split_on sep b.
Proof.
  unfold String.append. induction a as [|c a IH]; cbn -[Ascii.eqb]; [by rewrite Ascii.eqb_refl|].
  intros [-> Ha]%orb_false_iff. by rewrite IH.
Qed.

Lemma lower_ascii_idem c : lower_ascii (lower_ascii c) = lower_ascii c.
Proof. by destruct c as [[] [] [] [] [] [] [] []]. Qed.
Lemma to_lowercase_idem s : to_lowercase (to_lowercase s) = to_lowercase s.
Proof. induction s; cbn; [done|]. by rewrite lower_ascii_idem; f_equal. Qed.

Lemma prefix_app a b : String.prefix a (a +:+ b) = true.
Proof.
  unfold String.append. induction a as [|c a IH]; cbn; [by destruct b|].
  by destruct (Ascii.ascii_dec c c).
Qed.

(** ** Lists *)
Section Lists.
Context {A B C : Type}.

Lemma length_zip_with_eq (f : A -> B -> C) l k :
  length l = length k -> length (zip_with f l k) = length l.
Proof. intros. rewrite length_zip_with. lia. Qed.
End Lists.
