(* ===== verification/F64.v ===== *)
(** * IEEE-754 doubles

    Rust's [f64] as the axiom-free binary64 arithmetic of the Standard Library
    ([SpecFloat] at precision 53 and maximal exponent 1024): every operation is
    executable and correctly rounded, NaN and the infinities included.  The
    theorems of the components need two groups of facts, proved here: the
    comparison operators form a strict weak order away from NaN, and integers
    below [2^53] are represented, compared, added and subtracted exactly. *)
From Stdlib Require Import ZArith Lia SpecFloat.
From stdpp Require Import base numbers list.
From S2P Require Import Prelude.
Local Open Scope Z_scope.

Definition f64 : Type := spec_float.
Definition PREC : Z := 53.
Definition EMAX : Z := 1024.

Definition fadd (x y : f64) : f64 := SFadd PREC EMAX x y.
Definition fsub (x y : f64) : f64 := SFsub PREC EMAX x y.
Definition fmul (x y : f64) : f64 := SFmul PREC EMAX x y.
Definition fdiv (x y : f64) : f64 := SFdiv PREC EMAX x y.
Definition fabs (x : f64) : f64 := SFabs x.
Definition fneg (x : f64) : f64 := SFopp x.

(** Rust's [==], [<], [<=] on floats: false as soon as one side is NaN. *)
Definition feqb (x y : f64) : bool := SFeqb x y.
Definition fltb (x y : f64) : bool := SFltb x y.
Definition fleb (x y : f64) : bool := SFleb x y.
Definition fgtb (x y : f64) : bool := SFltb y x.
Definition fgeb (x y : f64) : bool := SFleb y x.

Definition is_nan (x : f64) : bool := match x with S754_nan => true | _ => false end.
Definition is_finite (x : f64) : bool :=
  match x with S754_zero _ | S754_finite _ _ _ => true | _ => false end.

(** [n as f64] for an integer, and a literal [n/d] with [n], [d] exactly
    representable: correct rounding makes the quotient the nearest double of
    the decimal literal. *)
Definition of_Z (n : Z) : f64 := binary_normalize PREC EMAX n 0 false.
Definition lit (n d : Z) : f64 := fdiv (of_Z n) (of_Z d).

(** The positive number with the given significand and exponent. *)
Definition of_parts (m : positive) (e : Z) : f64 := S754_finite false m e.

Definition f0 : f64 := S754_zero false.
Definition f1 : f64 := of_Z 1.
Definition f2 : f64 := of_Z 2.
Definition finf : f64 := S754_infinity false.
Definition fnan : f64 := S754_nan.

(** [f64::max]: a NaN operand is ignored. *)
Definition fmax (x y : f64) : f64 :=
  if is_nan x then y else if is_nan y then x else if fltb x y then y else x.

(** [x as u128] (and [as u64]): truncates towards zero and saturates. *)
Definition to_uint (w : Z) (x : f64) : Z :=
  match x with
  | S754_nan | S754_zero _ | S754_infinity true | S754_finite true _ _ => 0
  | S754_infinity false => umax w
  | S754_finite false m e =>
      Z.min (umax w) (if 0 <=? e then Zpos m * 2 ^ e else Zpos m / 2 ^ (- e))
  end.

Lemma to_uint_range w x : 0 < w -> in_u w (to_uint w x).
Proof.
  intros Hw. assert (0 < 2 ^ w) by (apply Z.pow_pos_nonneg; lia).
  unfold to_uint, in_u, umax. destruct x as [|[]| |[] m e]; try lia.
  destruct (Z.leb_spec 0 e).
  - assert (0 <= Zpos m * 2 ^ e) by (apply Z.mul_nonneg_nonneg; [lia|apply Z.pow_nonneg; lia]). lia.
  - assert (0 <= Zpos m / 2 ^ (- e)) by (apply Z.div_pos; [lia|apply Z.pow_pos_nonneg; lia]). lia.
Qed.

(** ** Order *)
Definition non_nan (x : f64) : Prop := is_nan x = false.

(** Unfolds the comparison operators and splits on the operands. *)
Ltac float_cases :=
  unfold non_nan, feqb, fltb, fleb, fgtb, fgeb, SFeqb, SFltb, SFleb in *;
  repeat match goal with
  | x : f64 |- _ => destruct x as [[]|[]| |[] ? ?]
  end; cbn in *; try done.

Lemma compare_swap (x y : f64) :
  SFcompare y x = match SFcompare x y with Some c => Some (CompOpp c) | None => None end.
Proof.
  float_cases; f_equal; rewrite (Z.compare_antisym e e0); destruct (e ?= e0)%Z eqn:E; cbn;
    try done; change (Pos.compare_cont Eq) with Pos.compare;
    rewrite (Pos.compare_antisym m m0); by destruct (m ?= m0)%positive.
Qed.

Lemma fltb_irrefl (x : f64) : fltb x x = false.
Proof.
  float_cases; rewrite Z.compare_refl; change (Pos.compare_cont Eq) with Pos.compare;
    by rewrite Pos.compare_refl.
Qed.

Lemma fleb_refl (x : f64) : non_nan x -> fleb x x = true.
Proof.
  float_cases; rewrite Z.compare_refl; change (Pos.compare_cont Eq) with Pos.compare;
    by rewrite Pos.compare_refl.
Qed.

(** Lexicographic comparison of exponent and mantissa. *)
Definition lex_lt (e m e' m' : Z) : Prop := e < e' \/ (e = e' /\ m < m').

Lemma finite_compare (m m' : positive) (e e' : Z) :
  match (e ?= e')%Z with
  | Lt => Lt | Gt => Gt | Eq => Pos.compare_cont Eq m m'
  end = Lt <-> lex_lt e (Zpos m) e' (Zpos m').
Proof.
  change (Pos.compare_cont Eq) with Pos.compare. unfold lex_lt.
  destruct (Z.compare_spec e e'); [rewrite Pos.compare_lt_iff| |]; split; intros;
    try discriminate; try lia; done.
Qed.

(** The order of a double as an integer triple: sign class, exponent, mantissa. *)
Definition key (x : f64) : Z * (Z * Z) :=
  match x with
  | S754_nan => (0, (0, 0))
  | S754_infinity true => (-2, (0, 0))
  | S754_finite true m e => (-1, (- e, - Zpos m))
  | S754_zero _ => (0, (0, 0))
  | S754_finite false m e => (1, (e, Zpos m))
  | S754_infinity false => (2, (0, 0))
  end.

Definition key_lt (a b : Z * (Z * Z)) : Prop :=
  a.1 < b.1 \/ (a.1 = b.1 /\ lex_lt a.2.1 a.2.2 b.2.1 b.2.2).

Lemma fltb_key (x y : f64) :
  fltb x y = true <-> non_nan x /\ non_nan y /\ key_lt (key x) (key y).
Proof.
  unfold key_lt, non_nan. destruct x as [[]|[]| |[] m e], y as [[]|[]| |[] m' e'];
    unfold fltb, SFltb; cbn; unfold lex_lt; try (intuition (try lia; done)).
  - destruct (Z.compare_spec e e') as [->| |];
      [rewrite Pos.compare_cont_spec; destruct (Pos.compare_spec m m'); subst|..]; cbn;
      intuition (try lia; done).
  - destruct (Z.compare_spec e e') as [->| |];
      [rewrite Pos.compare_cont_spec; destruct (Pos.compare_spec m m'); subst|..]; cbn;
      intuition (try lia; done).
Qed.

Lemma fleb_key (x y : f64) :
  fleb x y = true <-> non_nan x /\ non_nan y /\ ~ key_lt (key y) (key x).
Proof.
  assert (H : fleb x y = true <-> non_nan x /\ non_nan y /\ fltb y x = false).
  { unfold fleb, SFleb, fltb, SFltb, non_nan. rewrite (compare_swap x y).
    assert (Hn : SFcompare x y = None <-> ~ (is_nan x = false /\ is_nan y = false))
      by (destruct x, y; cbn; intuition congruence).
    assert (Hd : SFcompare x y = None \/ (is_nan x = false /\ is_nan y = false))
      by (destruct x, y; cbn; tauto).
    destruct (SFcompare x y) as [[]|]; cbn; split; try done;
      destruct Hd as [Hd|Hd]; try discriminate; try tauto; by intros (? & ? & ?). }
  rewrite H. split; intros (Hx & Hy & Hl); split; [done| |done|]; split; try done.
  - intros Hk. assert (fltb y x = true) by (by apply fltb_key). congruence.
  - destruct (fltb y x) eqn:E; [|done]. apply fltb_key in E. tauto.
Qed.

Lemma key_lt_trans a b c : key_lt a b -> key_lt b c -> key_lt a c.
Proof. unfold key_lt, lex_lt. lia. Qed.

Lemma fltb_trans x y z : fltb x y = true -> fltb y z = true -> fltb x z = true.
Proof. rewrite !fltb_key. unfold key_lt, lex_lt. intuition lia. Qed.

Lemma fleb_trans x y z : fleb x y = true -> fleb y z = true -> fleb x z = true.
Proof. rewrite !fleb_key. unfold key_lt, lex_lt. intuition lia. Qed.

Lemma fltb_fleb x y : fltb x y = true -> fleb x y = true.
Proof. rewrite fltb_key, fleb_key. unfold key_lt, lex_lt. intuition lia. Qed.

Lemma fltb_asym x y : fltb x y = true -> fltb y x = false.
Proof.
  intros H. destruct (fltb y x) eqn:E; [|done].
  rewrite fltb_key in *. unfold key_lt, lex_lt in *. intuition lia.
Qed.

Lemma fltb_false_fleb x y : non_nan x -> non_nan y -> fltb x y = false -> fleb y x = true.
Proof.
  intros Hx Hy H. apply fleb_key. repeat split; auto. intros Hk.
  assert (fltb x y = true) by (by apply fltb_key). congruence.
Qed.

Lemma fleb_false_fltb x y : non_nan x -> non_nan y -> fleb x y = false -> fltb y x = true.
Proof.
  intros Hx Hy H. destruct (fltb y x) eqn:E; [done|].
  apply fltb_false_fleb in E; auto. congruence.
Qed.

Lemma fleb_fltb_false x y : fleb x y = true -> fltb y x = false.
Proof.
  intros H. destruct (fltb y x) eqn:E; [|done]. apply fleb_key in H. apply fltb_key in E. tauto.
Qed.

Lemma fleb_non_nan x y : fleb x y = true -> non_nan x /\ non_nan y.
Proof. rewrite fleb_key. tauto. Qed.

Lemma finite_non_nan x : is_finite x = true -> non_nan x.
Proof. by destruct x. Qed.

(** A finite positive double is exactly a positive significand. *)
Lemma finite_pos x :
  is_finite x = true -> fleb x f0 = false -> exists m e, x = S754_finite false m e.
Proof. destruct x as [[]|[]| |[] m e]; cbn; try done; eauto. Qed.

(** ** Sign of rounded results *)
Definition sign_ok (s : bool) (x : f64) : Prop :=
  match x with
  | S754_zero s' | S754_infinity s' | S754_finite s' _ _ => s' = s
  | S754_nan => True
  end.

Lemma round_aux_sign s m e l : sign_ok s (binary_round_aux PREC EMAX s m e l).
Proof.
  unfold binary_round_aux. destruct (shr_fexp _ _ m e l) as [mrs e'].
  destruct (shr_fexp _ _ _ e' loc_Exact) as [mrs' e'']. destruct (shr_m mrs'); cbn; try done.
  by destruct (_ <=? _).
Qed.

Lemma shr_1_nonneg r : 0 <= shr_m r -> 0 <= shr_m (shr_1 r).
Proof. destruct r as [[|[]|[]] [] []]; cbn; lia. Qed.

Lemma iter_shr_nonneg n r : 0 <= shr_m r -> 0 <= shr_m (SpecFloat.iter_pos shr_1 n r).
Proof.
  revert r; induction n; cbn; intros; auto using shr_1_nonneg.
Qed.

Lemma shr_fexp_nonneg m e l : 0 <= m -> 0 <= shr_m (shr_fexp PREC EMAX m e l).1.
Proof.
  intros Hm. unfold shr_fexp, shr.
  assert (0 <= shr_m (shr_record_of_loc m l)) by (by destruct l as [|[]]).
  destruct (_ - e); cbn; auto using iter_shr_nonneg.
Qed.

Lemma round_aux_non_nan s m e l : 0 <= m -> non_nan (binary_round_aux PREC EMAX s m e l).
Proof.
  intros Hm. unfold binary_round_aux.
  pose proof (shr_fexp_nonneg m e l Hm) as H1.
  destruct (shr_fexp _ _ m e l) as [mrs e']; cbn in *.
  set (m2 := round_nearest_even _ _).
  assert (0 <= m2) as H2.
  { subst m2. unfold round_nearest_even.
    destruct (loc_of_shr_record mrs) as [|[]]; try destruct (Z.even _); lia. }
  pose proof (shr_fexp_nonneg m2 e' loc_Exact H2) as H3.
  destruct (shr_fexp _ _ m2 e' loc_Exact) as [mrs' e'']; cbn in *.
  destruct (shr_m mrs'); [done|by destruct (_ <=? _)|lia].
Qed.

Lemma binary_round_sign s m e :
  sign_ok s (binary_round PREC EMAX s m e) /\ non_nan (binary_round PREC EMAX s m e).
Proof.
  unfold binary_round. destruct (shl_align _ _ _). split.
  - apply round_aux_sign.
  - apply round_aux_non_nan. lia.
Qed.

(** Sums of positive doubles are never NaN and never negative. *)
Lemma fadd_pos m e m' e' :
  sign_ok false (fadd (S754_finite false m e) (S754_finite false m' e')) /\
  non_nan (fadd (S754_finite false m e) (S754_finite false m' e')).
Proof.
  unfold fadd, SFadd, cond_Zopp. cbn [Z.add].
  apply (binary_round_sign false).
Qed.

(** Halving keeps the sign and never produces NaN. *)
Lemma fdiv2_sign s x :
  sign_ok s x -> non_nan x -> sign_ok s (fdiv x f2) /\ non_nan (fdiv x f2).
Proof.
  change f2 with (S754_finite false 4503599627370496 (-51)). unfold fdiv.
  destruct x as [s'|s'| |s' m e]; cbn -[SFdiv]; intros Hs Hn; try done; subst;
    try (by destruct s).
  unfold SFdiv.
  destruct (SFdiv_core_binary _ _ _ _ _ _) as [[mz ez] lz] eqn:E. rewrite xorb_false_r.
  split; [apply round_aux_sign|]. apply round_aux_non_nan.
  unfold SFdiv_core_binary in E.
  match type of E with context [Z.div_eucl ?a ?b] =>
    assert (0 <= a) as Ha by
      (destruct (_ - _) as [|p|p]; try lia; apply Z.shiftl_nonneg; lia);
    assert (0 <= a / b) as Hq by (apply Z.div_pos; lia);
    unfold Z.div in Hq; destruct (Z.div_eucl a b)
  end.
  by injection E as <- <- <-.
Qed.

(** ** Exact integers *)

(** [p * 2^k] as a positive. *)
Definition pshl (p : positive) (k : Z) : positive :=
  match k with Zpos d => Pos.iter xO p d | _ => p end.

Lemma pshl_Z p k : 0 <= k -> Zpos (pshl p k) = Zpos p * 2 ^ k.
Proof.
  destruct k as [|d|d]; cbn [pshl]; intros; [cbn; lia| |lia].
  induction d as [|d IH] using Pos.peano_ind.
  - cbn. lia.
  - rewrite Pos.iter_succ, Pos2Z.inj_succ, Z.pow_succ_r by lia.
    rewrite (Pos2Z.inj_xO (Pos.iter xO p d)), IH by lia. lia.
Qed.

Definition digits (p : positive) : Z := Zpos (digits2_pos p).

Lemma digits_bounds p : 2 ^ (digits p - 1) <= Zpos p < 2 ^ digits p.
Proof.
  unfold digits. induction p as [p IH|p IH|]; cbn [digits2_pos]; [| |cbn; lia];
    rewrite Pos2Z.inj_succ;
    replace (Z.succ (Zpos (digits2_pos p)) - 1) with (Z.succ (Zpos (digits2_pos p) - 1)) by lia;
    rewrite !Z.pow_succ_r by lia; lia.
Qed.

Lemma digits_unique p d : 0 < d -> 2 ^ (d - 1) <= Zpos p < 2 ^ d -> digits p = d.
Proof.
  intros Hd H. pose proof (digits_bounds p) as H'.
  assert (0 < digits p) by (unfold digits; lia).
  destruct (Z.lt_total (digits p) d) as [?|[?|?]]; [|done|].
  - assert (2 ^ digits p <= 2 ^ (d - 1)) by (apply Z.pow_le_mono_r; lia). lia.
  - assert (2 ^ d <= 2 ^ (digits p - 1)) by (apply Z.pow_le_mono_r; lia). lia.
Qed.

Lemma digits_pshl p k : 0 <= k -> digits (pshl p k) = digits p + k.
Proof.
  intros Hk. assert (0 < digits p) by (unfold digits; lia).
  apply digits_unique; [lia|]. rewrite pshl_Z by lia.
  replace (digits p + k - 1) with (digits p - 1 + k) by lia.
  rewrite !Z.pow_add_r by lia. pose proof (digits_bounds p).
  assert (0 < 2 ^ k) by (apply Z.pow_pos_nonneg; lia). nia.
Qed.

Lemma digits_small p : Zpos p < 2 ^ 53 -> digits p <= 53.
Proof.
  intros H. pose proof (digits_bounds p).
  destruct (Z.le_gt_cases (digits p) 53); [done|].
  assert (2 ^ 53 <= 2 ^ (digits p - 1)) by (apply Z.pow_le_mono_r; lia). lia.
Qed.

Lemma pshl_eq p q k l :
  0 <= k -> 0 <= l -> Zpos p * 2 ^ k = Zpos q * 2 ^ l -> pshl p k = pshl q l.
Proof. intros. apply Pos2Z.inj. by rewrite !pshl_Z by lia. Qed.

Lemma iter_shr_exact p n :
  SpecFloat.iter_pos shr_1 n (Build_shr_record (Zpos (pshl p (Zpos n))) false false) =
  Build_shr_record (Zpos p) false false.
Proof.
  assert (Hg : forall A (f : A -> A) n x, SpecFloat.iter_pos f n x = Pos.iter f x n).
  { intros A f n'. induction n'; intros; cbn; [| |done].
    - rewrite !IHn', <- !Pos.iter_swap. done.
    - by rewrite !IHn'. }
  rewrite Hg. revert p. induction n as [|n IH] using Pos.peano_ind; intros; [done|].
  rewrite Pos.iter_succ_r.
  replace (shr_1 _) with (Build_shr_record (Zpos (pshl p (Zpos n))) false false).
  - apply IH.
  - cbn [pshl]. by rewrite Pos.iter_succ.
Qed.

Definition norm (p : positive) : f64 :=
  S754_finite false (pshl p (53 - digits p)) (digits p - 53).

(** Rounding a normalised significand is the identity. *)
Lemma round_aux_exact p k :
  Zpos p < 2 ^ 53 -> 0 <= k ->
  53 - digits p <= k ->
  binary_round_aux PREC EMAX false (Zpos (pshl p k)) (- k) loc_Exact = norm p.
Proof.
  intros Hp Hk Hle. assert (0 < digits p) by (unfold digits; lia).
  pose proof (digits_small p Hp).
  assert (Hfix : shr_fexp PREC EMAX (Zpos (pshl p (53 - digits p))) (digits p - 53) loc_Exact
    = (Build_shr_record (Zpos (pshl p (53 - digits p))) false false, digits p - 53)).
  { unfold shr_fexp, Zdigits2. fold (digits (pshl p (53 - digits p))).
    rewrite digits_pshl by lia. unfold fexp, SpecFloat.emin, PREC, EMAX.
    replace (_ - (digits p - 53)) with 0 by lia. done. }
  assert (Hsh : shr_fexp PREC EMAX (Zpos (pshl p k)) (- k) loc_Exact
    = (Build_shr_record (Zpos (pshl p (53 - digits p))) false false, digits p - 53)).
  { unfold shr_fexp, Zdigits2. fold (digits (pshl p k)). rewrite digits_pshl by lia.
    unfold fexp, SpecFloat.emin, PREC, EMAX.
    replace (Z.max (digits p + k + - k - 53) (3 - 1024 - 53) - - k)
      with (k - (53 - digits p)) by lia.
    unfold shr, shr_record_of_loc.
    destruct (k - (53 - digits p)) as [|d|d] eqn:E; [..|lia].
    - f_equal; [|lia]. do 3 f_equal. lia.
    - rewrite <- (iter_shr_exact (pshl p (53 - digits p)) d). f_equal; [|lia]. do 3 f_equal.
      apply Pos2Z.inj. rewrite !pshl_Z, <- Z.mul_assoc, <- Z.pow_add_r by lia.
      f_equal. f_equal. lia. }
  unfold binary_round_aux. rewrite Hsh. cbn [loc_of_shr_record shr_m round_nearest_even].
  rewrite Hfix. cbn [shr_m]. unfold norm.
  destruct (Z.leb_spec (digits p - 53) (EMAX - PREC)); [done|unfold EMAX, PREC in *; lia].
Qed.

Lemma binary_round_exact p k :
  Zpos p < 2 ^ 53 -> 0 <= k -> binary_round PREC EMAX false (pshl p k) (- k) = norm p.
Proof.
  intros Hp Hk. pose proof (digits_small p Hp).
  assert (0 < digits p) by (unfold digits; lia).
  unfold binary_round, shl_align. fold (digits (pshl p k)). rewrite digits_pshl by lia.
  unfold fexp, SpecFloat.emin, PREC, EMAX.
  replace (Z.max (digits p + k + - k - 53) (3 - 1024 - 53) - - k)
    with (k - (53 - digits p)) by lia.
  replace (Z.max (digits p + k + - k - 53) (3 - 1024 - 53)) with (- (53 - digits p)) by lia.
  destruct (k - (53 - digits p)) as [|d|d] eqn:E; [apply round_aux_exact; lia..|].
  rewrite <- (round_aux_exact p (53 - digits p)) by lia. f_equal. f_equal.
  change (Pos.iter xO (pshl p k) d) with (pshl (pshl p k) (Zpos d)).
  apply Pos2Z.inj. rewrite !pshl_Z, <- Z.mul_assoc, <- Z.pow_add_r by lia.
  f_equal. f_equal. lia.
Qed.

Lemma of_Z_pos p : Zpos p < 2 ^ 53 -> of_Z (Zpos p) = norm p.
Proof. intros. apply (binary_round_exact p 0); lia. Qed.

Definition small_int (n : Z) : Prop := 0 <= n < 2 ^ 53.

(** Comparing small integers as doubles is comparing them as integers. *)
Lemma of_Z_compare a b :
  small_int a -> small_int b -> SFcompare (of_Z a) (of_Z b) = Some (a ?= b).
Proof.
  unfold small_int. intros [Ha Ha'] [Hb Hb'].
  destruct a as [|p|p], b as [|q|q]; try lia;
    rewrite ?of_Z_pos by done; try done.
  unfold norm, SFcompare. f_equal. change (Pos.compare_cont Eq) with Pos.compare.
  pose proof (digits_bounds p). pose proof (digits_bounds q).
  assert (0 < digits p /\ 0 < digits q) by (unfold digits; lia).
  destruct (Z.compare_spec (digits p - 53) (digits q - 53)) as [E|E|E].
  - change (pshl p _ ?= pshl q _)%positive
      with (Zpos (pshl p (53 - digits p)) ?= Zpos (pshl q (53 - digits q))).
    pose proof (digits_small p Ha'). rewrite !pshl_Z by lia.
    replace (digits q) with (digits p) by lia.
    symmetry. apply Zmult_compare_compat_r. apply Z.lt_gt, Z.pow_pos_nonneg; lia.
  - symmetry. apply Z.compare_lt_iff.
    assert (2 ^ digits p <= 2 ^ (digits q - 1)) by (apply Z.pow_le_mono_r; lia). lia.
  - symmetry. apply Z.compare_gt_iff.
    assert (2 ^ digits q <= 2 ^ (digits p - 1)) by (apply Z.pow_le_mono_r; lia). lia.
Qed.

Lemma of_Z_ltb a b : small_int a -> small_int b -> fltb (of_Z a) (of_Z b) = (a <? b).
Proof. intros. unfold fltb, SFltb. rewrite of_Z_compare by done. unfold Z.ltb. by destruct (a ?= b). Qed.

Lemma of_Z_leb a b : small_int a -> small_int b -> fleb (of_Z a) (of_Z b) = (a <=? b).
Proof. intros. unfold fleb, SFleb. rewrite of_Z_compare by done. unfold Z.leb. by destruct (a ?= b). Qed.

Lemma of_Z_gtb a b : small_int a -> small_int b -> fgtb (of_Z a) (of_Z b) = (b <? a).
Proof. intros. by apply of_Z_ltb. Qed.

Lemma of_Z_geb a b : small_int a -> small_int b -> fgeb (of_Z a) (of_Z b) = (b <=? a).
Proof. intros. by apply of_Z_leb. Qed.

Lemma of_Z_eqb a b : small_int a -> small_int b -> feqb (of_Z a) (of_Z b) = (a =? b).
Proof.
  intros. unfold feqb, SFeqb. rewrite of_Z_compare by done.
  rewrite Z.eqb_compare. by destruct (a ?= b).
Qed.

Lemma shl_align_norm p ez :
  Zpos p < 2 ^ 53 -> ez <= digits p - 53 ->
  Zpos (fst (shl_align (pshl p (53 - digits p)) (digits p - 53) ez)) = Zpos p * 2 ^ (- ez).
Proof.
  intros Hp He. pose proof (digits_small p Hp). unfold shl_align.
  destruct (ez - (digits p - 53)) as [|d|d] eqn:E; [..|]; cbn [fst]; [|lia|].
  - rewrite pshl_Z by lia. f_equal. f_equal. lia.
  - change (Pos.iter xO ?x d) with (pshl x (Zpos d)).
    rewrite !pshl_Z, <- Z.mul_assoc, <- Z.pow_add_r by lia. f_equal. f_equal. lia.
Qed.

(** [(n * 2^k) * 2^(-k)] rounds to [n]. *)
Lemma normalize_exact n k :
  small_int n -> 0 <= k -> binary_normalize PREC EMAX (n * 2 ^ k) (- k) false = of_Z n.
Proof.
  intros [Hn Hn'] Hk. destruct n as [|p|p]; [done| |lia].
  rewrite <- pshl_Z, of_Z_pos by lia. by apply binary_round_exact.
Qed.

(** Addition and subtraction of small integers are exact. *)
Lemma of_Z_add a b :
  small_int a -> small_int b -> small_int (a + b) ->
  fadd (of_Z a) (of_Z b) = of_Z (a + b).
Proof.
  intros [Ha Ha'] [Hb Hb'] Hs.
  destruct a as [|p|p], b as [|q|q]; try lia; try done.
  - rewrite Z.add_0_l. by rewrite (of_Z_pos q).
  - rewrite Z.add_0_r. by rewrite (of_Z_pos p).
  - rewrite (of_Z_pos p), (of_Z_pos q) by done. unfold norm, fadd, SFadd, cond_Zopp.
    pose proof (digits_small p Ha'). pose proof (digits_small q Hb').
    rewrite !shl_align_norm by (try done; lia).
    rewrite <- Z.mul_add_distr_r.
    rewrite <- (normalize_exact (Zpos p + Zpos q) (- Z.min (digits p - 53) (digits q - 53)))
      by (unfold small_int in *; lia).
    by rewrite !Z.opp_involutive.
Qed.

Lemma of_Z_sub a b :
  small_int a -> small_int b -> small_int (a - b) ->
  fsub (of_Z a) (of_Z b) = of_Z (a - b).
Proof.
  intros [Ha Ha'] [Hb Hb'] Hs. unfold small_int in Hs.
  destruct a as [|p|p], b as [|q|q]; try lia; try done.
  - rewrite Z.sub_0_r. by rewrite (of_Z_pos p).
  - rewrite (of_Z_pos p), (of_Z_pos q) by done. unfold norm, fsub, SFsub, cond_Zopp.
    pose proof (digits_small p Ha'). pose proof (digits_small q Hb').
    rewrite !shl_align_norm by (try done; lia).
    rewrite <- Z.mul_sub_distr_r.
    rewrite <- (normalize_exact (Zpos p - Zpos q) (- Z.min (digits p - 53) (digits q - 53)))
      by (unfold small_int in *; lia).
    by rewrite !Z.opp_involutive.
Qed.

Lemma of_Z_finite a : small_int a -> is_finite (of_Z a) = true.
Proof. intros [? ?]. destruct a; [done|by rewrite of_Z_pos|lia]. Qed.

Lemma of_Z_non_nan a : small_int a -> non_nan (of_Z a).
Proof. intros. by apply finite_non_nan, of_Z_finite. Qed.

(** Some bit patterns, checked by evaluation: 0.01, 1.1, 79674.5. *)
Example lit_0_01 : lit 1 100 = S754_finite false 5764607523034235 (-59).
Proof. reflexivity. Qed.
Example lit_1_1 : lit 11 10 = S754_finite false 4953959590107546 (-52).
Proof. reflexivity. Qed.
Example midpoint_example : fdiv (fadd (of_Z 79674) (of_Z 79675)) f2 = lit 159349 2.
Proof. reflexivity. Qed.
