(* ===== verification/Dealer.v ===== *)
(** * The MPC offline-phase dealer (dealer/)

    Two parties submit the same [DealerRequest] under one request id; the
    dealer pairs them and answers both with correlated randomness.  [Shares]
    models the generation of the randomness over an abstract scalar field
    (ark-mpc's [Scalar] is a parameter, [ScalarField]), [Pairing] the table of
    open requests with its mutex, its poisoning and the response channels, and
    [Front] the validation performed by the HTTP server. *)
From Stdlib Require Import ZArith Lia Ring_theory Ring.
From stdpp Require Import gmap strings list.
From S2P Require Import Prelude.

(** ** The scalar field of ark-mpc *)
Class ScalarField := {
  Scalar : Type;
  szero : Scalar;
  sone : Scalar;
  sadd : Scalar -> Scalar -> Scalar;
  smul : Scalar -> Scalar -> Scalar;
  ssub : Scalar -> Scalar -> Scalar;
  sneg : Scalar -> Scalar;
  (** [Scalar::inverse]; [None] when it panics *)
  sinv : Scalar -> option Scalar;
  scalar_ring : ring_theory szero sone sadd smul ssub sneg eq;
  sinv_mul : forall a b, sinv a = Some b -> smul a b = sone;
  sinv_total : forall a, a <> szero -> is_Some (sinv a);
}.

(** ** API types (renegade-dealer-api) *)
Record DealerRequest (PublicKey : Type) := {
  first_party_key : PublicKey;
  second_party_key : PublicKey;
  n_random_bits : Z;
  n_random_values : Z;
  n_input_masks : Z;
  n_inverse_pairs : Z;
  n_triples : Z;
}.
Arguments first_party_key {_} _.
Arguments second_party_key {_} _.
Arguments n_random_bits {_} _.
Arguments n_random_values {_} _.
Arguments n_input_masks {_} _.
Arguments n_inverse_pairs {_} _.
Arguments n_triples {_} _.

#[export] Instance DealerRequest_eq_dec PK `{EqDecision PK} : EqDecision (DealerRequest PK).
Proof. solve_decision. Defined.

(** [DealerRequest::total_values]: the [u32] sum wraps in a release build. *)
Definition total_values {PK} (r : DealerRequest PK) : Z :=
  uadd 32 (uadd 32 (uadd 32 (uadd 32 (n_random_bits r) (n_random_values r))
    (n_input_masks r)) (n_inverse_pairs r)) (n_triples r).

Create HintDb gens discriminated.

Section Shares.
Context `{SF : ScalarField}.

Add Ring scalars : scalar_ring.

(** [ScalarShare]: a value share and a share of its MAC. *)
Record ScalarShare := mk_share { share : Scalar; mac : Scalar }.

Record DealerResponse := mk_response {
  mac_key_share : Scalar;
  random_bits : list ScalarShare;
  random_values : list ScalarShare;
  input_masks : list Scalar * list ScalarShare * list ScalarShare;
  inverse_pairs : list ScalarShare * list ScalarShare;
  beaver_triples : list ScalarShare * list ScalarShare * list ScalarShare;
}.

(** ** Randomness

    [thread_rng()] is an oracle: two unbounded tapes, of scalars and of coin
    flips, and the number of samples already taken from each.  A generator
    returns [None] where the code panics. *)
Record Rng := mk_rng { samples : nat -> Scalar; coins : nat -> bool }.
Record RngPos := mk_pos { next_sample : nat; next_coin : nat }.

Definition Gen (A : Type) : Type := RngPos -> option (A * RngPos).
Definition gret {A} (a : A) : Gen A := fun p => Some (a, p).
Definition gbind {A B} (m : Gen A) (f : A -> Gen B) : Gen B := fun p =>
  match m p with Some (a, p') => f a p' | None => None end.
Definition gpanic {A} : Gen A := fun _ => None.
Notation "'let*' x := m 'in' k" := (gbind m (fun x => k))
  (at level 10, x pattern, k at level 200).
#[local] Arguments gbind : simpl never.

Variable rng : Rng.

(** [Scalar::random(&mut rng)] *)
Definition random_scalar : Gen Scalar := fun p =>
  Some (samples rng (next_sample p), mk_pos (S (next_sample p)) (next_coin p)).
(** [rng.gen_bool(0.5)] *)
Definition gen_bool : Gen bool := fun p =>
  Some (coins rng (next_coin p), mk_pos (next_sample p) (S (next_coin p))).

(** [(0..n).map(|_| gen()).collect_vec()] *)
Fixpoint collect_vec {A} (n : nat) (gen : Gen A) : Gen (list A) :=
  match n with
  | O => gret []
  | S n' => let* x := gen in let* xs := collect_vec n' gen in gret (x :: xs)
  end.

(** ** Sharing helpers *)

Definition compute_macs (mac_key : Scalar) (values : list Scalar) : list Scalar :=
  map (fun v => smul v mac_key) values.

Fixpoint gen_secret_shares (values : list Scalar) : Gen (list Scalar * list Scalar) :=
  match values with
  | [] => gret ([], [])
  | value :: rest =>
      let* s := random_scalar in
      let* (share1, share2) := gen_secret_shares rest in
      gret (s :: share1, ssub value s :: share2)
  end.

Definition collect_shares (values macs : list Scalar) : list ScalarShare :=
  zip_with mk_share values macs.

Definition gen_authenticated_secret_shares (mac_key : Scalar) (values : list Scalar)
    : Gen (list ScalarShare * list ScalarShare) :=
  let macs := compute_macs mac_key values in
  let* (shares1, shares2) := gen_secret_shares values in
  let* (mac_shares1, mac_shares2) := gen_secret_shares macs in
  gret (collect_shares shares1 mac_shares1, collect_shares shares2 mac_shares2).

(** ** Setters of [DealerResponse] *)

Definition set_random_bits (bits : list ScalarShare) (r : DealerResponse) : DealerResponse :=
  mk_response (mac_key_share r) bits (random_values r) (input_masks r) (inverse_pairs r)
    (beaver_triples r).
Definition set_random_values (values : list ScalarShare) (r : DealerResponse) : DealerResponse :=
  mk_response (mac_key_share r) (random_bits r) values (input_masks r) (inverse_pairs r)
    (beaver_triples r).
Definition set_input_masks (cleartext : list Scalar) (shares1 shares2 : list ScalarShare)
    (r : DealerResponse) : DealerResponse :=
  mk_response (mac_key_share r) (random_bits r) (random_values r)
    (cleartext, shares1, shares2) (inverse_pairs r) (beaver_triples r).
Definition set_inverse_pairs (r_ r_inv : list ScalarShare) (r : DealerResponse)
    : DealerResponse :=
  mk_response (mac_key_share r) (random_bits r) (random_values r) (input_masks r)
    (r_, r_inv) (beaver_triples r).
(** Asserts that the three vectors have one length. *)
Definition set_triples (a b c : list ScalarShare) (r : DealerResponse) : Gen DealerResponse :=
  if bool_decide (length a = length b) && bool_decide (length a = length c)
  then gret (mk_response (mac_key_share r) (random_bits r) (random_values r) (input_masks r)
    (inverse_pairs r) (a, b, c))
  else gpanic.

(** ** Correlated randomness *)

Definition responses : Type := DealerResponse * DealerResponse.

Definition gen_random_bits (n : nat) (mac_key : Scalar) (rs : responses) : Gen responses :=
  let* bits := collect_vec n gen_bool in
  let values := map (fun b : bool => if b then sone else szero) bits in
  let* (share1, share2) := gen_authenticated_secret_shares mac_key values in
  gret (set_random_bits share1 rs.1, set_random_bits share2 rs.2).

Definition gen_random_values (n : nat) (mac_key : Scalar) (rs : responses) : Gen responses :=
  let* values := collect_vec n random_scalar in
  let* (share1, share2) := gen_authenticated_secret_shares mac_key values in
  gret (set_random_values share1 rs.1, set_random_values share2 rs.2).

Definition gen_input_masks (n : nat) (mac_key : Scalar) (rs : responses) : Gen responses :=
  let* masks1 := collect_vec n random_scalar in
  let* masks2 := collect_vec n random_scalar in
  let* (mask1_share1, mask1_share2) := gen_authenticated_secret_shares mac_key masks1 in
  let* (mask2_share1, mask2_share2) := gen_authenticated_secret_shares mac_key masks2 in
  gret (set_input_masks masks1 mask1_share1 mask2_share1 rs.1,
        set_input_masks masks2 mask2_share2 mask1_share2 rs.2).

Definition gen_inverse_pairs (n : nat) (mac_key : Scalar) (rs : responses) : Gen responses :=
  let* r := collect_vec n random_scalar in
  match mapM sinv r with
  | None => gpanic
  | Some r_inv =>
      let* (r_shares1, r_shares2) := gen_authenticated_secret_shares mac_key r in
      let* (r_inv_shares1, r_inv_shares2) := gen_authenticated_secret_shares mac_key r_inv in
      gret (set_inverse_pairs r_shares1 r_inv_shares1 rs.1,
            set_inverse_pairs r_shares2 r_inv_shares2 rs.2)
  end.

Definition gen_triples (n : nat) (mac_key : Scalar) (rs : responses) : Gen responses :=
  let* a := collect_vec n random_scalar in
  let* b := collect_vec n random_scalar in
  let c := zip_with smul a b in
  let* (a_shares1, a_shares2) := gen_authenticated_secret_shares mac_key a in
  let* (b_shares1, b_shares2) := gen_authenticated_secret_shares mac_key b in
  let* (c_shares1, c_shares2) := gen_authenticated_secret_shares mac_key c in
  let* resp1 := set_triples a_shares1 b_shares1 c_shares1 rs.1 in
  let* resp2 := set_triples a_shares2 b_shares2 c_shares2 rs.2 in
  gret (resp1, resp2).

Definition default_response (key_share : Scalar) : DealerResponse :=
  mk_response key_share [] [] ([], [], []) ([], []) ([], [], []).

(** [Dealer::handle_ready_pair], up to the two sends of its last lines. *)
Definition ready_pair_responses {PK} (req : DealerRequest PK) : Gen responses :=
  let* mac_key := random_scalar in
  let* mac_share1 := random_scalar in
  let mac_share2 := ssub mac_key mac_share1 in
  let rs := (default_response mac_share1, default_response mac_share2) in
  let* rs := gen_random_bits (Z.to_nat (n_random_bits req)) mac_key rs in
  let* rs := gen_random_values (Z.to_nat (n_random_values req)) mac_key rs in
  let* rs := gen_input_masks (Z.to_nat (n_input_masks req)) mac_key rs in
  let* rs := gen_inverse_pairs (Z.to_nat (n_inverse_pairs req)) mac_key rs in
  gen_triples (Z.to_nat (n_triples req)) mac_key rs.

(** ** Specification of a correlated pair of responses *)

(** What the two parties reconstruct from their shares. *)
Definition recover (s1 s2 : list ScalarShare) : list Scalar :=
  zip_with (fun a b => sadd (share a) (share b)) s1 s2.
Definition recover_macs (s1 s2 : list ScalarShare) : list Scalar :=
  zip_with (fun a b => sadd (mac a) (mac b)) s1 s2.

(** [s1] and [s2] are authenticated shares of [values] under [key]. *)
Definition shares_of (key : Scalar) (values : list Scalar) (s1 s2 : list ScalarShare) : Prop :=
  length s1 = length values /\ length s2 = length values /\
  recover s1 s2 = values /\ recover_macs s1 s2 = map (fun v => smul v key) values.

Record correlated {PK} (req : DealerRequest PK) (r1 r2 : DealerResponse) : Prop := {
  cor_bits : exists bits : list bool, length bits = Z.to_nat (n_random_bits req) /\
    shares_of (sadd (mac_key_share r1) (mac_key_share r2))
      (map (fun b : bool => if b then sone else szero) bits) (random_bits r1) (random_bits r2);
  cor_values : exists vs, length vs = Z.to_nat (n_random_values req) /\
    shares_of (sadd (mac_key_share r1) (mac_key_share r2)) vs
      (random_values r1) (random_values r2);
  cor_masks : exists s11 s12 s21 s22 masks1 masks2,
    input_masks r1 = (masks1, s11, s21) /\ input_masks r2 = (masks2, s22, s12) /\
    length masks1 = Z.to_nat (n_input_masks req) /\
    length masks2 = Z.to_nat (n_input_masks req) /\
    shares_of (sadd (mac_key_share r1) (mac_key_share r2)) masks1 s11 s12 /\
    shares_of (sadd (mac_key_share r1) (mac_key_share r2)) masks2 s21 s22;
  cor_inverses : exists rs invs, length rs = Z.to_nat (n_inverse_pairs req) /\
    shares_of (sadd (mac_key_share r1) (mac_key_share r2)) rs
      (inverse_pairs r1).1 (inverse_pairs r2).1 /\
    shares_of (sadd (mac_key_share r1) (mac_key_share r2)) invs
      (inverse_pairs r1).2 (inverse_pairs r2).2 /\
    Forall2 (fun r i => smul r i = sone) rs invs;
  cor_triples : exists a b, length a = Z.to_nat (n_triples req) /\
    length b = Z.to_nat (n_triples req) /\
    shares_of (sadd (mac_key_share r1) (mac_key_share r2)) a
      (beaver_triples r1).1.1 (beaver_triples r2).1.1 /\
    shares_of (sadd (mac_key_share r1) (mac_key_share r2)) b
      (beaver_triples r1).1.2 (beaver_triples r2).1.2 /\
    shares_of (sadd (mac_key_share r1) (mac_key_share r2)) (zip_with smul a b)
      (beaver_triples r1).2 (beaver_triples r2).2;
}.

(** ** Lemmas on the generators *)

Lemma gbind_Some {A B} (m : Gen A) (f : A -> Gen B) p b p' :
  gbind m f p = Some (b, p') <->
  exists a p1, m p = Some (a, p1) /\ f a p1 = Some (b, p').
Proof. unfold gbind. destruct (m p) as [[a p1]|]; split; [eauto|by intros (? & ? & [= <- <-] & ?)|done|by intros (? & ? & ? & ?)]. Qed.

Lemma collect_vec_length {A} n (gen : Gen A) p l p' :
  collect_vec n gen p = Some (l, p') -> length l = n.
Proof.
  revert p l p'. induction n as [|n IH]; cbn; intros p l p' H.
  - unfold gret in H. by simplify_eq.
  - apply gbind_Some in H as (x & p1 & _ & H). apply gbind_Some in H as (xs & p2 & H2 & H).
    unfold gret in H. simplify_eq. cbn. f_equal. eauto.
Qed.

Lemma gen_secret_shares_spec values p s1 s2 p' :
  gen_secret_shares values p = Some ((s1, s2), p') ->
  length s1 = length values /\ length s2 = length values /\ zip_with sadd s1 s2 = values.
Proof.
  revert p s1 s2 p'. induction values as [|v vs IH]; cbn; intros p s1 s2 p' H.
  - unfold gret in H. by simplify_eq.
  - apply gbind_Some in H as (s & p1 & _ & H).
    apply gbind_Some in H as ([t1 t2] & p2 & H2 & H). unfold gret in H. simplify_eq.
    apply IH in H2 as (? & ? & <-). cbn. repeat split; try lia.
    f_equal. ring.
Qed.

Lemma recover_collect f (sel : ScalarShare -> Scalar) s1 s2 m1 m2 :
  (forall v m, sel (mk_share v m) = f v m) ->
  length s1 = length m1 -> length s2 = length m2 -> length s1 = length s2 ->
  zip_with (fun a b => sadd (sel a) (sel b)) (collect_shares s1 m1) (collect_shares s2 m2) =
  zip_with sadd (zip_with f s1 m1) (zip_with f s2 m2).
Proof.
  intros Hsel. revert s2 m1 m2. induction s1 as [|x s1 IH]; intros [|y s2] [|m m1] [|m' m2];
    cbn; intros; try done; try lia. rewrite !Hsel. f_equal. apply IH; lia.
Qed.

Lemma zip_with_fst (s m : list Scalar) :
  length s = length m -> zip_with (fun v _ => v) s m = s.
Proof. revert m. induction s; intros []; cbn; intros; try done. f_equal. auto with lia. Qed.
Lemma zip_with_snd (s m : list Scalar) :
  length s = length m -> zip_with (fun _ v => v) s m = m.
Proof. revert m. induction s; intros []; cbn; intros; try done. f_equal. auto with lia. Qed.

Lemma gen_authenticated_spec key values p s1 s2 p' :
  gen_authenticated_secret_shares key values p = Some ((s1, s2), p') ->
  shares_of key values s1 s2.
Proof.
  unfold gen_authenticated_secret_shares. intros H.
  apply gbind_Some in H as ([a1 a2] & p1 & Ha & H).
  apply gbind_Some in H as ([b1 b2] & p2 & Hb & H). unfold gret in H. simplify_eq.
  apply gen_secret_shares_spec in Ha as (? & ? & Ha).
  apply gen_secret_shares_spec in Hb as (? & ? & Hb).
  unfold compute_macs in *. rewrite length_map in *.
  unfold shares_of, collect_shares. rewrite !length_zip_with_eq by lia.
  repeat split; try lia; unfold recover, recover_macs.
  - rewrite (recover_collect (fun v _ => v) share) by (done || lia).
    by rewrite !zip_with_fst by lia.
  - rewrite (recover_collect (fun _ v => v) mac) by (done || lia).
    by rewrite !zip_with_snd by lia.
Qed.

Lemma mapM_sinv_spec r i : mapM sinv r = Some i -> Forall2 (fun a b => smul a b = sone) r i.
Proof.
  intros H. apply mapM_Some in H. eapply Forall2_impl; [exact H|]. apply sinv_mul.
Qed.

Lemma gen_random_bits_spec n key rs p rs' p' :
  gen_random_bits n key rs p = Some (rs', p') ->
  exists bits s1 s2, length bits = n /\
    shares_of key (map (fun b : bool => if b then sone else szero) bits) s1 s2 /\
    rs' = (set_random_bits s1 rs.1, set_random_bits s2 rs.2).
Proof.
  unfold gen_random_bits. intros H. apply gbind_Some in H as (bits & p1 & Hb & H).
  apply gbind_Some in H as ([s1 s2] & p2 & Hs & H). unfold gret in H. simplify_eq.
  exists bits, s1, s2. eauto using collect_vec_length, gen_authenticated_spec.
Qed.

Lemma gen_random_values_spec n key rs p rs' p' :
  gen_random_values n key rs p = Some (rs', p') ->
  exists vs s1 s2, length vs = n /\ shares_of key vs s1 s2 /\
    rs' = (set_random_values s1 rs.1, set_random_values s2 rs.2).
Proof.
  unfold gen_random_values. intros H. apply gbind_Some in H as (vs & p1 & Hb & H).
  apply gbind_Some in H as ([s1 s2] & p2 & Hs & H). unfold gret in H. simplify_eq.
  exists vs, s1, s2. eauto using collect_vec_length, gen_authenticated_spec.
Qed.

Lemma gen_input_masks_spec n key rs p rs' p' :
  gen_input_masks n key rs p = Some (rs', p') ->
  exists m1 m2 s11 s12 s21 s22, length m1 = n /\ length m2 = n /\
    shares_of key m1 s11 s12 /\ shares_of key m2 s21 s22 /\
    rs' = (set_input_masks m1 s11 s21 rs.1, set_input_masks m2 s22 s12 rs.2).
Proof.
  unfold gen_input_masks. intros H. apply gbind_Some in H as (m1 & p1 & H1 & H).
  apply gbind_Some in H as (m2 & p2 & H2 & H).
  apply gbind_Some in H as ([s11 s12] & p3 & H3 & H).
  apply gbind_Some in H as ([s21 s22] & p4 & H4 & H). unfold gret in H. simplify_eq.
  exists m1, m2, s11, s12, s21, s22.
  split_and!; eauto using collect_vec_length, gen_authenticated_spec.
Qed.

Lemma gen_inverse_pairs_spec n key rs p rs' p' :
  gen_inverse_pairs n key rs p = Some (rs', p') ->
  exists r i r1 r2 i1 i2, length r = n /\ shares_of key r r1 r2 /\ shares_of key i i1 i2 /\
    Forall2 (fun a b => smul a b = sone) r i /\
    rs' = (set_inverse_pairs r1 i1 rs.1, set_inverse_pairs r2 i2 rs.2).
Proof.
  unfold gen_inverse_pairs. intros H. apply gbind_Some in H as (r & p1 & H1 & H).
  destruct (mapM sinv r) as [i|] eqn:Hi; [|done].
  apply gbind_Some in H as ([r1 r2] & p2 & H2 & H).
  apply gbind_Some in H as ([i1 i2] & p3 & H3 & H). unfold gret in H. simplify_eq.
  exists r, i, r1, r2, i1, i2.
  split_and!; eauto using collect_vec_length, gen_authenticated_spec, mapM_sinv_spec.
Qed.

Lemma set_triples_Some a b c r p r' p' :
  set_triples a b c r p = Some (r', p') ->
  r' = mk_response (mac_key_share r) (random_bits r) (random_values r) (input_masks r)
         (inverse_pairs r) (a, b, c) /\ p' = p.
Proof. unfold set_triples, gret, gpanic. case_match; naive_solver. Qed.

Lemma gen_triples_spec n key rs p rs' p' :
  gen_triples n key rs p = Some (rs', p') ->
  exists a b a1 a2 b1 b2 c1 c2, length a = n /\ length b = n /\
    shares_of key a a1 a2 /\ shares_of key b b1 b2 /\
    shares_of key (zip_with smul a b) c1 c2 /\
    exists q q', set_triples a1 b1 c1 rs.1 q = Some (rs'.1, q) /\
                 set_triples a2 b2 c2 rs.2 q' = Some (rs'.2, q').
Proof.
  unfold gen_triples. intros H. apply gbind_Some in H as (a & p1 & H1 & H).
  apply gbind_Some in H as (b & p2 & H2 & H).
  apply gbind_Some in H as ([a1 a2] & p3 & H3 & H).
  apply gbind_Some in H as ([b1 b2] & p4 & H4 & H).
  apply gbind_Some in H as ([c1 c2] & p5 & H5 & H).
  apply gbind_Some in H as (t1 & p6 & H6 & H).
  apply gbind_Some in H as (t2 & p7 & H7 & H). unfold gret in H. simplify_eq.
  exists a, b, a1, a2, b1, b2, c1, c2.
  split_and!; eauto using collect_vec_length, gen_authenticated_spec.
  pose proof (set_triples_Some _ _ _ _ _ _ _ H6) as [_ ->].
  pose proof (set_triples_Some _ _ _ _ _ _ _ H7) as [_ ->]. eauto.
Qed.

(** Every pair of responses is correlated as the protocol requires. *)
Lemma ready_pair_correlated {PK} (req : DealerRequest PK) p r1 r2 p' :
  ready_pair_responses req p = Some ((r1, r2), p') -> correlated req r1 r2.
Proof.
  unfold ready_pair_responses. intros H.
  apply gbind_Some in H as (key & q1 & _ & H).
  apply gbind_Some in H as (k1 & q2 & _ & H).
  apply gbind_Some in H as (x1 & q3 & (bits & b1 & b2 & Hb1 & Hb2 & ->)%gen_random_bits_spec & H).
  apply gbind_Some in H as (x2 & q4 & (vs & v1 & v2 & Hv1 & Hv2 & ->)%gen_random_values_spec & H).
  apply gbind_Some in H as
    (x3 & q5 & (m1 & m2 & s11 & s12 & s21 & s22 & Hm1 & Hm2 & Hm3 & Hm4 & ->)%gen_input_masks_spec
     & H).
  apply gbind_Some in H as
    (x4 & q6 & (r & i & ra & rb & ia & ib & Hr1 & Hr2 & Hr3 & Hr4 & ->)%gen_inverse_pairs_spec & H).
  apply gen_triples_spec in H as
    (a & b & a1 & a2 & c1 & c2 & d1 & d2 & Ha1 & Ha2 & Ha3 & Ha4 & Ha5 & u & u' & H1 & H2).
  apply set_triples_Some in H1 as [H1 _]. apply set_triples_Some in H2 as [H2 _].
  cbn in H1, H2. subst r1 r2.
  assert (Hk : sadd k1 (ssub key k1) = key) by ring.
  split; cbn; rewrite Hk; eauto 20.
Qed.

(** ** The generators do not panic *)

Definition total {A} (m : Gen A) : Prop := forall p, is_Some (m p).

Lemma total_gret {A} (a : A) : total (gret a).
Proof. by intros p; eexists. Qed.

Lemma total_gbind {A B} (m : Gen A) (f : A -> Gen B) :
  total m -> (forall a p p', m p = Some (a, p') -> total (f a)) -> total (gbind m f).
Proof. intros Hm Hf p. unfold gbind. destruct (Hm p) as [[a p'] E]. rewrite E. eapply Hf; eauto. Qed.

Lemma total_random_scalar : total random_scalar.
Proof. by intros p; eexists. Qed.
Lemma total_gen_bool : total gen_bool.
Proof. by intros p; eexists. Qed.

Lemma total_collect_vec {A} n (gen : Gen A) : total gen -> total (collect_vec n gen).
Proof.
  intros Hg. induction n; cbn; [apply total_gret|].
  apply total_gbind; [done|]. intros. apply total_gbind; [done|]. intros. apply total_gret.
Qed.

Lemma total_gen_secret_shares vs : total (gen_secret_shares vs).
Proof.
  induction vs; cbn; [apply total_gret|].
  apply total_gbind; [apply total_random_scalar|]. intros.
  apply total_gbind; [done|]. intros [? ?] **. apply total_gret.
Qed.

Lemma total_gen_authenticated key vs : total (gen_authenticated_secret_shares key vs).
Proof.
  unfold gen_authenticated_secret_shares.
  apply total_gbind; [apply total_gen_secret_shares|]. intros [? ?] **.
  apply total_gbind; [apply total_gen_secret_shares|]. intros [? ?] **. apply total_gret.
Qed.

Lemma collect_samples n p l p' :
  collect_vec n random_scalar p = Some (l, p') -> Forall (fun x => exists i, x = samples rng i) l.
Proof.
  revert p l p'. induction n as [|n IH]; cbn; intros p l p' H.
  - unfold gret in H. by simplify_eq.
  - apply gbind_Some in H as (x & p1 & H1 & H). apply gbind_Some in H as (xs & p2 & H2 & H).
    unfold gret, random_scalar in *. simplify_eq. constructor; eauto.
Qed.

Lemma mapM_sinv_total l : Forall (fun x => x <> szero) l -> is_Some (mapM sinv l).
Proof. intros H. apply mapM_is_Some. eapply Forall_impl; [exact H|]. apply sinv_total. Qed.

#[local] Hint Resolve total_gret total_random_scalar total_gen_bool total_collect_vec
  total_gen_authenticated : gens.
Ltac total_step :=
  apply total_gbind; [auto with gens|]; intros; repeat case_match; auto with gens.

Lemma total_gen_random_bits n key rs : total (gen_random_bits n key rs).
Proof. unfold gen_random_bits. repeat total_step. Qed.
Lemma total_gen_random_values n key rs : total (gen_random_values n key rs).
Proof. unfold gen_random_values. repeat total_step. Qed.
Lemma total_gen_input_masks n key rs : total (gen_input_masks n key rs).
Proof. unfold gen_input_masks. repeat total_step. Qed.

Lemma total_gen_inverse_pairs n key rs :
  (forall i, samples rng i <> szero) -> total (gen_inverse_pairs n key rs).
Proof.
  intros Hnz. unfold gen_inverse_pairs. apply total_gbind; [auto with gens|].
  intros r p p' Hr. destruct (mapM_sinv_total r) as [i ->]; [|repeat total_step].
  eapply Forall_impl; [eapply collect_samples; eauto|]. intros x [j ->]. auto.
Qed.

Lemma total_set_triples a b c r :
  length a = length b -> length a = length c -> total (set_triples a b c r).
Proof. intros. unfold set_triples. rewrite !bool_decide_eq_true_2 by done. apply total_gret. Qed.

Lemma total_gen_triples n key rs : total (gen_triples n key rs).
Proof.
  unfold gen_triples.
  apply total_gbind; [auto with gens|]. intros a q1 q1' Ha%collect_vec_length.
  apply total_gbind; [auto with gens|]. intros b q2 q2' Hb%collect_vec_length.
  apply total_gbind; [auto with gens|]. intros [a1 a2] ? ? (?&?&_)%gen_authenticated_spec.
  apply total_gbind; [auto with gens|]. intros [b1 b2] ? ? (?&?&_)%gen_authenticated_spec.
  apply total_gbind; [auto with gens|]. intros [c1 c2] ? ? (H3&H4&_)%gen_authenticated_spec.
  rewrite length_zip_with in H3, H4.
  apply total_gbind; [apply total_set_triples; lia|]. intros.
  apply total_gbind; [apply total_set_triples; lia|]. intros. apply total_gret.
Qed.

Lemma ready_pair_total {PK} (req : DealerRequest PK) :
  (forall i, samples rng i <> szero) -> total (ready_pair_responses req).
Proof.
  intros Hnz. unfold ready_pair_responses. cbv zeta.
  do 2 (apply total_gbind; [apply total_random_scalar|]; intros).
  apply total_gbind; [apply total_gen_random_bits|]; intros.
  apply total_gbind; [apply total_gen_random_values|]; intros.
  apply total_gbind; [apply total_gen_input_masks|]; intros.
  apply total_gbind; [by apply total_gen_inverse_pairs|]; intros.
  apply total_gen_triples.
Qed.
End Shares.
Arguments Rng {_}.
Arguments DealerResponse {_}.

(** ** The table of open requests *)
Section Pairing.
Context `{SF : ScalarField} {PK : Type} `{EqDecision PK}.
Variable rng : Rng.

(** A response channel is named by a number; its receiver is held by the
    HTTP handler waiting for the answer. *)
Record DealerJob := mk_job {
  request_id : Uuid;
  party_id : Z;
  request : DealerRequest PK;
  chan : nat;
}.

Definition Reply : Type := res string DealerResponse.

Record Dealer := mk_dealer {
  open_requests : gmap Z DealerJob;
  (** the [std::sync::Mutex] around the table was poisoned by a panic *)
  poisoned : bool;
  (** what was sent on each channel, oldest first *)
  mail : gmap nat (list Reply);
  (** channels whose receiver was dropped *)
  closed : gset nat;
  rng_pos : RngPos;
}.

Definition new_dealer (p : RngPos) : Dealer := mk_dealer ∅ false ∅ ∅ p.
Definition mailbox (st : Dealer) (c : nat) : list Reply := default [] (mail st !! c).

Definition set_open (o : gmap Z DealerJob) (st : Dealer) : Dealer :=
  mk_dealer o (poisoned st) (mail st) (closed st) (rng_pos st).
Definition set_pos (p : RngPos) (st : Dealer) : Dealer :=
  mk_dealer (open_requests st) (poisoned st) (mail st) (closed st) p.
(** A panic while the guard is held. *)
Definition poison (st : Dealer) : Dealer :=
  mk_dealer (open_requests st) true (mail st) (closed st) (rng_pos st).

(** [chan.send(msg)]: fails once the receiver is gone. *)
Definition send (c : nat) (msg : Reply) (st : Dealer) : option Dealer :=
  if bool_decide (c ∈ closed st) then None
  else Some (mk_dealer (open_requests st) (poisoned st)
    (<[c := mailbox st c ++ [msg]]> (mail st)) (closed st) (rng_pos st)).

(** [send(..).unwrap()] followed by the rest of the function. *)
Definition send_then (c : nat) (msg : Reply) (k : Dealer -> Dealer) (st : Dealer) : Dealer :=
  match send c msg st with None => poison st | Some st' => k st' end.

Definition DUPLICATE_PARTY : string := "Duplicate party ID".

(** [Dealer::handle_ready_pair] *)
Definition handle_ready_pair (req1 req2 : DealerJob) (st : Dealer) : Dealer :=
  match ready_pair_responses rng (request req1) (rng_pos st) with
  | None => poison st
  | Some ((resp1, resp2), p) =>
      send_then (chan req1) (Ok resp1) (send_then (chan req2) (Ok resp2) id) (set_pos p st)
  end.

(** [Dealer::handle_request]; the guard of the mutex lives for the whole
    body, so concurrent tasks run it one after the other. *)
Definition handle_request (job : DealerJob) (st : Dealer) : Dealer :=
  if poisoned st then st
  else
    match open_requests st !! request_id job with
    | Some existing_req =>
        let st := set_open (delete (request_id job) (open_requests st)) st in
        if negb (bool_decide (request existing_req = request job)) then poison st
        else if (party_id existing_req =? party_id job)%Z then
          send_then (chan job) (Err DUPLICATE_PARTY)
            (send_then (chan existing_req) (Err DUPLICATE_PARTY) id) st
        else handle_ready_pair existing_req job st
    | None => set_open (<[request_id job := job]> (open_requests st)) st
    end.

(** What may happen to the dealer, in some order: a job reaches the table, or
    a client goes away. *)
Inductive event := Submit (job : DealerJob) | Disconnect (c : nat).

Definition step (st : Dealer) (ev : event) : Dealer :=
  match ev with
  | Submit job => handle_request job st
  | Disconnect c => mk_dealer (open_requests st) (poisoned st) (mail st)
      ({[c]} ∪ closed st) (rng_pos st)
  end.
Definition run (st : Dealer) (evs : list event) : Dealer := foldl step st evs.

Definition submits_id (id : Z) (ev : event) : Prop :=
  match ev with Submit job => request_id job = id | Disconnect _ => False end.
Definition submit_chans (evs : list event) : list nat :=
  omap (fun ev => match ev with Submit job => Some (chan job) | Disconnect _ => None end) evs.

(** *** Lemmas *)

Lemma send_then_open c m k st :
  (forall st', open_requests (k st') = open_requests st') ->
  open_requests (send_then c m k st) = open_requests st.
Proof. intros Hk. unfold send_then, send. case_bool_decide; cbn; [done|]. by rewrite Hk. Qed.

Lemma handle_ready_pair_open r1 r2 st :
  open_requests (handle_ready_pair r1 r2 st) = open_requests st.
Proof.
  unfold handle_ready_pair. destruct (ready_pair_responses _ _ _) as [[[? ?] ?]|]; [|done].
  rewrite send_then_open; [done|]. intros. by apply send_then_open.
Qed.

(** A job changes the table at its own request id only. *)
Lemma handle_request_other id job st :
  request_id job <> id -> open_requests (handle_request job st) !! id = open_requests st !! id.
Proof.
  intros Hne. unfold handle_request. destruct (poisoned st); [done|].
  destruct (open_requests st !! request_id job) as [ex|] eqn:E;
    [|cbn; by rewrite lookup_insert_ne].
  case_bool_decide; cbn [negb]; [|cbn; by rewrite lookup_delete_ne].
  destruct (_ =? _)%Z.
  - rewrite send_then_open; [cbn; by rewrite lookup_delete_ne|].
    intros. by apply send_then_open.
  - rewrite handle_ready_pair_open. cbn. by rewrite lookup_delete_ne.
Qed.

Lemma run_other id evs st :
  Forall (fun ev => ~ submits_id id ev) evs ->
  open_requests (run st evs) !! id = open_requests st !! id.
Proof.
  revert st. induction evs as [|ev evs IH]; [done|]. intros st [H1 H2]%Forall_cons.
  cbn. rewrite IH by done. destruct ev; cbn in *; [by apply handle_request_other|done].
Qed.

(** A poisoned dealer answers nobody, ever. *)
Lemma run_poisoned evs st :
  poisoned st = true ->
  poisoned (run st evs) = true /\ mail (run st evs) = mail st /\
  open_requests (run st evs) = open_requests st.
Proof.
  revert st. induction evs as [|ev evs IH]; [done|]. intros st Hp.
  change (run st (ev :: evs)) with (run (step st ev) evs).
  assert (Hs : poisoned (step st ev) = true /\ mail (step st ev) = mail st /\
               open_requests (step st ev) = open_requests st).
  { destruct ev; cbn; [|done]. unfold handle_request. by rewrite Hp. }
  destruct Hs as (H1 & H2 & H3). destruct (IH _ H1) as (? & -> & ->). by rewrite H2, H3.
Qed.

Lemma handle_ready_pair_ok r1 r2 st :
  (forall i, samples rng i <> szero) ->
  chan r1 ∉ closed st -> chan r2 ∉ closed st -> chan r1 <> chan r2 ->
  exists resp1 resp2, correlated (request r1) resp1 resp2 /\
    mailbox (handle_ready_pair r1 r2 st) (chan r1) = mailbox st (chan r1) ++ [Ok resp1] /\
    mailbox (handle_ready_pair r1 r2 st) (chan r2) = mailbox st (chan r2) ++ [Ok resp2] /\
    poisoned (handle_ready_pair r1 r2 st) = poisoned st.
Proof.
  intros Hnz H1 H2 Hne. unfold handle_ready_pair.
  destruct (ready_pair_total rng (request r1) Hnz (rng_pos st)) as [[[resp1 resp2] p] E].
  exists resp1, resp2. split; [by eapply ready_pair_correlated|]. rewrite E.
  unfold send_then, send. cbn. rewrite !bool_decide_eq_false_2 by done. cbn.
  unfold mailbox. cbn. rewrite lookup_insert_ne, lookup_insert_eq by done. cbn.
  rewrite lookup_insert_eq. cbn. by rewrite lookup_insert_ne by done.
Qed.

(** A pair whose clients may have left. *)
Lemma handle_ready_pair_cases r1 r2 st :
  (forall i, samples rng i <> szero) -> chan r1 <> chan r2 -> poisoned st = false ->
  let left1 := bool_decide (chan r1 ∈ closed st) in let left2 := bool_decide (chan r2 ∈ closed st) in
  poisoned (handle_ready_pair r1 r2 st) = left1 || left2 /\
  exists resp1 resp2, correlated (request r1) resp1 resp2 /\
    mailbox (handle_ready_pair r1 r2 st) (chan r1) = mailbox st (chan r1) ++ (if left1 then [] else [Ok resp1]) /\
    mailbox (handle_ready_pair r1 r2 st) (chan r2) =
      mailbox st (chan r2) ++ (if left1 || left2 then [] else [Ok resp2]).
Proof.
  intros Hnz Hne Hp. unfold handle_ready_pair.
  destruct (ready_pair_total rng (request r1) Hnz (rng_pos st)) as [[[resp1 resp2] p] E]. rewrite E.
  unfold send_then, send. cbn [closed set_pos]. case_bool_decide as H1; cbn.
  { split; [done|]. exists resp1, resp2. rewrite !app_nil_r. eauto using ready_pair_correlated. }
  unfold mailbox. case_bool_decide as H2; cbn.
  - split; [done|]. exists resp1, resp2. rewrite lookup_insert_eq, lookup_insert_ne by done.
    rewrite app_nil_r. eauto using ready_pair_correlated.
  - split; [done|]. exists resp1, resp2. rewrite lookup_insert_eq, lookup_insert_ne, lookup_insert_eq by done.
    cbn. rewrite lookup_insert_ne by done. eauto using ready_pair_correlated.
Qed.

(** What holds of every state reached by submitting jobs on fresh channels:
    the table is keyed by request id, waiting jobs own distinct silent
    channels, and no channel is ever answered twice. *)
Record dealer_inv (used : gset nat) (st : Dealer) : Prop := {
  inv_key : forall id j, open_requests st !! id = Some j -> request_id j = id;
  inv_wait : forall id j, open_requests st !! id = Some j ->
    chan j ∈ used /\ mailbox st (chan j) = [];
  inv_inj : forall id id' j j', open_requests st !! id = Some j ->
    open_requests st !! id' = Some j' -> chan j = chan j' -> id = id';
  inv_fresh : forall c, c ∉ used -> mailbox st c = [];
  inv_once : forall c, length (mailbox st c) <= 1;
}.

(** The effect of a send on the mailboxes. *)
Lemma send_then_mail c m k st c' :
  mailbox (send_then c m k st) c' =
  if bool_decide (c ∈ closed st) then mailbox st c'
  else mailbox (k (mk_dealer (open_requests st) (poisoned st)
    (<[c := mailbox st c ++ [m]]> (mail st)) (closed st) (rng_pos st))) c'.
Proof. unfold send_then, send. by case_bool_decide. Qed.

(** Two sends on distinct silent channels touch those two only, once. *)
Lemma two_sends_mail c1 m1 c2 m2 st c :
  c1 <> c2 -> mailbox st c1 = [] -> mailbox st c2 = [] ->
  let st' := send_then c1 m1 (send_then c2 m2 id) st in
  (c <> c1 -> c <> c2 -> mailbox st' c = mailbox st c) /\
  length (mailbox st' c) <= Nat.max 1 (length (mailbox st c)).
Proof.
  intros Hne E1 E2. cbn. rewrite send_then_mail. case_bool_decide; [split; [done|lia]|].
  rewrite send_then_mail. unfold mailbox in *; cbn.
  rewrite E1, (lookup_insert_ne _ c1 c2), E2 by done. case_bool_decide; cbn; split.
  - intros. by rewrite lookup_insert_ne by congruence.
  - destruct (decide (c = c1)) as [->|]; [rewrite lookup_insert_eq; cbn; lia|].
    rewrite lookup_insert_ne by congruence. lia.
  - intros. by rewrite !lookup_insert_ne by congruence.
  - destruct (decide (c = c2)) as [->|]; [rewrite lookup_insert_eq; cbn; lia|].
    rewrite lookup_insert_ne by congruence.
    destruct (decide (c = c1)) as [->|]; [rewrite lookup_insert_eq; cbn; lia|].
    rewrite lookup_insert_ne by congruence. lia.
Qed.

(** A job that meets a waiting one leaves the table without that entry and
    writes to the two channels only, at most once each. *)
Lemma handle_request_meets job ex st :
  poisoned st = false -> open_requests st !! request_id job = Some ex ->
  chan ex <> chan job -> mailbox st (chan ex) = [] -> mailbox st (chan job) = [] ->
  open_requests (handle_request job st) = delete (request_id job) (open_requests st) /\
  forall c,
    (c <> chan ex -> c <> chan job -> mailbox (handle_request job st) c = mailbox st c) /\
    length (mailbox (handle_request job st) c) <= Nat.max 1 (length (mailbox st c)).
Proof.
  intros Hp E Hne E1 E2. unfold handle_request. rewrite Hp, E.
  case_bool_decide; cbn [negb]; [|split; [done|]; intros; split; [done|cbn; unfold mailbox; cbn; lia]].
  destruct (_ =? _)%Z; split.
  - rewrite send_then_open; [done|]. intros. by apply send_then_open.
  - intros c. destruct (two_sends_mail (chan job) (Err DUPLICATE_PARTY) (chan ex)
      (Err DUPLICATE_PARTY) (set_open (delete (request_id job) (open_requests st)) st) c)
      as [Ha Hb]; auto.
  - by rewrite handle_ready_pair_open.
  - intros c. unfold handle_ready_pair.
    destruct (ready_pair_responses _ _ _) as [[[r1 r2] p]|]; [|cbn; unfold mailbox; cbn; split; [done|lia]].
    destruct (two_sends_mail (chan ex) (Ok r1) (chan job) (Ok r2)
      (set_pos p (set_open (delete (request_id job) (open_requests st)) st)) c) as [Ha Hb]; auto.
Qed.

Lemma dealer_inv_submit used st job :
  dealer_inv used st -> chan job ∉ used ->
  dealer_inv ({[chan job]} ∪ used) (handle_request job st).
Proof.
  intros [Hkey Hwait Hinj Hfresh Honce] Hn.
  destruct (poisoned st) eqn:Hp.
  { unfold handle_request. rewrite Hp. split; auto; [|set_solver].
    intros id j Hj. destruct (Hwait id j Hj). set_solver. }
  destruct (open_requests st !! request_id job) as [ex|] eqn:E.
  - destruct (Hwait _ _ E) as [Hu Hs].
    destruct (handle_request_meets job ex st) as [Ho Hm]; auto; [congruence|].
    split; try (rewrite Ho); intros *; rewrite ?lookup_delete_Some.
    + naive_solver.
    + intros [Hid Hj]. destruct (Hwait _ _ Hj) as [? Hsil]. split; [set_solver|].
      rewrite (proj1 (Hm _)); [done| |congruence].
      intros Heq. apply Hid. eauto.
    + naive_solver.
    + intros Hc. rewrite (proj1 (Hm c)); [apply Hfresh; set_solver|set_solver..].
    + pose proof (proj2 (Hm c)). specialize (Honce c). lia.
  - unfold handle_request. rewrite Hp, E. unfold set_open.
    split; unfold mailbox in *; cbn; intros *; rewrite ?lookup_insert_Some; auto.
    + naive_solver.
    + intros [[<- <-]|[? Hj]]; [split; [set_solver|auto]|].
      destruct (Hwait _ _ Hj). set_solver.
    + intros [[<- <-]|[? Hj]] [[<- <-]|[? Hj']]; auto; intros Hc; try (by eauto);
        [destruct (Hwait _ _ Hj')|destruct (Hwait _ _ Hj)]; congruence.
    + set_solver.
Qed.

Lemma dealer_inv_run evs used st :
  dealer_inv used st -> NoDup (submit_chans evs) ->
  (forall c, c ∈ submit_chans evs -> c ∉ used) ->
  exists used', dealer_inv used' (run st evs).
Proof.
  revert used st. induction evs as [|[job|c] evs IH]; intros used st Hinv Hnd Hdis; [by exists used| |].
  - cbn in Hnd. apply NoDup_cons in Hnd as [Hn Hnd].
    apply (IH ({[chan job]} ∪ used) (handle_request job st)); [|done|].
    + apply dealer_inv_submit; [done|]. apply Hdis. cbn. set_solver.
    + intros c Hc. specialize (Hdis c). cbn in Hdis. set_solver.
  - apply (IH used); [|done|done]. by destruct Hinv; split.
Qed.

Lemma dealer_inv_new p : dealer_inv ∅ (new_dealer p).
Proof. split; unfold mailbox; cbn; intros *; rewrite ?lookup_empty; cbn; auto; try done; lia. Qed.
End Pairing.

(** ** Validation of a request by the HTTP server *)
Section Front.
Context {PK : Type}.
(** base64, [ecdsa::Signature], the bytes of a uuid and the JSON of a body are library
    code; [verify key payload sig] checks a signature of the payload. *)
Variable b64_decode : string -> option (list Z).
Variable sig_from_slice : list Z -> option (list Z).
Variable to_bytes_le : Uuid -> list Z.
Variable to_vec : DealerRequest PK -> option (list Z).
Variable verify : PK -> list Z -> list Z -> bool.

Definition MAX_REQUEST_SIZE : Z := 1500000.
Definition PARTY0 : Z := 0.
Definition PARTY1 : Z := 1.

Inductive reject := BadRequestError (msg : string) | UnauthorizedError (msg : string)
  | OtherRejection.

Definition validate_request (request_id : Uuid) (party_id : Z) (signature : string)
    (body : DealerRequest PK) : res reject unit :=
  if (total_values body >? MAX_REQUEST_SIZE)%Z
  then Err (BadRequestError "Request size too large")
  else if negb ((party_id =? PARTY0) || (party_id =? PARTY1))%Z
  then Err (BadRequestError "Invalid party ID")
  else
    let key := if (party_id =? PARTY0)%Z then first_party_key body else second_party_key body in
    decoded ← unwrap (b64_decode signature);
    sig ← unwrap (sig_from_slice decoded);
    body_bytes ← unwrap (to_vec body);
    let payload := (to_bytes_le request_id ++ body_bytes)%list in
    if verify key payload sig then Ok ()
    else Err (UnauthorizedError "Invalid signature").

(** The HTTP status and message of a rejection; other rejections are
    passed on to warp. *)
Definition handle_rejection (err : reject) : option (Z * string) :=
  match err with
  | BadRequestError msg => Some (400%Z, msg)
  | UnauthorizedError msg => Some (401%Z, msg)
  | OtherRejection => None
  end.

(** The number of values a request really asks for. *)
Definition requested (r : DealerRequest PK) : Z :=
  (n_random_bits r + n_random_values r + n_input_masks r + n_inverse_pairs r + n_triples r)%Z.
Definition counts_u32 (r : DealerRequest PK) : Prop :=
  in_u 32 (n_random_bits r) /\ in_u 32 (n_random_values r) /\ in_u 32 (n_input_masks r) /\
  in_u 32 (n_inverse_pairs r) /\ in_u 32 (n_triples r).

Lemma total_values_mod (r : DealerRequest PK) : total_values r = (requested r mod 2 ^ 32)%Z.
Proof.
  unfold total_values, requested, uadd, uwrap.
  rewrite !Zplus_mod_idemp_l, <- !Z.add_assoc.
  rewrite !Zplus_mod_idemp_l. by rewrite !Z.add_assoc.
Qed.
End Front.

(** ** Theorems *)

(** A two-element field, used to exhibit concrete runs. *)
#[refine] Definition F2 : ScalarField := {|
  Scalar := bool; szero := false; sone := true; sadd := xorb; smul := andb; ssub := xorb;
  sneg := fun b => b; sinv := fun b => if b then Some true else None |}.
Proof.
  - constructor; repeat intros []; reflexivity.
  - by intros [] [].
  - intros [] H; [by eexists|done].
Defined.

Definition f2_rng : @Rng F2 := {| samples := fun _ : nat => true : @Scalar F2; coins := Nat.even |}.
Definition f2_req : DealerRequest nat :=
  {| first_party_key := 1; second_party_key := 2; n_random_bits := 2; n_random_values := 1;
     n_input_masks := 1; n_inverse_pairs := 2; n_triples := 3 |}.
Definition f2_job (party : Z) (c : nat) : DealerJob (PK := nat) := mk_job 7 party f2_req c.
Definition f2_start : @Dealer F2 nat := new_dealer {| next_sample := 0; next_coin := 0 |}.

(** C13. Two parties submit the same request under one id, with any events about other
    requests in between; the scalars sampled are not zero.  If one of those events
    made the dealer panic, the second submission changes no mailbox, and nothing does
    afterwards.  Otherwise the id leaves the table, and correlated replies are made:
    MAC-authenticated shares of bits, values, masks, inverse pairs and Beaver triples
    in the requested numbers.  While both clients wait, each gets its own, once.  A
    first client that has left keeps the second from its reply, a second one that has
    left does not keep the first from its own; and either makes the dealer panic. *)
Theorem pair_answered `{SF : ScalarField} {PK} `{EqDecision PK} (rng : Rng)
    (st : Dealer (PK := PK)) (j1 j2 : DealerJob) (mid : list event) :
  (forall i, samples rng i <> szero) ->
  poisoned st = false -> open_requests st !! request_id j1 = None ->
  request_id j2 = request_id j1 -> request j2 = request j1 -> party_id j1 <> party_id j2 -> chan j1 <> chan j2 ->
  Forall (fun ev => ~ submits_id (request_id j1) ev) mid ->
  let st' := run rng st (Submit j1 :: mid) in
  let st'' := step rng st' (Submit j2) in
  let left1 := bool_decide (chan j1 ∈ closed st') in
  let left2 := bool_decide (chan j2 ∈ closed st') in
  if poisoned st' then forall evs c, mailbox (run rng st'' evs) c = mailbox st' c
  else open_requests st'' !! request_id j1 = None /\ poisoned st'' = left1 || left2 /\
    exists r1 r2, correlated (request j1) r1 r2 /\
      mailbox st'' (chan j1) = mailbox st' (chan j1) ++ (if left1 then [] else [Ok r1]) /\
      mailbox st'' (chan j2) = mailbox st' (chan j2) ++ (if left1 || left2 then [] else [Ok r2]).
Proof.
  intros Hnz Hp Hopen Hid Hreq Hparty Hne Hmid st' st'' left1 left2.
  destruct (poisoned st') eqn:Hp'.
  { intros evs c. change (run rng st'' evs) with (run rng st' (Submit j2 :: evs)).
    unfold mailbox. by destruct (run_poisoned rng (Submit j2 :: evs) st' Hp') as (_ & -> & _). }
  assert (Hj1 : open_requests st' !! request_id j1 = Some j1).
  { unfold st'. change (run rng st (Submit j1 :: mid)) with (run rng (handle_request rng j1 st) mid).
    rewrite run_other by done. unfold handle_request. rewrite Hp, Hopen. apply lookup_insert_eq. }
  assert (st'' = handle_ready_pair rng j1 j2 (set_open (delete (request_id j1) (open_requests st')) st')) as ->.
  { unfold st'', step, handle_request. rewrite Hp', Hid, Hj1, Hreq, bool_decide_eq_true_2 by done. cbn [negb].
    by destruct (Z.eqb_spec (party_id j1) (party_id j2)). }
  rewrite handle_ready_pair_open. cbn [open_requests set_open]. split; [apply lookup_delete_eq|].
  exact (handle_ready_pair_cases rng j1 j2 (set_open _ st') Hnz Hne Hp').
Qed.

(** With both clients waiting each gets its reply; with the first gone the second gets
    none. *)
Lemma pair_answered_witness :
  let j1 := f2_job 0 10 in let j2 := f2_job 1 11 in
  (let st' := run f2_rng f2_start [Submit j1; Disconnect 99] in
   exists r1 r2, correlated (request j1) r1 r2 /\
     mailbox (step f2_rng st' (Submit j2)) 10 = [Ok r1] /\ mailbox (step f2_rng st' (Submit j2)) 11 = [Ok r2]) /\
  let st' := run f2_rng f2_start [Submit j1; Disconnect 10] in
  poisoned (step f2_rng st' (Submit j2)) = true /\ mailbox (step f2_rng st' (Submit j2)) 11 = [].
Proof.
  cbv zeta. split.
  - pose proof (pair_answered f2_rng f2_start (f2_job 0 10) (f2_job 1 11) [Disconnect 99]
      ltac:(done) eq_refl eq_refl eq_refl eq_refl ltac:(done) ltac:(done) ltac:(by constructor; [cbn; tauto|])) as H.
    cbv zeta in H. replace (poisoned _) with false in H by (vm_compute; reflexivity).
    destruct H as (_ & _ & r1 & r2 & Hc & H1 & H2). exists r1, r2. split; [exact Hc|].
    replace (bool_decide _) with false in H1 by (vm_compute; reflexivity).
    replace (_ || _) with false in H2 by (vm_compute; reflexivity).
    split; [exact H1|exact H2].
  - pose proof (pair_answered f2_rng f2_start (f2_job 0 10) (f2_job 1 11) [Disconnect 10]
      ltac:(done) eq_refl eq_refl eq_refl eq_refl ltac:(done) ltac:(done) ltac:(by constructor; [cbn; tauto|])) as H.
    cbv zeta in H. replace (poisoned _) with false in H by (vm_compute; reflexivity).
    destruct H as (_ & Hp & r1 & r2 & _ & _ & H2).
    replace (_ || _) with true in Hp, H2 by (vm_compute; reflexivity).
    split; [exact Hp|exact H2].
Defined.

(** Whatever the order of submissions and disconnections, as long as every
    submission uses a channel of its own, the open-request table stays keyed by
    request id with pairwise distinct, still unanswered channels, and no
    channel is answered twice. *)
Theorem dealer_table_invariant `{SF : ScalarField} {PK} `{EqDecision PK} (rng : Rng) p evs :
  NoDup (submit_chans evs) ->
  let st := run (PK := PK) rng (new_dealer p) evs in
  (forall id j, open_requests st !! id = Some j ->
     request_id j = id /\ mailbox st (chan j) = []) /\
  (forall id id' j j', open_requests st !! id = Some j -> open_requests st !! id' = Some j' ->
     chan j = chan j' -> id = id') /\
  forall c, length (mailbox st c) <= 1.
Proof.
  intros Hnd st.
  destruct (dealer_inv_run rng evs ∅ (new_dealer p) (dealer_inv_new p) Hnd) as [u Hinv];
    [set_solver|]. destruct Hinv as [Hkey Hwait Hinj _ Honce].
  split_and!; [|exact Hinj|exact Honce].
  intros id j Hj. split; [by apply Hkey|]. by apply (Hwait id).
Qed.

Lemma dealer_table_invariant_witness :
  length (mailbox (run f2_rng f2_start [Submit (f2_job 0 10); Submit (f2_job 1 11)]) 10) <= 1.
Proof.
  apply (dealer_table_invariant f2_rng _ [Submit (f2_job 0 10); Submit (f2_job 1 11)]).
  cbn. repeat constructor; rewrite ?list_elem_of_In; cbn; intuition congruence.
Defined.

(** A second submission under an open id whose body differs makes the
    [assert_eq!] panic with the table's mutex held: the mutex is poisoned and,
    whatever is submitted afterwards, no channel ever receives another reply. *)
Theorem mismatched_request_kills_dealer `{SF : ScalarField} {PK} `{EqDecision PK} (rng : Rng)
    (st : Dealer (PK := PK)) (existing job : DealerJob) (later : list event) :
  poisoned st = false -> open_requests st !! request_id job = Some existing ->
  request existing <> request job ->
  mail (run rng st (Submit job :: later)) = mail st.
Proof.
  intros Hp He Hr.
  change (run rng st (Submit job :: later)) with (run rng (handle_request rng job st) later).
  assert (Hs : poisoned (handle_request rng job st) = true /\
               mail (handle_request rng job st) = mail st).
  { unfold handle_request. rewrite Hp, He, bool_decide_eq_false_2 by done. done. }
  destruct Hs as [Hs1 <-]. by apply (run_poisoned rng later).
Qed.

Lemma mismatched_request_kills_dealer_witness :
  let bad := mk_job 7 1 {| first_party_key := 1; second_party_key := 2; n_random_bits := 0;
    n_random_values := 0; n_input_masks := 0; n_inverse_pairs := 0; n_triples := 0 |} 11 in
  mail (run f2_rng (step f2_rng f2_start (Submit (f2_job 0 10)))
    [Submit bad; Submit (mk_job 8 0 f2_req 12); Submit (mk_job 8 1 f2_req 13)]) = ∅.
Proof.
  cbv zeta.
  rewrite (mismatched_request_kills_dealer f2_rng _ (f2_job 0 10)); [reflexivity..|].
  intros [=].
Defined.

(** Without wrap-around the size check is exact: a validated request asks
    for at most [MAX_REQUEST_SIZE] values, and one that exceeds the bound is
    rejected with status 400. *)
Theorem validate_size_bound {PK} b64 sigd id_bytes json verify rid party signature (body : DealerRequest PK) :
  counts_u32 body -> (requested body < 2 ^ 32)%Z ->
  (validate_request b64 sigd id_bytes json verify rid party signature body = Ok () ->
     (requested body <= MAX_REQUEST_SIZE)%Z) /\
  ((MAX_REQUEST_SIZE < requested body)%Z ->
     exists e, validate_request b64 sigd id_bytes json verify rid party signature body = Err e /\
               fst <$> handle_rejection e = Some 400%Z).
Proof.
  intros Hc Hlt. unfold validate_request.
  assert (Ht : total_values body = requested body).
  { rewrite total_values_mod. apply Z.mod_small. unfold counts_u32, in_u, requested in *. lia. }
  rewrite Ht, Z.gtb_ltb. destruct (Z.ltb_spec MAX_REQUEST_SIZE (requested body)).
  - split; [done|]. eauto.
  - split; [done|lia].
Qed.

Lemma validate_size_bound_witness :
  (requested f2_req <= MAX_REQUEST_SIZE)%Z.
Proof.
  apply (validate_size_bound (fun _ => Some []) (fun s => Some s) (fun _ => []) (fun _ => Some []) (fun _ _ _ => true)
    1 0 "" f2_req); [unfold counts_u32, in_u; cbn; lia|reflexivity|reflexivity].
Defined.

(** The [u32] sum of [total_values] wraps, so the size check can be
    bypassed: a correctly signed request for [2^32] values is accepted. *)
Theorem size_check_bypassed_by_wraparound :
  exists body : DealerRequest nat,
    counts_u32 body /\ (requested body = 2 ^ 32)%Z /\
    forall b64 sigd id_bytes json verify rid signature,
      (exists d s bytes, b64 signature = Some d /\ sigd d = Some s /\ json body = Some bytes /\
         verify (first_party_key body) (id_bytes rid ++ bytes)%list s = true) ->
      validate_request b64 sigd id_bytes json verify rid PARTY0 signature body = Ok ().
Proof.
  exists {| first_party_key := 1; second_party_key := 2; n_random_bits := 2 ^ 31;
    n_random_values := 2 ^ 31; n_input_masks := 0; n_inverse_pairs := 0; n_triples := 0 |}.
  split_and!; [unfold counts_u32, in_u; cbn; lia|reflexivity|].
  intros b64 sigd id_bytes json verify rid signature (d & s & bytes & Hd & Hs & Hb & Hv).
  unfold validate_request. cbn. rewrite Hd. cbn. rewrite Hs. cbn. rewrite Hb. cbn. cbn in Hv. by rewrite Hv.
Qed.
