(* ===== verification/Uniswapx.v ===== *)
(** * The UniswapX solver (renegade-solver/)

    [FixedPoint] models the emulated Solidity fixed-point arithmetic,
    [PriorityOrder] the scaling of priority orders, [Solver] the filters, the
    construction of the external order, [solve_order] and the polling step.
    The Renegade match API, the price reporter and the token metadata are
    parameters. *)
From Stdlib Require Import ZArith Lia.
From stdpp Require Import gmap strings list.
From S2P Require Import Prelude F64.
Local Open Scope Z_scope.

(** ** fixed_point/mod.rs *)
Module FixedPoint.
Inductive FixedPointMathError := DivisionByZero | Overflow.

Definition U256_MAX : Z := umax 256.

Definition validate_division (x y denominator : Z) : res FixedPointMathError (option Z) :=
  if denominator =? 0 then Err DivisionByZero
  else if y =? 0 then Ok (Some 0)
  else
    let max_x := U256_MAX / y in
    if x >? max_x then Err Overflow else Ok None.

Definition mul_div_down (x y denominator : Z) : res FixedPointMathError Z :=
  early ← validate_division x y denominator;
  match early with
  | Some early_result => Ok early_result
  | None => Ok (umul 256 x y / denominator)
  end.

Definition mul_div_up (x y denominator : Z) : res FixedPointMathError Z :=
  early ← validate_division x y denominator;
  match early with
  | Some early_result => Ok early_result
  | None =>
      let product := umul 256 x y in
      let quotient := product / denominator in
      let remainder := product mod denominator in
      if remainder >? 0 then ok_or (checked_add 256 quotient 1) Overflow else Ok quotient
  end.

(** Reference semantics: the rounded quotient of the exact product. *)
Definition div_up (n d : Z) : Z := - ((- n) / d).
Definition spec_mul_div (rnd : Z -> Z -> Z) (x y d : Z) : res FixedPointMathError Z :=
  if d =? 0 then Err DivisionByZero
  else if x * y <? 2 ^ 256 then Ok (rnd (x * y) d) else Err Overflow.

Lemma div_up_spec n d :
  0 < d -> div_up n d = if n mod d >? 0 then n / d + 1 else n / d.
Proof.
  intros Hd. unfold div_up. rewrite Z.gtb_ltb.
  pose proof (Z.mod_pos_bound n d Hd).
  destruct (Z.ltb_spec 0 (n mod d)).
  - rewrite Z_div_nz_opp_full by lia. lia.
  - rewrite Z_div_zero_opp_full by lia. lia.
Qed.

Lemma validate_division_spec x y d :
  in_u 256 x -> in_u 256 y ->
  validate_division x y d =
    if d =? 0 then Err DivisionByZero
    else if y =? 0 then Ok (Some 0)
    else if x * y <? 2 ^ 256 then Ok None else Err Overflow.
Proof.
  intros Hx Hy. unfold validate_division, U256_MAX, umax, in_u in *.
  destruct (d =? 0); [done|]. destruct (Z.eqb_spec y 0); [done|].
  rewrite Z.gtb_ltb.
  assert (Heq : (2 ^ 256 - 1) / y < x <-> 2 ^ 256 <= x * y).
  { split; intros H.
    - pose proof (Z.mul_succ_div_gt (2 ^ 256 - 1) y). nia.
    - apply Z.div_lt_upper_bound; lia. }
  destruct (Z.ltb_spec ((2 ^ 256 - 1) / y) x), (Z.ltb_spec (x * y) (2 ^ 256)); try done; lia.
Qed.

Lemma mul_div_down_eq x y d :
  in_u 256 x -> in_u 256 y -> mul_div_down x y d = spec_mul_div Z.div x y d.
Proof.
  intros Hx Hy. unfold mul_div_down, spec_mul_div. rewrite validate_division_spec by done.
  destruct (Z.eqb_spec d 0); [done|]. destruct (Z.eqb_spec y 0) as [->|]; cbn.
  - rewrite Z.mul_0_r, Z.div_0_l by done. done.
  - destruct (Z.ltb_spec (x * y) (2 ^ 256)); cbn; [|done].
    unfold umul. rewrite uwrap_id; [done|]. unfold in_u in *. nia.
Qed.

Lemma mul_div_up_eq x y d :
  in_u 256 x -> in_u 256 y -> in_u 256 d ->
  mul_div_up x y d = spec_mul_div div_up x y d.
Proof.
  intros Hx Hy Hd. unfold mul_div_up, spec_mul_div. rewrite validate_division_spec by done.
  unfold in_u in *.
  destruct (Z.eqb_spec d 0); [done|]. destruct (Z.eqb_spec y 0) as [->|]; cbn.
  - rewrite Z.mul_0_r. unfold div_up. by rewrite Z.opp_0, Z.div_0_l by lia.
  - destruct (Z.ltb_spec (x * y) (2 ^ 256)); cbn; [|done].
    unfold umul. rewrite uwrap_id by (unfold in_u; nia).
    rewrite div_up_spec by lia. rewrite Z.gtb_ltb.
    destruct (Z.ltb_spec 0 ((x * y) mod d)); [|done].
    unfold checked_add. destruct (Z.ltb_spec (x * y / d + 1) (2 ^ 256)); [done|].
    exfalso. assert (d <> 1) by (intros ->; rewrite Z.mod_1_r in *; lia).
    assert (x * y / d <= x * y / 2) by (apply Z.div_le_compat_l; nia).
    assert (x * y / 2 <= (2 ^ 256 - 1) / 2) by (apply Z.div_le_mono; lia).
    assert ((2 ^ 256 - 1) / 2 < 2 ^ 256 - 1) by (by vm_compute). lia.
Qed.
End FixedPoint.

(** ** abis/priority_order.rs *)
Module PriorityOrder.
Import FixedPoint.

Record PriorityInput := mk_input {
  in_token : Address;
  in_amount : Z;
  in_mps : Z;  (** [mpsPerPriorityFeeWei] *)
}.
Record PriorityOutput := mk_output {
  out_token : Address;
  out_amount : Z;
  out_mps : Z;
  recipient : Address;
}.
(** The fields of the order the solver reads. *)
Record PriorityOrder := mk_order {
  input : PriorityInput;
  outputs : list PriorityOutput;
}.

Definition MPS : Z := 10000000.

Definition scale_input (i : PriorityInput) (priority_fee_wei : Z) : res FixedPointMathError Z :=
  factor ← ok_or (checked_mul 256 priority_fee_wei (in_mps i)) Overflow;
  if factor >=? MPS then Ok 0
  else if factor =? 0 then Ok (in_amount i)
  else mul_div_down (in_amount i) (usub 256 MPS factor) MPS.

Definition scale_output (o : PriorityOutput) (priority_fee_wei : Z) : res FixedPointMathError Z :=
  if out_mps o =? 0 then Ok (out_amount o)
  else
    factor ← ok_or (checked_mul 256 priority_fee_wei (out_mps o)) Overflow;
    numerator ← ok_or (checked_add 256 MPS factor) Overflow;
    mul_div_up (out_amount o) numerator MPS.

Definition input_wf (i : PriorityInput) : Prop := in_u 256 (in_amount i) /\ in_u 256 (in_mps i).
Definition output_wf (o : PriorityOutput) : Prop := in_u 256 (out_amount o) /\ in_u 256 (out_mps o).

(** The input amount the contract charges: floor of
    [amount * (1 - fee*mps/MPS)], cut at zero. *)
Definition spec_input (i : PriorityInput) (fee : Z) : Z :=
  in_amount i * Z.max 0 (MPS - fee * in_mps i) / MPS.
Definition spec_output (o : PriorityOutput) (fee : Z) : Z :=
  div_up (out_amount o * (MPS + fee * out_mps o)) MPS.

Lemma scale_input_Ok i fee v :
  input_wf i -> in_u 256 fee -> scale_input i fee = Ok v ->
  fee * in_mps i < 2 ^ 256 /\ v = spec_input i fee.
Proof.
  intros [Ha Hm] Hf H. unfold scale_input in H. unfold in_u in *.
  apply bind_Ok_inv in H as (factor & Hfac & H). unfold ok_or in Hfac.
  destruct (checked_mul _ _ _) as [f'|] eqn:E; [|done]. injection Hfac as ->.
  apply checked_mul_Some in E as [-> Hlt]. split; [done|].
  unfold spec_input. rewrite Z.geb_leb in H.
  assert (0 <= fee * in_mps i) by nia.
  destruct (Z.leb_spec MPS (fee * in_mps i)).
  { injection H as <-. rewrite Z.max_l by lia. by rewrite Z.mul_0_r. }
  destruct (Z.eqb_spec (fee * in_mps i) 0) as [E0|].
  { injection H as <-. rewrite E0, Z.max_r, Z.sub_0_r by (unfold MPS; lia).
    rewrite Z.div_mul by (unfold MPS; lia). done. }
  assert (Hn : 0 < MPS - fee * in_mps i < 2 ^ 256) by (unfold MPS in *; lia).
  unfold usub in H. rewrite uwrap_id in H by (unfold in_u; lia).
  rewrite mul_div_down_eq in H by (unfold in_u; lia). unfold spec_mul_div in H.
  change (MPS =? 0) with false in H. cbn in H.
  destruct (Z.ltb_spec (in_amount i * (MPS - fee * in_mps i)) (2 ^ 256)); [|done].
  injection H as <-. by rewrite Z.max_r by lia.
Qed.

Lemma scale_output_Ok o fee v :
  output_wf o -> in_u 256 fee -> scale_output o fee = Ok v -> v = spec_output o fee.
Proof.
  intros [Ha Hm] Hf H. unfold scale_output in H. unfold in_u in *. unfold spec_output.
  assert (HM : 0 < MPS) by (unfold MPS; lia).
  destruct (Z.eqb_spec (out_mps o) 0) as [E0|].
  { injection H as <-. rewrite E0, Z.mul_0_r, Z.add_0_r. unfold div_up.
    rewrite <- Z.mul_opp_l, Z.div_mul by lia. lia. }
  apply bind_Ok_inv in H as (factor & Hfac & H). unfold ok_or in Hfac.
  destruct (checked_mul _ _ _) as [f'|] eqn:E; [|done]. injection Hfac as ->.
  apply checked_mul_Some in E as [-> Hlt].
  apply bind_Ok_inv in H as (num & Hnum & H). unfold ok_or in Hnum.
  destruct (checked_add _ _ _) as [n'|] eqn:E; [|done]. injection Hnum as ->.
  apply checked_add_Some in E as [-> Hlt2].
  rewrite mul_div_up_eq in H by (unfold in_u; first [unfold MPS; lia | split; [nia|lia]]).
  unfold spec_mul_div in H. change (MPS =? 0) with false in H. cbn in H.
  destruct (Z.ltb_spec (out_amount o * (MPS + fee * out_mps o)) (2 ^ 256)); [|done].
  by injection H as <-.
Qed.

Lemma spec_input_bounds i fee :
  0 <= in_amount i -> 0 <= fee * in_mps i -> 0 <= spec_input i fee <= in_amount i.
Proof.
  intros. unfold spec_input. assert (HM : 0 < MPS) by (unfold MPS; lia).
  split; [apply Z.div_pos; nia|]. apply Z.div_le_upper_bound; nia.
Qed.

Lemma spec_input_antitone i fee fee' :
  0 <= in_amount i -> 0 <= in_mps i -> fee <= fee' -> spec_input i fee' <= spec_input i fee.
Proof.
  intros. unfold spec_input. apply Z.div_le_mono; [unfold MPS; lia|].
  apply Z.mul_le_mono_nonneg_l; [done|]. apply Z.max_le_compat_l. nia.
Qed.

Lemma div_up_mono n m d : 0 < d -> n <= m -> div_up n d <= div_up m d.
Proof. intros. unfold div_up. pose proof (Z.div_le_mono (- m) (- n) d). lia. Qed.

Lemma spec_output_mono o fee fee' :
  0 <= out_amount o -> 0 <= out_mps o -> fee <= fee' -> spec_output o fee <= spec_output o fee'.
Proof.
  intros. unfold spec_output. apply div_up_mono; [unfold MPS; lia|].
  apply Z.mul_le_mono_nonneg_l; [done|]. nia.
Qed.

Lemma spec_output_zero o : spec_output o 0 = out_amount o.
Proof.
  unfold spec_output, div_up. rewrite Z.mul_0_l, Z.add_0_r, <- Z.mul_opp_l.
  rewrite Z.div_mul by (unfold MPS; lia). lia.
Qed.
End PriorityOrder.

(** ** The solver *)

(** The [lru] crate's cache of order hashes: what its documentation promises
    about [put] and [contains], up to the number of keys a cache of capacity
    [ORDER_CACHE_SIZE] retains. *)
Definition ORDER_CACHE_SIZE : nat := 100.

Class OrderCacheOps := {
  cache : Type;
  cache_put : string -> cache -> cache;
  cache_contains : cache -> string -> bool;
  contains_put_inv : forall c h h',
    cache_contains (cache_put h c) h' = true -> h' = h \/ cache_contains c h' = true;
  retained : forall c h (hs : list string), (length hs < ORDER_CACHE_SIZE)%nat ->
    cache_contains (foldl (fun c h => cache_put h c) (cache_put h c) hs) h = true;
}.

Module Solver.
Import FixedPoint PriorityOrder.

Inductive SolverError :=
  | FixedPointMath (e : FixedPointMathError)
  | InvalidU256 (v : Z)
  | InputOutputScaling
  | AbiEncoding (msg : string)
  | Upstream (msg : string).

(** abis/conversion.rs *)
Definition u256_to_u128 (v : Z) : res SolverError Z := ok_or (try_into_u 128 v) (InvalidU256 v).

Inductive OrderSide := Buy | Sell.

(** The fields of the SDK's external order that the builder sets. *)
Record ExternalOrder := mk_external {
  base_mint : Address;
  quote_mint : Address;
  base_amount_set : option Z;
  quote_amount_set : option Z;
  side : OrderSide;
}.

Section WithTokens.
(** [supported_tokens]: the token addresses the Renegade API knows, and the
    address registered under a symbol. *)
Variable supported : gset Z.
Variable address_of : string -> option Address.
(** [Token::usdc()] and [Token::convert_to_decimal] of renegade-types-core *)
Variable token_usdc : Address.
Variable convert_to_decimal : Address -> Z -> f64.

Definition USDC_SYMBOL : string := "USDC".

Definition is_token_supported (token : Address) : bool := bool_decide (token ∈ supported).
Definition get_usdc_address : res SolverError Address := unwrap (address_of USDC_SYMBOL).
Definition is_usdc (token : Address) : res SolverError bool :=
  usdc ← get_usdc_address; Ok (token =? usdc).

(** [v[i]]: panics out of range. *)
Definition index {A} (l : list A) (i : nat) : res SolverError A := unwrap (l !! i).

(** *** priority_order.rs, prices *)
Definition is_sell (o : PriorityOrder) : res SolverError bool :=
  out ← index (outputs o) 0; Ok (out_token out =? token_usdc).

Definition quote_token (o : PriorityOrder) : res SolverError Address :=
  s ← is_sell o; out ← index (outputs o) 0;
  Ok (if s : bool then out_token out else in_token (input o)).
Definition quote_amount (o : PriorityOrder) : res SolverError Z :=
  s ← is_sell o; out ← index (outputs o) 0;
  Ok (if s : bool then out_amount out else in_amount (input o)).
Definition base_token (o : PriorityOrder) : res SolverError Address :=
  s ← is_sell o; out ← index (outputs o) 0;
  Ok (if s : bool then in_token (input o) else out_token out).
Definition base_amount (o : PriorityOrder) : res SolverError Z :=
  s ← is_sell o; out ← index (outputs o) 0;
  Ok (if s : bool then in_amount (input o) else out_amount out).
Definition quote_amt_decimal_corrected (o : PriorityOrder) : res SolverError f64 :=
  q ← quote_amount o; amount ← u256_to_u128 q; t ← quote_token o;
  Ok (convert_to_decimal t amount).
Definition base_amt_decimal_corrected (o : PriorityOrder) : res SolverError f64 :=
  b ← base_amount o; amount ← u256_to_u128 b; t ← base_token o;
  Ok (convert_to_decimal t amount).
Definition get_price (o : PriorityOrder) : res SolverError f64 :=
  q ← quote_amt_decimal_corrected o; b ← base_amt_decimal_corrected o; Ok (fdiv q b).

(** *** priority_fee.rs *)
Definition compute_priority_fee (priority_order_price renegade_price : f64) (is_sell : bool)
    : Z :=
  let improvement :=
    if is_sell then fgeb renegade_price priority_order_price
    else fleb renegade_price priority_order_price in
  if negb improvement then 0
  else
    let abs_diff := fabs (fsub renegade_price priority_order_price) in
    let improvement_percent := fdiv abs_diff priority_order_price in
    let priority_fee_mps := fmul improvement_percent (of_Z MPS) in
    to_uint 128 priority_fee_mps.

(** *** solve.rs *)
Definition is_pair_serviceable (input_token output_token : Address) : res SolverError bool :=
  input_usdc ← is_usdc input_token;
  output_usdc ← is_usdc output_token;
  let input_known_not_usdc := is_token_supported input_token && negb input_usdc in
  let output_known_not_usdc := is_token_supported output_token && negb output_usdc in
  Ok (input_known_not_usdc || output_known_not_usdc).

Fixpoint any_serviceable (input_token : Address) (outs : list PriorityOutput)
    : res SolverError bool :=
  match outs with
  | [] => Ok false
  | o :: rest =>
      b ← is_pair_serviceable input_token (out_token o);
      if b : bool then Ok true else any_serviceable input_token rest
  end.
Definition is_order_serviceable (o : PriorityOrder) : res SolverError bool :=
  any_serviceable (in_token (input o)) (outputs o).

Definition temporary_order_filter (o : PriorityOrder) : res SolverError bool :=
  if negb (Nat.eqb (length (outputs o)) 1) then Ok false
  else
    let input_token := in_token (input o) in
    out ← index (outputs o) 0;
    let output_token := out_token out in
    is_input_usdc ← is_usdc input_token;
    is_output_usdc ← is_usdc output_token;
    let is_one_usdc := is_input_usdc || is_output_usdc in
    let both_supported := is_token_supported input_token && is_token_supported output_token in
    Ok (is_one_usdc && both_supported).

(** renegade_api.rs; the SDK's builder fails only on missing fields, which
    are all set here. *)
Definition build_buy_order (base quote : Address) (in_amount : Z) : ExternalOrder :=
  mk_external base quote None (Some in_amount) Buy.
Definition build_sell_order (base quote : Address) (in_amount : Z) : ExternalOrder :=
  mk_external base quote (Some in_amount) None Sell.
Definition build_order (input_token output_token : Address) (input_amount : Z)
    : res SolverError ExternalOrder :=
  is_buy_side ← is_usdc input_token;
  Ok (if is_buy_side : bool then build_buy_order output_token input_token input_amount
      else build_sell_order input_token output_token input_amount).

Definition build_scaled_order (o : PriorityOrder) (priority_fee : Z)
    : res SolverError ExternalOrder :=
  scaled_input ← map_err FixedPointMath (scale_input (input o) priority_fee);
  out ← index (outputs o) 0;
  scaled_output ← map_err FixedPointMath (scale_output out priority_fee);
  if negb (scaled_input =? in_amount (input o)) && negb (scaled_output =? out_amount out)
  then Err InputOutputScaling
  else
    input_u128 ← u256_to_u128 scaled_input;
    build_order (in_token (input o)) (out_token out) input_u128.

(** What a run of [solve_order] did. *)
Inductive outcome :=
  | NotServiceable
  | Requested (order : ExternalOrder) (bundle_receive : option Z).

(** [price]: answer of the price reporter for the base token; [request]:
    answer of the match API, the receive amount of the bundle if any. *)
Definition solve_order (price : Address -> res SolverError f64)
    (request : ExternalOrder -> res SolverError (option Z))
    (decoded : res SolverError PriorityOrder) : res SolverError outcome :=
  order ← decoded;
  serviceable ← is_order_serviceable order;
  passes ← (if serviceable : bool then temporary_order_filter order else Ok false);
  if negb passes then Ok NotServiceable
  else
    first_output ← index (outputs order) 0;
    priority_order_price ← get_price order;
    mint ← base_token order;
    renegade_price ← price mint;
    sell ← is_sell order;
    let priority_fee_wei := compute_priority_fee priority_order_price renegade_price sell in
    scaled_input ← map_err FixedPointMath (scale_input (input order) priority_fee_wei);
    scaled_output ← map_err FixedPointMath (scale_output first_output priority_fee_wei);
    _ ← u256_to_u128 scaled_input;
    _ ← u256_to_u128 (in_amount (input order));
    _ ← u256_to_u128 scaled_output;
    _ ← u256_to_u128 (out_amount first_output);
    external_order ← build_scaled_order order priority_fee_wei;
    bundle ← request external_order;
    match bundle with
    | Some receive_amount => _ ← u256_to_u128 (out_amount first_output);
        Ok (Requested external_order (Some receive_amount))
    | None => Ok (Requested external_order None)
    end.
End WithTokens.

(** *** Polling (uniswapx/mod.rs, uniswap_api/methods.rs) *)
Section Polling.
Context `{OC : OrderCacheOps}.

(** An [OrderEntity] is its hash and its encoded order. *)
Record OrderEntity := mk_entity { order_hash : string; encoded_order : string }.

Definition is_order_processed (c : cache) (o : OrderEntity) : bool :=
  cache_contains c (order_hash o).
Definition mark_order_processed (o : OrderEntity) (c : cache) : cache :=
  cache_put (order_hash o) c.

(** The response of the API: a failed status yields no order. *)
Definition fetch_open_orders (c : cache) (response : res SolverError (option (list OrderEntity)))
    : res SolverError (list OrderEntity) :=
  r ← response;
  match r with
  | None => Ok []
  | Some orders => Ok (filter (fun o => is_order_processed c o = false) orders)
  end.

(** [poll_orders]: the new cache and the orders handed to solver tasks. *)
Definition poll_orders (c : cache) (response : res SolverError (option (list OrderEntity)))
    : res SolverError (cache * list OrderEntity) :=
  orders ← fetch_open_orders c response;
  Ok (foldl (fun c o => mark_order_processed o c) c orders, orders).

(** [polling_loop]: an error is logged and the loop goes on. *)
Fixpoint polling_loop (c : cache) (responses : list (res SolverError (option (list OrderEntity))))
    : list (list OrderEntity) :=
  match responses with
  | [] => []
  | r :: rest =>
      match poll_orders c r with
      | Ok (c', spawned) => spawned :: polling_loop c' rest
      | _ => [] :: polling_loop c rest
      end
  end.
End Polling.

(** *** executor_client/mod.rs *)
Definition GAS_PRICE_MULTIPLIER : Z := 2.
(** The latest block, its base fee if any. *)
Definition get_adjusted_gas_price (latest_block : res string (option (option Z)))
    : res string Z :=
  block ← latest_block;
  b ← ok_or block "No latest block found";
  latest_basefee ← ok_or b "No basefee found";
  Ok (umul 64 latest_basefee GAS_PRICE_MULTIPLIER).

(** *** Lemmas of the solver *)
Section SolverLemmas.
Context (supported : gset Z) (address_of : string -> option Address).
Context (usdc : Address).
Context (Husdc : address_of USDC_SYMBOL = Some usdc).

Lemma is_usdc_spec t : is_usdc address_of t = Ok (t =? usdc).
Proof. unfold is_usdc, get_usdc_address. by rewrite Husdc. Qed.

Lemma build_order_no_panic i o a : build_order address_of i o a <> Panic.
Proof. unfold build_order. by rewrite is_usdc_spec. Qed.

(** The two filters together admit exactly one shape of order. *)
Lemma filters_pass o :
  is_order_serviceable supported address_of o = Ok true ->
  temporary_order_filter supported address_of o = Ok true ->
  exists out, outputs o = [out] /\ in_token (input o) ∈ supported /\ out_token out ∈ supported /\
    ((in_token (input o) = usdc /\ out_token out <> usdc) \/
     (in_token (input o) <> usdc /\ out_token out = usdc)).
Proof.
  unfold is_order_serviceable, temporary_order_filter, index.
  destruct (outputs o) as [|out [|]] eqn:Ho; try done. cbn -[is_usdc is_pair_serviceable].
  unfold is_pair_serviceable. rewrite !is_usdc_spec. cbn. intros H1 H2.
  exists out. split; [done|]. unfold is_token_supported in *.
  destruct (Z.eqb_spec (in_token (input o)) usdc), (Z.eqb_spec (out_token out) usdc);
    cbn in *; rewrite ?andb_false_r in H1; cbn in *; try done;
    injection H2 as H2; apply andb_true_iff in H2 as [H2 H3];
    apply bool_decide_eq_true in H2, H3; tauto.
Qed.

Lemma u256_to_u128_Ok v w : u256_to_u128 v = Ok w -> w = v /\ v < 2 ^ 128.
Proof.
  unfold u256_to_u128, ok_or. destruct (try_into_u 128 v) eqn:E; [|done].
  apply try_into_u_Some in E as [-> ?]. intros [= <-]. done.
Qed.

Lemma build_scaled_order_Ok o out fee ext :
  outputs o = [out] -> input_wf (input o) -> output_wf out -> in_u 256 fee ->
  build_scaled_order address_of o fee = Ok ext ->
  let a := spec_input (input o) fee in
  (a = in_amount (input o) \/ spec_output out fee = out_amount out) /\
  ext = if in_token (input o) =? usdc
        then mk_external (out_token out) (in_token (input o)) None (Some a) Buy
        else mk_external (in_token (input o)) (out_token out) (Some a) None Sell.
Proof.
  intros Ho Hi Hout Hfee H. unfold build_scaled_order, index in H. rewrite Ho in H. cbn in H.
  apply bind_Ok_inv in H as (si & Hsi & H). apply map_err_Ok in Hsi.
  apply bind_Ok_inv in H as (so & Hso & H). apply map_err_Ok in Hso.
  apply scale_input_Ok in Hsi as [_ ->]; [|done..]. apply scale_output_Ok in Hso as ->; [|done..].
  cbn zeta. split.
  - destruct (Z.eqb_spec (spec_input (input o) fee) (in_amount (input o))); [tauto|].
    destruct (Z.eqb_spec (spec_output out fee) (out_amount out)); [tauto|done].
  - destruct (_ && _); [done|]. apply bind_Ok_inv in H as (a & Ha & H).
    apply u256_to_u128_Ok in Ha as [-> _]. unfold build_order in H. rewrite is_usdc_spec in H.
    cbn in H. by injection H as <-.
Qed.

Lemma compute_priority_fee_range p r s : in_u 256 (compute_priority_fee p r s).
Proof.
  unfold compute_priority_fee. destruct (negb _); [unfold in_u; lia|].
  pose proof (to_uint_range 128 (fmul (fdiv (fabs (fsub r p)) p) (of_Z MPS))).
  unfold in_u in *. lia.
Qed.

(** No component of the pipeline panics. *)
Lemma bind_no_panic {E A B} (m : res E A) (f : A -> res E B) :
  m <> Panic -> (forall a, m = Ok a -> f a <> Panic) -> (m ≫= f) <> Panic.
Proof. destruct m; cbn; naive_solver. Qed.
Lemma map_err_no_panic {E F A} (f : E -> F) (m : res E A) : m <> Panic -> map_err f m <> Panic.
Proof. by destruct m. Qed.
Lemma ok_or_no_panic {E A} (o : option A) (e : E) : ok_or o e <> Panic.
Proof. by destruct o. Qed.
Lemma validate_no_panic x y d : validate_division x y d <> Panic.
Proof. unfold validate_division. by repeat split_match. Qed.
Lemma scale_input_no_panic i fee : scale_input i fee <> Panic.
Proof.
  apply bind_no_panic; [apply ok_or_no_panic|]. intros f _. split_match; [done|]. split_match; [done|].
  apply bind_no_panic; [apply validate_no_panic|]. intros [] _; done.
Qed.
Lemma scale_output_no_panic i fee : scale_output i fee <> Panic.
Proof.
  unfold scale_output. split_match; [done|].
  apply bind_no_panic; [apply ok_or_no_panic|]. intros f _.
  apply bind_no_panic; [apply ok_or_no_panic|]. intros g _.
  apply bind_no_panic; [apply validate_no_panic|]. intros [] _; [done|]. cbn zeta.
  split_match; [apply ok_or_no_panic|done].
Qed.

Lemma any_serviceable_no_panic t outs : any_serviceable supported address_of t outs <> Panic.
Proof.
  induction outs as [|o outs IH]; [done|]. cbn. unfold is_pair_serviceable.
  rewrite !is_usdc_spec. cbn. by split_match.
Qed.
Lemma filter_no_panic o : temporary_order_filter supported address_of o <> Panic.
Proof.
  unfold temporary_order_filter, index. destruct (outputs o) as [|out [|]]; try done.
  cbn -[is_usdc]. rewrite !is_usdc_spec. done.
Qed.
End SolverLemmas.

#[local] Hint Resolve map_err_no_panic ok_or_no_panic scale_input_no_panic scale_output_no_panic
  any_serviceable_no_panic filter_no_panic : rust.

Lemma solve_order_inv supported address_of token_usdc conv price request o ext r :
  solve_order supported address_of token_usdc conv price request (Ok o) = Ok (Requested ext r) ->
  is_order_serviceable supported address_of o = Ok true /\
  temporary_order_filter supported address_of o = Ok true /\
  exists p q s, let fee := compute_priority_fee p q s in
    build_scaled_order address_of o fee = Ok ext /\ request ext = Ok r.
Proof.
  unfold solve_order. intros H. apply bind_Ok_inv in H as (o' & [= <-] & H).
  apply bind_Ok_inv in H as ([] & Hs & H); apply bind_Ok_inv in H as (p & Hp & H);
    [|by injection Hp as <-].
  destruct p; [|done]. split; [done|]. split; [done|]. cbn [negb] in H.
  apply bind_Ok_inv in H as (out & Ho & H).
  apply bind_Ok_inv in H as (pp & _ & H). apply bind_Ok_inv in H as (m & _ & H).
  apply bind_Ok_inv in H as (q & _ & H). apply bind_Ok_inv in H as (s & _ & H).
  exists pp, q, s. cbn zeta in *.
  do 6 apply bind_Ok_inv in H as (? & _ & H).
  apply bind_Ok_inv in H as (e & He & H). apply bind_Ok_inv in H as (b & Hb & H).
  destruct b; [apply bind_Ok_inv in H as (? & _ & H)|]; injection H as <- <-; done.
Qed.

(** C32. [solve_order] sends a request to the match API only for an order with
    a single output, between two supported tokens exactly one of which is
    USDC; the request then is on the right side of the book, spends the
    input amount scaled by some priority fee, never more than the order's
    input, and at most one of the two legs is scaled. *)
Theorem solve_order_request_spec supported address_of token_usdc conv price request usdc o ext r :
  address_of USDC_SYMBOL = Some usdc ->
  input_wf (input o) -> Forall output_wf (outputs o) ->
  solve_order supported address_of token_usdc conv price request (Ok o) = Ok (Requested ext r) ->
  exists out fee,
    outputs o = [out] /\ in_token (input o) ∈ supported /\ out_token out ∈ supported /\
    let a := spec_input (input o) fee in
    0 <= a <= in_amount (input o) /\
    (a = in_amount (input o) \/ spec_output out fee = out_amount out) /\
    request ext = Ok r /\
    ((in_token (input o) = usdc /\ out_token out <> usdc /\
      ext = mk_external (out_token out) usdc None (Some a) Buy) \/
     (in_token (input o) <> usdc /\ out_token out = usdc /\
      ext = mk_external (in_token (input o)) usdc (Some a) None Sell)).
Proof.
  intros Hu Hi Ho H. apply solve_order_inv in H as (Hs & Hf & p & q & s & Hb & Hr).
  destruct (filters_pass _ _ _ Hu _ Hs Hf) as (out & E & Hin & Hout & Hside).
  set (fee := compute_priority_fee p q s) in *.
  assert (Hfee : in_u 256 fee) by apply compute_priority_fee_range.
  rewrite E, Forall_singleton in Ho.
  destruct (build_scaled_order_Ok _ usdc Hu o out fee ext E Hi Ho Hfee Hb) as [Hone ->].
  exists out, fee. cbn zeta. split_and!; try done.
  1,2: apply spec_input_bounds; destruct Hi; unfold in_u in *; nia.
  destruct Hside as [[-> ?]|[? ->]]; [left|right]; (split; [done|split; [done|]]).
  - by rewrite Z.eqb_refl.
  - by destruct (Z.eqb_spec (in_token (input o)) usdc).
Qed.

(** With USDC among the tokens of the match API, and answers of the price
    reporter and of the match API that are values or errors, [solve_order]
    never panics: the guarded [outputs[0]] accesses are all in range. *)
Theorem solve_order_no_panic supported address_of token_usdc conv price request usdc decoded :
  address_of USDC_SYMBOL = Some usdc ->
  (forall m, price m <> Panic) -> (forall e, request e <> Panic) -> decoded <> Panic ->
  solve_order supported address_of token_usdc conv price request decoded <> Panic.
Proof.
  intros Hu Hp Hr Hd. unfold solve_order. apply bind_no_panic; [done|]. intros o _.
  apply bind_no_panic; [eapply any_serviceable_no_panic; eauto|]. intros sv _.
  apply bind_no_panic; [destruct sv; [eapply filter_no_panic; eauto|done]|]. intros ps Hps.
  destruct ps; [|done]. destruct sv; [|done]. cbn [negb].
  assert (exists out, outputs o = [out]) as [out E].
  { unfold temporary_order_filter in Hps. destruct (outputs o) as [|out [|]]; try done. eauto. }
  assert (Hconv : forall v, u256_to_u128 v <> Panic) by (intros; apply ok_or_no_panic).
  assert (Hq : forall v t, (a ← u256_to_u128 v; Ok (conv t a)) <> Panic)
    by (intros; apply bind_no_panic; done).
  unfold get_price, quote_amt_decimal_corrected, base_amt_decimal_corrected, quote_amount,
    base_amount, quote_token, base_token, build_scaled_order, is_sell, index. rewrite E.
  cbn -[u256_to_u128 scale_input scale_output build_order compute_priority_fee].
  repeat first [progress intros | apply scale_input_no_panic | apply scale_output_no_panic
    | apply Hconv | apply Hp | apply Hr | apply (build_order_no_panic _ _ Hu)
    | apply map_err_no_panic | apply bind_no_panic | done | case_match].
Qed.

(** Scaling by a priority fee favours the swapper: where they succeed the
    scaled input and output are the exactly rounded values, the input lies
    between zero and the order's input and decreases with the fee, the output
    is at least the order's output and increases with the fee. *)
Theorem scale_favors_swapper i o fee fee' a a' b b' :
  input_wf i -> output_wf o -> in_u 256 fee -> in_u 256 fee' -> fee <= fee' ->
  scale_input i fee = Ok a -> scale_input i fee' = Ok a' ->
  scale_output o fee = Ok b -> scale_output o fee' = Ok b' ->
  a = spec_input i fee /\ b = spec_output o fee /\
  0 <= a' <= a /\ a <= in_amount i /\ out_amount o <= b <= b'.
Proof.
  intros Hi Ho Hf Hf' Hle Ha Ha' Hb Hb'.
  apply scale_input_Ok in Ha as [_ ->], Ha' as [_ ->]; try done.
  apply scale_output_Ok in Hb as ->, Hb' as ->; try done.
  destruct Hi as [Hi1 Hi2], Ho as [Ho1 Ho2]. unfold in_u in *. split_and!; try done.
  - apply spec_input_bounds; nia.
  - apply spec_input_antitone; lia.
  - apply spec_input_bounds; nia.
  - rewrite <- (spec_output_zero o) at 1. apply spec_output_mono; lia.
  - apply spec_output_mono; lia.
Qed.

(** C33. The emulated fixed-point routines compute, for every 256-bit operand,
    the floor and the ceiling of the exact quotient, fail with a division by
    zero exactly when the denominator is zero and with an overflow exactly
    when the product does not fit 256 bits; the increment of the
    rounded-up quotient never overflows. *)
Theorem mul_div_exact x y d :
  in_u 256 x -> in_u 256 y -> in_u 256 d ->
  mul_div_down x y d = spec_mul_div Z.div x y d /\
  mul_div_up x y d = spec_mul_div div_up x y d.
Proof. intros. by rewrite mul_div_down_eq, mul_div_up_eq. Qed.

(** *** Deduplication of polled orders *)
Section PollingLemmas.
Context `{OC : OrderCacheOps}.

Lemma foldl_map {A B C} (f : C -> B -> C) (g : A -> B) l c :
  foldl f c (map g l) = foldl (fun c a => f c (g a)) c l.
Proof. revert c. induction l; cbn; auto. Qed.

Lemma mark_all_retained c os o os' :
  (length os' < ORDER_CACHE_SIZE)%nat ->
  is_order_processed (foldl (fun c o => mark_order_processed o c) c (os ++ o :: os')) o = true.
Proof.
  intros Hlen. rewrite foldl_app. cbn. unfold is_order_processed, mark_order_processed.
  set (c' := foldl _ c os). clearbody c'.
  rewrite <- (foldl_map (fun c h => cache_put h c)). apply retained. by rewrite length_map.
Qed.

Lemma marked_in c os o :
  is_order_processed c o = false ->
  is_order_processed (foldl (fun c o => mark_order_processed o c) c os) o = true ->
  order_hash o ∈ map order_hash os.
Proof.
  revert c. induction os as [|o' os IH]; cbn; intros c Hf H; [congruence|].
  destruct (decide (order_hash o = order_hash o')) as [->|Hne]; [by left|].
  right. eapply IH; [|exact H]. unfold is_order_processed, mark_order_processed in *.
  apply not_true_is_false. intros [?|?]%contains_put_inv; congruence.
Qed.

Lemma poll_orders_Ok c r c' os :
  poll_orders c r = Ok (c', os) ->
  c' = foldl (fun c o => mark_order_processed o c) c os /\
  forall o, o ∈ os -> is_order_processed c o = false.
Proof.
  unfold poll_orders. intros H. apply bind_Ok_inv in H as (os' & Hf & [= <- <-]).
  split; [done|]. intros o Ho. unfold fetch_open_orders in Hf.
  apply bind_Ok_inv in Hf as ([all|] & _ & [= <-]); [|set_solver].
  by apply list_elem_of_filter in Ho as [? _].
Qed.
End PollingLemmas.

(** No order is solved twice by consecutive successful polls: as long as a
    poll hands out no more orders than the cache holds, none of them is
    handed out again by the next poll, whatever the API answers; and every
    order not handed out before is. *)
Theorem polling_deduplicates `{OC : OrderCacheOps} c r c' os all c'' os' :
  (length os <= ORDER_CACHE_SIZE)%nat ->
  poll_orders c r = Ok (c', os) ->
  poll_orders c' (Ok (Some all)) = Ok (c'', os') ->
  (forall o, o ∈ os' -> order_hash o ∉ map order_hash os) /\
  (forall o, o ∈ all -> is_order_processed c o = false ->
     order_hash o ∉ map order_hash os -> o ∈ os').
Proof.
  intros Hlen H1 H2. apply poll_orders_Ok in H1 as [Hc' _].
  split.
  - intros o Ho (o1 & Heq & Hin)%list_elem_of_fmap.
    apply poll_orders_Ok in H2 as [_ Hn]. specialize (Hn _ Ho).
    apply list_elem_of_split in Hin as (l1 & l2 & ->).
    rewrite length_app in Hlen. cbn in Hlen.
    pose proof (mark_all_retained c l1 o1 l2 ltac:(lia)) as Hm. rewrite <- Hc' in Hm.
    unfold is_order_processed in *. congruence.
  - intros o Ho Hf Hnin. cbn in H2. injection H2 as _ <-.
    apply list_elem_of_filter. split; [|done].
    apply not_true_is_false. rewrite Hc'. intros Hm. by apply marked_in in Hm.
Qed.
End Solver.

(** ** Witnesses *)
Module UniswapxWitness.
Import FixedPoint PriorityOrder Solver.

Lemma mul_div_exact_witness :
  mul_div_down 7 3 2 = Ok 10 /\ mul_div_up 7 3 2 = spec_mul_div div_up 7 3 2.
Proof. split; [reflexivity|]. apply (mul_div_exact 7 3 2); split; (reflexivity || (intros [=])). Defined.

(** One wei of priority fee buys a tenth of a percent. *)
Definition in1 : PriorityInput := mk_input 1 1000 0.
Definition out1 : PriorityOutput := mk_output 2 2000 10000 9.
Definition order1 : PriorityOrder := mk_order in1 [out1].
Definition toks : gset Z := {[1; 2]}.
Definition addr (s : string) : option Address := if String.eqb s USDC_SYMBOL then Some 2 else None.
Definition conv (_ : Address) (n : Z) : f64 := of_Z n.
Definition price1 (_ : Address) : res SolverError f64 := Ok (of_Z 3).
Definition request1 (_ : ExternalOrder) : res SolverError (option Z) := Ok (Some 2500).

Lemma solve_order_request_spec_witness :
  exists out fee, outputs order1 = [out] /\ spec_input in1 fee = 1000.
Proof.
  destruct (solve_order_request_spec toks addr 2 conv price1 request1 2 order1
    (mk_external 1 2 (Some 1000) None Sell) (Some 2500)) as (out & fee & H).
  - reflexivity.
  - split; split; (reflexivity || (intros [=])).
  - constructor; [split; split; (reflexivity || (intros [=]))|constructor].
  - vm_compute. reflexivity.
  - exists out, fee. cbn zeta in H. destruct H as (Ho & _ & _ & _ & _ & _ & H). split; [exact Ho|].
    destruct H as [(H & _ & _)|(_ & _ & H)]; [discriminate H|].
    change (input order1) with in1 in H. congruence.
Defined.

Lemma solve_order_no_panic_witness :
  solve_order toks addr 2 conv price1 request1 (Ok (mk_order in1 [])) <> Panic.
Proof. apply (solve_order_no_panic toks addr 2 conv price1 request1 2); [reflexivity|..]; discriminate. Defined.

Lemma scale_favors_swapper_witness : 1000 <= 1000 /\ 2000 <= 2004 <= 2008.
Proof.
  split; [reflexivity|].
  apply (scale_favors_swapper in1 out1 2 4 1000 1000 2004 2008);
    try reflexivity; try discriminate; repeat split; discriminate.
Defined.

(** The cache as the list of its keys, latest first, cut at its capacity. *)
Lemma firstn_keeps c h (hs : list string) :
  (length hs < ORDER_CACHE_SIZE)%nat ->
  forall l1 l2, c = l1 ++ h :: l2 -> (length l1 + length hs < ORDER_CACHE_SIZE)%nat ->
  h ∈ foldl (fun c h => take ORDER_CACHE_SIZE (h :: c)) c hs.
Proof.
  revert c. induction hs as [|h' hs IH]; intros c Hl l1 l2 -> Hb; cbn [foldl].
  - set_solver.
  - cbn [length] in *. apply (IH _ ltac:(lia) (h' :: l1) (take (ORDER_CACHE_SIZE - length (h' :: l1) - 1) l2)).
    + rewrite app_comm_cons. rewrite take_app_ge by (cbn; lia). f_equal.
      cbn [length]. destruct (ORDER_CACHE_SIZE - S (length l1))%nat eqn:E; [lia|].
      cbn. do 2 f_equal. lia.
    + cbn. lia.
Qed.

#[local] Program Instance list_cache : OrderCacheOps := {|
  cache := list string;
  cache_put h c := take ORDER_CACHE_SIZE (h :: c);
  cache_contains c h := bool_decide (h ∈ c);
|}.
Next Obligation.
  cbn beta. intros c h h' H%bool_decide_eq_true. apply elem_of_take in H as (i & Hi & _).
  destruct i; [left; injection Hi as ->; done|right; apply bool_decide_eq_true].
  by eapply list_elem_of_lookup_2.
Qed.
Next Obligation.
  cbn beta. intros c h hs Hl. apply bool_decide_eq_true.
  apply (firstn_keeps _ h hs Hl [] (take 99 c)); [reflexivity|cbn; lia].
Qed.

Definition e1 := mk_entity "h1" "d".
Definition e2 := mk_entity "h2" "d".

Lemma polling_deduplicates_witness : order_hash e2 ∉ ["h1"%string].
Proof.
  eapply (polling_deduplicates (OC := list_cache) [] (Ok (Some [e1])) ["h1"%string] [e1] [e1; e2]
    ["h2"; "h1"]%string [e2]).
  - cbn. unfold ORDER_CACHE_SIZE. lia.
  - reflexivity.
  - reflexivity.
  - by left.
Defined.
End UniswapxWitness.
