(* ===== verification/AuthError.v ===== *)
(** * Errors of the auth server (auth/auth-server/src/error.rs, main.rs)

    The error type every handler of the auth server returns, its conversion to
    an API error and the status codes of the replies. *)
From Stdlib Require Import ZArith.
From stdpp Require Import strings.
From S2P Require Import Prelude.

(** price-reporter-client/src/error.rs *)
Inductive PriceReporterClientError :=
  | PRSetup (msg : string)
  | PRParsing (msg : string)
  | PRConversion (msg : string)
  | PRHttp (msg : string)
  | PRWebSocket (msg : string)
  | PRStreamMissing (mint : string)
  | PRCustom (msg : string).

Inductive AuthServerError :=
  | ApiKeyInactive
  | BadRequest (msg : string)
  | BundleStore (msg : string)
  | Custom (msg : string)
  | DarkpoolClient (msg : string)
  | DatabaseConnection (msg : string)
  | Decryption (msg : string)
  | Encryption (msg : string)
  | GasCostSampler (msg : string)
  | GasSponsorship (msg : string)
  | NoContent (msg : string)
  | PriceReporter (e : PriceReporterClientError)
  | RateLimit
  | RedisConnection (msg : string)
  | Serde (msg : string)
  | Setup (msg : string)
  | Signing (msg : string)
  | Unauthorized (msg : string).

Definition ERR_NO_MATCH_FOUND : string := "No match found".
Definition no_match_found : AuthServerError := NoContent ERR_NO_MATCH_FOUND.

(** main.rs *)
Inductive ApiError :=
  | ApiInternalError
  | ApiBadRequest (msg : string)
  | ApiNoContent (msg : string)
  | ApiTooManyRequests
  | ApiUnauthorized.

(** [From<AuthServerError> for ApiError]; the text of an internal error is only
    logged. *)
Definition api_error_of (e : AuthServerError) : ApiError :=
  match e with
  | ApiKeyInactive | Unauthorized _ => ApiUnauthorized
  | BadRequest m | Serde m => ApiBadRequest m
  | RateLimit => ApiTooManyRequests
  | NoContent m => ApiNoContent m
  | _ => ApiInternalError
  end.

Definition DEFAULT_INTERNAL_SERVER_ERROR_MESSAGE : string := "Internal Server Error".

(** Status code and message of the reply. *)
Definition api_error_to_reply (e : ApiError) : Z * string :=
  match e with
  | ApiInternalError => (500%Z, DEFAULT_INTERNAL_SERVER_ERROR_MESSAGE)
  | ApiBadRequest msg => (400%Z, msg)
  | ApiTooManyRequests => (429%Z, "Rate limit exceeded"%string)
  | ApiUnauthorized => (401%Z, "Unauthorized"%string)
  | ApiNoContent msg => (204%Z, msg)
  end.
Definition error_status (e : AuthServerError) : Z := (api_error_to_reply (api_error_of e)).1.
