(* ===== verification/RateLimiter.v ===== *)
(** * The auth server's rate limiters (auth/auth-server/src/server/rate_limiter/)

    The Redis server is behind the interface [Redis]: a store with the commands
    the limiters send and the laws its documentation gives.  [roundtrip] adds
    the transport: a command may be lost, or executed with its reply lost.
    The Lua script of the increment runs on the store as one command.  The
    clock and chrono's rounding and formatting are parameters.

    The specification is a token bucket: the theorems bound the bundles granted
    by the limit plus the settlements, relate the operations to the abstract
    bucket, and give the behaviour on Redis failures. *)
From Stdlib Require Import ZArith Lia.
From stdpp Require Import gmap strings list.
From S2P Require Import Prelude F64 AuthError.
Local Open Scope Z_scope.

(** ** Redis *)

(** What the limiters use of Redis, keys and values being strings that the
    client decodes as [f64] (or [bool]).  [rincrbyfloat] is INCRBYFLOAT and
    returns the new value; [rexpiry] is the deadline of a key. *)
Class Redis := {
  rstore : Type;
  rempty : rstore;
  rget : rstore -> string -> option f64;
  rexpiry : rstore -> string -> option Z;
  rset : string -> f64 -> rstore -> rstore;
  rincrbyfloat : string -> f64 -> rstore -> f64 * rstore;
  rexpireat : string -> Z -> rstore -> rstore;
  rget_empty k : rget rempty k = None;
  rexpiry_empty k : rexpiry rempty k = None;
  (** SET stores the value and discards the deadline. *)
  rget_set s k v : rget (rset k v s) k = Some v;
  rget_set_ne s k k' v : k <> k' -> rget (rset k v s) k' = rget s k';
  rexpiry_set s k v : rexpiry (rset k v s) k = None;
  rexpiry_set_ne s k k' v : k <> k' -> rexpiry (rset k v s) k' = rexpiry s k';
  (** INCRBYFLOAT creates the key at zero, is exact on small integers, returns
      what it stores and keeps the deadline. *)
  rincr_stored s k d : rget (rincrbyfloat k d s).2 k = Some (rincrbyfloat k d s).1;
  rincr_exact s k a b : small_int a -> small_int (a + b) -> -1 <= b <= 1 ->
    default f0 (rget s k) = of_Z a -> (rincrbyfloat k (of_Z b) s).1 = of_Z (a + b);
  rincr_ne s k k' d : k <> k' -> rget (rincrbyfloat k d s).2 k' = rget s k';
  rincr_expiry s k k' d : rexpiry (rincrbyfloat k d s).2 k' = rexpiry s k';
  (** EXPIREAT with a deadline to come changes the deadline only. *)
  rget_expireat s k t k' : rget (rexpireat k t s) k' = rget s k';
  rexpiry_expireat s k t : is_Some (rget s k) -> rexpiry (rexpireat k t s) k = Some t;
  rexpiry_expireat_ne s k t k' : k <> k' -> rexpiry (rexpireat k t s) k' = rexpiry s k';
}.

(** The error of a failed request to Redis. *)
Definition RedisError : AuthServerError := RedisConnection "".

(** The fate of one request to the server. *)
Inductive transport := Delivered | RequestLost | ReplyLost.

(** Lua values: the script compares the reply of a command, which is a string,
    with a number. *)
Inductive lua_value := LNum (f : f64) | LStr (f : f64).
Definition lua_eq (a b : lua_value) : bool :=
  match a, b with
  | LNum x, LNum y | LStr x, LStr y => feqb x y
  | _, _ => false
  end.
Definition tonumber (a : lua_value) : f64 := match a with LNum x | LStr x => x end.

Section Limiter.
Context `{R : Redis}.

(** A request that reads and changes the store. *)
Definition roundtrip {A} (t : transport) (cmd : rstore -> A * rstore) (s : rstore)
    : res AuthServerError A * rstore :=
  match t with
  | Delivered => let '(a, s') := cmd s in (Ok a, s')
  | RequestLost => (Err RedisError, s)
  | ReplyLost => (Err RedisError, (cmd s).2)
  end.

(** [INCR_LIMIT_LUA] *)
Definition INCR_LIMIT_LUA (key : string) (limit : f64) (ttl : Z) (delta : f64) (s : rstore)
    : lua_value * rstore :=
  let '(v, s) := rincrbyfloat key delta s in
  let newLimit := LStr v in
  let s := if lua_eq newLimit (LNum delta) then rexpireat key ttl s else s in
  if fgtb (tonumber newLimit) limit then
    let '(_, s) := rincrbyfloat key (fneg delta) s in (LNum (fneg f1), s)
  else (newLimit, s).

(** Times are in nanoseconds. *)
Record RedisRateLimiter := mk_limiter {
  key_prefix : string;
  max_tokens : f64;
  refill_interval : Z;
}.

(** chrono: [DateTime::duration_round] and the formatting of the window. *)
Context (duration_round : Z -> Z -> Z) (format_window : Z -> string).

Definition round_to_nearest_refill (now interval : Z) : Z := duration_round now interval.

Definition build_key (l : RedisRateLimiter) (now : Z) (sub_key : string) : string :=
  let nearest_refill_str := format_window (round_to_nearest_refill now (refill_interval l)) in
  (key_prefix l +:+ (sub_key +:+ ("#" +:+ nearest_refill_str)))%string.

Definition get_ttl_seconds (l : RedisRateLimiter) (now : Z) : Z :=
  (now + refill_interval l * 2) / 1000000000.

Definition rate_limit_exceeded (l : RedisRateLimiter) (t : transport) (now : Z)
    (user_key : string) (max : option f64) (s : rstore) : res AuthServerError bool * rstore :=
  let key := build_key l now user_key in
  let '(r, s) := roundtrip t (fun s => (rget s key, s)) s in
  (consumed ← r; Ok (fgeb (default f0 consumed) (default (max_tokens l) max)), s).

Definition get_consumed (l : RedisRateLimiter) (t : transport) (now : Z) (user_key : string)
    (s : rstore) : res AuthServerError f64 * rstore :=
  let key := build_key l now user_key in
  let '(r, s) := roundtrip t (fun s => (rget s key, s)) s in
  (consumed ← r; Ok (default f0 consumed), s).

Definition increment_consumed (l : RedisRateLimiter) (t : transport) (now now_ttl : Z)
    (user_key : string) (amount : f64) (max : option f64) (s : rstore)
    : res AuthServerError f64 * rstore :=
  let key := build_key l now user_key in
  let limit := default (max_tokens l) max in
  let ttl := get_ttl_seconds l now_ttl in
  let '(r, s) := roundtrip t (INCR_LIMIT_LUA key limit ttl amount) s in
  (consumed ← r;
   if feqb (tonumber consumed) (fneg f1) then Err RateLimit else Ok (tonumber consumed), s).

Definition increment_consumed_no_check (l : RedisRateLimiter) (t : transport) (now now_ttl : Z)
    (user_key : string) (amount : f64) (s : rstore) : res AuthServerError f64 * rstore :=
  let key := build_key l now user_key in
  let ttl := get_ttl_seconds l now_ttl in
  roundtrip t (fun s => let '(v, s) := rincrbyfloat key amount s in (v, rexpireat key ttl s)) s.

(** [decrement_consumed] is two requests, with two readings of the clock: the
    read, then the write of the difference. *)
Definition decrement_write (l : RedisRateLimiter) (t' : transport) (now' : Z)
    (user_key : string) (amount consumed : f64) (s : rstore) : res AuthServerError f64 * rstore :=
  let new_consumed := fmax (fsub consumed amount) f0 in
  let key := build_key l now' user_key in
  let '(r', s) := roundtrip t' (fun s => (tt, rset key new_consumed s)) s in
  (_ ← r'; Ok new_consumed, s).

Definition decrement_consumed (l : RedisRateLimiter) (t t' : transport) (now now' : Z)
    (user_key : string) (amount : f64) (s : rstore) : res AuthServerError f64 * rstore :=
  let '(r, s) := get_consumed l t now user_key s in
  match r with
  | Ok consumed => decrement_write l t' now' user_key amount consumed s
  | Err e => (Err e, s)
  | Panic => (Panic, s)
  end.

(** ** AuthServerRateLimiter (rate_limiter/mod.rs) *)
Record AuthServerRateLimiter := mk_rate_limiter {
  quote_rate_limiter : RedisRateLimiter;
  bundle_rate_limiter : RedisRateLimiter;
  gas_sponsorship_rate_limiter : RedisRateLimiter;
}.

Definition BUNDLE_RATE_LIMITER_KEY_PREFIX : string := "bundle_rate_limit".
Definition QUOTE_RATE_LIMITER_KEY_PREFIX : string := "quote_rate_limit".
Definition GAS_SPONSORSHIP_RATE_LIMITER_KEY_PREFIX : string := "gas_sponsorship_rate_limit".
Definition ONE_MINUTE : Z := 60 * 1000000000.
Definition ONE_DAY : Z := 24 * 60 * 60 * 1000000000.

Definition new_quote_rate_limiter (max_tokens : Z) : RedisRateLimiter :=
  mk_limiter QUOTE_RATE_LIMITER_KEY_PREFIX (of_Z max_tokens) ONE_MINUTE.
Definition new_bundle_rate_limiter (max_tokens : Z) : RedisRateLimiter :=
  mk_limiter BUNDLE_RATE_LIMITER_KEY_PREFIX (of_Z max_tokens) ONE_MINUTE.
Definition new_gas_sponsorship_rate_limiter (max_value : f64) : RedisRateLimiter :=
  mk_limiter GAS_SPONSORSHIP_RATE_LIMITER_KEY_PREFIX max_value ONE_DAY.
Definition new_rate_limiter (quote_rate_limit bundle_rate_limit : Z)
    (max_gas_sponsorship_value : f64) : AuthServerRateLimiter :=
  mk_rate_limiter (new_quote_rate_limiter quote_rate_limit)
    (new_bundle_rate_limiter bundle_rate_limit)
    (new_gas_sponsorship_rate_limiter max_gas_sponsorship_value).

Definition consume_token (l : RedisRateLimiter) (t : transport) (now now_ttl : Z)
    (user_id : string) (max : option Z) (s : rstore) : bool * rstore :=
  let '(r, s) := increment_consumed l t now now_ttl user_id f1 (of_Z <$> max) s in
  (match r with Ok _ => true | Err RateLimit => false | _ => false end, s).

Definition consume_quote_token (a : AuthServerRateLimiter) :=
  consume_token (quote_rate_limiter a).
Definition consume_bundle_token (a : AuthServerRateLimiter) :=
  consume_token (bundle_rate_limiter a).

Definition check_bundle_rate_limit (a : AuthServerRateLimiter) (t : transport) (now : Z)
    (user_id : string) (max : option Z) (s : rstore) : bool * rstore :=
  let '(r, s) := rate_limit_exceeded (bundle_rate_limiter a) t now user_id (of_Z <$> max) s in
  (match r with Ok b => b | _ => false end, s).

Definition add_bundle_token (a : AuthServerRateLimiter) (t t' : transport) (now now' : Z)
    (user_id : string) (s : rstore) : res AuthServerError unit * rstore :=
  let '(r, s) := decrement_consumed (bundle_rate_limiter a) t t' now now' user_id f1 s in
  (_ ← r; Ok tt, s).

Definition check_gas_sponsorship (a : AuthServerRateLimiter) (t : transport) (now : Z)
    (user_id : string) (s : rstore) : res AuthServerError bool * rstore :=
  let '(r, s) := rate_limit_exceeded (gas_sponsorship_rate_limiter a) t now user_id None s in
  (exceeded ← r; Ok (negb exceeded), s).

Definition record_gas_sponsorship (a : AuthServerRateLimiter) (t : transport) (now now_ttl : Z)
    (user_id : string) (value : f64) (s : rstore) : res AuthServerError unit * rstore :=
  let '(r, s) :=
    increment_consumed_no_check (gas_sponsorship_rate_limiter a) t now now_ttl user_id value s in
  (_ ← r; Ok tt, s).

(** ** ExecutionCostRateLimiter: flags written by the bot server, read as
    booleans through [get_flag]. *)
Definition execution_cost_key (date : string) (ticker : string) : string :=
  ("execution_cost_exceeded:" +:+ (ticker +:+ ("#" +:+ date)))%string.
Definition execution_cost_exceeded (get_flag : string -> res AuthServerError (option bool))
    (date ticker : string) : res AuthServerError bool :=
  result ← get_flag (execution_cost_key date ticker); Ok (default false result).
Definition check_execution_cost_exceeded
    (get_flag : string -> res AuthServerError (option bool)) (date ticker : string) : bool :=
  match execution_cost_exceeded get_flag date ticker with Ok exceeded => exceeded | _ => true end.

(** ** The server's methods *)
Inductive RateLimitMethod := Quote | Assemble.

Section Server.
(** [Server::get_rate_limit] *)
Context (get_rate_limit : Uuid -> RateLimitMethod -> res AuthServerError (option Z)).

Definition consume_rate_limit_token (l : RedisRateLimiter) (m : RateLimitMethod)
    (t : transport) (now now_ttl : Z) (key_id : Uuid) (key_description : string) (s : rstore)
    : res AuthServerError unit * rstore :=
  match get_rate_limit key_id m with
  | Ok max =>
      let '(b, s) := consume_token l t now now_ttl key_description max s in
      (if negb b then Err RateLimit else Ok tt, s)
  | Err e => (Err e, s)
  | Panic => (Panic, s)
  end.
Definition consume_quote_rate_limit_token (a : AuthServerRateLimiter) :=
  consume_rate_limit_token (quote_rate_limiter a) Quote.
Definition consume_bundle_rate_limit_token (a : AuthServerRateLimiter) :=
  consume_rate_limit_token (bundle_rate_limiter a) Assemble.

Definition peek_bundle_rate_limit (a : AuthServerRateLimiter) (t : transport) (now : Z)
    (key_id : Uuid) (key_description : string) (s : rstore)
    : res AuthServerError unit * rstore :=
  match get_rate_limit key_id Assemble with
  | Ok max =>
      let '(b, s) := check_bundle_rate_limit a t now key_description max s in
      (if b : bool then Err RateLimit else Ok tt, s)
  | Err e => (Err e, s)
  | Panic => (Panic, s)
  end.
Definition check_gas_sponsorship_rate_limit (a : AuthServerRateLimiter) (t : transport)
    (now : Z) (key_description : string) (s : rstore) : res AuthServerError bool * rstore :=
  let '(r, s) := check_gas_sponsorship a t now key_description s in
  (b ← r; Ok (if negb b then false else true), s).
End Server.
End Limiter.

(** ** The token bucket *)

(** The requests of a bundle limiter, with what the environment decides: the
    clock readings and the transport.  A settlement ([add_bundle_token]) is two
    requests of a task of its own, [SettleGet] and [SettleSet] under the id of
    the task, so that anything may come between them. *)
Inductive op :=
  | Consume (t : transport) (now_ttl : Z) (max : option Z)
  | SettleGet (id : nat) (t : transport)
  | SettleSet (id : nat) (t' : transport)
  | Peek (t : transport) (max : option Z).
Record event := mk_event { ev_user : string; ev_now : Z; ev_op : op }.

Definition is_delivered (t : transport) : bool := match t with Delivered => true | _ => false end.
Definition executed (t : transport) : bool := match t with RequestLost => false | _ => true end.

Section Bucket.
Context (duration_round : Z -> Z -> Z) (format_window : Z -> string).
(** The limits the server was started with. *)
Context (quote_limit bundle_limit : Z) (gas_budget : f64).

Abbreviation limiter := (new_rate_limiter quote_limit bundle_limit gas_budget).
Definition bundle_key (now : Z) (user : string) : string :=
  build_key duration_round format_window (bundle_rate_limiter limiter) now user.

(** One request of the code: whether it was granted (or, for a peek,
    exceeded), and the new store.  The second component of the state holds what
    the settlement tasks between their two requests have read: a task that was
    answered an error has ended, and one that is not running sends nothing. *)
Definition apply_event `{Redis} (e : event) (st : rstore * gmap nat f64)
    : bool * (rstore * gmap nat f64) :=
  let 'mk_event user now o := e in
  let '(s, P) := st in
  match o with
  | Consume t now_ttl max =>
      let '(b, s) :=
        consume_bundle_token duration_round format_window limiter t now now_ttl user max s in
      (b, (s, P))
  | SettleGet id t =>
      let '(r, s) :=
        get_consumed duration_round format_window (bundle_rate_limiter limiter) t now user s in
      match r with
      | Ok consumed => (true, (s, <[id := consumed]> P))
      | _ => (false, (s, delete id P))
      end
  | SettleSet id t' =>
      match P !! id with
      | Some consumed =>
          let '(r, s) := decrement_write duration_round format_window (bundle_rate_limiter limiter)
                           t' now user f1 consumed s in
          (match r with Ok _ => true | _ => false end, (s, delete id P))
      | None => (false, (s, P))
      end
  | Peek t max =>
      let '(b, s) :=
        check_bundle_rate_limit duration_round format_window limiter t now user max s in
      (b, (s, P))
  end.

(** The same requests on abstract buckets, which count the tokens in use; a
    settlement takes the level of its bucket and later sets it to one less. *)
Definition spec_event (e : event) (st : gmap string Z * gmap nat Z)
    : bool * (gmap string Z * gmap nat Z) :=
  let 'mk_event user now o := e in
  let '(M, P) := st in
  let k := bundle_key now user in
  let n := default 0 (M !! k) in
  match o with
  | Consume t _ max =>
      if executed t && (n + 1 <=? default bundle_limit max)
      then (is_delivered t, (<[k := n + 1]> M, P)) else (false, (M, P))
  | SettleGet id t =>
      if is_delivered t then (true, (M, <[id := n]> P)) else (false, (M, delete id P))
  | SettleSet id t' =>
      match P !! id with
      | Some c =>
          (is_delivered t',
           (if executed t' then <[k := Z.max 0 (c - 1)]> M else M, delete id P))
      | None => (false, (M, P))
      end
  | Peek t max => (is_delivered t && (default bundle_limit max <=? n), (M, P))
  end.

Definition run_events {S} (step : event -> S -> bool * S) : list event -> S -> list bool * S :=
  fix go es s :=
    match es with
    | [] => ([], s)
    | e :: es => let '(b, s) := step e s in let '(bs, s) := go es s in (b :: bs, s)
    end.

(** The limit of every request is between zero and [L]. *)
Definition limit_ok (L : Z) (e : event) : Prop :=
  match ev_op e with
  | Consume _ _ max | Peek _ max => 0 <= default bundle_limit max <= L
  | _ => True
  end.

Section Refinement.
Context `{R : Redis} (L : Z) (HL : 0 <= L < 2 ^ 53 - 1).

Definition sim (M : gmap string Z) (s : rstore) : Prop :=
  forall k, default f0 (rget s k) = of_Z (default 0 (M !! k)) /\ 0 <= default 0 (M !! k) <= L.

Lemma sim_update M s s' k n :
  sim M s -> rget s' k = Some (of_Z n) -> 0 <= n <= L ->
  (forall k', k <> k' -> rget s' k' = rget s k') -> sim (<[k := n]> M) s'.
Proof.
  intros HS Hk Hn Hne k'. destruct (decide (k = k')) as [<-|Hk'].
  - by rewrite lookup_insert_eq, Hk.
  - rewrite lookup_insert_ne, Hne by done. apply HS.
Qed.

Lemma sim_same M s s' : sim M s ->
  (forall k, default f0 (rget s' k) = default f0 (rget s k)) -> sim M s'.
Proof. intros HS He k. rewrite He. apply HS. Qed.

Lemma not_minus_one n : small_int n -> feqb (of_Z n) (fneg f1) = false.
Proof. intros [? ?]. destruct n; [done|by rewrite of_Z_pos|lia]. Qed.

Lemma small_L n : 0 <= n <= L + 1 -> small_int n.
Proof. unfold small_int. lia. Qed.

(** The script on a bucket holding [n] tokens. *)
Lemma script_spec M s k n limit ttl :
  sim M s -> n = default 0 (M !! k) -> 0 <= limit <= L ->
  let r := INCR_LIMIT_LUA k (of_Z limit) ttl f1 s in
  if n + 1 <=? limit
  then r.1 = LStr (of_Z (n + 1)) /\ sim (<[k := n + 1]> M) r.2
  else r.1 = LNum (fneg f1) /\ sim M r.2.
Proof.
  intros HS -> Hl. destruct (HS k) as [Hv Hn]. set (n := default 0 (M !! k)) in *.
  unfold INCR_LIMIT_LUA. cbn [lua_eq tonumber]. cbn zeta.
  pose proof (rincr_stored s k f1) as Hst.
  pose proof (rincr_exact s k n 1 ltac:(apply small_L; lia) ltac:(apply small_L; lia)
    ltac:(lia) Hv) as Hex. change (of_Z 1) with f1 in Hex.
  pose proof (fun k' => rincr_ne s k k' f1) as Hne.
  destruct (rincrbyfloat k f1 s) as [v s1]. cbn [fst snd] in *. subst v.
  rewrite of_Z_gtb by (apply small_L; lia).
  destruct (Z.leb_spec (n + 1) limit), (Z.ltb_spec limit (n + 1)); try lia.
  - split; [done|]. apply (sim_update M s); try done. lia.
  - pose proof (rincr_stored s1 k (fneg f1)) as Hst2.
    pose proof (rincr_exact s1 k (n + 1) (-1) ltac:(apply small_L; lia)
      ltac:(apply small_L; lia) ltac:(lia) ltac:(by rewrite Hst)) as Hex2.
    change (of_Z (-1)) with (fneg f1) in Hex2.
    pose proof (fun k' => rincr_ne s1 k k' (fneg f1)) as Hne2.
    destruct (rincrbyfloat k (fneg f1) s1) as [v s2]. cbn [fst snd] in *. subst v. split; [done|].
    apply (sim_same M s _ HS). intros k'. destruct (decide (k = k')) as [<-|].
    + rewrite Hst2, Hv. cbn. f_equal. lia.
    + by rewrite Hne2, Hne.
Qed.

Lemma limit_of_Z (max : option Z) :
  default (of_Z bundle_limit) (of_Z <$> max) = of_Z (default bundle_limit max).
Proof. by destruct max. Qed.

Lemma decrement_exact n :
  0 <= n <= L -> fmax (fsub (of_Z n) f1) f0 = of_Z (Z.max 0 (n - 1)).
Proof.
  intros Hn. destruct (decide (n = 0)) as [->|]; [reflexivity|].
  change f1 with (of_Z 1). rewrite of_Z_sub by (unfold small_int; lia).
  unfold fmax. assert (Hs : small_int (n - 1)) by (unfold small_int; lia).
  pose proof (of_Z_non_nan _ Hs) as Hnan. unfold non_nan in Hnan. rewrite Hnan.
  change f0 with (of_Z 0). rewrite of_Z_ltb by (unfold small_int; lia). cbn [is_nan of_Z].
  destruct (Z.ltb_spec (n - 1) 0); [lia|]. rewrite Z.max_r by lia. done.
Qed.

(** The settlements between their two requests hold the same levels. *)
Definition pending_sim (P : gmap nat Z) (Q : gmap nat f64) : Prop :=
  Q = of_Z <$> P /\ map_Forall (fun _ c => 0 <= c <= L) P.
Definition sim_state (a : gmap string Z * gmap nat Z) (c : rstore * gmap nat f64) : Prop :=
  sim a.1 c.1 /\ pending_sim a.2 c.2.

(** A settlement without another request in between is [add_bundle_token]. *)
Lemma settlement_split id user now now' t t' s P :
  let '(b, c) := apply_event (mk_event user now (SettleGet id t)) (s, P) in
  let '(b', c') := apply_event (mk_event user now' (SettleSet id t')) c in
  let '(r, s') := add_bundle_token duration_round format_window limiter t t' now now' user s in
  c'.1 = s' /\ (b' = true <-> r = Ok tt) /\ c'.2 = delete id P.
Proof.
  unfold apply_event, add_bundle_token, decrement_consumed.
  destruct (get_consumed _ _ _ _ _ _ _) as [[c|e|] s1]; cbn;
    rewrite ?lookup_insert_eq, ?lookup_delete_eq; [|done..].
  destruct (decrement_write _ _ _ _ _ _ _ _ _) as [[v|e|] s2]; cbn;
    by rewrite delete_insert_eq.
Qed.

(** One request of the code simulates the request on the buckets. *)
Lemma consume_refines user now t now_ttl max M s :
  0 <= default bundle_limit max <= L -> sim M s ->
  let c := consume_bundle_token duration_round format_window limiter t now now_ttl user max s in
  let n := default 0 (M !! bundle_key now user) in
  let granted := executed t && (n + 1 <=? default bundle_limit max) in
  c.1 = (is_delivered t && granted) /\ sim (if granted then <[bundle_key now user := n + 1]> M else M) c.2.
Proof.
  intros Hlim HS. cbn zeta. unfold consume_bundle_token, consume_token, increment_consumed.
  cbn zeta. fold (bundle_key now user).
  cbn [bundle_rate_limiter new_rate_limiter max_tokens new_bundle_rate_limiter].
  rewrite limit_of_Z.
  pose proof (script_spec M s (bundle_key now user) _ (default bundle_limit max)
    (get_ttl_seconds (new_bundle_rate_limiter bundle_limit) now_ttl) HS eq_refl Hlim) as Hsc.
  cbn zeta in Hsc. destruct (INCR_LIMIT_LUA _ _ _ _ s) as [v s1] eqn:Escr.
  destruct (HS (bundle_key now user)) as [_ Hn].
  set (n := default 0 (M !! bundle_key now user)) in *.
  destruct t; cbn [roundtrip executed is_delivered andb]; rewrite ?Escr; [..|by cbn|];
    destruct (n + 1 <=? _); destruct Hsc as [Hv Hs]; cbn in Hv, Hs; subst v; cbn; try done.
  by rewrite not_minus_one by (apply small_L; lia).
Qed.

Lemma write_refines user now t' c M s :
  0 <= c <= L -> sim M s ->
  let w := decrement_write duration_round format_window (bundle_rate_limiter limiter)
             t' now user f1 (of_Z c) s in
  (match w.1 with Ok _ => true | _ => false end) = is_delivered t' /\
  sim (if executed t' then <[bundle_key now user := Z.max 0 (c - 1)]> M else M) w.2.
Proof.
  intros Hc HS. cbn zeta. unfold decrement_write. cbn zeta. fold (bundle_key now user).
  rewrite decrement_exact by done.
  assert (Hset : sim (<[bundle_key now user := Z.max 0 (c - 1)]> M)
                   (rset (bundle_key now user) (of_Z (Z.max 0 (c - 1))) s)).
  { apply (sim_update M s); [done|apply rget_set|lia|]. intros. by apply rget_set_ne. }
  by destruct t'.
Qed.

Lemma event_refines e a c :
  limit_ok L e -> sim_state a c ->
  (apply_event e c).1 = (spec_event e a).1 /\ sim_state (spec_event e a).2 (apply_event e c).2.
Proof.
  destruct e as [user now o], a as [M P], c as [s Q]. intros Hlim [HS [HQ HP]].
  cbn [fst snd] in *. destruct o as [t now_ttl max|id t|id t'|t max];
    cbn [limit_ok ev_op] in Hlim; unfold apply_event, spec_event; fold (bundle_key now user);
    destruct (HS (bundle_key now user)) as [Hv Hn].
  - destruct (consume_refines user now t now_ttl max M s Hlim HS) as [H1 H2].
    destruct (consume_bundle_token _ _ _ _ _ _ _ _ _) as [b s']. cbn [fst snd] in *. subst b.
    destruct (executed t && _); by rewrite ?andb_true_r, ?andb_false_r.
  - unfold get_consumed. cbn zeta. fold (bundle_key now user). subst Q.
    destruct t; cbn [roundtrip mbind res_bind is_delivered]; (split; [done|]); (split; [done|]);
      unfold pending_sim; cbn [fst snd].
    + rewrite Hv, fmap_insert. split; [done|]. by apply map_Forall_insert_2.
    + rewrite fmap_delete. split; [done|]. by apply map_Forall_delete.
    + rewrite fmap_delete. split; [done|]. by apply map_Forall_delete.
  - subst Q. rewrite lookup_fmap. destruct (P !! id) as [c|] eqn:E; cbn; [|done].
    destruct (write_refines user now t' c M s (HP id c E) HS) as [H1 H2].
    destruct (decrement_write _ _ _ _ _ _ _ _ _) as [r s']. cbn in *.
    split; [done|]. split; [done|]. unfold pending_sim. cbn [fst snd].
    rewrite fmap_delete. split; [done|]. by apply map_Forall_delete.
  - unfold check_bundle_rate_limit, rate_limit_exceeded. cbn zeta. fold (bundle_key now user).
    cbn [bundle_rate_limiter new_rate_limiter max_tokens new_bundle_rate_limiter].
    rewrite limit_of_Z. destruct t; cbn; try done. split; [|done]. rewrite Hv.
    apply of_Z_geb; apply small_L; lia.
Qed.

Lemma run_refines es a c :
  Forall (limit_ok L) es -> sim_state a c ->
  (run_events apply_event es c).1 = (run_events spec_event es a).1 /\
  sim_state (run_events spec_event es a).2 (run_events apply_event es c).2.
Proof.
  intros Hes. revert a c. induction Hes as [|e es He Hes IH]; intros a c HS; [done|].
  destruct (event_refines e a c He HS) as [Hr HS']. cbn.
  destruct (apply_event e c) as [b c1], (spec_event e a) as [b' a1]. cbn in *. subst b'.
  destruct (IH a1 c1 HS') as [Hr2 HS2].
  destruct (run_events apply_event es c1), (run_events spec_event es a1). cbn in *. by subst.
Qed.

Lemma sim_init : sim ∅ rempty.
Proof. intros k. rewrite rget_empty, lookup_empty. split; [done|cbn; lia]. Qed.
Lemma sim_state_init : sim_state (∅, ∅) (rempty, ∅).
Proof. split; [apply sim_init|]. split; cbn; [by rewrite fmap_empty|apply map_Forall_empty]. Qed.
End Refinement.

(** *** Counting grants and settlements *)
Definition on_bucket (k : string) (e : event) : bool :=
  bool_decide (bundle_key (ev_now e) (ev_user e) = k).
Definition grants (k : string) (e : event) (b : bool) : Z :=
  match ev_op e with Consume _ _ _ => if on_bucket k e && b then 1 else 0 | _ => 0 end.
(** The bundles granted from the bucket [k]. *)
Fixpoint granted (k : string) (es : list event) (bs : list bool) : Z :=
  match es, bs with
  | e :: es, b :: bs => grants k e b + granted k es bs
  | _, _ => 0
  end.

(** The settlements between their two requests: whether they read the bucket
    [k], and how many bundles were granted from it since. *)
Abbreviation overlaps := (gmap nat (bool * Z)).
Definition track (k : string) (e : event) (b : bool) (O : overlaps) : overlaps :=
  match ev_op e with
  | SettleGet id _ => if b then <[id := (on_bucket k e, 0)]> O else delete id O
  | SettleSet id _ => delete id O
  | _ => (fun o : bool * Z => (o.1, o.2 + grants k e b)) <$> O
  end.
(** What the write of a settlement gives back to the bucket [k]: one, and what
    was granted since its read; at most the limit if it read another bucket. *)
Definition credit (L : Z) (k : string) (e : event) (O : overlaps) : Z :=
  match ev_op e with
  | SettleSet id t' =>
      match (O !! id : option (bool * Z)) with
      | Some (here, over) => if on_bucket k e && executed t' then if here then 1 + over else L else 0
      | None => 0
      end
  | _ => 0
  end.
Fixpoint credits (L : Z) (k : string) (O : overlaps) (es : list event) (bs : list bool) : Z :=
  match es, bs with
  | e :: es, b :: bs => credit L k e O + credits L k (track k e b O) es bs
  | _, _ => 0
  end.

(** A bucket lags the grants [C] by no more than the credits [S], and so does
    every level that a settlement holds, up to what was granted since. *)
Definition accounted (L : Z) (k : string) (C S : Z) (a : gmap string Z * gmap nat Z) (O : overlaps)
    : Prop :=
  (forall k', 0 <= default 0 (a.1 !! k') <= L) /\ C <= default 0 (a.1 !! k) + S /\
  dom O = dom a.2 /\
  forall id c here over, a.2 !! id = Some c -> O !! id = Some (here, over) ->
    0 <= c <= L /\ 0 <= over /\ (here = true -> C <= c + over + S).

Lemma grants_nonneg k e b : 0 <= grants k e b.
Proof. unfold grants. destruct (ev_op e); [destruct (_ && _)|..]; lia. Qed.

Lemma levels_insert L (M : gmap string Z) k n :
  (forall k', 0 <= default 0 (M !! k') <= L) -> 0 <= n <= L ->
  forall k', 0 <= default 0 (<[k := n]> M !! k') <= L.
Proof.
  intros HM Hn k'. destruct (decide (k = k')) as [<-|];
    [by rewrite lookup_insert_eq|by rewrite lookup_insert_ne].
Qed.

Lemma lookup_dom_Some {A B} (P : gmap nat A) (O : gmap nat B) id x :
  dom O = dom P -> P !! id = Some x -> exists o, O !! id = Some o.
Proof. intros Hd H. apply elem_of_dom. rewrite Hd. by apply elem_of_dom_2 in H. Qed.

Lemma accounted_consume L k C S M P O user now t ttl max :
  limit_ok L (mk_event user now (Consume t ttl max)) -> accounted L k C S (M, P) O ->
  let e := mk_event user now (Consume t ttl max) in
  let '(b, a') := spec_event e (M, P) in
  accounted L k (C + grants k e b) S a' (track k e b O).
Proof.
  intros Hlim (HM & HC & HD & HO). cbn in Hlim, HM, HC, HD, HO. cbn zeta. cbn [spec_event].
  set (n := default 0 (M !! bundle_key now user)).
  set (granted := executed t && (n + 1 <=? default bundle_limit max)).
  assert (Hp : forall g (O' : overlaps) id c here over, 0 <= g -> O' = (fun o : bool * Z => (o.1, o.2 + g)) <$> O ->
    P !! id = Some c -> O' !! id = Some (here, over) ->
    0 <= c <= L /\ 0 <= over /\ (here = true -> C + g <= c + over + S)).
  { intros g O' id c here over Hg -> HP HO'. rewrite lookup_fmap in HO'.
    destruct (O !! id) as [[h o]|] eqn:E; [|done]. injection HO' as <- <-.
    destruct (HO id c h o HP E) as (? & ? & H3). repeat split; try lia. intros Hh.
    specialize (H3 Hh). lia. }
  destruct granted eqn:G; unfold granted in G.
  - apply andb_true_iff in G as [_ G%Z.leb_le]. pose proof (HM (bundle_key now user)) as Hn.
    fold n in Hn. split_and!; cbn [fst snd track ev_op].
    + apply levels_insert; [done|lia].
    + unfold grants, on_bucket. cbn. case_bool_decide as Hk.
      * subst k. rewrite lookup_insert_eq. fold n in HC. cbn. destruct (is_delivered t); lia.
      * rewrite lookup_insert_ne by done. cbn. lia.
    + by rewrite dom_fmap_L.
    + intros id c here over HP HO'. eapply Hp; eauto. apply grants_nonneg.
  - split_and!; cbn [fst snd track ev_op]; try done.
    + unfold grants. cbn. rewrite andb_false_r. lia.
    + by rewrite dom_fmap_L.
    + intros id c here over HP HO'. eapply Hp; eauto. apply grants_nonneg.
Qed.

Lemma accounted_get L k C S M P O user now id t :
  accounted L k C S (M, P) O ->
  let e := mk_event user now (SettleGet id t) in
  let '(b, a') := spec_event e (M, P) in
  accounted L k C S a' (track k e b O).
Proof.
  intros (HM & HC & HD & HO). cbn in HM, HC, HD, HO. cbn zeta. cbn [spec_event].
  unfold track. cbn [ev_op].
  destruct (is_delivered t); split_and!; cbn [fst snd]; try done.
  - by rewrite !dom_insert_L, HD.
  - intros id' c here over HP HO'. destruct (decide (id = id')) as [<-|].
    + rewrite lookup_insert_eq in HP. rewrite lookup_insert_eq in HO'. injection HP as <-. injection HO' as <- <-.
      split_and!; [apply HM|apply HM|lia|]. unfold on_bucket. cbn. intros ->%bool_decide_eq_true. lia.
    + rewrite lookup_insert_ne in HP by done. rewrite lookup_insert_ne in HO' by done. eauto.
  - by rewrite !dom_delete_L, HD.
  - intros id' c here over [_ HP]%lookup_delete_Some [_ HO']%lookup_delete_Some. eauto.
Qed.

Lemma accounted_set L k C S M P O user now id t' :
  0 <= L -> accounted L k C S (M, P) O ->
  let e := mk_event user now (SettleSet id t') in
  let '(b, a') := spec_event e (M, P) in
  accounted L k C (S + credit L k e O) a' (track k e b O) /\ 0 <= credit L k e O.
Proof.
  intros HL (HM & HC & HD & HO). cbn in HM, HC, HD, HO. cbn zeta. cbn [spec_event].
  unfold track, credit, on_bucket. cbn [ev_op ev_now ev_user].
  destruct (P !! id) as [c|] eqn:EP.
  - destruct (lookup_dom_Some P O id c HD EP) as [[h o] EO]. rewrite EO.
    destruct (HO id c h o EP EO) as (Hc & Ho & Hh).
    assert (Hcr : 0 <= (if bool_decide (bundle_key now user = k) && executed t'
                        then if h then 1 + o else L else 0)) by (destruct (_ && _), h; lia).
    split; [|done]. split_and!; cbn [fst snd].
    + destruct (executed t'); [apply levels_insert; [done|lia]|done].
    + destruct (executed t'); [|rewrite andb_false_r; lia]. case_bool_decide as Hk; cbn.
      * subst k. rewrite lookup_insert_eq. cbn.
        destruct h; [specialize (Hh eq_refl); lia|]. specialize (HM (bundle_key now user)). lia.
      * rewrite lookup_insert_ne by done. lia.
    + by rewrite !dom_delete_L, HD.
    + intros id' c' here over [_ HP]%lookup_delete_Some [_ HO']%lookup_delete_Some.
      destruct (HO id' c' here over HP HO') as (? & ? & H3). split_and!; try lia.
      intros Hh'. specialize (H3 Hh'). lia.
  - assert (EO : O !! id = None).
    { apply not_elem_of_dom. rewrite HD. by apply not_elem_of_dom. }
    rewrite EO, delete_id by done. split; [|lia]. rewrite Z.add_0_r. by split_and!.
Qed.

Lemma accounted_step L k C S a O e :
  0 <= L -> limit_ok L e -> accounted L k C S a O ->
  let '(b, a') := spec_event e a in
  accounted L k (C + grants k e b) (S + credit L k e O) a' (track k e b O).
Proof.
  destruct a as [M P], e as [user now o]. intros HL Hlim HA.
  destruct o as [t ttl max|id t|id t'|t max].
  - pose proof (accounted_consume L k C S M P O user now t ttl max Hlim HA) as H. cbn zeta in H.
    destruct (spec_event _ _). unfold credit. cbn [ev_op]. by rewrite Z.add_0_r.
  - pose proof (accounted_get L k C S M P O user now id t HA) as H. cbn zeta in H.
    destruct (spec_event _ _). unfold credit, grants. cbn [ev_op]. by rewrite !Z.add_0_r.
  - pose proof (accounted_set L k C S M P O user now id t' HL HA) as H. cbn zeta in H.
    destruct (spec_event _ _). unfold grants. cbn [ev_op]. rewrite Z.add_0_r. apply H.
  - unfold credit, grants, track. cbn [ev_op spec_event]. unfold grants. cbn [ev_op].
    rewrite !Z.add_0_r. replace ((fun o : bool * Z => (o.1, o.2 + 0)) <$> O) with O; [done|].
    apply map_eq. intros id. rewrite lookup_fmap. destruct (O !! id) as [[h o]|]; [|done].
    cbn. by rewrite Z.add_0_r.
Qed.

Lemma spec_run_bound L k C S a O es :
  0 <= L -> Forall (limit_ok L) es -> accounted L k C S a O ->
  C + granted k es (run_events spec_event es a).1
  <= L + S + credits L k O es (run_events spec_event es a).1.
Proof.
  intros HL Hes. revert C S a O. induction Hes as [|e es He Hes IH]; intros C S a O HA.
  - destruct HA as (HM & HC & _). specialize (HM k). cbn. lia.
  - pose proof (accounted_step L k C S a O e HL He HA) as HA'. cbn.
    destruct (spec_event e a) as [b a']. specialize (IH _ _ _ _ HA').
    destruct (run_events spec_event es a') as [bs a2]. cbn in *. lia.
Qed.

Lemma accounted_init L k : 0 <= L -> accounted L k 0 0 (∅, ∅) ∅.
Proof.
  intros HL. split_and!; cbn; [intros k'; rewrite lookup_empty; cbn; lia|
    rewrite lookup_empty; cbn; lia|by rewrite !dom_empty_L|intros id c ? ?; by rewrite lookup_empty].
Qed.

(** *** Deadlines *)
Lemma lua_reply_never_equal key limit ttl delta (R : Redis) s k :
  rexpiry (INCR_LIMIT_LUA key limit ttl delta s).2 k = rexpiry s k.
Proof.
  unfold INCR_LIMIT_LUA. pose proof (rincr_expiry s key k delta) as H.
  destruct (rincrbyfloat key delta s) as [v s1]. cbn in *. destruct (fgtb v limit); [|done].
  pose proof (rincr_expiry s1 key k (fneg delta)) as H'.
  destruct (rincrbyfloat key (fneg delta) s1). cbn in *. congruence.
Qed.

Lemma event_expiry `{R : Redis} e c :
  (forall k, rexpiry c.1 k = None) -> forall k, rexpiry (apply_event e c).2.1 k = None.
Proof.
  destruct c as [s P]. intros H k.
  destruct e as [user now [t ttl max|id t|id t'|t max]]; unfold apply_event; cbn in H.
  - unfold consume_bundle_token, consume_token, increment_consumed. cbn zeta.
    destruct t; cbn [roundtrip]; try destruct (INCR_LIMIT_LUA _ _ _ _ s) as [v s1] eqn:E; cbn;
      rewrite ?(f_equal snd E); try apply H;
      change s1 with (v, s1).2; rewrite <- E, lua_reply_never_equal; apply H.
  - unfold get_consumed. cbn zeta. destruct t; cbn; apply H.
  - destruct (P !! id) as [c|]; [|apply H]. unfold decrement_write. cbn zeta.
    set (key := build_key _ _ _ _ _).
    assert (forall v, rexpiry (rset key v s) k = None).
    { intros v. destruct (decide (key = k)) as [->|]; [apply rexpiry_set|].
      rewrite rexpiry_set_ne by done. apply H. }
    destruct t'; cbn; auto.
  - unfold check_bundle_rate_limit, rate_limit_exceeded. cbn zeta. destruct t; cbn; apply H.
Qed.
End Bucket.

(** ** Theorems *)

(** C1. The bundle limiter implements a token bucket per user and window: for
    every interleaving of the requests it sends to Redis (consumptions, peeks,
    and the read and the write of each settlement, with anything in between),
    with any user, clock readings, limits up to [L < 2^53 - 1] and any fate of
    each request, its answers are those of abstract integer buckets whose
    settlements take the level and later set it to one less; each counter is the
    level of its bucket, between zero and [L], and a settlement whose two
    requests are adjacent is [add_bundle_token]. *)
Theorem bundle_limiter_refines_bucket `{R : Redis} round fmt q b g L es :
  0 <= L < 2 ^ 53 - 1 -> Forall (limit_ok b L) es ->
  let code := run_events (apply_event round fmt q b g) es (rempty, ∅) in
  let spec := run_events (spec_event round fmt q b g) es (∅, ∅) in
  code.1 = spec.1 /\
  (forall k, exists n, default f0 (rget code.2.1 k) = of_Z n /\
     default 0 (spec.2.1 !! k) = n /\ 0 <= n <= L) /\
  forall id user now now' t t',
    let '(_, c) := apply_event round fmt q b g (mk_event user now (SettleGet id t)) code.2 in
    let '(ok, c') := apply_event round fmt q b g (mk_event user now' (SettleSet id t')) c in
    let '(r, s') := add_bundle_token round fmt (new_rate_limiter q b g) t t' now now' user code.2.1 in
    c'.1 = s' /\ (ok = true <-> r = Ok tt).
Proof.
  intros HL Hes. cbn zeta.
  destruct (run_refines round fmt q b g L HL es (∅, ∅) (rempty, ∅) Hes (sim_state_init L HL))
    as [Hr [Hs _]].
  split; [exact Hr|]. split.
  { intros k. destruct (Hs k) as [H1 H2]. eauto. }
  intros id user now now' t t'. destruct (run_events (apply_event _ _ _ _ _) _ _) as [bs [s P]].
  cbn [fst snd]. pose proof (settlement_split round fmt q b g id user now now' t t' s P) as H.
  destruct (apply_event _ _ _ _ _ _ (s, P)) as [b1 c1].
  destruct (apply_event _ _ _ _ _ _ c1) as [b2 c2].
  destruct (add_bundle_token _ _ _ _ _ _ _ _ _) as [r s']. tauto.
Qed.

(** C2. Under every interleaving, also when Redis requests or replies are lost,
    the bundles granted to a user in a window are at most the limit plus what
    the settlements written to the window give back: each gives one and the
    bundles granted in the window between its read and its write, and one that
    read another window at most the limit.  In particular settlements that no
    grant overlaps give back one each. *)
Theorem bundle_grants_bounded `{R : Redis} round fmt q b g L es k :
  0 <= L < 2 ^ 53 - 1 -> Forall (limit_ok b L) es ->
  let bs := (run_events (apply_event round fmt q b g) es (rempty, ∅)).1 in
  granted round fmt q b g k es bs <= L + credits round fmt q b g L k ∅ es bs.
Proof.
  intros HL Hes. cbn zeta.
  destruct (run_refines round fmt q b g L HL es (∅, ∅) (rempty, ∅) Hes (sim_state_init L HL))
    as [-> _].
  pose proof (spec_run_bound round fmt q b g L k 0 0 (∅, ∅) ∅ es ltac:(lia) Hes
    (accounted_init L k ltac:(lia))). lia.
Qed.

(** No key of the bundle limiter ever gets a deadline: the script compares
    the string reply of INCRBYFLOAT with a number, which is never equal, so
    EXPIREAT is never sent, and the write of the decrement discards one. *)
Theorem bundle_keys_never_expire `{R : Redis} round fmt q b g es k :
  rexpiry (run_events (apply_event round fmt q b g) es (rempty, ∅)).2.1 k = None.
Proof.
  assert (H : forall s, (forall k, rexpiry s.1 k = None) ->
    forall k, rexpiry (run_events (apply_event round fmt q b g) es s).2.1 k = None);
    [|apply H; intros; apply rexpiry_empty].
  induction es as [|e es IH]; intros s Hs; [done|].
  pose proof (event_expiry round fmt q b g e s Hs) as He. cbn.
  destruct (apply_event _ _ _ _ _ e s) as [bb s1].
  specialize (IH s1 He). destruct (run_events _ es s1). done.
Qed.

(** The script touches one key only. *)
Lemma script_other_keys `{R : Redis} key limit ttl delta s k :
  k <> key -> rget (INCR_LIMIT_LUA key limit ttl delta s).2 k = rget s k.
Proof.
  intros Hk. unfold INCR_LIMIT_LUA. pose proof (rincr_ne s key k delta ltac:(done)) as H1.
  destruct (rincrbyfloat key delta s) as [v s1]. cbn [lua_eq snd] in *.
  destruct (fgtb _ _); [|exact H1].
  pose proof (rincr_ne s1 key k (fneg delta) ltac:(done)) as H2.
  destruct (rincrbyfloat key (fneg delta) s1) as [v' s2]. cbn in *. congruence.
Qed.

(** When Redis does not answer, bundle and quote requests fail with status
    429 as if the limit were exceeded, execution costs count as exceeded, the
    gas sponsorship check fails with status 500, and a peek at the bundle limit
    lets the request through. A bundle request that never arrived changes
    nothing, and one whose reply is lost changes at most the counter of its user
    and window. *)
Theorem redis_failure_behaviour `{R : Redis} limits round fmt a t now now_ttl key_id user mq mb
    date ticker s :
  t <> Delivered -> limits key_id Quote = Ok mq -> limits key_id Assemble = Ok mb ->
  let '(bundle, s') := consume_bundle_rate_limit_token round fmt limits a t now now_ttl key_id user s in
  bundle = Err RateLimit /\
  (consume_quote_rate_limit_token round fmt limits a t now now_ttl key_id user s).1 = Err RateLimit /\
  error_status RateLimit = 429 /\
  check_execution_cost_exceeded (fun _ => Err RedisError) date ticker = true /\
  (check_gas_sponsorship_rate_limit round fmt a t now user s).1 = Err RedisError /\
  error_status RedisError = 500 /\
  (peek_bundle_rate_limit round fmt limits a t now key_id user s).1 = Ok tt /\
  (t = RequestLost -> s' = s) /\
  forall k, k <> build_key round fmt (bundle_rate_limiter a) now user -> rget s' k = rget s k.
Proof.
  intros Ht Hq Hb.
  unfold consume_bundle_rate_limit_token, consume_quote_rate_limit_token, consume_rate_limit_token,
    peek_bundle_rate_limit. rewrite Hq, Hb. unfold consume_token, increment_consumed.
  destruct t; [done| |]; cbn -[build_key INCR_LIMIT_LUA get_ttl_seconds]; split_and!; try done.
  intros k Hk. by apply script_other_keys.
Qed.

(** Recording a sponsorship always consumes budget, also when the user has
    none left: the counter grows past the limit. *)
Theorem sponsorship_recorded_over_budget `{R : Redis} round fmt q b budget now now_ttl user n s :
  let a := new_rate_limiter q b (of_Z budget) in
  let k := build_key round fmt (gas_sponsorship_rate_limiter a) now user in
  small_int budget -> budget <= n -> small_int (n + 1) ->
  rget s k = Some (of_Z n) ->
  (check_gas_sponsorship round fmt a Delivered now user s).1 = Ok false /\
  (record_gas_sponsorship round fmt a Delivered now now_ttl user f1 s).1 = Ok tt /\
  rget (record_gas_sponsorship round fmt a Delivered now now_ttl user f1 s).2 k = Some (of_Z (n + 1)).
Proof.
  cbn zeta. set (a := new_rate_limiter _ _ _).
  set (k := build_key round fmt (gas_sponsorship_rate_limiter a) now user).
  intros Hb Hle Hn Hk. assert (Hn0 : small_int n) by (unfold small_int in *; lia).
  unfold check_gas_sponsorship, rate_limit_exceeded, record_gas_sponsorship,
    increment_consumed_no_check. cbn zeta. fold k. cbn [roundtrip]. rewrite Hk. split.
  { cbn -[fgeb]. rewrite of_Z_geb by done. destruct (Z.leb_spec budget n); [done|lia]. }
  pose proof (rincr_stored s k f1) as Hs.
  pose proof (rincr_exact s k n 1 Hn0 Hn ltac:(lia) ltac:(by rewrite Hk)) as He.
  change (of_Z 1) with f1 in He. destruct (rincrbyfloat k f1 s) as [v s1]. cbn [fst snd] in *.
  subst v. cbn. split; [done|]. by rewrite rget_expireat.
Qed.

(** ** Witnesses *)
Module RateLimiterWitness.
(** A store of values and deadlines. *)
Abbreviation kv := (gmap string (f64 * option Z)).
Definition kv_incr (k : string) (d : f64) (s : kv) : f64 * kv :=
  let '(v, t) := default (f0, None) (s !! k) in
  let v := if fltb d f0 then fsub v (fneg d) else fadd v d in
  (v, <[k := (v, t)]> s).
Definition kv_expireat (k : string) (t : Z) (s : kv) : kv :=
  match s !! k with Some (v, _) => <[k := (v, Some t)]> s | None => s end.

Lemma kv_incr_exact (s : kv) k a b :
  small_int a -> small_int (a + b) -> -1 <= b <= 1 ->
  default f0 (fst <$> s !! k) = of_Z a -> (kv_incr k (of_Z b) s).1 = of_Z (a + b).
Proof.
  intros Ha Hab Hb Hv. unfold kv_incr.
  assert (Hd : (default (f0, None) (s !! k)).1 = of_Z a) by (by destruct (s !! k) as [[]|]).
  destruct (default (f0, None) (s !! k)) as [v t]. cbn in Hd. subst v. cbn [fst].
  assert (b = -1 \/ b = 0 \/ b = 1) as [-> | [-> | ->]] by lia.
  - change (fltb (of_Z (-1)) f0) with true. change (fneg (of_Z (-1))) with (of_Z 1).
    cbn iota. rewrite of_Z_sub; [done|done|unfold small_int; lia|unfold small_int in *; lia].
  - change (fltb (of_Z 0) f0) with false. rewrite of_Z_add; [done..|]. done.
  - change (fltb (of_Z 1) f0) with false. rewrite of_Z_add; [done..|]. done.
Qed.

(** Splits on the key read and on whether it is the key written. *)
Ltac kv_split :=
  match goal with
  | |- context [lookup (M := gmap string (f64 * option Z)) ?k ?s] =>
      is_var s; destruct (s !! k) as [[]|] eqn:?
  end.
Ltac kv_solve :=
  unfold kv_incr, kv_expireat in *;
  try match goal with
  | k : string, k' : string |- _ => destruct (decide (k = k')); [subst|]
  end;
  repeat kv_split; simplify_map_eq/=; try done.

#[local] Program Instance kv_redis : Redis := {|
  rstore := kv; rempty := ∅;
  rget s k := fst <$> s !! k;
  rexpiry s k := (s !! k) ≫= snd;
  rset k v s := <[k := (v, None)]> s;
  rincrbyfloat := kv_incr;
  rexpireat := kv_expireat;
  rincr_exact := kv_incr_exact;
|}.
Solve Obligations with (intros; cbn in *; kv_solve).

Definition round (now i : Z) : Z := now / i.
Definition fmt (_ : Z) : string := "w".
Definition es : list event :=
  [mk_event "u" 5 (Consume Delivered 5 None); mk_event "u" 6 (Consume ReplyLost 6 None);
   mk_event "u" 7 (Consume Delivered 7 None); mk_event "u" 8 (SettleGet 0 Delivered);
   mk_event "u" 8 (SettleSet 0 Delivered); mk_event "u" 9 (Peek Delivered (Some 1))].

Lemma es_limits : Forall (limit_ok 2 2) es.
Proof. repeat constructor; cbn; lia. Qed.

Lemma bundle_limiter_refines_bucket_witness :
  (run_events (apply_event round fmt 5 2 f1) es (rempty, ∅)).1 =
  [true; false; false; true; true; true].
Proof.
  etransitivity; [apply (bundle_limiter_refines_bucket (R := kv_redis) round fmt 5 2 f1 2 es);
    [lia|apply es_limits]|vm_compute; reflexivity].
Defined.

(** The bound is reached: with a limit of two, a settlement whose write comes
    after another grant resets the counter, and four bundles are granted in one
    window with a single settlement. *)
Definition race : list event :=
  [mk_event "u" 5 (Consume Delivered 5 None); mk_event "u" 6 (SettleGet 0 Delivered);
   mk_event "u" 6 (Consume Delivered 6 None); mk_event "u" 7 (SettleSet 0 Delivered);
   mk_event "u" 8 (Consume Delivered 8 None); mk_event "u" 9 (Consume Delivered 9 None);
   mk_event "u" 10 (Consume Delivered 10 None)].
Definition race_answers : list bool :=
  (run_events (apply_event (H := kv_redis) round fmt 5 2 f1) race (rempty, ∅)).1.

Lemma bundle_grants_bounded_witness :
  granted round fmt 5 2 f1 "bundle_rate_limitu#w" race race_answers = 4 /\
  credits round fmt 5 2 f1 2 "bundle_rate_limitu#w" ∅ race race_answers = 2 /\
  granted round fmt 5 2 f1 "bundle_rate_limitu#w" race race_answers <=
    2 + credits round fmt 5 2 f1 2 "bundle_rate_limitu#w" ∅ race race_answers.
Proof.
  split; [vm_compute; reflexivity|]. split; [vm_compute; reflexivity|].
  apply (bundle_grants_bounded (R := kv_redis) round fmt 5 2 f1 2 race "bundle_rate_limitu#w");
    [lia|repeat constructor; cbn; lia].
Defined.

Lemma bundle_keys_never_expire_witness :
  rexpiry (run_events (apply_event round fmt 5 2 f1) es (rempty, ∅)).2.1
    "bundle_rate_limitu#w" = None.
Proof. apply (bundle_keys_never_expire (R := kv_redis) round fmt 5 2 f1 es). Defined.

Lemma redis_failure_behaviour_witness :
  (peek_bundle_rate_limit round fmt (fun _ _ => Ok None) (new_rate_limiter 5 2 f1) ReplyLost 1 3 "u"
     rempty).1 = Ok tt.
Proof.
  pose proof (redis_failure_behaviour (R := kv_redis) (fun _ _ => Ok None) round fmt
    (new_rate_limiter 5 2 f1) ReplyLost 1 1 3 "u" None None "d" "t" rempty
    ltac:(discriminate) eq_refl eq_refl) as H.
  destruct (consume_bundle_rate_limit_token _ _ _ _ _ _ _ _ _ _) as [r s'] in H. apply H.
Defined.

Definition spent : kv := {[ "gas_sponsorship_rate_limitu#w"%string := (of_Z 3, None) ]}.
Lemma sponsorship_recorded_over_budget_witness :
  (record_gas_sponsorship round fmt (new_rate_limiter 5 2 (of_Z 2)) Delivered 1 1 "u" f1
     (spent : rstore)).1 = Ok tt.
Proof.
  apply (sponsorship_recorded_over_budget (R := kv_redis) round fmt 5 2 2 1 1 "u" 3 spent);
    [unfold small_int; lia|lia|unfold small_int; lia|vm_compute; reflexivity].
Defined.
End RateLimiterWitness.
