(* ===== verification/PriceClient.v ===== *)
(** * The client of the price reporter (price-reporter-client/src/)

    The services read prices through this client.  [MultiPriceStreamState] is the
    state shared by its background websocket task and its readers; the task, the
    clock, the staleness timer and a shutdown are an executable labelled
    transition system ([step]).  The price lookups of lib.rs read that state or
    fall back to HTTP.  The token map, URLs, HTTP, JSON, [BigDecimal] and the
    float library are parameters. *)
From Stdlib Require Import ZArith Lia Ascii.
From stdpp Require Import gmap strings list.
From S2P Require Import Prelude F64 AuthError.
Local Open Scope Z_scope.

(** ** Topics (lib.rs) *)
Definition ERR_INVALID_TOPIC : string := "Invalid topic format".
Definition TOPIC_SEP : ascii := "-".

Section Topics.
(** The display name of the Renegade exchange. *)
Context (renegade : string).

Definition construct_price_topic (mint : string) : string :=
  (renegade +:+ String TOPIC_SEP mint)%string.
Definition get_base_mint_from_topic (topic : string) : res PriceReporterClientError string :=
  let parts := split_on TOPIC_SEP topic in
  ok_or (parts !! 1%nat) (PRParsing ERR_INVALID_TOPIC).
End Topics.

(** ** The price stream (price_stream.rs); times in milliseconds *)
Definition CONN_RETRY_DELAY_MS : Z := 2000.
Definition STALENESS_TIMEOUT_MS : Z := 60000.

Record PriceMessage := mk_message { topic : string; price : f64 }.

(** [staleness_timer] is the deadline of the running timer. *)
Record MultiPriceStreamState := mk_state {
  prices : gmap string f64;
  is_connected : bool;
  exit_on_stale : bool;
  staleness_timer : option Z;
}.
Definition state_new (exit_on_stale : bool) : MultiPriceStreamState :=
  mk_state ∅ false exit_on_stale None.

Definition start_staleness_timer (now : Z) : Z := now + STALENESS_TIMEOUT_MS.
Definition restart_staleness_timer (now : Z) (s : MultiPriceStreamState) : MultiPriceStreamState :=
  if negb (exit_on_stale s) then s
  else mk_state (prices s) (is_connected s) (exit_on_stale s) (Some (start_staleness_timer now)).
Definition update_price (now : Z) (mint : string) (p : f64) (s : MultiPriceStreamState)
    : MultiPriceStreamState :=
  restart_staleness_timer now
    (mk_state (<[mint := p]> (prices s)) (is_connected s) (exit_on_stale s) (staleness_timer s)).
Definition set_connected (connected : bool) (s : MultiPriceStreamState) : MultiPriceStreamState :=
  mk_state (prices s) connected (exit_on_stale s) (staleness_timer s).

Definition stream_get_price (mint : string) (s : MultiPriceStreamState)
    : res PriceReporterClientError f64 :=
  ok_or (prices s !! mint) (PRStreamMissing mint).

(** What the read half of the websocket yields; a text is given with the price
    message it decodes to, if any. *)
Inductive ws_item :=
  | WsText (m : option PriceMessage)
  | WsClose
  | WsOther
  | WsError (e : string)
  | WsEnd.

(** One turn of [handle_price_updates]: go on, or leave the loop. *)
Inductive flow := Continue | Exit (r : res PriceReporterClientError unit).
Definition handle_item (now : Z) (item : ws_item) (s : MultiPriceStreamState)
    : flow * MultiPriceStreamState :=
  match item with
  | WsEnd => (Exit (Ok tt), s)
  | WsError e => (Exit (Err (PRWebSocket e)), s)
  | WsText (Some m) =>
      match get_base_mint_from_topic (topic m) with
      | Ok mint => (Continue, update_price now mint (price m) s)
      | Err e => (Exit (Err e), s)
      | Panic => (Exit Panic, s)
      end
  | WsText None => (Continue, s)
  | WsClose => (Exit (Ok tt), s)
  | WsOther => (Continue, s)
  end.

(** *** The background task

    [LoopTop] is the head of the loop of [run_websocket_loop], [Connecting] the
    call of [connect_and_subscribe], [Streaming] the loop of
    [handle_price_updates], [Sleeping] the delay before the next turn. *)
Inductive ws_task := LoopTop | Connecting | Streaming | Sleeping (until : Z) | Stopped.
Record world := mk_world {
  w_now : Z;
  w_state : MultiPriceStreamState;
  w_task : ws_task;
  w_cancelled : bool;
  w_exited : bool;
}.
Definition world_new (now : Z) (exit_on_stale : bool) : world :=
  mk_world now (state_new exit_on_stale) LoopTop false false.

Inductive label :=
  | LLoop                                             (* the loop condition *)
  | LConnect (e : option PriceReporterClientError)      (* the connection attempt ends *)
  | LItem (i : ws_item)                               (* an item is read *)
  | LCancelled                                        (* the cancellation wakes the task *)
  | LWake                                             (* the retry delay is over *)
  | LShutdown                                         (* [shutdown] *)
  | LTick (d : Z)                                     (* time passes *)
  | LStale.                                           (* the staleness timer fires *)

(** [stream_prices] has returned: the rest of the turn. *)
Definition end_turn (w : world) (s : MultiPriceStreamState) : world :=
  if w_cancelled w then mk_world (w_now w) s Stopped (w_cancelled w) (w_exited w)
  else mk_world (w_now w) (set_connected false s) (Sleeping (w_now w + CONN_RETRY_DELAY_MS))
         (w_cancelled w) (w_exited w).
Definition with_task (t : ws_task) (s : MultiPriceStreamState) (w : world) : world :=
  mk_world (w_now w) s t (w_cancelled w) (w_exited w).

(** Time does not pass a deadline that has to fire first. *)
Definition may_tick (d : Z) (w : world) : bool :=
  (0 <=? d) &&
  match staleness_timer (w_state w) with Some dl => w_now w + d <=? dl | None => true end.

Definition step (l : label) (w : world) : option world :=
  if w_exited w then None else
  let s := w_state w in
  match l, w_task w with
  | LLoop, LoopTop => Some (with_task (if w_cancelled w then Stopped else Connecting) s w)
  | LConnect None, Connecting => Some (with_task Streaming (set_connected true s) w)
  | LConnect (Some _), Connecting => Some (end_turn w s)
  | LItem i, Streaming =>
      if w_cancelled w then None else   (* biased: the cancellation comes first *)
      match handle_item (w_now w) i s with
      | (Continue, s') => Some (with_task Streaming s' w)
      | (Exit _, s') => Some (end_turn w s')
      end
  | LCancelled, Streaming => if w_cancelled w then Some (end_turn w s) else None
  | LWake, Sleeping u => if u <=? w_now w then Some (with_task LoopTop s w) else None
  | LShutdown, t => Some (mk_world (w_now w) s t true false)
  | LTick d, t => if may_tick d w then Some (mk_world (w_now w + d) s t (w_cancelled w) false) else None
  | LStale, t =>
      match staleness_timer s with
      | Some dl => if dl <=? w_now w then Some (mk_world (w_now w) s t (w_cancelled w) true) else None
      | None => None
      end
  | _, _ => None
  end.

Fixpoint run (ls : list label) (w : world) : option world :=
  match ls with
  | [] => Some w
  | l :: ls => w' ← step l w; run ls w'
  end.

(** ** The client (lib.rs) *)
Definition WS_PORT : Z := 4000.
Definition PRICE_ROUTE : string := "/price".
Definition WETH_TICKER : string := "WETH".
Definition ERR_PRICE_BIGDECIMAL_CONVERSION : string := "failed to convert price to BigDecimal".

(** Arbitrary-precision decimals. *)
Class BigDecimalOps := {
  bigdecimal : Type;
  bd_from_f64 : f64 -> option bigdecimal;
  bd_from_int : Z -> bigdecimal;
  bd_mul : bigdecimal -> bigdecimal -> bigdecimal;
  bd_div : bigdecimal -> bigdecimal -> bigdecimal;
  bd_to_f64 : bigdecimal -> option f64;
  bd_is_zero : bigdecimal -> bool;
  (** [round(0).into_bigint_and_scale().0] *)
  bd_round_int : bigdecimal -> Z;
}.

(** The token map of renegade_types_core. *)
Class TokenMap := {
  Chain : Type;
  USDC_TICKER : string;
  USD_TICKER : string;
  get_ticker : string -> Chain -> option string;     (* [Token::from_addr_on_chain] *)
  get_decimals : string -> Chain -> option Z;
  all_tokens : list (string * Chain);                (* [get_all_tokens] *)
  usdc_decimals : option Z;                          (* [Token::usdc()] *)
  weth_addr : string;                                (* [Token::from_ticker("WETH")] *)
  weth_chain : Chain;
}.

Section Client.
Context `{TM : TokenMap} (renegade : string).

Definition UNIT_PRICE_TICKERS : list string := [USDC_TICKER; USD_TICKER].

(** A URL, as far as the constructor changes it. *)
Record Url := mk_url { scheme : string; port : option Z; rest : string }.
Context (parse_url : string -> res string Url) (url_to_string : Url -> string).

Record PriceReporterClientConfig := mk_config {
  c_base_url : string;
  c_disable_price_stream : bool;
  c_allow_stale_price_stream : bool;
}.
(** The stream is started with the websocket URL, the mints to subscribe to and
    [exit_on_stale]. *)
Record PriceReporterClient := mk_client {
  base_url : string;
  multi_price_stream : option (string * list string * bool);
}.

Definition subscribed_mints : list string :=
  fst <$> filter (fun t => default ""%string (get_ticker t.1 t.2) ∉ UNIT_PRICE_TICKERS) all_tokens.

(** [build] and [set] are the results of building the HTTP client and of setting
    the scheme and the port. *)
Definition client_new (build set_scheme set_port : res PriceReporterClientError unit)
    (config : PriceReporterClientConfig) : res PriceReporterClientError PriceReporterClient :=
  _ ← build;
  if c_disable_price_stream config then Ok (mk_client (c_base_url config) None)
  else
    u ← map_err PRParsing (parse_url (c_base_url config));
    u ← (if bool_decide (scheme u = "https"%string) then
           _ ← set_scheme; Ok (mk_url "wss" (port u) (rest u))
         else if bool_decide (scheme u = "http"%string) then
           _ ← set_scheme; Ok (mk_url "ws" (port u) (rest u))
         else Ok u);
    _ ← set_port;
    let u := mk_url (scheme u) (Some WS_PORT) (rest u) in
    Ok (mk_client (c_base_url config)
          (Some (url_to_string u, subscribed_mints, negb (c_allow_stale_price_stream config)))).

(** The reply of the HTTP server: its status and the body, which may fail to be
    read. *)
Record Response := mk_response { r_success : bool; r_status : string; r_text : res string string }.
Context (http_get : string -> res string Response) (parse_f64 : string -> option f64).

Definition send_get_request (url : string) : res PriceReporterClientError Response :=
  response ← map_err PRHttp (http_get url);
  if negb (r_success response) then
    message ← map_err PRParsing (r_text response);
    Err (PRHttp ("Status " +:+ (r_status response +:+ (": " +:+ message)))%string)
  else Ok response.

Definition get_price_http (c : PriceReporterClient) (mint : string)
    : res PriceReporterClientError f64 :=
  let price_topic := construct_price_topic renegade mint in
  let url := (base_url c +:+ (PRICE_ROUTE +:+ ("/" +:+ price_topic)))%string in
  response ← send_get_request url;
  res_text ← map_err PRParsing (r_text response);
  ok_or (parse_f64 res_text) (PRParsing "invalid float literal").

Definition has_unit_price (mint : string) (chain : Chain) : bool :=
  match get_ticker mint chain with
  | Some ticker => bool_decide (ticker ∈ UNIT_PRICE_TICKERS)
  | None => false
  end.

(** [stream] is the state of the price stream when it is read, [None] when the
    client has none. *)
Definition get_price (c : PriceReporterClient) (stream : option MultiPriceStreamState)
    (mint : string) (chain : Chain) : res PriceReporterClientError f64 :=
  let mint := to_lowercase mint in
  if has_unit_price mint chain then Ok f1
  else
    match stream with
    | Some s => if is_connected s then stream_get_price mint s else get_price_http c mint
    | None => get_price_http c mint
    end.

Definition get_eth_price (c : PriceReporterClient) (stream : option MultiPriceStreamState)
    : res PriceReporterClientError f64 := get_price c stream weth_addr weth_chain.

Context `{BD : BigDecimalOps}.
(** [10f64.powi]: its precision is not specified. *)
Context (powi10 : Z -> f64).

Definition get_price_usd (c : PriceReporterClient) (stream : option MultiPriceStreamState)
    (mint : string) (chain : Chain) : res PriceReporterClientError bigdecimal :=
  price_f64 ← get_price c stream mint chain;
  price ← ok_or (bd_from_f64 price_f64) (PRConversion ERR_PRICE_BIGDECIMAL_CONVERSION);
  decimals ← ok_or (get_decimals mint chain)
               (PRCustom ("Token " +:+ (mint +:+ " has no decimals"))%string);
  Ok (bd_div price (bd_from_int (10 ^ decimals))).

Definition get_decimal_adjusted_price (c : PriceReporterClient)
    (stream : option MultiPriceStreamState) (mint : string) (chain : Chain)
    : res PriceReporterClientError bigdecimal :=
  price_f64 ← get_price c stream mint chain;
  price ← ok_or (bd_from_f64 price_f64) (PRConversion ERR_PRICE_BIGDECIMAL_CONVERSION);
  base_decimals ← ok_or (get_decimals mint chain)
               (PRCustom ("Token " +:+ (mint +:+ " has no decimals"))%string);
  usdc ← unwrap usdc_decimals;
  let adjustment_decimals := usdc - base_decimals in
  adjustment ← ok_or (bd_from_f64 (powi10 adjustment_decimals))
                 (PRConversion ERR_PRICE_BIGDECIMAL_CONVERSION);
  Ok (bd_mul price adjustment).
End Client.

(** ** Runs of the task *)
Lemma run_app ls1 ls2 w : run (ls1 ++ ls2) w = run ls1 w ≫= run ls2.
Proof. revert w. induction ls1 as [|l ls1 IH]; intros w; cbn; [done|]. destruct (step l w); [apply IH|done]. Qed.

Lemma run_snoc ls l w : run (ls ++ [l]) w = run ls w ≫= step l.
Proof. rewrite run_app. destruct (run ls w); cbn; [|done]. by destruct (step l _). Qed.

(** The price a label delivers. *)
Definition delivered (l : label) : option (string * f64) :=
  match l with
  | LItem (WsText (Some m)) =>
      match get_base_mint_from_topic (topic m) with Ok mint => Some (mint, price m) | _ => None end
  | _ => None
  end.
(** The last price delivered for a mint. *)
Definition latest (mint : string) (ls : list label) : option f64 :=
  last (omap (fun l => '(k, p) ← delivered l; if decide (k = mint) then Some p else None) ls).

Lemma handle_item_effect now i s :
  match delivered (LItem i) with
  | Some (mint, p) => handle_item now i s = (Continue, update_price now mint p s)
  | None => (handle_item now i s).2 = s
  end.
Proof.
  destruct i as [[m|]| | | |]; cbn; [|done..]. by destruct (get_base_mint_from_topic _) eqn:E.
Qed.

(** What a step does to the shared state: one update, or nothing that a reader of
    prices or the timer sees. *)
Definition same_prices (s s' : MultiPriceStreamState) : Prop :=
  prices s' = prices s /\ exit_on_stale s' = exit_on_stale s /\
  staleness_timer s' = staleness_timer s.
Definition time_ok (w w' : world) : Prop :=
  w_now w <= w_now w' /\
  (forall dl, staleness_timer (w_state w) = Some dl -> w_now w <= dl -> w_now w' <= dl).

Lemma end_turn_same w s : same_prices s (w_state (end_turn w s)) /\ w_now (end_turn w s) = w_now w.
Proof. unfold end_turn. by destruct (w_cancelled w). Qed.

Lemma step_effect l w w' :
  step l w = Some w' ->
  match delivered l with
  | Some (mint, p) => w_state w' = update_price (w_now w) mint p (w_state w) /\ w_now w' = w_now w
  | None => same_prices (w_state w) (w_state w')
  end /\ time_ok w w'.
Proof.
  unfold step, time_ok. destruct (w_exited w); [done|].
  pose proof (end_turn_same w) as Hend. unfold same_prices in *.
  destruct l as [|[e|]|i| | | |d|], (w_task w); intros H; try discriminate H.
  4: { destruct (w_cancelled w); [done|].
    pose proof (handle_item_effect (w_now w) i (w_state w)) as Hi.
    destruct (handle_item _ _ _) as [[|r] s'] eqn:E; [|specialize (Hend s')];
      destruct (delivered (LItem i)) as [[]|]; simplify_eq/=; split_and!; (done || lia || apply Hend). }
  all: cbn [delivered]; repeat (split_match_in H; try discriminate H); simplify_eq/=;
    unfold may_tick in *; split_and!; try (done || lia || apply Hend || (rewrite (proj2 (Hend _)); lia)).
  all: intros dl Hdl; try rewrite (proj2 (Hend _)); rewrite ?Hdl in *; lia.
Qed.

(** *** Invariants of runs *)
Lemma update_price_prices now k p s : prices (update_price now k p s) = <[k := p]> (prices s).
Proof. unfold update_price, restart_staleness_timer. by split_match. Qed.
Lemma update_price_timer now k p s :
  exit_on_stale s = true ->
  exit_on_stale (update_price now k p s) = true /\
  staleness_timer (update_price now k p s) = Some (now + STALENESS_TIMEOUT_MS).
Proof. unfold update_price, restart_staleness_timer. cbn. by intros ->. Qed.

Lemma run_latest ls w0 w :
  run ls w0 = Some w -> prices (w_state w0) = ∅ ->
  forall mint, prices (w_state w) !! mint = latest mint ls.
Proof.
  intros Hr H0. revert w Hr. induction ls as [|l ls IH] using rev_ind; intros w Hr mint.
  - simplify_eq/=. by rewrite H0, lookup_empty.
  - rewrite run_snoc in Hr. destruct (run ls w0) as [w1|] eqn:E; [|done]. cbn in Hr.
    pose proof (IH _ eq_refl mint) as IHm. apply step_effect in Hr as [Hs _].
    unfold latest in *. rewrite omap_app. cbn.
    destruct (delivered l) as [[k p]|]; cbn.
    + destruct Hs as [-> _]. rewrite update_price_prices.
      destruct (decide (k = mint)) as [->|]; cbn.
      * by rewrite lookup_insert_eq, last_snoc.
      * by rewrite lookup_insert_ne, app_nil_r.
    + rewrite app_nil_r. by destruct Hs as [-> _].
Qed.


(** A live process whose timer runs has received a price within the timeout: the
    deadline is the time of the last delivery plus the timeout. *)
Definition timer_inv (w0 : world) (ls : list label) (w : world) : Prop :=
  exit_on_stale (w_state w) = true /\
  (prices (w_state w) <> ∅ -> exists ls1 l ls2 w1,
     ls = ls1 ++ l :: ls2 /\ run ls1 w0 = Some w1 /\ is_Some (delivered l) /\
     staleness_timer (w_state w) = Some (w_now w1 + STALENESS_TIMEOUT_MS) /\
     w_now w <= w_now w1 + STALENESS_TIMEOUT_MS).

Lemma run_timer ls w0 w :
  run ls w0 = Some w -> prices (w_state w0) = ∅ -> exit_on_stale (w_state w0) = true ->
  timer_inv w0 ls w.
Proof.
  intros Hr H0 He. revert w Hr. induction ls as [|l ls IH] using rev_ind; intros w Hr.
  - simplify_eq/=. split; [done|]. by rewrite H0.
  - rewrite run_snoc in Hr. destruct (run ls w0) as [w1|] eqn:E; [|done]. cbn in Hr.
    destruct (IH _ eq_refl) as [He1 Ht]. apply step_effect in Hr as [Hs [Hle Hdl]].
    destruct (delivered l) as [[k p]|] eqn:El.
    + destruct Hs as [Hs Hnow]. destruct (update_price_timer (w_now w1) k p (w_state w1) He1) as [Hx Hy].
      rewrite <- Hs in Hx, Hy. split; [done|]. intros _. exists ls, l, [], w1. rewrite Hnow.
      split_and!; [done|done|by rewrite El; eexists|done|unfold STALENESS_TIMEOUT_MS; lia].
    + destruct Hs as (Hp & Hx & Hy). split; [by rewrite Hx|]. rewrite Hp, Hy. intros Hne.
      destruct (Ht Hne) as (ls1 & l' & ls2 & w2 & -> & ? & ? & Htm & ?).
      exists ls1, l', (ls2 ++ [l]), w2. split_and!; [by rewrite <- app_assoc|done..|by apply Hdl].
Qed.

(** The flag is set exactly while the task streams, until a shutdown. *)
Definition connected_inv (w : world) : Prop :=
  w_cancelled w = false ->
  w_task w <> Stopped /\ (is_connected (w_state w) = true <-> w_task w = Streaming).

Lemma handle_item_connected now i s : is_connected (handle_item now i s).2 = is_connected s.
Proof.
  destruct i as [[m|]| | | |]; cbn; try done. destruct (get_base_mint_from_topic _); try done.
  cbn. unfold update_price, restart_staleness_timer. by split_match.
Qed.

Lemma step_connected l w w' : step l w = Some w' -> connected_inv w -> connected_inv w'.
Proof.
  unfold step, connected_inv. destruct (w_exited w); [done|].
  destruct l as [|[e|]|i| | | |d|], (w_task w) eqn:Et; intros H; try discriminate H.
  4: { destruct (w_cancelled w) eqn:Ec; [done|].
    pose proof (handle_item_connected (w_now w) i (w_state w)) as Hi. unfold end_turn in H.
    rewrite Ec in H. destruct (handle_item _ _ _) as [[|r] s']; simplify_eq/=; rewrite ?Hi; naive_solver. }
  all: repeat (split_match_in H; try discriminate H); simplify_eq/=; unfold end_turn;
    rewrite ?Et; try (destruct (w_cancelled w) eqn:Ec; cbn; rewrite ?Ec); naive_solver.
Qed.

Lemma run_connected ls w0 w : run ls w0 = Some w -> connected_inv w0 -> connected_inv w.
Proof.
  revert w0. induction ls as [|l ls IH]; intros w0 Hr H0; cbn in Hr; [by simplify_eq|].
  destruct (step l w0) eqn:E; [|done]. eauto using step_connected.
Qed.

(** ** Properties *)

Lemma world_new_connected t0 e : connected_inv (world_new t0 e).
Proof. by intros _. Qed.
#[export] Hint Resolve world_new_connected run_connected : rust.

(** The price of a token, at any moment of any run of the background task
    before a shutdown: one for the unit tickers; the last price delivered for
    the mint while the task streams (an error, and no request, when there is
    none); the reply of the HTTP server otherwise. *)
Theorem get_price_spec `{TokenMap} renegade http_get parse_f64 c t0 e ls w mint chain :
  run ls (world_new t0 e) = Some w -> w_cancelled w = false ->
  get_price renegade http_get parse_f64 c (Some (w_state w)) mint chain =
    if has_unit_price (to_lowercase mint) chain then Ok f1
    else match w_task w with
         | Streaming => ok_or (latest (to_lowercase mint) ls) (PRStreamMissing (to_lowercase mint))
         | _ => get_price_http renegade http_get parse_f64 c (to_lowercase mint)
         end.
Proof.
  intros Hr Hc. unfold get_price, stream_get_price. rewrite (run_latest _ _ _ Hr eq_refl).
  destruct (run_connected _ _ _ Hr (world_new_connected t0 e) Hc) as [_ Hs].
  destruct (has_unit_price _ _), (is_connected _), (w_task w); naive_solver.
Qed.

(** A process that exits on a stale stream holds prices only while it lives
    within the timeout of the last delivery: whenever a price of the stream can
    be read, some price was delivered in the last 60 seconds. *)
Theorem stream_prices_fresh t0 ls w mint p :
  run ls (world_new t0 true) = Some w -> latest mint ls = Some p ->
  exists ls1 l ls2 w1, ls = ls1 ++ l :: ls2 /\ run ls1 (world_new t0 true) = Some w1 /\
    is_Some (delivered l) /\ w_now w <= w_now w1 + STALENESS_TIMEOUT_MS.
Proof.
  intros Hr Hl. destruct (run_timer _ _ _ Hr eq_refl eq_refl) as [_ Ht].
  destruct Ht as (ls1 & l & ls2 & w1 & ? & ? & ? & _ & ?); [|by exists ls1, l, ls2, w1].
  rewrite <- (run_latest _ _ _ Hr eq_refl) in Hl. intros He. by rewrite He, lookup_empty in Hl.
Qed.

(** The topic the client subscribes to with a mint names that mint, for
    mints without a separator. *)
Theorem topic_roundtrip renegade mint :
  str_mem TOPIC_SEP renegade = false -> str_mem TOPIC_SEP mint = false ->
  get_base_mint_from_topic (construct_price_topic renegade mint) = Ok mint.
Proof.
  intros Hr Hm. unfold get_base_mint_from_topic, construct_price_topic.
  by rewrite split_on_app, split_on_none.
Qed.

(** A token "a" gets one price, then only "b" does, once per timeout. *)
Definition deliver (mint : string) (p : f64) : label :=
  LItem (WsText (Some (mk_message ("x-" +:+ mint)%string p))).
Definition busy_round : list label := [LTick STALENESS_TIMEOUT_MS; deliver "b" f1].
Definition busy_run (n : nat) : list label :=
  [LLoop; LConnect None; deliver "a" f1] ++ concat (replicate n busy_round).
Definition busy_world (e : bool) (t : Z) (m : gmap string f64) : world :=
  mk_world t (mk_state m true e (if e then Some (t + STALENESS_TIMEOUT_MS) else None))
    Streaming false false.

Lemma step_tick d w :
  step (LTick d) w =
    if w_exited w then None
    else if may_tick d w
         then Some (mk_world (w_now w + d) (w_state w) (w_task w) (w_cancelled w) false) else None.
Proof. done. Qed.
Lemma busy_may_tick e t m : may_tick STALENESS_TIMEOUT_MS (busy_world e t m) = true.
Proof. unfold may_tick. destruct e; cbn -[Z.add Z.leb]; by rewrite ?Z.leb_refl. Qed.

Lemma busy_rounds e n t m : m !! "a"%string = Some f1 -> exists m',
  run (concat (replicate n busy_round)) (busy_world e t m) =
    Some (busy_world e (t + Z.of_nat n * STALENESS_TIMEOUT_MS) m') /\
  m' !! "a"%string = Some f1.
Proof.
  revert t m. induction n as [|n IH]; intros t m Hm.
  - exists m. split; [|done]. cbn. by rewrite Z.add_0_r.
  - destruct (IH (t + STALENESS_TIMEOUT_MS) (<["b"%string := f1]> m)) as (m' & Hr & Hm').
    { by rewrite lookup_insert_ne. }
    exists m'. split; [|done]. cbn [replicate concat]. rewrite run_app.
    assert (run busy_round (busy_world e t m) =
      Some (busy_world e (t + STALENESS_TIMEOUT_MS) (<["b"%string := f1]> m))) as ->.
    { unfold busy_round. cbn [run]. rewrite step_tick, busy_may_tick. by destruct e. }
    cbn [mbind option_bind]. rewrite Hr. do 2 f_equal. lia.
Qed.

(** The freshness is that of the stream, not of a mint: with or without the
    staleness timer, a price of any age is served as current while prices of
    other mints come in. *)
Theorem mint_price_age_unbounded (n : nat) e :
  exists w, run (busy_run n) (world_new 0 e) = Some w /\
    w_now w = Z.of_nat n * STALENESS_TIMEOUT_MS /\ w_task w = Streaming /\
    is_connected (w_state w) = true /\ stream_get_price "a" (w_state w) = Ok f1.
Proof.
  destruct (busy_rounds e n 0 (<["a"%string := f1]> ∅)) as (m' & Hr & Hm').
  { by rewrite lookup_insert_eq. }
  exists (busy_world e (0 + Z.of_nat n * STALENESS_TIMEOUT_MS) m'). split.
  2: { split_and!; [done..|]. unfold stream_get_price, busy_world. cbn [prices w_state].
    by rewrite Hm'. }
  unfold busy_run. rewrite run_app.
  assert (run [LLoop; LConnect None; deliver "a" f1] (world_new 0 e) =
    Some (busy_world e 0 (<["a"%string := f1]> ∅))) as -> by (by destruct e). exact Hr.
Qed.

(** A shutdown ends the task but leaves the flag set and the staleness timer
    running: readers keep getting the frozen prices instead of HTTP replies,
    and a process that is still draining is exited with status 1 when the timer
    fires. *)
Theorem shutdown_keeps_timer_running w dl :
  w_exited w = false -> w_task w = Streaming -> is_connected (w_state w) = true ->
  staleness_timer (w_state w) = Some dl -> w_now w <= dl ->
  exists w1 w2, run [LShutdown; LCancelled] w = Some w1 /\
    w_task w1 = Stopped /\ w_state w1 = w_state w /\ is_connected (w_state w1) = true /\
    (forall d, dl < w_now w1 + d -> step (LTick d) w1 = None) /\
    run [LTick (dl - w_now w); LStale] w1 = Some w2 /\ w_exited w2 = true.
Proof.
  destruct w as [now s t c x]. cbn [w_exited w_task w_state w_now]. intros -> -> Hc Ht Hd.
  eexists (mk_world now s Stopped true false), (mk_world (now + (dl - now)) s Stopped true true).
  split; [done|]. split_and!; try done.
  - cbn [w_now]. intros d Hlt. rewrite step_tick. unfold may_tick. cbn -[Z.leb Z.add]. rewrite Ht.
    destruct (Z.leb_spec (now + d) dl); [lia|]. by rewrite andb_false_r.
  - cbn [run]. rewrite step_tick. unfold may_tick. cbn -[Z.leb Z.add Z.sub step]. rewrite Ht.
    replace (now + (dl - now)) with dl by lia. rewrite Z.leb_refl.
    destruct (Z.leb_spec 0 (dl - now)) as [|Hneg]; [|exfalso; lia]. cbn -[Z.leb]. by rewrite Ht, Z.leb_refl.
Qed.

Module PriceClientWitness.
Local Open Scope string_scope.

#[export] Instance tokens1 : TokenMap := {|
  Chain := unit; USDC_TICKER := "USDC"; USD_TICKER := "USD";
  get_ticker m _ := if bool_decide (m = "0xa") then Some "WETH" else Some "USDC";
  get_decimals _ _ := Some 18; all_tokens := [("0xa", tt); ("0xb", tt)]; usdc_decimals := Some 6;
  weth_addr := "0xa"; weth_chain := tt |}.
Definition client1 : PriceReporterClient := mk_client "http://pr" (Some ("ws://pr", ["0xa"], true)).
Definition no_http (_ : string) : res string Response := Err "down".
Definition no_float (_ : string) : option f64 := None.
Definition trace1 : list label :=
  [LLoop; LConnect (Some (PRHttp "refused")); LTick 2000; LWake; LLoop; LConnect None;
   LItem WsOther; LItem (WsText (Some (mk_message (construct_price_topic "renegade" "0xa") f2)))].
Definition world1 : world :=
  mk_world 2000 (mk_state {["0xa" := f2]} true true (Some 62000)) Streaming false false.

Lemma get_price_spec_witness :
  get_price "renegade" no_http no_float client1 (Some (w_state world1)) "0xA" tt = Ok f2.
Proof. rewrite (get_price_spec _ _ _ _ 0 true trace1 world1); reflexivity. Defined.

Lemma stream_prices_fresh_witness : exists ls1 l ls2 w1,
  trace1 = (ls1 ++ l :: ls2)%list /\ run ls1 (world_new 0 true) = Some w1 /\ is_Some (delivered l) /\
  2000 <= w_now w1 + 60000.
Proof. apply (stream_prices_fresh 0 trace1 world1 "0xa" f2); reflexivity. Defined.

Lemma topic_roundtrip_witness : get_base_mint_from_topic "renegade-0xab" = Ok "0xab".
Proof. apply (topic_roundtrip "renegade" "0xab"); reflexivity. Defined.

Lemma shutdown_keeps_timer_running_witness : exists w1 w2,
  run [LShutdown; LCancelled] world1 = Some w1 /\ w_task w1 = Stopped /\ w_state w1 = w_state world1 /\
  is_connected (w_state w1) = true /\ (forall d, 62000 < w_now w1 + d -> step (LTick d) w1 = None) /\
  run [LTick (62000 - w_now world1); LStale] w1 = Some w2 /\ w_exited w2 = true.
Proof. apply (shutdown_keeps_timer_running world1 62000); try reflexivity. vm_compute. discriminate. Defined.
End PriceClientWitness.
