(* ===== verification/GasSponsorship.v ===== *)
(** * Gas sponsorship of external matches (auth server)

    The refund attached to a quote and to a match bundle: its computation
    (gas_sponsorship/, gas_estimation/), its effect on quotes, orders and
    bundles (refund_calculation.rs), and its life from the quote request to the
    assembly of the quote (api_handlers/external_match/).  Fixed-point numbers,
    decimals, addresses as text, the price reporter, the sponsorship cache in
    Redis and the ABI codec are parameters. *)
From Stdlib Require Import ZArith Lia Ascii.
From stdpp Require Import gmap strings list.
From S2P Require Import Prelude F64 AuthError PriceClient.
Local Open Scope Z_scope.

(** The fixed-point numbers of renegade_circuit_types. *)
Class FixedPointOps := {
  fp : Type;
  fp_zero : fp;
  fp_one : fp;
  fp_add : fp -> fp -> fp;
  fp_sub : fp -> fp -> fp;
  fp_eqb : fp -> fp -> bool;
  fp_geb : fp -> fp -> bool;
  from_f64_round_down : f64 -> fp;
  from_integer_ratio : Z -> Z -> fp;
  (** [scalar_to_u128(&(x * n).floor())] *)
  fp_mul_floor : fp -> Z -> Z;
  floor_div_int : fp -> Z -> Z;
}.

(** The text form of addresses: [format!("{:#x}")] and [parse]. *)
Class AddressText := {
  format_address : Address -> string;
  parse_address : string -> option Address;
  parse_format a : parse_address (format_address a) = Some a;
}.

(** ** auth-server-api/src/lib.rs *)
Record GasSponsorshipInfo := mk_info {
  refund_amount : Z;
  refund_native_eth : bool;
  refund_address : option string;
}.

Record GasSponsorshipQueryParams := mk_params {
  q_use_gas_sponsorship : option bool;
  q_disable_gas_sponsorship : option bool;
  q_refund_address : option string;
  q_refund_native_eth : option bool;
}.

Definition ADDRESS_ZERO : Address := 0.

Section Info.
Context `{AT : AddressText}.

Definition info_new (amount : Z) (native : bool) (address : Address)
    : res string GasSponsorshipInfo :=
  amount ← ok_or (try_into_u 128 amount) "FromUintError"%string;
  let address :=
    if address =? ADDRESS_ZERO then None else Some (format_address address) in
  Ok (mk_info amount native address).

Definition info_zero : GasSponsorshipInfo := mk_info 0 false None.

Definition requires_match_result_update (i : GasSponsorshipInfo) : bool :=
  negb (refund_native_eth i) && (refund_amount i >? 0).

Definition get_refund_amount (i : GasSponsorshipInfo) : Z := refund_amount i.

Definition address_or_zero (o : option string) : Address :=
  match o with
  | Some s => default ADDRESS_ZERO (parse_address s)
  | None => ADDRESS_ZERO
  end.
Definition get_refund_address (i : GasSponsorshipInfo) : Address :=
  address_or_zero (refund_address i).
Definition params_refund_address (p : GasSponsorshipQueryParams) : Address :=
  address_or_zero (q_refund_address p).

Definition get_or_default (p : GasSponsorshipQueryParams) : bool * Address * bool :=
  (default false (q_disable_gas_sponsorship p), params_refund_address p,
   default false (q_refund_native_eth p)).
End Info.

(** ** Orders, quotes and bundles: the fields the auth server reads or writes *)
Record ExternalOrder := mk_order {
  o_input_mint : Address;
  o_output_mint : Address;
  o_input_amount : Z;
  o_output_amount : Z;
  use_exact_output_amount : bool;
  min_fill_size : Z;
}.

Section Types.
Context `{FP : FixedPointOps}.

Record ApiTimestampedPriceFp := mk_price_fp { price_fp_price : fp; price_fp_timestamp : Z }.
Record ApiTimestampedPrice := mk_price { price_price : f64; price_timestamp : Z }.
Record ApiExternalMatchResult := mk_match {
  m_input_mint : Address;
  m_output_mint : Address;
  m_input_amount : Z;
  m_output_amount : Z;
  m_price_fp : ApiTimestampedPriceFp;
}.
Record AssetTransfer := mk_transfer { t_mint : Address; t_amount : Z }.
Record ApiExternalQuote := mk_quote {
  q_order : ExternalOrder;
  q_match_result : ApiExternalMatchResult;
  q_send : AssetTransfer;
  q_receive : AssetTransfer;
  q_price : ApiTimestampedPrice;
  q_timestamp : Z;
}.
Record ApiSignedQuote := mk_signed { s_quote : ApiExternalQuote; s_signature : string }.

Record SponsoredQuoteResponse := mk_sponsored_quote {
  sq_signed_quote : ApiSignedQuote;
  sq_info : option GasSponsorshipInfo;
}.
(** gas_sponsorship/mod.rs *)
Record CachedSponsorshipInfo := mk_cached {
  c_info : GasSponsorshipInfo;
  c_original_price : f64;
  c_original_price_fp : ApiTimestampedPriceFp;
}.
(** A bundle: what the darkpool calldata of its settlement transaction
    carries is read through the ABI codec. *)
Record MatchBundle := mk_bundle {
  b_match_input_mint : Address;
  b_match_output_mint : Address;
  b_price_fp : fp;
  b_max_receive : AssetTransfer;
  b_min_receive : AssetTransfer;
  b_max_send : AssetTransfer;
  b_min_send : AssetTransfer;
  b_tx_to : option Address;        (* [None] when the transaction calls nothing *)
  b_tx_input : option string;
}.
Record SponsoredMatchResponse := mk_sponsored_match {
  sm_bundle : MatchBundle;
  sm_info : option GasSponsorshipInfo;
}.

(** Assignments to a field. *)
Definition set_output_amount (v : Z) (o : ExternalOrder) : ExternalOrder :=
  let 'mk_order im om ia _ e f := o in mk_order im om ia v e f.
Definition set_match_output (v : Z) (m : ApiExternalMatchResult) : ApiExternalMatchResult :=
  let 'mk_match im om ia _ p := m in mk_match im om ia v p.
Definition set_match_price_fp (p : ApiTimestampedPriceFp) (m : ApiExternalMatchResult)
    : ApiExternalMatchResult :=
  let 'mk_match im om ia oa _ := m in mk_match im om ia oa p.
Definition set_receive_and_price (price : fp) (max min : AssetTransfer) (b : MatchBundle)
    : MatchBundle :=
  let 'mk_bundle im om _ _ _ maxs mins to inp := b in mk_bundle im om price max min maxs mins to inp.
Definition set_tx (to : Address) (input : string) (b : MatchBundle) : MatchBundle :=
  let 'mk_bundle im om p maxr minr maxs mins _ _ := b in
  mk_bundle im om p maxr minr maxs mins (Some to) (Some input).
Definition set_amount (v : Z) (t : AssetTransfer) : AssetTransfer := mk_transfer (t_mint t) v.
Definition with_order (o : ExternalOrder) (q : ApiExternalQuote) : ApiExternalQuote :=
  let 'mk_quote _ m s r p t := q in mk_quote o m s r p t.
Definition with_match (m : ApiExternalMatchResult) (q : ApiExternalQuote) : ApiExternalQuote :=
  let 'mk_quote o _ s r p t := q in mk_quote o m s r p t.
Definition with_receive (r : AssetTransfer) (q : ApiExternalQuote) : ApiExternalQuote :=
  let 'mk_quote o m s _ p t := q in mk_quote o m s r p t.
Definition with_price (v : f64) (q : ApiExternalQuote) : ApiExternalQuote :=
  let 'mk_quote o m s r p t := q in mk_quote o m s r (mk_price v (price_timestamp p)) t.

(** ** refund_calculation.rs *)
Definition requires_exact_output_amount_update (o : ExternalOrder) (i : GasSponsorshipInfo)
    : bool := use_exact_output_amount o && requires_match_result_update i.

Definition apply_gas_sponsorship_to_exact_output_amount (o : ExternalOrder)
    (i : GasSponsorshipInfo) : res AuthServerError ExternalOrder :=
  if negb (use_exact_output_amount o)
  then Err (Custom "order does not use exact output amount")
  else Ok (set_output_amount (usub 128 (o_output_amount o) (refund_amount i)) o).

Definition remove_gas_sponsorship_from_exact_output_amount (o : ExternalOrder)
    (i : GasSponsorshipInfo) : res AuthServerError ExternalOrder :=
  if negb (use_exact_output_amount o)
  then Err (Custom "order does not use exact output amount")
  else Ok (set_output_amount (uadd 128 (o_output_amount o) (refund_amount i)) o).

Definition apply_gas_sponsorship_to_quote (q : ApiExternalQuote) (i : GasSponsorshipInfo)
    : res AuthServerError (f64 * ApiExternalQuote) :=
  let original_price := price_price (q_price q) in
  let m := q_match_result q in
  let m := set_match_output (uadd 128 (m_output_amount m) (refund_amount i)) m in
  let price := fdiv (of_Z (m_output_amount m)) (of_Z (m_input_amount m)) in
  if m_input_amount m =? 0
  then Err (GasSponsorship "cannot update sponsored quote price_fp: input_amount is zero")
  else
    let fp' := mk_price_fp (from_integer_ratio (m_output_amount m) (m_input_amount m))
                 (price_fp_timestamp (m_price_fp m)) in
    let q := with_price price (with_match (set_match_price_fp fp' m) q) in
    let q := with_receive
               (set_amount (uadd 128 (t_amount (q_receive q)) (refund_amount i)) (q_receive q)) q in
    order ← (if requires_exact_output_amount_update (q_order q) i
             then remove_gas_sponsorship_from_exact_output_amount (q_order q) i
             else Ok (q_order q));
    Ok (original_price, with_order order q).

Definition remove_gas_sponsorship_from_quote (q : ApiExternalQuote) (c : CachedSponsorshipInfo)
    : res AuthServerError ApiExternalQuote :=
  let i := c_info c in
  let m := q_match_result q in
  let m := set_match_output (usub 128 (m_output_amount m) (refund_amount i)) m in
  let q := with_receive
             (set_amount (usub 128 (t_amount (q_receive q)) (refund_amount i)) (q_receive q))
             (with_match m q) in
  let q := with_price (c_original_price c) q in
  let q := with_match (set_match_price_fp (c_original_price_fp c) (q_match_result q)) q in
  order ← (if requires_exact_output_amount_update (q_order q) i
           then apply_gas_sponsorship_to_exact_output_amount (q_order q) i
           else Ok (q_order q));
  Ok (with_order order q).

(** The [sponsorExternalMatch] and [settleExternalMatch] calls of the darkpool
    ABI: the amount the external party pays, and the rest of the call. *)
Context (call_rest : Type).
Record SettleCall := mk_settle { sc_amount_in : Z; sc_rest : call_rest }.
Record GasSponsorOptions := mk_options {
  go_refund_address : Address;
  go_refund_amount : Z;
  go_refund_native_eth : bool;
  go_nonce : Z;
  go_signature : string;
}.
Context (decode_settle : string -> option SettleCall).
Context (encode_sponsor : SettleCall -> GasSponsorOptions -> string).
Context (decode_sponsor : string -> option SettleCall).

Definition apply_gas_sponsorship_to_match_bundle (b : MatchBundle) (refund : Z)
    : res AuthServerError MatchBundle :=
  let max := set_amount (uadd 128 (t_amount (b_max_receive b)) refund) (b_max_receive b) in
  let min := set_amount (uadd 128 (t_amount (b_min_receive b)) refund) (b_min_receive b) in
  let calldata := default ""%string (b_tx_input b) in
  tx ← ok_or (decode_sponsor calldata) (GasSponsorship "abi");
  (** [U256::to::<u128>] panics when the value does not fit. *)
  amount_in ← unwrap (try_into_u 128 (sc_amount_in tx));
  if amount_in =? 0
  then Err (GasSponsorship
         "cannot update sponsored match bundle price_fp: externalPartyAmountIn is zero")
  else
    let price_delta := from_integer_ratio refund amount_in in
    Ok (set_receive_and_price (fp_add (b_price_fp b) price_delta) max min b).

(** ** contract_interaction.rs *)
Context `{AT : AddressText}.
(** ABI encoding of the tuple and the signature over its hash. *)
Context (sign_options : Address -> bool -> Z -> Z -> res AuthServerError string).

Definition get_gas_sponsor_options (nonce : Z) (i : GasSponsorshipInfo)
    : res AuthServerError GasSponsorOptions :=
  signature ← sign_options (get_refund_address i) (refund_native_eth i) (get_refund_amount i) nonce;
  Ok (mk_options (get_refund_address i) (get_refund_amount i) (refund_native_eth i) nonce signature).

Definition generate_gas_sponsor_calldata (b : MatchBundle) (i : GasSponsorshipInfo) (nonce : Z)
    : res AuthServerError string :=
  let tx_data := default ""%string (b_tx_input b) in
  tx ← ok_or (decode_settle tx_data) (Custom "abi");
  options ← get_gas_sponsor_options nonce i;
  Ok (encode_sponsor tx options).

(** ** gas_sponsorship/mod.rs *)
Definition construct_sponsored_match_response (gas_sponsor_address : Address) (b : MatchBundle)
    (i : GasSponsorshipInfo) (nonce : Z) : res AuthServerError SponsoredMatchResponse :=
  calldata ← generate_gas_sponsor_calldata b i nonce;
  let b := set_tx gas_sponsor_address calldata b in
  b ← (if requires_match_result_update i
       then apply_gas_sponsorship_to_match_bundle b (refund_amount i) else Ok b);
  Ok (mk_sponsored_match b (Some i)).

Definition construct_sponsored_quote_response (sq : ApiSignedQuote) (i : GasSponsorshipInfo)
    : res AuthServerError (SponsoredQuoteResponse * option CachedSponsorshipInfo) :=
  let q := s_quote sq in
  if requires_match_result_update i then
    let original_price_fp := m_price_fp (q_match_result q) in
    '(original_price, q') ← apply_gas_sponsorship_to_quote q i;
    Ok (mk_sponsored_quote (mk_signed q' (s_signature sq)) (Some i),
        Some (mk_cached i original_price original_price_fp))
  else Ok (mk_sponsored_quote sq (Some i), None).

(** ** external_match/match_bundle.rs and quote.rs *)

(** [generate_quote_uuid]: the first half of the hash of the signature. *)
Context (generate_quote_uuid : string -> Uuid).
(** The cache entry written after the response was built, if any. *)
Definition cache_entry (sq : SponsoredQuoteResponse) (c : option CachedSponsorshipInfo)
    : option (Uuid * CachedSponsorshipInfo) :=
  (fun c => (generate_quote_uuid (s_signature (sq_signed_quote sq)), c)) <$> c.

Definition sponsor_response (sq : ApiSignedQuote) (info : option GasSponsorshipInfo)
    : res AuthServerError (SponsoredQuoteResponse * option CachedSponsorshipInfo) :=
  match info with
  | Some i => construct_sponsored_quote_response sq i
  | None => Ok (mk_sponsored_quote sq None, None)
  end.

(** [read]: the answer of Redis.  Returns the quote and the order to send to
    the relayer, and the refund of the bundle. *)
Definition sponsor_quoted_order (read : Uuid -> res AuthServerError (option CachedSponsorshipInfo))
    (sq : ApiSignedQuote) (updated : option ExternalOrder)
    : res AuthServerError (ApiSignedQuote * option ExternalOrder * GasSponsorshipInfo) :=
  cached ←
    match read (generate_quote_uuid (s_signature sq)) with
    | Ok c => Ok c | Err _ => Ok None | Panic => Panic
    end;
  match cached with
  | Some c =>
      let i := c_info c in
      q ← (if requires_match_result_update i
           then remove_gas_sponsorship_from_quote (s_quote sq) c else Ok (s_quote sq));
      updated' ←
        match updated with
        | Some o =>
            if requires_exact_output_amount_update o i
            then o' ← apply_gas_sponsorship_to_exact_output_amount o i; Ok (Some o')
            else Ok (Some o)
        | None => Ok None
        end;
      Ok (mk_signed q (s_signature sq), updated', i)
  | None => Ok (sq, updated, info_zero)
  end.

Definition sponsor_match_response (gas_sponsor_address : Address) (b : MatchBundle)
    (info : option (GasSponsorshipInfo * Z)) : res AuthServerError SponsoredMatchResponse :=
  match info with
  | None => Ok (mk_sponsored_match b None)
  | Some (i, nonce) => construct_sponsored_match_response gas_sponsor_address b i nonce
  end.
End Types.

(** ** Eligibility and size of a refund *)
Section Generate.
Context `{FP : FixedPointOps} `{AT : AddressText}.
(** Token metadata: USDC, WETH, the native asset, decimals of USDC. *)
Context (usdc weth native : Address) (usdc_to_decimal : Z -> f64).
Context (get_protocol_fee : Address -> Address -> fp).
(** The answers of the price reporter's client: prices by mint, the price of
    ETH, and the price in dollars of an atomic unit of a token
    ([PriceClient.get_price_usd]). *)
Context `{BD : BigDecimalOps}.
Context (get_price : Address -> res AuthServerError f64).
Context (get_eth_price : res PriceReporterClientError f64).
Context (get_price_usd : Address -> res PriceReporterClientError bigdecimal).

(** helpers.rs *)
Definition pick_base_and_quote_mints (input_mint output_mint : Address)
    : res AuthServerError (Address * Address) :=
  if input_mint =? usdc then Ok (output_mint, input_mint)
  else if output_mint =? usdc then Ok (input_mint, output_mint)
  else Err (BadRequest "Either input or output mint must be USDC").

(** api_handlers/mod.rs *)
Definition fee_adjusted_output_amount (o : ExternalOrder) (relayer_fee : fp)
    : res AuthServerError Z :=
  let output_amount := o_output_amount o in
  if negb (use_exact_output_amount o) then Ok output_amount
  else
    '(base_mint, quote_mint) ← pick_base_and_quote_mints (o_input_mint o) (o_output_mint o);
    let total_fee := fp_add (get_protocol_fee base_mint quote_mint) relayer_fee in
    if fp_geb total_fee fp_one
    then Err (Custom "total fee >= 100%, cannot compute fee-adjusted amount")
    else Ok (floor_div_int (fp_sub fp_one total_fee) output_amount).

Definition get_base_and_quote_amount_with_price (o : ExternalOrder) (relayer_fee : fp)
    (price : f64) : res AuthServerError (Z * Z) :=
  let price_fp := from_f64_round_down price in
  if fp_eqb price_fp fp_zero
  then Err (Custom "price is zero (or rounds to zero), cannot compute base/quote amounts")
  else
    '(base_mint, quote_mint) ← pick_base_and_quote_mints (o_input_mint o) (o_output_mint o);
    let base_input_set := (base_mint =? o_input_mint o) && negb (o_input_amount o =? 0) in
    let base_output_set := (base_mint =? o_output_mint o) && negb (o_output_amount o =? 0) in
    let quote_input_set := (quote_mint =? o_input_mint o) && negb (o_input_amount o =? 0) in
    if base_input_set then Ok (o_input_amount o, fp_mul_floor price_fp (o_input_amount o))
    else if base_output_set then
      base_amount ← fee_adjusted_output_amount o relayer_fee;
      Ok (base_amount, fp_mul_floor price_fp base_amount)
    else if quote_input_set then
      Ok (floor_div_int price_fp (o_input_amount o), o_input_amount o)
    else
      quote_amount ← fee_adjusted_output_amount o relayer_fee;
      Ok (floor_div_int price_fp quote_amount, quote_amount).

Definition get_quote_amount (o : ExternalOrder) (relayer_fee : fp) : res AuthServerError Z :=
  '(base_mint, _) ← pick_base_and_quote_mints (o_input_mint o) (o_output_mint o);
  price ← get_price base_mint;
  '(_, quote_amount) ← get_base_and_quote_amount_with_price o relayer_fee price;
  Ok quote_amount.

(** gas_estimation/: the cost sampled last, in wei. *)
Definition ESTIMATED_L2_GAS : Z := 500000.
Record GasPriceEstimation := mk_estimation {
  gas_estimate_for_l1 : Z; l2_base_fee : Z; l1_data_fee : Z }.
Definition estimate_external_match_gas_cost (latest : Z) (sample : res string GasPriceEstimation)
    : res string Z :=
  e ← sample;
  Ok (umul 256 (uadd 256 ESTIMATED_L2_GAS (gas_estimate_for_l1 e)) (l2_base_fee e)).
(** The timer keeps the latest estimate when a sample fails. *)
Definition gas_cost_sampler_tick (latest : Z) (sample : res string GasPriceEstimation) : Z :=
  match estimate_external_match_gas_cost latest sample with Ok c => c | _ => latest end.

(** refund_calculation.rs *)
Definition ALLOY_WEI_IN_ETHER : Z := 10 ^ 18.
Definition compute_conversion_rate_for_order (o : ExternalOrder) (native_refund : bool)
    : res AuthServerError Z :=
  let native_eth_buy := o_output_mint o =? native in
  let weth_buy := o_output_mint o =? weth in
  if native_refund || native_eth_buy || weth_buy then Ok ALLOY_WEI_IN_ETHER
  else
    eth_price_f64 ← map_err PriceReporter get_eth_price;
    eth_price ← ok_or (bd_from_f64 eth_price_f64) (GasSponsorship ERR_PRICE_BIGDECIMAL_CONVERSION);
    buy_token_price ← map_err PriceReporter (get_price_usd (o_output_mint o));
    (** Dividing by zero panics. *)
    conversion_rate ← (if bd_is_zero buy_token_price then Panic
                       else Ok (bd_div eth_price buy_token_price));
    let conversion_rate_bigint := bd_round_int conversion_rate in
    if in_ub 256 conversion_rate_bigint then Ok conversion_rate_bigint
    else Err (GasSponsorship "U256").
Definition compute_refund_amount_for_order (gas_cost_estimate : Z) (o : ExternalOrder)
    (native_refund : bool) : res AuthServerError Z :=
  conversion_rate ← compute_conversion_rate_for_order o native_refund;
  Ok (umul 256 gas_cost_estimate conversion_rate / ALLOY_WEI_IN_ETHER).

(** gas_sponsorship/mod.rs *)
Context (check_gas_sponsorship_rate_limit : string -> res AuthServerError bool).
Context (min_sponsored_order_quote_amount : f64) (gas_cost_estimate : Z).

Definition generate_sponsorship_info (key_desc : string) (o : ExternalOrder)
    (p : GasSponsorshipQueryParams) : res AuthServerError GasSponsorshipInfo :=
  let '(sponsorship_disabled, address, native_refund) := get_or_default p in
  within_budget ← check_gas_sponsorship_rate_limit key_desc;
  let rate_limited := negb within_budget in
  match get_quote_amount o fp_zero with
  | Err (PriceReporter (PRStreamMissing _)) => Ok info_zero
  | Err e => Err e
  | Panic => Panic
  | Ok expected_quote_amount =>
      let order_too_small :=
        fltb (usdc_to_decimal expected_quote_amount) min_sponsored_order_quote_amount in
      if negb (negb (rate_limited || sponsorship_disabled || order_too_small)) then Ok info_zero
      else
        amount ← compute_refund_amount_for_order gas_cost_estimate o native_refund;
        map_err GasSponsorship (info_new amount native_refund address)
  end.

(** api_handlers/mod.rs: the order is changed in place. *)
Definition maybe_sponsor_order (parsed : res AuthServerError GasSponsorshipQueryParams)
    (user : string) (o : ExternalOrder) : res AuthServerError (GasSponsorshipInfo * ExternalOrder) :=
  p ← parsed;
  i ← generate_sponsorship_info user o p;
  o' ← (if requires_exact_output_amount_update o i
        then apply_gas_sponsorship_to_exact_output_amount o i else Ok o);
  Ok (i, o').

(** The two ways to assemble a bundle. *)
Inductive ExternalMatchAssemblyType :=
  | QuotedOrder (signed_quote : ApiSignedQuote) (updated_order : option ExternalOrder)
  | DirectOrder (external_order : ExternalOrder).
End Generate.

(** ** Lemmas *)
Section Lemmas.
Context `{FP : FixedPointOps}.

Definition order_wf (o : ExternalOrder) : Prop := in_u 128 (o_output_amount o).
Definition quote_wf (q : ApiExternalQuote) : Prop :=
  order_wf (q_order q) /\ in_u 128 (m_output_amount (q_match_result q)) /\
  in_u 128 (t_amount (q_receive q)).

Lemma exact_roundtrip o i o' :
  order_wf o -> remove_gas_sponsorship_from_exact_output_amount o i = Ok o' ->
  apply_gas_sponsorship_to_exact_output_amount o' i = Ok o.
Proof.
  unfold remove_gas_sponsorship_from_exact_output_amount,
    apply_gas_sponsorship_to_exact_output_amount.
  destruct o as [im om ia oa [] mf]; cbn; [|done]. intros Ho [= <-]. cbn.
  by rewrite usub_uadd.
Qed.

(** Undoing the sponsorship of a quote gives back the quote, bit for bit. *)
Lemma quote_roundtrip q i p q' :
  quote_wf q -> apply_gas_sponsorship_to_quote q i = Ok (p, q') ->
  remove_gas_sponsorship_from_quote q' (mk_cached i p (m_price_fp (q_match_result q))) = Ok q.
Proof.
  intros (Ho & Hm & Hr) H.
  destruct q as [o [im om ia oa pf] s [rm ra] [pp pt] t].
  unfold apply_gas_sponsorship_to_quote in H. cbn in *.
  destruct (ia =? 0); [done|]. apply bind_Ok_inv in H as (o' & Ho' & [= <- <-]).
  unfold remove_gas_sponsorship_from_quote. cbn.
  rewrite !usub_uadd by done. cbn.
  unfold requires_exact_output_amount_update in *.
  destruct (use_exact_output_amount o) eqn:Ex; cbn in Ho'.
  - destruct (requires_match_result_update i) eqn:Eu.
    + pose proof (exact_roundtrip o i o' Ho Ho') as Hback.
      assert (use_exact_output_amount o' = true) as ->.
      { unfold remove_gas_sponsorship_from_exact_output_amount in Ho'. rewrite Ex in Ho'.
        cbn in Ho'. injection Ho' as <-. by destruct o. }
      cbn. rewrite Hback. done.
    + injection Ho' as <-. rewrite Ex. done.
  - injection Ho' as <-. rewrite Ex. done.
Qed.

Lemma sponsor_response_signature sq i resp c :
  sponsor_response sq (Some i) = Ok (resp, c) ->
  s_signature (sq_signed_quote resp) = s_signature sq.
Proof.
  unfold sponsor_response, construct_sponsored_quote_response. destruct (requires_match_result_update i).
  - intros H. apply bind_Ok_inv in H as ([] & _ & [= <- _]). done.
  - by intros [= <- _].
Qed.

Lemma sponsor_response_cached sq i resp c :
  sponsor_response sq (Some i) = Ok (resp, Some c) ->
  requires_match_result_update i = true /\
  exists p q', apply_gas_sponsorship_to_quote (s_quote sq) i = Ok (p, q') /\
    resp = mk_sponsored_quote (mk_signed q' (s_signature sq)) (Some i) /\
    c = mk_cached i p (m_price_fp (q_match_result (s_quote sq))).
Proof.
  unfold sponsor_response, construct_sponsored_quote_response.
  destruct (requires_match_result_update i); [|done].
  intros H. apply bind_Ok_inv in H as ([p q'] & H & [= <- <-]). eauto 10.
Qed.

Lemma apply_quote_receive q i p q' :
  apply_gas_sponsorship_to_quote q i = Ok (p, q') ->
  t_amount (q_receive q') = uadd 128 (t_amount (q_receive q)) (refund_amount i).
Proof.
  destruct q as [o [im om ia oa pf] s [rm ra] [pp pt] t].
  unfold apply_gas_sponsorship_to_quote. cbn. destruct (ia =? 0); [done|].
  intros H. apply bind_Ok_inv in H as (o' & _ & [= _ <-]). done.
Qed.

Lemma uadd_changes w a b : 0 < b < 2 ^ w -> in_u w a -> uadd w a b <> a.
Proof.
  intros Hb Ha Heq. unfold uadd, uwrap, in_u in *.
  destruct (Z.ltb_spec (a + b) (2 ^ w)).
  - rewrite Z.mod_small in Heq by lia. lia.
  - replace ((a + b) mod 2 ^ w) with (a + b - 2 ^ w) in Heq; [lia|].
    apply Z.mod_unique with 1; lia.
Qed.

Lemma requires_update_pos i : requires_match_result_update i = true -> 0 < refund_amount i.
Proof.
  unfold requires_match_result_update. intros [_ H]%andb_true_iff. by apply Z.gtb_lt in H.
Qed.
(** With its entry at hand, a sponsored quote is restored. *)
Lemma quote_restored uuid sq i resp c read :
  quote_wf (s_quote sq) ->
  sponsor_response sq (Some i) = Ok (resp, Some c) ->
  read (uuid (s_signature sq)) = Ok (Some c) ->
  sponsor_quoted_order uuid read (sq_signed_quote resp) None = Ok (sq, None, i) /\
  sq_info resp = Some i.
Proof.
  intros Hwf Hs Hread.
  destruct (sponsor_response_cached _ _ _ _ Hs) as (Hu & p & q' & Ha & -> & ->).
  split; [|done]. unfold sponsor_quoted_order. cbn. rewrite Hread. cbn. rewrite Hu.
  rewrite (quote_roundtrip _ _ _ _ Hwf Ha). cbn. by destruct sq.
Qed.
(** A sponsored bundle goes to the gas sponsor with the relayer's call and the
    refund and nonce of the sponsorship. *)
Lemma sponsored_match_tx `{AT : AddressText} call_rest decode_settle encode_sponsor decode_sponsor sign
    sponsor b i nonce sp :
  sponsor_match_response call_rest decode_settle encode_sponsor decode_sponsor sign sponsor b
    (Some (i, nonce)) = Ok sp ->
  exists call opts, decode_settle (default ""%string (b_tx_input b)) = Some call /\
    b_tx_to (sm_bundle sp) = Some sponsor /\
    b_tx_input (sm_bundle sp) = Some (encode_sponsor call opts) /\
    go_nonce opts = nonce /\ go_refund_amount opts = refund_amount i.
Proof.
  unfold sponsor_match_response, construct_sponsored_match_response, generate_gas_sponsor_calldata,
    get_gas_sponsor_options. destruct b as [im om p maxr minr maxs mins to inp]. intros Hs.
  apply bind_Ok_inv in Hs as (calldata & Hc & Hs). cbn in Hc.
  destruct (decode_settle _) as [call|] eqn:Ed; [|discriminate Hc]. cbn in Hc.
  apply bind_Ok_inv in Hc as (opts & Ho & [= <-]). apply bind_Ok_inv in Ho as (sig & _ & [= <-]).
  apply bind_Ok_inv in Hs as (b' & Hb & [= <-]). cbn in Ed |- *.
  eexists call, _. split; [done|]. cut (b_tx_to b' = Some sponsor /\
    b_tx_input b' = Some (encode_sponsor call (mk_options (get_refund_address i) (get_refund_amount i)
      (refund_native_eth i) nonce sig))); [intros [-> ->]; done|].
  destruct (requires_match_result_update i); [|by injection Hb as <-].
  unfold apply_gas_sponsorship_to_match_bundle in Hb. apply bind_Ok_inv in Hb as (tx & _ & Hb).
  apply bind_Ok_inv in Hb as (amt & _ & Hb). case_match; [discriminate Hb|]. by injection Hb as <-.
Qed.

(** What becomes of an order for an exact output. *)
Lemma maybe_sponsor_exact `{AT : AddressText} `{BD : BigDecimalOps} usdc weth native dec pfee price eth usd check min gas
    parsed user o i o' :
  maybe_sponsor_order usdc weth native dec pfee price eth usd check min gas parsed user o = Ok (i, o') ->
  use_exact_output_amount o = true -> requires_match_result_update i = true ->
  o' = set_output_amount (usub 128 (o_output_amount o) (refund_amount i)) o.
Proof.
  unfold maybe_sponsor_order. intros H He Hu. apply bind_Ok_inv in H as (p & _ & H).
  apply bind_Ok_inv in H as (i' & _ & H). apply bind_Ok_inv in H as (o1 & Ho1 & [= -> <-]).
  unfold requires_exact_output_amount_update, apply_gas_sponsorship_to_exact_output_amount in Ho1.
  rewrite He, Hu in Ho1. by injection Ho1 as <-.
Qed.
End Lemmas.

(** ** Theorems *)

(** A sponsored quote that is assembled while its cache entry is there is
    restored to exactly what the relayer signed: adding the refund to the
    quote and removing it at assembly is the identity, wrap-around included,
    and the bundle gets the refund that was quoted. *)
Theorem quote_restored_for_assembly `{FP : FixedPointOps} uuid sq i resp c read :
  quote_wf (s_quote sq) ->
  sponsor_response sq (Some i) = Ok (resp, Some c) ->
  read (uuid (s_signature sq)) = Ok (Some c) ->
  sponsor_quoted_order uuid read (sq_signed_quote resp) None = Ok (sq, None, i) /\
  sq_info resp = Some i.
Proof. apply quote_restored. Qed.

(** The refund of a sponsored quote is lost when its cache entry is missing,
    because the write that follows the response has not happened or failed,
    because it expired, or because the read fails: the quote goes to the relayer with
    amounts other than those it signed, and the bundle gets no refund. *)
Theorem quote_not_restored_without_cache `{FP : FixedPointOps} uuid sq i resp c read upd :
  quote_wf (s_quote sq) -> refund_amount i < 2 ^ 128 ->
  sponsor_response sq (Some i) = Ok (resp, Some c) ->
  (read (uuid (s_signature sq)) = Ok None \/ exists e, read (uuid (s_signature sq)) = Err e) ->
  sponsor_quoted_order uuid read (sq_signed_quote resp) upd
    = Ok (sq_signed_quote resp, upd, info_zero) /\
  sq_signed_quote resp <> sq.
Proof.
  intros (_ & _ & Hr) Hi Hs Hread.
  destruct (sponsor_response_cached _ _ _ _ Hs) as (Hu & p & q' & Ha & -> & ->). split.
  - unfold sponsor_quoted_order. cbn. by destruct Hread as [-> | [e ->]].
  - cbn. intros Heq. apply (f_equal (fun s => t_amount (q_receive (s_quote s)))) in Heq.
    cbn in Heq. rewrite (apply_quote_receive _ _ _ _ Ha) in Heq. revert Heq.
    apply uadd_changes; [|done]. split; [by apply requires_update_pos|done].
Qed.

(** A refund in native ETH is never cached, so the bundle assembled from the
    quote gets no refund although the quote promised one. *)
Theorem native_refund_dropped_at_assembly `{FP : FixedPointOps} uuid sq i upd read :
  refund_native_eth i = true -> 0 < refund_amount i ->
  (forall k, read k = Ok None) ->
  exists resp,
    sponsor_response sq (Some i) = Ok (resp, None) /\ sq_info resp = Some i /\
    sponsor_quoted_order uuid read (sq_signed_quote resp) upd = Ok (sq, upd, info_zero) /\
    refund_amount info_zero < refund_amount i.
Proof.
  intros Hn Ha Hread. exists (mk_sponsored_quote sq (Some i)).
  unfold sponsor_response, construct_sponsored_quote_response, requires_match_result_update.
  rewrite Hn. cbn. split_and!; try done. unfold sponsor_quoted_order. by rewrite Hread.
Qed.

(** An order for an exact output is sent to the relayer reduced by the refund,
    so that the output plus the refund is what was asked for; when the refund
    exceeds the output the unchecked subtraction wraps around and the order
    asks for more than [2^127]. *)
Theorem exact_output_after_sponsorship `{FP : FixedPointOps} `{AT : AddressText} `{BD : BigDecimalOps}
    usdc weth native dec pfee price eth usd check min gas parsed user o i o' :
  order_wf o -> use_exact_output_amount o = true -> requires_match_result_update i = true ->
  refund_amount i < 2 ^ 127 ->
  maybe_sponsor_order usdc weth native dec pfee price eth usd check min gas parsed user o = Ok (i, o') ->
  if refund_amount i <=? o_output_amount o
  then o_output_amount o' + refund_amount i = o_output_amount o
  else 2 ^ 127 < o_output_amount o'.
Proof.
  intros Ho He Hu Hi H. pose proof (requires_update_pos _ Hu).
  rewrite (maybe_sponsor_exact _ _ _ _ _ _ _ _ _ _ _ _ _ _ _ _ H He Hu).
  destruct o as [im om ia oa e mf]. unfold order_wf, in_u in Ho. cbn in *. unfold usub, uwrap.
  destruct (Z.leb_spec (refund_amount i) oa).
  - rewrite Z.mod_small; lia.
  - replace ((oa - refund_amount i) mod 2 ^ 128) with (oa - refund_amount i + 2 ^ 128); [lia|].
    apply Z.mod_unique with (-1); lia.
Qed.

(** The units of the refund asset per ETH: ETH and WETH themselves count one to
    one; otherwise the price of ETH over the price of an atomic unit of the
    token bought, rounded to an integer. *)
Definition units_per_eth `{BD : BigDecimalOps} (weth native : Address)
    (eth : res PriceReporterClientError f64)
    (usd : Address -> res PriceReporterClientError bigdecimal) (buy : Address) (in_eth : bool) (r : Z)
    : Prop :=
  (in_eth = true \/ buy = native \/ buy = weth) /\ r = 10 ^ 18 \/
  (in_eth = false /\ buy <> native /\ buy <> weth /\
   exists p e u, eth = Ok p /\ bd_from_f64 p = Some e /\ usd buy = Ok u /\ bd_is_zero u = false /\
     r = bd_round_int (bd_div e u) /\ 0 <= r < 2 ^ 256).

Lemma conversion_rate_spec `{BD : BigDecimalOps} weth native eth usd o in_eth r :
  compute_conversion_rate_for_order weth native eth usd o in_eth = Ok r <->
  units_per_eth weth native eth usd (o_output_mint o) in_eth r.
Proof.
  unfold compute_conversion_rate_for_order, units_per_eth, ALLOY_WEI_IN_ETHER.
   set (buy := o_output_mint o). destruct (in_eth || _ || _) eqn:E.
  { assert (in_eth = true \/ buy = native \/ buy = weth) as Hd.
    { apply orb_true_iff in E as [[E|E%Z.eqb_eq]%orb_true_iff|E%Z.eqb_eq]; auto. }
    split; [intros H; left; split; [exact Hd|congruence]|].
    intros [[_ ->]|(Hf & H1 & H2 & _)]; [reflexivity|].
    destruct Hd as [?|[?|?]]; [congruence|by destruct H1|by destruct H2]. }
  apply orb_false_iff in E as [[-> E1%Z.eqb_neq]%orb_false_iff E2%Z.eqb_neq].
  set (rate := _ ≫= _). split.
  - intros H. right. unfold rate in H. clear rate.
    apply bind_Ok_inv in H as (p & Hp%map_err_Ok & H).
    apply bind_Ok_inv in H as (e & He & H). apply bind_Ok_inv in H as (u & Hu%map_err_Ok & H).
    destruct (bd_from_f64 p) eqn:Ep; [injection He as ->|discriminate He].
    destruct (bd_is_zero u) eqn:Ez; [discriminate H|]. cbn in H.
    destruct (in_ub 256 _) eqn:Et; [|discriminate H]. injection H as <-.
    apply in_ub_spec in Et. eauto 15.
  - intros [[[?|[?|?]] _]|(_ & _ & _ & p & e & u & -> & He & Hu & Hz & -> & Hr)]; [done..|].
    unfold rate. cbn. rewrite He. cbn. fold buy. rewrite Hu. cbn. rewrite Hz. cbn.
    by rewrite (proj2 (in_ub_spec 256 _) Hr).
Qed.


(** The bundle of a sponsored match goes through the gas sponsor with the
    call the relayer built and options that carry the refund of the response;
    an in-kind refund is added to both ends of the receive range and to the
    price, a refund in native ETH leaves them. *)
Theorem sponsored_bundle_spec `{FP : FixedPointOps} `{AT : AddressText} call_rest
    decode_settle encode_sponsor decode_sponsor sign sponsor b i nonce call sig :
  (forall c o, decode_sponsor (encode_sponsor c o) = Some c) ->
  decode_settle (default ""%string (b_tx_input b)) = Some call ->
  0 < sc_amount_in call_rest call < 2 ^ 128 ->
  sign (get_refund_address i) (refund_native_eth i) (refund_amount i) nonce = Ok sig ->
  let opts := mk_options (get_refund_address i) (refund_amount i) (refund_native_eth i) nonce sig in
  let calldata := encode_sponsor call opts in
  exists b', sponsor_match_response call_rest decode_settle encode_sponsor decode_sponsor sign
      sponsor b (Some (i, nonce)) = Ok (mk_sponsored_match b' (Some i)) /\
    b_tx_to b' = Some sponsor /\ b_tx_input b' = Some calldata /\
    if requires_match_result_update i
    then t_amount (b_max_receive b') = uadd 128 (t_amount (b_max_receive b)) (refund_amount i) /\
         t_amount (b_min_receive b') = uadd 128 (t_amount (b_min_receive b)) (refund_amount i) /\
         b_price_fp b' = fp_add (b_price_fp b)
                           (from_integer_ratio (refund_amount i) (sc_amount_in call_rest call))
    else b_max_receive b' = b_max_receive b /\ b_min_receive b' = b_min_receive b /\
         b_price_fp b' = b_price_fp b.
Proof.
  intros Hcodec Hdec Hamt Hsig. destruct b as [im om p maxr minr maxs mins to inp]. cbn zeta.
  unfold sponsor_match_response, construct_sponsored_match_response,
    generate_gas_sponsor_calldata, get_gas_sponsor_options. rewrite Hdec. cbn [ok_or mbind res_bind].
  unfold get_refund_amount. rewrite Hsig. cbn [mbind res_bind].
  destruct (requires_match_result_update i).
  - unfold apply_gas_sponsorship_to_match_bundle. cbn [b_tx_input default]. cbn.
    rewrite Hcodec. cbn [ok_or mbind res_bind].
    assert (try_into_u 128 (sc_amount_in call_rest call) = Some (sc_amount_in call_rest call))
      as Ht by (apply try_into_u_Some; split; [done|lia]).
    rewrite Ht. cbn [unwrap mbind res_bind].
    destruct (Z.eqb_spec (sc_amount_in call_rest call) 0); [lia|]. cbn. eauto 10.
  - cbn. eauto 10.
Qed.

(** ** Witnesses *)
Module SponsorshipWitness.
(** Fixed-point numbers with 63 fractional bits. *)
Definition SCALE : Z := 2 ^ 63.
#[local] Instance fp63 : FixedPointOps := {|
  fp := Z; fp_zero := 0; fp_one := SCALE; fp_add := Z.add; fp_sub := Z.sub;
  fp_eqb := Z.eqb; fp_geb := Z.geb;
  from_f64_round_down x := to_uint 128 (fmul x (of_Z SCALE));
  from_integer_ratio a b := a * SCALE / b;
  fp_mul_floor x n := x * n / SCALE;
  floor_div_int x n := n * SCALE / x;
|}.

(** Decimals that are doubles. *)
#[local] Instance f64_prices : BigDecimalOps := {|
  bigdecimal := f64; bd_from_f64 f := if is_finite f then Some f else None; bd_from_int := of_Z;
  bd_mul := fmul; bd_div := fdiv; bd_to_f64 := Some; bd_is_zero f := feqb f f0;
  bd_round_int := to_uint 256 |}.

(** Addresses in binary. *)
Fixpoint format_pos (p : positive) : string :=
  match p with
  | xH => "h" | xO p => String "0"%char (format_pos p) | xI p => String "1"%char (format_pos p)
  end.
Fixpoint parse_pos (s : string) : option positive :=
  match s with
  | String c r =>
      if Ascii.eqb c "h"%char then Some xH
      else if Ascii.eqb c "0"%char then xO <$> parse_pos r else xI <$> parse_pos r
  | EmptyString => None
  end.
Definition format_z (z : Z) : string :=
  match z with Z0 => "z" | Zpos p => String "p"%char (format_pos p) | Zneg p => String "n"%char (format_pos p) end.
Definition parse_z (s : string) : option Z :=
  match s with
  | String c r =>
      if Ascii.eqb c "z"%char then Some 0
      else if Ascii.eqb c "p"%char then Zpos <$> parse_pos r else Zneg <$> parse_pos r
  | EmptyString => None
  end.
Lemma parse_format_pos p : parse_pos (format_pos p) = Some p.
Proof. induction p; cbn; rewrite ?IHp; done. Qed.
Lemma parse_format_z z : parse_z (format_z z) = Some z.
Proof. destruct z; cbn; rewrite ?parse_format_pos; done. Qed.
#[local] Instance binary_text : AddressText := {|
  format_address := format_z; parse_address := parse_z; parse_format := parse_format_z |}.

Definition order1 : ExternalOrder := mk_order 7 1 0 1000 true 0.
Definition quote1 : ApiExternalQuote :=
  mk_quote order1 (mk_match 7 1 500 1000 (mk_price_fp (2 * SCALE) 3)) (mk_transfer 7 500)
    (mk_transfer 1 990) (mk_price f2 3) 4.
Definition signed1 : ApiSignedQuote := mk_signed quote1 "sig".
Definition info1 : GasSponsorshipInfo := mk_info 25 false None.
Definition uuid1 (_ : string) : Uuid := 42.

Definition sponsored1 := sponsor_response signed1 (Some info1).
Definition resp1 : SponsoredQuoteResponse :=
  match sponsored1 with Ok (r, _) => r | _ => mk_sponsored_quote signed1 None end.
Definition cached1 : CachedSponsorshipInfo := mk_cached info1 f2 (mk_price_fp (2 * SCALE) 3).

Lemma quote1_wf : quote_wf quote1.
Proof. repeat split; unfold in_u; cbn; lia. Qed.
Lemma sponsored1_ok : sponsor_response signed1 (Some info1) = Ok (resp1, Some cached1).
Proof. reflexivity. Qed.

Lemma quote_restored_for_assembly_witness :
  sponsor_quoted_order uuid1 (fun _ => Ok (Some cached1)) (sq_signed_quote resp1) None
    = Ok (signed1, None, info1).
Proof.
  apply (quote_restored_for_assembly uuid1 signed1 info1 resp1 cached1 (fun _ => Ok (Some cached1)));
    [apply quote1_wf|apply sponsored1_ok|reflexivity].
Defined.

Lemma quote_not_restored_without_cache_witness : sq_signed_quote resp1 <> signed1.
Proof.
  apply (quote_not_restored_without_cache uuid1 signed1 info1 resp1 cached1
    (fun _ => Err (RedisConnection "")) None);
    [apply quote1_wf|reflexivity|apply sponsored1_ok|right; eexists; reflexivity].
Defined.

Definition info_native : GasSponsorshipInfo := mk_info 25 true None.
Lemma native_refund_dropped_at_assembly_witness :
  exists resp, sponsor_response signed1 (Some info_native) = Ok (resp, None).
Proof.
  destruct (native_refund_dropped_at_assembly uuid1 signed1 info_native None (fun _ => Ok None))
    as (resp & H & _); [reflexivity|reflexivity|reflexivity|].
  exists resp. exact H.
Defined.

(** One unit of gas cost is worth 25 units of token 1; the price is 1. *)
Definition gen := maybe_sponsor_order (FP := fp63) (AT := binary_text) (BD := f64_prices) 7 8 9 of_Z
  (fun _ _ => 0) (fun _ => Ok f1) (Ok (of_Z (25 * 10 ^ 18))) (fun _ => Ok f1) (fun _ => Ok true) f1 1
  (Ok (mk_params None None None None)) "u".
Lemma exact_output_after_sponsorship_witness : 2 ^ 127 < 2 ^ 128 - 15.
Proof.
  apply (exact_output_after_sponsorship (FP := fp63) (AT := binary_text) (BD := f64_prices) 7 8 9 of_Z
    (fun _ _ => 0) (fun _ => Ok f1) (Ok (of_Z (25 * 10 ^ 18))) (fun _ => Ok f1) (fun _ => Ok true) f1 1
    (Ok (mk_params None None None None)) "u" (mk_order 7 1 0 10 true 0) info1
    (mk_order 7 1 0 (2 ^ 128 - 15) true 0));
    [split; [discriminate|reflexivity]|reflexivity|reflexivity|reflexivity|reflexivity].
Defined.


Definition bundle1 : MatchBundle :=
  mk_bundle 7 1 SCALE (mk_transfer 1 10) (mk_transfer 1 5) (mk_transfer 7 100) (mk_transfer 7 50)
    (Some 3) (Some "settle"%string).
(** A codec for calls that carry nothing but the amount. *)
Definition enc (c : SettleCall unit) (_ : GasSponsorOptions) : string := format_z (sc_amount_in unit c).
Definition dec (s : string) : option (SettleCall unit) := (fun n => mk_settle unit n tt) <$> parse_z s.
Lemma dec_enc c o : dec (enc c o) = Some c.
Proof. destruct c as [n []]. unfold dec, enc. cbn. by rewrite parse_format_z. Qed.

Lemma sponsored_bundle_spec_witness : exists b',
  sponsor_match_response unit (fun _ => Some (mk_settle unit 100 tt)) enc dec
    (fun _ _ _ _ => Ok "sig"%string) 77 bundle1 (Some (info1, 9))
    = Ok (mk_sponsored_match b' (Some info1)).
Proof.
  destruct (sponsored_bundle_spec unit (fun _ => Some (mk_settle unit 100 tt)) enc dec
    (fun _ _ _ _ => Ok "sig"%string) 77 bundle1 info1 9 (mk_settle unit 100 tt) "sig")
    as (b' & H & _); [apply dec_enc|reflexivity|split; reflexivity|reflexivity|].
  exists b'. exact H.
Defined.
End SponsorshipWitness.
