(* ===== verification/ServerCache.v ===== *)
(** * The auth server's database, caches and management handlers

    The tables are finite maps by their primary keys (the diesel schema and the
    SQL of db/queries.rs); the caches of caching.rs are finite maps in front of
    them.  A query may fail without effect ([up = false]).  The specification is
    the server without caches: the theorems say that the caches never show, for
    every sequence of requests, and give the interleaving for which they do.

    Fees are [f32] in the tables and widened to [f64]; they are modelled by the
    [f64] they widen to. *)
From Stdlib Require Import ZArith Lia.
From stdpp Require Import gmap strings list.
From S2P Require Import Prelude F64 AuthError RateLimiter.
Local Open Scope Z_scope.

#[export] Instance method_eq_dec : EqDecision RateLimitMethod.
Proof. solve_decision. Defined.
#[export] Instance method_countable : Countable RateLimitMethod.
Proof.
  refine (inj_countable' (fun m => match m with Quote => true | Assemble => false end)
    (fun b : bool => if b then Quote else Assemble) _).
  by intros [].
Defined.

(** ** db/models.rs *)
Record ApiKey := mk_key {
  key_id : Uuid;
  encrypted_key : string;
  description : string;
  created_at : Z;
  is_active : bool;
  rate_limit_whitelisted : bool;
}.
Record NewApiKey := mk_new_key { new_id : Uuid; new_encrypted_key : string; new_description : string }.

(** The row the database creates, and the entry the cache gets, differ in their
    time of creation only. *)
Definition api_key_of_new (now : Z) (k : NewApiKey) : ApiKey :=
  mk_key (new_id k) (new_encrypted_key k) (new_description k) now true false.
Definition set_active (b : bool) (k : ApiKey) : ApiKey :=
  mk_key (key_id k) (encrypted_key k) (description k) (created_at k) b (rate_limit_whitelisted k).
Definition set_whitelisted (b : bool) (k : ApiKey) : ApiKey :=
  mk_key (key_id k) (encrypted_key k) (description k) (created_at k) (is_active k) b.

Definition method_as_str (m : RateLimitMethod) : string :=
  match m with Quote => "quote" | Assemble => "assemble" end.
Definition method_from_str (s : string) : option RateLimitMethod :=
  if String.eqb s "quote" then Some Quote
  else if String.eqb s "assemble" then Some Assemble else None.

(** [u32 as i32] and [i32 as u32]. *)
Definition as_i32 (z : Z) : Z := if z <? 2 ^ 31 then z else z - 2 ^ 32.
Definition as_u32 (z : Z) : Z := z mod 2 ^ 32.

(** ** The tables *)
Record Database := mk_db {
  api_keys : gmap Uuid ApiKey;
  user_fees : gmap (Uuid * string) f64;
  asset_default_fees : gmap string f64;
  rate_limits : gmap (Uuid * RateLimitMethod) Z;
}.

(** ** caching.rs *)
Record ServerCache := mk_cache {
  api_key_cache : gmap Uuid ApiKey;
  user_fee_cache : gmap (Uuid * string) f64;
  rate_limit_cache : gmap (Uuid * RateLimitMethod) (option Z);
}.
Definition cache_new : ServerCache := mk_cache ∅ ∅ ∅.
Definition with_keys (m : gmap Uuid ApiKey) (c : ServerCache) : ServerCache :=
  mk_cache m (user_fee_cache c) (rate_limit_cache c).
Definition with_fees (m : gmap (Uuid * string) f64) (c : ServerCache) : ServerCache :=
  mk_cache (api_key_cache c) m (rate_limit_cache c).

Definition cache_get_api_key (id : Uuid) (c : ServerCache) : option ApiKey := api_key_cache c !! id.
Definition cache_api_key (k : ApiKey) (c : ServerCache) : ServerCache :=
  with_keys (<[key_id k := k]> (api_key_cache c)) c.
Definition mark_key_expired (id : Uuid) (c : ServerCache) : ServerCache :=
  match api_key_cache c !! id with
  | Some k => with_keys (<[id := set_active false k]> (api_key_cache c)) c
  | None => c
  end.
Definition clear_key (id : Uuid) (c : ServerCache) : ServerCache :=
  with_keys (delete id (api_key_cache c)) c.
Definition cache_get_user_fee (u : Uuid) (asset : string) (c : ServerCache) : option f64 :=
  user_fee_cache c !! (u, asset).
Definition cache_user_fee (u : Uuid) (asset : string) (fee : f64) (c : ServerCache) : ServerCache :=
  with_fees (<[(u, asset) := fee]> (user_fee_cache c)) c.
Definition clear_user_fee (u : Uuid) (asset : string) (c : ServerCache) : ServerCache :=
  with_fees (delete (u, asset) (user_fee_cache c)) c.
Definition clear_asset_entries (asset : string) (c : ServerCache) : ServerCache :=
  with_fees (filter (fun p => p.1.2 <> asset) (user_fee_cache c)) c.
Definition cache_get_rate_limit (id : Uuid) (m : RateLimitMethod) (c : ServerCache)
    : option (option Z) := rate_limit_cache c !! (id, m).
Definition cache_rate_limit (id : Uuid) (m : RateLimitMethod) (l : option Z) (c : ServerCache)
    : ServerCache :=
  mk_cache (api_key_cache c) (user_fee_cache c) (<[(id, m) := l]> (rate_limit_cache c)).
(** Not used by the server. *)
Definition clear_rate_limit (id : Uuid) (m : RateLimitMethod) (c : ServerCache) : ServerCache :=
  mk_cache (api_key_cache c) (user_fee_cache c) (delete (id, m) (rate_limit_cache c)).

(** ** db/queries.rs *)
Record Server := mk_server { db : Database; cache : ServerCache }.
Definition on_cache (f : ServerCache -> ServerCache) (s : Server) : Server :=
  mk_server (db s) (f (cache s)).
Definition on_keys (f : gmap Uuid ApiKey -> gmap Uuid ApiKey) (s : Server) : Server :=
  mk_server (mk_db (f (api_keys (db s))) (user_fees (db s)) (asset_default_fees (db s))
               (rate_limits (db s))) (cache s).
Definition on_user_fees (f : gmap (Uuid * string) f64 -> gmap (Uuid * string) f64) (s : Server)
    : Server :=
  mk_server (mk_db (api_keys (db s)) (f (user_fees (db s))) (asset_default_fees (db s))
               (rate_limits (db s))) (cache s).
Definition on_default_fees (f : gmap string f64 -> gmap string f64) (s : Server) : Server :=
  mk_server (mk_db (api_keys (db s)) (user_fees (db s)) (f (asset_default_fees (db s)))
               (rate_limits (db s))) (cache s).
Definition on_rate_limits (f : gmap (Uuid * RateLimitMethod) Z -> gmap (Uuid * RateLimitMethod) Z)
    (s : Server) : Server :=
  mk_server (mk_db (api_keys (db s)) (user_fees (db s)) (asset_default_fees (db s))
               (f (rate_limits (db s)))) (cache s).

Definition db_error : AuthServerError := DatabaseConnection "".
Definition ERR_NO_KEY : string := "API key not found".

(** An operation on the server. *)
Definition Op (A : Type) : Type := Server -> res AuthServerError A * Server.

(** [get_api_key_entry] up to the answer of the database: the cached entry, or
    the row. *)
Definition read_api_key (up : bool) (id : Uuid) (s : Server)
    : ApiKey + res AuthServerError ApiKey :=
  match cache_get_api_key id (cache s) with
  | Some k => inl k
  | None =>
      inr (if negb up then Err db_error
           else match api_keys (db s) !! id with
                | None => Err (Unauthorized "API key not found")
                | Some k => Ok k
                end)
  end.
(** The rest: the row is cached, then checked. *)
Definition finish_api_key (row : res AuthServerError ApiKey) : Op ApiKey := fun s =>
  match row with
  | Ok k =>
      let s := on_cache (cache_api_key k) s in
      (if negb (is_active k) then Err ApiKeyInactive else Ok k, s)
  | Err e => (Err e, s)
  | Panic => (Panic, s)
  end.
Definition get_api_key_entry (up : bool) (id : Uuid) : Op ApiKey := fun s =>
  match read_api_key up id s with
  | inl k => (Ok k, s)
  | inr row => finish_api_key row s
  end.

(** The insert fails on a duplicate id or on a duplicate encrypted key. *)
Definition key_conflict (k : NewApiKey) (m : gmap Uuid ApiKey) : bool :=
  bool_decide (is_Some (m !! new_id k)) ||
  existsb (fun p => String.eqb (encrypted_key p.2) (new_encrypted_key k)) (map_to_list m).
Definition add_key_query (up : bool) (now now' : Z) (k : NewApiKey) : Op unit := fun s =>
  if negb up || key_conflict k (api_keys (db s)) then (Err db_error, s)
  else
    let s := on_keys (<[new_id k := api_key_of_new now k]>) s in
    (Ok tt, on_cache (cache_api_key (api_key_of_new now' k)) s).

Definition expire_key_query (up : bool) (id : Uuid) : Op unit := fun s =>
  if negb up then (Err db_error, s)
  else
    let s := on_keys (alter (set_active false) id) s in
    (Ok tt, on_cache (mark_key_expired id) s).

Definition update_whitelist (b : bool) (up : bool) (id : Uuid) : Op unit := fun s =>
  if negb up then (Err db_error, s)
  else
    let num_updates := if bool_decide (is_Some (api_keys (db s) !! id)) then 1 else 0 in
    let s := on_keys (alter (set_whitelisted b) id) s in
    (if num_updates =? 0 then Err (BadRequest ERR_NO_KEY) else Ok tt, s).
Definition whitelist_api_key_query : bool -> Uuid -> Op unit := update_whitelist true.
Definition remove_whitelist_entry_query : bool -> Uuid -> Op unit := update_whitelist false.

(** 0.0001 and 0.01 as [f32]. *)
Definition DEFAULT_RELAYER_FEE : f64 := of_parts (13743895 * 2 ^ 29) (-66).
Definition MIN_FEE : f64 := f0.
Definition MAX_FEE : f64 := of_parts (10737418 * 2 ^ 29) (-59).

(** The COALESCE of the query. *)
Definition effective_fee (d : Database) (u : Uuid) (asset : string) : f64 :=
  match user_fees d !! (u, asset) with
  | Some fee => fee
  | None => default DEFAULT_RELAYER_FEE (asset_default_fees d !! asset)
  end.
Definition get_user_fee (up : bool) (u : Uuid) (asset : string) : Op f64 := fun s =>
  match cache_get_user_fee u asset (cache s) with
  | Some fee => (Ok fee, s)
  | None =>
      if negb up then (Err db_error, s)
      else
        let fee := effective_fee (db s) u asset in
        (Ok fee, on_cache (cache_user_fee u asset fee) s)
  end.

(** The upsert fails when the user is not a known key (foreign key). *)
Definition set_user_fee_query (up : bool) (u : Uuid) (asset : string) (fee : f64) : Op unit :=
  fun s =>
    if negb up || negb (bool_decide (is_Some (api_keys (db s) !! u))) then (Err db_error, s)
    else
      let s := on_user_fees (<[(u, asset) := fee]>) s in
      (Ok tt, on_cache (cache_user_fee u asset fee) s).

Definition remove_user_fee_query (up : bool) (u : Uuid) (asset : string) : Op unit := fun s =>
  let s := on_cache (clear_user_fee u asset) s in
  if negb up then (Err db_error, s)
  else
    let num_deleted := if bool_decide (is_Some (user_fees (db s) !! (u, asset))) then 1 else 0 in
    let s := on_user_fees (delete (u, asset)) s in
    (if num_deleted =? 0 then Err (BadRequest "User fee override not found") else Ok tt, s).

Definition set_asset_default_fee_query (up : bool) (asset : string) (fee : f64) : Op unit := fun s =>
  if negb up then (Err db_error, s)
  else
    let s := on_default_fees (<[asset := fee]>) s in
    (Ok tt, on_cache (clear_asset_entries asset) s).

Definition remove_asset_default_fee_query (up : bool) (asset : string) : Op unit := fun s =>
  let s := on_cache (clear_asset_entries asset) s in
  if negb up then (Err db_error, s)
  else
    let num_deleted := if bool_decide (is_Some (asset_default_fees (db s) !! asset)) then 1 else 0 in
    let s := on_default_fees (delete asset) s in
    (if num_deleted =? 0 then Err (BadRequest "Asset default fee not found") else Ok tt, s).

Definition get_rate_limit (up : bool) (id : Uuid) (m : RateLimitMethod) : Op (option Z) := fun s =>
  match cache_get_rate_limit id m (cache s) with
  | Some cached => (Ok cached, s)
  | None =>
      if negb up then (Err db_error, s)
      else
        let limit := as_u32 <$> rate_limits (db s) !! (id, m) in
        (Ok limit, on_cache (cache_rate_limit id m limit) s)
  end.

Definition set_rate_limit_query (up : bool) (id : Uuid) (m : RateLimitMethod) (rpm : Z) : Op unit :=
  fun s =>
    if negb up || negb (bool_decide (is_Some (api_keys (db s) !! id))) then (Err db_error, s)
    else
      let s := on_rate_limits (<[(id, m) := as_i32 rpm]>) s in
      (Ok tt, on_cache (cache_rate_limit id m (Some rpm)) s).

(** ** api_auth.rs *)
Section Auth.
(** The cipher of the stored secrets; [validate_expiring_auth] with the HMAC
    key decoded from a secret. *)
Context (aes_decrypt : string -> res AuthServerError string).
Context (validate_auth : string -> res AuthServerError unit).

Definition get_api_secret (up : bool) (id : Uuid) : Op (string * string) := fun s =>
  let '(r, s) := get_api_key_entry up id s in
  (entry ← r;
   decrypted ← aes_decrypt (encrypted_key entry);
   if negb (is_active entry) then Err ApiKeyInactive else Ok (decrypted, description entry), s).

Definition check_api_key_auth (up : bool) (id : Uuid) : Op string := fun s =>
  let '(r, s) := get_api_secret up id s in
  ('(api_secret, description) ← r; _ ← validate_auth api_secret; Ok description, s).

(** [header]: the API key of the headers, if there and well formed. *)
Definition authorize_request (up : bool) (header : option Uuid) : Op (string * Uuid) := fun s =>
  match header with
  | None => (Err (Unauthorized "Invalid or missing Renegade API key"), s)
  | Some id =>
      let '(r, s) := check_api_key_auth up id s in
      (d ← r; Ok (d, id), s)
  end.

(** api_handlers/mod.rs *)
Definition is_rate_limit_whitelisted (up : bool) (id : Uuid) : Op bool := fun s =>
  let '(r, s) := get_api_key_entry up id s in
  (k ← r; Ok (rate_limit_whitelisted k), s).
Definition should_route_to_global (up : bool) (limit_exceeded : bool) (id : Uuid) : Op bool :=
  fun s =>
    let '(r, s) := is_rate_limit_whitelisted up id s in
    (whitelisted ← r; Ok (limit_exceeded && negb whitelisted), s).
End Auth.

(** ** Management handlers (key_management.rs, external_match_fees.rs) *)
Definition validate_fee (fee : f64) : res AuthServerError unit :=
  if fleb MIN_FEE fee && fleb fee MAX_FEE then Ok tt
  else Err (BadRequest "Fee must be between 0.0 and 0.01").

Section Handlers.
(** [Token::maybe_from_ticker] and the cipher. *)
Context (known_ticker : string -> bool) (aes_encrypt : string -> res AuthServerError string).

Definition validate_ticker (t : string) : res AuthServerError unit :=
  if known_ticker t then Ok tt else Err (BadRequest "Ticker must be 3 uppercase letters").

(** The bodies of the requests, decoded. *)
Inductive mgmt_request :=
  | AddKey (now now' : Z) (id : Uuid) (secret description : string)
  | ExpireKey (id : Uuid)
  | WhitelistKey (id : Uuid)
  | RemoveWhitelist (id : Uuid)
  | SetRateLimit (id : Uuid) (method : string) (requests_per_minute : Z)
  | SetAssetDefaultFee (asset : string) (fee : f64)
  | RemoveAssetDefaultFee (asset : string)
  | SetUserFee (user : Uuid) (asset : string) (fee : f64)
  | RemoveUserFee (user : Uuid) (asset : string).

(** Runs [op] when [m] succeeds. *)
Definition guard {A B} (m : res AuthServerError A) (op : A -> Op B) : Op B := fun s =>
  match m with Ok a => op a s | Err e => (Err e, s) | Panic => (Panic, s) end.

Definition add_key (up : bool) (now now' : Z) (id : Uuid) (secret description : string) : Op unit :=
  guard (aes_encrypt secret) (fun e => add_key_query up now now' (mk_new_key id e description)).
Definition whitelist_api_key (up : bool) (id : Uuid) : Op unit := fun s =>
  match whitelist_api_key_query up id s with
  | (Ok _, s) => (Ok tt, on_cache (clear_key id) s)
  | r => r
  end.
Definition remove_whitelist_entry (up : bool) (id : Uuid) : Op unit := fun s =>
  match remove_whitelist_entry_query up id s with
  | (Ok _, s) => (Ok tt, on_cache (clear_key id) s)
  | r => r
  end.
Definition set_rate_limit (up : bool) (id : Uuid) (method : string) (rpm : Z) : Op unit :=
  guard (ok_or (method_from_str method)
           (BadRequest "Invalid method, must be 'quote' or 'assemble'"))
    (fun m => set_rate_limit_query up id m rpm).
Definition set_asset_default_fee (up : bool) (asset : string) (fee : f64) : Op unit :=
  guard (validate_fee fee) (fun _ => guard (validate_ticker asset) (fun _ =>
    set_asset_default_fee_query up asset fee)).
Definition remove_asset_default_fee (up : bool) (asset : string) : Op unit :=
  guard (validate_ticker asset) (fun _ => remove_asset_default_fee_query up asset).
Definition set_user_fee_override (up : bool) (u : Uuid) (asset : string) (fee : f64) : Op unit :=
  guard (validate_fee fee) (fun _ => guard (validate_ticker asset) (fun _ =>
    set_user_fee_query up u asset fee)).
Definition remove_user_fee_override (up : bool) (u : Uuid) (asset : string) : Op unit :=
  guard (validate_ticker asset) (fun _ => remove_user_fee_query up u asset).

(** Management authentication, then the handler of the route. *)
Definition handle_mgmt (authorized up : bool) (r : mgmt_request) : Op unit := fun s =>
  if negb authorized then (Err (Unauthorized ""), s)
  else match r with
  | AddKey now now' id secret d => add_key up now now' id secret d s
  | ExpireKey id => expire_key_query up id s
  | WhitelistKey id => whitelist_api_key up id s
  | RemoveWhitelist id => remove_whitelist_entry up id s
  | SetRateLimit id m rpm => set_rate_limit up id m rpm s
  | SetAssetDefaultFee a fee => set_asset_default_fee up a fee s
  | RemoveAssetDefaultFee a => remove_asset_default_fee up a s
  | SetUserFee u a fee => set_user_fee_override up u a fee s
  | RemoveUserFee u a => remove_user_fee_override up u a s
  end.

(** Everything that changes the server: management requests, and the lookups
    of the proxied requests. *)
Inductive action :=
  | Manage (authorized up : bool) (r : mgmt_request)
  | LookupKey (up : bool) (id : Uuid)
  | LookupFee (up : bool) (u : Uuid) (asset : string)
  | LookupLimit (up : bool) (id : Uuid) (m : RateLimitMethod).

Definition act (a : action) (s : Server) : Server :=
  match a with
  | Manage authorized up r => (handle_mgmt authorized up r s).2
  | LookupKey up id => (get_api_key_entry up id s).2
  | LookupFee up u asset => (get_user_fee up u asset s).2
  | LookupLimit up id m => (get_rate_limit up id m s).2
  end.
Definition run_actions (l : list action) (s : Server) : Server := foldl (fun s a => act a s) s l.
End Handlers.

(** ** Coherence *)
Definition forget_time (k : ApiKey) : ApiKey :=
  mk_key (key_id k) (encrypted_key k) (description k) 0 (is_active k) (rate_limit_whitelisted k).

(** What the caches hold is what the tables say. *)
Definition keys_coherent (t c : gmap Uuid ApiKey) : Prop :=
  (forall id k, t !! id = Some k -> key_id k = id) /\
  (forall id k, c !! id = Some k -> forget_time <$> t !! id = Some (forget_time k)).
Definition fees_coherent (d : Database) (c : gmap (Uuid * string) f64) : Prop :=
  forall u a f, c !! (u, a) = Some f -> f = effective_fee d u a.
Definition limits_coherent (t : gmap (Uuid * RateLimitMethod) Z)
    (c : gmap (Uuid * RateLimitMethod) (option Z)) : Prop :=
  forall k l, c !! k = Some l -> l = as_u32 <$> t !! k.
Definition coherent (s : Server) : Prop :=
  keys_coherent (api_keys (db s)) (api_key_cache (cache s)) /\
  fees_coherent (db s) (user_fee_cache (cache s)) /\
  limits_coherent (rate_limits (db s)) (rate_limit_cache (cache s)).

Section Coherence.
Lemma as_u32_i32 z : in_u 32 z -> as_u32 (as_i32 z) = z.
Proof.
  unfold in_u, as_u32, as_i32. intros Hz. destruct (Z.ltb_spec z (2 ^ 31)).
  - apply Z.mod_small. lia.
  - symmetry. apply Z.mod_unique with (-1); lia.
Qed.

(** *** Keys *)
Lemma keys_insert_cache t c id k :
  keys_coherent t c -> t !! id = Some k -> keys_coherent t (<[key_id k := k]> c).
Proof.
  intros [Hid Hc] Hk. split; [done|]. rewrite (Hid id k Hk). intros id' k'.
  destruct (decide (id = id')) as [<-|]; simplify_map_eq; [by intros [= <-]|auto].
Qed.

Lemma keys_add t c k now now' :
  keys_coherent t c ->
  keys_coherent (<[new_id k := api_key_of_new now k]> t)
    (<[new_id k := api_key_of_new now' k]> c).
Proof.
  intros [Hid Hc]. split; intros id' k'; destruct (decide (new_id k = id')) as [<-|];
    simplify_map_eq; auto; by intros [= <-].
Qed.

Lemma keys_alter t c f id :
  (forall k, key_id (f k) = key_id k) -> (forall k, forget_time (f k) = f (forget_time k)) ->
  keys_coherent t c ->
  keys_coherent (alter f id t)
    (match c !! id with Some k => <[id := f k]> c | None => c end).
Proof.
  intros Hf1 Hf2 [Hid Hc]. split.
  - intros id' k. rewrite lookup_alter. case_decide; [|auto].
    subst id'. destruct (t !! id) eqn:E; [|done]. cbn. intros [= <-]. rewrite Hf1. auto.
  - intros id' k. rewrite lookup_alter. destruct (c !! id) as [k0|] eqn:Ec.
    + destruct (decide (id = id')) as [<-|]; simplify_map_eq.
      * intros Hk. assert (f k0 = k) as <- by congruence. specialize (Hc id k0 Ec).
        destruct (t !! id) as [a|]; [|done].
        change (Some (forget_time a) = Some (forget_time k0)) in Hc.
        change (Some (forget_time (f a)) = Some (forget_time (f k0))).
        rewrite !Hf2. by assert (forget_time a = forget_time k0) as -> by congruence.
      * auto.
    + case_decide; [subst id'; congruence|auto].
Qed.

(** Clearing the entry makes any change of the row coherent. *)
Lemma keys_alter_clear t c f id :
  (forall k, key_id (f k) = key_id k) -> keys_coherent t c ->
  keys_coherent (alter f id t) (delete id c).
Proof.
  intros Hf [Hid Hc]. split; intros id' k; rewrite lookup_alter; case_decide; subst.
  - destruct (t !! id') eqn:E; [|done]. cbn. intros [= <-]. rewrite Hf. auto.
  - auto.
  - by rewrite lookup_delete_eq.
  - rewrite lookup_delete_ne by done. auto.
Qed.

(** *** Fees *)
Lemma fees_insert_cache d c u a :
  fees_coherent d c -> fees_coherent d (<[(u, a) := effective_fee d u a]> c).
Proof.
  intros H u' a' f. destruct (decide ((u, a) = (u', a'))) as [[= <- <-]|]; simplify_map_eq; [|auto].
  by intros [= <-].
Qed.

Lemma fees_other_tables d c t r :
  fees_coherent d c -> fees_coherent (mk_db t (user_fees d) (asset_default_fees d) r) c.
Proof. done. Qed.

Lemma fees_set_user d c u a f :
  fees_coherent d c ->
  fees_coherent (mk_db (api_keys d) (<[(u, a) := f]> (user_fees d)) (asset_default_fees d)
    (rate_limits d)) (<[(u, a) := f]> c).
Proof.
  intros H u' a' f'. unfold effective_fee. cbn.
  destruct (decide ((u, a) = (u', a'))) as [[= <- <-]|]; simplify_map_eq; [by intros [= <-]|].
  intros Hf. by apply H in Hf.
Qed.

Lemma fees_delete_user d c u a :
  fees_coherent d c ->
  fees_coherent d (delete (u, a) c) /\
  fees_coherent (mk_db (api_keys d) (delete (u, a) (user_fees d)) (asset_default_fees d)
    (rate_limits d)) (delete (u, a) c).
Proof.
  intros H. split; intros u' a' f'; unfold effective_fee; cbn;
    (destruct (decide ((u, a) = (u', a'))) as [[= <- <-]|]; simplify_map_eq; [done|]);
    intros Hf; by apply H in Hf.
Qed.

Lemma fees_change_default d c a defaults :
  (forall a', a' <> a -> defaults !! a' = asset_default_fees d !! a') ->
  fees_coherent d c ->
  fees_coherent (mk_db (api_keys d) (user_fees d) defaults (rate_limits d))
    (filter (fun p => p.1.2 <> a) c).
Proof.
  intros Hd H u a' f. rewrite map_lookup_filter_Some. cbn. intros [Hf Hne].
  apply H in Hf. unfold effective_fee in *. cbn. by rewrite Hd.
Qed.

(** *** Limits *)
Lemma limits_insert t c k l v :
  limits_coherent t c -> l = as_u32 <$> (<[k := v]> t) !! k ->
  limits_coherent (<[k := v]> t) (<[k := l]> c).
Proof.
  intros H -> k' l'. destruct (decide (k = k')) as [<-|]; simplify_map_eq; [by intros [= <-]|auto].
Qed.
Lemma limits_insert_cache t c k :
  limits_coherent t c -> limits_coherent t (<[k := as_u32 <$> t !! k]> c).
Proof.
  intros H k' l'. destruct (decide (k = k')) as [<-|]; simplify_map_eq; [by intros [= <-]|auto].
Qed.
End Coherence.
Create HintDb cache discriminated.
#[export] Hint Resolve keys_insert_cache keys_add keys_alter keys_alter_clear fees_insert_cache
  fees_other_tables fees_set_user limits_insert limits_insert_cache : cache.

(** The integers of a request are [u32]. *)
Definition action_ok (a : action) : Prop :=
  match a with
  | Manage _ _ (SetRateLimit _ _ rpm) => in_u 32 rpm
  | _ => True
  end.

(** Opens a server and its coherence. *)
Ltac open_server s H :=
  destruct s as [[tk tu td tr] [ck cf cr]];
  unfold coherent in *; cbn in *; destruct H as (Hkeys & Hfees & Hlims).

Section Preservation.
Lemma get_api_key_entry_coherent up id s : coherent s -> coherent (get_api_key_entry up id s).2.
Proof.
  intros H. unfold get_api_key_entry, read_api_key. open_server s H.
  unfold cache_get_api_key. cbn. destruct (ck !! id); [done|]. destruct up; cbn; [|done].
  destruct (tk !! id) as [k|] eqn:E; cbn; [|done]. split_and!; [|done..]. eauto with cache.
Qed.

Lemma get_user_fee_coherent up u a s : coherent s -> coherent (get_user_fee up u a s).2.
Proof.
  intros H. unfold get_user_fee. open_server s H. unfold cache_get_user_fee. cbn.
  destruct (cf !! (u, a)); [done|]. destruct up; cbn; [|done]. split_and!; auto with cache.
Qed.

Lemma get_rate_limit_coherent up id m s : coherent s -> coherent (get_rate_limit up id m s).2.
Proof.
  intros H. unfold get_rate_limit. open_server s H. unfold cache_get_rate_limit. cbn.
  destruct (cr !! (id, m)); [done|]. destruct up; cbn; [|done]. split_and!; auto with cache.
Qed.

Lemma add_key_query_coherent up now now' k s :
  coherent s -> coherent (add_key_query up now now' k s).2.
Proof.
  intros H. unfold add_key_query. open_server s H. destruct (negb up || _); cbn; [done|].
  split_and!; auto with cache.
Qed.

Lemma expire_key_query_coherent up id s : coherent s -> coherent (expire_key_query up id s).2.
Proof.
  intros H. unfold expire_key_query. open_server s H. destruct up; cbn; [|done].
  unfold mark_key_expired. cbn.
  pose proof (keys_alter tk ck (set_active false) id ltac:(done) ltac:(done) Hkeys).
  destruct (ck !! id); cbn; split_and!; auto with cache.
Qed.

Lemma whitelist_coherent b up id s :
  coherent s ->
  coherent (match update_whitelist b up id s with
            | (Ok _, s) => (Ok tt, on_cache (clear_key id) s) | r => r end).2.
Proof.
  intros H. unfold update_whitelist. open_server s H. destruct up; cbn; [|done].
  case_bool_decide as Hk; cbn.
  - split_and!; auto with cache.
  - rewrite <- eq_None_not_Some in Hk. replace (alter (set_whitelisted b) id tk) with tk; [done|].
    symmetry. apply map_eq. intros i. rewrite lookup_alter. case_decide as Ei; [|done].
    rewrite <- Ei. by rewrite Hk.
Qed.

Lemma set_user_fee_query_coherent up u a f s :
  coherent s -> coherent (set_user_fee_query up u a f s).2.
Proof.
  intros H. unfold set_user_fee_query. open_server s H. destruct (negb up || _); cbn; [done|].
  split_and!; [done| |done]. apply (fees_set_user (mk_db tk tu td tr)). done.
Qed.

Lemma remove_user_fee_query_coherent up u a s :
  coherent s -> coherent (remove_user_fee_query up u a s).2.
Proof.
  intros H. unfold remove_user_fee_query. open_server s H.
  destruct (fees_delete_user (mk_db tk tu td tr) cf u a Hfees) as [H1 H2].
  destruct up; cbn; split_and!; done.
Qed.

Lemma set_asset_default_fee_query_coherent up a f s :
  coherent s -> coherent (set_asset_default_fee_query up a f s).2.
Proof.
  intros H. unfold set_asset_default_fee_query. open_server s H. destruct up; cbn; [|done].
  split_and!; [done| |done]. apply (fees_change_default (mk_db tk tu td tr)); [|done].
  intros. cbn. by rewrite lookup_insert_ne.
Qed.

Lemma remove_asset_default_fee_query_coherent up a s :
  coherent s -> coherent (remove_asset_default_fee_query up a s).2.
Proof.
  intros H. unfold remove_asset_default_fee_query. open_server s H.
  destruct up; cbn; (split_and!; [done| |done]);
    (apply (fees_change_default (mk_db tk tu td tr)); [|done]); intros; cbn; [|done].
  by rewrite lookup_delete_ne.
Qed.

Lemma set_rate_limit_query_coherent up id m rpm s :
  in_u 32 rpm -> coherent s -> coherent (set_rate_limit_query up id m rpm s).2.
Proof.
  intros Hr H. unfold set_rate_limit_query. open_server s H. destruct (negb up || _); cbn; [done|].
  split_and!; [done..|]. apply limits_insert; [done|].
  rewrite lookup_insert_eq. cbn. by rewrite as_u32_i32.
Qed.

Lemma guard_coherent {A B} (m : res AuthServerError A) (op : A -> Op B) s :
  coherent s -> (forall a, m = Ok a -> coherent (op a s).2) -> coherent (guard m op s).2.
Proof. intros. unfold guard. destruct m; auto. Qed.

Context (known_ticker : string -> bool) (aes_encrypt : string -> res AuthServerError string).

Lemma handle_mgmt_coherent authorized up r s :
  action_ok (Manage authorized up r) -> coherent s ->
  coherent (handle_mgmt known_ticker aes_encrypt authorized up r s).2.
Proof.
  intros Hok H. unfold handle_mgmt. destruct authorized; [|done]. cbn.
  destruct r; cbn in Hok;
    first [by apply expire_key_query_coherent | by apply whitelist_coherent
          | repeat (apply guard_coherent; [done|intros ? _])];
    auto using add_key_query_coherent, set_rate_limit_query_coherent,
      set_asset_default_fee_query_coherent, remove_asset_default_fee_query_coherent,
      set_user_fee_query_coherent, remove_user_fee_query_coherent.
Qed.

Lemma act_coherent a s :
  action_ok a -> coherent s -> coherent (act known_ticker aes_encrypt a s).
Proof.
  intros Hok H. destruct a; cbn [act];
    auto using handle_mgmt_coherent, get_api_key_entry_coherent, get_user_fee_coherent,
      get_rate_limit_coherent.
Qed.

Lemma run_coherent l s :
  Forall action_ok l -> coherent s -> coherent (run_actions known_ticker aes_encrypt l s).
Proof.
  intros Hl. revert s. induction Hl as [|a l Ha Hl IH]; intros s Hs; [done|].
  apply IH. by apply act_coherent.
Qed.
End Preservation.

(** Unfolds the handlers and splits on their guards. *)
Ltac open_mgmt :=
  unfold add_key, add_key_query, expire_key_query, whitelist_api_key,
    remove_whitelist_entry, whitelist_api_key_query, remove_whitelist_entry_query,
    update_whitelist, set_rate_limit, set_rate_limit_query, set_asset_default_fee,
    set_asset_default_fee_query, remove_asset_default_fee, remove_asset_default_fee_query,
    set_user_fee_override, set_user_fee_query, remove_user_fee_override, remove_user_fee_query,
    guard; repeat case_match.

(** *** Deactivated keys stay deactivated *)
Definition inactive (id : Uuid) (s : Server) : Prop :=
  exists k, api_keys (db s) !! id = Some k /\ is_active k = false.

Section Inactive.
Context (known_ticker : string -> bool) (aes_encrypt : string -> res AuthServerError string).

Lemma db_get_api_key_entry up id s : db (get_api_key_entry up id s).2 = db s.
Proof.
  unfold get_api_key_entry, read_api_key, finish_api_key. repeat case_match; simplify_eq; done.
Qed.
Lemma db_get_user_fee up u a s : db (get_user_fee up u a s).2 = db s.
Proof. unfold get_user_fee. by repeat case_match. Qed.
Lemma db_get_rate_limit up id m s : db (get_rate_limit up id m s).2 = db s.
Proof. unfold get_rate_limit. by repeat case_match. Qed.

Lemma alter_inactive (t : gmap Uuid ApiKey) f id i k :
  (forall k, is_active k = false -> is_active (f k) = false) ->
  t !! id = Some k -> is_active k = false ->
  exists k', alter f i t !! id = Some k' /\ is_active k' = false.
Proof.
  intros Hf Hk Ha. rewrite lookup_alter. case_decide; [subst; rewrite Hk|]; cbn; eauto.
Qed.

Lemma handle_mgmt_inactive authorized up r id s :
  inactive id s -> inactive id (handle_mgmt known_ticker aes_encrypt authorized up r s).2.
Proof.
  intros (k & Hk & Ha). unfold handle_mgmt. destruct authorized; [|by exists k]. cbn.
  destruct s as [[tk tu td tr] c]. unfold inactive in *. cbn in Hk.
  destruct r; open_mgmt; simplify_eq/=; eauto using alter_inactive.
  unfold key_conflict in *. cbn in *.
  destruct (decide (id0 = id)) as [->|]; [|exists k; by rewrite lookup_insert_ne].
  rewrite Hk in *. by destruct up.
Qed.

Lemma act_inactive a id s : inactive id s -> inactive id (act known_ticker aes_encrypt a s).
Proof.
  intros H. destruct a; cbn [act]; [by apply handle_mgmt_inactive|..]; unfold inactive;
    by rewrite ?db_get_api_key_entry, ?db_get_user_fee, ?db_get_rate_limit.
Qed.

Lemma run_inactive l id s : inactive id s -> inactive id (run_actions known_ticker aes_encrypt l s).
Proof. revert s. induction l as [|a l IH]; intros s H; [done|]. apply IH. by apply act_inactive. Qed.

(** A coherent server refuses the secret of an inactive key. *)
Lemma inactive_refused dec up id s :
  coherent s -> inactive id s -> forall v, (get_api_secret dec up id s).1 <> Ok v.
Proof.
  intros [[_ Hc] _] (k & Hk & Ha) v. unfold get_api_secret, get_api_key_entry, read_api_key.
  destruct (cache_get_api_key id (cache s)) as [k0|] eqn:Ec.
  - specialize (Hc id k0 Ec). rewrite Hk in Hc. cbn in Hc. injection Hc as _ _ _ Hact _.
    rewrite Ha in Hact. cbn. destruct (dec (encrypted_key k0)); cbn; [|done..].
    by rewrite <- Hact.
  - destruct up; cbn; [|done]. rewrite Hk. cbn. by rewrite Ha.
Qed.
End Inactive.

(** *** Bounds on fees *)
Definition fee_ok (f : f64) : Prop := fleb MIN_FEE f = true /\ fleb f MAX_FEE = true.
Definition fees_bounded (d : Database) : Prop :=
  map_Forall (fun _ f => fee_ok f) (user_fees d) /\
  map_Forall (fun _ f => fee_ok f) (asset_default_fees d).

Section Fees.
Context (known_ticker : string -> bool) (aes_encrypt : string -> res AuthServerError string).

Lemma validate_fee_ok f : validate_fee f = Ok tt -> fee_ok f.
Proof. unfold validate_fee. destruct (_ && _) eqn:E; [|done]. by apply andb_true_iff in E. Qed.

Lemma handle_mgmt_fees authorized up r s :
  fees_bounded (db s) -> fees_bounded (db (handle_mgmt known_ticker aes_encrypt authorized up r s).2).
Proof.
  intros [Hu Hd]. unfold handle_mgmt. destruct authorized; [|done]. cbn.
  destruct s as [[tk tu td tr] c]. cbn in *.
  destruct r; open_mgmt; simplify_eq/=; split; cbn;
    first [exact Hu | exact Hd | by apply map_Forall_delete | idtac].
  all: apply map_Forall_insert_2; [|done]; apply validate_fee_ok; by destruct_all unit.
Qed.

Lemma run_fees l s :
  fees_bounded (db s) -> fees_bounded (db (run_actions known_ticker aes_encrypt l s)).
Proof.
  revert s. induction l as [|a l IH]; intros s H; [done|]. cbn. apply IH.
  destruct a; cbn [act]; [by apply handle_mgmt_fees|..];
    by rewrite ?db_get_api_key_entry, ?db_get_user_fee, ?db_get_rate_limit.
Qed.

Lemma effective_fee_bounded d u a : fees_bounded d -> fee_ok (effective_fee d u a).
Proof.
  intros [Hu Hd]. unfold effective_fee. destruct (user_fees d !! (u, a)) eqn:E; [by apply (Hu _ _ E)|].
  destruct (asset_default_fees d !! a) eqn:E'; [by apply (Hd _ _ E')|by vm_compute].
Qed.
End Fees.

(** ** Theorems *)
Definition fresh (d : Database) : Server := mk_server d cache_new.
Definition rows_named (d : Database) : Prop :=
  forall id k, api_keys d !! id = Some k -> key_id k = id.

Lemma fresh_coherent d : rows_named d -> coherent (fresh d).
Proof. intros H. repeat split; [done|..]; intros ?; cbn; intros; simplify_map_eq. Qed.

(** C9. The caches are transparent: after any sequence of management requests and
    lookups, with database failures anywhere, the fee, the rate limit and the
    whitelist flag the server answers are those of the tables, whether
    they come from a cache, a negative cache entry or the database; and with
    the database up the answers are there. *)
Theorem caches_transparent known_ticker enc d l up u a id m :
  rows_named d -> Forall action_ok l ->
  let s := run_actions known_ticker enc l (fresh d) in
  (forall f, (get_user_fee up u a s).1 = Ok f -> f = effective_fee (db s) u a) /\
  (get_user_fee true u a s).1 = Ok (effective_fee (db s) u a) /\
  (forall r, (get_rate_limit up id m s).1 = Ok r -> r = as_u32 <$> rate_limits (db s) !! (id, m)) /\
  (get_rate_limit true id m s).1 = Ok (as_u32 <$> rate_limits (db s) !! (id, m)) /\
  (forall w, (is_rate_limit_whitelisted up id s).1 = Ok w ->
     exists k, api_keys (db s) !! id = Some k /\ rate_limit_whitelisted k = w).
Proof.
  intros Hd Hl s. assert (Hs : coherent s) by (apply run_coherent, fresh_coherent; done).
  destruct Hs as ([Hid Hk] & Hf & Hr). split_and!.
  - intros f. unfold get_user_fee, cache_get_user_fee.
    destruct (_ !! (u, a)) eqn:E; [intros [= <-]; by apply Hf|]. by destruct up; [intros [= <-]|].
  - unfold get_user_fee, cache_get_user_fee.
    destruct (_ !! (u, a)) eqn:E; [|done]. cbn. f_equal. by apply Hf.
  - intros r. unfold get_rate_limit, cache_get_rate_limit.
    destruct (_ !! (id, m)) eqn:E; [intros [= <-]; by apply Hr|]. by destruct up; [intros [= <-]|].
  - unfold get_rate_limit, cache_get_rate_limit.
    destruct (_ !! (id, m)) eqn:E; [|done]. cbn. f_equal. by apply Hr.
  - intros w. unfold is_rate_limit_whitelisted, get_api_key_entry, read_api_key, cache_get_api_key.
    destruct (api_key_cache (cache s) !! id) as [k0|] eqn:Ec.
    + specialize (Hk id k0 Ec). destruct (api_keys (db s) !! id) as [k|]; [|done].
      cbn in *. injection Hk as _ _ _ _ Hw. intros [= <-]. eauto.
    + destruct up; cbn; [|done]. destruct (api_keys (db s) !! id) as [k|] eqn:Ek; cbn; [|done].
      destruct (is_active k); cbn; [|done]. intros [= <-]. eauto.
Qed.

(** *** Interleaved requests

    A request of the server updates the database and the caches one after the
    other, and other requests run in between.  The steps on API keys: a lookup
    reads the row and later caches it ([finish_api_key]); a creation inserts the
    row and later caches it; a deactivation and a change of the whitelist update
    the row and later the cache.  The rows that wait to be cached are kept by
    task.  Anything else is an [action]. *)
Inductive kstep :=
  | KRead (tid : nat) (up : bool) (id : Uuid)
  | KInsert (tid : nat) (up : bool) (now now' : Z) (k : NewApiKey)
  | KCache (tid : nat)
  | KExpireDb (id : Uuid)
  | KExpireCache (id : Uuid)
  | KWhitelistDb (b : bool) (id : Uuid)
  | KClear (id : Uuid)
  | KAct (a : action).

Section Interleaved.
Context (known_ticker : string -> bool) (aes_encrypt : string -> res AuthServerError string).

Definition kstate : Type := Server * gmap nat ApiKey.
Definition kact (e : kstep) (st : kstate) : kstate :=
  let '(s, P) := st in
  match e with
  | KRead tid up id =>
      match read_api_key up id s with inr (Ok k) => (s, <[tid := k]> P) | _ => (s, P) end
  | KInsert tid up now now' k =>
      if negb up || key_conflict k (api_keys (db s)) then (s, P)
      else (on_keys (<[new_id k := api_key_of_new now k]>) s, <[tid := api_key_of_new now' k]> P)
  | KCache tid =>
      match P !! tid with Some k => ((finish_api_key (Ok k) s).2, delete tid P) | None => (s, P) end
  | KExpireDb id => (on_keys (alter (set_active false) id) s, P)
  | KExpireCache id => (on_cache (mark_key_expired id) s, P)
  | KWhitelistDb b id => (on_keys (alter (set_whitelisted b) id) s, P)
  | KClear id => (on_cache (clear_key id) s, P)
  | KAct a => (act known_ticker aes_encrypt a s, P)
  end.
Definition krun (l : list kstep) (st : kstate) : kstate := foldl (fun st e => kact e st) st l.

(** The rows carry their id; the key [id] is inactive in the table and in every
    row of it that waits to be cached. *)
Definition settled_db (id : Uuid) (st : kstate) : Prop :=
  rows_named (db st.1) /\ inactive id st.1 /\
  forall tid k, st.2 !! tid = Some k -> key_id k = id -> is_active k = false.
(** The cache does not hold it as active either. *)
Definition settled_key (id : Uuid) (st : kstate) : Prop :=
  settled_db id st /\
  forall k, api_key_cache (cache st.1) !! id = Some k -> is_active k = false.

Lemma alter_named (t : gmap Uuid ApiKey) f i :
  (forall k, key_id (f k) = key_id k) -> (forall id k, t !! id = Some k -> key_id k = id) ->
  forall id k, alter f i t !! id = Some k -> key_id k = id.
Proof.
  intros Hf Ht id k [(<- & k0 & Hk & ->)|[_ ?]]%lookup_alter_Some; [|by apply Ht].
  rewrite Hf. by apply Ht.
Qed.
Lemma insert_named (t : gmap Uuid ApiKey) i k0 :
  key_id k0 = i -> (forall id k, t !! id = Some k -> key_id k = id) ->
  forall id k, <[i := k0]> t !! id = Some k -> key_id k = id.
Proof. intros Hk Ht id k [[<- <-]|[_ ?]]%lookup_insert_Some; [done|by apply Ht]. Qed.

Lemma act_named a s : rows_named (db s) -> rows_named (db (act known_ticker aes_encrypt a s)).
Proof.
  intros Hn. destruct a; cbn [act]; rewrite ?db_get_api_key_entry, ?db_get_user_fee, ?db_get_rate_limit; try done.
  unfold handle_mgmt. destruct authorized; [|done]. cbn. destruct s as [[tk tu td tr] c].
  unfold rows_named in *. cbn in Hn.
  destruct r; open_mgmt; simplify_eq/=; try exact Hn;
    first [apply insert_named; [done|exact Hn]|apply alter_named; [by intros []|exact Hn]].
Qed.

Lemma set_flags_id b k : key_id (set_active b k) = key_id k /\ key_id (set_whitelisted b k) = key_id k.
Proof. by destruct k. Qed.

Lemma kact_named e st : rows_named (db st.1) -> rows_named (db (kact e st).1).
Proof.
  destruct st as [s P]. intros Hn. destruct e; cbn [kact fst].
  - by destruct (read_api_key up id s) as [|[| |]].
  - destruct (negb up || _); [done|]. unfold rows_named. apply insert_named; [done|exact Hn].
  - by destruct (P !! tid).
  - unfold rows_named. apply alter_named; [|exact Hn]. intros k. apply set_flags_id.
  - done.
  - unfold rows_named. apply alter_named; [|exact Hn]. intros k. apply set_flags_id.
  - done.
  - by apply act_named.
Qed.

Lemma read_row up id s k :
  rows_named (db s) -> read_api_key up id s = inr (Ok k) ->
  key_id k = id /\ api_keys (db s) !! id = Some k.
Proof.
  unfold read_api_key. destruct (cache_get_api_key id (cache s)); [done|].
  destruct up; [|done]. cbn. destruct (api_keys (db s) !! id) eqn:E; [|done].
  intros Hn [= <-]. split; [by apply Hn|done].
Qed.

Lemma kact_settled_db id e st : settled_db id st -> settled_db id (kact e st).
Proof.
  destruct st as [s P]. intros (Hn & Hi & HP). cbn [fst snd] in *.
  split; [by apply kact_named|]. destruct e; cbn [kact].
  - destruct (read_api_key up id0 s) as [|[k| |]] eqn:E; (split; [done|]); [done| |done..].
    apply read_row in E as [Hid Hk]; [|done]. cbn [snd].
    intros t k' [[<- <-]|[_ ?]]%lookup_insert_Some ?; [|by eapply HP].
    destruct Hi as (k0 & Hk0 & Ha). congruence.
  - destruct (negb up || _) eqn:E; [done|]. apply orb_false_iff in E as [_ E].
    unfold key_conflict in E. apply orb_false_iff in E as [E _]. apply bool_decide_eq_false in E.
    destruct Hi as (k0 & Hk0 & Ha). assert (new_id k <> id) by (intros <-; apply E; eauto).
    split; [exists k0; by split; [cbn; rewrite lookup_insert_ne|]|].
    cbn. intros t k' [[<- <-]|[_ ?]]%lookup_insert_Some ?; [done|by eapply HP].
  - destruct (P !! tid) as [k|]; (split; [done|]); [|done].
    cbn. intros t k' [_ ?]%lookup_delete_Some. by eapply HP.
  - split; [|done]. destruct Hi as (k0 & Hk0 & Ha). unfold inactive. cbn. eauto using alter_inactive.
  - done.
  - split; [|done]. destruct Hi as (k0 & Hk0 & Ha). unfold inactive. cbn. eapply alter_inactive; [|done..].
    by intros [].
  - done.
  - split; [by apply act_inactive|done].
Qed.

Lemma act_cache_inactive a id s :
  rows_named (db s) -> inactive id s ->
  (forall k, api_key_cache (cache s) !! id = Some k -> is_active k = false) ->
  forall k, api_key_cache (cache (act known_ticker aes_encrypt a s)) !! id = Some k -> is_active k = false.
Proof.
  intros Hn (k0 & Hk0 & Ha0) Hc k. destruct a; cbn [act].
  - unfold handle_mgmt. destruct authorized; [|apply Hc]. cbn. destruct s as [[tk tu td tr] [ck cf cr]].
    cbn in *. destruct r; open_mgmt; simplify_eq/=; try apply Hc.
    + unfold key_conflict in *. cbn in *.
      intros [[<- <-]|[_ ?]]%lookup_insert_Some; [|by eapply Hc].
      rewrite Hk0 in *. by destruct up.
    + unfold mark_key_expired. cbn. destruct (ck !! id0); [|apply Hc]. cbn.
      intros [[<- <-]|[_ ?]]%lookup_insert_Some; [done|by eapply Hc].
    + intros [_ ?]%lookup_delete_Some. by eapply Hc.
    + intros [_ ?]%lookup_delete_Some. by eapply Hc.
  - unfold get_api_key_entry. destruct (read_api_key up id0 s) as [|[k'| |]] eqn:E; try apply Hc.
    apply read_row in E as [Hid Hk']; [|done]. cbn.
    intros [[<- <-]|[_ ?]]%lookup_insert_Some; [|by eapply Hc]. congruence.
  - unfold get_user_fee. repeat case_match; apply Hc.
  - unfold get_rate_limit. repeat case_match; apply Hc.
Qed.

Lemma kact_settled id e st : settled_key id st -> settled_key id (kact e st).
Proof.
  intros [Hd Hc]. split; [by apply kact_settled_db|]. destruct st as [s P], Hd as (Hn & Hi & HP).
  cbn [fst snd] in *. destruct e; cbn [kact fst]; try apply Hc.
  - destruct (read_api_key up id0 s) as [|[| |]]; apply Hc.
  - destruct (negb up || _); apply Hc.
  - destruct (P !! tid) as [k|] eqn:E; [|apply Hc]. cbn.
    intros k' [[<- <-]|[_ ?]]%lookup_insert_Some; [by eapply HP|by eapply Hc].
  - unfold on_cache, mark_key_expired. cbn. destruct (api_key_cache (cache s) !! id0); [|apply Hc].
    cbn. intros k' [[<- <-]|[_ ?]]%lookup_insert_Some; [by destruct a|by eapply Hc].
  - cbn. intros k' [_ ?]%lookup_delete_Some. by eapply Hc.
  - by apply act_cache_inactive.
Qed.

Lemma krun_ind (Inv : kstate -> Prop) l st :
  (forall e st, Inv st -> Inv (kact e st)) -> Inv st -> Inv (krun l st).
Proof. intros Hs. revert st. induction l as [|e l IH]; intros st H; [done|]. apply IH. by apply Hs. Qed.

Lemma settled_key_refused dec up id st :
  settled_key id st -> forall v, (get_api_secret dec up id st.1).1 <> Ok v.
Proof.
  destruct st as [s P]. intros [(_ & (k & Hk & Ha) & _) Hc] v. cbn [fst snd] in *.
  unfold get_api_secret, get_api_key_entry, read_api_key, cache_get_api_key.
  destruct (api_key_cache (cache s) !! id) as [k0|] eqn:Ec.
  - cbn. destruct (dec (encrypted_key k0)); cbn; [|done..]. by rewrite (Hc k0).
  - destruct up; cbn; [|done]. rewrite Hk. cbn. by rewrite Ha.
Qed.
End Interleaved.

(** C10. Requests interleave: between the update of the table and that of the cache
    by a deactivation, and after it, any other requests may run, in steps of
    their own.  If no lookup and no creation of the key waits to cache its row
    when the table is updated, then no request that comes after the
    deactivation is authorized with the key, whatever else follows.  A
    deactivation that nothing interrupts is [expire_key_query]. *)
Theorem deactivated_key_never_authorized known_ticker enc dec valid d l l1 l2 id k up :
  rows_named d ->
  let run := krun known_ticker enc in
  let st := run l (fresh d, ∅) in
  api_keys (db st.1) !! id = Some k ->
  (forall tid k', st.2 !! tid = Some k' -> key_id k' <> id) ->
  (forall v, (authorize_request dec valid up (Some id)
     (run l2 (run [KExpireCache id] (run l1 (run [KExpireDb id] st)))).1).1 <> Ok v) /\
  (handle_mgmt known_ticker enc true true (ExpireKey id) st.1).2 =
    (run [KExpireCache id] (run [KExpireDb id] st)).1.
Proof.
  intros Hd run st Hk HP.
  assert (Hn : rows_named (db st.1)).
  { apply (krun_ind known_ticker enc (fun st => rows_named (db st.1))); [|exact Hd].
    intros e st'. apply kact_named. }
  split; [|by destruct st].
  assert (H1 : settled_db id (run l1 (run [KExpireDb id] st))).
  { apply krun_ind; [intros e st'; apply kact_settled_db|].
    split; [by apply (kact_named known_ticker enc (KExpireDb id) st)|]. destruct st as [s P]. cbn [fst snd] in *.
    split.
    - exists (set_active false k). cbn. by rewrite lookup_alter_eq, Hk.
    - cbn. intros tid k' Ht Hid. by destruct (HP tid k' Ht). }
  assert (H2 : settled_key id (run l2 (run [KExpireCache id] (run l1 (run [KExpireDb id] st))))).
  { apply krun_ind; [intros e st'; apply kact_settled|].
    split; [by apply (kact_settled_db known_ticker enc id (KExpireCache id))|].
    destruct (run l1 _) as [s P]. cbn. unfold on_cache, mark_key_expired. cbn.
    destruct (api_key_cache (cache s) !! id) eqn:E; cbn; [|by rewrite E].
    rewrite lookup_insert_eq. intros k' [= <-]. by destruct a. }
  intros v. pose proof (settled_key_refused dec up id _ H2) as Hr.
  unfold authorize_request, check_api_key_auth.
  destruct (get_api_secret dec up id _) as [[[sec desc]| |] s2]; [|done..]. by destruct (Hr (sec, desc)).
Qed.

(** A lookup that runs while its key is being deactivated undoes the
    deactivation: when its database read precedes the deactivation and its
    cache write follows it, the key stays authorized although the table says
    it is inactive. *)
Theorem stale_key_after_deactivation dec valid d id k sec :
  api_keys d !! id = Some k -> key_id k = id -> is_active k = true ->
  dec (encrypted_key k) = Ok sec -> valid sec = Ok tt ->
  let row := read_api_key true id (fresh d) in
  let s1 := (expire_key_query true id (fresh d)).2 in
  exists r, row = inr r /\
    let s2 := (finish_api_key r s1).2 in
    (exists k', api_keys (db s2) !! id = Some k' /\ is_active k' = false) /\
    forall up, (authorize_request dec valid up (Some id) s2).1 = Ok (description k, id).
Proof.
  intros Hk Hid Ha Hdec Hval. cbn zeta. unfold read_api_key. cbn. unfold cache_get_api_key. cbn. rewrite lookup_empty, Hk.
  eexists. split; [reflexivity|]. cbn. split.
  - exists (set_active false k). rewrite lookup_alter_eq, Hk. done.
  - intros up. unfold check_api_key_auth, get_api_secret, get_api_key_entry, read_api_key,
      cache_get_api_key. cbn. rewrite Hid, lookup_insert_eq. cbn. rewrite Hdec. cbn. rewrite Ha. cbn. by rewrite Hval.
Qed.

(** No fee above one percent, negative or NaN is ever charged: the fees of
    the tables are set through validated requests only, and the default is
    in range. *)
Theorem charged_fees_bounded known_ticker enc d l up u a f :
  rows_named d -> Forall action_ok l -> fees_bounded d ->
  (get_user_fee up u a (run_actions known_ticker enc l (fresh d))).1 = Ok f ->
  fee_ok f.
Proof.
  intros Hd Hl Hb. set (s := run_actions _ _ _ _).
  assert (Hs : coherent s) by (apply run_coherent, fresh_coherent; done).
  destruct Hs as (_ & Hf & _).
  assert (Hb' : fees_bounded (db s)) by (apply run_fees; done).
  unfold get_user_fee, cache_get_user_fee. destruct (_ !! (u, a)) eqn:E.
  - intros [= <-]. apply Hf in E as ->. by apply effective_fee_bounded.
  - destruct up; [|done]. intros [= <-]. by apply effective_fee_bounded.
Qed.

(** ** Witnesses *)
Module ServerCacheWitness.
Definition k1 : ApiKey := mk_key 1 "secret" "alice" 0 true false.
Definition d1 : Database := mk_db {[ 1 := k1 ]} ∅ {[ "WETH"%string := f0 ]} ∅.
Definition enc (s : string) : res AuthServerError string := Ok s.
Definition known (_ : string) : bool := true.
Definition acts : list action :=
  [LookupKey true 1; Manage true true (WhitelistKey 1); Manage true true (SetRateLimit 1 "quote" 7);
   LookupFee true 1 "WETH"; Manage true true (SetAssetDefaultFee "WETH" MAX_FEE)].

Lemma d1_named : rows_named d1.
Proof.
  intros id k H. cbn in H. apply lookup_singleton_Some in H as [<- <-]. reflexivity.
Qed.
Lemma acts_ok : Forall action_ok acts.
Proof. repeat constructor; cbn; lia. Qed.

Lemma caches_transparent_witness :
  (get_user_fee true 1 "WETH" (run_actions known enc acts (fresh d1))).1
    = Ok (effective_fee (db (run_actions known enc acts (fresh d1))) 1 "WETH").
Proof.
  apply (caches_transparent known enc d1 acts true 1 "WETH" 1 Quote); [apply d1_named|apply acts_ok].
Defined.

(** The key is looked up before, during and after its deactivation. *)
Lemma deactivated_key_never_authorized_witness :
  (authorize_request enc (fun _ => Ok tt) true (Some 1)
    (krun known enc [KCache 5; KAct (LookupKey true 1)]
      (krun known enc [KExpireCache 1] (krun known enc [KRead 5 true 1]
        (krun known enc [KExpireDb 1] (krun known enc [KRead 4 true 1; KCache 4] (fresh d1, ∅)))))).1).1
    <> Ok ("alice"%string, 1).
Proof.
  apply (deactivated_key_never_authorized known enc enc (fun _ => Ok tt) d1 [KRead 4 true 1; KCache 4]
    [KRead 5 true 1] [KCache 5; KAct (LookupKey true 1)] 1 k1 true);
    [apply d1_named|vm_compute; reflexivity|].
  assert (Hnone : (krun known enc [KRead 4 true 1; KCache 4] (fresh d1, ∅)).2 = ∅) by (vm_compute; reflexivity).
  intros tid k'. rewrite Hnone, lookup_empty. discriminate.
Defined.

Lemma stale_key_after_deactivation_witness :
  exists r, read_api_key true 1 (fresh d1) = inr r.
Proof.
  destruct (stale_key_after_deactivation enc (fun _ => Ok tt) d1 1 k1 "secret") as (r & H & _);
    [reflexivity..|]. exists r. exact H.
Defined.

Lemma charged_fees_bounded_witness : fee_ok MAX_FEE.
Proof.
  apply (charged_fees_bounded known enc d1 acts true 1 "WETH" MAX_FEE);
    [apply d1_named|apply acts_ok| |vm_compute; reflexivity].
  split; [apply map_Forall_empty|]. apply map_Forall_singleton. split; reflexivity.
Defined.
End ServerCacheWitness.
