(* ===== verification/Fireblocks.v ===== *)
(** * The Fireblocks rate limiter (funds-manager, custody_client/fireblocks_rate_limiter.rs)

    The limiter is shared by the tasks of the process: a token bucket that only
    the refill task replenishes, and a cooldown gate set by 429 answers.  Tasks
    run [rate_limited] (fireblocks_client.rs): they pass the gate, take a token,
    call the API and report the outcome.  [step] interleaves the tasks, the
    refill task and the clock: the reads and writes of the deadline, of the
    semaphore and of the 429 counter are separate steps; the theorems hold for
    every reachable state. *)
From Stdlib Require Import ZArith Lia.
From stdpp Require Import gmap relations.
From S2P Require Import Prelude.
Local Open Scope Z_scope.

Definition STEADY_STATE_RPS : Z := 15.
Definition BURST_CAPACITY : Z := 30.
Definition INITIAL_COOLDOWN_SECS : Z := 1.
Definition MAX_COOLDOWN_SECS : Z := 30.
Definition NANOS : Z := 1000000000.

(** Instants are in nanoseconds. *)
Record FireblocksLimiter := mk_limiter {
  permits : Z;
  capacity : Z;
  cooldown_until : option Z;
  consecutive_429s : Z;
  throttled_window : Z;
  peak_wait_ms_window : Z;
  acquired_window : Z;
}.
Definition limiter_new (burst_capacity : Z) : FireblocksLimiter :=
  mk_limiter burst_capacity burst_capacity None 0 0 0 0.
Definition refill_interval (steady_state_rps : Z) : Z := NANOS / steady_state_rps.

Definition set_permits (p : Z) (l : FireblocksLimiter) : FireblocksLimiter :=
  mk_limiter p (capacity l) (cooldown_until l) (consecutive_429s l) (throttled_window l)
    (peak_wait_ms_window l) (acquired_window l).

(** [acquire], the gate: whether the loop breaks at [now] with the deadline it
    has read. *)
Definition gate_open (now : Z) (deadline : option Z) : bool :=
  match deadline with
  | Some until => negb (now <? until)
  | None => true
  end.

(** [acquire], after the permit is granted: it is forgotten and the window
    counters are updated. *)
Definition take_permit (start now : Z) (l : FireblocksLimiter) : FireblocksLimiter :=
  let waited_ms := (now - start) / 1000000 in
  let throttled := waited_ms >? 0 in
  mk_limiter (permits l - 1) (capacity l) (cooldown_until l) (consecutive_429s l)
    (if throttled then uadd 64 (throttled_window l) 1 else throttled_window l)
    (if throttled then Z.max (peak_wait_ms_window l) (uwrap 64 waited_ms) else peak_wait_ms_window l)
    (uadd 64 (acquired_window l) 1).

(** [u64 << shift] of a release build: the shift is taken modulo 64. *)
Definition u64_shl (a shift : Z) : Z := uwrap 64 (Z.shiftl a (shift mod 64)).
Definition cooldown_secs (n : Z) : Z :=
  let shift := usub 32 (Z.min n 5) 1 in
  Z.min (u64_shl INITIAL_COOLDOWN_SECS shift) MAX_COOLDOWN_SECS.

(** [on_429] counts the answer and computes the deadline, then takes the lock and
    sets it unless there is a later one. *)
Definition on_429_count (now : Z) (l : FireblocksLimiter) : Z * FireblocksLimiter :=
  let n := uadd 32 (consecutive_429s l) 1 in
  (now + cooldown_secs n * NANOS,
   mk_limiter (permits l) (capacity l) (cooldown_until l) n (throttled_window l)
     (peak_wait_ms_window l) (acquired_window l)).
Definition on_429_set (new_until : Z) (l : FireblocksLimiter) : FireblocksLimiter :=
  let until :=
    match cooldown_until l with
    | Some existing => if existing <? new_until then Some new_until else Some existing
    | None => Some new_until
    end in
  mk_limiter (permits l) (capacity l) until (consecutive_429s l) (throttled_window l)
    (peak_wait_ms_window l) (acquired_window l).
Definition on_429 (now : Z) (l : FireblocksLimiter) : FireblocksLimiter :=
  let '(new_until, l) := on_429_count now l in on_429_set new_until l.

Definition on_success (l : FireblocksLimiter) : FireblocksLimiter :=
  mk_limiter (permits l) (capacity l) (cooldown_until l) 0 (throttled_window l)
    (peak_wait_ms_window l) (acquired_window l).

Record FireblocksLimiterStatus := mk_status {
  st_bucket : Z; st_capacity : Z; st_cooldown_remaining_ms : Z; st_consecutive_429s : Z;
  st_throttled_window : Z; st_peak_wait_ms_window : Z; st_acquired_window : Z;
}.
Definition snapshot_and_reset (now : Z) (l : FireblocksLimiter)
    : FireblocksLimiterStatus * FireblocksLimiter :=
  let remaining :=
    match cooldown_until l with
    | Some until => if until <? now then 0 else uwrap 64 ((until - now) / 1000000)
    | None => 0
    end in
  (mk_status (permits l) (capacity l) remaining (consecutive_429s l) (throttled_window l)
     (peak_wait_ms_window l) (acquired_window l),
   mk_limiter (permits l) (capacity l) (cooldown_until l) (consecutive_429s l) 0 0 0).

(** ** The process *)

(** Where a task is in [rate_limited]: before the gate since [start], after the
    read of the deadline, asleep, waiting for a permit, in the API call, and
    after a 429 before the deadline is set. *)
Inductive phase :=
  | AtGate (start : Z) | AtCheck (start : Z) (deadline : option Z) | Asleep (start until : Z)
  | AtSemaphore (start : Z) | Calling | Cooling (new_until : Z).

(** The outcome of the wrapped call, and what [rate_limited] reports of it: the
    limiter, and the deadline still to set. *)
Inductive call_outcome := CallOk | Call429 | CallError.
Definition report (now : Z) (o : call_outcome) (l : FireblocksLimiter) : FireblocksLimiter * option phase :=
  match o with
  | Call429 => let '(u, l) := on_429_count now l in (l, Some (Cooling u))
  | CallOk => (on_success l, None)
  | CallError => (l, None)
  end.
(** The gate's test: on to the semaphore, or to sleep until the deadline. *)
Definition gate_next (now start : Z) (deadline : option Z) : phase :=
  if gate_open now deadline then AtSemaphore start
  else match deadline with Some until => Asleep start until | None => AtSemaphore start end.

(** The refill task: between ticks, or between its test of the bucket and its
    [add_permits]. *)
Inductive refill_phase := Waiting | Adding.

Record world := mk_world {
  now : Z;
  lim : FireblocksLimiter;
  tasks : gmap nat phase;
  refill : refill_phase;
  (** Ticks of the refill timer and calls let through so far. *)
  ticks : Z;
  granted : Z;
}.

Definition boot (t0 : Z) : world := mk_world t0 (limiter_new BURST_CAPACITY) ∅ Waiting 0 0.

(** The timer of [tokio::time::interval]: the first tick is immediate and the
    [k]-th one is not before [k] periods. *)
Definition tick_due (t0 : Z) (w : world) : Prop :=
  t0 + ticks w * refill_interval STEADY_STATE_RPS <= now w.

(** The process with another limiter and another phase of one task. *)
Definition update_task (id : nat) (p : option phase) (l : FireblocksLimiter) (w : world) : world :=
  mk_world (now w) l (partial_alter (fun _ => p) id (tasks w)) (refill w) (ticks w) (granted w).

Inductive step (t0 : Z) : world -> world -> Prop :=
  | StepTime w t : now w <= t ->
      step t0 w (mk_world t (lim w) (tasks w) (refill w) (ticks w) (granted w))
  | StepCall w id : tasks w !! id = None ->
      step t0 w (update_task id (Some (AtGate (now w))) (lim w) w)
  | StepRead w id start : tasks w !! id = Some (AtGate start) ->
      step t0 w (update_task id (Some (AtCheck start (cooldown_until (lim w)))) (lim w) w)
  | StepCheck w id start deadline : tasks w !! id = Some (AtCheck start deadline) ->
      step t0 w (update_task id (Some (gate_next (now w) start deadline)) (lim w) w)
  | StepWake w id start until : tasks w !! id = Some (Asleep start until) -> until <= now w ->
      step t0 w (update_task id (Some (AtGate start)) (lim w) w)
  | StepPermit w id start : tasks w !! id = Some (AtSemaphore start) -> 0 < permits (lim w) ->
      step t0 w (mk_world (now w) (take_permit start (now w) (lim w))
                   (partial_alter (fun _ => Some Calling) id (tasks w)) (refill w) (ticks w) (granted w + 1))
  | StepReturn w id o : tasks w !! id = Some Calling ->
      step t0 w (update_task id (report (now w) o (lim w)).2 (report (now w) o (lim w)).1 w)
  | StepCool w id u : tasks w !! id = Some (Cooling u) ->
      step t0 w (update_task id None (on_429_set u (lim w)) w)
  | StepTick w : refill w = Waiting -> tick_due t0 w ->
      step t0 w (mk_world (now w) (lim w) (tasks w)
                (if permits (lim w) <? capacity (lim w) then Adding else Waiting)
                (ticks w + 1) (granted w))
  | StepAdd w : refill w = Adding ->
      step t0 w (mk_world (now w) (set_permits (permits (lim w) + 1) (lim w)) (tasks w) Waiting
                (ticks w) (granted w))
  | StepSnapshot w :
      step t0 w (mk_world (now w) (snapshot_and_reset (now w) (lim w)).2 (tasks w) (refill w)
                (ticks w) (granted w)).

Definition reachable (t0 : Z) (w : world) : Prop := rtc (step t0) (boot t0) w.

(** ** Invariants *)
Definition pending (r : refill_phase) : Z := match r with Adding => 1 | Waiting => 0 end.

(** The bucket never overflows, also between the test and the addition; tokens
    are conserved; and the timer has not run ahead. *)
Definition bucket_inv (t0 : Z) (w : world) : Prop :=
  capacity (lim w) = BURST_CAPACITY /\ 0 <= permits (lim w) /\
  permits (lim w) + pending (refill w) <= BURST_CAPACITY /\
  permits (lim w) + pending (refill w) + granted w <= BURST_CAPACITY + ticks w /\
  t0 <= now w /\ 0 <= ticks w /\
  (ticks w - 1) * refill_interval STEADY_STATE_RPS <= now w - t0.

Lemma report_bucket n o l :
  permits (report n o l).1 = permits l /\ capacity (report n o l).1 = capacity l.
Proof. by destruct o. Qed.

Lemma bucket_inv_step t0 w w' : bucket_inv t0 w -> step t0 w w' -> bucket_inv t0 w'.
Proof.
  unfold bucket_inv, tick_due. change (refill_interval STEADY_STATE_RPS) with 66666666.
  intros (Hc & Hp & Hle & Hcons & Hnow & Hk & Ht) Hs.
  destruct Hs as [w t H| | | | | |w id o H| |w H1 H2|w H1|w]; cbn in *;
    try (split_and!; lia).
  - destruct (report_bucket (now w) o (lim w)) as [-> ->]. split_and!; lia.
  - unfold tick_due in H2. change (refill_interval STEADY_STATE_RPS) with 66666666 in H2.
    rewrite H1 in *. cbn in *.
    destruct (Z.ltb_spec (permits (lim w)) (capacity (lim w))); cbn; split_and!; lia.
  - rewrite H1 in *. cbn in *. split_and!; lia.
Qed.

Lemma bucket_inv_boot t0 : bucket_inv t0 (boot t0).
Proof.
  unfold bucket_inv. change (refill_interval STEADY_STATE_RPS) with 66666666.
  cbn -[Z.mul Z.sub]. unfold BURST_CAPACITY. split_and!; lia.
Qed.

(** Rule induction over the reachable states. *)
Lemma reachable_ind t0 (P : world -> Prop) :
  P (boot t0) -> (forall w w', reachable t0 w -> P w -> step t0 w w' -> P w') ->
  forall w, reachable t0 w -> P w.
Proof.
  intros H0 Hs. unfold reachable in *. apply rtc_ind_r; [done|].
  intros w w' Hr Hst IH. by apply (Hs w w').
Qed.

Lemma reachable_bucket t0 w : reachable t0 w -> bucket_inv t0 w.
Proof. apply reachable_ind; [apply bucket_inv_boot|]. intros. by eapply bucket_inv_step. Qed.

(** ** The cooldown *)
Definition until_le (a b : option Z) : Prop :=
  match a, b with Some x, Some y => x <= y | None, _ => True | Some _, None => False end.

Lemma until_le_refl a : until_le a a.
Proof. destruct a; cbn; lia. Qed.

Lemma on_429_set_extends u l :
  until_le (cooldown_until l) (cooldown_until (on_429_set u l)) /\
  until_le (Some u) (cooldown_until (on_429_set u l)).
Proof.
  unfold on_429_set. cbn. destruct (cooldown_until l) as [e|]; cbn; [|lia].
  destruct (Z.ltb_spec e u); cbn; lia.
Qed.
Lemma report_until n o l : cooldown_until (report n o l).1 = cooldown_until l.
Proof. by destruct o. Qed.

Lemma until_le_trans a b c : until_le a b -> until_le b c -> until_le a c.
Proof. destruct a, b, c; cbn; try done; lia. Qed.

Lemma step_until_mono t0 w w' : step t0 w w' ->
  until_le (cooldown_until (lim w)) (cooldown_until (lim w')).
Proof.
  intros []; cbn; rewrite ?report_until; try apply until_le_refl. apply on_429_set_extends.
Qed.

(** A task is held by the deadline [u]: past the gate only when [u] is over, and
    with no deadline before [u] in hand. *)
Definition held (u now : Z) (p : option phase) : Prop :=
  match p with
  | Some (AtCheck _ d) => until_le (Some u) d
  | Some (AtSemaphore _) | Some Calling | Some (Cooling _) => u <= now
  | _ => True
  end.
Definition held_inv (u : Z) (id : nat) (w : world) : Prop :=
  until_le (Some u) (cooldown_until (lim w)) /\ held u (now w) (tasks w !! id).

Lemma held_update u id id' p l w :
  held u (now w) (tasks w !! id) -> (id' = id -> held u (now w) p) ->
  held u (now (update_task id' p l w)) (tasks (update_task id' p l w) !! id).
Proof.
  intros Hh Hp. cbn. destruct (decide (id' = id)) as [->|Hne];
    [rewrite lookup_partial_alter_eq; auto|by rewrite lookup_partial_alter_ne].
Qed.
Lemma gate_next_held u n start d : until_le (Some u) d -> held u n (Some (gate_next n start d)).
Proof.
  unfold gate_next, gate_open. destruct d as [v|]; cbn; [|done]. intros Hv.
  destruct (Z.ltb_spec n v); cbn; [done|lia].
Qed.
Lemma held_step t0 u id w w' : held_inv u id w -> step t0 w w' -> held_inv u id w'.
Proof.
  intros [Hu Hh] Hs. split.
  { eapply until_le_trans; [exact Hu|]. by eapply step_until_mono. }
  destruct Hs as [w t Ht|w i Hi|w i st Hi|w i st d Hi|w i st v Hi Hv|w i st Hi Hp|w i o Hi|w i v Hi| | |];
    [| | | | | | | |exact Hh..].
  - cbn. destruct (tasks w !! id) as [[]|]; cbn in *; try done; lia.
  - by apply held_update.
  - by apply held_update.
  - apply held_update; [done|]. intros ->. rewrite Hi in Hh. by apply gate_next_held.
  - by apply held_update.
  - cbn. destruct (decide (i = id)) as [->|Hne].
    + rewrite lookup_partial_alter_eq. rewrite Hi in Hh. exact Hh.
    + by rewrite lookup_partial_alter_ne.
  - apply held_update; [done|]. intros ->. rewrite Hi in Hh. by destruct o.
  - by apply held_update.
Qed.

Lemma cooldown_secs_small n : 1 <= n < 2 ^ 32 -> cooldown_secs n = 2 ^ (Z.min n 5 - 1).
Proof.
  intros Hn. unfold cooldown_secs, usub. rewrite uwrap_id by (unfold in_u; lia).
  assert (Z.min n 5 = 1 \/ Z.min n 5 = 2 \/ Z.min n 5 = 3 \/ Z.min n 5 = 4 \/ Z.min n 5 = 5)
    as [E | [E | [E | [E | E]]]] by lia; rewrite E; reflexivity.
Qed.

(** ** Theorems *)

(** C31. Every reachable state keeps at most [BURST_CAPACITY] tokens in the
    bucket, under any interleaving of the tasks with the refill task, whose
    test and addition are separate; and in the time since boot the calls let
    through to Fireblocks are at most the burst plus one per refill period. *)
Theorem fireblocks_rate_bounded t0 w :
  reachable t0 w ->
  0 <= permits (lim w) <= BURST_CAPACITY /\
  granted w <= BURST_CAPACITY + 1 + (now w - t0) / refill_interval STEADY_STATE_RPS.
Proof.
  intros (Hc & Hp & Hle & Hcons & Hnow & Hk & Ht)%reachable_bucket.
  assert (ticks w - 1 <= (now w - t0) / refill_interval STEADY_STATE_RPS)
    by (apply Z.div_le_lower_bound; [reflexivity|lia]).
  destruct (refill w); cbn in *; lia.
Qed.

(** The cooldown after the [n]-th consecutive 429 is 1, 2, 4, 8, 16 seconds
    and stays at 16: the documented cap of 30 seconds is never reached, short
    of a wrap-around of the counter. *)
Theorem cooldown_never_reaches_cap n :
  1 <= n < 2 ^ 32 ->
  cooldown_secs n = 2 ^ (Z.min n 5 - 1) /\ cooldown_secs n <= 16 < MAX_COOLDOWN_SECS.
Proof.
  intros Hn. rewrite cooldown_secs_small by done. split; [done|]. unfold MAX_COOLDOWN_SECS.
  assert (2 ^ (Z.min n 5 - 1) <= 2 ^ 4) by (apply Z.pow_le_mono_r; lia). lia.
Qed.

(** After a 429 whose deadline [u] has been set, a task that had not yet read
    the deadline of the gate gets past it only once [u] is over, whatever else
    happens in between: other calls, answers and 429s. *)
Theorem gate_holds_after_429 t0 w1 w2 id u id' :
  tasks w1 !! id = Some (Cooling u) ->
  (tasks w1 !! id' = None \/ exists start, tasks w1 !! id' = Some (AtGate start)) ->
  rtc (step t0) (update_task id None (on_429_set u (lim w1)) w1) w2 ->
  (exists start, tasks w2 !! id' = Some (AtSemaphore start)) \/ tasks w2 !! id' = Some Calling ->
  u <= now w2.
Proof.
  intros Hid Hid' Hr H2.
  assert (H : held_inv u id' w2).
  { assert (H0 : held_inv u id' (update_task id None (on_429_set u (lim w1)) w1)).
    { split; [apply on_429_set_extends|]. apply held_update; [|done].
      by destruct Hid' as [-> | [start ->]]. }
    clear Hid Hid' H2. induction Hr; eauto using held_step. }
  destruct H as [_ H]. by destruct H2 as [[start E] | E]; rewrite E in H.
Qed.

(** A task that waits for a token when a 429 arrives is not held: once a
    token is there it calls the API within the cooldown. *)
Theorem queued_task_ignores_cooldown t0 w id start :
  tasks w !! id = Some (AtSemaphore start) -> 0 < permits (lim w) ->
  gate_open (now w) (cooldown_until (lim w)) = false ->
  exists w', step t0 w w' /\ tasks w' !! id = Some Calling /\ now w' = now w /\
    gate_open (now w') (cooldown_until (lim w')) = false.
Proof.
  intros Ht Hp Hg. eexists. split; [by eapply StepPermit|]. cbn.
  split; [by rewrite lookup_partial_alter_eq|]. split; [done|exact Hg].
Qed.

(** ** Witnesses *)
Module FireblocksWitness.
Definition w_calling : world :=
  mk_world 0 (limiter_new BURST_CAPACITY) {[ 0%nat := Calling ]} Waiting 0 0.

Lemma fireblocks_rate_bounded_witness :
  exists w, reachable 0 w /\ granted w = 1 /\
    granted w <= BURST_CAPACITY + 1 + (now w - 0) / refill_interval STEADY_STATE_RPS.
Proof.
  assert (Hr : exists w, reachable 0 w /\ granted w = 1).
  { eexists. split.
    - eapply rtc_l; [apply (StepCall 0 _ 0%nat); reflexivity|].
      eapply rtc_l; [eapply (StepRead 0 _ 0%nat); reflexivity|].
      eapply rtc_l; [eapply (StepCheck 0 _ 0%nat); reflexivity|].
      eapply rtc_l; [eapply (StepPermit 0 _ 0%nat); reflexivity|]. apply rtc_refl.
    - reflexivity. }
  destruct Hr as (w & Hr & Hg). exists w. split; [exact Hr|]. split; [exact Hg|].
  apply (fireblocks_rate_bounded 0 w Hr).
Defined.

Lemma cooldown_never_reaches_cap_witness : cooldown_secs 7 = 16.
Proof. apply (cooldown_never_reaches_cap 7). lia. Defined.

(** One task gets a 429, another arrives and passes the gate a second later. *)
Definition w_cooling : world :=
  mk_world 0 (limiter_new BURST_CAPACITY) {[ 0%nat := Cooling NANOS ]} Waiting 0 0.
Lemma gate_holds_after_429_witness : exists w : world,
  tasks w !! 1%nat = Some (AtSemaphore 0) /\ NANOS <= now w.
Proof.
  assert (Hr : exists w, rtc (step 0)
    (update_task 0 None (on_429_set NANOS (lim w_cooling)) w_cooling) w /\
    tasks w !! 1%nat = Some (AtSemaphore 0)).
  { eexists. split.
    - eapply rtc_l; [apply (StepCall 0 _ 1%nat); reflexivity|].
      eapply rtc_l; [apply (StepTime 0 _ NANOS); cbn; discriminate|].
      eapply rtc_l; [eapply (StepRead 0 _ 1%nat); reflexivity|].
      eapply rtc_l; [eapply (StepCheck 0 _ 1%nat); reflexivity|]. apply rtc_refl.
    - reflexivity. }
  destruct Hr as (w & Hr & Hw). exists w. split; [exact Hw|].
  apply (gate_holds_after_429 0 w_cooling w 0%nat NANOS 1%nat);
    [reflexivity|left; reflexivity|exact Hr|left; exists 0; exact Hw].
Defined.

Lemma queued_task_ignores_cooldown_witness : exists w',
  step 0 (mk_world 0 (on_429 0 (limiter_new 1)) {[ 3%nat := AtSemaphore 0 ]} Waiting 0 0) w'.
Proof.
  destruct (queued_task_ignores_cooldown 0
    (mk_world 0 (on_429 0 (limiter_new 1)) {[ 3%nat := AtSemaphore 0 ]} Waiting 0 0) 3%nat 0)
    as (w' & H & _); [reflexivity|reflexivity|reflexivity|]. exists w'. exact H.
Defined.
End FireblocksWitness.
