(* ===== verification/Swap.v ===== *)
(** * Swaps of the funds manager (execution_client/swap/, execution_client/venues/quote.rs)

    [swap_immediate_decaying] fetches quotes, picks the best, checks it against
    the reference price and executes it, retrying with an excluded source, a
    smaller size or a wider tolerance.  The market (balances, prices, quotes,
    executions) is an environment indexed by the iteration; the executions sent
    to the venues are the trace of a run.  The loop takes fuel, and
    [swap_terminates] gives the fuel that always suffices.
    [execute_swaps_into_target_token] and its callers cover a target balance
    with such swaps. *)
From Stdlib Require Import ZArith Lia.
From stdpp Require Import gmap strings list sorting.
From S2P Require Import Prelude F64 AuthError.
Local Open Scope Z_scope.

Inductive ExecutionClientError :=
  | Custom (msg : string)
  | Http (msg : string)
  | OnChain (msg : string)
  | Parse (msg : string)
  | PriceReporter (e : PriceReporterClientError)
  | QuoteValidation (msg : string)
  | QuoteConversion (msg : string).

(** ** venues/quote.rs *)
Inductive CrossVenueQuoteSource :=
  | LifiExchange (tool : string) | BebopJAMv2 | BebopPMMv3 | CowswapSource.
Inductive SupportedExecutionVenue := Lifi | Cowswap | Bebop | Okx.

Record ExecutionQuote := mk_quote {
  sell_token : Address;
  buy_token : Address;
  sell_amount : Z;
  buy_amount : Z;
  quote_venue : SupportedExecutionVenue;
  source : CrossVenueQuoteSource;
}.
(** What each venue needs to execute a quote (lifi/mod.rs, bebop/mod.rs,
    cowswap/mod.rs): the transaction of the first two, with its calldata, and
    the terms of the order of the last. *)
Record LifiQuoteExecutionData := mk_lifi_data {
  ld_to : Address; ld_from : Address; ld_value : Z; ld_data : list Z; ld_tool : string }.
Record BebopQuoteExecutionData := mk_bebop_data {
  bd_to : Address; bd_from : Address; bd_value : Z; bd_data : list Z; bd_approval_target : Address }.
Inductive OrderKind := SellOrder.
Inductive SigningScheme := Eip712.
Record CowswapQuoteExecutionData := mk_cowswap_data {
  cd_valid_to : Z; cd_fee_amount : Z; cd_kind : OrderKind; cd_partially_fillable : bool;
  cd_signing_scheme : SigningScheme; cd_signature : string; cd_app_data : string }.
Inductive QuoteExecutionData :=
  | LifiData (d : LifiQuoteExecutionData)
  | BebopData (d : BebopQuoteExecutionData)
  | CowswapData (d : CowswapQuoteExecutionData).
Record ExecutableQuote := mk_executable {
  quote : ExecutionQuote;
  execution_data : QuoteExecutionData;
}.

(** funds-manager-api/src/types/quoters.rs; [default_params] is [Default]. *)
Record QuoteParams := mk_params {
  from_token : Address;
  to_token : Address;
  from_amount : Z;
  slippage_tolerance : option f64;
  increase_price_deviation : bool;
  venue : option SupportedExecutionVenue;
  params_source : option string;
}.

Definition default_params (from_token to_token from_amount : Z) : QuoteParams :=
  mk_params from_token to_token from_amount None false None None.

Record ExecutionResult := mk_result {
  buy_amount_actual : Z;
  gas_cost : Z;
  tx_hash : option Z;
}.
Record DecayingSwapOutcome := mk_outcome {
  out_quote : ExecutionQuote;
  out_buy_amount_actual : Z;
  out_tx_hash : Z;
  cumulative_gas_cost : Z;
}.

Inductive SwapControlFlow :=
  | NoSwap
  | IncreasePriceDeviation
  | DecreaseSwapSize (gas : Z)
  | ExcludeQuoteSource (src : CrossVenueQuoteSource) (gas : Z)
  | FlowError (e : ExecutionClientError).

Definition u256_try_into_u128 (v : Z) : res string Z := ok_or (try_into_u 128 v) "FromUintError"%string.

Definition SWAP_DECAY_FACTOR : Z := 2.
Definition DEFAULT_MAX_PRICE_DEVIATION : f64 := lit 1 100.
Definition PRICE_DEVIATION_INCREASE : f64 := lit 2 10.
Definition MAX_PRICE_DEVIATION_INCREASE : f64 := of_Z 4.
Definition MAX_RETRIES_WITH_EXCLUSION : nat := 5.
Definition MIN_SWAP_QUOTE_AMOUNT : f64 := of_Z 10.
Definition SWAP_TO_COVER_BUFFER : f64 := lit 11 10.

(** helpers.rs: [haystack.windows(needle.len()).any(..)], for a needle that is
    not empty. *)
Fixpoint contains_byte_subslice (haystack needle : list Z) : bool :=
  match haystack with
  | [] => false
  | _ :: rest => bool_decide (take (length needle) haystack = needle) || contains_byte_subslice rest needle
  end.

Definition compute_price_deviation (is_sell : bool) (quote_price reference_price threshold : f64)
    : f64 * bool :=
  let deviation :=
    if is_sell then fdiv (fsub reference_price quote_price) reference_price
    else fdiv (fsub quote_price reference_price) reference_price in
  let abs_dev := fabs deviation in
  (deviation, negb (is_finite abs_dev) || fgtb abs_dev threshold).

Section Client.
(** Token metadata: USDC, decimal conversions, stablecoins, the address of
    the darkpool, and the configured tolerances. *)
Context (usdc : Address) (convert_to_decimal : Address -> Z -> f64).
Context (is_stablecoin : Address -> bool) (darkpool : list Z).
Context (max_price_deviations : Address -> option f64).

Definition is_sell (q : ExecutionQuote) : bool := buy_token q =? usdc.
Definition base_token (q : ExecutionQuote) : Address :=
  if is_sell q then sell_token q else buy_token q.
Definition quote_token (q : ExecutionQuote) : Address :=
  if is_sell q then buy_token q else sell_token q.
(** [expect] on the conversion of the amount. *)
Definition expect_u128 {E} (v : Z) : res E Z := unwrap (try_into_u 128 v).
Definition sell_amount_decimal {E} (q : ExecutionQuote) : res E f64 :=
  a ← expect_u128 (sell_amount q); Ok (convert_to_decimal (sell_token q) a).
Definition get_price {E} (q : ExecutionQuote) (custom_buy_amount : option Z) : res E f64 :=
  b ← expect_u128 (default (buy_amount q) custom_buy_amount);
  let decimal_buy_amount := convert_to_decimal (buy_token q) b in
  decimal_sell_amount ← sell_amount_decimal q;
  let buy_per_sell := fdiv decimal_buy_amount decimal_sell_amount in
  Ok (if is_sell q then buy_per_sell else fdiv f1 buy_per_sell).
Definition notional_volume_usdc {E} (q : ExecutionQuote) (actual : Z) : res E f64 :=
  if is_sell q then a ← expect_u128 actual; Ok (convert_to_decimal (buy_token q) a)
  else sell_amount_decimal q.

Definition darkpool_address_in_calldata (q : ExecutableQuote) : bool :=
  match execution_data q with
  | LifiData d => contains_byte_subslice (ld_data d) darkpool
  | BebopData d => contains_byte_subslice (bd_data d) darkpool
  | CowswapData _ => false
  end.
Definition is_valid (q : ExecutableQuote) : bool := negb (darkpool_address_in_calldata q).

(** ** The environment of one iteration *)
Record market := mk_market {
  erc20_balance : res ExecutionClientError Z;
  price_of : Address -> res ExecutionClientError f64;
  get_quotes : SupportedExecutionVenue -> QuoteParams -> list CrossVenueQuoteSource ->
    res ExecutionClientError (list ExecutableQuote);
  venue_execute : SupportedExecutionVenue -> ExecutableQuote -> res ExecutionClientError ExecutionResult;
}.

(** ** swap_immediate.rs *)
Definition get_expected_quote_amount (m : market) (p : QuoteParams)
    : res ExecutionClientError f64 :=
  a ← map_err Parse (u256_try_into_u128 (from_amount p));
  let from_amount_f64 := convert_to_decimal (from_token p) a in
  if is_stablecoin (from_token p) then Ok from_amount_f64
  else price ← price_of m (from_token p); Ok (fmul from_amount_f64 price).

Definition has_sufficient_balance (m : market) (p : QuoteParams) : res ExecutionClientError bool :=
  b ← erc20_balance m; Ok (b >=? from_amount p).

Definition can_execute_swap (m : market) (p : QuoteParams) : res ExecutionClientError bool :=
  sufficient ← has_sufficient_balance m p;
  if negb sufficient then Ok false
  else
    expected ← get_expected_quote_amount m p;
    Ok (if fltb expected MIN_SWAP_QUOTE_AMOUNT then false else true).

(** Quotes of the venues that answer, in the order of the venues. *)
Fixpoint collect_quotes (rs : list (res ExecutionClientError (list ExecutableQuote)))
    : res ExecutionClientError (list ExecutableQuote) :=
  match rs with
  | [] => Ok []
  | Ok qs :: rest => all ← collect_quotes rest; Ok (qs ++ all)
  | Err _ :: rest => collect_quotes rest
  | Panic :: _ => Panic
  end.
Definition get_all_venues : list SupportedExecutionVenue := [Lifi; Bebop].
Definition fetch_all_quotes (m : market) (p : QuoteParams) (excluded : list CrossVenueQuoteSource)
    : res ExecutionClientError (list ExecutableQuote) :=
  venues ← match venue p with
           | Some Okx => Err (Custom "OKX execution venue is no longer supported")
           | Some v => Ok [v]
           | None => Ok get_all_venues
           end;
  collect_quotes (map (fun v => get_quotes m v p excluded) venues).

Fixpoint select_best_quote (best : option ExecutableQuote) (qs : list ExecutableQuote)
    : res ExecutionClientError (option ExecutableQuote) :=
  match qs with
  | [] => Ok best
  | q :: rest =>
      quote_price ← get_price (quote q) None;
      let sell := is_sell (quote q) in
      match best with
      | None => select_best_quote (Some q) rest
      | Some b =>
          best_price ← get_price (quote b) None;
          let is_better_sell := sell && fgtb quote_price best_price in
          let is_better_buy := negb sell && fltb quote_price best_price in
          select_best_quote (if is_better_sell || is_better_buy then Some q else Some b) rest
      end
  end.

Definition fetch_best_quote (m : market) (p : QuoteParams) (excluded : list CrossVenueQuoteSource)
    : res ExecutionClientError (option ExecutableQuote) :=
  all ← fetch_all_quotes m p excluded;
  select_best_quote None (filter (fun q => is_valid q = true) all).

Definition exceeds_price_deviation (m : market) (q : ExecutionQuote) (multiplier : f64)
    : res ExecutionClientError bool :=
  renegade_price ← price_of m (base_token q);
  quote_price ← get_price q None;
  let max_deviation := default DEFAULT_MAX_PRICE_DEVIATION (max_price_deviations (base_token q)) in
  Ok (compute_price_deviation (is_sell q) quote_price renegade_price
        (fmul max_deviation multiplier)).2.

Definition get_executable_quote (m : market) (p : QuoteParams) (multiplier : f64)
    (excluded : list CrossVenueQuoteSource) : res SwapControlFlow ExecutableQuote :=
  can ← map_err FlowError (can_execute_swap m p);
  if negb can then Err NoSwap
  else
    maybe ← map_err FlowError (fetch_best_quote m p excluded);
    match maybe with
    | None => Err NoSwap
    | Some q =>
        exceeds ← map_err FlowError (exceeds_price_deviation m (quote q) multiplier);
        if exceeds : bool
        then Err (if increase_price_deviation p then IncreasePriceDeviation else DecreaseSwapSize 0)
        else Ok q
    end.

(** An execution sent to a venue, with its answer, errors included. *)
Definition attempt : Type := ExecutableQuote * res ExecutionClientError ExecutionResult.

Definition execution_venue (q : ExecutableQuote) : SupportedExecutionVenue :=
  match execution_data q with LifiData _ => Lifi | CowswapData _ => Cowswap | BebopData _ => Bebop end.

(** The flow, the new count of failures, and the execution made, if any. *)
Definition execute_quote (m : market) (q : ExecutableQuote) (cumulative : Z) (num : nat)
    : res SwapControlFlow DecayingSwapOutcome * nat * list attempt :=
  let answer := venue_execute m (execution_venue q) q in
  match map_err FlowError answer with
  | Err e => (Err e, num, [(q, answer)])
  | Panic => (Panic, num, [(q, answer)])
  | Ok r =>
      let cumulative := uadd 256 cumulative (gas_cost r) in
      match tx_hash r with
      | Some h => (Ok (mk_outcome (quote q) (buy_amount_actual r) h cumulative), num, [(q, answer)])
      | None =>
          let num := S num in
          (Err (if Nat.ltb num MAX_RETRIES_WITH_EXCLUSION
                then ExcludeQuoteSource (source (quote q)) (gas_cost r)
                else DecreaseSwapSize (gas_cost r)), num, [(q, answer)])
      end
  end.

Record loop_state := mk_loop {
  l_params : QuoteParams;
  l_cumulative : Z;
  l_multiplier : f64;
  l_excluded : list CrossVenueQuoteSource;
  l_num : nat;
}.
Definition execute_swap_step (m : market) (st : loop_state)
    : res SwapControlFlow DecayingSwapOutcome * nat * list attempt :=
  match get_executable_quote m (l_params st) (l_multiplier st) (l_excluded st) with
  | Ok q => execute_quote m q (l_cumulative st) (l_num st)
  | Err e => (Err e, l_num st, [])
  | Panic => (Panic, l_num st, [])
  end.

Definition set_from_amount (a : Z) (p : QuoteParams) : QuoteParams :=
  mk_params (from_token p) (to_token p) a (slippage_tolerance p) (increase_price_deviation p)
    (venue p) (params_source p).

Definition swap_result : Type := res ExecutionClientError (option DecayingSwapOutcome).
(** One turn of the loop: its result, or the state of the next turn. *)
Definition swap_turn (m : market) (st : loop_state) : (swap_result + loop_state) * list attempt :=
  let '(r, num, tr) := execute_swap_step m st in
  (match r with
   | Ok outcome => inl (Ok (Some outcome))
   | Panic => inl Panic
   | Err NoSwap => inl (Ok None)
   | Err (FlowError e) => inl (Err e)
   | Err IncreasePriceDeviation =>
       let multiplier := fadd (l_multiplier st) PRICE_DEVIATION_INCREASE in
       if fgtb multiplier MAX_PRICE_DEVIATION_INCREASE then inl (Ok None)
       else inr (mk_loop (l_params st) (l_cumulative st) multiplier (l_excluded st) num)
   | Err (DecreaseSwapSize gas) =>
       inr (mk_loop (set_from_amount (from_amount (l_params st) / SWAP_DECAY_FACTOR) (l_params st))
              (uadd 256 (l_cumulative st) gas) (l_multiplier st) [] 0)
   | Err (ExcludeQuoteSource src gas) =>
       inr (mk_loop (l_params st) (uadd 256 (l_cumulative st) gas) (l_multiplier st)
              (l_excluded st ++ [src]) num)
   end, tr).

(** [None]: out of fuel. *)
Fixpoint swap_loop (fuel : nat) (mkt : nat -> market) (i : nat) (st : loop_state)
    : option (swap_result * list attempt) :=
  match fuel with
  | O => None
  | S fuel =>
      match swap_turn (mkt i) st with
      | (inl r, tr) => Some (r, tr)
      | (inr st', tr) =>
          match swap_loop fuel mkt (S i) st' with
          | Some (r, tr') => Some (r, tr ++ tr')
          | None => None
          end
      end
  end.
Definition loop_init (p : QuoteParams) : loop_state := mk_loop p 0 f1 [] 0.
Definition swap_immediate_decaying (fuel : nat) (mkt : nat -> market) (p : QuoteParams) :=
  swap_loop fuel mkt 0 (loop_init p).
End Client.

(** ** Lemmas on the loop *)
Section LoopLemmas.
Context (usdc : Address) (conv : Address -> Z -> f64) (stable : Address -> bool).
Context (darkpool : list Z) (devs : Address -> option f64).

Abbreviation turn := (swap_turn usdc conv stable darkpool devs).
Abbreviation exec_step := (execute_swap_step usdc conv stable darkpool devs).
Abbreviation loop := (swap_loop usdc conv stable darkpool devs).

(** *** Termination *)

(** Decays left for an amount. *)
Definition decays (a : Z) : Z := if a <=? 0 then 0 else 1 + Z.log2 a.
Definition INCREASES : nat := 14.
Definition multiplier_at (k : nat) : f64 := Nat.iter k (fun x => fadd x PRICE_DEVIATION_INCREASE) f1.

Lemma multiplier_bound : fgtb (multiplier_at (S INCREASES)) MAX_PRICE_DEVIATION_INCREASE = true.
Proof. vm_compute. reflexivity. Qed.

Definition loop_wf (k : nat) (st : loop_state) : Prop :=
  0 <= from_amount (l_params st) /\ (l_num st <= 4)%nat /\ (k <= INCREASES)%nat /\
  l_multiplier st = multiplier_at k.
Definition potential (k : nat) (st : loop_state) : Z :=
  5 * decays (from_amount (l_params st)) + (4 - Z.of_nat (l_num st)) +
  (Z.of_nat INCREASES - Z.of_nat k).

Lemma decays_half a : 0 < a -> decays (a / 2) = decays a - 1.
Proof.
  intros Ha. unfold decays. destruct (Z.leb_spec a 0); [lia|].
  destruct (Z.leb_spec (a / 2) 0) as [H2|H2].
  - assert (a = 1) as -> by (assert (a < 2) by (apply Z.lt_nge; intros ?;
      pose proof (Z.div_le_mono 2 a 2 ltac:(lia) ltac:(lia)); change (2 / 2) with 1 in *; lia); lia).
    reflexivity.
  - rewrite <- (Z.div2_div a), Z.div2_spec, Z.log2_shiftr by lia.
    pose proof (Z.div_pos a 2). rewrite Z.max_r; [lia|].
    assert (2 <= a) by (destruct (Z.le_gt_cases 2 a); [done|]; rewrite Z.div_small in H2; lia).
    pose proof (Z.log2_le_mono 2 a). change (Z.log2 2) with 1 in *. lia.
Qed.

Lemma decays_bound a : a < 2 ^ 128 -> decays a <= 128.
Proof.
  intros Ha. unfold decays. destruct (Z.leb_spec a 0); [lia|].
  pose proof (Z.log2_lt_pow2 a 128). lia.
Qed.

(** The price of the sell token is finite whenever there is one. *)
Definition price_finite (m : market) (t : Address) : Prop :=
  forall p, price_of m t = Ok p -> is_finite p = true.

Lemma zero_mul_small p : is_finite p = true -> fltb (fmul f0 p) MIN_SWAP_QUOTE_AMOUNT = true.
Proof. destruct p as [[]| | |[] ? ?]; done. Qed.

(** A turn on a zero or an overlarge amount ends the loop. *)
Lemma turn_done m st :
  conv (from_token (l_params st)) 0 = f0 -> price_finite m (from_token (l_params st)) ->
  from_amount (l_params st) = 0 \/ 2 ^ 128 <= from_amount (l_params st) ->
  exists r tr, turn m st = (inl r, tr).
Proof.
  intros Hc Hp Ha. unfold swap_turn, execute_swap_step, get_executable_quote, can_execute_swap,
    has_sufficient_balance, get_expected_quote_amount, u256_try_into_u128.
  destruct (erc20_balance m) as [b|e|]; cbn; eauto. destruct (b >=? _); cbn; eauto.
  destruct Ha as [->|Ha].
  - change (try_into_u 128 0) with (Some 0). cbn -[fltb fmul MIN_SWAP_QUOTE_AMOUNT]. rewrite Hc.
    destruct (stable _).
    + eauto.
    + destruct (price_of m (from_token (l_params st))) as [p| |] eqn:E;
        cbn -[fltb fmul MIN_SWAP_QUOTE_AMOUNT]; eauto.
      rewrite zero_mul_small by eauto. cbn. eauto.
  - unfold try_into_u. destruct (Z.ltb_spec (from_amount (l_params st)) (2 ^ 128)); [lia|]. cbn. eauto.
Qed.

Lemma execute_quote_num m q c n r n' tr :
  execute_quote m q c n = (r, n', tr) ->
  (n' <= S n)%nat /\ (forall src g, r = Err (ExcludeQuoteSource src g) -> (n' = S n /\ n' < 5)%nat) /\
  r <> Err IncreasePriceDeviation.
Proof.
  unfold execute_quote. intros H.
  destruct (venue_execute m (execution_venue q) q) as [x| |]; cbn -[Nat.ltb] in H; [destruct (tx_hash x)|..];
    injection H as <- <- <-; (split; [lia|]); split; try discriminate.
  - intros src g. destruct (Nat.ltb_spec (S n) MAX_RETRIES_WITH_EXCLUSION) as [Hlt|]; [|discriminate].
    intros _. unfold MAX_RETRIES_WITH_EXCLUSION in Hlt. lia.
  - destruct (Nat.ltb (S n) MAX_RETRIES_WITH_EXCLUSION); discriminate.
Qed.

Lemma get_executable_quote_flow m p mult excl src g :
  get_executable_quote usdc conv stable darkpool devs m p mult excl
    <> Err (ExcludeQuoteSource src g).
Proof.
  unfold get_executable_quote.
  destruct (can_execute_swap _ _ _ _) as [[]| |]; cbn; try discriminate.
  destruct (fetch_best_quote _ _ _ _ _ _) as [[q|]| |]; cbn; try discriminate.
  destruct (exceeds_price_deviation _ _ _ _ _ _) as [[]| |]; cbn; try discriminate.
  destruct (increase_price_deviation p); discriminate.
Qed.

Lemma exec_step_num m st r n' tr :
  exec_step m st = (r, n', tr) ->
  (forall src g, r = Err (ExcludeQuoteSource src g) -> (n' = S (l_num st) /\ n' < 5)%nat) /\
  (r = Err IncreasePriceDeviation -> n' = l_num st).
Proof.
  unfold execute_swap_step.
  destruct (get_executable_quote _ _ _ _ _ _ _ _ _) as [q|e|] eqn:E; intros H.
  - apply execute_quote_num in H as (_ & H & Hn). split; [done|]. intros ->. done.
  - injection H as <- <- <-. split; [|done]. intros src g [= ->].
    by apply get_executable_quote_flow in E.
  - injection H as <- <- <-. done.
Qed.

Lemma turn_decreases m st k st' tr :
  conv (from_token (l_params st)) 0 = f0 -> price_finite m (from_token (l_params st)) ->
  loop_wf k st -> turn m st = (inr st', tr) ->
  from_token (l_params st') = from_token (l_params st) /\
  exists k', loop_wf k' st' /\ 0 <= potential k' st' < potential k st.
Proof.
  intros Hc Hp (Ha & Hn & Hk & Hm) H.
  assert (Hpos : 0 < from_amount (l_params st)).
  { destruct (decide (from_amount (l_params st) = 0)) as [E|]; [|lia].
    destruct (turn_done m st Hc Hp (or_introl E)) as (r & tr' & Ht). congruence. }
  unfold swap_turn in H. destruct (exec_step m st) as [[r n'] tr'] eqn:E.
  destruct (exec_step_num _ _ _ _ _ E) as [Hx Hi].
  assert (0 <= decays (from_amount (l_params st))).
  { unfold decays. destruct (Z.leb_spec (from_amount (l_params st)) 0); [lia|].
    pose proof (Z.log2_nonneg (from_amount (l_params st))). lia. }
  destruct r as [o|[| |g|src g|e]|]; try done.
  - rewrite (Hi eq_refl) in H. destruct (fgtb _ _) eqn:Eg; [done|]. injection H as <- <-.
    split; [done|]. exists (S k).
    assert (k <> INCREASES).
    { intros ->. rewrite Hm in Eg. change (fadd (multiplier_at INCREASES) PRICE_DEVIATION_INCREASE)
        with (multiplier_at (S INCREASES)) in Eg. by rewrite multiplier_bound in Eg. }
    unfold loop_wf, potential. cbn -[INCREASES decays]. rewrite Hm. split_and!; try lia. done.
  - injection H as <- <-. split; [done|]. exists k. unfold loop_wf, potential.
    cbn -[INCREASES decays Z.mul Z.div]. unfold SWAP_DECAY_FACTOR. rewrite decays_half by done.
    pose proof (Z.div_pos (from_amount (l_params st)) 2).
    assert (0 <= decays (from_amount (l_params st) / 2)).
    { unfold decays. destruct (Z.leb_spec (from_amount (l_params st) / 2) 0); [lia|].
      pose proof (Z.log2_nonneg (from_amount (l_params st) / 2)). lia. }
    rewrite decays_half in * by done. split_and!; try lia. done.
  - destruct (Hx src g eq_refl) as [-> Hlt]. injection H as <- <-. split; [done|]. exists k.
    unfold loop_wf, potential. cbn -[INCREASES decays Z.mul]. split_and!; try lia. done.
Qed.

Lemma loop_terminates mkt t fuel i k st :
  conv t 0 = f0 -> (forall j, price_finite (mkt j) t) ->
  from_token (l_params st) = t -> loop_wf k st -> potential k st < Z.of_nat fuel ->
  is_Some (loop fuel mkt i st).
Proof.
  intros Hc Hp. revert i k st. induction fuel as [|fuel IH]; intros i k st Ht Hw Hf.
  - destruct Hw as (Ha & Hn & Hk & _). unfold potential in Hf.
    assert (0 <= decays (from_amount (l_params st))).
    { unfold decays. destruct (Z.leb_spec (from_amount (l_params st)) 0); [lia|].
      pose proof (Z.log2_nonneg (from_amount (l_params st))). lia. }
    lia.
  - cbn. destruct (turn (mkt i) st) as [[r|st'] tr] eqn:E; [eauto|].
    subst t. destruct (turn_decreases _ _ _ _ _ Hc (Hp i) Hw E) as (Ht & k' & Hw' & Hpot).
    destruct (IH (S i) k' st' Ht Hw' ltac:(lia)) as [[r tr'] ->]. eauto.
Qed.

(** *** The trace of a run *)
Lemma select_best_in best qs q :
  select_best_quote usdc conv best qs = Ok (Some q) -> best = Some q \/ q ∈ qs.
Proof.
  revert best. induction qs as [|q0 qs IH]; intros best H; cbn in H; [left; congruence|].
  apply bind_Ok_inv in H as (p & _ & H). destruct best as [b|].
  - apply bind_Ok_inv in H as (pb & _ & H). apply IH in H as [H|H]; [|right; by right].
    destruct (_ || _); injection H as ->; [right; by left|by left].
  - apply IH in H as [[= ->]|H]; right; [by left|by right].
Qed.

(** What holds of a quote sent to a venue. *)
Definition checked (m : market) (mult : f64) (q : ExecutableQuote) : Prop :=
  is_valid darkpool q = true /\ exceeds_price_deviation usdc conv devs m (quote q) mult = Ok false.

Lemma executable_checked m p mult excl q :
  get_executable_quote usdc conv stable darkpool devs m p mult excl = Ok q -> checked m mult q.
Proof.
  unfold get_executable_quote. intros H. apply bind_Ok_inv in H as ([] & _ & H); [|done]. cbn in H.
  apply bind_Ok_inv in H as ([q'|] & Hf & H); [|done].
  apply bind_Ok_inv in H as ([] & He & H); [done|]. injection H as ->.
  destruct (exceeds_price_deviation _ _ _ _ _ _) eqn:E; try done. cbn in He. injection He as ->.
  split; [|done]. destruct (fetch_best_quote _ _ _ _ _ _) eqn:Ef; try done. cbn in Hf. injection Hf as ->.
  unfold fetch_best_quote in Ef. apply bind_Ok_inv in Ef as (all & _ & Ef).
  apply select_best_in in Ef as [|[Hv _]%list_elem_of_filter]; done.
Qed.

(** An execution that the venue reports as not filled. *)
Definition failed (a : attempt) : Prop := exists x, a.2 = Ok x /\ tx_hash x = None.
Definition attempt_gas (a : attempt) : Z := match a.2 with Ok x => gas_cost x | _ => 0 end.
Definition gas_total (tr : list attempt) : Z := foldr (fun a s => attempt_gas a + s) 0 tr.

(** One turn executes at most one quote, a checked one; it goes on iff the
    venue reports that it was not filled, and then the gas is added to the
    running total. *)
Lemma turn_trace m st r tr :
  in_u 256 (l_cumulative st) -> turn m st = (r, tr) ->
  (tr = [] /\ (forall o, r <> inl (Ok (Some o))) /\
     (forall st', r = inr st' -> l_cumulative st' = l_cumulative st)) \/
  exists q, tr = [(q, venue_execute m (execution_venue q) q)] /\ checked m (l_multiplier st) q /\
    match venue_execute m (execution_venue q) q with
    | Ok x =>
        match tx_hash x with
        | Some h => r = inl (Ok (Some (mk_outcome (quote q) (buy_amount_actual x) h
                                  (uadd 256 (l_cumulative st) (gas_cost x)))))
        | None => exists st', r = inr st' /\ l_cumulative st' = uadd 256 (l_cumulative st) (gas_cost x)
        end
    | Err e => r = inl (Err e)
    | Panic => r = inl Panic
    end.
Proof.
  intros Hcum H. unfold swap_turn, execute_swap_step in H.
  assert (Hz : uadd 256 (l_cumulative st) 0 = l_cumulative st)
    by (unfold uadd; rewrite Z.add_0_r; by apply uwrap_id).
  destruct (get_executable_quote _ _ _ _ _ _ _ _ _) as [q|e|] eqn:E.
  - unfold execute_quote in H. right. exists q. apply executable_checked in E.
    destruct (venue_execute m (execution_venue q) q) as [x|e|] eqn:Ex; cbn -[Nat.ltb] in H;
      [|injection H as <- <-; done..].
    destruct (tx_hash x) eqn:Et; cbn -[Nat.ltb] in H.
    + injection H as <- <-. done.
    + destruct (Nat.ltb _ _); injection H as <- <-; (split_and!; [done..|]); eexists; split; done.
  - left. destruct e as [| |g|src g|e]; cbn in H.
    + injection H as <- <-. done.
    + destruct (fgtb _ _); injection H as <- <-; split_and!; try done. intros st' [= <-]. done.
    + injection H as <- <-. split_and!; try done. intros st' [= <-]. cbn.
      assert (g = 0) as ->; [|done]. revert E. unfold get_executable_quote.
      destruct (can_execute_swap _ _ _ _) as [[]| |]; cbn; try discriminate.
      destruct (fetch_best_quote _ _ _ _ _ _) as [[q|]| |]; cbn; try discriminate.
      destruct (exceeds_price_deviation _ _ _ _ _ _) as [[]| |]; cbn; try discriminate.
      destruct (increase_price_deviation _); congruence.
    + by apply get_executable_quote_flow in E.
    + injection H as <- <-. done.
  - left. injection H as <- <-. done.
Qed.

Lemma uadd_uwrap w a b c : 0 <= w -> uadd w (uadd w a b) c = uwrap w (a + (b + c)).
Proof. intros. unfold uadd, uwrap. rewrite Zplus_mod_idemp_l. f_equal. lia. Qed.

(** What the executions of a run are, by its result: all but the last were not
    filled; the last one is the fill that is reported, or the error. *)
Definition fills_reported (r : swap_result) (cumulative : Z) (tr : list attempt) : Prop :=
  match r with
  | Ok (Some o) => exists tr0 q x, tr = tr0 ++ [(q, Ok x)] /\ Forall failed tr0 /\
      tx_hash x = Some (out_tx_hash o) /\ out_quote o = quote q /\
      out_buy_amount_actual o = buy_amount_actual x /\
      cumulative_gas_cost o = uwrap 256 (cumulative + gas_total tr)
  | Ok None => Forall failed tr
  | Err e => Forall failed tr \/ exists tr0 q, tr = tr0 ++ [(q, Err e)] /\ Forall failed tr0
  | Panic => Forall failed tr \/ exists tr0 q, tr = tr0 ++ [(q, Panic)] /\ Forall failed tr0
  end.

Lemma loop_trace mkt fuel i st r tr :
  in_u 256 (l_cumulative st) -> loop fuel mkt i st = Some (r, tr) ->
  fills_reported r (l_cumulative st) tr.
Proof.
  revert i st r tr. induction fuel as [|fuel IH]; intros i st r tr Hc H; [done|]. cbn in H.
  destruct (turn (mkt i) st) as [[r0|st'] tr0] eqn:E;
    destruct (turn_trace _ _ _ _ Hc E) as [(-> & Hno & Hcum)|(q & -> & _ & Hx)].
  - injection H as <- <-. destruct r0 as [[o|]| |]; cbn; try (by constructor); [by destruct (Hno o)|by left..].
  - injection H as <- <-. destruct (venue_execute _ _ _) as [x|e|] eqn:Ev.
    + destruct (tx_hash x) as [h|] eqn:Et; [|by destruct Hx as (? & ? & _)].
      injection Hx as ->. exists [], q, x. split_and!; try done.
      cbn [cumulative_gas_cost gas_total foldr attempt_gas snd]. unfold uadd. by rewrite Z.add_0_r.
    + injection Hx as ->. right. by exists [], q.
    + injection Hx as ->. right. by exists [], q.
  - destruct (loop fuel mkt (S i) st') as [[r1 tr1]|] eqn:El; [|done]. injection H as <- <-.
    rewrite <- (Hcum st' eq_refl). eapply IH; [|done]. by rewrite (Hcum st' eq_refl).
  - destruct (loop fuel mkt (S i) st') as [[r1 tr1]|] eqn:El; [|done]. injection H as <- <-.
    destruct (venue_execute _ _ _) as [x|e|] eqn:Ev; [|discriminate Hx..].
    destruct (tx_hash x) as [h|] eqn:Et; [done|]. destruct Hx as (? & [= <-] & Hcum).
    assert (Hf : failed (q, Ok x)) by (by exists x).
    specialize (IH (S i) st' r1 tr1 ltac:(rewrite Hcum; apply uwrap_range; lia) El).
    destruct r1 as [[o|]| |]; cbn in IH |- *.
    + destruct IH as (t0 & q1 & x1 & -> & Hfs & Ht & Hq & Hb & Hg).
      exists ((q, Ok x) :: t0), q1, x1. split_and!; try done; [by constructor|].
      rewrite Hg, Hcum. unfold uadd, uwrap. rewrite Zplus_mod_idemp_l.
      apply (f_equal (fun n => n mod 2 ^ 256)). unfold gas_total. cbn [foldr app attempt_gas snd]. lia.
    + by constructor.
    + destruct IH as [?|(t0 & q1 & -> & ?)]; [left; by constructor|right].
      exists ((q, Ok x) :: t0), q1. split; [done|by constructor].
    + destruct IH as [?|(t0 & q1 & -> & ?)]; [left; by constructor|right].
      exists ((q, Ok x) :: t0), q1. split; [done|by constructor].
Qed.

Lemma loop_checked mkt fuel i k st r tr :
  loop_wf k st -> in_u 256 (l_cumulative st) -> loop fuel mkt i st = Some (r, tr) ->
  Forall (fun a => exists j k', (k' <= INCREASES)%nat /\
    a.2 = venue_execute (mkt j) (execution_venue a.1) a.1 /\
    checked (mkt j) (multiplier_at k') a.1) tr.
Proof.
  revert i k st r tr. induction fuel as [|fuel IH]; intros i k st r tr Hw Hc H; [done|]. cbn in H.
  destruct (turn (mkt i) st) as [r0 tr0] eqn:E.
  assert (Ht0 : Forall (fun a : attempt => exists j k', (k' <= INCREASES)%nat /\
      a.2 = venue_execute (mkt j) (execution_venue a.1) a.1 /\
      checked (mkt j) (multiplier_at k') a.1) tr0).
  { destruct (turn_trace _ _ _ _ Hc E) as [(-> & _)|(q & -> & Hq & _)]; constructor; [|constructor].
    destruct Hw as (_ & _ & Hk & Hm). rewrite Hm in Hq. eauto 10. }
  destruct r0 as [r0|st']; [by injection H as <- <-|].
  destruct (loop fuel mkt (S i) st') as [[r1 tr1]|] eqn:El; [|done]. injection H as <- <-.
  apply Forall_app. split; [done|].
  assert (exists k', loop_wf k' st' /\ in_u 256 (l_cumulative st')) as (k' & Hw' & Hc').
  { revert E. destruct Hw as (Ha & Hn & Hk & Hm). unfold swap_turn.
    destruct (exec_step (mkt i) st) as [[r0 n'] tr'] eqn:Es.
    destruct (exec_step_num _ _ _ _ _ Es) as [Hx Hi].
    destruct r0 as [o|[| |g|src g|e]|]; try done.
    - rewrite (Hi eq_refl). destruct (fgtb _ _) eqn:Eg; [done|]. intros [= <- <-]. exists (S k).
      assert (k <> INCREASES).
      { intros ->. rewrite Hm in Eg. change (fadd (multiplier_at INCREASES) PRICE_DEVIATION_INCREASE)
          with (multiplier_at (S INCREASES)) in Eg. by rewrite multiplier_bound in Eg. }
      unfold loop_wf. cbn -[INCREASES]. rewrite Hm. split_and!; try lia; try done.
      all: by destruct Hc.
    - intros [= <- <-]. exists k. unfold loop_wf. cbn -[INCREASES Z.div].
      split; [|apply uwrap_range; lia]. split_and!; try done; try lia. apply Z.div_pos; [done|done].
    - destruct (Hx src g eq_refl) as [-> Hlt]. intros [= <- <-]. exists k. unfold loop_wf.
      cbn -[INCREASES]. split; [|apply uwrap_range; lia]. split_and!; try done; lia. }
  by eapply IH.
Qed.
End LoopLemmas.

(** ** swap_to_target.rs *)
Section Target.
Context (usdc usd_dummy : Address) (convert_to_decimal : Address -> Z -> f64).
Context (convert_from_decimal : Address -> f64 -> Z).
(** The tokens of the chain; balances and prices; [swap_immediate_decaying]. *)
Context (get_all_tokens : list Address).
Context (get_erc20_balance price_reporter : Address -> res ExecutionClientError f64).
Context (do_swap : QuoteParams -> res ExecutionClientError (option DecayingSwapOutcome)).

Record SwapCandidate := mk_candidate { c_token : Address; c_balance : f64; c_price : f64 }.
Definition notional_value (c : SwapCandidate) : f64 := fmul (c_balance c) (c_price c).

Definition swap_candidate_predicate (excluded : list Address) (t : Address) : bool :=
  negb (bool_decide (t ∈ excluded)) && negb (t =? usd_dummy).

(** The stable sort by descending value; incomparable values are equal. *)
Fixpoint insert_candidate (c : SwapCandidate) (l : list SwapCandidate) : list SwapCandidate :=
  match l with
  | [] => [c]
  | d :: r => if fgtb (notional_value d) (notional_value c) then d :: insert_candidate c r else c :: l
  end.
Definition sort_candidates (l : list SwapCandidate) : list SwapCandidate :=
  foldr insert_candidate [] l.

Fixpoint load_candidates (ts : list Address) : res ExecutionClientError (list SwapCandidate) :=
  match ts with
  | [] => Ok []
  | t :: rest =>
      balance ← get_erc20_balance t; price ← price_reporter t;
      cs ← load_candidates rest; Ok (mk_candidate t balance price :: cs)
  end.
Definition get_swap_candidates (excluded : list Address)
    : res ExecutionClientError (list SwapCandidate) :=
  cs ← load_candidates (filter (fun t => swap_candidate_predicate excluded t = true) get_all_tokens);
  Ok (sort_candidates cs).

(** The swap asked for, with its outcome. *)
Definition try_swap_candidate (p : QuoteParams) (target : Address) (c : SwapCandidate)
    (amount_to_cover_usdc : f64)
    : res ExecutionClientError (option (QuoteParams * DecayingSwapOutcome)) :=
  let swap_amount_decimal :=
    if fleb (notional_value c) amount_to_cover_usdc then c_balance c
    else fdiv amount_to_cover_usdc (c_price c) in
  if fltb (fmul swap_amount_decimal (c_price c)) MIN_SWAP_QUOTE_AMOUNT then Ok None
  else
    let sp := mk_params (c_token c) target (convert_from_decimal (c_token c) swap_amount_decimal)
                (slippage_tolerance p) (increase_price_deviation p) (venue p) (params_source p) in
    match do_swap sp with
    | Ok (Some o) => Ok (Some (sp, o))
    | Ok None | Err _ => Ok None
    | Panic => Panic
    end.

Fixpoint cover_loop (p : QuoteParams) (target : Address) (remaining_amount_usdc : f64)
    (cs : list SwapCandidate)
    : res ExecutionClientError (list (QuoteParams * DecayingSwapOutcome)) :=
  match cs with
  | [] => Ok []
  | c :: rest =>
      if fltb remaining_amount_usdc MIN_SWAP_QUOTE_AMOUNT then Ok []
      else
        maybe ← try_swap_candidate p target c remaining_amount_usdc;
        match maybe with
        | None => cover_loop p target remaining_amount_usdc rest
        | Some (sp, o) =>
            _ ← sell_amount_decimal convert_to_decimal (out_quote o);
            bought ← map_err Parse (u256_try_into_u128 (out_buy_amount_actual o));
            let buy_amount_decimal := convert_to_decimal (buy_token (out_quote o)) bought in
            outs ← cover_loop p target (fsub remaining_amount_usdc buy_amount_decimal) rest;
            Ok ((sp, o) :: outs)
        end
  end.

Definition execute_swaps_into_target_token (p : QuoteParams) (target : Address)
    (amount_to_cover_usdc : f64) (excluded : list Address)
    : res ExecutionClientError (list (QuoteParams * DecayingSwapOutcome)) :=
  cs ← get_swap_candidates excluded;
  cover_loop p target (fmul amount_to_cover_usdc SWAP_TO_COVER_BUFFER) cs.

Definition try_swap_into_target_token (target_amount : f64) (p : QuoteParams)
    (exclude_tokens : list Address)
    : res ExecutionClientError (list (QuoteParams * DecayingSwapOutcome)) :=
  let target := to_token p in
  let excluded := exclude_tokens ++ [target] in
  current_balance ← get_erc20_balance target;
  if fgeb current_balance target_amount then Ok []
  else
    let amount_to_cover := fsub target_amount current_balance in
    price ← price_reporter target;
    let amount_to_cover_usdc := fmul amount_to_cover price in
    if fltb amount_to_cover_usdc MIN_SWAP_QUOTE_AMOUNT then Ok []
    else execute_swaps_into_target_token p target amount_to_cover_usdc excluded.

Fixpoint get_multi_swap_purchase_values (targets : list (Address * f64))
    : res ExecutionClientError (list (Address * f64)) :=
  match targets with
  | [] => Ok []
  | (t, target_balance) :: rest =>
      price ← price_reporter t;
      current_balance ← get_erc20_balance t;
      let purchase_amount := fmax (fsub target_balance current_balance) f0 in
      vs ← get_multi_swap_purchase_values rest;
      Ok ((t, fmul purchase_amount price) :: vs)
  end.

Definition buy_usdc_for_multi_swap (purchase_values : list (Address * f64))
    : res ExecutionClientError (list (QuoteParams * DecayingSwapOutcome)) :=
  let usdc_target_balance := foldl (fun s v => fadd s v.2) f0 purchase_values in
  if feqb usdc_target_balance f0 then Ok []
  else try_swap_into_target_token usdc_target_balance (default_params 0 usdc 0)
         (map fst purchase_values).

Definition buy_token_dollar_amount (t : Address) (purchase_value : f64)
    : res ExecutionClientError (option (QuoteParams * DecayingSwapOutcome)) :=
  let p := default_params usdc t (convert_from_decimal usdc purchase_value) in
  o ← do_swap p; Ok (option_map (fun o => (p, o)) o).

(** Errors of a purchase are logged. *)
Fixpoint buy_all (vs : list (Address * f64))
    : res ExecutionClientError (list (QuoteParams * DecayingSwapOutcome)) :=
  match vs with
  | [] => Ok []
  | (t, v) :: rest =>
      match buy_token_dollar_amount t (fmul v SWAP_TO_COVER_BUFFER) with
      | Ok (Some o) => outs ← buy_all rest; Ok (o :: outs)
      | Ok None | Err _ => buy_all rest
      | Panic => Panic
      end
  end.
Definition multi_swap_into_target_tokens (targets : list (Address * f64))
    : res ExecutionClientError (list (QuoteParams * DecayingSwapOutcome)) :=
  purchase_values ← get_multi_swap_purchase_values targets;
  outs ← buy_usdc_for_multi_swap purchase_values;
  let filtered := filter (fun v => fgtb v.2 f0 = true /\ v.1 <> usdc) purchase_values in
  bought ← buy_all filtered;
  Ok (outs ++ bought).

End Target.

(** *** Lemmas *)
Lemma insert_candidate_elem c d l : c ∈ insert_candidate d l -> c = d \/ c ∈ l.
Proof.
  induction l as [|e l IH]; cbn; [set_solver|]. destruct (fgtb _ _); set_solver.
Qed.
Lemma sort_candidates_elem c l : c ∈ sort_candidates l -> c ∈ l.
Proof.
  induction l as [|e l IH]; cbn; [done|]. intros [->|H]%insert_candidate_elem; set_solver.
Qed.
Lemma load_candidates_elem bal price c ts cs :
  load_candidates bal price ts = Ok cs -> c ∈ cs -> c_token c ∈ ts.
Proof.
  revert cs. induction ts as [|t ts IH]; cbn; intros cs H Hc; [injection H as <-; set_solver|].
  apply bind_Ok_inv in H as (b & _ & H). apply bind_Ok_inv in H as (p & _ & H).
  apply bind_Ok_inv in H as (cs' & Hl & [= <-]).
  apply elem_of_cons in Hc as [->|Hc]; [by left|right; eauto].
Qed.

Lemma cover_loop_params conv conv_from swap p target r cs outs sp o :
  cover_loop conv conv_from swap p target r cs = Ok outs -> (sp, o) ∈ outs ->
  to_token sp = target /\ exists c, c ∈ cs /\ from_token sp = c_token c.
Proof.
  revert r outs. induction cs as [|c cs IH]; cbn -[try_swap_candidate]; intros r outs H Hin.
  { injection H as <-. set_solver. }
  destruct (fltb r _); [injection H as <-; set_solver|].
  apply bind_Ok_inv in H as (maybe & Ht & H). destruct maybe as [[sp' o']|].
  - apply bind_Ok_inv in H as (? & _ & H). apply bind_Ok_inv in H as (b & _ & H).
    apply bind_Ok_inv in H as (outs' & Hl & [= <-]).
    apply elem_of_cons in Hin as [[= -> ->]|Hin].
    + unfold try_swap_candidate in Ht. destruct (fltb _ _); [done|].
      destruct (swap _) as [[o1|]| |]; try done. injection Ht as <- <-. cbn. set_solver.
    + destruct (IH _ _ Hl Hin) as (? & c' & ? & ?). split; [done|]. exists c'. set_solver.
  - destruct (IH _ _ H Hin) as (? & c' & ? & ?). split; [done|]. exists c'. set_solver.
Qed.

(** *** Selection *)
Section Selection.
Context (usdc : Address) (conv : Address -> Z -> f64) (side : bool).

Definition price_is (q : ExecutableQuote) (p : f64) : Prop :=
  get_price (E := ExecutionClientError) usdc conv (quote q) None = Ok p.
Definition good (q : ExecutableQuote) : Prop :=
  is_sell usdc (quote q) = side /\ exists p, price_is q p /\ non_nan p.
(** [b] is at least as good as [q]. *)
Definition beats (b q : ExecutableQuote) : Prop :=
  forall p pb, price_is q p -> price_is b pb -> (if side then fleb p pb else fleb pb p) = true.

Lemma price_is_inj q p p' : price_is q p -> price_is q p' -> p = p'.
Proof. unfold price_is. congruence. Qed.

Lemma beats_trans a b c : good b -> beats a b -> beats b c -> beats a c.
Proof.
  intros (_ & p & Hp & _) Hab Hbc pc pa Hc Ha.
  specialize (Hab p pa Hp Ha). specialize (Hbc pc p Hc Hp). destruct side; eauto using fleb_trans.
Qed.
Lemma beats_refl q : good q -> beats q q.
Proof.
  intros (_ & p & Hp & Hn) p1 p2 H1 H2.
  rewrite (price_is_inj _ _ _ H1 Hp), (price_is_inj _ _ _ H2 Hp). destruct side; by apply fleb_refl.
Qed.

(** The comparison of the loop decides which of two quotes is better. *)
Lemma better_beats q c p pc :
  good q -> good c -> price_is q p -> price_is c pc ->
  let sell := is_sell usdc (quote q) in
  if (sell && fgtb p pc) || (negb sell && fltb p pc) then beats q c else beats c q.
Proof.
  intros (Hside & p' & Hp' & Hn) (_ & pc' & Hpc' & Hnc) Hp Hpc. cbn zeta. rewrite Hside.
  rewrite (price_is_inj _ _ _ Hp' Hp) in Hn. rewrite (price_is_inj _ _ _ Hpc' Hpc) in Hnc.
  destruct ((side && _) || _) eqn:Eb; intros p1 p2 H1 H2.
  - rewrite (price_is_inj _ _ _ H1 Hpc), (price_is_inj _ _ _ H2 Hp).
    destruct side; cbn in Eb; rewrite ?orb_false_r in Eb; by apply fltb_fleb.
  - rewrite (price_is_inj _ _ _ H1 Hp), (price_is_inj _ _ _ H2 Hpc).
    destruct side; cbn in Eb; rewrite ?orb_false_r in Eb; by apply fltb_false_fleb.
Qed.

(** The result beats the current best and all the quotes to come. *)
Lemma select_best_beats l o b :
  Forall good l -> (forall c, o = Some c -> good c) ->
  select_best_quote usdc conv o l = Ok (Some b) ->
  (forall c, o = Some c -> beats b c) /\ forall q, q ∈ l -> beats b q.
Proof.
  intros Hl. revert o. induction Hl as [|q l Hq Hl IH]; intros o Ho Hsel; cbn in Hsel.
  { split; [|set_solver]. intros c ->. injection Hsel as <-. apply beats_refl. by apply Ho. }
  apply bind_Ok_inv in Hsel as (p & Hp & Hsel). destruct o as [c|].
  - apply bind_Ok_inv in Hsel as (pc & Hpc & Hsel). specialize (Ho c eq_refl).
    pose proof (better_beats q c p pc Hq Ho Hp Hpc) as Hb. cbn zeta in Hb.
    assert (Hgood : forall x, x = q \/ x = c -> forall y, Some x = Some y -> good y)
      by (intros x [-> | ->] y [= <-]; done).
    destruct (_ || _); [destruct (IH (Some q) (Hgood q ltac:(auto)) Hsel) as [Hc Hrest]
      |destruct (IH (Some c) (Hgood c ltac:(auto)) Hsel) as [Hc Hrest]];
      specialize (Hc _ eq_refl); split.
    + intros ? [= <-]. by apply (beats_trans b q c).
    + intros q' [->|Hin]%elem_of_cons; auto.
    + by intros ? [= <-].
    + intros q' [->|Hin]%elem_of_cons; [|auto]. by apply (beats_trans b c q).
  - assert (Hgood : forall y, Some q = Some y -> good y) by (intros y [= <-]; done).
    destruct (IH (Some q) Hgood Hsel) as [Hc Hrest]. split; [done|].
    intros q' [->|Hin]%elem_of_cons; auto.
Qed.
End Selection.

(** ** Theorems *)

(** Turns that always suffice: the size halves at most 128 times, with at most
    four exclusions between two decays, and the tolerance grows at most fourteen
    times. *)
Definition SWAP_FUEL : nat := 660.

(** C6. A decaying swap terminates whatever the market does, as long as the price
    of the token sold is never an infinity or NaN: at most [SWAP_FUEL] turns
    give its result. *)
Theorem swap_terminates usdc conv stable darkpool devs mkt p fuel :
  0 <= from_amount p -> conv (from_token p) 0 = f0 ->
  (forall j, price_finite (mkt j) (from_token p)) ->
  (SWAP_FUEL <= fuel)%nat ->
  is_Some (swap_immediate_decaying usdc conv stable darkpool devs fuel mkt p).
Proof.
  intros Ha Hc Hp Hf. unfold swap_immediate_decaying.
  destruct (Z.lt_ge_cases (from_amount p) (2 ^ 128)) as [Hlt|Hge].
  - apply (loop_terminates usdc conv stable darkpool devs mkt (from_token p) fuel 0 0); try done.
    + unfold loop_wf. cbn. split_and!; try lia. done.
    + unfold potential. cbn -[decays INCREASES Z.mul]. pose proof (decays_bound _ Hlt).
      unfold INCREASES, SWAP_FUEL in *. lia.
  - destruct fuel as [|fuel]; [unfold SWAP_FUEL in Hf; lia|]. cbn.
    destruct (turn_done usdc conv stable darkpool devs (mkt 0%nat) (loop_init p) Hc (Hp 0%nat)
      (or_intror Hge)) as (r & tr & ->). eauto.
Qed.

(** C4. Whatever the market does, a run executes at most one successful swap: all
    executions but the last one were not filled; the result is the last one when it
    was filled, with its amount, and the gas it reports is the sum over all
    executions; a run that reports no swap filled nothing; and an execution whose
    outcome is not known, because the venue answered an error, is the last one and
    its error is the result. *)
Theorem swap_at_most_one_fill usdc conv stable darkpool devs mkt p fuel r tr :
  swap_immediate_decaying usdc conv stable darkpool devs fuel mkt p = Some (r, tr) ->
  match r with
  | Ok (Some o) => exists tr0 q x, tr = tr0 ++ [(q, Ok x)] /\ Forall failed tr0 /\
      tx_hash x = Some (out_tx_hash o) /\ out_quote o = quote q /\
      out_buy_amount_actual o = buy_amount_actual x /\
      cumulative_gas_cost o = uwrap 256 (gas_total tr)
  | Ok None => Forall failed tr
  | Err e => Forall failed tr \/ exists tr0 q, tr = tr0 ++ [(q, Err e)] /\ Forall failed tr0
  | Panic => Forall failed tr \/ exists tr0 q, tr = tr0 ++ [(q, Panic)] /\ Forall failed tr0
  end.
Proof.
  intros H. apply loop_trace in H; [|cbn; unfold in_u; lia]. exact H.
Qed.

(** The bytes of a quote that go to the chain. *)
Definition quote_calldata (q : ExecutableQuote) : list Z :=
  match execution_data q with
  | LifiData d => ld_data d
  | BebopData d => bd_data d
  | CowswapData _ => []
  end.
(** Dollars per unit of the other token when a quote buys [amount], for amounts
    that fit 128 bits. *)
Definition dollar_price (usdc : Address) (conv : Address -> Z -> f64) (q : ExecutionQuote) (amount : Z) : f64 :=
  let bought := conv (buy_token q) amount in
  let sold := conv (sell_token q) (sell_amount q) in
  if decide (buy_token q = usdc) then fdiv bought sold else fdiv f1 (fdiv bought sold).

Lemma contains_spec haystack needle pre post :
  needle <> [] -> haystack = pre ++ needle ++ post -> contains_byte_subslice haystack needle = true.
Proof.
  intros Hn. revert haystack. induction pre as [|x pre IH]; intros haystack ->; cbn.
  - destruct needle as [|y needle]; [done|]. cbn [app contains_byte_subslice].
    rewrite bool_decide_eq_true_2; [done|]. apply (take_app_length (y :: needle)).
  - rewrite (IH _ eq_refl). apply orb_true_r.
Qed.

Lemma price_is_dollar {E} usdc conv q custom p :
  get_price (E := E) usdc conv q custom = Ok p ->
  p = dollar_price usdc conv q (default (buy_amount q) custom).
Proof.
  unfold get_price, sell_amount_decimal, expect_u128, dollar_price, is_sell.
  generalize (default (buy_amount q) custom). intros amount.
  intros H. apply bind_Ok_inv in H as (b & Hb & H). apply bind_Ok_inv in H as (s & Hs & [= <-]).
  apply bind_Ok_inv in Hs as (a & Ha & [= <-]).
  destruct (try_into_u 128 amount) as [b'|] eqn:Eb; [injection Hb as ->|done].
  destruct (try_into_u 128 (sell_amount q)) as [a'|] eqn:Ea; [injection Ha as ->|done].
  apply try_into_u_Some in Eb as [-> _]. apply try_into_u_Some in Ea as [-> _].
  destruct (Z.eqb_spec (buy_token q) usdc), (decide (buy_token q = usdc)); done.
Qed.

Lemma fmul_finite_non_nan x y : is_finite x = true -> is_finite y = true -> non_nan (fmul x y).
Proof.
  destruct x as [| | |sx mx ex], y as [| | |sy my ey]; try done. intros _ _.
  apply round_aux_non_nan. lia.
Qed.

(** A price that passed the deviation check. *)
Lemma deviation_passed sell q ref threshold :
  non_nan threshold -> (compute_price_deviation sell q ref threshold).2 = false ->
  let dev := fdiv (if sell then fsub ref q else fsub q ref) ref in
  is_finite q = true /\ is_finite ref = true /\ feqb ref f0 = false /\
  fleb (fabs dev) threshold = true.
Proof.
  intros Ht Hx. unfold compute_price_deviation in Hx. cbn zeta. cbn [snd] in Hx.
  apply orb_false_iff in Hx as [Hfin Hle]. apply negb_false_iff in Hfin.
  set (dev := fdiv (if sell then _ else _) ref).
  assert (Hd : (if sell then fdiv (fsub ref q) ref else fdiv (fsub q ref) ref) = dev) by (by destruct sell).
  rewrite Hd in Hfin, Hle. assert (Hdev : is_finite dev = true) by (by destruct dev).
  assert (is_finite q = true /\ is_finite ref = true /\ feqb ref f0 = false) as (? & ? & ?).
  { clear -Hdev. unfold dev in Hdev.
    destruct sell, q as [[]|[]| |[] mq eq], ref as [[]|[]| |[] mr er]; done. }
  split_and!; try done. apply fltb_false_fleb; [done|by apply finite_non_nan|exact Hle].
Qed.

(** C5. Every quote a run sends to a venue was checked in the turn that sent it:
    the address of the darkpool occurs nowhere in its calldata; its price and the
    reference price of that turn are finite numbers, the latter not zero, and their
    relative deviation is at most the tolerance of the token (one percent unless
    configured) times a factor that starts at one and was raised at most fourteen
    times by 0.2, so is at most four. *)
Theorem executed_quotes_checked usdc conv stable darkpool devs mkt p fuel r tr :
  0 <= from_amount p -> darkpool <> [] ->
  (forall t d, devs t = Some d -> is_finite d = true) ->
  swap_immediate_decaying usdc conv stable darkpool devs fuel mkt p = Some (r, tr) ->
  Forall (fun a => exists j k ref,
    let q := quote a.1 in
    let other := if decide (buy_token q = usdc) then sell_token q else buy_token q in
    let price := dollar_price usdc conv q (buy_amount q) in
    let dev := fdiv (if decide (buy_token q = usdc) then fsub ref price else fsub price ref) ref in
    a.2 = venue_execute (mkt j) (execution_venue a.1) a.1 /\
    (~ exists pre post, quote_calldata a.1 = pre ++ darkpool ++ post) /\
    price_of (mkt j) other = Ok ref /\ is_finite ref = true /\ feqb ref f0 = false /\
    is_finite price = true /\
    (k <= 14)%nat /\ fleb (multiplier_at k) (of_Z 4) = true /\
    fleb (fabs dev) (fmul (default (lit 1 100) (devs other)) (multiplier_at k)) = true) tr.
Proof.
  intros Ha Hdp Hdevs H. apply (loop_checked _ _ _ _ _ _ _ _ 0) in H; cycle 1.
  - unfold loop_wf. cbn. split_and!; try lia. done.
  - cbn. unfold in_u. lia.
  - eapply Forall_impl; [exact H|]. intros [q x] (j & k & Hk & Hx & Hv & He). cbn [fst snd] in *.
    unfold exceeds_price_deviation in He. apply bind_Ok_inv in He as (ref & Href & He).
    apply bind_Ok_inv in He as (pr & Hpr%price_is_dollar & Hok). subst pr.
    match type of Hok with Ok ?x = Ok false => assert (He : x = false) by congruence end.
    assert (is_finite (multiplier_at k) = true /\ fleb (multiplier_at k) (of_Z 4) = true) as [Hmf Hm4].
    { unfold INCREASES in Hk. clear -Hk. do 15 (destruct k as [|k]; [by vm_compute|]). lia. }
    unfold base_token, is_sell in Href, He.
    exists j, k, ref. cbn zeta.
    assert (Hd : (buy_token (quote q) =? usdc) = if decide (buy_token (quote q) = usdc) then true else false)
      by (destruct (decide _); [by apply Z.eqb_eq|by apply Z.eqb_neq]).
    rewrite Hd in Href, He.
    assert (Hcd : ~ exists pre post, quote_calldata q = pre ++ darkpool ++ post).
    { intros (pre & post & Hc). apply contains_spec in Hc; [|done].
      unfold is_valid, darkpool_address_in_calldata in Hv. unfold quote_calldata in Hc.
      destruct (execution_data q); cbn in Hc; [by rewrite Hc in Hv|by rewrite Hc in Hv|done]. }
    assert (Hnan : forall t, non_nan (fmul (default (lit 1 100) (devs t)) (multiplier_at k))).
    { intros t. apply fmul_finite_non_nan; [|done]. destruct (devs t) as [d|] eqn:Ed; [by eapply Hdevs|done]. }
    destruct (decide (buy_token (quote q) = usdc));
      apply deviation_passed in He as (H1 & H2 & H3 & H4); try apply Hnan; by split_and!.
Qed.

(** The deviation check fails closed: a quote passes only when both prices
    are finite, the reference is not zero, and the relative deviation in
    either direction is within the threshold. *)
Theorem price_deviation_fails_closed sell q ref threshold dev :
  non_nan threshold ->
  compute_price_deviation sell q ref threshold = (dev, false) ->
  is_finite q = true /\ is_finite ref = true /\ feqb ref f0 = false /\
  is_finite dev = true /\ fleb (fabs dev) threshold = true.
Proof.
  intros Ht H. unfold compute_price_deviation in H.
  injection H as Hd Hx. rewrite Hd in Hx. apply orb_false_iff in Hx as [Hfin Hle].
  apply negb_false_iff in Hfin.
  assert (Hdev : is_finite dev = true) by (by destruct dev).
  assert (Hcases : is_finite q = true /\ is_finite ref = true /\ feqb ref f0 = false).
  { clear Hle Hfin. subst dev. destruct sell, q as [[]|[]| |[] mq eq], ref as [[]|[]| |[] mr er]; done. }
  destruct Hcases as (Hq & Hr & Hz). split_and!; try done.
  apply fltb_false_fleb; [done|by apply finite_non_nan|exact Hle].
Qed.

(** The quote selected is the best: among quotes on one side with prices that
    are numbers, none has a higher price when selling, or a lower one when
    buying. *)
Theorem best_quote_optimal usdc conv qs side best :
  Forall (good usdc conv side) qs ->
  select_best_quote usdc conv None qs = Ok (Some best) ->
  best ∈ qs /\ forall q, q ∈ qs -> beats usdc conv side best q.
Proof.
  intros Hqs H. split; [destruct (select_best_in usdc conv None qs best H) as [?|?]; done|].
  by apply (select_best_beats usdc conv side qs None best Hqs).
Qed.

(** Covering a target never sells the target token nor an excluded one: every
    swap asked for goes from another token into the target. *)
Theorem target_swaps_respect_exclusions dummy conv conv_from tokens bal price swap
    amount p excl outs sp o :
  try_swap_into_target_token dummy conv conv_from tokens bal price swap amount p excl = Ok outs ->
  (sp, o) ∈ outs ->
  to_token sp = to_token p /\ from_token sp <> to_token p /\ (from_token sp ∉ excl) /\
  from_token sp ∈ tokens.
Proof.
  unfold try_swap_into_target_token. intros H Hin.
  apply bind_Ok_inv in H as (b & _ & H). destruct (fgeb _ _); [injection H as <-; set_solver|].
  apply bind_Ok_inv in H as (pr & _ & H). destruct (fltb _ _); [injection H as <-; set_solver|].
  unfold execute_swaps_into_target_token, get_swap_candidates in H.
  apply bind_Ok_inv in H as (cs & Hc & H). apply bind_Ok_inv in Hc as (cs0 & Hl & [= <-]).
  eapply cover_loop_params in H as (Hto & c & Hcin & Hfrom); [|exact Hin].
  apply sort_candidates_elem in Hcin. pose proof (load_candidates_elem bal price c _ _ Hl Hcin) as Ht.
  apply list_elem_of_filter in Ht as [Hpred Htok]. unfold swap_candidate_predicate in Hpred.
  apply andb_true_iff in Hpred as [Hne _]. apply negb_true_iff, bool_decide_eq_false in Hne.
  rewrite Hfrom. set_solver.
Qed.

(** A wallet of two dollar tokens, 6 and 8, with 5000 each; a target token, 7,
    at 2000 dollars, of which nothing is held. Every token has six decimals and
    every swap fills in full at the price. *)
Module TargetRun.
Definition decimal (_ : Address) (a : Z) : f64 := fdiv (of_Z a) (of_Z 1000000).
Definition raw (_ : Address) (x : f64) : Z := to_uint 128 (fmul x (of_Z 1000000)).
Definition balance (t : Address) : res ExecutionClientError f64 :=
  Ok (if t =? 7 then f0 else of_Z 5000).
Definition price (t : Address) : res ExecutionClientError f64 :=
  Ok (if t =? 7 then of_Z 2000 else f1).
Definition fill (p : QuoteParams) : res ExecutionClientError (option DecayingSwapOutcome) :=
  let bought := from_amount p / 2000 in
  Ok (Some (mk_outcome
    (mk_quote (from_token p) (to_token p) (from_amount p) bought Bebop BebopPMMv3) bought 1 0)).
Definition params : QuoteParams := default_params 0 7 0.
(** The amount of the target bought over all swaps. *)
Definition total_bought (outs : list (QuoteParams * DecayingSwapOutcome)) : Z :=
  foldr (fun x s => out_buy_amount_actual x.2 + s) 0 outs.
End TargetRun.

(** The amount still to cover is in dollars, but each fill is deducted in
    units of the target token: with a target worth 2000 dollars, covering one
    unit of it from two wallets that each suffice swaps out of both, and buys
    more than twice the amount to cover, the 10% buffer included. *)
Theorem target_covered_twice :
  exists a b, try_swap_into_target_token 0 TargetRun.decimal TargetRun.raw [6; 7; 8]
      TargetRun.balance TargetRun.price TargetRun.fill f1 TargetRun.params [] = Ok [a; b] /\
    from_token a.1 = 6 /\ from_token b.1 = 8 /\
    1000000 <= out_buy_amount_actual a.2 /\ 1000000 <= out_buy_amount_actual b.2 /\
    2 * 1000000 < TargetRun.total_bought [a; b].
Proof.
  do 2 eexists. split; [vm_compute; reflexivity|].
  split_and!; vm_compute; done.
Qed.

(** ** Witnesses *)
Module SwapWitness.
(** USDC is 6; token 9 sells for two dollars. LiFi's quote is the best, but its
    execution reverts; Bebop's fills. *)
Definition lifi : ExecutableQuote :=
  mk_executable (mk_quote 9 6 100000000 200500000 Lifi (LifiExchange "uni")) (LifiData (mk_lifi_data 21 20 0 [1; 2] "uni")).
Definition bebop : ExecutableQuote :=
  mk_executable (mk_quote 9 6 100000000 200000000 Bebop BebopPMMv3) (BebopData (mk_bebop_data 22 20 0 [3] 23)).
Definition pools : list Z := [2; 1].
Definition stable (t : Address) : bool := t =? 6.
Definition tolerance (_ : Address) : option f64 := None.
Definition venue_quotes (v : SupportedExecutionVenue) (_ : QuoteParams)
    (ex : list CrossVenueQuoteSource) : res ExecutionClientError (list ExecutableQuote) :=
  match v, ex with
  | Lifi, [] => Ok [lifi]
  | Bebop, _ => Ok [bebop]
  | _, _ => Err (Custom "no quote")
  end.
Definition send (v : SupportedExecutionVenue) (_ : ExecutableQuote)
    : res ExecutionClientError ExecutionResult :=
  match v with
  | Bebop => Ok (mk_result 200000000 7 (Some 77))
  | _ => Ok (mk_result 0 5 None)
  end.
Definition market_at (_ : nat) : market :=
  mk_market (Ok 100000000) (fun t => Ok (if t =? 9 then of_Z 2 else f1)) venue_quotes send.
Definition order : QuoteParams := default_params 9 6 100000000.
Definition result : swap_result * list attempt :=
  (Ok (Some (mk_outcome (quote bebop) 200000000 77 12)),
   [(lifi, Ok (mk_result 0 5 None)); (bebop, Ok (mk_result 200000000 7 (Some 77)))]).

Abbreviation run fuel :=
  (swap_immediate_decaying 6 TargetRun.decimal stable pools tolerance fuel market_at order).
Lemma run_result : run 2%nat = Some result.
Proof. reflexivity. Qed.

Lemma swap_terminates_witness : is_Some (run SWAP_FUEL).
Proof.
  apply (swap_terminates 6 TargetRun.decimal stable pools tolerance market_at order SWAP_FUEL).
  - cbn. lia.
  - reflexivity.
  - intros j p Hp. cbn in Hp. injection Hp as <-. reflexivity.
  - reflexivity.
Defined.
Lemma swap_at_most_one_fill_witness : exists tr0 q x,
  result.2 = tr0 ++ [(q, Ok x)] /\ Forall failed tr0 /\ tx_hash x = Some 77 /\
  quote bebop = quote q /\ 200000000 = buy_amount_actual x /\ 12 = uwrap 256 (gas_total result.2).
Proof.
  exact (swap_at_most_one_fill 6 TargetRun.decimal stable pools tolerance market_at order 2
    result.1 result.2 run_result).
Defined.
Lemma executed_quotes_checked_witness : exists j k ref,
  price_of (market_at j) 9 = Ok ref /\ (k <= 14)%nat /\
  fleb (fabs (fdiv (fsub ref (dollar_price 6 TargetRun.decimal (quote lifi) 200500000)) ref))
    (fmul (lit 1 100) (multiplier_at k)) = true.
Proof.
  assert (Hall := executed_quotes_checked 6 TargetRun.decimal stable pools tolerance market_at order 2
    result.1 result.2 ltac:(cbn; lia) ltac:(done) ltac:(intros t d; discriminate) run_result).
  inversion Hall as [|a l (j & k & ref & _ & _ & Href & _ & _ & _ & Hk & _ & Hdev) _].
  exists j, k, ref. split; [exact Href|]. split; [exact Hk|exact Hdev].
Defined.
Lemma price_deviation_fails_closed_witness :
  fleb (fabs (compute_price_deviation true (of_Z 199) (of_Z 200) (lit 1 100)).1) (lit 1 100) = true.
Proof.
  destruct (price_deviation_fails_closed true (of_Z 199) (of_Z 200) (lit 1 100)
    (compute_price_deviation true (of_Z 199) (of_Z 200) (lit 1 100)).1) as (_ & _ & _ & _ & H);
    [done|reflexivity|exact H].
Defined.
Lemma best_quote_optimal_witness : beats 6 TargetRun.decimal true lifi bebop.
Proof.
  destruct (best_quote_optimal 6 TargetRun.decimal [bebop; lifi] true lifi) as [_ H].
  - repeat constructor; eexists; (split; [reflexivity|done]).
  - reflexivity.
  - apply H. by left.
Defined.
Lemma target_swaps_respect_exclusions_witness : exists sp : QuoteParams,
  from_token sp = 8 /\ to_token sp = 7 /\ 8 ∉ [6].
Proof.
  destruct (try_swap_into_target_token 0 TargetRun.decimal TargetRun.raw [6; 7; 8]
    TargetRun.balance TargetRun.price TargetRun.fill f1 TargetRun.params [6]) as [[|[sp o] l]| |] eqn:E.
  1,3,4: vm_compute in E; discriminate E.
  assert (from_token sp = 8) by (vm_compute in E; injection E as <- _; reflexivity).
  destruct (target_swaps_respect_exclusions _ _ _ _ _ _ _ _ _ _ _ sp o E) as (Ht & _ & Hx & _);
    [by left|]. exists sp. cbn in Ht. split_and!; congruence.
Defined.
End SwapWitness.
