(* ===== verification/PriceReporter.v ===== *)
(** * The price reporter (price-reporter/src)

    [Book] is the local copy of the Coinbase order book and [Coinbase] the
    handler of its websocket messages; the JSON decoder is a parameter.
    [Retry] is the retry budget of a connection, [Connection] the loop that
    forwards prices and replays them as heartbeats, driven by events with the
    times at which they happen.  [Streams] is the shared map of price streams
    with the tasks that feed them, as a step relation, and [Converted] the
    stream that divides one price by another. *)
From Stdlib Require Import ZArith Lia Sorting.Sorted Floats.SpecFloat.
From stdpp Require Import gmap strings list sorting.
From S2P Require Import Prelude F64.
Local Open Scope Z_scope.

(** ** exchanges/error.rs, errors.rs *)
Abbreviation Exchange := string (only parsing).
Inductive ExchangeConnectionError :=
  | AlreadyInitialized (e : Exchange) (base quote : string)
  | ConnectionHangup (msg : string)
  | Crypto (msg : string)
  | Custom (msg : string)
  | HandshakeFailure (msg : string)
  | RateLimited
  | InvalidMessage (msg : string)
  | MaxRetries (e : Exchange)
  | SendError (msg : string)
  | SaveState (msg : string)
  | UnsupportedExchange (e : Exchange)
  | UnsupportedPair (base quote : string) (e : Exchange).

Inductive ServerError :=
  | TokenRemap (msg : string)
  | InvalidPairInfo (msg : string)
  | ExchangeConnection (e : ExchangeConnectionError)
  | GetPeerAddr (io : string)
  | WebsocketConnection (msg : string)
  | WebsocketSend (msg : string)
  | WebsocketReceive (msg : string)
  | Serde (msg : string)
  | HttpServer (msg : string)
  | Unauthorized (msg : string)
  | NoAdminKey
  | TelemetrySetup (msg : string)
  | PriceStreamClosed.

Definition is_rate_limit_error (e : ServerError) : bool :=
  match e with ExchangeConnection RateLimited => true | _ => false end.

(** ** exchanges/coinbase/order_book.rs

    A side of the book is a sorted set of non-NaN prices, the lowest first. *)
Section Book.
Definition levels : Type := list f64.

(** [SkipSet::insert] replaces an equal key. *)
Fixpoint level_insert (x : f64) (l : levels) : levels :=
  match l with
  | [] => [x]
  | y :: r => if fltb x y then x :: l else if fltb y x then y :: level_insert x r else x :: r
  end.
Fixpoint level_remove (x : f64) (l : levels) : levels :=
  match l with
  | [] => []
  | y :: r => if feqb x y then r else y :: level_remove x r
  end.

Record CoinbaseOrderBookData := mk_book { bids : levels; offers : levels }.
Definition book_new : CoinbaseOrderBookData := mk_book [] [].

Definition best_bid (b : CoinbaseOrderBookData) : option f64 := last (bids b).
Definition best_offer (b : CoinbaseOrderBookData) : option f64 := head (offers b).
Definition midpoint (b : CoinbaseOrderBookData) : option f64 :=
  bid ← best_bid b; offer ← best_offer b; Some (fdiv (fadd bid offer) f2).

(** The test of [add_bid] and [add_offer]. *)
Definition rejected (price : f64) : bool := negb (is_finite price) || fleb price f0.
Definition remove_bid (p : f64) (b : CoinbaseOrderBookData) : CoinbaseOrderBookData :=
  if is_nan p then b else mk_book (level_remove p (bids b)) (offers b).
Definition remove_offer (p : f64) (b : CoinbaseOrderBookData) : CoinbaseOrderBookData :=
  if is_nan p then b else mk_book (bids b) (level_remove p (offers b)).
Definition add_bid (p : f64) (b : CoinbaseOrderBookData) : CoinbaseOrderBookData :=
  if rejected p then b else if is_nan p then b else mk_book (level_insert p (bids b)) (offers b).
Definition add_offer (p : f64) (b : CoinbaseOrderBookData) : CoinbaseOrderBookData :=
  if rejected p then b else if is_nan p then b else mk_book (bids b) (level_insert p (offers b)).
Definition book_clear (_ : CoinbaseOrderBookData) : CoinbaseOrderBookData := mk_book [] [].

(** exchanges/util.rs *)
Definition safe_midpoint (best_bid best_offer : f64) : option f64 :=
  if negb (is_finite best_bid) || fleb best_bid f0 then None
  else if negb (is_finite best_offer) || fleb best_offer f0 then None
  else Some (fdiv (fadd best_bid best_offer) f2).

(** *** Lemmas *)

(** A price the book accepts. *)
Definition good_price (p : f64) : Prop := rejected p = false.

Definition flt (x y : f64) : Prop := fltb x y = true.
Definition side_wf (l : levels) : Prop := StronglySorted flt l /\ Forall good_price l.
Definition book_wf (b : CoinbaseOrderBookData) : Prop := side_wf (bids b) /\ side_wf (offers b).

Lemma good_finite p : good_price p -> exists m e, p = S754_finite false m e.
Proof.
  unfold good_price, rejected. intros [Hf Hp]%orb_false_iff. apply finite_pos; [|done].
  by apply negb_false_iff.
Qed.
Lemma good_non_nan p : good_price p -> non_nan p.
Proof. by intros (m & e & ->)%good_finite. Qed.

(** Positive prices that compare equal are equal. *)
Lemma good_feqb p q : good_price p -> feqb p q = true <-> p = q.
Proof.
  intros (m & e & ->)%good_finite. split.
  - unfold feqb, SFeqb. destruct q as [[]|[]| |[] m' e']; cbn; try done.
    destruct (Z.compare_spec e e'); try done. subst e'.
    change (Pos.compare_cont Eq m m') with (Pos.compare m m').
    destruct (Pos.compare_spec m m'); [|done..]. by subst.
  - intros <-. unfold feqb, SFeqb. cbn. rewrite Z.compare_refl.
    change (Pos.compare_cont Eq m m) with (Pos.compare m m). by rewrite Pos.compare_refl.
Qed.
Lemma good_trichotomy p q :
  good_price p -> good_price q -> fltb p q = false -> fltb q p = false -> p = q.
Proof.
  intros (m & e & ->)%good_finite (m' & e' & ->)%good_finite H1 H2.
  destruct (Z.lt_trichotomy e e') as [He|[->|He]].
  - assert (fltb (S754_finite false m e) (S754_finite false m' e') = true)
      by (apply fltb_key; unfold key_lt, lex_lt; cbn; repeat split; lia). congruence.
  - destruct (Z.lt_trichotomy (Zpos m) (Zpos m')) as [Hm|[[= ->]|Hm]]; [|done|].
    + assert (fltb (S754_finite false m e') (S754_finite false m' e') = true)
        by (apply fltb_key; unfold key_lt, lex_lt; cbn; repeat split; lia). congruence.
    + assert (fltb (S754_finite false m' e') (S754_finite false m e') = true)
        by (apply fltb_key; unfold key_lt, lex_lt; cbn; repeat split; lia). congruence.
  - assert (fltb (S754_finite false m' e') (S754_finite false m e) = true)
      by (apply fltb_key; unfold key_lt, lex_lt; cbn; repeat split; lia). congruence.
Qed.
Lemma feqb_sym (x y : f64) : feqb x y = feqb y x.
Proof. unfold feqb, SFeqb. rewrite (compare_swap x y). by destruct (SFcompare x y) as [[]|]. Qed.
Lemma flt_ne p q : flt p q -> p <> q.
Proof. intros H ->. unfold flt in H. by rewrite fltb_irrefl in H. Qed.

Lemma side_wf_cons x l : side_wf (x :: l) <-> good_price x /\ Forall (flt x) l /\ side_wf l.
Proof.
  unfold side_wf. rewrite Forall_cons. split.
  - intros [H1 [H2 H3]]. apply StronglySorted_inv in H1 as [H4 H5]. auto.
  - intros (H1 & H2 & H3 & H4). split; [by constructor|done].
Qed.

Lemma level_insert_elem x l p :
  side_wf l -> good_price x -> p ∈ level_insert x l <-> p = x \/ p ∈ l.
Proof.
  induction l as [|y l IH]; cbn; intros Hl Hx; [set_solver|].
  apply side_wf_cons in Hl as (Hy & Hyl & Hl). destruct (fltb x y) eqn:E1; [set_solver|].
  destruct (fltb y x) eqn:E2; [set_solver|]. rewrite (good_trichotomy x y) by done. set_solver.
Qed.
Lemma level_insert_wf x l : side_wf l -> good_price x -> side_wf (level_insert x l).
Proof.
  induction l as [|y l IH]; cbn; intros Hl Hx; [by apply side_wf_cons|].
  pose proof Hl as Hall. apply side_wf_cons in Hl as (Hy & Hyl & Hl).
  destruct (fltb x y) eqn:E1.
  - apply side_wf_cons. split_and!; [done| |done]. constructor; [done|].
    eapply Forall_impl; [exact Hyl|]. intros z Hz. by apply (fltb_trans x y z).
  - destruct (fltb y x) eqn:E2; [|assert (x = y) as -> by (by apply good_trichotomy); done].
    apply side_wf_cons. split_and!; [done| |by apply IH].
    apply Forall_forall. intros z [->|Hz]%level_insert_elem; [done| |done|done].
    by apply (proj1 (Forall_forall _ _) Hyl).
Qed.

(** Removing a key that is not a price of the book is harmless. *)
Lemma level_remove_elem x l p :
  side_wf l -> good_price p -> p ∈ level_remove x l <-> feqb x p = false /\ p ∈ l.
Proof.
  intros Hl Hp. induction l as [|y l IH]; cbn; [set_solver|].
  apply side_wf_cons in Hl as (Hy & Hyl & Hl). specialize (IH Hl).
  destruct (feqb x y) eqn:E.
  - rewrite feqb_sym in E. apply good_feqb in E as <-; [|done]. split.
    + intros Hin. split; [|by right]. rewrite feqb_sym.
      destruct (feqb p y) eqn:E'; [|done]. apply good_feqb in E' as ->; [|done].
      pose proof (proj1 (Forall_forall _ _) Hyl _ Hin) as Hlt. by apply flt_ne in Hlt.
    + intros [Hne [->|Hin]%elem_of_cons]; [|done].
      by rewrite (proj2 (good_feqb _ _ Hy) eq_refl) in Hne.
  - rewrite !elem_of_cons, IH. split; [intros [->|[? ?]]; auto|intros [? [->|?]]; auto].
Qed.
Lemma level_remove_wf x l : side_wf l -> side_wf (level_remove x l).
Proof.
  induction l as [|y l IH]; cbn; [done|]. intros (Hy & Hyl & Hl)%side_wf_cons.
  destruct (feqb x y); [done|]. apply side_wf_cons. split_and!; [done| |by apply IH].
  clear IH Hl. induction Hyl as [|z l Hz Hyl IHl]; cbn; [constructor|].
  destruct (feqb x z); [done|by constructor].
Qed.

Lemma last_max l m : side_wf l -> last l = Some m -> forall p, p ∈ l -> fleb p m = true.
Proof.
  induction l as [|x l IH]; cbn [last]; [done|]. intros (Hx & Hxl & Hl)%side_wf_cons Hm p Hp.
  destruct l as [|y l].
  - injection Hm as <-. apply list_elem_of_singleton in Hp as ->.
    by apply fleb_refl, good_non_nan.
  - apply elem_of_cons in Hp as [->|Hp]; [|by apply IH].
    apply fltb_fleb. rewrite Forall_forall in Hxl. apply Hxl. by apply last_Some_elem_of.
Qed.
Lemma head_min l m : side_wf l -> head l = Some m -> forall p, p ∈ l -> fleb m p = true.
Proof.
  destruct l as [|x l]; [done|]. intros (Hx & Hxl & Hl)%side_wf_cons [= <-] p Hp.
  apply elem_of_cons in Hp as [->|Hp]; [by apply fleb_refl, good_non_nan|].
  apply fltb_fleb. rewrite Forall_forall in Hxl. by apply Hxl.
Qed.

(** The midpoint of two accepted prices is a number and not negative. *)
Lemma good_midpoint p q : good_price p -> good_price q ->
  let r := fdiv (fadd p q) f2 in non_nan r /\ fltb r f0 = false.
Proof.
  intros (m & e & ->)%good_finite (m' & e' & ->)%good_finite. cbn zeta.
  destruct (fadd_pos m e m' e') as [Hs Hn]. apply fdiv2_sign in Hs as [Hs' Hn']; [|done].
  split; [done|]. revert Hs' Hn'. generalize (fdiv (fadd (S754_finite false m e)
    (S754_finite false m' e')) f2). intros r. by destruct r as [[]|[]| |[]].
Qed.
End Book.
#[export] Hint Resolve level_insert_wf level_remove_wf : rust.

(** ** exchanges/coinbase/mod.rs *)

(** A websocket message, and what the handler reads of its JSON: the [events]
    array, in the first event the [type] and the [updates] array, in an update
    its fields, and the sequence number. [None] stands for a field that is
    absent, of another type, or does not parse. A quantity, an [f32], is the
    double of the same value. *)
Inductive Message := Text (s : string) | Close | OtherMessage.
Record level_update := mk_update {
  price_level : option f64;
  new_quantity : option f64;
  update_side : option string;
}.
Record coinbase_event := mk_event {
  event_type : option string;
  event_updates : option (list level_update);
}.
Record coinbase_json := mk_json {
  json_events : option (list coinbase_event);
  sequence_num : option Z;
}.

Definition PROTOCOL_VIOLATION_MSG : string := "Protocol violation".
Definition PONG_MESSAGE : string := "pong".
Definition CLOUDFLARE_RESET_MESSAGE : string := "CloudFlare WebSocket proxy restarting".
Definition SNAPSHOT_EVENT_TYPE : string := "snapshot".
Definition COINBASE_BID : string := "bid".
Definition COINBASE_OFFER : string := "offer".

Section Coinbase.
(** [serde_json::from_str] at [Option<Value>]. *)
Context (from_str : string -> option (option coinbase_json)).
Abbreviation Res := (res ExchangeConnectionError).

(** connection.rs *)
Definition parse_json_from_message (m : Message) : Res (option coinbase_json) :=
  match m with
  | Text s =>
      if bool_decide (s = PROTOCOL_VIOLATION_MSG) || bool_decide (s = ""%string) then Ok None
      else if bool_decide (s = PONG_MESSAGE) then Ok None
      else if bool_decide (s = CLOUDFLARE_RESET_MESSAGE) then Ok None
      else ok_or (from_str s) (InvalidMessage s)
  | Close => Err (ConnectionHangup "received close frame from websocket")
  | OtherMessage => Ok None
  end.
Definition parse_json_field {A} (field : option A) : Res A := ok_or field (InvalidMessage "field").

(** The new value of the last-seen number. Gaps and reorderings are only logged:
    the log of a message with number [n] is [sequence_log n last]. *)
Definition check_and_update_sequence_num (j : coinbase_json) (last_sequence_num : Z) : Res Z :=
  sequence_num ← ok_or (sequence_num j) (InvalidMessage "sequence_num");
  Ok sequence_num.
Inductive sequence_warning := DroppedMessage | OutOfOrderMessage.
Definition sequence_log (sequence_num last_sequence_num : Z) : list sequence_warning :=
  if last_sequence_num =? -1 then []
  else
    (if last_sequence_num + 1 <? sequence_num then [DroppedMessage] else []) ++
    (if sequence_num <? last_sequence_num then [OutOfOrderMessage] else []).

Definition apply_update (u : level_update) (b : CoinbaseOrderBookData) : Res CoinbaseOrderBookData :=
  price_level ← parse_json_field (price_level u);
  new_quantity ← parse_json_field (new_quantity u);
  side ← parse_json_field (update_side u);
  if bool_decide (side = COINBASE_BID) then
    Ok (if feqb new_quantity f0 then remove_bid price_level b else add_bid price_level b)
  else if bool_decide (side = COINBASE_OFFER) then
    Ok (if feqb new_quantity f0 then remove_offer price_level b else add_offer price_level b)
  else Err (InvalidMessage side).
(** The loop over the updates; the book is shared, so it keeps the updates made
    before an error. *)
Fixpoint apply_updates (us : list level_update) (b : CoinbaseOrderBookData)
    : Res unit * CoinbaseOrderBookData :=
  match us with
  | [] => (Ok tt, b)
  | u :: rest =>
      match apply_update u b with
      | Ok b => apply_updates rest b
      | Err e => (Err e, b)
      | Panic => (Panic, b)
      end
  end.

Definition midpoint_from_ws_message (b : CoinbaseOrderBookData) (m : Message) (last_sequence_num : Z)
    : Res (option f64) * CoinbaseOrderBookData * Z :=
  match parse_json_from_message m with
  | Err e => (Err e, b, last_sequence_num)
  | Panic => (Panic, b, last_sequence_num)
  | Ok None => (Ok None, b, last_sequence_num)
  | Ok (Some json) =>
      let event := json_events json ≫= head in
      match event, event ≫= event_updates with
      | Some event, Some update_events =>
          let b :=
            if bool_decide (default ""%string (event_type event) = SNAPSHOT_EVENT_TYPE)
            then book_clear b else b in
          match check_and_update_sequence_num json last_sequence_num with
          | Ok seq =>
              let '(r, b) := apply_updates update_events b in
              (_ ← r; Ok (midpoint b), b, seq)
          | Err e => (Err e, b, last_sequence_num)
          | Panic => (Panic, b, last_sequence_num)
          end
      | _, _ => (Ok None, b, last_sequence_num)
      end
  end.

(** The closure of [connect] on one item of the socket. The sequence number is
    copied into the [async move] block of each call, which therefore starts
    from [-1] every time: [sequence_log] is never anything but empty. *)
Definition on_ws_item (b : CoinbaseOrderBookData) (item : res string Message)
    : option (Res f64) * CoinbaseOrderBookData :=
  match item with
  | Ok m =>
      let '(r, b, _) := midpoint_from_ws_message b m (-1) in
      (match r with
       | Ok (Some p) => Some (Ok p)
       | Ok None => None
       | Err e => Some (Err e)
       | Panic => Some Panic
       end, b)
  | Err e => (Some (Err (ConnectionHangup e)), b)
  | Panic => (Some Panic, b)
  end.
(** The stream of a connection: the items it yields for those of the socket. *)
Fixpoint mapped_stream (b : CoinbaseOrderBookData) (items : list (res string Message))
    : list (Res f64) * CoinbaseOrderBookData :=
  match items with
  | [] => ([], b)
  | i :: rest =>
      let '(o, b) := on_ws_item b i in
      let '(os, b) := mapped_stream b rest in
      (option_list o ++ os, b)
  end.
Definition connection_stream (items : list (res string Message)) := mapped_stream book_new items.

(** *** The feed the book stands for *)

(** The price levels of the two sides, as predicates. *)
Definition spec_book : Type := (f64 -> bool) * (f64 -> bool).
Definition spec_empty : spec_book := (fun _ => false, fun _ => false).
Definition spec_set (p q : f64) (B : f64 -> bool) : f64 -> bool :=
  fun x => if feqb p x then negb (feqb q f0) else B x.
Definition spec_update (u : level_update) (B : spec_book) : spec_book :=
  match price_level u, new_quantity u, update_side u with
  | Some p, Some q, Some side =>
      if bool_decide (side = COINBASE_BID) then (spec_set p q B.1, B.2)
      else if bool_decide (side = COINBASE_OFFER) then (B.1, spec_set p q B.2) else B
  | _, _, _ => B
  end.
(** A snapshot starts the book anew; every update sets its level. *)
Definition spec_item (B : spec_book) (item : res string Message) : spec_book :=
  match item with
  | Ok m =>
      match parse_json_from_message m with
      | Ok (Some j) =>
          match json_events j ≫= head with
          | Some e =>
              match event_updates e with
              | Some us =>
                  foldl (fun B u => spec_update u B)
                    (if bool_decide (event_type e = Some SNAPSHOT_EVENT_TYPE) then spec_empty else B) us
              | None => B
              end
          | None => B
          end
      | _ => B
      end
  | _ => B
  end.
Definition spec_feed (items : list (res string Message)) : spec_book :=
  foldl spec_item spec_empty items.

(** A side has the prices of the predicate that the book accepts. *)
Definition side_rep (l : levels) (B : f64 -> bool) : Prop :=
  forall p, good_price p -> p ∈ l <-> B p = true.
Definition book_rep (b : CoinbaseOrderBookData) (B : spec_book) : Prop :=
  book_wf b /\ side_rep (bids b) B.1 /\ side_rep (offers b) B.2.

Lemma side_rep_add l B p q :
  side_wf l -> side_rep l B -> good_price p -> feqb q f0 = false ->
  side_rep (level_insert p l) (spec_set p q B).
Proof.
  intros Hl HB Hp Hq x Hx. rewrite level_insert_elem by done. unfold spec_set.
  destruct (feqb p x) eqn:E.
  - apply good_feqb in E as <-; [|done]. rewrite Hq. naive_solver.
  - rewrite (HB x Hx). split; [intros [->|?]; [|done]|auto].
    by rewrite (proj2 (good_feqb p p Hp) eq_refl) in E.
Qed.
Lemma side_rep_remove l B p q :
  side_wf l -> side_rep l B -> feqb q f0 = true -> side_rep (level_remove p l) (spec_set p q B).
Proof.
  intros Hl HB Hq x Hx. rewrite level_remove_elem by done. unfold spec_set. rewrite Hq, (HB x Hx).
  destruct (feqb p x); naive_solver.
Qed.
(** A price the book rejects is no price of a level. *)
Lemma side_rep_rejected l B p q :
  side_rep l B -> rejected p = true -> side_rep l (spec_set p q B).
Proof.
  intros HB Hp x Hx. rewrite (HB x Hx). unfold spec_set. destruct (feqb p x) eqn:E; [|done].
  rewrite feqb_sym in E. apply good_feqb in E as <-; [|done]. unfold good_price in Hx. congruence.
Qed.
Lemma nan_rejected p : is_nan p = true -> rejected p = true.
Proof. by destruct p. Qed.

Lemma apply_update_rep u b b' B :
  apply_update u b = Ok b' -> book_rep b B -> book_rep b' (spec_update u B).
Proof.
  unfold apply_update, spec_update, parse_json_field. intros H ([Wb Wo] & Rb & Ro).
  destruct (price_level u) as [p|], (new_quantity u) as [q|], (update_side u) as [sd|]; try done.
  cbn in H. repeat case_bool_decide; try done; injection H as <-; unfold book_rep, book_wf;
    (destruct (feqb q f0) eqn:Eq;
      [unfold remove_bid, remove_offer; destruct (is_nan p) eqn:En
      |unfold add_bid, add_offer; destruct (rejected p) eqn:Er;
        [|destruct (is_nan p) eqn:En; [apply nan_rejected in En; congruence|]]]);
    cbn; split_and!; auto with rust; auto using side_rep_rejected, nan_rejected, side_rep_remove;
    by apply side_rep_add.
Qed.
Lemma apply_updates_rep us b b' B :
  apply_updates us b = (Ok tt, b') -> book_rep b B ->
  book_rep b' (foldl (fun B u => spec_update u B) B us).
Proof.
  revert b B. induction us as [|u us IH]; cbn; intros b B H HB; [by injection H as <-|].
  destruct (apply_update u b) as [b1| |] eqn:E; try done. eauto using apply_update_rep.
Qed.
Lemma empty_rep : book_rep book_new spec_empty.
Proof.
  assert (side_wf []) by (split; constructor).
  split; [done|]. split; intros p _; cbn; split; set_solver.
Qed.

Lemma on_ws_item_rep b item o b' B :
  on_ws_item b item = (o, b') -> (forall r, o = Some r -> exists p, r = Ok p) -> book_rep b B ->
  book_rep b' (spec_item B item).
Proof.
  unfold on_ws_item, midpoint_from_ws_message, spec_item. intros H Ho HB.
  destruct item as [m|e|]; [|injection H as <- <-; by destruct (Ho _ eq_refl)..].
  destruct (parse_json_from_message m) as [[j|]|e|];
    [|injection H as <- <-; try done; by destruct (Ho _ eq_refl)..].
  destruct (json_events j ≫= head) as [ev|]; [|by injection H as <- <-]. cbn [mbind option_bind] in H.
  destruct (event_updates ev) as [us|]; [|by injection H as <- <-].
  set (b0 := if bool_decide _ then _ else _) in H. set (B0 := if bool_decide _ then _ else _).
  assert (HB0 : book_rep b0 B0).
  { subst b0 B0. destruct (event_type ev) as [t|]; cbn; repeat case_bool_decide; subst;
      try done; try congruence; apply empty_rep. }
  destruct (check_and_update_sequence_num j (-1)) as [sq| |];
    [|injection H as <- <-; by destruct (Ho _ eq_refl)..].
  destruct (apply_updates us b0) as [r b1] eqn:E. destruct r as [[]| |].
  - cbn in H. assert (b' = b1) as -> by (destruct (midpoint b1); congruence).
    by apply (apply_updates_rep us b0).
  - injection H as <- <-. by destruct (Ho _ eq_refl).
  - injection H as <- <-. by destruct (Ho _ eq_refl).
Qed.
Lemma mapped_stream_rep items b os b' B :
  mapped_stream b items = (os, b') -> Forall (fun r => exists p, r = Ok p) os -> book_rep b B ->
  book_rep b' (foldl spec_item B items).
Proof.
  revert b os B. induction items as [|i items IH]; cbn; intros b os B H Hos HB.
  { by injection H as <- <-. }
  destruct (on_ws_item b i) as [o b1] eqn:E1. destruct (mapped_stream b1 items) as [os1 b2] eqn:E2.
  injection H as <- <-. apply Forall_app in Hos as [Ho Hos].
  apply (IH b1 os1); [done|done|]. eapply on_ws_item_rep; [exact E1| |done].
  intros r ->. cbn in Ho. by apply Forall_inv in Ho.
Qed.

(** The book stays well formed whatever comes, errors included. *)
Lemma apply_update_wf u b b' : apply_update u b = Ok b' -> book_wf b -> book_wf b'.
Proof.
  unfold apply_update, parse_json_field. intros H [Wb Wo].
  destruct (price_level u) as [p|], (new_quantity u) as [q|], (update_side u) as [sd|]; try done.
  cbn in H. repeat case_bool_decide; try done; injection H as <-; unfold book_wf;
    (destruct (feqb q f0);
      [unfold remove_bid, remove_offer; destruct (is_nan p)
      |unfold add_bid, add_offer; destruct (rejected p) eqn:Er; [|destruct (is_nan p)]]);
    cbn; split; auto with rust.
Qed.
Lemma apply_updates_wf us b : book_wf b -> book_wf (apply_updates us b).2.
Proof.
  revert b. induction us as [|u us IH]; cbn; intros b Hb; [done|].
  destruct (apply_update u b) eqn:E; [|done..]. eauto using apply_update_wf.
Qed.
Definition valid_price (p : f64) : Prop :=
  exists bid offer, good_price bid /\ good_price offer /\ p = fdiv (fadd bid offer) f2.
Lemma midpoint_valid b p : book_wf b -> midpoint b = Some p -> valid_price p.
Proof.
  unfold midpoint, best_bid, best_offer. intros [[_ Hb] [_ Ho]] H.
  destruct (last (bids b)) as [x|] eqn:Ex; [|done]. destruct (head (offers b)) as [y|] eqn:Ey; [|done].
  injection H as <-. exists x, y. rewrite Forall_forall in Hb, Ho. split_and!; [| |done].
  - apply Hb. by apply last_Some_elem_of.
  - apply Ho. by apply head_Some_elem_of.
Qed.
Lemma on_ws_item_wf b item o b' :
  on_ws_item b item = (o, b') -> book_wf b ->
  book_wf b' /\ forall p, o = Some (Ok p) -> valid_price p.
Proof.
  unfold on_ws_item, midpoint_from_ws_message. intros H Hb.
  destruct item as [m|e|]; [|injection H as <- <-; done..].
  destruct (parse_json_from_message m) as [[j|]|e|]; [|injection H as <- <-; done..].
  destruct (json_events j ≫= head) as [ev|]; [|injection H as <- <-; done].
  cbn [mbind option_bind] in H. destruct (event_updates ev) as [us|]; [|injection H as <- <-; done].
  set (b0 := if bool_decide _ then _ else _) in H.
  assert (Hb0 : book_wf b0) by (subst b0; case_bool_decide; [split; split; constructor|done]).
  destruct (check_and_update_sequence_num j (-1)); [|injection H as <- <-; done..].
  pose proof (apply_updates_wf us b0 Hb0) as Hw. destruct (apply_updates us b0) as [r b1]. cbn in Hw.
  destruct r as [[]| |]; cbn in H; [|injection H as <- <-; done..].
  destruct (midpoint b1) as [p|] eqn:Em; injection H as <- <-; split; try done.
  intros q [= <-]. by apply (midpoint_valid b1).
Qed.
Lemma mapped_stream_valid items b : book_wf b ->
  forall p, Ok p ∈ (mapped_stream b items).1 -> valid_price p.
Proof.
  revert b. induction items as [|i items IH]; cbn; intros b Hb p Hp; [set_solver|].
  destruct (on_ws_item b i) as [o b1] eqn:E. apply on_ws_item_wf in E as [Hb1 Ho]; [|done].
  specialize (IH b1 Hb1 p). destruct (mapped_stream b1 items) as [os b2]. cbn in *.
  apply elem_of_app in Hp as [Hp|Hp]; [|auto]. destruct o as [r|]; [|set_solver].
  apply list_elem_of_singleton in Hp as <-. by apply Ho.
Qed.
End Coinbase.

(** ** utils/mod.rs: times are in milliseconds *)
Definition KEEPALIVE_INTERVAL : Z := 15000.
Definition CONN_RETRY_DELAY : Z := 2000.
Definition RATE_LIMIT_RETRY_DELAY : Z := 10000.
Definition MAX_CONN_RETRY_WINDOW : Z := 60000.
Definition HEARTBEAT_INTERVAL : Z := 10000.
Definition MAX_HEARTBEAT_AGE : Z := 120000.
Definition MAX_CONN_RETRIES : nat := 15.
Definition SUBSCRIBE_ACK_TIMEOUT : Z := 10000.

(** ** price_stream_manager.rs: retries *)
Section Retry.
Context {Conn : Type} (exchange : Exchange).

Definition retry_connection (now : Z) (connect_exchange : res ExchangeConnectionError Conn)
    (retry_timestamps : list Z) : res ServerError Conn * list Z :=
  let ts := filter (fun t => now - t < MAX_CONN_RETRY_WINDOW) retry_timestamps ++ [now] in
  (if Nat.leb MAX_CONN_RETRIES (length ts) then Err (ExchangeConnection (MaxRetries exchange))
   else map_err ExchangeConnection connect_exchange, ts).

(** What happens in the [i]-th turn: the time slept beyond the delay, the result
    of the connection attempt and the time it takes. *)
Record retry_env := mk_retry {
  oversleep : Z;
  attempt : res ExchangeConnectionError Conn;
  attempt_time : Z;
}.
(** The result, the timestamps and the time at the end. [None]: out of fuel. *)
Fixpoint exhaust_retries (fuel : nat) (env : nat -> retry_env) (i : nat) (now : Z)
    (prev_err : ServerError) (ts : list Z) : option (res ServerError Conn * list Z * Z) :=
  match fuel with
  | O => None
  | S fuel =>
      let delay := if is_rate_limit_error prev_err then RATE_LIMIT_RETRY_DELAY else CONN_RETRY_DELAY in
      let now := now + delay + oversleep (env i) in
      let '(r, ts) := retry_connection now (attempt (env i)) ts in
      match r with
      | Ok conn => Some (Ok conn, ts, now + attempt_time (env i))
      | Err (ExchangeConnection (MaxRetries _)) => Some (Err prev_err, ts, now + attempt_time (env i))
      | Err e => exhaust_retries fuel env (S i) (now + attempt_time (env i)) e ts
      | Panic => Some (Panic, ts, now + attempt_time (env i))
      end
  end.
Definition connect_with_retries (fuel : nat) (env : nat -> retry_env) (now : Z) (ts : list Z)
    : option (res ServerError Conn * list Z * Z) :=
  let now := now + attempt_time (env 0%nat) in
  match map_err ExchangeConnection (attempt (env 0%nat)) with
  | Ok conn => Some (Ok conn, ts, now)
  | Err e => exhaust_retries fuel env 1 now e ts
  | Panic => Some (Panic, ts, now)
  end.

(** The timestamps after retries at the given times. *)
Definition record_retries (times : list Z) (ts : list Z) : list Z :=
  foldl (fun ts t => (retry_connection t (Err RateLimited) ts).2) ts times.

(** Times at least [g] apart, in order. *)
Inductive spaced (g : Z) : list Z -> Prop :=
  | spaced_nil : spaced g []
  | spaced_one t : spaced g [t]
  | spaced_cons t u l : t + g <= u -> spaced g (u :: l) -> spaced g (t :: u :: l).

Lemma spaced_tail g t l : spaced g (t :: l) -> spaced g l.
Proof. inversion 1; [constructor|done]. Qed.
Lemma spaced_from g t l : 0 <= g -> spaced g (t :: l) -> Forall (fun u => t + g <= u) l.
Proof.
  intros Hg. revert t. induction l as [|u l IH]; intros t H; [constructor|].
  inversion H; subst. constructor; [done|]. eapply Forall_impl; [by apply IH|]. cbn. lia.
Qed.
(** Between the first and the last of [k] spaced times there are [k - 1] gaps. *)
Lemma spaced_span g t l u :
  0 <= g -> spaced g (t :: l) -> u ∈ t :: l ->
  Forall (fun v => v <= u) (t :: l) -> t + g * Z.of_nat (length l) <= u.
Proof.
  intros Hg. revert t. induction l as [|v l IH]; intros t H Hu Hle; cbn [length].
  - apply Forall_inv in Hle. lia.
  - inversion H; subst. apply Forall_cons in Hle as [Ht Hle].
    assert (Hu' : u ∈ v :: l).
    { apply elem_of_cons in Hu as [->|]; [|done]. apply Forall_inv in Hle.
      assert (g = 0 /\ v = t) as [? ->] by lia. by left. }
    specialize (IH v ltac:(done) Hu' Hle). lia.
Qed.
Lemma spaced_filter g (P : Z -> Prop) `{!forall x, Decision (P x)} l :
  0 <= g -> spaced g l -> spaced g (filter P l).
Proof.
  intros Hg. induction l as [|t l IH]; intros Hl; [done|]. rewrite filter_cons.
  pose proof (spaced_from g t l Hg Hl) as Hf. specialize (IH (spaced_tail _ _ _ Hl)).
  destruct (decide (P t)); [|done]. destruct (filter P l) as [|u r] eqn:E; constructor; [|done].
  assert (u ∈ filter P l) as [_ Hu]%list_elem_of_filter by (rewrite E; by left).
  rewrite Forall_forall in Hf. by apply Hf.
Qed.
Lemma spaced_snoc g l u : spaced g l -> Forall (fun t => t + g <= u) l -> spaced g (l ++ [u]).
Proof.
  induction 1 as [|t|t v l Ht Hs IH]; cbn; intros Hf; [constructor| |].
  - apply Forall_inv in Hf. repeat constructor; done.
  - constructor; [done|]. apply IH. by apply Forall_cons in Hf as [_ Hf].
Qed.

(** Fifteen retries at least this far apart do not fit in the window. *)
Definition SLOW_RETRY : Z := 4286.

Lemma retry_slow now c ts :
  spaced SLOW_RETRY ts -> Forall (fun t => t + SLOW_RETRY <= now) ts ->
  (retry_connection now c ts).1 = map_err ExchangeConnection c /\
  spaced SLOW_RETRY (retry_connection now c ts).2 /\
  Forall (fun t => t <= now) (retry_connection now c ts).2.
Proof.
  intros Hs Hf. unfold retry_connection. cbn [fst snd]. set (P := fun t => _).
  assert (Hf' : Forall (fun t => t + SLOW_RETRY <= now) (filter P ts)).
  { apply Forall_forall. intros t [_ Ht]%list_elem_of_filter. rewrite Forall_forall in Hf. auto. }
  assert (Hs' : spaced SLOW_RETRY (filter P ts ++ [now]))
    by (apply spaced_snoc; [|done]; by apply spaced_filter).
  assert (Hle : Forall (fun t => t <= now) (filter P ts ++ [now])).
  { apply Forall_app. split; [|by repeat constructor].
    eapply Forall_impl; [exact Hf'|]. unfold SLOW_RETRY. cbn. lia. }
  split_and!; [|done..]. destruct (Nat.leb_spec MAX_CONN_RETRIES (length (filter P ts ++ [now])));
    [exfalso|done].
  destruct (filter P ts) as [|t l] eqn:E; [cbn in *; unfold MAX_CONN_RETRIES in *; lia|].
  assert (t ∈ filter P ts) as [Ht _]%list_elem_of_filter by (rewrite E; by left).
  pose proof (spaced_span SLOW_RETRY t (l ++ [now]) now ltac:(done) Hs' ltac:(set_solver) Hle) as Hspan.
  subst P. cbn in Ht. rewrite length_app in Hspan. cbn in *. rewrite length_app in *. cbn in *.
  unfold SLOW_RETRY, MAX_CONN_RETRY_WINDOW, MAX_CONN_RETRIES in *. lia.
Qed.
Lemma record_slow times ts :
  spaced SLOW_RETRY times -> spaced SLOW_RETRY ts ->
  Forall (fun t => Forall (fun u => t + SLOW_RETRY <= u) times) ts ->
  spaced SLOW_RETRY (record_retries times ts) /\
  forall u, Forall (fun t => t + SLOW_RETRY <= u) times -> Forall (fun t => t + SLOW_RETRY <= u) ts ->
    Forall (fun t => t + SLOW_RETRY <= u) (record_retries times ts).
Proof.
  revert ts. induction times as [|t times IH]; intros ts Hsp Hts Hf; [done|]. cbn.
  assert (H1 : Forall (fun v => v + SLOW_RETRY <= t) ts).
  { eapply Forall_impl; [exact Hf|]. intros v Hv. by apply Forall_inv in Hv. }
  destruct (retry_slow t (Err RateLimited) ts Hts H1) as (_ & Hs2 & Hle).
  pose proof (spaced_from SLOW_RETRY t times ltac:(done) Hsp) as Hfrom.
  destruct (IH (retry_connection t (Err RateLimited) ts).2 (spaced_tail _ _ _ Hsp) Hs2) as [HA HB].
  { eapply Forall_impl; [exact Hle|]. intros v Hv. eapply Forall_impl; [exact Hfrom|].
    intros u Hu. cbn in Hv, Hu |- *. lia. }
  split; [done|]. intros u [Hu Hu']%Forall_cons Hts'. apply HB; [done|].
  eapply Forall_impl; [exact Hle|]. cbn. lia.
Qed.

Lemma filter_filter_length (P Q : Z -> Prop) `{!forall x, Decision (P x)} `{!forall x, Decision (Q x)} l :
  (forall x, Q x -> P x) -> length (filter Q (filter P l)) = length (filter Q l).
Proof.
  intros HPQ. induction l as [|x l IH]; [done|]. rewrite (filter_cons P).
  destruct (decide (P x)); rewrite !filter_cons; destruct (decide (Q x)); cbn; naive_solver.
Qed.

(** The attempts fail quickly, with errors that are not rate limits. *)
Definition fails_fast (env : nat -> retry_env) : Prop :=
  forall i, 0 <= oversleep (env i) /\ 0 <= attempt_time (env i) /\
    attempt_time (env i) + oversleep (env (S i)) <= 2000 /\
    exists msg, attempt (env i) = Err (ConnectionHangup msg).

Lemma exhaust_fast env fuel : fails_fast env -> forall (k i : nat) (now : Z) prev (ts : list Z) (T0 : Z),
  (fuel + k = 15)%nat -> (0 < fuel)%nat -> is_rate_limit_error prev = false ->
  (k <= length (filter (fun t => T0 <= t)%Z ts))%nat ->
  T0 <= now + CONN_RETRY_DELAY + oversleep (env i) <= T0 + 4000 * Z.of_nat k ->
  exists e ts' now', exhaust_retries fuel env i now prev ts = Some (Err e, ts', now').
Proof.
  intros Hfast. induction fuel as [|fuel IH]; intros k i now prev ts T0 Hk Hpos Hp Hlen Hnow; [lia|].
  cbn -[CONN_RETRY_DELAY MAX_CONN_RETRIES Nat.leb]. rewrite Hp. set (now' := now + _ + _) in *.
  set (ts1 := filter (fun t => now' - t < MAX_CONN_RETRY_WINDOW) ts ++ [now']).
  assert (H1 : (S k <= length (filter (fun t => T0 <= t)%Z ts1))%nat).
  { subst ts1. rewrite filter_app, length_app.
    rewrite (filter_filter_length (fun t => now' - t < MAX_CONN_RETRY_WINDOW));
      [|unfold MAX_CONN_RETRY_WINDOW; lia].
    rewrite filter_cons. destruct (decide (T0 <= now')); [cbn|]; lia. }
  pose proof (length_filter (fun t => T0 <= t) ts1) as H2.
  destruct (Nat.leb_spec MAX_CONN_RETRIES (length ts1)) as [Hge|Hlt]; [eauto|].
  unfold MAX_CONN_RETRIES in Hlt.
  destruct (Hfast i) as (_ & _ & Ht & msg & ->). destruct (Hfast (S i)) as (Ho & _).
  destruct (Hfast i) as (_ & Ha & _). cbn [map_err].
  apply (IH (S k) (S i) _ _ _ T0); [lia|lia|done|done|]. unfold CONN_RETRY_DELAY. lia.
Qed.
End Retry.

(** ** price_stream_manager.rs: [manage_connection] *)
Section Connection.
(** The variables of the loop; the flag that keeps the log quiet is left out. *)
Record conn_state := mk_conn {
  last_price : option f64;
  last_exchange_update : Z;
  received_first_tick : bool;
  keepalive_delay : Z;
  heartbeat_delay : Z;
  subscribe_ack_deadline : Z;
}.
Definition conn_start (now : Z) : conn_state :=
  mk_conn None now false (now + KEEPALIVE_INTERVAL) (now + HEARTBEAT_INTERVAL)
    (now + SUBSCRIBE_ACK_TIMEOUT).

(** The arms of the [select!]: which of the ready ones runs is not determined. *)
Inductive conn_event :=
  | Keepalive (sent : res ExchangeConnectionError unit)
  | SubscribeAckTimeout
  | Heartbeat
  | NextPrice (r : res ExchangeConnectionError f64)
  | StreamClosed.
Definition ready (st : conn_state) (now : Z) (e : conn_event) : bool :=
  match e with
  | Keepalive _ => keepalive_delay st <=? now
  | SubscribeAckTimeout => negb (received_first_tick st) && (subscribe_ack_deadline st <=? now)
  | Heartbeat => heartbeat_delay st <=? now
  | NextPrice _ | StreamClosed => true
  end.
Definition hangup {A} (msg : string) : res ServerError A :=
  Err (ExchangeConnection (ConnectionHangup msg)).

(** One arm: the next state and the price sent to the channel, if any. *)
Definition conn_step (st : conn_state) (now : Z) (e : conn_event)
    : res ServerError conn_state * option f64 :=
  match e with
  | Keepalive r =>
      (_ ← map_err ExchangeConnection r;
       Ok (mk_conn (last_price st) (last_exchange_update st) (received_first_tick st)
             (now + KEEPALIVE_INTERVAL) (heartbeat_delay st) (subscribe_ack_deadline st)), None)
  | SubscribeAckTimeout => (hangup "no price tick after connect", None)
  | Heartbeat =>
      let next := mk_conn (last_price st) (last_exchange_update st) (received_first_tick st)
        (keepalive_delay st) (now + HEARTBEAT_INTERVAL) (subscribe_ack_deadline st) in
      match last_price st with
      | Some price =>
          if now - last_exchange_update st <? MAX_HEARTBEAT_AGE then (Ok next, Some price)
          else (hangup "No exchange data", None)
      | None => (Ok next, None)
      end
  | NextPrice r =>
      match map_err ExchangeConnection r with
      | Ok price =>
          (Ok (mk_conn (Some price) now true (keepalive_delay st) (now + HEARTBEAT_INTERVAL)
                 (subscribe_ack_deadline st)), Some price)
      | Err e => (Err e, None)
      | Panic => (Panic, None)
      end
  | StreamClosed => (hangup "Price stream has closed", None)
  end.

(** A run on timed events: the prices sent with their times, and the state or
    the error at the end. [None] when the events are not a run: an arm that is
    not ready, time that goes back, or an event after the return. *)
Fixpoint conn_run (st : conn_state) (now : Z) (es : list (Z * conn_event))
    : option (list (Z * f64) * res ServerError conn_state) :=
  match es with
  | [] => Some ([], Ok st)
  | (t, e) :: rest =>
      if (now <=? t) && ready st t e then
        let '(r, sent) := conn_step st t e in
        let out := option_list (pair t <$> sent) in
        match r, rest with
        | Ok st, _ => '(outs, r) ← conn_run st t rest; Some (out ++ outs, r)
        | r, [] => Some (out, r)
        | _, _ :: _ => None
        end
      else None
  end.
Definition manage_connection (now : Z) (es : list (Z * conn_event)) :=
  conn_run (conn_start now) now es.

(** The last price received in a run, with its time. *)
Definition tick (e : Z * conn_event) : option (Z * f64) :=
  match e with (t, NextPrice (Ok p)) => Some (t, p) | _ => None end.
Definition last_tick (es : list (Z * conn_event)) : option (Z * f64) := last (omap tick es).

(** What the state knows of the events so far. *)
Definition conn_inv (st : conn_state) (now : Z) (seen : list (Z * conn_event)) : Prop :=
  last_exchange_update st <= now /\
  (received_first_tick st = true <-> is_Some (last_price st)) /\
  last_tick seen = pair (last_exchange_update st) <$> last_price st.

Lemma last_tick_snoc es e :
  last_tick (es ++ [e]) = match tick e with Some x => Some x | None => last_tick es end.
Proof.
  unfold last_tick. rewrite omap_app. cbn. destruct (tick e); [by rewrite last_snoc|].
  by rewrite app_nil_r.
Qed.
Lemma conn_step_inv st now seen t e st' sent :
  conn_inv st now seen -> now <= t -> conn_step st t e = (Ok st', sent) ->
  conn_inv st' t (seen ++ [(t, e)]).
Proof.
  intros (Hle & Hf & Hl) Ht H. unfold conn_inv. rewrite last_tick_snoc.
  destruct e as [[[]| |]| | |[p| |]|]; cbn in H; try done.
  - injection H as <- <-. cbn. split_and!; [lia|done|done].
  - destruct (last_price st) eqn:E; [destruct (_ <? _); [|done]|]; injection H as <- <-;
      cbn; rewrite ?E; split_and!; try lia; done.
  - injection H as <- <-. cbn. split_and!; [lia|split; eauto|done].
Qed.
Lemma conn_step_sent st now seen t e r p :
  conn_inv st now seen -> now <= t -> conn_step st t e = (r, Some p) ->
  exists t', last_tick (seen ++ [(t, e)]) = Some (t', p) /\ t' <= t /\ t - t' < MAX_HEARTBEAT_AGE.
Proof.
  intros (Hle & Hf & Hl) Ht H. rewrite last_tick_snoc.
  destruct e as [[[]| |]| | |[q| |]|]; cbn in H; try done.
  - destruct (last_price st) as [q|] eqn:E; [|done].
    destruct (Z.ltb_spec (t - last_exchange_update st) MAX_HEARTBEAT_AGE); [|done].
    injection H as <- <-. exists (last_exchange_update st). cbn in *. rewrite Hl. split_and!; [done|lia|lia].
  - injection H as <- <-. exists t. cbn. unfold MAX_HEARTBEAT_AGE. split_and!; [done|lia|lia].
Qed.
Lemma conn_run_sent st now es outs r seen :
  conn_run st now es = Some (outs, r) -> conn_inv st now seen ->
  forall t p, (t, p) ∈ outs -> exists pre e post t',
    es = pre ++ (t, e) :: post /\ last_tick (seen ++ pre ++ [(t, e)]) = Some (t', p) /\
    t' <= t /\ t - t' < MAX_HEARTBEAT_AGE.
Proof.
  revert st now outs seen. induction es as [|[u e] es IH]; cbn; intros st now outs seen H Hi t p Hin.
  { injection H as <- <-. set_solver. }
  destruct (Z.leb_spec now u) as [Hle|]; cbn in H; [|done]. destruct (ready st u e); [|done].
  destruct (conn_step st u e) as [r1 sent] eqn:E.
  assert (Hnow : forall q, sent = Some q -> (t, p) = (u, q) -> exists pre e' post t',
    (u, e) :: es = pre ++ (t, e') :: post /\ last_tick (seen ++ pre ++ [(t, e')]) = Some (t', p) /\
    t' <= t /\ t - t' < MAX_HEARTBEAT_AGE).
  { intros q -> [= -> ->]. destruct (conn_step_sent st now seen u e r1 q Hi Hle E) as (t' & ? & ? & ?).
    by exists [], e, es, t'. }
  destruct r1 as [st1|e1|].
  - destruct (conn_run st1 u es) as [[outs1 r2]|] eqn:E2; [|done]. injection H as <- <-.
    apply elem_of_app in Hin as [Hin|Hin].
    + destruct sent as [q|]; [|set_solver]. apply list_elem_of_singleton in Hin. by eapply Hnow.
    + destruct (IH st1 u outs1 (seen ++ [(u, e)]) E2 (conn_step_inv _ _ _ _ _ _ _ Hi Hle E) t p Hin)
        as (pre & e' & post & t' & -> & Hl & ?).
      exists ((u, e) :: pre), e', post, t'. split; [done|]. by rewrite <- app_assoc in Hl.
  - destruct es; [|done]. injection H as <- <-. destruct sent as [q|]; [|set_solver].
    apply list_elem_of_singleton in Hin. by eapply Hnow.
  - destruct es; [|done]. injection H as <- <-. destruct sent as [q|]; [|set_solver].
    apply list_elem_of_singleton in Hin. by eapply Hnow.
Qed.
End Connection.

(** ** price_stream_manager.rs: the map of price streams *)
Section Streams.
(** [PairInfo] compares by exchange, base and quote. *)
Definition PairInfo : Type := string * string * string.

(** A task spawned for a pair; its receiver and its cancellation token have the
    same name. *)
Inductive phase := Running | Returned | Finished.
Record stream_task := mk_task { t_pair : PairInfo; t_cancelled : bool; t_phase : phase }.
Record GlobalPriceStreams := mk_streams {
  price_streams : gmap PairInfo nat;
  tasks : gmap nat stream_task;
}.
Definition streams_new : GlobalPriceStreams := mk_streams ∅ ∅.

Definition cancel (t : stream_task) : stream_task := mk_task (t_pair t) true (t_phase t).
Definition set_phase (p : phase) (t : stream_task) : stream_task := mk_task (t_pair t) (t_cancelled t) p.

(** The receiver of the stream that is there, or the new entry. *)
Definition maybe_add_price_stream (pair : PairInfo) (rx : nat) (m : gmap PairInfo nat)
    : option nat * gmap PairInfo nat :=
  match m !! pair with
  | Some stream_rx => (Some stream_rx, m)
  | None => (None, <[pair := rx]> m)
  end.
Definition remove_price_stream (pair : PairInfo) (s : GlobalPriceStreams) : GlobalPriceStreams :=
  match price_streams s !! pair with
  | Some id => mk_streams (delete pair (price_streams s)) (alter cancel id (tasks s))
  | None => s
  end.
(** The keys are collected under the read lock, and removed later under the
    write lock. *)
Definition to_cancel (desired : gset PairInfo) (s : GlobalPriceStreams) : list PairInfo :=
  filter (fun k => k ∉ desired) (elements (dom (price_streams s))).
Definition cancel_streams (l : list PairInfo) (s : GlobalPriceStreams) : GlobalPriceStreams :=
  foldl (fun s pair => remove_price_stream pair s) s l.
(** The receiver handed out; [id] is the name of the task spawned, if any. *)
Definition init_price_stream (pair : PairInfo) (id : nat) (s : GlobalPriceStreams)
    : nat * GlobalPriceStreams :=
  match maybe_add_price_stream pair id (price_streams s) with
  | (Some stream_rx, _) => (stream_rx, s)
  | (None, m) => (id, mk_streams m (<[id := mk_task pair false Running]> (tasks s)))
  end.
Definition get_or_create_price_receiver (pair : PairInfo) (id : nat) (s : GlobalPriceStreams)
    : nat * GlobalPriceStreams :=
  match price_streams s !! pair with
  | Some stream_rx => (stream_rx, s)
  | None => init_price_stream pair id s
  end.

(** The price task returns on cancellation or on an error, except that of a unit
    pair, which loops for ever; then it removes the stream of its pair. *)
Definition is_unit_pair (pair : PairInfo) : bool := bool_decide (pair.1.2 = pair.2).
Definition task_return (id : nat) (s : GlobalPriceStreams) : GlobalPriceStreams :=
  mk_streams (price_streams s) (alter (set_phase Returned) id (tasks s)).
Definition task_finish (id : nat) (pair : PairInfo) (s : GlobalPriceStreams) : GlobalPriceStreams :=
  let s := remove_price_stream pair s in
  mk_streams (price_streams s) (alter (set_phase Finished) id (tasks s)).

(** Steps: a request for a pair with a fresh name for its task; the removal of
    keys collected at some earlier time; a task that returns, and that finishes. *)
Inductive streams_step (s : GlobalPriceStreams) : GlobalPriceStreams -> Prop :=
  | StepInit pair id : tasks s !! id = None ->
      streams_step s (init_price_stream pair id s).2
  | StepCancel l : streams_step s (cancel_streams l s)
  | StepReturn id t : tasks s !! id = Some t -> t_phase t = Running -> is_unit_pair (t_pair t) = false ->
      streams_step s (task_return id s)
  | StepFinish id t : tasks s !! id = Some t -> t_phase t = Returned ->
      streams_step s (task_finish id (t_pair t) s).
Definition streams_reachable (s : GlobalPriceStreams) : Prop := rtc streams_step streams_new s.

(** A task that still publishes prices. *)
Definition publishing (t : stream_task) : Prop := t_phase t = Running /\ t_cancelled t = false.

(** Entries name tasks of their pair that are neither cancelled nor finished,
    and every publishing task has its entry. *)
Definition streams_inv (s : GlobalPriceStreams) : Prop :=
  (forall pair id, price_streams s !! pair = Some id -> exists t,
     tasks s !! id = Some t /\ t_pair t = pair /\ t_cancelled t = false /\ t_phase t <> Finished) /\
  (forall id t, tasks s !! id = Some t -> publishing t -> price_streams s !! t_pair t = Some id).

Lemma inv_remove pair s : streams_inv s -> streams_inv (remove_price_stream pair s).
Proof.
  intros [H1 H2]. unfold remove_price_stream.
  destruct (price_streams s !! pair) as [id0|] eqn:E; [|done]. split; cbn.
  - intros pair' id Hp. apply lookup_delete_Some in Hp as [Hne Hp].
    destruct (H1 _ _ Hp) as (t & Ht & Hpair & ?). exists t. split; [|done].
    rewrite lookup_alter_ne; [done|]. intros ->.
    destruct (H1 _ _ E) as (t0 & Ht0 & Hpair0 & _). congruence.
  - intros id t Ht Hpub. destruct (decide (id0 = id)) as [<-|Hne].
    + rewrite lookup_alter_eq in Ht. destruct (tasks s !! id0); [|done]. injection Ht as <-.
      by destruct Hpub.
    + rewrite lookup_alter_ne in Ht by done. pose proof (H2 _ _ Ht Hpub) as Hp.
      rewrite lookup_delete_ne; [done|]. intros Heq. congruence.
Qed.
Lemma inv_init pair id s :
  streams_inv s -> tasks s !! id = None -> streams_inv (init_price_stream pair id s).2.
Proof.
  intros [H1 H2] Hid. unfold init_price_stream, maybe_add_price_stream.
  destruct (price_streams s !! pair) as [rx|] eqn:E; [done|]. split; cbn.
  - intros pair' id' Hp. apply lookup_insert_Some in Hp as [[<- <-]|[Hne Hp]].
    + eexists. by rewrite lookup_insert_eq.
    + destruct (H1 _ _ Hp) as (t & Ht & ?). exists t. rewrite lookup_insert_ne; [done|]. congruence.
  - intros id' t Ht Hpub. apply lookup_insert_Some in Ht as [[<- <-]|[Hne Ht]]; cbn.
    + by rewrite lookup_insert_eq.
    + pose proof (H2 _ _ Ht Hpub). rewrite lookup_insert_ne; [done|]. congruence.
Qed.
Lemma inv_phase p id s :
  streams_inv s -> p <> Running ->
  (p = Finished -> forall t, tasks s !! id = Some t -> price_streams s !! t_pair t <> Some id) ->
  streams_inv (mk_streams (price_streams s) (alter (set_phase p) id (tasks s))).
Proof.
  intros [H1 H2] Hp Hfin. split; cbn.
  - intros pair id' Hin. destruct (H1 _ _ Hin) as (t & Ht & Hpair & Hc & Hph).
    destruct (decide (id = id')) as [<-|Hne].
    + exists (set_phase p t). rewrite lookup_alter_eq, Ht. split_and!; try done.
      cbn. intros ->. apply (Hfin eq_refl t Ht). by rewrite Hpair.
    + exists t. by rewrite lookup_alter_ne.
  - intros id' t Ht [Hrun Hc]. destruct (decide (id = id')) as [<-|Hne].
    + rewrite lookup_alter_eq in Ht. destruct (tasks s !! id) as [t0|]; [|done].
      injection Ht as <-. done.
    + rewrite lookup_alter_ne in Ht by done. by apply H2.
Qed.
Lemma inv_cancel l s : streams_inv s -> streams_inv (cancel_streams l s).
Proof.
  revert s. induction l as [|p l IH]; intros s Hs; [done|]. apply IH. by apply inv_remove.
Qed.
Lemma inv_finish id t s :
  streams_inv s -> tasks s !! id = Some t -> streams_inv (task_finish id (t_pair t) s).
Proof.
  intros Hs Ht. apply inv_phase; [by apply inv_remove|done|]. intros _ t' Ht'.
  assert (t_pair t' = t_pair t) as ->.
  { unfold remove_price_stream in Ht'. destruct (price_streams s !! t_pair t) as [id0|]; [|congruence].
    cbn in Ht'. destruct (decide (id0 = id)) as [->|Hne].
    - rewrite lookup_alter_eq, Ht in Ht'. injection Ht' as <-. done.
    - rewrite lookup_alter_ne in Ht' by done. congruence. }
  unfold remove_price_stream. destruct (price_streams s !! t_pair t) as [id0|] eqn:E; cbn; [|congruence].
  by rewrite lookup_delete_eq.
Qed.
Lemma reachable_inv s : streams_reachable s -> streams_inv s.
Proof.
  intros H. assert (H0 : streams_inv streams_new) by (split; cbn; intros; set_solver).
  unfold streams_reachable in H. revert H0.
  induction H as [|s s1 s2 Hstep _ IH]; [done|]. intros Hs. apply IH. destruct Hstep.
  - by apply inv_init.
  - by apply inv_cancel.
  - apply inv_phase; [done|done|]. done.
  - by apply inv_finish.
Qed.
End Streams.

(** ** utils/mod.rs: [PriceStream], a price with an optional conversion

    A watch has the last value sent, whether its stream has yielded it, and
    whether the sender is gone. *)
Section Converted.
Record watch := mk_watch { w_value : f64; w_changed : bool; w_closed : bool }.
Definition watch_new (v : f64) : watch := mk_watch v true false.
Definition watch_send (v : f64) (w : watch) : watch := mk_watch v true (w_closed w).

Inductive poll := Ready (p : option f64) | Pending.
Definition watch_poll (w : watch) : poll * watch :=
  if w_changed w then (Ready (Some (w_value w)), mk_watch (w_value w) false (w_closed w))
  else if w_closed w then (Ready None, w) else (Pending, w).
(** The loop that drains zeros: a stream yields a value once. *)
Definition poll_nonzero (w : watch) : poll * watch :=
  match watch_poll w with
  | (Ready (Some p), w) => if feqb p f0 then watch_poll w else (Ready (Some p), w)
  | r => r
  end.

Record PriceStream := mk_stream { stream : watch; conversion_stream : option watch }.
Definition poll_next (s : PriceStream) : poll * PriceStream :=
  let '(r, main) := poll_nonzero (stream s) in
  match r with
  | Ready (Some main_price) =>
      match conversion_stream s with
      | None => (Ready (Some main_price), mk_stream main None)
      | Some conv =>
          let '(r, conv) := poll_nonzero conv in
          (match r with
           | Ready (Some conversion_price) => Ready (Some (fdiv main_price conversion_price))
           | r => r
           end, mk_stream main (Some conv))
      end
  | r => (r, mk_stream main (conversion_stream s))
  end.

(** [get_current_price], on the receivers of the price and of its conversion. *)
Definition get_current_price (price_rx : watch) (conversion_rx : option watch) : res ServerError f64 :=
  let price := w_value price_rx in
  if feqb price f0 then Err PriceStreamClosed
  else
    match conversion_rx with
    | Some rx =>
        let conversion_price := w_value rx in
        if feqb conversion_price f0 then Err PriceStreamClosed else Ok (fdiv price conversion_price)
    | None => Ok price
    end.
End Converted.

(** ** Theorems *)

Lemma spaced_snoc_inv g l u :
  0 <= g -> spaced g (l ++ [u]) -> spaced g l /\ Forall (fun t => t + g <= u) l.
Proof.
  intros Hg. induction l as [|t l IH]; cbn; intros Hs; [split; constructor|].
  destruct (IH (spaced_tail _ _ _ Hs)) as [Hl Hf].
  pose proof (spaced_from g t (l ++ [u]) Hg Hs) as Hfrom. apply Forall_app in Hfrom as [Hfl Hu].
  split; [|constructor; [by apply Forall_inv in Hu|done]].
  destruct l as [|v l]; constructor; [|done]. by apply Forall_inv in Hfl.
Qed.

(** C14. The local book replicates the Coinbase feed: as long as a connection
    yields no error, the levels of each side are exactly the finite positive
    prices whose last update since the last snapshot has a quantity, in order
    and without duplicates; the best bid is the highest and the best offer the
    lowest of them. *)
Theorem coinbase_book_replicates_feed from_str items os b :
  connection_stream from_str items = (os, b) -> Forall (fun r => exists p, r = Ok p) os ->
  let '(Bs, Os) := spec_feed from_str items in
  book_wf b /\
  (forall p, good_price p -> (p ∈ bids b <-> Bs p = true) /\ (p ∈ offers b <-> Os p = true)) /\
  (forall m, best_bid b = Some m -> Bs m = true /\ forall p, good_price p -> Bs p = true -> fleb p m = true) /\
  (forall m, best_offer b = Some m -> Os m = true /\ forall p, good_price p -> Os p = true -> fleb m p = true).
Proof.
  intros H Hos. destruct (mapped_stream_rep from_str items book_new os b spec_empty H Hos empty_rep)
    as ([Wb Wo] & Rb & Ro). unfold spec_feed. destruct (foldl _ _ _) as [Bs Os]. cbn in Rb, Ro.
  split_and!; [done| | |].
  - intros p Hp. split; [by apply Rb|by apply Ro].
  - intros m Hm. assert (Hin : m ∈ bids b) by (by apply last_Some_elem_of).
    pose proof (proj1 (Forall_forall _ _) (proj2 Wb) m Hin) as Hg. split; [by apply Rb|].
    intros p Hp HB. apply (last_max (bids b)); [done|done|]. by apply Rb.
  - intros m Hm. assert (Hin : m ∈ offers b) by (by apply head_Some_elem_of).
    pose proof (proj1 (Forall_forall _ _) (proj2 Wo) m Hin) as Hg. split; [by apply Ro|].
    intros p Hp HOs. apply (head_min (offers b)); [done|done|]. by apply Ro.
Qed.

(** Whatever the socket delivers, errors and hostile prices included, every
    price that leaves a connection is the midpoint of a finite positive bid and
    a finite positive offer; it is never NaN nor negative. *)
Theorem coinbase_prices_valid from_str items p :
  Ok p ∈ (connection_stream from_str items).1 \/ (exists bid offer, safe_midpoint bid offer = Some p) ->
  valid_price p /\ non_nan p /\ fltb p f0 = false.
Proof.
  assert (Hv : valid_price p -> valid_price p /\ non_nan p /\ fltb p f0 = false).
  { intros (x & y & Hx & Hy & ->). split; [by exists x, y|]. by apply good_midpoint. }
  intros [H|(x & y & H)]; apply Hv.
  - apply (mapped_stream_valid from_str items book_new); [|done]. split; split; constructor.
  - unfold safe_midpoint in H. destruct (_ || _) eqn:Ex; [done|]. destruct (_ || _) eqn:Ey in H; [done|].
    injection H as <-. by exists x, y.
Qed.

(** C30. A connection never publishes a stale price: every value it sends, a tick
    or a replayed heartbeat, is the last price received from the exchange, and
    was received less than [MAX_HEARTBEAT_AGE] before. *)
Theorem published_prices_fresh t0 es outs r t p :
  manage_connection t0 es = Some (outs, r) -> (t, p) ∈ outs ->
  exists pre e post t', es = pre ++ (t, e) :: post /\ last_tick (pre ++ [(t, e)]) = Some (t', p) /\
    t' <= t /\ t - t' < MAX_HEARTBEAT_AGE.
Proof.
  intros H Hin. apply (conn_run_sent (conn_start t0) t0 es outs r [] H); [|done].
  split_and!; cbn; [lia| |done]. split; [done|]. by intros [? ?].
Qed.

(** At any time at most one task publishes prices for a pair, and the stream
    that a request for a pair finds in the map is not cancelled and its task is
    not finished, whatever the order of requests, cancellations and task ends. *)
Theorem one_publisher_per_pair s :
  streams_reachable s ->
  (forall id1 id2 t1 t2, tasks s !! id1 = Some t1 -> tasks s !! id2 = Some t2 ->
     publishing t1 -> publishing t2 -> t_pair t1 = t_pair t2 -> id1 = id2) /\
  (forall pair id, price_streams s !! pair = Some id -> exists t, tasks s !! id = Some t /\
     t_pair t = pair /\ t_cancelled t = false /\ t_phase t <> Finished).
Proof.
  intros [H1 H2]%reachable_inv. split; [|exact H1]. intros id1 id2 t1 t2 Ht1 Ht2 P1 P2 Hp.
  apply H2 in Ht1; [|done]. apply H2 in Ht2; [|done]. congruence.
Qed.

(** A stream that is requested again while the task of its cancelled
    predecessor is still ending is cancelled by that end, which removes
    whatever stream the pair has. *)
Theorem restarted_stream_cancelled pair :
  is_unit_pair pair = false ->
  exists s, streams_reachable s /\ price_streams s !! pair = None /\
    tasks s !! 1%nat = Some (mk_task pair true Running).
Proof.
  intros Hu. set (s1 := (init_price_stream pair 0 streams_new).2).
  set (s2 := cancel_streams [pair] s1). set (s3 := (init_price_stream pair 1 s2).2).
  set (s4 := task_return 0 s3).
  assert (E1 : s1 = mk_streams {[pair := 0%nat]} {[0%nat := mk_task pair false Running]}) by done.
  assert (E2 : s2 = mk_streams ∅ {[0%nat := mk_task pair true Running]}).
  { subst s2. rewrite E1. cbn. unfold remove_price_stream. cbn. rewrite lookup_singleton_eq. f_equal.
    apply delete_singleton_eq. }
  assert (E3 : s3 = mk_streams {[pair := 1%nat]}
    (<[1%nat := mk_task pair false Running]> {[0%nat := mk_task pair true Running]})) by (subst s3; by rewrite E2).
  exists (task_finish 0 pair s4). split_and!.
  - apply (rtc_l _ _ s1); [by constructor|]. apply (rtc_l _ _ s2); [constructor|].
    apply (rtc_l _ _ s3); [constructor; by rewrite E2|].
    apply (rtc_l _ _ s4); [econstructor; [rewrite E3; done|done|done]|].
    apply rtc_once. apply (StepFinish s4 0 (mk_task pair true Returned)); [|done].
    subst s4. by rewrite E3.
  - subst s4. rewrite E3. unfold task_finish, remove_price_stream. cbn. rewrite lookup_singleton_eq.
    cbn. apply lookup_delete_eq.
  - subst s4. rewrite E3. unfold task_finish, remove_price_stream. cbn. by rewrite lookup_singleton_eq.
Qed.

(** The retry budget: when the attempts to reconnect fail at once, the task
    gives up within [MAX_CONN_RETRIES] attempts; but retries at least
    [SLOW_RETRY] apart, hence a subscription that dies after each reconnection,
    are never refused however many there are, because the budget counts the
    last minute only. *)
Theorem retry_budget {Conn} exchange :
  (forall (env : nat -> retry_env (Conn := Conn)) now prev ts,
     fails_fast env -> is_rate_limit_error prev = false ->
     exists e ts' now', exhaust_retries exchange MAX_CONN_RETRIES env 0 now prev ts = Some (Err e, ts', now')) /\
  (forall times now (c : res _ Conn), spaced SLOW_RETRY (times ++ [now]) ->
     (retry_connection exchange now c (record_retries (Conn := Conn) exchange times [])).1
       = map_err ExchangeConnection c).
Proof.
  split.
  - intros env now prev ts Hf Hp. destruct (Hf 0%nat) as (Ho & _).
    apply (exhaust_fast exchange env 15 Hf 0 0 now prev ts (now + CONN_RETRY_DELAY + oversleep (env 0%nat)));
      [done|lia|done|lia|lia].
  - intros times now c Hs. apply spaced_snoc_inv in Hs as [Hs Hf]; [|done].
    destruct (record_slow (Conn := Conn) exchange times [] Hs (spaced_nil _)) as [HA HB]; [constructor|].
    apply (retry_slow exchange now c _ HA). apply HB; [done|constructor].
Qed.

(** A converted stream yields only the price that a request for the current
    price gets; but a price that arrives while the conversion has no new value
    is taken from its watch without being delivered, not even when a conversion
    follows. *)
Theorem converted_updates_dropped s conv :
  conversion_stream s = Some conv -> w_closed (stream s) = false -> w_closed conv = false ->
  let '(r, s') := poll_next s in
  (forall p, r = Ready (Some p) -> get_current_price (stream s) (Some conv) = Ok p) /\
  (w_changed (stream s) = true -> feqb (w_value (stream s)) f0 = false -> w_changed conv = false ->
     r = Pending /\ forall v, (poll_next (mk_stream (stream s') (Some (watch_send v conv)))).1 = Pending).
Proof.
  destruct s as [[mv mc mcl] cs], conv as [cv cc ccl]. cbn [conversion_stream stream w_closed].
  intros -> -> ->. unfold poll_next, poll_nonzero, watch_poll, get_current_price.
  cbn [stream conversion_stream w_changed w_value w_closed].
  destruct mc, cc; cbn; destruct (feqb mv f0) eqn:Em; cbn; try done;
    try destruct (feqb cv f0) eqn:Ec; cbn; split; try done; intros p [= <-]; done.
Qed.

(** ** Witnesses *)
Module PriceReporterWitness.
(** A snapshot with bids at 100 and 99 and offers at 101 and, hostile, at 0;
    then an update that removes the bid at 100. *)
Definition level (side : string) (p q : Z) : level_update := mk_update (Some (of_Z p)) (Some (of_Z q)) (Some side).
Definition decode (s : string) : option (option coinbase_json) :=
  if bool_decide (s = "snapshot"%string) then
    Some (Some (mk_json (Some [mk_event (Some SNAPSHOT_EVENT_TYPE)
      (Some [level "bid" 100 1; level "bid" 99 2; level "offer" 101 1; level "offer" 0 1])]) (Some 1)))
  else if bool_decide (s = "update"%string) then
    Some (Some (mk_json (Some [mk_event (Some "update"%string) (Some [level "bid" 100 0])]) (Some 2)))
  else None.
Definition socket : list (res string Message) := [Ok (Text "snapshot"); Ok OtherMessage; Ok (Text "update")].
Definition yielded : list (res ExchangeConnectionError f64) := (connection_stream decode socket).1.
Definition final_book : CoinbaseOrderBookData := mk_book [of_Z 99] [of_Z 101].

Lemma socket_run : connection_stream decode socket = (yielded, final_book).
Proof. reflexivity. Qed.

Lemma coinbase_book_replicates_feed_witness :
  (spec_feed decode socket).1 (of_Z 99) = true /\ fleb (of_Z 99) (of_Z 99) = true.
Proof.
  assert (Hok : Forall (fun r : res ExchangeConnectionError f64 => exists p, r = Ok p) yielded)
    by (repeat constructor; eexists; reflexivity).
  pose proof (coinbase_book_replicates_feed decode socket yielded final_book socket_run Hok) as H.
  destruct (spec_feed decode socket) as [Bs Os]. destruct H as (_ & _ & H & _).
  destruct (H (of_Z 99) eq_refl) as [H1 H2]. split; [exact H1|]. apply H2; [reflexivity|exact H1].
Defined.

Lemma coinbase_prices_valid_witness : non_nan (fdiv (fadd (of_Z 100) (of_Z 101)) f2).
Proof.
  apply (coinbase_prices_valid decode socket). left. by left.
Defined.

Definition ticks : list (Z * conn_event) :=
  [(500, NextPrice (Ok f1)); (10500, Heartbeat); (15000, Keepalive (Ok tt)); (20500, Heartbeat)].
Lemma published_prices_fresh_witness : exists pre e post t',
  ticks = pre ++ (20500, e) :: post /\ last_tick (pre ++ [(20500, e)]) = Some (t', f1) /\
  t' <= 20500 /\ 20500 - t' < MAX_HEARTBEAT_AGE.
Proof.
  eapply (published_prices_fresh 0 ticks); [reflexivity|]. by right; right; left.
Defined.

Definition eth : PairInfo := ("coinbase", "WETH", "USD")%string.
Lemma one_publisher_per_pair_witness : exists t : stream_task, t_pair t = eth /\ t_cancelled t = false.
Proof.
  destruct (one_publisher_per_pair (init_price_stream eth 0 streams_new).2) as [_ H].
  - apply rtc_once. by constructor.
  - destruct (H eth 0%nat) as (t & _ & Hp & Hc & _); [reflexivity|]. by exists t.
Defined.

Definition env (_ : nat) : retry_env (Conn := unit) := mk_retry 0 (Err (ConnectionHangup "refused")) 100.
Lemma retry_budget_witness :
  (exists e ts' now', exhaust_retries "coinbase" MAX_CONN_RETRIES env 0 0
     (ExchangeConnection (ConnectionHangup "closed")) [] = Some (Err e, ts', now')) /\
  (retry_connection "coinbase" 36000 (Ok tt) (record_retries (Conn := unit) "coinbase" [0; 12000; 24000] [])).1
    = Ok tt.
Proof.
  destruct (retry_budget (Conn := unit) "coinbase") as [H1 H2]. split.
  - apply H1; [|reflexivity]. intros i. split_and!; [cbn; lia..|]. eexists. reflexivity.
  - rewrite H2; [reflexivity|]. repeat constructor; unfold SLOW_RETRY; lia.
Defined.

Lemma converted_updates_dropped_witness :
  (poll_next (mk_stream (watch_new (of_Z 3)) (Some (mk_watch f1 false false)))).1 = Pending.
Proof.
  apply (converted_updates_dropped (mk_stream (watch_new (of_Z 3)) (Some (mk_watch f1 false false)))
    (mk_watch f1 false false)); reflexivity.
Defined.
End PriceReporterWitness.
