(* ===== verification/Settlement.v ===== *)
(** * Bundles and their settlement (auth-server: bundle_store/, chain_events/)

    An assembled bundle is kept in the bundle store under its sponsorship nonce
    until the chain reports that the nonce was used.  [process_external_match]
    then gives the user's token back to the bundle limiter, books the refund
    that was paid on chain against the sponsorship budget, records metrics and
    drops the bundle.  Operations act on [listener_state]: the store, Redis (as
    in [RateLimiter]) and the gauges written.  The darkpool and RPC clients, the
    price reporter, the token map and the ABI codec are parameters; what the
    outside answers to one call is collected in [match_env]. *)
From Stdlib Require Import ZArith Lia.
From stdpp Require Import gmap strings list.
From S2P Require Import Prelude F64 AuthError RateLimiter GasSponsorship PriceClient.
Local Open Scope Z_scope.

Create HintDb settle discriminated.

(** ** The bundle store (bundle_store/mod.rs) *)
Abbreviation BundleId := Z (only parsing).

Record BundleContext := mk_bundle_ctx {
  key_description : string;
  bundle_id : BundleId;
  request_id : string;
  sdk_version : string;
  gas_sponsorship_info : option (GasSponsorshipInfo * Z);
  is_sponsored : bool;
  ctx_price_timestamp : Z;
  assembled_timestamp : option Z;
}.

Definition BundleStore : Type := gmap Z BundleContext.
Definition bundle_store_new : BundleStore := ∅.
Definition write (ctx : BundleContext) (b : BundleStore) : BundleStore := <[bundle_id ctx := ctx]> b.
Definition read (id : BundleId) (b : BundleStore) : option BundleContext := b !! id.
Definition remove_bundle (id : BundleId) (b : BundleStore) : BundleStore := delete id b.

(** *** Writing a bundle (api_handlers/settlement.rs); the fields of the response
    context that are used *)
Record ResponseCtx := mk_response_ctx {
  rc_user : string;
  rc_request_id : string;
  rc_sdk_version : string;
  sponsorship_info_with_nonce : option (GasSponsorshipInfo * Z);
}.
Definition sponsorship_nonce (ctx : ResponseCtx) : option Z := snd <$> sponsorship_info_with_nonce ctx.
Definition ERR_NO_NONCE : string := "No sponsorship nonce found".

Definition write_bundle_context (price_timestamp : Z) (assembled_timestamp : option Z)
    (ctx : ResponseCtx) (b : BundleStore) : res AuthServerError BundleId * BundleStore :=
  match sponsorship_nonce ctx with
  | None => (Err (AuthError.GasSponsorship ERR_NO_NONCE), b)
  | Some id =>
      let info := sponsorship_info_with_nonce ctx in
      let bundle_ctx :=
        mk_bundle_ctx (rc_user ctx) id (rc_request_id ctx) (rc_sdk_version ctx) info
          (bool_decide (is_Some info)) price_timestamp assembled_timestamp in
      (Ok id, write bundle_ctx b)
  end.

(** ** Receipts *)
(** A log, with what it decodes to: a sponsored match of the gas sponsor (its
    nonce and refund) and whether it is a CoW Protocol trade. *)
Record Log := mk_log {
  log_address : Address;
  log_sponsored_match : option (Z * Z);
  log_is_trade : bool;
}.
Record TransactionReceipt := mk_receipt { block_number : option Z; receipt_logs : list Log }.

Record ApiBoundedMatchResult := mk_bounded {
  b_input_mint : Address;
  b_output_mint : Address;
  b_price_fp : f64;                (* [price_fp.to_f64()] *)
}.

(** chain_events/error.rs *)
Inductive OnChainEventListenerError :=
  | ODarkpool (msg : string)
  | ORpc (msg : string)
  | OSetup (msg : string)
  | OStreamEnded
  | OAuthServer (msg : string).

(** telemetry/labels.rs *)
Definition ASSET_METRIC_TAG : string := "asset".
Definition BASE_ASSET_METRIC_TAG : string := "base_asset".
Definition KEY_DESCRIPTION_METRIC_TAG : string := "key_description".
Definition REQUEST_ID_METRIC_TAG : string := "request_id".
Definition SDK_VERSION_METRIC_TAG : string := "sdk_version".
Definition GAS_SPONSORED_METRIC_TAG : string := "gas_sponsored".
Definition SETTLEMENT_STATUS_TAG : string := "did_settle".
Definition SIDE_TAG : string := "side".
Definition SETTLED_VIA_COWSWAP_TAG : string := "settled_via_cowswap".
Definition REFUND_ASSET_TAG : string := "refund_asset".
Definition REFUND_AMOUNT_TAG : string := "refund_amount".
Definition L1_COST_PER_BYTE_TAG : string := "l1_cost_per_byte".
Definition L2_BASE_FEE_TAG : string := "l2_base_fee".
Definition EXTERNAL_MATCH_SPREAD_COST : string := "external_match_spread_cost".
Definition EXTERNAL_MATCH_SETTLED_BASE_VOLUME : string := "external_match_settled_base_volume".
Definition EXTERNAL_MATCH_SETTLED_QUOTE_VOLUME : string := "external_match_settled_quote_volume".
Definition EXTERNAL_MATCH_ASSEMBLY_DELAY : string := "external_match_assembly_delay".
Definition EXTERNAL_MATCH_ASSEMBLY_TO_SETTLEMENT_DELAY : string :=
  "external_match_assembly_to_settlement_delay".
Definition EXTERNAL_MATCH_SETTLEMENT_DELAY : string := "external_match_settlement_delay".
Definition GAS_SPONSORSHIP_VALUE : string := "gas_sponsorship_value".
Definition ETH_TICKER : string := "ETH".
Definition REFUND_ASSET_TICKER_ERROR_MSG : string := "failed to get refund asset ticker".

Definition tags : Type := list (string * string).
Record gauge := mk_gauge { g_name : string; g_tags : tags; g_value : f64 }.
Definition bool_to_string (b : bool) : string := if b then "true" else "false".

Section Settlement.
Context `{R : Redis} (duration_round : Z -> Z -> Z) (format_window : Z -> string).
Context `{BD : BigDecimalOps}.
(** The token map by address, and the text of values. *)
Context (usdc weth native : Address) (token_ticker : Address -> option string)
  (token_decimals : Address -> option Z) (convert_to_decimal : Address -> Z -> f64)
  (hex : Address -> string) (f64_to_string : f64 -> string) (int_to_string : Z -> string)
  (powi10 : Z -> f64).
(** The match results of the darkpool. *)
Context {BoundedMatchResult : Type} (to_api : BoundedMatchResult -> ApiBoundedMatchResult)
  (to_external_obligation : BoundedMatchResult -> Z -> Z * Z).
(** The configuration of the listener. *)
Context (limiter : AuthServerRateLimiter) (gas_sponsor_address : Address).

Record listener_state := mk_listener {
  bundles : BundleStore;
  redis : rstore;
  gauges : list gauge;
}.
Abbreviation M := (eff listener_state AuthServerError).

Definition on_redis {A} (f : rstore -> res AuthServerError A * rstore) : M A := fun s =>
  let '(r, rs) := f (redis s) in (r, mk_listener (bundles s) rs (gauges s)).
Definition set_gauge (name : string) (ts : tags) (v : f64) : M unit :=
  modify (fun s => mk_listener (bundles s) (redis s) (gauges s ++ [mk_gauge name ts v])).

(** What the services and the clocks answer while one match is processed. *)
Record match_env := mk_env {
  e_credit : transport * transport;           (* the two requests of the credit *)
  e_credit_now : Z * Z;
  e_price : string -> res PriceReporterClientError f64;
  e_price_usd : string -> res PriceReporterClientError bigdecimal;
  e_book : transport;                         (* booking the sponsorship *)
  e_book_now : Z * Z;
  e_gas_sample : res string GasPriceEstimation;
}.

(** *** telemetry/helpers.rs *)
Definition asset_of (mint : Address) : string := default (hex mint) (token_ticker mint).

Definition calculate_quote_per_base_price (m : ApiBoundedMatchResult) : res AuthServerError f64 :=
  let out_per_in_price := b_price_fp m in
  '(base_mint, quote_mint) ← pick_base_and_quote_mints usdc (b_input_mint m) (b_output_mint m);
  let quote_per_base_price :=
    if quote_mint =? b_output_mint m then out_per_in_price else fdiv f1 out_per_in_price in
  let base_token := if base_mint =? native then weth else base_mint in
  base_decimals ← ok_or (token_decimals base_token) (Serde ("No decimals for " +:+ hex base_token)%string);
  quote_decimals ← ok_or (token_decimals quote_mint) (Serde ("No decimals for " +:+ hex quote_mint)%string);
  Ok (fmul quote_per_base_price (powi10 (base_decimals - quote_decimals))).

Definition extend_labels_with_base_asset (base_mint : Address) (ts : tags) : tags :=
  (BASE_ASSET_METRIC_TAG, asset_of base_mint) :: ts.
Definition extend_labels_with_side (input_mint output_mint : Address) (ts : tags)
    : res AuthServerError tags :=
  '(base_mint, _) ← pick_base_and_quote_mints usdc input_mint output_mint;
  let side_label := if base_mint =? output_mint then "buy"%string else "sell"%string in
  Ok ((SIDE_TAG, side_label) :: ts).
Definition record_volume_with_tags (mint : Address) (amount : Z) (name : string) (extra : tags) : M unit :=
  set_gauge name ((ASSET_METRIC_TAG, asset_of mint) :: extra) (convert_to_decimal mint amount).

(** *** tasks.rs *)
Definition compute_external_amounts (m : BoundedMatchResult) (actual_external_input : Z) : Z * Z :=
  to_external_obligation m actual_external_input.

Definition get_labels (ctx : BundleContext) : tags :=
  [(KEY_DESCRIPTION_METRIC_TAG, key_description ctx); (REQUEST_ID_METRIC_TAG, request_id ctx);
   (GAS_SPONSORED_METRIC_TAG, bool_to_string (is_sponsored ctx));
   (SDK_VERSION_METRIC_TAG, sdk_version ctx); (SETTLEMENT_STATUS_TAG, "true"%string)].

Definition detect_cowswap_settlement (r : TransactionReceipt) : bool :=
  existsb log_is_trade (receipt_logs r).

Definition record_settlement_metrics (r : TransactionReceipt) (ctx : BundleContext)
    (m : ApiBoundedMatchResult) (actual_input actual_output : Z) : M unit :=
  let labels := get_labels ctx ++
    [(SETTLED_VIA_COWSWAP_TAG, bool_to_string (detect_cowswap_settlement r))] in
  '(base_mint, quote_mint) ← lift (pick_base_and_quote_mints usdc (b_input_mint m) (b_output_mint m));
  let '(base_amount, quote_amount) :=
    if base_mint =? b_output_mint m then (actual_output, actual_input)
    else (actual_input, actual_output) in
  _ ← record_volume_with_tags base_mint base_amount EXTERNAL_MATCH_SETTLED_BASE_VOLUME labels;
  let labels := extend_labels_with_base_asset base_mint labels in
  labels ← lift (extend_labels_with_side (b_input_mint m) (b_output_mint m) labels);
  record_volume_with_tags quote_mint quote_amount EXTERNAL_MATCH_SETTLED_QUOTE_VOLUME labels.

(** The spread cost of a match against a reference price. *)
Definition spread_cost (internal_buys : bool) (match_price reference_price quote_amount : f64) : f64 :=
  let trade_side_factor := if internal_buys then f1 else fneg f1 in
  let relative_spread :=
    fdiv (fmul trade_side_factor (fsub match_price reference_price)) reference_price in
  fmul quote_amount relative_spread.

Definition record_external_match_spread_cost (env : match_env) (ctx : BundleContext)
    (m : ApiBoundedMatchResult) (actual_input actual_output : Z) : M unit :=
  '(base_mint, quote_mint) ← lift (pick_base_and_quote_mints usdc (b_input_mint m) (b_output_mint m));
  reference_price ← lift (map_err PriceReporter (e_price env (hex base_mint)));
  match_price ← lift (calculate_quote_per_base_price m);
  let internal_buys := base_mint =? b_input_mint m in
  let quote_amount := if internal_buys then actual_output else actual_input in
  let cost := spread_cost internal_buys match_price reference_price
                (convert_to_decimal quote_mint quote_amount) in
  set_gauge EXTERNAL_MATCH_SPREAD_COST
    [(REQUEST_ID_METRIC_TAG, request_id ctx); (KEY_DESCRIPTION_METRIC_TAG, key_description ctx);
     (ASSET_METRIC_TAG, asset_of base_mint); (SIDE_TAG, if internal_buys then "buy"%string else "sell"%string)]
    cost.

Definition add_bundle_rate_limit_token (env : match_env) (key_description : string) : M unit :=
  on_redis (add_bundle_token duration_round format_window limiter (e_credit env).1 (e_credit env).2
              (e_credit_now env).1 (e_credit_now env).2 key_description).

Fixpoint get_actual_refund_amount (logs : list Log) (nonce : Z) : Z :=
  match logs with
  | [] => 0
  | log :: logs =>
      if negb (log_address log =? gas_sponsor_address) then get_actual_refund_amount logs nonce
      else match log_sponsored_match log with
           | Some (n, refund) => if n =? nonce then refund else get_actual_refund_amount logs nonce
           | None => get_actual_refund_amount logs nonce
           end
  end.

Definition record_gas_sponsorship_metrics (env : match_env) (value : f64) (refund_native_eth : bool)
    (refund_amount : Z) (refund_asset : Address) (key request_id sdk_version : string) : M unit :=
  refund_asset_ticker ← lift
    (if refund_native_eth then Ok ETH_TICKER
     else ok_or (token_ticker refund_asset) (GasCostSampler REFUND_ASSET_TICKER_ERROR_MSG));
  refund_amount_u128 ← lift (ok_or (try_into_u 128 refund_amount)
                               (AuthError.GasSponsorship "FromUintError"));
  let refund_amount_whole := convert_to_decimal refund_asset refund_amount_u128 in
  estimate ← lift (map_err AuthError.GasSponsorship (e_gas_sample env));
  set_gauge GAS_SPONSORSHIP_VALUE
    [(KEY_DESCRIPTION_METRIC_TAG, key); (REQUEST_ID_METRIC_TAG, request_id);
     (SDK_VERSION_METRIC_TAG, sdk_version); (REFUND_ASSET_TAG, refund_asset_ticker);
     (REFUND_AMOUNT_TAG, f64_to_string refund_amount_whole);
     (L2_BASE_FEE_TAG, int_to_string (l2_base_fee estimate));
     (L1_COST_PER_BYTE_TAG, int_to_string (l1_data_fee estimate))] value.

(** The dollar value of the refund that was paid. *)
Definition refund_value (amount : Z) (nominal_price : bigdecimal) : res AuthServerError f64 :=
  ok_or (bd_to_f64 (bd_mul (bd_from_int amount) nominal_price))
    (AuthError.GasSponsorship "failed to convert gas sponsorship value to f64").

Definition record_settled_match_sponsorship (env : match_env) (ctx : BundleContext)
    (m : ApiBoundedMatchResult) (r : TransactionReceipt) (info : GasSponsorshipInfo) (nonce : Z)
    : M unit :=
  let refund_asset := if refund_native_eth info then weth else b_output_mint m in
  nominal_price ← lift (map_err PriceReporter (e_price_usd env (hex refund_asset)));
  let actual_refund_amount := get_actual_refund_amount (receipt_logs r) nonce in
  value ← lift (refund_value actual_refund_amount nominal_price);
  _ ← on_redis (record_gas_sponsorship duration_round format_window limiter (e_book env)
                  (e_book_now env).1 (e_book_now env).2 (key_description ctx) value);
  record_gas_sponsorship_metrics env value (refund_native_eth info) actual_refund_amount refund_asset
    (key_description ctx) (request_id ctx) (sdk_version ctx).

Definition record_time_diff (t1 t2 : Z) (name : string) (ts : tags) : M unit :=
  set_gauge name ts (of_Z (saturating_sub t2 t1)).
Definition record_settlement_delay (settlement_time : Z) (ctx : BundleContext) : M unit :=
  record_time_diff (ctx_price_timestamp ctx) settlement_time EXTERNAL_MATCH_SETTLEMENT_DELAY
    (get_labels ctx).
Definition record_assembly_delay (ctx : BundleContext) : M unit :=
  match assembled_timestamp ctx with
  | Some t => record_time_diff (ctx_price_timestamp ctx) t EXTERNAL_MATCH_ASSEMBLY_DELAY (get_labels ctx)
  | None => mret tt
  end.
Definition record_assembly_to_settlement_delay (settlement_time : Z) (ctx : BundleContext) : M unit :=
  match assembled_timestamp ctx with
  | Some t => record_time_diff t settlement_time EXTERNAL_MATCH_ASSEMBLY_TO_SETTLEMENT_DELAY (get_labels ctx)
  | None => mret tt
  end.

(** The fallible part of [process_external_match], up to the cleanup. *)
Definition settle_bundle (env : match_env) (ctx : BundleContext) (m : BoundedMatchResult)
    (actual_external_input : Z) (r : TransactionReceipt) : M unit :=
  _ ← add_bundle_rate_limit_token env (key_description ctx);
  let api_match := to_api m in
  let '(actual_input, actual_output) := compute_external_amounts m actual_external_input in
  _ ← record_external_match_spread_cost env ctx api_match actual_input actual_output;
  _ ← record_settlement_metrics r ctx api_match actual_input actual_output;
  match gas_sponsorship_info ctx with
  | Some (info, sponsorship_nonce) =>
      record_settled_match_sponsorship env ctx api_match r info sponsorship_nonce
  | None => mret tt
  end.

Definition process_external_match (env : match_env) (m : BoundedMatchResult)
    (actual_external_input nonce : Z) (r : TransactionReceipt) (settlement_time : Z) : M unit :=
  bundle ← gets (fun s => read nonce (bundles s));
  match bundle with
  | None => mret tt
  | Some ctx =>
      _ ← settle_bundle env ctx m actual_external_input r;
      _ ← modify (fun s => mk_listener (remove_bundle (bundle_id ctx) (bundles s)) (redis s) (gauges s));
      _ ← record_assembly_delay ctx;
      _ ← record_assembly_to_settlement_delay settlement_time ctx;
      record_settlement_delay settlement_time ctx
  end.

(** *** listener.rs *)
(** The text of an error. *)
Context (error_text : AuthServerError -> string).

(** The matches of a transaction, each with its environment, in order; the nonce
    is that of the event, for all of them. *)
Fixpoint process_matches (nonce : Z) (r : TransactionReceipt) (settlement_time : Z)
    (ms : list (match_env * BoundedMatchResult * Z)) : M unit :=
  match ms with
  | [] => mret tt
  | (env, m, actual_external_input) :: ms =>
      _ ← process_external_match env m actual_external_input nonce r settlement_time;
      process_matches nonce r settlement_time ms
  end.

(** [get_block] looks a block's timestamp up, in seconds. *)
Definition get_settlement_timestamp (get_block : Z -> res string (option Z)) (r : TransactionReceipt)
    : res AuthServerError Z :=
  number ← ok_or (block_number r) (DarkpoolClient "receipt has no block_number");
  block ← map_err DarkpoolClient (get_block number);
  timestamp ← ok_or block (DarkpoolClient "block not found");
  Ok (umul 64 timestamp 1000).

Definition to_listener_error {A} (m : M A) : eff listener_state OnChainEventListenerError A := fun s =>
  let '(r, s') := m s in (map_err (fun e => OAuthServer (error_text e)) r, s').

Definition check_external_match_settlement (nonce : Z)
    (get_transaction_receipt : res string (option TransactionReceipt))
    (get_block : Z -> res string (option Z))
    (find_external_matches_in_tx : res string (list (match_env * BoundedMatchResult * Z)))
    : eff listener_state OnChainEventListenerError unit :=
  maybe_receipt ← lift (map_err ODarkpool get_transaction_receipt);
  match maybe_receipt with
  | None => lift (Err (ODarkpool "no receipt found for tx"))
  | Some receipt =>
      settlement_time ← to_listener_error (lift (get_settlement_timestamp get_block receipt));
      matches ← lift (map_err ODarkpool find_external_matches_in_tx);
      to_listener_error (process_matches nonce receipt settlement_time matches)
  end.

(** The log stream: the hash of the transaction, which may be missing, and the
    decoded nonce.  The loop spawns one check per event and ends with an error,
    or with the panic of [unreachable!()] when the stream ends. *)
Fixpoint watch_loop (logs : list (option Z * res string Z))
    : list (Z * Z) * res OnChainEventListenerError unit :=
  match logs with
  | [] => ([], Panic)
  | (tx_hash, event) :: logs =>
      match ok_or tx_hash (ODarkpool "no tx hash") with
      | Ok tx =>
          match map_err ORpc event with
          | Ok nonce => let '(spawned, r) := watch_loop logs in ((tx, nonce) :: spawned, r)
          | Err e => ([], Err e)
          | Panic => ([], Panic)
          end
      | Err e => ([], Err e)
      | Panic => ([], Panic)
      end
  end.
Definition watch_nonces (subscribe : res OnChainEventListenerError unit)
    (logs : list (option Z * res string Z)) : list (Z * Z) * res OnChainEventListenerError unit :=
  match subscribe with
  | Ok _ => watch_loop logs
  | Err e => ([], Err e)
  | Panic => ([], Panic)
  end.

(** [execute]: [unwrap_err] panics on [Ok]. *)
Definition execute (block_number : res string Z) (subscribe : res OnChainEventListenerError unit)
    (logs : list (option Z * res string Z)) : list (Z * Z) * res OnChainEventListenerError unit :=
  match map_err ODarkpool block_number with
  | Ok _ =>
      let '(spawned, r) := watch_nonces subscribe logs in
      (spawned, match r with Ok _ => Panic | r => r end)
  | Err e => ([], Err e)
  | Panic => ([], Panic)
  end.

(** ** What the steps change *)

(** A step that touches neither the bundles nor Redis. *)
Definition quiet {A} (m : M A) : Prop :=
  forall s, bundles (m s).2 = bundles s /\ redis (m s).2 = redis s.
Definition keeps_bundles {A} (m : M A) : Prop := forall s, bundles (m s).2 = bundles s.

Lemma quiet_ret {A} (a : A) : quiet (mret a).
Proof. done. Qed.
Lemma quiet_lift {A} (r : res AuthServerError A) : quiet (lift r).
Proof. done. Qed.
Lemma quiet_gauge name ts v : quiet (set_gauge name ts v).
Proof. done. Qed.
Lemma quiet_bind {A B} (m : M A) (f : A -> M B) : quiet m -> (forall a, quiet (f a)) -> quiet (m ≫= f).
Proof.
  intros Hm Hf s. unfold mbind, eff_bind. specialize (Hm s).
  destruct (m s) as [[a|e|] s1]; cbn in *; [|done..].
  destruct (Hf a s1) as [-> ->]. done.
Qed.
Lemma quiet_keeps {A} (m : M A) : quiet m -> keeps_bundles m.
Proof. intros H s. apply H. Qed.
Lemma keeps_bind {A B} (m : M A) (f : A -> M B) :
  keeps_bundles m -> (forall a, keeps_bundles (f a)) -> keeps_bundles (m ≫= f).
Proof.
  intros Hm Hf s. unfold mbind, eff_bind. specialize (Hm s).
  destruct (m s) as [[a|e|] s1]; cbn in *; [|done..]. by rewrite (Hf a s1).
Qed.
Lemma keeps_redis {A} (f : rstore -> res AuthServerError A * rstore) : keeps_bundles (on_redis f).
Proof. intros s. unfold on_redis. by destruct (f (redis s)). Qed.
End Settlement.

#[export] Hint Resolve quiet_ret quiet_lift quiet_gauge quiet_keeps keeps_redis : settle.
Ltac quiet_tac :=
  repeat first
    [ solve [auto with settle]
    | apply quiet_bind; [|intros ?] | apply keeps_bind; [|intros ?]
    | progress cbn beta iota
    | match goal with |- context [let '(_, _) := ?x in _] => destruct x end
    | match goal with |- context [match ?x with _ => _ end] => destruct x end ].

Section Facts.
Context `{R : Redis} (duration_round : Z -> Z -> Z) (format_window : Z -> string).
Context `{BD : BigDecimalOps}.
Context (usdc weth native : Address) (token_ticker : Address -> option string)
  (token_decimals : Address -> option Z) (convert_to_decimal : Address -> Z -> f64)
  (hex : Address -> string) (f64_to_string : f64 -> string) (int_to_string : Z -> string)
  (powi10 : Z -> f64).
Context {BoundedMatchResult : Type} (to_api : BoundedMatchResult -> ApiBoundedMatchResult)
  (to_external_obligation : BoundedMatchResult -> Z -> Z * Z).
Context (limiter : AuthServerRateLimiter) (gas_sponsor_address : Address).

Abbreviation settle :=
  (settle_bundle duration_round format_window usdc weth native token_ticker token_decimals
     convert_to_decimal hex f64_to_string int_to_string powi10 to_api to_external_obligation limiter
     gas_sponsor_address).
Abbreviation process :=
  (process_external_match duration_round format_window usdc weth native token_ticker token_decimals
     convert_to_decimal hex f64_to_string int_to_string powi10 to_api to_external_obligation limiter
     gas_sponsor_address).
Abbreviation process_all :=
  (process_matches duration_round format_window usdc weth native token_ticker token_decimals
     convert_to_decimal hex f64_to_string int_to_string powi10 to_api to_external_obligation limiter
     gas_sponsor_address).

Lemma spread_cost_quiet env ctx m i o :
  quiet (record_external_match_spread_cost usdc weth native token_ticker token_decimals
           convert_to_decimal hex powi10 env ctx m i o).
Proof. unfold record_external_match_spread_cost. quiet_tac. Qed.
Lemma settlement_metrics_quiet r ctx m i o :
  quiet (record_settlement_metrics usdc token_ticker convert_to_decimal hex r ctx m i o).
Proof. unfold record_settlement_metrics, record_volume_with_tags. quiet_tac. Qed.
Lemma sponsorship_metrics_quiet env v n a t k i d :
  quiet (record_gas_sponsorship_metrics token_ticker convert_to_decimal f64_to_string int_to_string
           env v n a t k i d).
Proof. unfold record_gas_sponsorship_metrics. quiet_tac. Qed.
Lemma delays_run t ctx (s : listener_state (R := R)) : exists s',
  (_ ← record_assembly_delay ctx; _ ← record_assembly_to_settlement_delay t ctx;
   record_settlement_delay t ctx) s = (Ok tt, s') /\
  bundles s' = bundles s /\ redis s' = redis s.
Proof.
  unfold record_assembly_delay, record_assembly_to_settlement_delay.
  destruct (assembled_timestamp ctx); by eexists.
Qed.

(** *** The effect of a settlement on Redis *)
Definition credit (env : match_env) (user : string) (rs : rstore) : res AuthServerError unit * rstore :=
  add_bundle_token duration_round format_window limiter (e_credit env).1 (e_credit env).2
    (e_credit_now env).1 (e_credit_now env).2 user rs.
Definition book (env : match_env) (user : string) (value : f64) (rs : rstore)
    : res AuthServerError unit * rstore :=
  record_gas_sponsorship duration_round format_window limiter (e_book env) (e_book_now env).1
    (e_book_now env).2 user value rs.

(** A settlement credits the user once and books, when there is sponsorship
    information, the value of the refund paid under its nonce. *)
Inductive settled (env : match_env) (ctx : BundleContext) (m : BoundedMatchResult)
    (r : TransactionReceipt) (rs : rstore) : rstore -> Prop :=
  | settled_plain rs1 :
      gas_sponsorship_info ctx = None ->
      credit env (key_description ctx) rs = (Ok tt, rs1) ->
      settled env ctx m r rs rs1
  | settled_sponsored info nonce price value rs1 rs2 :
      gas_sponsorship_info ctx = Some (info, nonce) ->
      credit env (key_description ctx) rs = (Ok tt, rs1) ->
      e_price_usd env (hex (if refund_native_eth info then weth else b_output_mint (to_api m)))
        = Ok price ->
      refund_value (get_actual_refund_amount gas_sponsor_address (receipt_logs r) nonce) price = Ok value ->
      book env (key_description ctx) value rs1 = (Ok tt, rs2) ->
      settled env ctx m r rs rs2.

Lemma on_redis_Ok {A} f s (a : A) s' :
  on_redis f s = (Ok a, s') -> f (redis s) = (Ok a, redis s') /\ bundles s' = bundles s.
Proof. unfold on_redis. destruct (f (redis s)). intros [= -> <-]. done. Qed.
Lemma quiet_Ok {A} (m : eff listener_state AuthServerError A) s a s' :
  quiet m -> m s = (Ok a, s') -> bundles s' = bundles s /\ redis s' = redis s.
Proof. intros H E. specialize (H s). by rewrite E in H. Qed.
Ltac run_step H :=
  let a := fresh "a" in let s1 := fresh "s" in let E := fresh "E" in
  apply eff_bind_Ok in H as (a & s1 & E & H).

Lemma settle_Ok env ctx m a r s s' :
  settle env ctx m a r s = (Ok tt, s') ->
  bundles s' = bundles s /\ settled env ctx m r (redis s) (redis s').
Proof.
  unfold settle_bundle, add_bundle_rate_limit_token. intros H. run_step H.
  destruct (compute_external_amounts _ m a) as [i o]. run_step H. run_step H.
  apply on_redis_Ok in E as [Hc Hb]. destruct a0.
  apply quiet_Ok in E0 as [Hb0 Hr0]; [|apply spread_cost_quiet].
  apply quiet_Ok in E1 as [Hb1 Hr1]; [|apply settlement_metrics_quiet].
  destruct (gas_sponsorship_info ctx) as [[info nonce]|] eqn:Ei.
  - unfold record_settled_match_sponsorship in H. run_step H. run_step H. run_step H.
    apply lift_Ok in E as [Hp ->]. apply lift_Ok in E0 as [Hv ->].
    apply on_redis_Ok in E1 as [Hbk Hb2]. destruct a4.
    apply quiet_Ok in H as [Hb3 Hr3]; [|apply sponsorship_metrics_quiet].
    split; [congruence|]. rewrite Hr3.
    destruct (e_price_usd env _) as [p|e|] eqn:Ep; simplify_eq/=.
    eapply settled_sponsored; [done|done|exact Ep|exact Hv|]. unfold book. congruence.
  - injection H as <-. split; [congruence|]. apply settled_plain; [done|]. unfold credit. congruence.
Qed.

Lemma settle_keeps env ctx m a r s : bundles (settle env ctx m a r s).2 = bundles s.
Proof.
  revert s. change (keeps_bundles (settle env ctx m a r)).
  unfold settle_bundle, add_bundle_rate_limit_token, record_settled_match_sponsorship.
  pose proof spread_cost_quiet. pose proof settlement_metrics_quiet.
  pose proof sponsorship_metrics_quiet. quiet_tac.
Qed.

Lemma process_missing env m a nonce r t s :
  bundles s !! nonce = None -> process env m a nonce r t s = (Ok tt, s).
Proof. intros H. unfold process_external_match, gets, mbind, eff_bind, read. by rewrite H. Qed.

Lemma process_all_missing nonce r t ms s :
  bundles s !! nonce = None -> process_all nonce r t ms s = (Ok tt, s).
Proof.
  intros H. induction ms as [|[[env m] a] ms IH]; [done|].
  cbn. by rewrite (eff_bind_run _ _ _ _ _ (process_missing env m a nonce r t s H)).
Qed.

Lemma process_found env m a nonce r t s ctx :
  bundles s !! nonce = Some ctx ->
  exists o s1 s', settle env ctx m a r s = (o, s1) /\ process env m a nonce r t s = (o, s') /\
    bundles s' = match o with Ok _ => delete (bundle_id ctx) (bundles s) | _ => bundles s end /\
    redis s' = redis s1.
Proof.
  intros H. unfold process_external_match.
  rewrite (eff_bind_run _ _ _ (Some ctx) s) by (unfold gets, read; by rewrite H).
  pose proof (settle_keeps env ctx m a r s) as Hk.
  unfold mbind at 1, eff_bind at 1. destruct (settle env ctx m a r s) as [[[]|e|] s1] eqn:E; cbn in Hk.
  - set (s2 := mk_listener (remove_bundle (bundle_id ctx) (bundles s1)) (redis s1) (gauges s1)).
    rewrite (eff_bind_run _ _ _ tt s2) by done.
    destruct (delays_run t ctx s2) as (s3 & -> & Hb & Hr). exists (Ok tt), s1, s3.
    split_and!; [done..|rewrite Hb; unfold s2, remove_bundle; cbn; by rewrite Hk|done].
  - by exists (Err e), s1, s1.
  - by exists Panic, s1, s1.
Qed.

(** *** The store *)
(** What holds of every stored bundle: it is filed under its identifier, which is
    its sponsorship nonce. *)
Definition stored_ok (id : BundleId) (ctx : BundleContext) : Prop :=
  bundle_id ctx = id /\ is_sponsored ctx = true /\
  exists info, gas_sponsorship_info ctx = Some (info, id).
Definition store_inv (b : BundleStore) : Prop := map_Forall stored_ok b.

Lemma write_context_inv p a ctx b : store_inv b -> store_inv (write_bundle_context p a ctx b).2.
Proof.
  intros H. unfold write_bundle_context, sponsorship_nonce.
  destruct (sponsorship_info_with_nonce ctx) as [[info n]|] eqn:E; cbn; [|done].
  apply map_Forall_insert_2; [|done]. unfold stored_ok. cbn. eauto.
Qed.

Lemma process_inv env m a nonce r t s :
  store_inv (bundles s) -> store_inv (bundles (process env m a nonce r t s).2).
Proof.
  intros H. destruct (bundles s !! nonce) as [ctx|] eqn:E.
  - destruct (process_found env m a nonce r t s ctx E) as (o & s1 & s' & _ & -> & Hb & _).
    cbn. rewrite Hb. destruct o; [by apply map_Forall_delete|done..].
  - by rewrite process_missing.
Qed.

(** C16. A settlement that is processed without an error: the bundle is dropped,
    its user is credited once and the refund paid under its own nonce is booked
    once; every further match of the transaction, and every later event with the
    nonce, changes nothing. *)
Theorem settlement_processed_once env m a nonce r t s s1 ctx :
  store_inv (bundles s) -> bundles s !! nonce = Some ctx ->
  process env m a nonce r t s = (Ok tt, s1) ->
  bundles s1 = delete nonce (bundles s) /\
  settled env ctx m r (redis s) (redis s1) /\
  (exists info, gas_sponsorship_info ctx = Some (info, nonce)) /\
  (forall ms, process_all nonce r t ((env, m, a) :: ms) s = (Ok tt, s1)) /\
  (forall r' t' ms, process_all nonce r' t' ms s1 = (Ok tt, s1)).
Proof.
  intros Hi Hc Hp. destruct (process_found env m a nonce r t s ctx Hc) as (o & s2 & s' & Hs & Hp' & Hb & Hr).
  rewrite Hp in Hp'. injection Hp' as <- <-. cbn in Hb. destruct (Hi _ _ Hc) as (Hid & _ & Hinfo).
  rewrite Hid in Hb. apply settle_Ok in Hs as [_ Hs]. rewrite <- Hr in Hs.
  assert (Hgone : bundles s1 !! nonce = None) by (rewrite Hb; apply lookup_delete_eq).
  split_and!; try done.
  - intros ms. cbn. rewrite (eff_bind_run _ _ _ _ _ Hp). by apply process_all_missing.
  - intros r' t' ms. by apply process_all_missing.
Qed.

(** *** Failures *)
(** The attempts to process one bundle, one after the other, errors only logged. *)
Definition attempts (m : BoundedMatchResult) (a nonce : Z) (r : TransactionReceipt) (t : Z)
    (envs : list match_env) (s : listener_state) : listener_state :=
  foldl (fun s env => (process env m a nonce r t s).2) s envs.

(** The credit goes through and the reference price is not available. *)
Definition price_missing (m : BoundedMatchResult) (env : match_env) : Prop :=
  e_credit env = (Delivered, Delivered) /\
  exists base quote e, pick_base_and_quote_mints usdc (b_input_mint (to_api m)) (b_output_mint (to_api m))
      = Ok (base, quote) /\ e_price env (hex base) = Err e.

Lemma credit_delivered env user rs :
  e_credit env = (Delivered, Delivered) -> credit env user rs = (Ok tt, (credit env user rs).2).
Proof.
  intros H. unfold credit, add_bundle_token, decrement_consumed, get_consumed, decrement_write.
  rewrite H. done.
Qed.

Lemma process_price_missing env m a nonce r t s ctx :
  price_missing m env -> bundles s !! nonce = Some ctx ->
  exists e s', process env m a nonce r t s = (Err (PriceReporter e), s') /\
    bundles s' = bundles s /\ redis s' = (credit env (key_description ctx) (redis s)).2.
Proof.
  intros (Hc & base & quote & e & Hpick & Hprice) Hb.
  destruct (process_found env m a nonce r t s ctx Hb) as (o & s1 & s' & Hs & Hp & Hbs & Hr).
  assert (Herr : settle env ctx m a r s = (Err (PriceReporter e),
      mk_listener (bundles s) (credit env (key_description ctx) (redis s)).2 (gauges s))).
  { unfold settle_bundle, add_bundle_rate_limit_token. destruct (compute_external_amounts _ m a).
    rewrite (eff_bind_run _ _ _ tt (mk_listener (bundles s)
      (credit env (key_description ctx) (redis s)).2 (gauges s))).
    2: { unfold on_redis. pose proof (credit_delivered env (key_description ctx) (redis s) Hc) as Hd.
         unfold credit in Hd. by rewrite Hd. }
    unfold record_external_match_spread_cost, mbind, eff_bind, lift. rewrite Hpick. cbn.
    by rewrite Hprice. }
  rewrite Herr in Hs. injection Hs as <- <-. by exists e, s'.
Qed.

(** The credit comes before the steps that can fail and the bundle is only
    dropped after them: when they fail the bundle stays, so each further match
    of the transaction or event with the nonce credits its user again. *)
Theorem failed_settlement_credits_again m a nonce r t envs s ctx :
  bundles s !! nonce = Some ctx -> Forall (price_missing m) envs ->
  bundles (attempts m a nonce r t envs s) = bundles s /\
  redis (attempts m a nonce r t envs s) =
    foldl (fun rs env => (credit env (key_description ctx) rs).2) (redis s) envs.
Proof.
  revert s. induction envs as [|env envs IH]; intros s Hb Hf; [done|]. cbn.
  apply Forall_cons in Hf as [He Hf].
  destruct (process_price_missing env m a nonce r t s ctx He Hb) as (e & s' & -> & Hb' & Hr').
  cbn. rewrite <- Hr', <- Hb'. apply IH; [by rewrite Hb'|done].
Qed.

(** *** Reachable stores *)
Inductive store_step (s : listener_state) : listener_state -> Prop :=
  | step_assembled price_timestamp assembled ctx :
      store_step s (mk_listener (write_bundle_context price_timestamp assembled ctx (bundles s)).2
                      (redis s) (gauges s))
  | step_settled env m a nonce r t : store_step s (process env m a nonce r t s).2.

Lemma store_step_inv s s' : store_step s s' -> store_inv (bundles s) -> store_inv (bundles s').
Proof. intros [] H; [by apply write_context_inv|by apply process_inv]. Qed.

(** In every state the server reaches, a bundle is filed under its own
    nonce and counts as sponsored, whatever its refund; and a bundle leaves the
    store only when its own settlement is processed without an error, so one
    that never settles stays for ever. *)
Theorem bundle_store_invariant rs gs s :
  rtc store_step (mk_listener bundle_store_new rs gs) s ->
  store_inv (bundles s) /\
  (forall s' id ctx, store_step s s' -> bundles s !! id = Some ctx -> bundles s' !! id = None ->
     exists env m a r t, process env m a id r t s = (Ok tt, s')).
Proof.
  intros Hr. assert (Hinv : store_inv (bundles s)).
  { remember (mk_listener bundle_store_new rs gs) as s0 eqn:E.
    assert (H0 : store_inv (bundles s0)) by (subst; apply map_Forall_empty).
    clear E. induction Hr; eauto using store_step_inv. }
  split; [done|]. intros s' id ctx [p a c|env m a nonce r t] Hid Hgone.
  - exfalso. cbn in Hgone. unfold write_bundle_context, sponsorship_nonce in Hgone.
    destruct (sponsorship_info_with_nonce c) as [[info n]|]; cbn in Hgone; [|congruence].
    apply lookup_insert_None in Hgone as [Hn _]. by pose proof (eq_trans (eq_sym Hid) Hn).
  - exists env, m, a, r, t. destruct (bundles s !! nonce) as [ctx'|] eqn:En.
    + destruct (process_found env m a nonce r t s ctx' En) as (o & s1 & s2 & _ & Hp & Hb & _).
      rewrite Hp in Hgone |- *. cbn in *. destruct (Hinv _ _ En) as [Hn _].
      destruct o as [[]| |]; rewrite Hb in Hgone; [|congruence..].
      apply lookup_delete_None in Hgone as [Heq | Hnone]; [|by pose proof (eq_trans (eq_sym Hid) Hnone)].
      by rewrite <- Heq, Hn, Hp.
    + rewrite (process_missing _ _ _ _ _ _ _ En) in Hgone. cbn in Hgone. congruence.
Qed.

(** The refund that is booked is the one paid on chain: that of the first
    log of the gas sponsor with the nonce, and nothing when there is none, as
    when the sponsor ran out of funds. *)
Theorem refund_is_paid_refund logs nonce :
  get_actual_refund_amount gas_sponsor_address logs nonce =
    default 0 (head (omap (fun l =>
      if log_address l =? gas_sponsor_address then
        '(n, refund) ← log_sponsored_match l; if n =? nonce then Some refund else None
      else None) logs)).
Proof.
  induction logs as [|l logs IH]; cbn; [done|].
  destruct (log_address l =? gas_sponsor_address); cbn; [|done].
  destruct (log_sponsored_match l) as [[n v]|]; cbn; [|done]. by destruct (n =? nonce).
Qed.
End Facts.

(** The listener is fail-stop: it never returns normally.  It ends with the
    error of the start-up or of the first malformed event, or with a panic when
    the stream of events ends; every event before that has its check spawned. *)
Theorem listener_fails_stop block subscribe events rest :
  let logs := map (fun e => (Some e.1, Ok e.2)) events ++ rest in
  (forall tx n rest', rest <> (Some tx, Ok n) :: rest') ->
  let '(spawned, r) := execute block subscribe logs in
  (forall u, r <> Ok u) /\
  (block <> Panic -> (forall e, block <> Err e) -> subscribe = Ok tt ->
   spawned = events /\ (rest = [] -> r = Panic)).
Proof.
  intros logs Hrest.
  assert (Hloop : exists r, watch_loop logs = (events, r) /\ (forall u, r <> Ok u) /\
                            (rest = [] -> r = Panic)).
  { unfold logs. clear logs. induction events as [|[tx n] es IH]; cbn.
    - destruct rest as [|[[tx|] [n|e|]] rest]; cbn; try by eexists.
      exfalso. by eapply Hrest.
    - destruct IH as (r & -> & ?). by eexists. }
  destruct Hloop as (r & Hl & Hne & Hend). unfold execute, watch_nonces.
  destruct block as [b|e|], subscribe as [[]|e'|]; cbn; try (split; [done|]; naive_solver).
  rewrite Hl. destruct r as [u| |]; [by destruct (Hne u)|..]; (split; [done|]); naive_solver.
Qed.

Module SettlementWitness.
Import RateLimiterWitness.
Local Open Scope string_scope.
#[local] Existing Instance kv_redis.

(** Decimals that are doubles. *)
#[local] Instance f64_decimals : BigDecimalOps := {|
  bigdecimal := f64; bd_from_f64 f := if is_finite f then Some f else None; bd_from_int := of_Z;
  bd_mul := fmul; bd_div := fdiv; bd_to_f64 := Some; bd_is_zero f := feqb f f0;
  bd_round_int := to_uint 256 |}.

(** USDC is 7, the other token is 8; 5 is the gas sponsor. *)
Definition api1 (_ : unit) : ApiBoundedMatchResult := mk_bounded 7%Z 8%Z f2.
Definition limiter1 : AuthServerRateLimiter := new_rate_limiter 5 2 (of_Z 100).
Definition env1 (price : res PriceReporterClientError f64) : match_env :=
  mk_env (Delivered, Delivered) (1, 1)%Z (fun _ => price) (fun _ => Ok f1) Delivered (1, 1)%Z
    (Ok (mk_estimation 1 2 3)).
Definition ctx1 : BundleContext :=
  mk_bundle_ctx "u" 42 "r" "v1" (Some (mk_info 10 false None, 42%Z)) true 100 (Some 200%Z).
Definition receipt1 : TransactionReceipt := mk_receipt (Some 3%Z)
  [mk_log 6 (Some (42, 1)%Z) false; mk_log 5 (Some (41, 7)%Z) true; mk_log 5 (Some (42, 9)%Z) false].
Definition redis1 : kv := {["bundle_rate_limitu#w" := (of_Z 2, None)]}.
Definition state1 : listener_state := mk_listener {[42%Z := ctx1]} redis1 [].
Definition one (_ : Z) : option string := Some "T".
Definition dec (_ : Z) : option Z := Some 6%Z.
Definition conv (_ n : Z) : f64 := of_Z n.
Definition hx (_ : Z) : string := "0x".
Definition oblig (_ : unit) (n : Z) : Z * Z := (n, n)%Z.
Definition pow (_ : Z) : f64 := f1.
Definition settle1 (env : match_env) :=
  process_external_match round fmt 7 8 9 one dec conv hx (fun _ => "") (fun _ => "") pow api1 oblig
    limiter1 5 env tt 50 42 receipt1 300.
Definition state2 : listener_state := (settle1 (env1 (Ok f1)) state1).2.

Lemma settle1_ok : settle1 (env1 (Ok f1)) state1 = (Ok tt, state2).
Proof.
  rewrite (surjective_pairing (settle1 _ state1)). unfold state2. f_equal.
Qed.

Lemma settlement_processed_once_witness :
  bundles state2 = delete 42%Z (bundles state1) /\
  rget (redis state2) "bundle_rate_limitu#w" = Some (of_Z 1) /\
  rget (redis state2) "gas_sponsorship_rate_limitu#w" = Some (of_Z 9).
Proof.
  split; [|vm_compute; done].
  refine (proj1 (settlement_processed_once round fmt 7 8 9 one dec conv hx (fun _ => "") (fun _ => "") pow api1
    oblig limiter1 5 (env1 (Ok f1)) tt 50 42 receipt1 300 state1 state2 ctx1 _ _ settle1_ok)); [|reflexivity].
  apply map_Forall_singleton. repeat split. by exists (mk_info 10 false None).
Defined.

Definition down : match_env := env1 (Err (PRHttp "down")).
Lemma failed_settlement_credits_again_witness :
  let s := attempts round fmt 7 8 9 one dec conv hx (fun _ => "") (fun _ => "") pow api1 oblig limiter1 5
             tt 50 42 receipt1 300 [down; down] state1 in
  bundles s = bundles state1 /\ rget (redis s) "bundle_rate_limitu#w" = Some f0.
Proof.
  split; [|vm_compute; done].
  refine (proj1 (failed_settlement_credits_again round fmt 7 8 9 one dec conv hx (fun _ => "") (fun _ => "") pow
    api1 oblig limiter1 5 tt 50 42 receipt1 300 [down; down] state1 ctx1 _ _)); [reflexivity|].
  repeat constructor; by exists 8%Z, 7%Z, (PRHttp "down").
Defined.

Lemma bundle_store_invariant_witness : store_inv (bundles (mk_listener (R := kv_redis) bundle_store_new ∅ [])).
Proof.
  refine (proj1 (bundle_store_invariant round fmt 7 8 9 one dec conv hx (fun _ => "") (fun _ => "") pow api1
    oblig limiter1 5 ∅ [] _ _)). apply rtc_refl.
Defined.

Lemma listener_fails_stop_witness :
  let '(spawned, r) := execute (Ok 1%Z) (Ok tt) [(Some 3, Ok 42)%Z; (None, Ok 43%Z)] in
  (forall u, r <> Ok u) /\
  ((Ok 1%Z : res string Z) <> Panic -> (forall e, (Ok 1%Z : res string Z) <> Err e) ->
   (Ok tt : res OnChainEventListenerError unit) = Ok tt ->
   spawned = [(3, 42)%Z] /\ ([(None, Ok 43%Z)] = ([] : list (option Z * res string Z)) -> r = Panic)).
Proof. apply (listener_fails_stop (Ok 1%Z) (Ok tt) [(3, 42)%Z] [(None, Ok 43%Z)]). by intros. Defined.
End SettlementWitness.
