(* ===== verification/Stringify.v ===== *)
(** * Numbers as strings in HTTP bodies (auth-server: http_utils/)

    A client may ask for numbers to be sent as strings.  Responses are then
    written with every number quoted (stringify_formatter.rs), and requests are
    read by turning every string that looks like a number back into one.  The
    model works on JSON trees: serde_json's text codec is outside it, a number
    is kept as its text (the [arbitrary_precision] representation), and the two
    number grammars the code relies on, that of Rust's [f64::from_str] and that
    of JSON, are executable recognizers.  Integers are displayed in decimal;
    the text of doubles is a parameter. *)
From Stdlib Require Import ZArith Lia Ascii.
From stdpp Require Import sets strings list pretty.
From S2P Require Import Prelude F64 AuthError.

(** ** Number grammars *)
Definition is_digit (c : ascii) : bool := (("0" <=? c) && (c <=? "9"))%char.

(** The digits at the front of a string: their number, and the rest. *)
Fixpoint skip_digits (s : string) : nat * string :=
  match s with
  | String c s' => if is_digit c then let '(n, r) := skip_digits s' in (S n, r) else (O, s)
  | EmptyString => (O, s)
  end.
Definition strip (cs : list ascii) (s : string) : string :=
  match s with String c s' => if bool_decide (c ∈ cs) then s' else s | EmptyString => s end.
Definition is_empty (s : string) : bool := match s with EmptyString => true | _ => false end.

(** An optional exponent, up to the end; the same in both grammars. *)
Definition exponent (s : string) : bool :=
  match s with
  | EmptyString => true
  | String c s =>
      if bool_decide (c ∈ ["e"%char; "E"%char]) then
        let '(n, r) := skip_digits (strip ["+"%char; "-"%char] s) in (0 <? n)%nat && is_empty r
      else false
  end.

(** JSON: an optional minus, an integer without leading zeros, an optional
    fraction, an optional exponent. *)
Definition json_tail (s : string) : bool :=
  match s with
  | String "." r => let '(n, r) := skip_digits r in (0 <? n)%nat && exponent r
  | _ => exponent s
  end.
Definition json_number (s : string) : bool :=
  match strip ["-"%char] s with
  | String c r =>
      if Ascii.eqb c "0" then json_tail r
      else if is_digit c then json_tail (skip_digits r).2 else false
  | EmptyString => false
  end.

(** [f64::from_str]: an optional sign, then a word for infinity or NaN in any
    case, or digits with an optional point and exponent. *)
Definition float_number (s : string) : bool :=
  let '(n, r) := skip_digits s in
  match r with
  | String "." r => let '(m, r) := skip_digits r in (0 <? n + m)%nat && exponent r
  | _ => (0 <? n)%nat && exponent r
  end.
Definition float_words : list string := ["inf"; "infinity"; "nan"]%string.
Definition rust_float (s : string) : bool :=
  let s := strip ["+"%char; "-"%char] s in
  bool_decide (to_lowercase s ∈ float_words) || float_number s.

(** ** JSON trees and the values that are serialized *)
Local Unset Elimination Schemes.
Inductive Value :=
  | VNull
  | VBool (b : bool)
  | VNumber (text : string)
  | VString (s : string)
  | VArray (vs : list Value)
  | VObject (fields : list (string * Value)).

Section ValueInd.
Context (P : Value -> Prop).
Context (Hnull : P VNull) (Hbool : forall b, P (VBool b)) (Hnum : forall t, P (VNumber t))
  (Hstr : forall s, P (VString s)) (Harr : forall vs, Forall P vs -> P (VArray vs))
  (Hobj : forall fs, Forall (fun f => P f.2) fs -> P (VObject fs)).
Fixpoint value_ind' (v : Value) : P v :=
  match v with
  | VNull => Hnull
  | VBool b => Hbool b
  | VNumber t => Hnum t
  | VString s => Hstr s
  | VArray vs => Harr vs ((fix go vs := match vs return Forall P vs with
      | [] => Forall_nil_2 P
      | v :: vs => Forall_cons_2 P v vs (value_ind' v) (go vs) end) vs)
  | VObject fs => Hobj fs ((fix go fs := match fs return Forall (fun f => P f.2) fs with
      | [] => Forall_nil_2 _
      | f :: fs => Forall_cons_2 (fun f => P f.2) f fs (value_ind' f.2) (go fs) end) fs)
  end.
End ValueInd.

(** The serde data model of a body. *)
Inductive Data :=
  | DNull
  | DBool (b : bool)
  | DInt (z : Z)
  | DFloat (f : f64)
  | DStr (s : string)
  | DSeq (ds : list Data)
  | DMap (fields : list (string * Data)).
Local Set Elimination Schemes.

Section DataInd.
Context (P : Data -> Prop).
Context (Hnull : P DNull) (Hbool : forall b, P (DBool b)) (Hint : forall z, P (DInt z))
  (Hfloat : forall f, P (DFloat f)) (Hstr : forall s, P (DStr s))
  (Hseq : forall ds, Forall P ds -> P (DSeq ds))
  (Hmap : forall fs, Forall (fun f => P f.2) fs -> P (DMap fs)).
Fixpoint data_ind' (d : Data) : P d :=
  match d with
  | DNull => Hnull
  | DBool b => Hbool b
  | DInt z => Hint z
  | DFloat f => Hfloat f
  | DStr s => Hstr s
  | DSeq ds => Hseq ds ((fix go ds := match ds return Forall P ds with
      | [] => Forall_nil_2 P
      | d :: ds => Forall_cons_2 P d ds (data_ind' d) (go ds) end) ds)
  | DMap fs => Hmap fs ((fix go fs := match fs return Forall (fun f => P f.2) fs with
      | [] => Forall_nil_2 _
      | f :: fs => Forall_cons_2 (fun f => P f.2) f fs (data_ind' f.2) (go fs) end) fs)
  end.
End DataInd.

(** ** stringify_formatter.rs: the serializer *)
Section Serializer.
(** The text of a finite double, by [Display] and by the compact formatter. *)
Context (display_f64 compact_f64 : f64 -> string).

(** A formatter decides how the numbers are written. *)
Record Formatter := mk_formatter { write_int : Z -> Value; write_float : f64 -> Value }.
Definition CompactFormatter : Formatter :=
  mk_formatter (fun z => VNumber (pretty z)) (fun f => VNumber (compact_f64 f)).
(** [write_escaped_string]: the displayed value between quotes. *)
Definition write_escaped_string (text : string) : Value := VString text.
Definition StringifyNumbersFormatter : Formatter :=
  mk_formatter (fun z => write_escaped_string (pretty z))
    (fun f => write_escaped_string (display_f64 f)).

(** The serializer writes doubles that are not finite as null before it asks the
    formatter. *)
Fixpoint serialize (F : Formatter) (d : Data) : Value :=
  match d with
  | DNull => VNull
  | DBool b => VBool b
  | DInt z => write_int F z
  | DFloat f => if is_finite f then write_float F f else VNull
  | DStr s => VString s
  | DSeq ds => VArray (map (serialize F) ds)
  | DMap fs => VObject (map (fun f => (f.1, serialize F f.2)) fs)
  end.
Definition json_serialize (d : Data) (stringify : bool) : Value :=
  if stringify then serialize StringifyNumbersFormatter d else serialize CompactFormatter d.
End Serializer.

(** ** The deserializer *)
Definition IGNORED_KEYS : list string := ["price"%string].

Definition is_numeric (s : string) : bool := rust_float s.
Definition should_ignore_key (key : string) (v : Value) : bool :=
  match v with
  | VObject _ | VArray _ => false
  | _ => bool_decide (key ∈ IGNORED_KEYS)
  end.

(** [Number::from_str] *)
Definition number_from_str (s : string) : res string string :=
  if json_number s then Ok s else Err "invalid number"%string.

Fixpoint convert_stringified_numbers (v : Value) : res AuthServerError Value :=
  match v with
  | VString s =>
      if is_numeric s then
        num ← map_err Serde (number_from_str s);
        Ok (VNumber num)
      else Ok v
  | VObject fields =>
      fields ← (fix go fs :=
        match fs with
        | [] => Ok []
        | (key, value) :: fs =>
            value ← (if should_ignore_key key value then Ok value
                     else convert_stringified_numbers value);
            fs ← go fs;
            Ok ((key, value) :: fs)
        end) fields;
      Ok (VObject fields)
  | VArray arr =>
      arr ← (fix go vs :=
        match vs with
        | [] => Ok []
        | value :: vs =>
            value ← convert_stringified_numbers value;
            vs ← go vs;
            Ok (value :: vs)
        end) arr;
      Ok (VArray arr)
  | _ => Ok v
  end.

(** [from_value] is serde's deserializer of the type that is read. *)
Definition json_deserialize {T} (from_value : Value -> res string T) (v : Value) (stringify : bool)
    : res AuthServerError T :=
  if stringify then
    v ← convert_stringified_numbers v;
    map_err Serde (from_value v)
  else map_err Serde (from_value v).

(** ** request_response.rs *)
(** Headers by lower-case name; a value may not be text. *)
Definition should_stringify_numbers (accept : option (option string)) : bool :=
  match accept with
  | Some (Some v) => str_contains "number=string" v
  | _ => false
  end.

Record HttpResponse := mk_http { content_length : option nat; http_body : string }.
Definition overwrite_response_body (text : Value -> string) (display compact : f64 -> string)
    (resp : HttpResponse) (body : Data) (stringify : bool) : HttpResponse :=
  let serialized := text (json_serialize display compact body stringify) in
  mk_http (Some (String.length serialized)) serialized.

(** ** Lemmas on the grammars *)
Lemma digit_cases c : is_digit c = true ->
  c ∈ ["0"; "1"; "2"; "3"; "4"; "5"; "6"; "7"; "8"; "9"]%char.
Proof. destruct c as [[] [] [] [] [] [] [] []]; cbn; intros H; try discriminate H; set_solver. Qed.

Lemma digit_not_sign c s : is_digit c = true ->
  strip ["+"%char; "-"%char] (String c s) = String c s /\ strip ["-"%char] (String c s) = String c s.
Proof. intros H%digit_cases. set_unfold. by repeat destruct H as [-> | H]. Qed.

Lemma skip_digits_cons c s : is_digit c = true ->
  skip_digits (String c s) = (S (skip_digits s).1, (skip_digits s).2).
Proof. intros H. cbn. rewrite H. by destruct (skip_digits s). Qed.

(** The part after the sign. *)
Lemma json_unsigned_float c r :
  (if Ascii.eqb c "0" then json_tail r
   else if is_digit c then json_tail (skip_digits r).2 else false) = true ->
  is_digit c = true /\ float_number (String c r) = true.
Proof.
  intros H.
  assert (Hd : is_digit c = true /\ exists r', (skip_digits r).2 = r' /\
            (json_tail r' = true)).
  { destruct (Ascii.eqb_spec c "0") as [-> |].
    - split; [done|]. eexists; split; [done|].
      destruct r as [|c' r]; [done|]. destruct (is_digit c') eqn:Hc.
      + exfalso. apply digit_cases in Hc. set_unfold. by repeat destruct Hc as [-> | Hc].
      + cbn. by rewrite Hc.
    - destruct (is_digit c); [|done]. eauto. }
  destruct Hd as (Hd & r' & <- & Ht). split; [done|].
  unfold float_number. rewrite skip_digits_cons by done.
  destruct (skip_digits r) as [n r'']. cbn [fst snd] in *. unfold json_tail in Ht.
  destruct r'' as [|c' r'']; [done|].
  destruct (Ascii.eqb_spec c' ".") as [-> |Hne].
  - destruct (skip_digits r'') as [m r3]. by apply andb_true_iff in Ht as [_ ->].
  - destruct c' as [[] [] [] [] [] [] [] []]; try exact Ht. by destruct Hne.
Qed.

(** Every JSON number is accepted by [f64::from_str]. *)
Lemma json_number_numeric s : json_number s = true -> is_numeric s = true.
Proof.
  unfold json_number, is_numeric, rust_float. intros H. apply orb_true_iff. right.
  destruct s as [|c s]; [done|]. destruct (Ascii.eqb_spec c "-") as [-> |Hne].
  - change (strip ["-"%char] (String "-" s)) with s in H.
    change (strip ["+"%char; "-"%char] (String "-" s)) with s.
    destruct s as [|c s]; [done|]. by apply json_unsigned_float in H as [_ ?].
  - assert (Hs : strip ["-"%char] (String c s) = String c s).
    { unfold strip. rewrite bool_decide_eq_false_2; [done|]. set_solver. }
    rewrite Hs in H. apply json_unsigned_float in H as [Hd Hf].
    by rewrite (proj1 (digit_not_sign c s Hd)).
Qed.

(** *** Decimal text *)
Lemma pretty_char_digit x : (x < 10)%N -> is_digit (pretty_N_char x) = true.
Proof. intros H. assert (x = 0 \/ x = 1 \/ x = 2 \/ x = 3 \/ x = 4 \/ x = 5 \/ x = 6 \/ x = 7 \/ x = 8 \/ x = 9)%N by lia.
  by repeat destruct_or?; subst. Qed.

Fixpoint all_digits (s : string) : bool :=
  match s with EmptyString => true | String c s => is_digit c && all_digits s end.
Lemma all_digits_skip s : all_digits s = true -> (skip_digits s).2 = ""%string.
Proof.
  induction s as [|c s IH]; cbn; [done|]. intros [-> Hs]%andb_true_iff.
  specialize (IH Hs). by destruct (skip_digits s).
Qed.

Lemma pretty_go_digits x s : (0 < x)%N -> all_digits s = true -> exists c r,
  pretty_N_go x s = String c r /\ is_digit c = true /\ c <> "0"%char /\ all_digits r = true.
Proof.
  revert s. induction (N.lt_wf_0 x) as [x _ IH]; intros s Hx Hs.
  rewrite pretty_N_go_step by done.
  assert (Hm : (x `mod` 10 < 10)%N) by (by apply N.mod_lt).
  destruct (decide (0 < x `div` 10)%N) as [Hd|Hd].
  - apply IH; [by apply N.div_lt|done|]. cbn. by rewrite pretty_char_digit.
  - assert (x `div` 10 = 0)%N as E by (by apply N.le_0_r, N.nlt_ge). rewrite E, pretty_N_go_0.
    eexists _, _. split; [done|]. split_and!; [by apply pretty_char_digit| |done].
    assert (x `mod` 10 <> 0)%N by (pose proof (N.div_mod x 10 ltac:(done)); lia).
    revert Hm H. generalize (x `mod` 10)%N. intros y Hy H0.
    assert (y = 1 \/ y = 2 \/ y = 3 \/ y = 4 \/ y = 5 \/ y = 6 \/ y = 7 \/ y = 8 \/ y = 9)%N by lia.
    by repeat destruct_or?; subst.
Qed.

(** The text of an integer is a JSON number. *)
Lemma pretty_json_number (z : Z) : json_number (pretty z) = true.
Proof.
  assert (Hpos : forall p, exists c r, pretty (Npos p) = String c r /\ is_digit c = true /\
            c <> "0"%char /\ all_digits r = true).
  { intros p. unfold pretty, pretty_N. rewrite decide_False by done. by apply pretty_go_digits. }
  assert (Hnum : forall c r, is_digit c = true -> c <> "0"%char -> all_digits r = true ->
    (if Ascii.eqb c "0" then json_tail r
     else if is_digit c then json_tail (skip_digits r).2 else false) = true).
  { intros c r Hc H0 Hr. destruct (Ascii.eqb_spec c "0"); [done|].
    by rewrite Hc, all_digits_skip. }
  destruct z as [|p|p]; [done|..]; destruct (Hpos p) as (c & r & E & Hc & H0 & Hr).
  - change (pretty (Zpos p)) with (pretty (Npos p)). rewrite E. unfold json_number.
    rewrite (proj2 (digit_not_sign c r Hc)). by apply Hnum.
  - change (pretty (Zneg p)) with (String "-" (pretty (Npos p))). rewrite E.
    unfold json_number. by apply Hnum.
Qed.

(** ** The conversion, field by field *)
Section MapM.
Context {E A B : Type} (f : A -> res E B).
Lemma mapM_res_Ok l k : mapM f l = Ok k <-> Forall2 (fun x y => f x = Ok y) l k.
Proof.
  split.
  - revert k. induction l as [|x l IH]; intros k H; [by injection H as <-|].
    apply bind_Ok_inv in H as (y & Hy & H). apply bind_Ok_inv in H as (k' & Hk & H).
    injection H as <-. constructor; auto.
  - induction 1 as [|x y l k Hx _ IH]; [done|]. cbn. by rewrite Hx; cbn; rewrite IH.
Qed.
End MapM.

Definition convert_field (f : string * Value) : res AuthServerError (string * Value) :=
  value ← (if should_ignore_key f.1 f.2 then Ok f.2 else convert_stringified_numbers f.2);
  Ok (f.1, value).

Lemma convert_array vs :
  convert_stringified_numbers (VArray vs) = vs ← mapM convert_stringified_numbers vs; Ok (VArray vs).
Proof. done. Qed.
Lemma convert_object fs :
  convert_stringified_numbers (VObject fs) = fs ← mapM convert_field fs; Ok (VObject fs).
Proof.
  cbn. match goal with |- (?g fs ≫= _) = _ => assert (H : g fs = mapM convert_field fs) end.
  { induction fs as [|[k v] fs IH]; [done|]. cbn in IH |- *. rewrite IH. unfold convert_field. cbn.
    by destruct (if should_ignore_key k v then _ else _). }
  by rewrite H.
Qed.

(** The strings of a tree that are looked at, in order. *)
Fixpoint candidates (v : Value) : list string :=
  match v with
  | VString s => [s]
  | VArray vs => concat (map candidates vs)
  | VObject fs => concat (map (fun f => if should_ignore_key f.1 f.2 then [] else candidates f.2) fs)
  | _ => []
  end.
(** A string that is read as a number and is not one in JSON. *)
Definition mistaken (s : string) : bool := is_numeric s && negb (json_number s).

Lemma mapM_res_total {E A B} (f : A -> res E B) (P : A -> Prop) l :
  Forall (fun x => (exists y, f x = Ok y) <-> P x) l -> (exists k, mapM f l = Ok k) <-> Forall P l.
Proof.
  intros H. split.
  - intros [k Hk%mapM_res_Ok]. induction Hk as [|x y l k Hx Hk IH]; [constructor|].
    apply Forall_cons in H as [H1 H2]. constructor; [apply H1; eauto|auto].
  - intros HP. induction l as [|x l IH]; [by exists []|].
    apply Forall_cons in H as [H1 H2]. apply Forall_cons in HP as [Hx HP].
    destruct (proj2 H1 Hx) as [y Hy], (IH H2 HP) as [k Hk]. exists (y :: k). cbn.
    by rewrite Hy; cbn; rewrite Hk.
Qed.

Lemma bind_ret_exists {E A B} (m : res E A) (g : A -> B) :
  (exists b, (a ← m; Ok (g a)) = Ok b) <-> exists a, m = Ok a.
Proof. destruct m; cbn; naive_solver. Qed.

(** ** Properties *)

(** A body is read exactly when every string that Rust takes for a float is a
    JSON number; otherwise the whole request is refused, with a serialization
    error, even when the offending string was meant as text. *)
Theorem conversion_succeeds_iff v :
  (exists v', convert_stringified_numbers v = Ok v') <->
  Forall (fun s => mistaken s = false) (candidates v).
Proof.
  induction v as [|b|t|s|vs IH|fs IH] using value_ind'; try (split; [by constructor|by eexists]).
  - cbn. rewrite Forall_singleton. unfold mistaken, number_from_str.
    destruct (is_numeric s), (json_number s); cbn; naive_solver.
  - rewrite convert_array, bind_ret_exists, (mapM_res_total _ _ _ IH). cbn.
    by rewrite Forall_concat, Forall_map.
  - rewrite convert_object, bind_ret_exists.
    rewrite (mapM_res_total convert_field (fun f => Forall (fun s => mistaken s = false)
      (if should_ignore_key f.1 f.2 then [] else candidates f.2))).
    { cbn. by rewrite Forall_concat, Forall_map. }
    eapply Forall_impl; [exact IH|]. intros [k v] Hv. cbn in Hv |- *.
    unfold convert_field. rewrite bind_ret_exists. cbn.
    destruct (should_ignore_key k v); [naive_solver|done].
Qed.

(** ** Numerals, as text *)
(** The strings Rust documents as decimal floating point numbers, written out
    apart from the recognizer: a sign, then a word, or digits with an optional point
    and exponent of which some come before the exponent. *)
Fixpoint digits (s : string) : Prop :=
  match s with
  | EmptyString => True
  | String c s => c ∈ ["0"; "1"; "2"; "3"; "4"; "5"; "6"; "7"; "8"; "9"]%char /\ digits s
  end.
Definition sign (s : string) : Prop := s ∈ [""; "+"; "-"]%string.
Definition exponent_part (s : string) : Prop :=
  s = ""%string \/ exists e sg ds, s = (e +:+ sg +:+ ds)%string /\ e ∈ ["e"; "E"]%string /\ sign sg /\
    digits ds /\ ds <> ""%string.
Definition decimal (s : string) : Prop :=
  exists int point frac ex, s = (int +:+ point +:+ frac +:+ ex)%string /\
    digits int /\ digits frac /\ exponent_part ex /\ (int +:+ frac)%string <> ""%string /\
    (point = "."%string \/ point = ""%string /\ frac = ""%string).
Definition numeral (s : string) : Prop :=
  exists sg body, s = (sg +:+ body)%string /\ sign sg /\
    (to_lowercase body ∈ ["inf"; "infinity"; "nan"]%string \/ decimal body).

(** *** The recognizer accepts the numerals *)
Lemma string_app_nil_r s : (s +:+ "")%string = s.
Proof. unfold String.append. induction s as [|c s IH]; [done|]. cbn. by f_equal. Qed.
(** Strings that do not start with a digit. *)
Definition no_digit (s : string) : Prop := match s with String c _ => is_digit c = false | _ => True end.
Lemma is_digit_iff c : is_digit c = true <-> c ∈ ["0"; "1"; "2"; "3"; "4"; "5"; "6"; "7"; "8"; "9"]%char.
Proof. split; [apply digit_cases|]. intros H. set_unfold. by repeat destruct H as [-> | H]. Qed.
Lemma skip_digits_split s : exists ds,
  s = (ds +:+ (skip_digits s).2)%string /\ digits ds /\ String.length ds = (skip_digits s).1 /\
  no_digit (skip_digits s).2.
Proof.
  induction s as [|c s (ds & Hs & Hd & Hl & Hn)]; [by exists ""%string|]. cbn.
  destruct (is_digit c) eqn:Hc; [|by exists ""%string].
  destruct (skip_digits s) as [n r]; cbn in *. exists (String c ds).
  split; [by apply (f_equal (String c))|]. split; [split; [by apply is_digit_iff|done]|]. split; [by apply (f_equal S)|done].
Qed.
Lemma skip_digits_app ds r : digits ds -> no_digit r -> skip_digits (ds +:+ r) = (String.length ds, r).
Proof.
  induction ds as [|c ds IH]; intros Hd Hn.
  - change ("" +:+ r)%string with r. destruct r as [|c r]; [done|]. cbn in *. by rewrite Hn.
  - destruct Hd as [Hc%is_digit_iff Hd]. change (String c ds +:+ r)%string with (String c (ds +:+ r)).
    cbn. rewrite Hc, (IH Hd Hn). done.
Qed.
Lemma length_pos s : s <> ""%string <-> (0 <? String.length s)%nat = true.
Proof. destruct s; cbn; by split. Qed.
Lemma digits_no_sign ds r cs : digits ds -> ds <> ""%string -> (forall c, c ∈ cs -> is_digit c = false) ->
  strip cs (ds +:+ r) = (ds +:+ r)%string.
Proof.
  destruct ds as [|c ds]; [done|]. intros [Hc%is_digit_iff _] _ Hcs.
  change (String c ds +:+ r)%string with (String c (ds +:+ r)). cbn.
  rewrite bool_decide_eq_false_2; [done|]. intros Hin%Hcs. congruence.
Qed.
Lemma signs_no_digit c : c ∈ ["+"; "-"]%char -> is_digit c = false.
Proof. intros H. set_unfold. by repeat destruct H as [-> | H]. Qed.

Lemma strip_sign s : exists sg, s = (sg +:+ strip ["+"; "-"]%char s)%string /\ sign sg.
Proof.
  destruct s as [|c s]; [exists ""%string; split; [done|unfold sign; set_solver]|]. cbn. case_bool_decide as H.
  - exists (String c ""). split; [done|]. unfold sign. set_unfold. destruct H as [-> |[-> |[]]]; auto.
  - exists ""%string. split; [done|unfold sign; set_solver].
Qed.
Lemma exponent_iff s : exponent s = true <-> exponent_part s.
Proof.
  split.
  - destruct s as [|c s]; cbn; [by left|]. case_bool_decide as Hc; [|done].
    destruct (strip_sign s) as (sg & Hs & Hsg).
    destruct (skip_digits_split (strip ["+"; "-"]%char s)) as (ds & Hds & Hd & Hl & _).
    destruct (skip_digits _) as [n r]. cbn in *. intros [Hn Hr]%andb_true_iff.
    destruct r as [|]; [|done]. right. exists (String c ""), sg, ds. rewrite Hds in Hs.
    split; [rewrite Hs; by rewrite (string_app_nil_r ds)|].
    split; [set_unfold; naive_solver|]. split; [done|]. split; [done|]. apply length_pos. by rewrite Hl.
  - intros [-> |(e & sg & ds & -> & He & Hsg & Hd & Hne)]; [done|].
    assert (exponent (String "e" (sg +:+ ds)) = true /\ exponent (String "E" (sg +:+ ds)) = true) as [H1 H2].
    { cbn. assert (strip ["+"; "-"]%char (sg +:+ ds) = ds) as ->.
      { unfold sign in Hsg. set_unfold in Hsg. destruct Hsg as [-> |[-> |[-> |[]]]]; [|done..].
        pose proof (digits_no_sign ds "" _ Hd Hne signs_no_digit) as H. by rewrite string_app_nil_r in H. }
      pose proof (skip_digits_app ds "" Hd I) as H. rewrite string_app_nil_r in H. rewrite H.
      by destruct ds. }
    set_unfold. by destruct He as [-> |[-> |[]]].
Qed.

Lemma exponent_no_digit ex : exponent_part ex -> no_digit ex /\ forall r, ex <> String "." r.
Proof.
  intros [-> |(e & sg & ds & -> & He & _)]; [done|]. set_unfold. by destruct He as [-> |[-> |[]]].
Qed.
Lemma float_number_iff s : float_number s = true <-> decimal s.
Proof.
  unfold float_number. split.
  - destruct (skip_digits_split s) as (int & Hs & Hi & Hl & _). destruct (skip_digits s) as [n r]. cbn in *.
    assert (forall r, (0 <? n)%nat && exponent r = true -> s = (int +:+ r)%string -> decimal s) as Hplain.
    { clear Hs. intros r' [Hn Hex%exponent_iff]%andb_true_iff ->. exists int, "", "", r'. split_and!; try done.
      - rewrite string_app_nil_r. apply length_pos. by rewrite Hl.
      - by right. }
    destruct r as [|c r]; [intros H; by apply (Hplain _ H)|].
    destruct (decide (c = "."%char)) as [-> |Hc].
    2: { intros H. apply (Hplain (String c r)); [|done]. destruct c as [[] [] [] [] [] [] [] []]; try exact H. done. }
    clear Hplain. destruct (skip_digits_split r) as (frac & Hr & Hf & Hlf & _).
    destruct (skip_digits r) as [m ex]. cbn in *. intros [Hn Hex%exponent_iff]%andb_true_iff.
    exists int, ".", frac, ex. split; [by rewrite Hs, Hr|]. split_and!; try done; [|by left].
    destruct int, frac; cbn in *; subst; done.
  - intros (int & point & frac & ex & -> & Hi & Hf & Hex & Hne & Hp).
    destruct (exponent_no_digit ex Hex) as [Hnd Hdot]. apply exponent_iff in Hex.
    destruct Hp as [-> |[-> ->]].
    + change ("." +:+ frac +:+ ex)%string with (String "." (frac +:+ ex)).
      rewrite (skip_digits_app int (String "." (frac +:+ ex)) Hi) by done.
      rewrite (skip_digits_app frac ex Hf Hnd), Hex, andb_true_r.
      destruct int, frac; done.
    + change ("" +:+ "" +:+ ex)%string with ex. rewrite (skip_digits_app int ex Hi Hnd).
      rewrite string_app_nil_r in Hne. rewrite (proj1 (length_pos int) Hne).
      destruct ex as [|c ex]; [done|]. destruct (decide (c = "."%char)) as [-> |Hc]; [by edestruct Hdot|].
      destruct c as [[] [] [] [] [] [] [] []]; try exact Hex. done.
Qed.
(** Neither a word nor a decimal starts with a sign. *)
Lemma body_unsigned body : to_lowercase body ∈ ["inf"; "infinity"; "nan"]%string \/ decimal body ->
  strip ["+"; "-"]%char body = body.
Proof.
  intros H. destruct body as [|c body]; [done|]. cbn. rewrite bool_decide_eq_false_2; [done|].
  intros Hc. destruct H as [H|H].
  - set_unfold. by destruct Hc as [-> |[-> |[]]]; destruct H as [H|[H|[H|[]]]].
  - apply float_number_iff in H. set_unfold. by destruct Hc as [-> |[-> |[]]].
Qed.
Lemma is_numeric_iff s : is_numeric s = true <-> numeral s.
Proof.
  unfold is_numeric, rust_float. rewrite orb_true_iff, bool_decide_eq_true, float_number_iff. split.
  - intros H. destruct (strip_sign s) as (sg & Hs & Hsg). by exists sg, (strip ["+"; "-"]%char s).
  - intros (sg & body & -> & Hsg & Hb). assert (strip ["+"; "-"]%char (sg +:+ body) = body) as ->; [|done].
    unfold sign in Hsg. set_unfold in Hsg. destruct Hsg as [-> |[-> |[-> |[]]]]; [|done..]. by apply body_unsigned.
Qed.

(** ** The round trip *)
Section RoundTrip.
Context (display_f64 compact_f64 : f64 -> string).
(** The documented text of finite doubles is a decimal expansion. *)
Context (Hdisplay : forall f, is_finite f = true -> json_number (display_f64 f) = true).

(** The JSON tree of a value, its numbers unquoted. *)
Fixpoint plain (d : Data) : Value :=
  match d with
  | DNull => VNull
  | DBool b => VBool b
  | DInt z => VNumber (pretty z)
  | DFloat f => VNumber (display_f64 f)
  | DStr s => VString s
  | DSeq ds => VArray (map plain ds)
  | DMap fs => VObject (map (fun f => (f.1, plain f.2)) fs)
  end.

(** A value that survives: its doubles are finite, no text of it is a numeral unless
    it is the value of a field named price, and no number is the value of such a
    field. *)
Fixpoint legible (d : Data) : Prop :=
  match d with
  | DNull | DBool _ | DInt _ => True
  | DFloat f => is_finite f = true
  | DStr s => ~ numeral s
  | DSeq ds => foldr (fun d => and (legible d)) True ds
  | DMap fs => foldr (fun f => and
      match f.2 with
      | DInt _ | DFloat _ => f.1 <> "price"%string /\ legible f.2
      | DStr _ => f.1 = "price"%string \/ legible f.2
      | _ => legible f.2
      end) True fs
  end.

Definition stringified (d : Data) : Value := json_serialize display_f64 compact_f64 d true.

Lemma foldr_and {A} (P : A -> Prop) l : foldr (fun x => and (P x)) True l <-> Forall P l.
Proof. induction l as [|x l IH]; [by split|]. cbn. by rewrite IH, Forall_cons. Qed.
Lemma Forall_iff_strong {A} (P Q : A -> Prop) l : Forall (fun x => P x <-> Q x) l -> Forall P l <-> Forall Q l.
Proof. intros H. rewrite !Forall_forall in *. naive_solver. Qed.
Lemma mapM_map_Ok {E A B C} (f : B -> res E C) (g : A -> B) (h : A -> C) l :
  mapM f (map g l) = Ok (map h l) <-> Forall (fun x => f (g x) = Ok (h x)) l.
Proof.
  rewrite mapM_res_Ok. induction l as [|x l IH]; [by split; constructor|].
  cbn. by rewrite Forall2_cons, Forall_cons, IH.
Qed.
Lemma bind_ctor_Ok {E A} (m : res E A) (c : A -> Value) a :
  (forall x y, c x = c y -> x = y) -> (x ← m; Ok (c x)) = Ok (c a) <-> m = Ok a.
Proof. intros Hc. destruct m; cbn; split; intros H; try done; injection H as H; [f_equal; eauto|by subst]. Qed.

Lemma convert_number t : json_number t = true -> convert_stringified_numbers (VString t) = Ok (VNumber t).
Proof.
  intros H. cbn. unfold number_from_str. by rewrite (json_number_numeric t H), H.
Qed.
Lemma convert_text s : convert_stringified_numbers (VString s) = Ok (VString s) <-> ~ numeral s.
Proof.
  rewrite <- is_numeric_iff. cbn. unfold number_from_str.
  by destruct (is_numeric s), (json_number s); cbn; split.
Qed.
(** Under [price], quoted numbers and text stay as they are. *)
Lemma convert_price v :
  convert_field ("price"%string, v) =
  match v with
  | VArray _ | VObject _ => v ← convert_stringified_numbers v; Ok ("price"%string, v)
  | _ => Ok ("price"%string, v)
  end.
Proof. by destruct v. Qed.
Lemma convert_other k v : k <> "price"%string ->
  convert_field (k, v) = v ← convert_stringified_numbers v; Ok (k, v).
Proof.
  intros Hk. unfold convert_field. cbn. assert (should_ignore_key k v = false) as ->; [|done].
  destruct v; try done; cbn; apply bool_decide_eq_false_2; unfold IGNORED_KEYS; set_solver.
Qed.

Lemma pair_Ok {E} (m : res E Value) (k : string) v : (x ← m; Ok (k, x)) = Ok (k, v) <-> m = Ok v.
Proof. destruct m; cbn; split; intros H; try done; by injection H as ->. Qed.
Lemma convert_field_iff k d :
  (convert_stringified_numbers (stringified d) = Ok (plain d) <-> legible d) ->
  convert_field (k, stringified d) = Ok (k, plain d) <->
  match d with
  | DInt _ | DFloat _ => k <> "price"%string /\ legible d
  | DStr _ => k = "price"%string \/ legible d
  | _ => legible d
  end.
Proof.
  intros IH. destruct (decide (k = "price"%string)) as [-> |Hk].
  - rewrite convert_price. unfold stringified in *.
    destruct d as [|b|z|f|s|ds|fs]; try (by split); cbn in IH |- *.
    + split; [done|by intros []].
    + destruct (is_finite f); split; [done|by intros []|done|by intros []].
    + split; [by left|done].
    + rewrite pair_Ok. exact IH.
    + rewrite pair_Ok. exact IH.
  - rewrite convert_other, pair_Ok, IH by done. destruct d; cbn; tauto.
Qed.

Lemma stringified_iff d : convert_stringified_numbers (stringified d) = Ok (plain d) <-> legible d.
Proof.
  induction d as [|b|z|f|s|ds IH|fs IH] using data_ind'; try (by split); unfold stringified in *.
  - split; [done|]. intros _. apply convert_number, pretty_json_number.
  - cbn [json_serialize serialize plain legible]. destruct (is_finite f) eqn:Hf; [|by split].
    split; [done|]. intros _. by apply convert_number, Hdisplay.
  - apply convert_text.
  - cbn [json_serialize serialize plain legible] in *.
    rewrite convert_array, (bind_ctor_Ok _ VArray) by (by intros ?? [= ->]). rewrite mapM_map_Ok, foldr_and.
    by apply Forall_iff_strong.
  - cbn [json_serialize serialize plain legible] in *.
    rewrite convert_object, (bind_ctor_Ok _ VObject) by (by intros ?? [= ->]). rewrite mapM_map_Ok, foldr_and.
    apply Forall_iff_strong. eapply Forall_impl; [exact IH|]. intros [k d] Hd. by apply convert_field_iff.
Qed.

(** C38. Quoting the numbers of a value and reading them back gives the value with
    its numbers exactly when its doubles are finite, no text of it is a numeral
    unless it is the value of a field named price, and no number is the value of such
    a field; a type read from it then gets what it would get from the value itself. *)
Theorem stringify_roundtrip d :
  (convert_stringified_numbers (json_serialize display_f64 compact_f64 d true) = Ok (plain d) <-> legible d) /\
  (legible d -> forall T (from_value : Value -> res string T),
     json_deserialize from_value (json_serialize display_f64 compact_f64 d true) true =
     map_err Serde (from_value (plain d))).
Proof.
  split; [apply stringified_iff|]. intros Hd T from_value. unfold json_deserialize.
  change (json_serialize display_f64 compact_f64 d true) with (stringified d).
  by rewrite (proj2 (stringified_iff d) Hd).
Qed.
End RoundTrip.

(** Strings that Rust parses and JSON does not: each of them, anywhere outside an
    ignored key, has the request refused. *)
Example mistaken_strings :
  forallb mistaken ["007"; "+5"; ".5"; "5."; "NaN"; "-inf"; "Infinity"]%string = true /\
  existsb mistaken ["5"; "-0.5"; "1e3"; "0x1f"; "price"; ""]%string = false.
Proof. split; reflexivity. Qed.

Module StringifyWitness.
Local Open Scope string_scope.
Definition zero_text (_ : f64) : string := "0".
Definition body1 : Data :=
  DMap [("amount", DInt 340282366920938463463374607431768211455); ("side", DStr "sell");
        ("price", DStr "12.5"); ("legs", DSeq [DInt (-7); DBool true])].
(** A body with a numeral under [price] comes back; one with a numeral elsewhere, or a
    number under [price], does not. *)
Lemma stringify_roundtrip_witness :
  convert_stringified_numbers (json_serialize zero_text zero_text body1 true)
  = Ok (VObject [("amount", VNumber "340282366920938463463374607431768211455"); ("side", VString "sell");
        ("price", VString "12.5"); ("legs", VArray [VNumber "-7"; VBool true])]) /\
  ~ legible (DMap [("side", DStr "7")]) /\ ~ legible (DMap [("price", DInt 7)]).
Proof.
  split; [|split].
  - apply (proj1 (stringify_roundtrip zero_text zero_text (fun _ _ => eq_refl) body1)).
    cbn. rewrite <- !is_numeric_iff. split_and!; try done; [by right|by left].
  - intros [[H|H] _]; [discriminate H|]. by apply H, is_numeric_iff.
  - by intros [[H _] _].
Defined.
End StringifyWitness.
