(* ===== verification/ExternalMatch.v ===== *)
(** * External match requests, end to end (auth-server: api_handlers/external_match/)

    The handlers of quotes and assemblies, composed from the components they
    call: authorization and fees ([ServerCache]), the rate limits
    ([RateLimiter]), the refunds ([GasSponsorship]) and the bundle store
    ([Settlement]).  A handler acts on [auth_state]: the tables and caches of the
    server, the counters in Redis, the sponsorship entries in Redis, the bundle
    store, and the requests that went to the relayer.  What the outside answers
    to one request (database, Redis transport, clocks, prices, the relayer) is
    collected in environments; the tasks that a handler spawns are separate
    operations, so that they can run at any later time. *)
From Stdlib Require Import ZArith Lia.
From stdpp Require Import gmap strings list.
From S2P Require Import Prelude F64 AuthError RateLimiter GasSponsorship ServerCache.
From S2P Require Import PriceClient Settlement Stringify.
Local Open Scope Z_scope.

Create HintDb ext discriminated.

(** ** Requests (renegade_external_api, the fields in use) *)
Record ExternalMatchingEngineOptions := mk_engine_options {
  relayer_fee_rate : option f64;
  matching_pool : option string;
}.
Definition default_engine_options : ExternalMatchingEngineOptions := mk_engine_options None None.
Record ExternalQuoteRequest := mk_quote_request {
  external_order : ExternalOrder;
  quote_options : ExternalMatchingEngineOptions;
}.

(** The headers the server reads; a value may not be text. *)
Record HeaderMap := mk_headers {
  h_accept : option (option string);
  h_sdk_version : option (option string);
  h_api_key : option Uuid;                   (* the API key, if there and well formed *)
}.

(** api_handlers/mod.rs *)
Definition SDK_VERSION_DEFAULT : string := "pre-v0.1.0".
Definition get_sdk_version (h : HeaderMap) : string :=
  match h_sdk_version h with
  | Some v => default ""%string v
  | None => SDK_VERSION_DEFAULT
  end.

(** ** external_match/mod.rs: contexts *)
Record RequestContext (Req : Type) := mk_request_ctx {
  r_path : string;
  r_query_str : string;
  r_user : string;
  r_key_id : Uuid;
  r_sdk_version : string;
  r_headers : HeaderMap;
  r_body : Req;
  r_sponsorship_info : option GasSponsorshipInfo;
  r_request_id : string;
}.
Arguments mk_request_ctx {Req}.
Arguments r_path {Req}. Arguments r_query_str {Req}. Arguments r_user {Req}.
Arguments r_key_id {Req}. Arguments r_sdk_version {Req}. Arguments r_headers {Req}.
Arguments r_body {Req}. Arguments r_sponsorship_info {Req}. Arguments r_request_id {Req}.

Definition with_body {Req Req'} (b : Req') (c : RequestContext Req) : RequestContext Req' :=
  let 'mk_request_ctx p q u k v h _ i r := c in mk_request_ctx p q u k v h b i r.
Definition set_sponsorship_info {Req} (i : GasSponsorshipInfo) (c : RequestContext Req)
    : RequestContext Req :=
  let 'mk_request_ctx p q u k v h b _ r := c in mk_request_ctx p q u k v h b (Some i) r.

Record ResponseContext (Req Resp : Type) := mk_response {
  p_path : string;
  p_query_str : string;
  p_user : string;
  p_sdk_version : string;
  p_headers : HeaderMap;
  p_request : Req;
  p_status : Z;
  p_response : option Resp;
  p_sponsorship : option (GasSponsorshipInfo * Z);
  p_request_id : string;
}.
Arguments mk_response {Req Resp}.
Arguments p_path {Req Resp}. Arguments p_query_str {Req Resp}. Arguments p_user {Req Resp}.
Arguments p_sdk_version {Req Resp}. Arguments p_headers {Req Resp}. Arguments p_request {Req Resp}.
Arguments p_status {Req Resp}. Arguments p_response {Req Resp}.
Arguments p_sponsorship {Req Resp}. Arguments p_request_id {Req Resp}.

(** [nonce]: the random nonce drawn for the sponsorship. *)
Definition from_response {Req Resp} (nonce status : Z) (body : option Resp)
    (request : RequestContext Req) : ResponseContext Req Resp :=
  mk_response (r_path request) (r_query_str request) (r_user request) (r_sdk_version request)
    (r_headers request) (r_body request) status body
    ((fun i => (i, nonce)) <$> r_sponsorship_info request) (r_request_id request).

Definition STATUS_OK : Z := 200.
Definition is_success {Req Resp} (c : ResponseContext Req Resp) : bool := p_status c =? STATUS_OK.
Definition response {Req Resp} (c : ResponseContext Req Resp) : res AuthServerError Resp :=
  unwrap (p_response c).
Definition should_stringify_body {Req Resp} (c : ResponseContext Req Resp) : bool :=
  should_stringify_numbers (h_accept (p_headers c)).
Definition with_response {Req Resp Resp'} (r : Resp') (c : ResponseContext Req Resp)
    : ResponseContext Req Resp' :=
  let 'mk_response p q u v h b st _ i rid := c in mk_response p q u v h b st (Some r) i rid.

(** What [write_bundle_context] reads of a response context. *)
Definition response_ctx_of {Req Resp} (c : ResponseContext Req Resp) : ResponseCtx :=
  mk_response_ctx (p_user c) (p_request_id c) (p_sdk_version c) (p_sponsorship c).

(** The token map, and the decimals of the prices. *)
Class Tokens := {
  tok_decimals :: BigDecimalOps;
  tok_usdc : Address;
  tok_weth : Address;
  tok_native : Address;
  is_named : Address -> bool;
  ticker_of : Address -> option string;
  addr_text : Address -> string;
  usdc_to_decimal : Z -> f64;
}.

(** The answers of the outside to the parts of a request. *)
Record pre_env := mk_pre_env {
  pe_auth_up : bool;
  pe_validate : string -> res AuthServerError unit;   (* the HMAC of the request, by secret *)
  pe_fee_up : bool;
  pe_request_id : string;
}.
Record route_env := mk_route_env {
  re_up : bool;
  re_flag : string -> res AuthServerError (option bool);
  re_date : string;
}.
Record sponsor_env `{TK : Tokens} := mk_sponsor_env {
  se_budget : transport;
  se_budget_now : Z;
  se_price : Address -> res AuthServerError f64;
  se_eth_price : res PriceReporterClientError f64;
  se_price_usd : Address -> res PriceReporterClientError bigdecimal;
  se_gas : Z;
}.
Arguments mk_sponsor_env {TK}.

(** A reply: status and body. *)
Record BytesResponse := mk_reply { reply_status : Z; reply_body : string }.

(** The trait of request types. *)
Class ExternalMatchRequestType (Req body : Type) := {
  input_mint : Req -> Address;
  output_mint : Req -> Address;
  set_fee : f64 -> Req -> Req;
  set_matching_pool : string -> Req -> Req;
  to_body : Req -> body;
}.

Section Bodies.
Context `{FP : FixedPointOps}.

Record AssembleExternalMatchRequest := mk_assemble {
  do_gas_estimation : bool;
  receiver_address : option Address;
  a_order : ExternalMatchAssemblyType;
  a_options : ExternalMatchingEngineOptions;
}.
Inductive relayer_body :=
  | RQuote (r : ExternalQuoteRequest)
  | RAssemble (r : AssembleExternalMatchRequest).

End Bodies.

(** What the server is started with, and the code outside it: the API types'
    [get_external_order_ref], the cipher of the secrets, the decoding of queries
    and bodies, the calendar of the limiters, hashes, the ABI codec, signatures,
    the protocol fee, and the relayer, which answers a path and a body with a
    status and a body or not at all. *)
Class AuthServer `{FP : FixedPointOps} := {
  get_external_order_ref : ExternalMatchAssemblyType -> ExternalOrder;
  aes_decrypt : string -> res AuthServerError string;
  GLOBAL_MATCHING_POOL : string;
  parse_sponsorship_query : string -> res AuthServerError GasSponsorshipQueryParams;
  duration_round : Z -> Z -> Z;
  format_window : Z -> string;
  generate_quote_uuid : string -> Uuid;
  call_rest : Type;
  decode_settle : string -> option (SettleCall call_rest);
  encode_sponsor : SettleCall call_rest -> GasSponsorOptions -> string;
  decode_sponsor : string -> option (SettleCall call_rest);
  sign_options : Address -> bool -> Z -> Z -> res AuthServerError string;
  get_protocol_fee : Address -> Address -> fp;
  limiter : AuthServerRateLimiter;
  gas_sponsor_address : Address;
  min_sponsored_order_quote_amount : f64;
  relayer : string -> relayer_body -> res AuthServerError (Z * string);
  quote_from_slice : string -> res string ApiSignedQuote;
  match_from_slice : string -> res string MatchBundle;
  quote_to_text : SponsoredQuoteResponse -> bool -> string;
  match_to_text : SponsoredMatchResponse -> bool -> string;
}.

Section ExternalMatch.
Context `{FP : FixedPointOps} `{AT : AddressText} `{R : Redis} `{TK : Tokens} {AS : AuthServer}.

#[export] Instance quote_request_type : ExternalMatchRequestType ExternalQuoteRequest relayer_body := {|
  input_mint r := o_input_mint (external_order r);
  output_mint r := o_output_mint (external_order r);
  set_fee fee r := mk_quote_request (external_order r)
                     (mk_engine_options (Some fee) (matching_pool (quote_options r)));
  set_matching_pool p r := mk_quote_request (external_order r)
                     (mk_engine_options (relayer_fee_rate (quote_options r)) (Some p));
  to_body := RQuote;
|}.
#[export] Instance assemble_request_type
    : ExternalMatchRequestType AssembleExternalMatchRequest relayer_body := {|
  input_mint r := o_input_mint (get_external_order_ref (a_order r));
  output_mint r := o_output_mint (get_external_order_ref (a_order r));
  set_fee fee r := mk_assemble (do_gas_estimation r) (receiver_address r) (a_order r)
                     (mk_engine_options (Some fee) (matching_pool (a_options r)));
  set_matching_pool p r := mk_assemble (do_gas_estimation r) (receiver_address r) (a_order r)
                     (mk_engine_options (relayer_fee_rate (a_options r)) (Some p));
  to_body := RAssemble;
|}.

(** ** The state of the server *)
Definition SponsorshipEntry : Type := CachedSponsorshipInfo * option Z.
Record auth_state := mk_auth {
  a_server : Server;
  a_redis : rstore;
  a_sponsored : gmap Z SponsorshipEntry;     (* with its deadline, in milliseconds *)
  a_bundles : BundleStore;
  a_sent : list (string * relayer_body);
}.
Abbreviation M := (eff auth_state AuthServerError).

Definition on_server {A} (f : Op A) : M A := fun s =>
  let '(r, sv) := f (a_server s) in
  (r, mk_auth sv (a_redis s) (a_sponsored s) (a_bundles s) (a_sent s)).
Definition on_counters {A} (f : rstore -> res AuthServerError A * rstore) : M A := fun s =>
  let '(r, rs) := f (a_redis s) in
  (r, mk_auth (a_server s) rs (a_sponsored s) (a_bundles s) (a_sent s)).
Definition on_sponsored (f : gmap Z SponsorshipEntry -> gmap Z SponsorshipEntry) (s : auth_state)
    : auth_state := mk_auth (a_server s) (a_redis s) (f (a_sponsored s)) (a_bundles s) (a_sent s).
Definition on_bundles {A} (f : BundleStore -> res AuthServerError A * BundleStore) : M A := fun s =>
  let '(r, bs) := f (a_bundles s) in
  (r, mk_auth (a_server s) (a_redis s) (a_sponsored s) bs (a_sent s)).
Definition log_sent (p : string) (b : relayer_body) (s : auth_state) : auth_state :=
  mk_auth (a_server s) (a_redis s) (a_sponsored s) (a_bundles s) (a_sent s ++ [(p, b)]).
(** Whether a step succeeds; its effects stay either way. *)
Definition is_ok {A} (m : M A) : M bool := fun s =>
  match m s with
  | (Ok _, s) => (Ok true, s)
  | (Err _, s) => (Ok false, s)
  | (Panic, s) => (Panic, s)
  end.

(** *** db/redis_queries.rs *)
Definition MAX_QUOTE_AGE_MS : Z := 10000.
Definition redis_write (t : transport) (f : auth_state -> auth_state) : M unit := fun s =>
  match t with
  | Delivered => (Ok tt, f s)
  | RequestLost => (Err RedisError, s)
  | ReplyLost => (Err RedisError, f s)
  end.
(** JSON.SET, then PEXPIRE. *)
Definition write_sponsorship_info_to_redis (t t' : transport) (now : Z) (key : Uuid)
    (info : CachedSponsorshipInfo) : M unit :=
  _ ← redis_write t (on_sponsored (<[key := (info, None)]>));
  redis_write t' (on_sponsored (alter (fun e => (e.1, Some (now + MAX_QUOTE_AGE_MS))) key)).
Definition live (now : Z) (e : SponsorshipEntry) : option CachedSponsorshipInfo :=
  match e.2 with
  | Some deadline => if now <? deadline then Some e.1 else None
  | None => Some e.1
  end.
Definition read_sponsorship_info_from_redis (t : transport) (now : Z) (key : Uuid) (s : auth_state)
    : res AuthServerError (option CachedSponsorshipInfo) :=
  match t with
  | Delivered => Ok (a_sponsored s !! key ≫= live now)
  | _ => Err RedisError
  end.

(** ** The server *)
(** *** mod.rs *)
Definition base_ticker (i o : Address) : res AuthServerError string :=
  '(base_mint, _) ← pick_base_and_quote_mints tok_usdc i o;
  ok_or (ticker_of base_mint) (BadRequest ("Invalid base token: " +:+ addr_text base_mint)%string).

Definition validate_request_body {Req} `{ExternalMatchRequestType Req relayer_body} (body : Req)
    : res AuthServerError unit :=
  let input_token := input_mint body in
  let output_token := output_mint body in
  let input_valid := is_named input_token || (input_token =? tok_native) in
  if negb input_valid
  then Err (BadRequest ("Invalid input token: " +:+ addr_text input_token)%string)
  else
    let output_valid := is_named output_token || (output_token =? tok_native) in
    if negb output_valid
    then Err (BadRequest ("Invalid output token: " +:+ addr_text output_token)%string)
    else if negb (input_token =? tok_usdc) && negb (output_token =? tok_usdc)
    then Err (BadRequest "Either input or output token must be USDC")
    else Ok tt.

Definition set_relayer_fee {Req} `{ExternalMatchRequestType Req relayer_body} (up : bool)
    (ctx : RequestContext Req) : M (RequestContext Req) :=
  ticker ← lift (base_ticker (input_mint (r_body ctx)) (output_mint (r_body ctx)));
  user_fee ← on_server (get_user_fee up (r_key_id ctx) ticker);
  mret (with_body (set_fee user_fee (r_body ctx)) ctx).

(** [decode]: the body of the request, read with or without quoted numbers. *)
Definition preprocess_request {Req} `{ExternalMatchRequestType Req relayer_body} (env : pre_env)
    (path : string) (headers : HeaderMap) (decode : bool -> res AuthServerError Req)
    (query_str : string) : M (RequestContext Req) :=
  '(key_desc, key_id) ← on_server
     (authorize_request aes_decrypt (pe_validate env) (pe_auth_up env) (h_api_key headers));
  let sdk_version := get_sdk_version headers in
  let should_stringify := should_stringify_numbers (h_accept headers) in
  body ← lift (decode should_stringify);
  _ ← lift (validate_request_body body);
  set_relayer_fee (pe_fee_up env)
    (mk_request_ctx path query_str key_desc key_id sdk_version headers body None (pe_request_id env)).

(** [from_slice]: the body of a successful response. *)
Definition forward_request {Req Resp} `{ExternalMatchRequestType Req relayer_body}
    (from_slice : string -> res string Resp) (nonce : Z) (ctx : RequestContext Req)
    : M (BytesResponse * ResponseContext Req Resp) :=
  _ ← modify (log_sent (r_path ctx) (to_body (r_body ctx)));
  '(status, body) ← lift (relayer (r_path ctx) (to_body (r_body ctx)));
  response ← lift (if status =? STATUS_OK
                   then r ← map_err Serde (from_slice body); Ok (Some r) else Ok None);
  mret (mk_reply status body, from_response nonce status response ctx).

(** [should_route_to_global] and the routing of a request. *)
Definition route_req {Req} `{ExternalMatchRequestType Req relayer_body} (env : route_env)
    (ctx : RequestContext Req) : M (RequestContext Req) :=
  ticker ← lift (base_ticker (input_mint (r_body ctx)) (output_mint (r_body ctx)));
  let exceeded := check_execution_cost_exceeded (re_flag env) (re_date env) ticker in
  global ← on_server (should_route_to_global (re_up env) exceeded (r_key_id ctx));
  mret (if global : bool
        then with_body (set_matching_pool GLOBAL_MATCHING_POOL (r_body ctx)) ctx else ctx).

(** [maybe_sponsor_order] with the budget read from Redis. *)
Definition sponsor_order (env : sponsor_env) (query user : string) (o : ExternalOrder)
    : M (GasSponsorshipInfo * ExternalOrder) := fun s =>
  let check u := (check_gas_sponsorship_rate_limit duration_round format_window limiter
                    (se_budget env) (se_budget_now env) u (a_redis s)).1 in
  (maybe_sponsor_order tok_usdc tok_weth tok_native usdc_to_decimal get_protocol_fee
     (se_price env) (se_eth_price env) (se_price_usd env) check min_sponsored_order_quote_amount (se_gas env)
     (parse_sponsorship_query query) user o, s).

(** A limiter check with the limit of the key. *)
Definition with_limit {A} (up : bool) (m : RateLimitMethod) (key : Uuid)
    (f : (Uuid -> RateLimitMethod -> res AuthServerError (option Z)) ->
         rstore -> res AuthServerError A * rstore) : M A :=
  max ← on_server (get_rate_limit up key m); on_counters (f (fun _ _ => Ok max)).

(** *** quote.rs *)
Record quote_env := mk_quote_env {
  qe_limit_up : bool;
  qe_peek_up : bool;
  qe_consume : transport;
  qe_consume_now : Z * Z;
  qe_peek : transport;
  qe_peek_now : Z;
  qe_route : route_env;
  qe_sponsor : sponsor_env;
  qe_nonce : Z;
}.

(** The two checks of the limiters run side by side; they use different keys. *)
Definition quote_pre_request (env : quote_env) (ctx : RequestContext ExternalQuoteRequest)
    : M (RequestContext ExternalQuoteRequest) :=
  let key := r_key_id ctx in
  let user := r_user ctx in
  quote_ok ← is_ok (with_limit (qe_limit_up env) Quote key (fun limits =>
    consume_quote_rate_limit_token duration_round format_window limits limiter (qe_consume env)
      (qe_consume_now env).1 (qe_consume_now env).2 key user));
  bundle_ok ← is_ok (with_limit (qe_peek_up env) Assemble key (fun limits =>
    peek_bundle_rate_limit duration_round format_window limits limiter (qe_peek env)
      (qe_peek_now env) key user));
  if negb quote_ok || negb bundle_ok then lift (Err no_match_found)
  else
    ctx ← route_req (qe_route env) ctx;
    '(info, o) ← sponsor_order (qe_sponsor env) (r_query_str ctx) user (external_order (r_body ctx));
    let ctx := with_body (mk_quote_request o (quote_options (r_body ctx))) ctx in
    mret (set_sponsorship_info info ctx).

(** The entry that the spawned task writes to Redis. *)
Definition quote_task : Type := option (Uuid * CachedSponsorshipInfo).
Definition quote_post_request (resp : BytesResponse)
    (ctx : ResponseContext ExternalQuoteRequest ApiSignedQuote)
    : res AuthServerError (BytesResponse * quote_task) :=
  if negb (is_success ctx) then Ok (resp, None)
  else
    sq ← response ctx;
    '(sponsored_resp, cached_info) ← sponsor_response sq (fst <$> p_sponsorship ctx);
    let body := quote_to_text sponsored_resp (should_stringify_body ctx) in
    Ok (mk_reply (reply_status resp) body,
        cache_entry generate_quote_uuid sponsored_resp cached_info).

Definition handle_quote_request (pe : pre_env) (qe : quote_env) (path : string)
    (headers : HeaderMap) (decode : bool -> res AuthServerError ExternalQuoteRequest)
    (query_str : string) : M (BytesResponse * quote_task) :=
  ctx ← preprocess_request pe path headers decode query_str;
  ctx ← quote_pre_request qe ctx;
  '(raw_resp, ctx) ← forward_request quote_from_slice (qe_nonce qe) ctx;
  lift (quote_post_request raw_resp ctx).

(** The spawned task, whose errors are logged; its metrics are in [Telemetry]. *)
Definition record_quote_metrics (t t' : transport) (now : Z) (task : quote_task) (s : auth_state)
    : auth_state :=
  match task with
  | Some (key, info) => (write_sponsorship_info_to_redis t t' now key info s).2
  | None => s
  end.

(** *** match_bundle.rs *)
Record assemble_env := mk_assemble_env {
  ae_limit_up : bool;
  ae_consume : transport;
  ae_consume_now : Z * Z;
  ae_route : route_env;
  ae_sponsor : sponsor_env;
  ae_read : transport;
  ae_read_now : Z;
  ae_nonce : Z;
}.

Definition sponsor_assembly_request (env : assemble_env)
    (ctx : RequestContext AssembleExternalMatchRequest)
    : M (GasSponsorshipInfo * RequestContext AssembleExternalMatchRequest) :=
  let req := r_body ctx in
  let with_order o := with_body (mk_assemble (do_gas_estimation req) (receiver_address req) o (a_options req)) ctx in
  match a_order req with
  | QuotedOrder sq upd =>
      '(sq, upd, info) ← (fun s =>
         (sponsor_quoted_order generate_quote_uuid
            (fun k => read_sponsorship_info_from_redis (ae_read env) (ae_read_now env) k s) sq upd, s));
      mret (info, with_order (QuotedOrder sq upd))
  | DirectOrder o =>
      '(info, o) ← sponsor_order (ae_sponsor env) (r_query_str ctx) (r_user ctx) o;
      mret (info, with_order (DirectOrder o))
  end.

Definition assembly_pre_request (env : assemble_env)
    (ctx : RequestContext AssembleExternalMatchRequest)
    : M (RequestContext AssembleExternalMatchRequest) :=
  let key := r_key_id ctx in
  let user := r_user ctx in
  granted ← is_ok (with_limit (ae_limit_up env) Assemble key (fun limits =>
    consume_bundle_rate_limit_token duration_round format_window limits limiter (ae_consume env)
      (ae_consume_now env).1 (ae_consume_now env).2 key user));
  if negb granted then lift (Err no_match_found)
  else
    ctx ← route_req (ae_route env) ctx;
    '(info, ctx) ← sponsor_assembly_request env ctx;
    mret (set_sponsorship_info info ctx).

(** What the spawned task needs to record the bundle. *)
Definition assembly_task : Type :=
  option (ResponseContext AssembleExternalMatchRequest SponsoredMatchResponse).
Definition sponsor_match (ctx : ResponseContext AssembleExternalMatchRequest MatchBundle)
    : res AuthServerError SponsoredMatchResponse :=
  b ← response ctx;
  sponsor_match_response call_rest decode_settle encode_sponsor decode_sponsor sign_options
    gas_sponsor_address b (p_sponsorship ctx).
Definition assembly_post_request (resp : BytesResponse)
    (ctx : ResponseContext AssembleExternalMatchRequest MatchBundle)
    : res AuthServerError (BytesResponse * assembly_task) :=
  if negb (is_success ctx) then Ok (resp, None)
  else
    sponsored_resp ← sponsor_match ctx;
    let body := match_to_text sponsored_resp (should_stringify_body ctx) in
    Ok (mk_reply (reply_status resp) body, Some (with_response sponsored_resp ctx)).

Definition handle_assemble_match_bundle_request (pe : pre_env) (ae : assemble_env) (path : string)
    (headers : HeaderMap) (decode : bool -> res AuthServerError AssembleExternalMatchRequest)
    (query_str : string) : M (BytesResponse * assembly_task) :=
  ctx ← preprocess_request pe path headers decode query_str;
  ctx ← assembly_pre_request ae ctx;
  '(raw_resp, ctx) ← forward_request match_from_slice (ae_nonce ae) ctx;
  lift (assembly_post_request raw_resp ctx).

(** The spawned task: the bundle is stored under its nonce. *)
Definition record_quoted_order_metrics (now : Z)
    (ctx : ResponseContext AssembleExternalMatchRequest SponsoredMatchResponse)
    (sq : ApiSignedQuote) : M unit :=
  let price_timestamp := price_timestamp (q_price (s_quote sq)) in
  _ ← on_bundles (write_bundle_context price_timestamp (Some now) (response_ctx_of ctx)); mret tt.
Definition record_direct_order_metrics (now : Z)
    (ctx : ResponseContext AssembleExternalMatchRequest SponsoredMatchResponse) : M unit :=
  _ ← on_bundles (write_bundle_context now None (response_ctx_of ctx)); mret tt.
Definition record_assembly_metrics_helper (now : Z)
    (ctx : ResponseContext AssembleExternalMatchRequest SponsoredMatchResponse) : M unit :=
  match a_order (p_request ctx) with
  | QuotedOrder sq _ => record_quoted_order_metrics now ctx sq
  | DirectOrder _ => record_direct_order_metrics now ctx
  end.
Definition record_assembly_metrics (now : Z) (task : assembly_task) (s : auth_state) : auth_state :=
  match task with Some ctx => (record_assembly_metrics_helper now ctx s).2 | None => s end.

(** ** Steps that only check

    A step before the request is forwarded changes the caches of the server and
    the counters at most: the tables, the sponsorship entries, the bundle store
    and the requests to the relayer stay, and the caches stay coherent. *)
Definition checked (s s' : auth_state) : Prop :=
  a_sponsored s' = a_sponsored s /\ a_bundles s' = a_bundles s /\ a_sent s' = a_sent s /\
  db (a_server s') = db (a_server s) /\ (coherent (a_server s) -> coherent (a_server s')).
#[local] Instance checked_trans : Transitive checked.
Proof. intros s1 s2 s3 (? & ? & ? & ? & ?) (? & ? & ? & ? & ?). split_and!; try congruence; auto. Qed.
#[local] Instance checked_refl : Reflexive checked.
Proof. intros s. split_and!; auto. Qed.

Definition check_only {A} (m : M A) : Prop := forall s, checked s (m s).2.

Lemma check_only_bind {A B} (m : M A) (f : A -> M B) :
  check_only m -> (forall a, check_only (f a)) -> check_only (m ≫= f).
Proof. intros Hm Hf s. apply eff_bind_state; [apply _|apply Hm|]. intros a s1. apply Hf. Qed.
Lemma check_only_lift {A} (r : res AuthServerError A) : check_only (lift r).
Proof. intros s. reflexivity. Qed.
Lemma check_only_ret {A} (a : A) : check_only (mret a).
Proof. intros s. reflexivity. Qed.
Lemma check_only_is_ok {A} (m : M A) : check_only m -> check_only (is_ok m).
Proof. intros Hm s. specialize (Hm s). unfold is_ok. destruct (m s) as [[] ?]; done. Qed.
Lemma check_only_counters {A} (f : rstore -> res AuthServerError A * rstore) :
  check_only (on_counters f).
Proof. intros s. unfold on_counters. destruct (f _). by split_and!. Qed.
Lemma check_only_server {A} (f : Op A) :
  (forall sv, db (f sv).2 = db sv) -> (forall sv, coherent sv -> coherent (f sv).2) ->
  check_only (on_server f).
Proof.
  intros Hd Hc s. unfold on_server. specialize (Hd (a_server s)). specialize (Hc (a_server s)).
  destruct (f _). by split_and!.
Qed.
#[local] Hint Resolve check_only_bind check_only_lift check_only_ret check_only_is_ok
  check_only_counters : ext.

Lemma check_only_limit up m key : check_only (on_server (get_rate_limit up key m)).
Proof.
  apply check_only_server; intros sv; [apply db_get_rate_limit|apply get_rate_limit_coherent].
Qed.
Lemma check_only_fee up u a : check_only (on_server (get_user_fee up u a)).
Proof.
  apply check_only_server; intros sv; [apply db_get_user_fee|apply get_user_fee_coherent].
Qed.
Lemma authorize_state dec val up id sv :
  (authorize_request dec val up (Some id) sv).2 = (get_api_key_entry up id sv).2.
Proof.
  unfold authorize_request, check_api_key_auth, get_api_secret.
  by destruct (get_api_key_entry up id sv).
Qed.
Lemma check_only_authorize dec val up h : check_only (on_server (authorize_request dec val up h)).
Proof.
  destruct h as [id|]; apply check_only_server; intros sv; rewrite ?authorize_state;
    auto using db_get_api_key_entry, get_api_key_entry_coherent.
Qed.
Lemma check_only_route_global up ex id : check_only (on_server (should_route_to_global up ex id)).
Proof.
  apply check_only_server; intros sv; unfold should_route_to_global, is_rate_limit_whitelisted;
    pose proof (db_get_api_key_entry up id sv); pose proof (get_api_key_entry_coherent up id sv);
    by destruct (get_api_key_entry up id sv).
Qed.
#[local] Hint Resolve check_only_limit check_only_fee check_only_authorize check_only_route_global : ext.

Lemma check_only_with_limit {A} up m key f : check_only (@with_limit A up m key f).
Proof. unfold with_limit. auto 6 with ext. Qed.
Lemma check_only_sponsor_order env q u o : check_only (sponsor_order env q u o).
Proof. intros s. reflexivity. Qed.
#[local] Hint Resolve check_only_with_limit check_only_sponsor_order : ext.

Lemma check_only_set_fee {Req} `{ExternalMatchRequestType Req relayer_body} up
    (ctx : RequestContext Req) : check_only (set_relayer_fee up ctx).
Proof. unfold set_relayer_fee. auto 8 with ext. Qed.
Lemma check_only_route {Req} `{ExternalMatchRequestType Req relayer_body} env
    (ctx : RequestContext Req) : check_only (route_req env ctx).
Proof. unfold route_req. auto 8 with ext. Qed.
#[local] Hint Resolve check_only_set_fee check_only_route : ext.

Lemma check_only_preprocess {Req} `{ExternalMatchRequestType Req relayer_body} env path h
    (decode : bool -> res AuthServerError Req) q : check_only (preprocess_request env path h decode q).
Proof. unfold preprocess_request. apply check_only_bind; [auto with ext|]. intros []. auto 8 with ext. Qed.
Lemma check_only_quote_pre env ctx : check_only (quote_pre_request env ctx).
Proof.
  unfold quote_pre_request. do 2 (apply check_only_bind; [auto with ext|]; intros ?).
  case_match; [auto with ext|]. apply check_only_bind; [auto with ext|]. intros ?.
  apply check_only_bind; [auto with ext|]. intros []. auto with ext.
Qed.
Lemma check_only_sponsor_assembly env ctx : check_only (sponsor_assembly_request env ctx).
Proof.
  unfold sponsor_assembly_request. case_match.
  - intros s. unfold mbind, eff_bind. destruct (sponsor_quoted_order _ _ _ _) as [[[]]| |]; reflexivity.
  - apply check_only_bind; [auto with ext|]. intros []. auto with ext.
Qed.
#[local] Hint Resolve check_only_preprocess check_only_quote_pre check_only_sponsor_assembly : ext.
Lemma check_only_assembly_pre env ctx : check_only (assembly_pre_request env ctx).
Proof.
  unfold assembly_pre_request. apply check_only_bind; [auto with ext|]. intros ?.
  case_match; [auto with ext|]. apply check_only_bind; [auto with ext|]. intros ?.
  apply check_only_bind; [auto with ext|]. intros []. auto with ext.
Qed.

Lemma check_run {A} (m : M A) s r s' : check_only m -> m s = (r, s') -> checked s s'.
Proof. intros Hm Hr. specialize (Hm s). by rewrite Hr in Hm. Qed.

(** A request is sent only when the checks before it succeed. *)
Lemma bind_sends {A B} (m : M A) (f : A -> M B) s :
  check_only m -> a_sent ((m ≫= f) s).2 <> a_sent s ->
  exists a s1, m s = (Ok a, s1) /\ checked s s1 /\ a_sent (f a s1).2 <> a_sent s1 /\
    (m ≫= f) s = f a s1.
Proof.
  intros Hm H. specialize (Hm s). pose proof Hm as (_ & _ & Hs & _).
  unfold mbind, eff_bind in *. destruct (m s) as [[a|e|] s1]; cbn in *; [|done..].
  exists a, s1. split_and!; [done..| |done]. by rewrite Hs.
Qed.

Lemma get_user_fee_effective up u a sv fee :
  coherent sv -> (get_user_fee up u a sv).1 = Ok fee -> fee = effective_fee (db sv) u a.
Proof.
  intros (_ & Hf & _). unfold get_user_fee, cache_get_user_fee.
  destruct (_ !! (u, a)) eqn:E; [|destruct up; [|done]]; cbn; intros [= <-]; [|done]. by apply Hf.
Qed.
Lemma get_rate_limit_effective up id m sv max :
  coherent sv -> (get_rate_limit up id m sv).1 = Ok max ->
  max = as_u32 <$> rate_limits (db sv) !! (id, m).
Proof.
  intros (_ & _ & Hl). unfold get_rate_limit, cache_get_rate_limit.
  destruct (_ !! (id, m)) eqn:E; [|destruct up; [|done]]; cbn; intros [= <-]; [|done]. by apply Hl.
Qed.

Lemma on_server_Ok {A} (f : Op A) s a s' :
  on_server f s = (Ok a, s') -> (f (a_server s)).1 = Ok a /\ a_redis s' = a_redis s.
Proof. unfold on_server. destruct (f _). by intros [= -> <-]. Qed.
Lemma is_ok_true {A} (m : M A) s s' : is_ok m s = (Ok true, s') -> exists a, m s = (Ok a, s').
Proof. unfold is_ok. destruct (m s) as [[] ?]; naive_solver. Qed.

(** What a request that passed the preprocessing looks like. *)
Lemma preprocess_ok {Req} `{ExternalMatchRequestType Req relayer_body} env path h
    (decode : bool -> res AuthServerError Req) q s ctx s' :
  preprocess_request env path h decode q s = (Ok ctx, s') ->
  exists user key body ticker fee,
    (authorize_request aes_decrypt (pe_validate env) (pe_auth_up env) (h_api_key h) (a_server s)).1
      = Ok (user, key) /\
    decode (should_stringify_numbers (h_accept h)) = Ok body /\ validate_request_body body = Ok tt /\
    base_ticker (input_mint body) (output_mint body) = Ok ticker /\
    (coherent (a_server s) -> fee = effective_fee (db (a_server s)) key ticker) /\
    a_redis s' = a_redis s /\
    ctx = mk_request_ctx path q user key (get_sdk_version h) h (set_fee fee body) None
            (pe_request_id env).
Proof.
  unfold preprocess_request. intros Hp.
  apply eff_bind_Ok in Hp as ([user key] & s1 & Ha & Hp).
  pose proof (check_only_authorize aes_decrypt (pe_validate env) (pe_auth_up env) (h_api_key h) s) as Hc1.
  rewrite Ha in Hc1. destruct Hc1 as (_ & _ & _ & Hdb1 & Hc1).
  apply on_server_Ok in Ha as [Ha Hr1].
  apply eff_bind_Ok in Hp as (body & s2 & [Hd ->]%lift_Ok & Hp).
  apply eff_bind_Ok in Hp as ([] & s2 & [Hv ->]%lift_Ok & Hp).
  unfold set_relayer_fee in Hp. cbn [r_body r_key_id] in Hp.
  apply eff_bind_Ok in Hp as (ticker & s2 & [Ht ->]%lift_Ok & Hp).
  apply eff_bind_Ok in Hp as (fee & s2 & [Hf Hr2]%on_server_Ok & [= <- <-]).
  exists user, key, body, ticker, fee. split_and!; try done; [|congruence].
  intros Hc%Hc1. rewrite <- Hdb1. by eapply get_user_fee_effective.
Qed.

(** Forwarding logs one request and changes nothing else. *)
Lemma forward_state {Req Resp} `{ExternalMatchRequestType Req relayer_body}
    (fs : string -> res string Resp) nonce (ctx : RequestContext Req) s :
  (forward_request fs nonce ctx s).2 = log_sent (r_path ctx) (to_body (r_body ctx)) s.
Proof.
  unfold forward_request. unfold mbind, eff_bind, modify, lift. cbn.
  destruct (relayer _ _) as [[status body]| |]; [|done..].
  by destruct (if status =? STATUS_OK then _ else _).
Qed.
Lemma forward_ok {Req Resp} `{ExternalMatchRequestType Req relayer_body}
    (fs : string -> res string Resp) nonce (ctx : RequestContext Req) s raw c s' :
  forward_request fs nonce ctx s = (Ok (raw, c), s') ->
  exists status body response,
    relayer (r_path ctx) (to_body (r_body ctx)) = Ok (status, body) /\
    raw = mk_reply status body /\ c = from_response nonce status response ctx /\
    if status =? STATUS_OK then exists r, response = Some r /\ fs body = Ok r else response = None.
Proof.
  unfold forward_request. intros Hf. apply eff_bind_Ok in Hf as ([] & s1 & _ & Hf).
  apply eff_bind_Ok in Hf as ([status body] & s2 & [Hr ->]%lift_Ok & Hf).
  apply eff_bind_Ok in Hf as (response & s2 & [Hresp ->]%lift_Ok & [= <- <- _]).
  exists status, body, response. split_and!; [done..|]. destruct (status =? STATUS_OK).
  - apply bind_Ok_inv in Hresp as (r & Hfs & [= <-]). exists r. split; [done|]. by eapply map_err_Ok.
  - by injection Hresp.
Qed.
Lemma forward_bind_state {Req Resp A} `{ExternalMatchRequestType Req relayer_body}
    (fs : string -> res string Resp) nonce (ctx : RequestContext Req) (f : _ -> M A) s :
  (forall x s, (f x s).2 = s) ->
  ((forward_request fs nonce ctx ≫= f) s).2 = log_sent (r_path ctx) (to_body (r_body ctx)) s.
Proof.
  intros Hf. pose proof (forward_state fs nonce ctx s) as Hs. unfold mbind, eff_bind.
  destruct (forward_request fs nonce ctx s) as [[] s1]; [|done..]. by rewrite Hf.
Qed.

Lemma route_ok {Req} `{ExternalMatchRequestType Req relayer_body} env (ctx : RequestContext Req) s ctx' s' :
  route_req env ctx s = (Ok ctx', s') ->
  a_redis s' = a_redis s /\
  exists b, (b = r_body ctx \/ b = set_matching_pool GLOBAL_MATCHING_POOL (r_body ctx)) /\
    ctx' = with_body b ctx.
Proof.
  unfold route_req. intros Hp.
  apply eff_bind_Ok in Hp as (ticker & s1 & [_ ->]%lift_Ok & Hp).
  apply eff_bind_Ok in Hp as (g & s1 & [_ Hr]%on_server_Ok & [= <- <-]).
  split; [done|]. destruct ctx. destruct g; eauto.
Qed.

(** A token that was granted, with the limit of the key. *)
Lemma with_limit_consume up m l t now now' key user s s' :
  with_limit up m key (fun limits =>
    consume_rate_limit_token duration_round format_window limits l m t now now' key user) s
    = (Ok tt, s') ->
  exists max, (coherent (a_server s) -> max = as_u32 <$> rate_limits (db (a_server s)) !! (key, m)) /\
    consume_token duration_round format_window l t now now' user max (a_redis s) = (true, a_redis s').
Proof.
  unfold with_limit. intros Hp.
  apply eff_bind_Ok in Hp as (max & s1 & [Hm Hr1]%on_server_Ok & Hp). exists max.
  split; [intros Hc; by eapply get_rate_limit_effective|].
  unfold on_counters, consume_rate_limit_token in Hp. rewrite Hr1 in Hp.
  destruct (consume_token _ _ _ _ _ _ _ _ _) as [[] rs]; [|discriminate Hp]. by injection Hp as <-.
Qed.

Lemma sponsor_order_redis env q u o s a s' : sponsor_order env q u o s = (Ok a, s') -> s' = s.
Proof. unfold sponsor_order. by intros [= _ ->]. Qed.

(** An assembly request that passed its checks: the token, and what is sent. *)
Lemma assembly_pre_ok env ctx s ctx' s' :
  assembly_pre_request env ctx s = (Ok ctx', s') ->
  exists max,
    (coherent (a_server s) ->
     max = as_u32 <$> rate_limits (db (a_server s)) !! (r_key_id ctx, Assemble)) /\
    consume_bundle_token duration_round format_window limiter (ae_consume env)
      (ae_consume_now env).1 (ae_consume_now env).2 (r_user ctx) max (a_redis s) = (true, a_redis s') /\
    r_path ctx' = r_path ctx /\
    relayer_fee_rate (a_options (r_body ctx')) = relayer_fee_rate (a_options (r_body ctx)).
Proof.
  unfold assembly_pre_request. intros Hp.
  apply eff_bind_Ok in Hp as (granted & s1 & Hg & Hp).
  destruct granted; [|discriminate Hp]. apply is_ok_true in Hg as [[] Hg].
  apply with_limit_consume in Hg as (max & Hmax & Hg). exists max.
  apply eff_bind_Ok in Hp as (ctx2 & s2 & (Hr2 & b & Hb & ->)%route_ok & Hp).
  apply eff_bind_Ok in Hp as ([info ctx3] & s3 & Hs & [= <- <-]).
  rewrite <- Hr2 in Hg.
  assert (s3 = s2 /\ r_path ctx3 = r_path ctx /\
    relayer_fee_rate (a_options (r_body ctx3)) = relayer_fee_rate (a_options b)) as (-> & Hp3 & Hf3).
  { unfold sponsor_assembly_request in Hs. destruct ctx as [p q u k v h b0 i r]. cbn in Hs.
    destruct (a_order b).
    - apply eff_bind_Ok in Hs as ([[sq upd] i'] & s4 & [= _ <-] & [= _ <- <-]). done.
    - apply eff_bind_Ok in Hs as ([i' o] & s4 & ->%sponsor_order_redis & [= _ <- <-]). done. }
  split_and!; [done|done|by destruct ctx3|].
  destruct ctx3. cbn in *. rewrite Hf3. by destruct Hb as [-> | ->].
Qed.

(** C15. An assembly request reaches the relayer only if it is authorized, its
    body is valid, and a token of the bundle limiter was granted to its user in
    that very step; it is then sent once, with the relayer fee of its key and
    base token, which is between zero and one percent. *)
Theorem assembly_forwarded_spec pe ae path h decode q s r s' :
  coherent (a_server s) -> fees_bounded (db (a_server s)) ->
  handle_assemble_match_bundle_request pe ae path h decode q s = (r, s') ->
  a_sent s' <> a_sent s ->
  exists user key body ticker req,
    (authorize_request aes_decrypt (pe_validate pe) (pe_auth_up pe) (h_api_key h) (a_server s)).1
      = Ok (user, key) /\
    decode (should_stringify_numbers (h_accept h)) = Ok body /\ validate_request_body body = Ok tt /\
    base_ticker (input_mint body) (output_mint body) = Ok ticker /\
    consume_bundle_token duration_round format_window limiter (ae_consume ae)
      (ae_consume_now ae).1 (ae_consume_now ae).2 user
      (as_u32 <$> rate_limits (db (a_server s)) !! (key, Assemble)) (a_redis s) = (true, a_redis s') /\
    a_sent s' = a_sent s ++ [(path, RAssemble req)] /\
    relayer_fee_rate (a_options req) = Some (effective_fee (db (a_server s)) key ticker) /\
    fee_ok (effective_fee (db (a_server s)) key ticker).
Proof.
  intros Hc Hb Hrun Hsent. unfold handle_assemble_match_bundle_request in Hrun.
  rewrite <- (f_equal snd Hrun : _ = s') in Hsent |- *. cbn [snd] in *. clear Hrun.
  apply bind_sends in Hsent as (ctx & s1 & Hp & (_ & _ & Hs1 & Hdb1 & Hc1) & Hsent & ->); [|auto with ext].
  apply bind_sends in Hsent as (ctx2 & s2 & Ha & (_ & _ & Hs2 & _) & _ & ->);
    [|apply check_only_assembly_pre].
  rewrite forward_bind_state by (by intros [? ?] ?).
  apply preprocess_ok in Hp as (user & key & body & ticker & fee & Hau & Hd & Hv & Ht & Hfee & Hr & ->).
  apply assembly_pre_ok in Ha as (max & Hmax & Hcon & Hpath & Hrate). cbn in *.
  rewrite Hr in Hcon. rewrite Hmax, Hdb1 in Hcon by auto. rewrite Hfee in Hrate by done.
  exists user, key, body, ticker, (r_body ctx2). rewrite Hpath, Hs2, Hs1.
  split_and!; try done. by apply effective_fee_bounded.
Qed.

(** A quote request that passed its checks. *)
Lemma quote_pre_ok env ctx s ctx' s' :
  quote_pre_request env ctx s = (Ok ctx', s') ->
  exists max s1,
    (coherent (a_server s) ->
     max = as_u32 <$> rate_limits (db (a_server s)) !! (r_key_id ctx, Quote)) /\
    consume_quote_token duration_round format_window limiter (qe_consume env)
      (qe_consume_now env).1 (qe_consume_now env).2 (r_user ctx) max (a_redis s) = (true, a_redis s1) /\
    r_path ctx' = r_path ctx /\
    relayer_fee_rate (quote_options (r_body ctx')) = relayer_fee_rate (quote_options (r_body ctx)).
Proof.
  unfold quote_pre_request. intros Hp.
  apply eff_bind_Ok in Hp as (qok & s1 & Hq & Hp). apply eff_bind_Ok in Hp as (bok & s2 & _ & Hp).
  destruct qok; [|discriminate Hp]. destruct bok; [|discriminate Hp]. cbn in Hp.
  apply is_ok_true in Hq as [[] Hq]. apply with_limit_consume in Hq as (max & Hmax & Hq).
  exists max, s1.
  apply eff_bind_Ok in Hp as (ctx2 & s3 & (_ & b & Hb & ->)%route_ok & Hp).
  apply eff_bind_Ok in Hp as ([info o] & s4 & ->%sponsor_order_redis & [= <- <-]).
  destruct ctx. cbn in *. split_and!; try done. by destruct Hb as [-> | ->].
Qed.

(** The same for a quote request and the quote limiter; the bundle limiter is
    only looked at. *)
Theorem quote_forwarded_spec pe qe path h decode q s r s' :
  coherent (a_server s) -> fees_bounded (db (a_server s)) ->
  handle_quote_request pe qe path h decode q s = (r, s') ->
  a_sent s' <> a_sent s ->
  exists user key body ticker req,
    (authorize_request aes_decrypt (pe_validate pe) (pe_auth_up pe) (h_api_key h) (a_server s)).1
      = Ok (user, key) /\
    decode (should_stringify_numbers (h_accept h)) = Ok body /\ validate_request_body body = Ok tt /\
    base_ticker (input_mint body) (output_mint body) = Ok ticker /\
    (consume_quote_token duration_round format_window limiter (qe_consume qe)
      (qe_consume_now qe).1 (qe_consume_now qe).2 user
      (as_u32 <$> rate_limits (db (a_server s)) !! (key, Quote)) (a_redis s)).1 = true /\
    a_sent s' = a_sent s ++ [(path, RQuote req)] /\
    relayer_fee_rate (quote_options req) = Some (effective_fee (db (a_server s)) key ticker) /\
    fee_ok (effective_fee (db (a_server s)) key ticker).
Proof.
  intros Hc Hb Hrun Hsent. unfold handle_quote_request in Hrun.
  rewrite <- (f_equal snd Hrun : _ = s') in Hsent |- *. cbn [snd] in *. clear Hrun.
  apply bind_sends in Hsent as (ctx & s1 & Hp & (_ & _ & Hs1 & Hdb1 & Hc1) & Hsent & ->); [|auto with ext].
  apply bind_sends in Hsent as (ctx2 & s2 & Ha & (_ & _ & Hs2 & _) & _ & ->); [|auto with ext].
  rewrite forward_bind_state by (by intros [? ?] ?).
  apply preprocess_ok in Hp as (user & key & body & ticker & fee & Hau & Hd & Hv & Ht & Hfee & Hr & ->).
  apply quote_pre_ok in Ha as (max & s3 & Hmax & Hcon & Hpath & Hrate). cbn in *.
  rewrite Hr in Hcon. rewrite Hmax, Hdb1 in Hcon by auto. rewrite Hfee in Hrate by done.
  exists user, key, body, ticker, (r_body ctx2). rewrite Hpath, Hs2, Hs1.
  split_and!; try done; [by rewrite Hcon|by apply effective_fee_bounded].
Qed.

(** *** Refused requests *)
Definition untouched (s s' : auth_state) : Prop :=
  a_redis s' = a_redis s /\ a_sponsored s' = a_sponsored s /\ a_bundles s' = a_bundles s /\
  a_sent s' = a_sent s.

Lemma preprocess_refused {Req} `{ExternalMatchRequestType Req relayer_body} {A} env path h
    (decode : bool -> res AuthServerError Req) q (f : RequestContext Req -> M A) s :
  (forall v, (authorize_request aes_decrypt (pe_validate env) (pe_auth_up env) (h_api_key h)
     (a_server s)).1 <> Ok v) ->
  let out := (preprocess_request env path h decode q ≫= f) s in
  (forall v, out.1 <> Ok v) /\ untouched s out.2.
Proof.
  intros Ha. unfold preprocess_request, mbind, eff_bind, on_server.
  destruct (authorize_request _ _ _ _ _) as [[v|e|] sv]; cbn in *; [by destruct (Ha v)|by split..].
Qed.

(** A request with a key that is not active gets nothing: it is refused, no
    token is taken, nothing is stored and nothing reaches the relayer. *)
Theorem inactive_key_inert pe qe ae path h decq deca q id s :
  coherent (a_server s) -> inactive id (a_server s) -> h_api_key h = Some id ->
  let out1 := handle_quote_request pe qe path h decq q s in
  let out2 := handle_assemble_match_bundle_request pe ae path h deca q s in
  ((forall v, out1.1 <> Ok v) /\ untouched s out1.2) /\
  ((forall v, out2.1 <> Ok v) /\ untouched s out2.2).
Proof.
  intros Hc Hi Hk.
  assert (Ha : forall v, (authorize_request aes_decrypt (pe_validate pe) (pe_auth_up pe) (h_api_key h)
    (a_server s)).1 <> Ok v).
  { rewrite Hk. intros v. unfold authorize_request, check_api_key_auth.
    pose proof (inactive_refused aes_decrypt (pe_auth_up pe) id (a_server s) Hc Hi) as Hr.
    destruct (get_api_secret _ _ _ _) as [[[sec desc]| |] sv]; [by destruct (Hr (sec, desc))|done..]. }
  split; by apply preprocess_refused.
Qed.

(** *** From the quote to its assembly *)
Lemma checked_read t now k s s' :
  checked s s' -> read_sponsorship_info_from_redis t now k s' = read_sponsorship_info_from_redis t now k s.
Proof. intros (Hs & _). unfold read_sponsorship_info_from_redis. by rewrite Hs. Qed.

(** What an assembly of a quoted order sends: the quote without its refund. *)
Lemma assembly_pre_quoted env ctx s ctx' s' sq :
  a_order (r_body ctx) = QuotedOrder sq None ->
  assembly_pre_request env ctx s = (Ok ctx', s') ->
  exists sq' upd i,
    (forall read, (forall k, read k = read_sponsorship_info_from_redis (ae_read env) (ae_read_now env) k s) ->
     sponsor_quoted_order generate_quote_uuid read sq None = Ok (sq', upd, i)) /\
    a_order (r_body ctx') = QuotedOrder sq' upd /\ r_sponsorship_info ctx' = Some i.
Proof.
  intros Ho. unfold assembly_pre_request. intros Hp.
  pose proof (check_only_bind _ (fun _ : bool => route_req (ae_route env) ctx)
    (check_only_is_ok _ (check_only_with_limit (ae_limit_up env) Assemble (r_key_id ctx) (fun limits =>
       consume_bundle_rate_limit_token duration_round format_window limits limiter (ae_consume env)
       (ae_consume_now env).1 (ae_consume_now env).2 (r_key_id ctx) (r_user ctx))))
    (fun _ => check_only_route (ae_route env) ctx) s) as Hck.
  apply eff_bind_Ok in Hp as (granted & s1 & Hg & Hp). rewrite (eff_bind_run _ _ _ _ _ Hg) in Hck.
  destruct granted; [|discriminate Hp].
  apply eff_bind_Ok in Hp as (ctx2 & s2 & Hr & Hp). rewrite Hr in Hck. cbn in Hck.
  apply route_ok in Hr as (_ & b & Hb & ->).
  assert (a_order b = QuotedOrder sq None) as Hob by (by destruct Hb as [-> | ->]).
  apply eff_bind_Ok in Hp as ([i ctx3] & s3 & Hs & [= <- <-]).
  unfold sponsor_assembly_request in Hs. destruct ctx as [p q u k v h b0 i0 r]. cbn in Hs.
  rewrite Hob in Hs. apply eff_bind_Ok in Hs as ([[sq' upd] i'] & s4 & [= Hs _] & [= <- <- _]).
  exists sq', upd, i'. split_and!; [|done..]. intros read Hread. rewrite <- Hs.
  unfold sponsor_quoted_order. by rewrite Hread, (checked_read _ _ _ _ _ Hck).
Qed.

Lemma quote_pre_info env ctx s ctx' s' :
  quote_pre_request env ctx s = (Ok ctx', s') ->
  exists i, r_sponsorship_info ctx' = Some i /\ r_headers ctx' = r_headers ctx.
Proof.
  unfold quote_pre_request. intros Ha.
  do 2 (apply eff_bind_Ok in Ha as (? & ? & _ & Ha)). case_match; [discriminate Ha|].
  apply eff_bind_Ok in Ha as (ctx3 & s4 & (_ & b & _ & ->)%route_ok & Ha).
  apply eff_bind_Ok in Ha as ([i o] & s5 & _ & [= <- _]). exists i. by destruct ctx.
Qed.

(** The reply to a quote request that was forwarded. *)
Lemma handle_quote_ok pe qe path h decode q s reply task s' :
  handle_quote_request pe qe path h decode q s = (Ok (reply, task), s') ->
  reply_status reply = STATUS_OK ->
  a_sponsored s' = a_sponsored s /\
  exists req body sq i resp c,
    a_sent s' = a_sent s ++ [(path, RQuote req)] /\
    relayer path (RQuote req) = Ok (STATUS_OK, body) /\
    quote_from_slice body = Ok sq /\ sponsor_response sq (Some i) = Ok (resp, c) /\
    reply_body reply = quote_to_text resp (should_stringify_numbers (h_accept h)) /\
    task = cache_entry generate_quote_uuid resp c.
Proof.
  intros Hrun Hst. unfold handle_quote_request in Hrun.
  apply eff_bind_Ok in Hrun as (ctx & s1 & Hp & Hrun).
  pose proof (check_run _ _ _ _ (check_only_preprocess _ _ _ _ _) Hp) as (Hc1 & _ & Ht1 & _).
  apply preprocess_ok in Hp as (user & key & body & ticker & fee & _ & _ & _ & _ & _ & _ & ->).
  apply eff_bind_Ok in Hrun as (ctx2 & s2 & Ha & Hrun).
  pose proof (check_run _ _ _ _ (check_only_quote_pre _ _) Ha) as (Hc2 & _ & Ht2 & _).
  pose proof (quote_pre_ok _ _ _ _ _ Ha) as (_ & _ & _ & _ & Hpath & _). cbn in Hpath.
  apply quote_pre_info in Ha as (i & Hi & Hh).
  apply eff_bind_Ok in Hrun as ([raw ctx3] & s3 & Hf & [Hpost ->]%lift_Ok).
  pose proof (forward_state quote_from_slice (qe_nonce qe) ctx2 s2) as Hs3. rewrite Hf in Hs3. cbn in Hs3.
  split. { rewrite Hs3. cbn. by rewrite Hc2, Hc1. }
  apply forward_ok in Hf as (status & rbody & response & Hrel & -> & -> & Hresp).
  unfold quote_post_request, is_success in Hpost. cbn in Hpost. destruct (status =? STATUS_OK) eqn:Es.
  - destruct Hresp as (sq & -> & Hsq). cbn in Hpost. rewrite Hi in Hpost. cbn in Hpost.
    apply bind_Ok_inv in Hpost as ([resp c] & Hsp & [= <- <-]).
    apply Z.eqb_eq in Es. subst status s3. rewrite Hpath in Hrel |- *.
    exists (r_body ctx2), rbody, sq, i, resp, c. split_and!; try done.
    { cbn. by rewrite Ht2, Ht1. }
    unfold should_stringify_body. cbn. by rewrite Hh.
  - injection Hpost as <- _. cbn in Hst. subst. discriminate Es.
Qed.

(** An in-kind refund is cached, any other one is not. *)
Lemma sponsor_response_info sq i resp c :
  sponsor_response sq (Some i) = Ok (resp, c) ->
  sq_info resp = Some i /\
  match c with
  | Some _ => requires_match_result_update i = true
  | None => requires_match_result_update i = false /\ sq_signed_quote resp = sq
  end.
Proof.
  unfold sponsor_response, construct_sponsored_quote_response.
  destruct (requires_match_result_update i) eqn:E.
  - intros Hs. apply bind_Ok_inv in Hs as ([] & _ & [= <- <-]). done.
  - by intros [= <- <-].
Qed.

Lemma recorded_entry now k c s :
  a_sponsored (record_quote_metrics Delivered Delivered now (Some (k, c)) s) !! k
    = Some (c, Some (now + MAX_QUOTE_AGE_MS)).
Proof.
  change (alter (fun e : SponsorshipEntry => (e.1, Some (now + MAX_QUOTE_AGE_MS))) k
    (<[k := (c, None)]> (a_sponsored s)) !! k = Some (c, Some (now + MAX_QUOTE_AGE_MS))).
  by rewrite lookup_alter_eq, lookup_insert_eq.
Qed.

(** The assembly of an answered quote, once its task ran, sees the signed quote. *)
Lemma answered_quote_restored sq i resp c now now' s1 s2 :
  quote_wf (s_quote sq) -> sponsor_response sq (Some i) = Ok (resp, c) ->
  a_sponsored s1 !! generate_quote_uuid (s_signature sq) = None ->
  a_sponsored s2 = a_sponsored (record_quote_metrics Delivered Delivered now
                                  (cache_entry generate_quote_uuid resp c) s1) ->
  now' < now + MAX_QUOTE_AGE_MS ->
  sponsor_quoted_order generate_quote_uuid
    (fun k => read_sponsorship_info_from_redis Delivered now' k s2) (sq_signed_quote resp) None
    = Ok (sq, None, if requires_match_result_update i then i else info_zero).
Proof.
  intros Hwf Hs Hempty Hs2 Hnow. pose proof (sponsor_response_info _ _ _ _ Hs) as [_ Hc].
  destruct c as [c|].
  - rewrite Hc. apply (quote_restored generate_quote_uuid sq i resp c _ Hwf Hs).
    unfold read_sponsorship_info_from_redis. rewrite Hs2. unfold cache_entry. cbn [fmap option_fmap option_map].
    rewrite <- (sponsor_response_signature _ _ _ _ Hs), recorded_entry. cbn. unfold live. cbn. by rewrite (proj2 (Z.ltb_lt _ _) Hnow).
  - destruct Hc as [-> ->]. unfold sponsor_quoted_order, read_sponsorship_info_from_redis.
    rewrite Hs2. cbn. by rewrite Hempty.
Qed.

(** The quote a client is shown for a quote of the relayer: an in-kind refund is
    added to what it receives, to the price, and to an exact output it asked
    for; any other refund leaves the quote. *)
Definition shown_quote (i : GasSponsorshipInfo) (q : ApiExternalQuote) : ApiExternalQuote :=
  if negb (refund_native_eth i) && (0 <? refund_amount i) then
    let 'mk_quote (mk_order im om ia oa exact mf) (mk_match mi mo mia moa pf) send recv price ts := q in
    let out := (moa + refund_amount i) mod 2 ^ 128 in
    mk_quote
      (mk_order im om ia (if exact then (oa + refund_amount i) mod 2 ^ 128 else oa) exact mf)
      (mk_match mi mo mia out (mk_price_fp (from_integer_ratio out mia) (price_fp_timestamp pf)))
      send (mk_transfer (t_mint recv) ((t_amount recv + refund_amount i) mod 2 ^ 128))
      (mk_price (fdiv (of_Z out) (of_Z mia)) (price_timestamp price)) ts
  else q.

Lemma requires_update_spec i :
  requires_match_result_update i = negb (refund_native_eth i) && (0 <? refund_amount i).
Proof. unfold requires_match_result_update. by rewrite Z.gtb_ltb. Qed.

Lemma sponsor_response_shown sq i resp c :
  sponsor_response sq (Some i) = Ok (resp, c) ->
  resp = mk_sponsored_quote (mk_signed (shown_quote i (s_quote sq)) (s_signature sq)) (Some i) /\
  match c with Some c => c_info c = i | None => requires_match_result_update i = false end.
Proof.
  destruct sq as [[[im om ia oa exact mf] [mi mo mia moa pf] send recv price ts] sig].
  unfold sponsor_response, construct_sponsored_quote_response, shown_quote.
  rewrite <- requires_update_spec. destruct (requires_match_result_update i) eqn:E.
  - unfold apply_gas_sponsorship_to_quote, requires_exact_output_amount_update. cbn.
    destruct (mia =? 0); [done|]. rewrite E, andb_true_r. destruct exact; by intros [= <- <-].
  - by intros [= <- <-].
Qed.

Lemma sponsor_match_info (ctx : ResponseContext AssembleExternalMatchRequest MatchBundle) i nonce m :
  p_sponsorship ctx = Some (i, nonce) -> sponsor_match ctx = Ok m ->
  sm_info m = Some i /\ exists call opts,
    b_tx_input (sm_bundle m) = Some (encode_sponsor call opts) /\
    go_nonce opts = nonce /\ go_refund_amount opts = refund_amount i.
Proof.
  unfold sponsor_match. intros Hi Hm. apply bind_Ok_inv in Hm as (b & _ & Hm). rewrite Hi in Hm.
  split.
  - cbn in Hm. unfold construct_sponsored_match_response in Hm.
    apply bind_Ok_inv in Hm as (cd & _ & Hm). by apply bind_Ok_inv in Hm as (b' & _ & [= <-]).
  - apply sponsored_match_tx in Hm as (call & opts & _ & _ & H1 & H2 & H3). eauto 10.
Qed.

End ExternalMatch.

(** ** Witnesses *)
Module ExternalMatchWitness.
Import SponsorshipWitness.
#[local] Existing Instance fp63.
#[local] Existing Instance binary_text.
#[local] Existing Instance RateLimiterWitness.kv_redis.

#[local] Instance tokens1 : Tokens := {|
  tok_decimals := f64_prices;
  tok_usdc := 7; tok_weth := 8; tok_native := 9;
  is_named a := (a =? 1) || (a =? 7) || (a =? 8);
  ticker_of a := if a =? 1 then Some "WBTC"%string else None;
  addr_text := format_z; usdc_to_decimal := of_Z;
|}.
(** A relayer that answers with one quote and one bundle. *)
#[local] Instance server1 : AuthServer := {|
  get_external_order_ref t :=
    match t with
    | DirectOrder o | QuotedOrder _ (Some o) => o
    | QuotedOrder sq None => q_order (s_quote sq)
    end;
  aes_decrypt s := Ok s; GLOBAL_MATCHING_POOL := "global";
  parse_sponsorship_query _ := Ok (mk_params None None None None);
  duration_round := RateLimiterWitness.round; format_window := RateLimiterWitness.fmt;
  generate_quote_uuid := uuid1;
  call_rest := unit; decode_settle _ := Some (mk_settle unit 100 tt);
  encode_sponsor := enc; decode_sponsor := dec; sign_options _ _ _ _ := Ok "sig"%string;
  get_protocol_fee _ _ := 0; limiter := new_rate_limiter 5 2 f1; gas_sponsor_address := 77;
  min_sponsored_order_quote_amount := f1;
  relayer _ b := Ok (200, match b with RQuote _ => "quote" | RAssemble _ => "match" end%string);
  quote_from_slice _ := Ok signed1; match_from_slice _ := Ok bundle1;
  quote_to_text _ _ := "sponsored quote"%string; match_to_text _ _ := "sponsored match"%string;
|}.

Definition s0 : auth_state := mk_auth (fresh ServerCacheWitness.d1) ∅ ∅ ∅ [].
Definition pe1 : pre_env := mk_pre_env true (fun _ => Ok tt) true "rid".
Definition route1 : route_env := mk_route_env true (fun _ => Ok None) "day".
Definition spons1 : sponsor_env :=
  mk_sponsor_env Delivered 0 (fun _ => Ok f1) (Ok (of_Z (25 * 10 ^ 18))) (fun _ => Ok f1) 1.
Definition qe1 : quote_env := mk_quote_env true true Delivered (0, 0) Delivered 0 route1 spons1 5.
Definition ae1 : assemble_env := mk_assemble_env true Delivered (0, 0) route1 spons1 Delivered 9000 6.
Definition h1 : HeaderMap := mk_headers None None (Some 1).
Definition order2 : ExternalOrder := mk_order 7 1 500 0 false 0.
Definition body1 : AssembleExternalMatchRequest :=
  mk_assemble false None (DirectOrder order2) default_engine_options.
Definition quote_body1 : ExternalQuoteRequest := mk_quote_request order2 default_engine_options.

Lemma d1_coherent : coherent (fresh ServerCacheWitness.d1).
Proof. apply fresh_coherent, ServerCacheWitness.d1_named. Qed.
Lemma d1_fees : fees_bounded ServerCacheWitness.d1.
Proof. split; [apply map_Forall_empty|]. apply map_Forall_singleton. split; reflexivity. Qed.

Definition run1 := handle_assemble_match_bundle_request pe1 ae1 "p" h1 (fun _ => Ok body1) "" s0.
Lemma run1_sent : length (a_sent run1.2) = 1%nat.
Proof. vm_compute. reflexivity. Qed.

Lemma assembly_forwarded_spec_witness :
  exists req, a_sent run1.2 = [("p"%string, RAssemble req)].
Proof.
  destruct (assembly_forwarded_spec pe1 ae1 "p" h1 (fun _ => Ok body1) "" s0 run1.1 run1.2)
    as (user & key & body & ticker & req & _ & _ & _ & _ & _ & Hs & _);
    [apply d1_coherent|apply d1_fees|apply surjective_pairing| |exists req; exact Hs].
  intros H. pose proof run1_sent as Hl. rewrite H in Hl. discriminate Hl.
Defined.

(** The same server with the key deactivated. *)
Definition k2 : ApiKey := mk_key 1 "secret" "alice" 0 false false.
Definition d2 : Database := mk_db {[ 1 := k2 ]} ∅ ∅ ∅.
Definition s2 : auth_state := mk_auth (fresh d2) ∅ ∅ ∅ [].
Lemma inactive_key_inert_witness :
  a_sent (handle_assemble_match_bundle_request pe1 ae1 "p" h1 (fun _ => Ok body1) "" s2).2 = [].
Proof.
  apply (inactive_key_inert pe1 qe1 ae1 "p" h1 (fun _ => Ok quote_body1) (fun _ => Ok body1) "" 1 s2).
  - apply fresh_coherent. intros id k. cbn. intros [<- <-]%lookup_singleton_Some. reflexivity.
  - exists k2. split; reflexivity.
  - reflexivity.
Defined.

Definition qrun := handle_quote_request pe1 qe1 "q" h1 (fun _ => Ok quote_body1) "" s0.
Definition qout : BytesResponse * quote_task :=
  match qrun.1 with Ok x => x | _ => (mk_reply 0 "", None) end.
Lemma qrun_status :
  match qrun.1 with Ok x => reply_status x.1 =? STATUS_OK | _ => false end = true.
Proof. vm_compute. reflexivity. Qed.
Lemma qrun_ok : qrun.1 = Ok qout /\ reply_status qout.1 = STATUS_OK.
Proof.
  pose proof qrun_status as H. unfold qout. destruct qrun.1 as [x| |]; [|discriminate H..].
  split; [reflexivity|]. by apply Z.eqb_eq.
Qed.

(** Cached at time 0, assembled at time 9000. *)
Definition shown1 : ApiSignedQuote := mk_signed (shown_quote info1 quote1) "sig".
Definition cached_state : auth_state := record_quote_metrics Delivered Delivered 0 qout.2 qrun.2.
Definition assembled := handle_assemble_match_bundle_request pe1 ae1 "p" h1
  (fun _ => Ok (mk_assemble false None (QuotedOrder shown1 None) default_engine_options)) "" cached_state.
Lemma assembled_sent : length (a_sent assembled.2) = S (length (a_sent cached_state)).
Proof. vm_compute. reflexivity. Qed.
Lemma qout_info : option_map (fun x => c_info x.2) qout.2 = Some info1.
Proof. vm_compute. reflexivity. Qed.
Definition assembled_out : BytesResponse * assembly_task :=
  match assembled.1 with Ok x => x | _ => (mk_reply 0 "", None) end.
Lemma assembled_ok : match assembled.1 with Ok (_, Some _) => true | _ => false end = true.
Proof. vm_compute. reflexivity. Qed.

End ExternalMatchWitness.
