(* ===== verification/Rfqt.v ===== *)
(** * The RFQ-T connector (auth-server: connectors/rfqt/, auth-server-api/src/rfqt.rs)

    Requests of 0x for price levels and firm quotes, translated to the market
    and external match requests of the relayer and back.  The handlers run the
    pipeline of [ExternalMatch] (authorization, limits, refunds, forwarding) on
    translated requests.  JSON, the text of numbers and addresses, and the
    relayer are parameters. *)
From Stdlib Require Import ZArith Lia.
From stdpp Require Import gmap strings list pretty.
From S2P Require Import Prelude F64 AuthError RateLimiter GasSponsorship ServerCache.
From S2P Require Import Settlement Stringify ExternalMatch.
Local Open Scope Z_scope.

(** ** Types (auth-server-api/src/rfqt.rs) *)
Record Level := mk_level { l_price : string; l_amount : string }.
Record TokenPairLevels := mk_levels { bids : list Level; asks : list Level }.
Definition RfqtLevelsResponse : Type := gmap string TokenPairLevels.

Record RfqtQuoteRequest := mk_rfqt {
  chain_id : Z;
  maker_token : Address;
  taker_token : Address;
  taker_amount : option Z;
  maker_amount : option Z;
  taker : string;
  rfqt_nonce : string;
  partial_fill_allowed : bool;
  spender : string;
  zid : string;
  app_id : string;
  fee_token : Address;
  fee_amount_bps : f64;
  fee_token_conversion_rate : f64;
}.
Record TokenAmount := mk_token_amount { ta_token : string; ta_amount : string }.
Record Consideration := mk_consideration {
  c_token : string;
  c_amount : string;
  counterparty : string;
  c_partial_fill_allowed : bool;
}.
Record OrderDetails := mk_details {
  permitted : TokenAmount;
  d_spender : string;
  d_nonce : string;
  d_deadline : string;
  consideration : Consideration;
}.
Record RfqtQuoteResponse := mk_rfqt_response {
  rr_order : OrderDetails;
  rr_signature : string;
  rr_fee_token : string;
  rr_fee_amount_bps : string;
  rr_fee_token_conversion_rate : string;
  rr_maker : string;
  rr_calldata : string;
  rr_price : option f64;
  max_taker_receive : option Z;
  min_taker_receive : option Z;
  max_taker_send : option Z;
  min_taker_send : option Z;
}.

(** A market with its depth: the fields in use. *)
Record MarketDepth := mk_depth {
  md_base : Address;
  md_price : f64;
  md_buy_quantity : Z;
  md_sell_quantity : Z;
}.

(** Codecs and text. *)
Class RfqtApi `{FP : FixedPointOps} := {
  GET_EXTERNAL_MATCH_QUOTE_ROUTE : string;
  ASSEMBLE_MATCH_BUNDLE_ROUTE : string;
  GET_MARKETS_DEPTH_ROUTE : string;
  levels_from_query : string -> option (option Z);    (* the [chainId] of a query *)
  relayer_get : string -> res AuthServerError (Z * string);
  depths_from_slice : string -> res string (list MarketDepth);
  rfqt_from_slice : string -> res AuthServerError RfqtQuoteRequest;
  rfqt_to_text : RfqtQuoteResponse -> bool -> string;
  address_to_hex_string : Address -> string;
  f64_to_string : f64 -> string;
  convert_to_decimal : Address -> Z -> f64;
  fp_to_f64 : fp -> f64;
}.

(** ** helpers.rs *)
Definition DEADLINE_OFFSET_SECONDS : Z := 70.
Definition SIGNATURE : string := "0x0".

Definition should_use_malleable_calldata (query_str : string) : bool :=
  negb (str_contains "malleableCalldata=false" query_str).

Definition chain_to_chain_id (c : Chain) : Z :=
  match c with
  | ArbitrumOne => 42161
  | ArbitrumSepolia => 421614
  | BaseMainnet => 8453
  | BaseSepolia => 84532
  | EthereumMainnet => 1
  | EthereumSepolia => 11155111
  | Devnet => 0
  end.

Definition validate_chain_id (provided_chain_id : Z) (server_chain : Chain)
    : res AuthServerError unit :=
  let server_chain_id := chain_to_chain_id server_chain in
  if negb (provided_chain_id =? server_chain_id)
  then Err (BadRequest ("Chain ID mismatch: expected " +:+ pretty server_chain_id +:+ ", got " +:+
                        pretty provided_chain_id)%string)
  else Ok tt.

Definition get_deadline (now_millis : Z) : Z := now_millis / 1000 + DEADLINE_OFFSET_SECONDS.

(** [transform_rfqt_to_external_order] never fails. *)
Definition transform_rfqt_to_external_order (req : RfqtQuoteRequest)
    : res AuthServerError ExternalOrder :=
  let exact := bool_decide (is_Some (maker_amount req)) in
  let min_fill_size :=
    if exact || partial_fill_allowed req then 0 else default 0 (taker_amount req) in
  Ok (mk_order (taker_token req) (maker_token req) (default 0 (taker_amount req))
        (default 0 (maker_amount req)) exact min_fill_size).

Definition create_quote_request (req : RfqtQuoteRequest) : res AuthServerError ExternalQuoteRequest :=
  external_order ← transform_rfqt_to_external_order req;
  Ok (mk_quote_request external_order default_engine_options).

Section Rfqt.
Context `{FP : FixedPointOps} `{AT : AddressText} `{R : Redis} `{TK : Tokens} {AS : AuthServer}
  {RA : RfqtApi}.
Abbreviation M := (eff auth_state AuthServerError).

Definition parse_levels_query_params (query_str : string) (server_chain : Chain)
    : res AuthServerError (option Z) :=
  params ← ok_or (levels_from_query query_str) (BadRequest "Invalid chain ID format");
  _ ← match params with
      | Some chain_id => validate_chain_id chain_id server_chain
      | None => Ok tt
      end;
  Ok params.

Definition parse_market_depths_response (status : Z) (body : string)
    : res AuthServerError (list MarketDepth) :=
  if negb ((200 <=? status) && (status <? 300))
  then Err (Custom ("upstream relayer returned " +:+ pretty status +:+ " for market-depths")%string)
  else map_err (fun e => Custom ("upstream relayer returned malformed JSON: " +:+ e)%string)
         (depths_from_slice body).

(** One side of a market: a level when there is depth. *)
Definition side_levels (base : Address) (price : f64) (quantity : Z) : list Level :=
  if quantity >? 0
  then [mk_level (f64_to_string price) (f64_to_string (convert_to_decimal base quantity))] else [].
Definition pair_key (base : Address) : string :=
  (address_to_hex_string base +:+ "/" +:+ addr_text tok_usdc)%string.
Definition transform_depth_to_levels (depths : list MarketDepth) : RfqtLevelsResponse :=
  foldl (fun pairs d =>
    <[pair_key (md_base d) :=
        mk_levels (side_levels (md_base d) (md_price d) (md_buy_quantity d))
          (side_levels (md_base d) (md_price d) (md_sell_quantity d))]> pairs) ∅ depths.

Definition transform_quote_to_assemble_malleable_ctx (quote : SponsoredQuoteResponse)
    (req_ctx : RequestContext ExternalQuoteRequest) : RequestContext AssembleExternalMatchRequest :=
  let assemble_request :=
    mk_assemble false None (QuotedOrder (sq_signed_quote quote) None) default_engine_options in
  mk_request_ctx ASSEMBLE_MATCH_BUNDLE_ROUTE (r_query_str req_ctx) (r_user req_ctx) (r_key_id req_ctx)
    (r_sdk_version req_ctx) (r_headers req_ctx) assemble_request None (r_request_id req_ctx).

Definition create_direct_match_request (req : RfqtQuoteRequest)
    : res AuthServerError AssembleExternalMatchRequest :=
  external_order ← transform_rfqt_to_external_order req;
  receiver ← ok_or (parse_address (taker req)) (BadRequest "Invalid taker address");
  Ok (mk_assemble false (Some receiver) (DirectOrder external_order) default_engine_options).

Definition build_rfqt_quote_response (now_millis : Z) (rfqt : RfqtQuoteRequest)
    (maker_token_addr : string) (maker_amount : Z) (taker_token_addr : string) (taker_amount : Z)
    (maker calldata : string) (price : option f64)
    (max_receive min_receive max_send min_send : option Z) : RfqtQuoteResponse :=
  let deadline := get_deadline now_millis in
  let permitted := mk_token_amount maker_token_addr (pretty maker_amount) in
  let consideration := mk_consideration taker_token_addr (pretty taker_amount) (taker rfqt)
                         (partial_fill_allowed rfqt) in
  let order := mk_details permitted (spender rfqt) (rfqt_nonce rfqt) (pretty deadline) consideration in
  mk_rfqt_response order SIGNATURE (address_to_hex_string (fee_token rfqt))
    (f64_to_string (fee_amount_bps rfqt)) (f64_to_string (fee_token_conversion_rate rfqt))
    maker calldata price max_receive min_receive max_send min_send.

Definition transform_match_bundle_to_rfqt_response (now_millis : Z) (bundle : MatchBundle)
    (rfqt : RfqtQuoteRequest) (malleable : bool) : res AuthServerError RfqtQuoteResponse :=
  maker ← ok_or (format_address <$> b_tx_to bundle)
            (Serde "Missing maker address in settlement transaction");
  calldata ← ok_or (b_tx_input bundle) (Serde "Missing settlement transaction input");
  let maker_token := address_to_hex_string (b_match_output_mint bundle) in
  let taker_token := address_to_hex_string (b_match_input_mint bundle) in
  let maker_amount := t_amount (b_max_receive bundle) in
  let taker_amount := t_amount (b_max_send bundle) in
  let opt {A} (a : A) := if malleable then Some a else None in
  Ok (build_rfqt_quote_response now_millis rfqt maker_token maker_amount taker_token taker_amount
        maker calldata (opt (fp_to_f64 (GasSponsorship.b_price_fp bundle)))
        (opt (t_amount (b_max_receive bundle))) (opt (t_amount (b_min_receive bundle)))
        (opt (t_amount (b_max_send bundle))) (opt (t_amount (b_min_send bundle)))).

(** ** levels.rs *)
Definition handle_rfqt_levels_request (env : pre_env) (server_chain : Chain) (headers : HeaderMap)
    (query_str : string) : M RfqtLevelsResponse :=
  _ ← on_server (authorize_request aes_decrypt (pe_validate env) (pe_auth_up env) (h_api_key headers));
  _ ← lift (parse_levels_query_params query_str server_chain);
  '(upstream_status, body) ← lift (relayer_get GET_MARKETS_DEPTH_ROUTE);
  depth_response ← lift (parse_market_depths_response upstream_status body);
  mret (transform_depth_to_levels depth_response).

(** ** quote.rs *)
Inductive RequestContextVariant :=
  | Malleable (ctx : RequestContext ExternalQuoteRequest)
  | Direct (ctx : RequestContext AssembleExternalMatchRequest).

Definition rfqt_pre_request (env : pre_env) (headers : HeaderMap) (body query_str : string)
    : M (RequestContextVariant * RfqtQuoteRequest) :=
  '(key_desc, key_id) ← on_server
     (authorize_request aes_decrypt (pe_validate env) (pe_auth_up env) (h_api_key headers));
  let sdk_version := get_sdk_version headers in
  rfq_request ← lift (rfqt_from_slice body);
  if should_use_malleable_calldata query_str then
    external_quote_request ← lift (create_quote_request rfq_request);
    _ ← lift (validate_request_body external_quote_request);
    ctx ← set_relayer_fee (pe_fee_up env)
      (mk_request_ctx GET_EXTERNAL_MATCH_QUOTE_ROUTE query_str key_desc key_id sdk_version headers
         external_quote_request None (pe_request_id env));
    mret (Malleable ctx, rfq_request)
  else
    assemble_request ← lift (create_direct_match_request rfq_request);
    _ ← lift (validate_request_body assemble_request);
    ctx ← set_relayer_fee (pe_fee_up env)
      (mk_request_ctx ASSEMBLE_MATCH_BUNDLE_ROUTE query_str key_desc key_id sdk_version headers
         assemble_request None (pe_request_id env));
    mret (Direct ctx, rfq_request).

Definition sponsor_rfqt_quote_response (ctx : ResponseContext ExternalQuoteRequest ApiSignedQuote)
    : res AuthServerError (SponsoredQuoteResponse * option CachedSponsorshipInfo) :=
  sq ← response ctx;
  match fst <$> p_sponsorship ctx with
  | Some sponsorship_info => construct_sponsored_quote_response sq sponsorship_info
  | None => Ok (mk_sponsored_quote sq None, None)
  end.

(** The reply is built from the bundle of the response context. *)
Definition rfqt_post_request (malleable : bool) (now_millis : Z) (req : RfqtQuoteRequest)
    (resp : BytesResponse) (ctx : ResponseContext AssembleExternalMatchRequest MatchBundle)
    : res AuthServerError BytesResponse :=
  if negb (is_success ctx) then Ok resp
  else
    match_bundle ← response ctx;
    rfqt_response ← transform_match_bundle_to_rfqt_response now_millis match_bundle req malleable;
    Ok (mk_reply (reply_status resp) (rfqt_to_text rfqt_response true)).
Definition rfqt_post_request_malleable := rfqt_post_request true.
Definition rfqt_post_request_direct := rfqt_post_request false.

(** The writes of the sponsorship entry, their time, and the time of the reply. *)
Record rfqt_env := mk_rfqt_env {
  fe_write : transport * transport;
  fe_write_now : Z;
  fe_now : Z;
}.

Definition handle_direct_match (ae : assemble_env) (fe : rfqt_env)
    (ctx : RequestContext AssembleExternalMatchRequest) (req : RfqtQuoteRequest)
    : M (BytesResponse * assembly_task) :=
  ctx ← assembly_pre_request ae ctx;
  '(raw_resp, resp_ctx) ← forward_request match_from_slice (ae_nonce ae) ctx;
  '(res, task) ← lift (assembly_post_request raw_resp resp_ctx);
  res ← lift (rfqt_post_request_direct (fe_now fe) req res resp_ctx);
  mret (res, task).

Definition handle_quote_and_assemble (qe : quote_env) (ae : assemble_env) (fe : rfqt_env)
    (quote_req_ctx : RequestContext ExternalQuoteRequest) (rfqt_request : RfqtQuoteRequest)
    : M (BytesResponse * assembly_task) :=
  quote_req_ctx ← quote_pre_request qe quote_req_ctx;
  '(quote_raw_resp, quote_resp_ctx) ← forward_request quote_from_slice (qe_nonce qe) quote_req_ctx;
  if negb (is_success quote_resp_ctx) then mret (quote_raw_resp, None)
  else
    '(sponsored_quote, cached_info) ← lift (sponsor_rfqt_quote_response quote_resp_ctx);
    _ ← match cache_entry generate_quote_uuid sponsored_quote cached_info with
        | Some (key, info) =>
            write_sponsorship_info_to_redis (fe_write fe).1 (fe_write fe).2 (fe_write_now fe) key info
        | None => mret tt
        end;
    let assemble_req_ctx := transform_quote_to_assemble_malleable_ctx sponsored_quote quote_req_ctx in
    assemble_req_ctx ← assembly_pre_request ae assemble_req_ctx;
    '(assemble_raw_resp, assemble_resp_ctx) ←
       forward_request match_from_slice (ae_nonce ae) assemble_req_ctx;
    '(assemble_res, task) ← lift (assembly_post_request assemble_raw_resp assemble_resp_ctx);
    assemble_res ← lift (rfqt_post_request_malleable (fe_now fe) rfqt_request assemble_res assemble_resp_ctx);
    mret (assemble_res, task).

Definition handle_rfqt_quote_request (pe : pre_env) (qe : quote_env) (ae : assemble_env)
    (fe : rfqt_env) (headers : HeaderMap) (body query_str : string)
    : M (BytesResponse * assembly_task) :=
  '(ctx, rfqt_request) ← rfqt_pre_request pe headers body query_str;
  match ctx with
  | Malleable quote_ctx => handle_quote_and_assemble qe ae fe quote_ctx rfqt_request
  | Direct assemble_ctx => handle_direct_match ae fe assemble_ctx rfqt_request
  end.

(** ** Lemmas *)
#[local] Hint Resolve check_only_bind check_only_lift check_only_ret check_only_authorize
  check_only_set_fee check_only_assembly_pre check_only_quote_pre : ext.

(** The second half of both flows. *)
Definition assemble_and_reply (malleable : bool) (ae : assemble_env) (fe : rfqt_env)
    (req : RfqtQuoteRequest) (ctx : RequestContext AssembleExternalMatchRequest)
    : M (BytesResponse * assembly_task) :=
  ctx ← assembly_pre_request ae ctx;
  '(raw_resp, resp_ctx) ← forward_request match_from_slice (ae_nonce ae) ctx;
  '(res, task) ← lift (assembly_post_request raw_resp resp_ctx);
  res ← lift (rfqt_post_request malleable (fe_now fe) req res resp_ctx);
  mret (res, task).

Lemma handle_direct_match_eq ae fe ctx req :
  handle_direct_match ae fe ctx req = assemble_and_reply false ae fe req ctx.
Proof. reflexivity. Qed.

Lemma assembly_pre_info env ctx s ctx' s' :
  assembly_pre_request env ctx s = (Ok ctx', s') -> is_Some (r_sponsorship_info ctx').
Proof.
  unfold assembly_pre_request. intros Ha. apply eff_bind_Ok in Ha as (? & ? & _ & Ha).
  case_match; [discriminate Ha|]. apply eff_bind_Ok in Ha as (? & ? & _ & Ha).
  apply eff_bind_Ok in Ha as ([i c] & ? & _ & [= <- _]). destruct c. by eexists.
Qed.

(** A successful assembly: the bundle of the relayer, the sponsored bundle that is
    recorded, and the reply, which is made from the former. *)
Lemma assemble_and_reply_ok malleable ae fe req ctx s reply actx s' :
  assemble_and_reply malleable ae fe req ctx s = (Ok (reply, Some actx), s') ->
  exists ctx' s1 body b i sp resp,
    assembly_pre_request ae ctx s = (Ok ctx', s1) /\ r_sponsorship_info ctx' = Some i /\
    relayer (r_path ctx') (RAssemble (r_body ctx')) = Ok (STATUS_OK, body) /\
    match_from_slice body = Ok b /\
    sponsor_match_response call_rest decode_settle encode_sponsor decode_sponsor sign_options
      gas_sponsor_address b (Some (i, ae_nonce ae)) = Ok sp /\
    p_response actx = Some sp /\ p_sponsorship actx = Some (i, ae_nonce ae) /\
    transform_match_bundle_to_rfqt_response (fe_now fe) b req malleable = Ok resp /\
    reply = mk_reply STATUS_OK (rfqt_to_text resp true).
Proof.
  unfold assemble_and_reply. intros Hrun.
  apply eff_bind_Ok in Hrun as (ctx' & s1 & Ha & Hrun). pose proof (assembly_pre_info _ _ _ _ _ Ha) as [i Hi].
  apply eff_bind_Ok in Hrun as ([raw c] & s2 & Hf & Hrun).
  apply forward_ok in Hf as (status & body & response & Hrel & -> & -> & Hresp).
  apply eff_bind_Ok in Hrun as ([reply1 task] & s3 & [Hpost ->]%lift_Ok & Hrun).
  apply eff_bind_Ok in Hrun as (reply2 & s3 & [Hrf ->]%lift_Ok & [= <- -> _]).
  unfold assembly_post_request, rfqt_post_request, is_success in *. cbn in Hpost, Hrf.
  destruct (Z.eqb_spec status STATUS_OK) as [-> |]; cbn in Hpost, Hrf; [|discriminate Hpost].
  destruct Hresp as (b & -> & Hb).
  apply bind_Ok_inv in Hpost as (sp & Hsp & [= <- <-]). cbn in Hsp, Hrf. rewrite Hi in Hsp.
  apply bind_Ok_inv in Hrf as (resp & Htr & [= <-]).
  exists ctx', s1, body, b, i, sp, resp. split_and!; try done. cbn. by rewrite Hi.
Qed.

(** The request that a handled RFQ-T request assembles, for both flows. *)
Lemma handle_rfqt_ok pe qe ae fe h body q s reply actx s' :
  handle_rfqt_quote_request pe qe ae fe h body q s = (Ok (reply, Some actx), s') ->
  exists rfq ctx s1, rfqt_from_slice body = Ok rfq /\
    assemble_and_reply (should_use_malleable_calldata q) ae fe rfq ctx s1 = (Ok (reply, Some actx), s') /\
    if should_use_malleable_calldata q then exists sq, a_order (r_body ctx) = QuotedOrder sq None
    else exists o, transform_rfqt_to_external_order rfq = Ok o /\ a_order (r_body ctx) = DirectOrder o.
Proof.
  unfold handle_rfqt_quote_request, rfqt_pre_request. intros Hrun.
  apply eff_bind_Ok in Hrun as ([v rfq] & s1 & Hpre & Hrun).
  apply eff_bind_Ok in Hpre as ([user key] & s2 & _ & Hpre).
  apply eff_bind_Ok in Hpre as (rfq' & s3 & [Hr ->]%lift_Ok & Hpre).
  destruct (should_use_malleable_calldata q).
  - do 3 (apply eff_bind_Ok in Hpre as (? & ? & _ & Hpre)). injection Hpre as <- <- <-.
    unfold handle_quote_and_assemble in Hrun.
    apply eff_bind_Ok in Hrun as (ctx & s5 & _ & Hrun). apply eff_bind_Ok in Hrun as ([raw c] & s6 & _ & Hrun).
    destruct (negb (is_success c)); [discriminate Hrun|].
    apply eff_bind_Ok in Hrun as ([sp ci] & s7 & _ & Hrun). apply eff_bind_Ok in Hrun as ([] & s8 & _ & Hrun).
    eexists rfq', _, s8. split_and!; [done|exact Hrun|]. by eexists.
  - apply eff_bind_Ok in Hpre as (areq & s4 & [Hd ->]%lift_Ok & Hpre).
    apply eff_bind_Ok in Hpre as ([] & s4 & [_ ->]%lift_Ok & Hpre).
    apply eff_bind_Ok in Hpre as (ctx & s4 & Hfee & [= <- <- <-]).
    exists rfq', ctx, s4. split_and!; [done|exact Hrun|].
    unfold create_direct_match_request in Hd. apply bind_Ok_inv in Hd as (o & Ho & Hd).
    apply bind_Ok_inv in Hd as (rcv & _ & [= <-]). exists o. split; [done|].
    unfold set_relayer_fee in Hfee. do 2 (apply eff_bind_Ok in Hfee as (? & ? & _ & Hfee)).
    by injection Hfee as <- _.
Qed.

(** What the assembly of a direct order sends. *)
Lemma assembly_pre_direct env ctx s ctx' s' o :
  a_order (r_body ctx) = DirectOrder o ->
  assembly_pre_request env ctx s = (Ok ctx', s') ->
  exists i o' check, maybe_sponsor_order tok_usdc tok_weth tok_native usdc_to_decimal get_protocol_fee
      (se_price (ae_sponsor env)) (se_eth_price (ae_sponsor env)) (se_price_usd (ae_sponsor env)) check
      min_sponsored_order_quote_amount
      (se_gas (ae_sponsor env)) (parse_sponsorship_query (r_query_str ctx)) (r_user ctx) o = Ok (i, o') /\
    a_order (r_body ctx') = DirectOrder o' /\ r_sponsorship_info ctx' = Some i.
Proof.
  intros Ho. unfold assembly_pre_request. intros Ha. apply eff_bind_Ok in Ha as (? & ? & _ & Ha).
  case_match; [discriminate Ha|].
  apply eff_bind_Ok in Ha as (ctx2 & s2 & (_ & b & Hb & ->)%route_ok & Ha).
  assert (a_order b = DirectOrder o) as Hob by (by destruct Hb as [-> | ->]).
  apply eff_bind_Ok in Ha as ([i c] & s3 & Hs & [= <- _]).
  unfold sponsor_assembly_request in Hs. destruct ctx as [p q u k v h b0 i0 r]. cbn in Hs.
  rewrite Hob in Hs. apply eff_bind_Ok in Hs as ([i' o'] & s4 & Hs & [= <- <- _]).
  unfold sponsor_order in Hs. injection Hs as Hs _. cbn. eauto 10.
Qed.

(** The state in which the malleable flow assembles is the one in which the
    task of an ordinary quote would have left the sponsorship entries. *)
Lemma write_cached fe task (s s' : auth_state) :
  match task with
  | Some (key, info) =>
      write_sponsorship_info_to_redis (fe_write fe).1 (fe_write fe).2 (fe_write_now fe) key info
  | None => mret tt
  end s = (Ok tt, s') ->
  s' = record_quote_metrics Delivered Delivered (fe_write_now fe) task s.
Proof.
  destruct task as [[key info]|]; [|by intros [= ->]].
  unfold write_sponsorship_info_to_redis, record_quote_metrics.
  destruct fe as [[[] []] w n]; cbn; try done; intros [= <-]; done.
Qed.

Lemma write_sent fe task (s : auth_state) :
  a_sent (match task with
  | Some (key, info) =>
      write_sponsorship_info_to_redis (fe_write fe).1 (fe_write fe).2 (fe_write_now fe) key info
  | None => mret tt
  end s).2 = a_sent s.
Proof.
  destruct task as [[key info]|]; [|done]. unfold write_sponsorship_info_to_redis.
  by destruct fe as [[[] []] w n].
Qed.
Lemma record_sent t t' now task (s : auth_state) : a_sent (record_quote_metrics t t' now task s) = a_sent s.
Proof. destruct task as [[key info]|]; [|done]. by destruct t, t'. Qed.
End Rfqt.

(** ** Theorems *)

(** Every RFQ-T quote is answered with the bundle of the relayer as it is:
    its target, its calldata and its amounts.  The sponsored bundle, whose
    calldata carries the refund and the nonce under which the bundle is filed,
    is recorded but never sent: an RFQ-T trade gets no refund, and its nonce is
    never seen on chain. *)
Theorem rfqt_replies_unsponsored `{FP : FixedPointOps} `{AT : AddressText} `{R : Redis} `{TK : Tokens}
    {AS : AuthServer} {RA : RfqtApi} pe qe ae fe h body q s reply actx s' :
  handle_rfqt_quote_request pe qe ae fe h body q s = (Ok (reply, Some actx), s') ->
  exists i text b sp resp to call opts,
    match_from_slice text = Ok b /\ reply_body reply = rfqt_to_text resp true /\
    b_tx_to b = Some to /\ rr_maker resp = format_address to /\
    b_tx_input b = Some (rr_calldata resp) /\
    ta_amount (permitted (rr_order resp)) = pretty (t_amount (b_max_receive b)) /\
    p_sponsorship actx = Some (i, ae_nonce ae) /\ p_response actx = Some sp /\
    b_tx_to (sm_bundle sp) = Some gas_sponsor_address /\
    b_tx_input (sm_bundle sp) = Some (encode_sponsor call opts) /\
    go_nonce opts = ae_nonce ae /\ go_refund_amount opts = refund_amount i.
Proof.
  intros (rfq & ctx & s1 & _ & Hrun & _)%handle_rfqt_ok.
  apply assemble_and_reply_ok in Hrun
    as (ctx' & s2 & text & b & i & sp & resp & _ & _ & _ & Hb & Hsp & Hresp & Hspon & Htr & ->).
  apply sponsored_match_tx in Hsp as (call & opts & _ & Hto & Hin & Hn & Hr).
  unfold transform_match_bundle_to_rfqt_response in Htr. apply bind_Ok_inv in Htr as (maker & Hm & Htr).
  apply bind_Ok_inv in Htr as (cd & Hcd & [= <-]).
  destruct (b_tx_to b) as [to|] eqn:Eto; [|discriminate Hm]. injection Hm as <-.
  destruct (b_tx_input b) as [inp|] eqn:Einp; [|discriminate Hcd]. injection Hcd as <-.
  eexists i, text, b, sp, _, to, call, opts. by split_and!.
Qed.

(** An RFQ-T order for an exact amount of the maker token: when it is granted
    a refund in kind, the relayer is asked for the amount less the refund, and
    the reply offers that smaller amount. *)
Theorem rfqt_exact_output_short `{FP : FixedPointOps} `{AT : AddressText} `{R : Redis} `{TK : Tokens}
    {AS : AuthServer} {RA : RfqtApi} pe qe ae fe h body q s reply actx s' rfq m i n :
  (** the relayer fills an exact output exactly *)
  (forall p req o text b, a_order req = DirectOrder o -> use_exact_output_amount o = true ->
     relayer p (RAssemble req) = Ok (STATUS_OK, text) -> match_from_slice text = Ok b ->
     t_amount (b_max_receive b) = o_output_amount o) ->
  should_use_malleable_calldata q = false ->
  rfqt_from_slice body = Ok rfq -> maker_amount rfq = Some m -> in_u 128 m ->
  handle_rfqt_quote_request pe qe ae fe h body q s = (Ok (reply, Some actx), s') ->
  p_sponsorship actx = Some (i, n) -> requires_match_result_update i = true -> refund_amount i <= m ->
  m - refund_amount i < m /\
  exists resp, reply_body reply = rfqt_to_text resp true /\
    ta_amount (permitted (rr_order resp)) = pretty (m - refund_amount i).
Proof.
  intros Hexact Hmal Hrfq Hm Hu Hrun Hi Hupd Hle. pose proof (requires_update_pos _ Hupd).
  split; [lia|]. apply handle_rfqt_ok in Hrun as (rfq' & ctx & s1 & Hr & Hrun & Ho).
  rewrite Hmal in Hrun, Ho. rewrite Hrfq in Hr. injection Hr as <-. destruct Ho as (o & [= <-] & Ho).
  apply assemble_and_reply_ok in Hrun
    as (ctx' & s2 & text & b & i' & sp & resp & Ha & Hi' & Hrel & Hb & _ & _ & Hspon & Htr & ->).
  rewrite Hi in Hspon. injection Hspon as <- _.
  pose proof (assembly_pre_direct _ _ _ _ _ _ Ho Ha) as (i'' & o' & check & Hms & Ho' & Hi'').
  rewrite Hi' in Hi''. injection Hi'' as <-.
  apply maybe_sponsor_exact in Hms; [|cbn; by rewrite Hm|done]. subst o'. rewrite Hm in Ho'. cbn in Ho'.
  pose proof (Hexact _ _ _ _ _ Ho' ltac:(done) Hrel Hb) as Hmax. cbn in Hmax.
  exists resp. split; [done|]. unfold transform_match_bundle_to_rfqt_response in Htr.
  apply bind_Ok_inv in Htr as (? & _ & Htr). apply bind_Ok_inv in Htr as (? & _ & [= <-]). cbn.
  rewrite Hmax. unfold usub, uwrap. rewrite Z.mod_small; [done|]. unfold in_u in Hu. lia.
Qed.

(** The malleable flow caches the sponsorship before it assembles, so the
    relayer always gets back the quote it signed, provided the entry is read
    within ten seconds; the handler sends it at most two requests. *)
Theorem rfqt_assembles_signed_quote `{FP : FixedPointOps} `{AT : AddressText} `{R : Redis}
    `{TK : Tokens} {AS : AuthServer} {RA : RfqtApi} qe ae fe ctx req s r s' :
  (forall b sq, quote_from_slice b = Ok sq -> quote_wf (s_quote sq)) ->
  ae_read ae = Delivered -> ae_read_now ae < fe_write_now fe + MAX_QUOTE_AGE_MS ->
  handle_quote_and_assemble qe ae fe ctx req s = (r, s') ->
  a_sent s' = a_sent s \/
  (exists p1 qr, a_sent s' = a_sent s ++ [(p1, RQuote qr)]) \/
  (exists p1 qr p2 areq text sq,
    a_sent s' = a_sent s ++ [(p1, RQuote qr); (p2, RAssemble areq)] /\
    relayer p1 (RQuote qr) = Ok (STATUS_OK, text) /\ quote_from_slice text = Ok sq /\
    (a_sponsored s !! generate_quote_uuid (s_signature sq) = None -> a_order areq = QuotedOrder sq None)).
Proof.
  intros Hwf Hread Hnow Hrun. unfold handle_quote_and_assemble in Hrun.
  apply eff_bind_cases in Hrun as [(qctx & s1 & Hq & Hrun)| ->];
    [|left; apply (check_only_quote_pre qe ctx s)].
  pose proof (check_run _ _ _ _ (check_only_quote_pre _ _) Hq) as (Hsp1 & _ & Hs1 & _).
  pose proof (forward_state quote_from_slice (qe_nonce qe) qctx s1) as Hfs.
  right. apply eff_bind_cases in Hrun as [([raw c] & s2 & Hf & Hrun)| ->]; [|left; rewrite Hfs; cbn; rewrite Hs1; eauto].
  rewrite Hf in Hfs. cbn in Hfs.
  assert (Hs2 : a_sent s2 = a_sent s ++ [(r_path qctx, RQuote (r_body qctx))]) by (subst s2; cbn; by rewrite Hs1).
  assert (Hsp2 : a_sponsored s2 = a_sponsored s) by (by subst s2).
  clear Hfs. apply forward_ok in Hf as (status & text & resp & Hrel & -> & -> & Hresp).
  unfold is_success in Hrun. cbn in Hrun.
  destruct (Z.eqb_spec status STATUS_OK) as [-> |]; cbn in Hrun; [|injection Hrun as _ <-; eauto].
  destruct Hresp as (sq & -> & Hsq).
  apply eff_bind_cases in Hrun as [([sresp ci] & s3 & [Hsr ->]%lift_Ok & Hrun)| ->]; [|eauto].
  apply quote_pre_info in Hq as (i & Hi & _). cbn in Hsr. rewrite Hi in Hsr. cbn in Hsr.
  apply eff_bind_cases in Hrun as [([] & s3 & Hw & Hrun)| ->];
    [|left; exists (r_path qctx), (r_body qctx); rewrite <- Hs2; apply write_sent].
  apply write_cached in Hw.
  assert (Hs3 : a_sent s3 = a_sent s2).
  { subst s3. apply record_sent. }
  apply eff_bind_cases in Hrun as [(actx & s4 & Ha & Hrun)| ->];
    [|left; exists (r_path qctx), (r_body qctx); rewrite <- Hs2, <- Hs3; apply (check_only_assembly_pre ae _ s3)].
  pose proof (check_run _ _ _ _ (check_only_assembly_pre _ _) Ha) as (_ & _ & Hs4 & _).
  right. exists (r_path qctx), (r_body qctx), (r_path actx), (r_body actx), text, sq.
  rewrite <- (f_equal snd Hrun : _ = s'). cbn [snd].
  split_and!; [|done..|].
  - rewrite forward_bind_state; [cbn; by rewrite Hs4, Hs3, Hs2, <- app_assoc|].
    intros [raw2 c2] s5. unfold mbind, eff_bind, lift. destruct (assembly_post_request raw2 c2) as [[]| |]; [|done..].
    by destruct (rfqt_post_request_malleable _ _ _ _).
  - intros Hempty. eapply assembly_pre_quoted in Ha as (sq' & upd & i' & Hso & Hord & _); [|done].
    rewrite Hord. specialize (Hso _ (fun k => eq_refl)). rewrite Hread in Hso.
    rewrite (answered_quote_restored sq i sresp ci (fe_write_now fe) (ae_read_now ae) s2 s3) in Hso;
      [by injection Hso as <- <- _|by eapply Hwf|done|by rewrite Hsp2|by subst s3|done].
Qed.

(** *** Levels *)
#[export] Instance chain_id_inj : Inj (=) (=) chain_to_chain_id.
Proof. intros [] []; cbn; intros H; (reflexivity || discriminate H). Qed.

(** A levels request is refused as a bad request exactly when its query cannot
    be read or names a chain other than that of the server. *)
Theorem levels_chain_checked `{FP : FixedPointOps} {RA : RfqtApi} q chain :
  match levels_from_query q with
  | None => exists e, parse_levels_query_params q chain = Err e /\ error_status e = 400
  | Some None => parse_levels_query_params q chain = Ok None
  | Some (Some id) =>
      if id =? chain_to_chain_id chain then parse_levels_query_params q chain = Ok (Some id)
      else exists e, parse_levels_query_params q chain = Err e /\ error_status e = 400
  end.
Proof.
  unfold parse_levels_query_params, validate_chain_id.
  destruct (levels_from_query q) as [[id|]|]; cbn; [|done|by eexists].
  destruct (id =? chain_to_chain_id chain); cbn; [done|by eexists].
Qed.

(** A failure of the relayer is the server's, not the client's. *)
Theorem upstream_failure_is_500 `{FP : FixedPointOps} {RA : RfqtApi} status body e :
  parse_market_depths_response status body = Err e -> error_status e = 500.
Proof.
  unfold parse_market_depths_response. case_match; [by intros [= <-]|].
  by destruct (depths_from_slice body); intros [= <-].
Qed.

(** The levels of a market: those of the last entry for its base token. *)
Lemma levels_lookup `{FP : FixedPointOps} `{TK : Tokens} {RA : RfqtApi} depths d :
  transform_depth_to_levels (depths ++ [d]) !! pair_key (md_base d)
    = Some (mk_levels (side_levels (md_base d) (md_price d) (md_buy_quantity d))
              (side_levels (md_base d) (md_price d) (md_sell_quantity d))).
Proof. unfold transform_depth_to_levels. rewrite foldl_snoc. apply lookup_insert_eq. Qed.

(** ** Witnesses *)
Module RfqtWitness.
Import SponsorshipWitness ExternalMatchWitness.
#[local] Existing Instance fp63.
#[local] Existing Instance binary_text.
#[local] Existing Instance RateLimiterWitness.kv_redis.
#[local] Existing Instance tokens1.

(** An order for exactly 1000 units of token 1. *)
Definition rfq1 : RfqtQuoteRequest :=
  mk_rfqt 42161 1 7 None (Some 1000) (format_z 5) "1" true "spender" "zid" "app" 7 f1 f1.
#[local] Instance api1 : RfqtApi := {|
  GET_EXTERNAL_MATCH_QUOTE_ROUTE := "quote"; ASSEMBLE_MATCH_BUNDLE_ROUTE := "assemble";
  GET_MARKETS_DEPTH_ROUTE := "depth"; levels_from_query _ := Some None;
  relayer_get _ := Ok (200, ""%string); depths_from_slice _ := Ok [];
  rfqt_from_slice _ := Ok rfq1;
  rfqt_to_text r _ := ta_amount (permitted (rr_order r));
  address_to_hex_string := format_z; f64_to_string _ := "x"; convert_to_decimal _ z := of_Z z;
  fp_to_f64 _ := f1;
|}.
(** A relayer that fills exact outputs exactly: the text of its answer is the
    amount. *)
#[local] Instance server2 : AuthServer := {|
  get_external_order_ref := get_external_order_ref (AuthServer := server1);
  aes_decrypt s := Ok s; GLOBAL_MATCHING_POOL := "global";
  parse_sponsorship_query _ := Ok (mk_params None None None None);
  duration_round := RateLimiterWitness.round; format_window := RateLimiterWitness.fmt;
  generate_quote_uuid := uuid1;
  call_rest := unit; decode_settle _ := Some (mk_settle unit 100 tt);
  encode_sponsor := enc; decode_sponsor := dec; sign_options _ _ _ _ := Ok "sig"%string;
  get_protocol_fee _ _ := 0; limiter := new_rate_limiter 5 2 f1; gas_sponsor_address := 77;
  min_sponsored_order_quote_amount := f1;
  relayer _ b := Ok (200, match b with
    | RQuote _ => "quote"%string
    | RAssemble r =>
        match a_order r with DirectOrder o => format_z (o_output_amount o) | _ => "z"%string end
    end);
  quote_from_slice _ := Ok signed1;
  match_from_slice text :=
    match parse_z text with
    | Some n => Ok (mk_bundle 7 1 SCALE (mk_transfer 1 n) (mk_transfer 1 n) (mk_transfer 7 100)
                      (mk_transfer 7 100) (Some 3) (Some "settle"%string))
    | None => Err "not a number"%string
    end;
  quote_to_text _ _ := "sponsored quote"%string; match_to_text _ _ := "sponsored match"%string;
|}.

Definition fe1 : rfqt_env := mk_rfqt_env (Delivered, Delivered) 0 0.
Definition direct : string := "malleableCalldata=false".
Definition drun := handle_rfqt_quote_request pe1 qe1 ae1 fe1 h1 "" direct s0.
Definition dout : BytesResponse * assembly_task :=
  match drun.1 with Ok x => x | _ => (mk_reply 0 "", None) end.
Definition dtask : ResponseContext AssembleExternalMatchRequest SponsoredMatchResponse :=
  match dout.2 with
  | Some c => c
  | None => mk_response "" "" "" "" h1 body1 0 None None ""
  end.

(** The refund is 25 units, the reply offers 975. *)
Lemma drun_facts :
  match drun.1 with
  | Ok (r, Some c) =>
      match p_sponsorship c with
      | Some (i, _) => requires_match_result_update i && (refund_amount i =? 25)
      | None => false
      end && bool_decide (reply_body r = "975"%string)
  | _ => false
  end = true.
Proof. vm_compute. reflexivity. Qed.
Lemma drun_ok : drun = (Ok (dout.1, Some dtask), drun.2).
Proof.
  pose proof drun_facts as H. unfold dtask, dout. destruct drun as [[[r [c|]]| |] s]; [|discriminate H..].
  reflexivity.
Qed.

Lemma rfqt_replies_unsponsored_witness :
  exists sp, p_response dtask = Some sp /\ b_tx_to (sm_bundle sp) = Some 77.
Proof.
  destruct (rfqt_replies_unsponsored pe1 qe1 ae1 fe1 h1 "" direct s0 dout.1 dtask drun.2 drun_ok)
    as (i & text & b & sp & resp & to & call & opts & _ & _ & _ & _ & _ & _ & _ & Hsp & Hto & _).
  exists sp. split; [exact Hsp|exact Hto].
Defined.

Lemma relayer_exact p req o text b :
  a_order req = DirectOrder o -> use_exact_output_amount o = true ->
  relayer p (RAssemble req) = Ok (STATUS_OK, text) -> match_from_slice text = Ok b ->
  t_amount (b_max_receive b) = o_output_amount o.
Proof.
  intros Ho _ [= <-]. cbn. rewrite Ho. rewrite parse_format_z. by intros [= <-].
Qed.
Lemma dtask_sponsorship : exists i n, p_sponsorship dtask = Some (i, n) /\
  requires_match_result_update i = true /\ refund_amount i = 25.
Proof.
  pose proof drun_facts as H. unfold dtask, dout. destruct drun.1 as [[r [c|]]| |]; [|discriminate H..].
  cbn. destruct (p_sponsorship c) as [[i n]|]; [|discriminate H]. exists i, n.
  apply andb_true_iff in H as [[H1 H2]%andb_true_iff _]. split_and!; [done..|by apply Z.eqb_eq].
Qed.

Lemma rfqt_exact_output_short_witness :
  exists resp, reply_body dout.1 = rfqt_to_text resp true /\
    ta_amount (permitted (rr_order resp)) = pretty (1000 - 25).
Proof.
  destruct dtask_sponsorship as (i & n & Hi & Hu & H25). rewrite <- H25.
  apply (rfqt_exact_output_short pe1 qe1 ae1 fe1 h1 "" direct s0 dout.1 dtask drun.2 rfq1 1000 i n
    relayer_exact); [reflexivity|reflexivity|reflexivity|unfold in_u; lia|apply drun_ok|done..|].
  rewrite H25. discriminate.
Defined.

(** The malleable flow from an empty store. *)
Definition mctx : RequestContext ExternalQuoteRequest :=
  mk_request_ctx "quote" "" "alice" 1 "sdk" h1 quote_body1 None "rid".
Definition mrun := handle_quote_and_assemble qe1 ae1 fe1 mctx rfq1 s0.
Lemma mrun_sent : length (a_sent mrun.2) = 2%nat.
Proof. vm_compute. reflexivity. Qed.
Lemma rfqt_assembles_signed_quote_witness :
  exists p1 qr p2 areq, a_sent mrun.2 = [(p1, RQuote qr); (p2, RAssemble areq)] /\
    exists sq, a_order areq = QuotedOrder sq None.
Proof.
  destruct (rfqt_assembles_signed_quote qe1 ae1 fe1 mctx rfq1 s0 mrun.1 mrun.2)
    as [H|[(p1 & qr & H)|(p1 & qr & p2 & areq & text & sq & H & _ & _ & Hsq)]].
  - intros b sq [= <-]. apply quote1_wf.
  - reflexivity.
  - reflexivity.
  - apply surjective_pairing.
  - pose proof mrun_sent as Hl. rewrite H in Hl. discriminate Hl.
  - pose proof mrun_sent as Hl. rewrite H in Hl. discriminate Hl.
  - exists p1, qr, p2, areq. split; [exact H|]. exists sq. apply Hsq. reflexivity.
Defined.
End RfqtWitness.
