(* ===== verification/Markets.v ===== *)
(** * Market data with the fees of the caller (auth-server: api_handlers/markets.rs,
    exchange_metadata.rs)

    The relayer's market replies are forwarded with the relayer fee rate of each
    market replaced by the fee of the API key that asks.  The rates are looked up
    by one task per market: for depths the replies are collected in the order of
    the markets, for the plain list in the order in which the tasks end. *)
From Stdlib Require Import ZArith Lia.
From stdpp Require Import gmap strings list.
From S2P Require Import Prelude F64 AuthError RateLimiter GasSponsorship ServerCache.
From S2P Require Import Settlement Stringify ExternalMatch.
Local Open Scope Z_scope.

Section Markets.
Context `{FP : FixedPointOps} `{AT : AddressText} `{R : Redis} `{TK : Tokens} {AS : AuthServer}.
Abbreviation M := (eff auth_state AuthServerError).
(** The fields of a market and of its depth that are passed through. *)
Context {market_rest depth_rest : Type}.

Record MarketInfo := mk_market {
  base_symbol : string;
  external_relayer_fee_rate : fp;
  market_other : market_rest;
}.
Record MarketDepth := mk_market_depth { depth_market : MarketInfo; depth_other : depth_rest }.
Record ExchangeMetadataResponse := mk_metadata {
  settlement_contract_address : Address;
  metadata_other : string;
}.

(** The relayer's answer to a GET, and the codecs. *)
Context (relayer_get : string -> res AuthServerError (Z * string))
  (depth_from_slice : string -> res string MarketDepth)
  (depths_from_slice : string -> res string (list MarketDepth))
  (markets_from_slice : string -> res string (list MarketInfo))
  (metadata_from_slice : string -> res string ExchangeMetadataResponse)
  (depth_to_text : MarketDepth -> bool -> string)
  (depths_to_text : list MarketDepth -> bool -> string)
  (markets_to_text : list MarketInfo -> bool -> string)
  (by_mint_route : string -> string)
  (GET_MARKETS_DEPTH_ROUTE GET_MARKETS_ROUTE GET_EXCHANGE_METADATA_ROUTE : string).

Definition status_is_success (status : Z) : bool := (200 <=? status) && (status <? 300).

(** *** markets.rs *)
Definition set_rate (rate : fp) (m : MarketInfo) : MarketInfo :=
  mk_market (base_symbol m) rate (market_other m).
Definition replace_external_match_fee_rate (up : bool) (user_id : Uuid) (m : MarketInfo) : M MarketInfo :=
  user_fee ← on_server (get_user_fee up user_id (base_symbol m));
  mret (set_rate (from_f64_round_down user_fee) m).

Definition handle_market_request_internal (path : string) : M BytesResponse :=
  '(status, body) ← lift (relayer_get path); mret (mk_reply status body).

Definition authorize (env : pre_env) (headers : HeaderMap) : M (string * Uuid) :=
  on_server (authorize_request aes_decrypt (pe_validate env) (pe_auth_up env) (h_api_key headers)).

Definition handle_market_depth_by_mint_request (env : pre_env) (mint : string) (headers : HeaderMap)
    : M BytesResponse :=
  '(_, key_id) ← authorize env headers;
  let should_stringify := should_stringify_numbers (h_accept headers) in
  resp ← handle_market_request_internal (by_mint_route mint);
  if negb (status_is_success (reply_status resp)) then mret resp
  else
    d ← lift (map_err Serde (depth_from_slice (reply_body resp)));
    market ← replace_external_match_fee_rate (pe_fee_up env) key_id (depth_market d);
    mret (mk_reply (reply_status resp) (depth_to_text (mk_market_depth market (depth_other d)) should_stringify)).

(** The tasks of the depths all run; their results are then collected in order.
    The flag of a task says whether the database answers it. *)
Fixpoint spawn_all (user_id : Uuid) (ds : list (bool * MarketDepth)) (s : auth_state)
    : list (res AuthServerError MarketDepth) * auth_state :=
  match ds with
  | [] => ([], s)
  | (up, d) :: ds =>
      let '(r, s) := replace_external_match_fee_rate up user_id (depth_market d) s in
      let '(rs, s) := spawn_all user_id ds s in
      ((m ← r; Ok (mk_market_depth m (depth_other d))) :: rs, s)
  end.
Fixpoint collect {A} (rs : list (res AuthServerError A)) : res AuthServerError (list A) :=
  match rs with
  | [] => Ok []
  | r :: rs => a ← r; l ← collect rs; Ok (a :: l)
  end.
Definition handle_all_markets_depth_request (env : pre_env) (ups : nat -> bool) (headers : HeaderMap)
    : M BytesResponse :=
  '(_, key_id) ← authorize env headers;
  let should_stringify := should_stringify_numbers (h_accept headers) in
  resp ← handle_market_request_internal GET_MARKETS_DEPTH_ROUTE;
  if negb (status_is_success (reply_status resp)) then mret resp
  else
    ds ← lift (map_err Serde (depths_from_slice (reply_body resp)));
    rs ← (fun s => let '(rs, s) := spawn_all key_id (imap (fun n d => (ups n, d)) ds) s in (Ok rs, s));
    market_depths ← lift (collect rs);
    mret (mk_reply (reply_status resp) (depths_to_text market_depths should_stringify)).

(** The tasks of the plain list in the order in which they end; the first error
    is returned, which stops the others. *)
Fixpoint join_all (user_id : Uuid) (ms : list (bool * MarketInfo)) : M (list MarketInfo) :=
  match ms with
  | [] => mret []
  | (up, m) :: ms =>
      m ← replace_external_match_fee_rate up user_id m;
      l ← join_all user_id ms;
      mret (m :: l)
  end.
(** [completion]: the markets in the order in which their tasks end. *)
Definition handle_all_markets_request (env : pre_env)
    (completion : list MarketInfo -> list (bool * MarketInfo)) (headers : HeaderMap) : M BytesResponse :=
  '(_, key_id) ← authorize env headers;
  let should_stringify := should_stringify_numbers (h_accept headers) in
  resp ← handle_market_request_internal GET_MARKETS_ROUTE;
  if negb (status_is_success (reply_status resp)) then mret resp
  else
    ms ← lift (map_err Serde (markets_from_slice (reply_body resp)));
    markets ← join_all key_id (completion ms);
    mret (mk_reply (reply_status resp) (markets_to_text markets should_stringify)).

(** *** exchange_metadata.rs *)
Definition handle_exchange_metadata_request (env : pre_env) (headers : HeaderMap)
    : M ExchangeMetadataResponse :=
  _ ← authorize env headers;
  '(_, body) ← lift (relayer_get GET_EXCHANGE_METADATA_ROUTE);
  response ← lift (map_err Serde (metadata_from_slice body));
  mret (mk_metadata gas_sponsor_address (metadata_other response)).

(** ** Lemmas *)
(** The market as the caller should see it. *)
Definition with_fee_of (d : Database) (key : Uuid) (m : MarketInfo) : MarketInfo :=
  set_rate (from_f64_round_down (effective_fee d key (base_symbol m))) m.

Lemma replace_ok up key m s m' s' :
  coherent (a_server s) -> replace_external_match_fee_rate up key m s = (Ok m', s') ->
  m' = with_fee_of (db (a_server s)) key m /\ checked s s'.
Proof.
  intros Hc Hr. assert (checked s s') as Hk.
  { eapply check_run; [|exact Hr]. unfold replace_external_match_fee_rate.
    apply check_only_bind; [apply check_only_fee|]. intros. apply check_only_ret. }
  split; [|done]. unfold replace_external_match_fee_rate in Hr.
  apply eff_bind_Ok in Hr as (fee & s1 & [Hf _]%on_server_Ok & [= <- _]).
  unfold with_fee_of. by rewrite (get_user_fee_effective _ _ _ _ _ Hc Hf).
Qed.

Lemma replace_checked up key m s : checked s (replace_external_match_fee_rate up key m s).2.
Proof.
  revert s. apply check_only_bind; [apply check_only_fee|]. intros. apply check_only_ret.
Qed.

Lemma join_all_ok key ms s l s' :
  coherent (a_server s) -> join_all key ms s = (Ok l, s') ->
  l = map (fun p => with_fee_of (db (a_server s)) key p.2) ms.
Proof.
  revert s l s'. induction ms as [|[up m] ms IH]; intros s l s' Hc Hj; [by injection Hj as <- _|].
  apply eff_bind_Ok in Hj as (m' & s1 & [-> (_ & _ & _ & Hdb & Hc1)]%replace_ok & Hj); [|done].
  apply eff_bind_Ok in Hj as (l' & s2 & Hj & [= <- _]). fold (join_all key ms) in Hj.
  apply IH in Hj as ->; [|auto]. cbn. by rewrite Hdb.
Qed.

Lemma spawn_all_ok key ds s rs s' l :
  coherent (a_server s) -> spawn_all key ds s = (rs, s') -> collect rs = Ok l ->
  l = map (fun p => mk_market_depth (with_fee_of (db (a_server s)) key (depth_market p.2)) (depth_other p.2)) ds.
Proof.
  revert s rs l s'. induction ds as [|[up d] ds IH]; intros s rs l s' Hc Hs Hl.
  { injection Hs as <- _. by injection Hl as <-. }
  cbn in Hs. pose proof (replace_checked up key (depth_market d) s) as (_ & _ & _ & Hdb & Hc1).
  pose proof (replace_ok up key (depth_market d) s) as Hrep.
  destruct (replace_external_match_fee_rate _ _ _ _) as [r s1].
  destruct (spawn_all key ds s1) as [rs' s2] eqn:Es. injection Hs as <- _.
  apply bind_Ok_inv in Hl as (a & Ha & Hl). apply bind_Ok_inv in Ha as (m & -> & [= <-]).
  apply bind_Ok_inv in Hl as (l' & Hl' & [= <-]).
  destruct (Hrep m s1 Hc eq_refl) as [-> _]. cbn. f_equal.
  rewrite (IH s1 rs' l' s2 (Hc1 Hc) Es Hl'). cbn in Hdb. by rewrite Hdb.
Qed.

Lemma authorize_ok env h s u key s' :
  authorize env h s = (Ok (u, key), s') ->
  (authorize_request aes_decrypt (pe_validate env) (pe_auth_up env) (h_api_key h) (a_server s)).1
    = Ok (u, key) /\ db (a_server s') = db (a_server s) /\
  (coherent (a_server s) -> coherent (a_server s')).
Proof.
  intros Ha. pose proof (check_run _ _ _ _ (check_only_authorize _ _ _ _) Ha) as (_ & _ & _ & Hd & Hc).
  apply on_server_Ok in Ha as [Ha _]. by split_and!.
Qed.

Lemma map_snd_imap {A B C} (g : nat -> A -> B) (f : A -> C) (l : list A) :
  map (fun p => f p.2) (imap (fun n d => (g n d, d)) l) = map f l.
Proof. revert g. induction l as [|a l IH]; intros g; [done|]. cbn. f_equal. apply IH. Qed.

(** ** Theorem *)

(** The markets and depths a caller is shown are those of the relayer, the
    depths in its order, each with the relayer fee rate that an order of the
    caller on that market is charged; errors of the relayer are passed on. *)
Theorem markets_show_callers_fees env ups completion h s reply s' :
  coherent (a_server s) -> (forall ms, map snd (completion ms) ≡ₚ ms) ->
  (handle_all_markets_request env completion h s = (Ok reply, s') ->
   exists u key status body,
     (authorize_request aes_decrypt (pe_validate env) (pe_auth_up env) (h_api_key h) (a_server s)).1
       = Ok (u, key) /\
     relayer_get GET_MARKETS_ROUTE = Ok (status, body) /\
     if status_is_success status then
       exists ms l, markets_from_slice body = Ok ms /\
         l ≡ₚ map (with_fee_of (db (a_server s)) key) ms /\
         reply = mk_reply status (markets_to_text l (should_stringify_numbers (h_accept h)))
     else reply = mk_reply status body) /\
  (handle_all_markets_depth_request env ups h s = (Ok reply, s') ->
   exists u key status body,
     (authorize_request aes_decrypt (pe_validate env) (pe_auth_up env) (h_api_key h) (a_server s)).1
       = Ok (u, key) /\
     relayer_get GET_MARKETS_DEPTH_ROUTE = Ok (status, body) /\
     if status_is_success status then
       exists ds, depths_from_slice body = Ok ds /\
         reply = mk_reply status (depths_to_text
           (map (fun d => mk_market_depth (with_fee_of (db (a_server s)) key (depth_market d))
                            (depth_other d)) ds) (should_stringify_numbers (h_accept h)))
     else reply = mk_reply status body).
Proof.
  intros Hc Hperm. split; intros Hrun.
  - apply eff_bind_Ok in Hrun as ([u key] & s1 & (Ha & Hd & Hc1)%authorize_ok & Hrun).
    apply eff_bind_Ok in Hrun as (resp & s2 & Hr & Hrun).
    apply eff_bind_Ok in Hr as ([status body] & s3 & [Hr ->]%lift_Ok & [= <- <-]). cbn in Hrun.
    exists u, key, status, body. split_and!; [done..|].
    destruct (status_is_success status); [|by injection Hrun as <- _]. cbn in Hrun.
    apply eff_bind_Ok in Hrun as (ms & s4 & [Hms ->]%lift_Ok & Hrun).
    apply eff_bind_Ok in Hrun as (l & s4 & Hj & [= <- _]). apply join_all_ok in Hj as ->; [|auto].
    exists ms. eexists. split_and!; [by eapply map_err_Ok| |done].
    rewrite Hd, <- map_map. by rewrite Hperm.
  - apply eff_bind_Ok in Hrun as ([u key] & s1 & (Ha & Hd & Hc1)%authorize_ok & Hrun).
    apply eff_bind_Ok in Hrun as (resp & s2 & Hr & Hrun).
    apply eff_bind_Ok in Hr as ([status body] & s3 & [Hr ->]%lift_Ok & [= <- <-]). cbn in Hrun.
    exists u, key, status, body. split_and!; [done..|].
    destruct (status_is_success status); [|by injection Hrun as <- _]. cbn in Hrun.
    apply eff_bind_Ok in Hrun as (ds & s4 & [Hds ->]%lift_Ok & Hrun).
    apply eff_bind_Ok in Hrun as (rs & s4 & Hs & Hrun).
    destruct (spawn_all key _ s1) as [rs' s5] eqn:Es. injection Hs as <- <-.
    apply eff_bind_Ok in Hrun as (l & s6 & [Hl ->]%lift_Ok & [= <- _]).
    rewrite (spawn_all_ok _ _ _ _ _ _ (Hc1 Hc) Es Hl), Hd.
    exists ds. split; [by eapply map_err_Ok|].
    by rewrite (map_snd_imap (fun n _ => ups n)
      (fun d => mk_market_depth (with_fee_of (db (a_server s)) key (depth_market d)) (depth_other d))).
Qed.
End Markets.

(** ** Witness *)
Module MarketsWitness.
Import SponsorshipWitness ExternalMatchWitness.
#[local] Existing Instance fp63.
#[local] Existing Instance binary_text.
#[local] Existing Instance RateLimiterWitness.kv_redis.
#[local] Existing Instance tokens1.
#[local] Existing Instance server1.

Definition m1 : @MarketInfo fp63 unit := mk_market "WETH" 5 tt.
Definition run := handle_all_markets_request (market_rest := unit) (fun _ => Ok (200, "m"%string))
  (fun _ => Ok [m1]) (fun l _ => match l with [m] => format_z (external_relayer_fee_rate m) | _ => "?"%string end)
  "markets" pe1 (map (pair true)) h1 s0.
Lemma run_reply : match run.1 with Ok r => bool_decide (reply_body r = "z"%string) | _ => false end = true.
Proof. vm_compute. reflexivity. Qed.

Lemma markets_show_callers_fees_witness :
  exists reply, run.1 = Ok reply /\ exists u key status body,
    (authorize_request aes_decrypt (pe_validate pe1) (pe_auth_up pe1) (h_api_key h1) (a_server s0)).1
      = Ok (u, key) /\ Ok (200, "m"%string) = @Ok AuthServerError _ (status, body).
Proof.
  pose proof run_reply as H. destruct run as [[reply| |] s'] eqn:E; [|discriminate H..].
  exists reply. split; [reflexivity|].
  destruct (markets_show_callers_fees (market_rest := unit) (depth_rest := unit)
    (fun _ => Ok (200, "m"%string)) (fun _ => Ok []) (fun _ => Ok [m1]) (fun _ _ => ""%string)
    (fun l _ => match l with [m] => format_z (external_relayer_fee_rate m) | _ => "?"%string end)
    "depth" "markets" pe1 (fun _ => true) (map (pair true)) h1 s0 reply s')
    as [(u & key & status & body & Ha & Hr & _) _].
  - apply d1_coherent.
  - intros ms. rewrite map_map. cbn. by rewrite map_id.
  - exact E.
  - exists u, key, status, body. split; [exact Ha|exact Hr].
Defined.
End MarketsWitness.
