(* ===== verification/PoolRunner.v ===== *)
(** * The pool runner (pool-runner/src/)

    The service moves user orders from the global matching pool into a managed
    pool, waits for a fill and moves them back.  [Routing] is the choice of a
    pool; [step] is the system of routing tasks: the registry of fill waiters
    (fill_waiter.rs) with its oneshot channels, the tasks of [execute_pool_match]
    (server/runner.rs), the pools the relayer has the orders in, and the updates
    of the admin websocket (admin_ws_listener.rs).  The relayer's admin API, the
    price reporter and the token map are parameters: a call may fail, with or
    without having taken effect. *)
From Stdlib Require Import ZArith Lia.
From stdpp Require Import gmap strings list.
From S2P Require Import Prelude F64 AuthError.
Local Open Scope Z_scope.

(** ** Routing (server/runner.rs, config.rs) *)
Record ManagedPool := mk_pool {
  pool_name : string;
  base_tickers : list string;
  min_value_usd : f64;
  max_value_usd : option f64;
}.
(** Milliseconds. *)
Definition FILL_TIMEOUT : Z := 30000.

Definition eligible (base_ticker : string) (value_usd : f64) (p : ManagedPool) : bool :=
  existsb (fun t => bool_decide (t = base_ticker)) (base_tickers p) &&
  fgeb value_usd (min_value_usd p) &&
  match max_value_usd p with None => true | Some max => fleb value_usd max end.
Definition select_managed_pool (pools : list ManagedPool) (base_ticker : string) (value_usd : f64)
    : option ManagedPool :=
  List.find (eligible base_ticker value_usd) pools.
Definition has_managed_pool_for_ticker (pools : list ManagedPool) (base_ticker : string) : bool :=
  existsb (fun p => existsb (fun t => bool_decide (t = base_ticker)) (base_tickers p)) pools.

(** The fields of an admin order that are used. *)
Record ApiAdminOrder := mk_order {
  order_id : Uuid;
  in_token : Address;
  out_token : Address;
  matchable_amount : Z;
  matching_pool : string;
}.

(** Errors are texts. *)
Abbreviation anyhow := string (only parsing).

Section Routing.
Context (usdc : Address) (token_ticker : Address -> option string)
  (convert_to_decimal : Address -> Z -> f64)
  (get_price : Address -> res PriceReporterClientError f64)
  (show_error : PriceReporterClientError -> string).

Definition extract_base_ticker (o : ApiAdminOrder) : option string :=
  if (in_token o =? usdc) && negb (out_token o =? usdc) then token_ticker (out_token o)
  else if negb (in_token o =? usdc) && (out_token o =? usdc) then token_ticker (in_token o)
  else None.

Definition compute_order_value_usd (o : ApiAdminOrder) (base_ticker : string) : res anyhow f64 :=
  if matchable_amount o =? 0 then Err "Order has zero matchable amount"%string
  else
    let quote_is_in := in_token o =? usdc in
    let base_token := if quote_is_in then out_token o else in_token o in
    if quote_is_in then Ok (convert_to_decimal usdc (matchable_amount o))
    else
      base_price ← map_err (fun e => ("Failed to get price for " +:+ (base_ticker +:+ (": " +:+ show_error e)))%string)
                     (get_price base_token);
      Ok (fmul (convert_to_decimal base_token (matchable_amount o)) base_price).

(** The decision of [try_route_user_order]: the pool to route to, [None] when the
    order is left alone. *)
Definition route_decision (pools : list ManagedPool) (o : ApiAdminOrder) : res anyhow (option ManagedPool) :=
  match extract_base_ticker o with
  | None => Ok None
  | Some base_ticker =>
      if negb (has_managed_pool_for_ticker pools base_ticker) then Ok None
      else
        value_usd ← compute_order_value_usd o base_ticker;
        Ok (select_managed_pool pools base_ticker value_usd)
  end.
End Routing.

Definition is_timeout_error (e : anyhow) : bool := str_contains "Fill timeout" e.
Definition timeout_error (pool_name : string) : anyhow :=
  ("Fill timeout after 30s in pool " +:+ pool_name)%string.

(** ** The registry and the routing tasks *)

(** A oneshot channel as its receiver sees it; a task's channel has the task's
    number, since each task registers once. *)
Inductive channel := ChanOpen | ChanSent | ChanClosed.

(** The result of [timeout(FILL_TIMEOUT, fill_rx)]. *)
Inductive fill_result := Filled | Closed | TimedOut.

(** [execute_pool_match], between its awaits. *)
Inductive phase :=
  | Assigning
  | Waiting (deadline : Z)
  | Reassigning (r : fill_result)
  | Cleanup (r : fill_result)
  | Done (r : res anyhow unit).
Record task := mk_task { t_order : Uuid; t_pool : string; t_phase : phase }.

Record system := mk_system {
  now : Z;
  waiters : gmap Uuid nat;          (* the sender registered for an order *)
  channels : gmap nat channel;
  tasks : gmap nat task;
  pools : gmap Uuid string;         (* where the relayer has the order *)
}.

Section Tasks.
Context (GLOBAL_MATCHING_POOL : string).

(** Dropping the sender an order has in the map closes its channel. *)
Definition drop_sender (o : Uuid) (s : system) : gmap nat channel :=
  match waiters s !! o with
  | Some j => match channels s !! j with
              | Some ChanOpen => <[j := ChanClosed]> (channels s)
              | _ => channels s
              end
  | None => channels s
  end.

(** *** fill_waiter.rs *)
Definition register (o : Uuid) (i : nat) (s : system) : system :=
  mk_system (now s) (<[o := i]> (waiters s)) (<[i := ChanOpen]> (drop_sender o s)) (tasks s) (pools s).
Definition notify (o : Uuid) (s : system) : bool * system :=
  match waiters s !! o with
  | Some j =>
      (true, mk_system (now s) (delete o (waiters s))
         (match channels s !! j with Some ChanOpen => <[j := ChanSent]> (channels s) | _ => channels s end)
         (tasks s) (pools s))
  | None => (false, s)
  end.
Definition remove (o : Uuid) (s : system) : system :=
  mk_system (now s) (delete o (waiters s)) (drop_sender o s) (tasks s) (pools s).

Definition set_phase (i : nat) (p : phase) (s : system) : system :=
  mk_system (now s) (waiters s) (channels s)
    (alter (fun t => mk_task (t_order t) (t_pool t) p) i (tasks s)) (pools s).
Definition set_pool (o : Uuid) (p : string) (s : system) : system :=
  mk_system (now s) (waiters s) (channels s) (tasks s) (<[o := p]> (pools s)).

(** A call of [admin_assign_order_to_pool]. *)
Inductive call := CallOk | CallFailed (applied : bool) (e : string).
Definition admin_assign_order_to_pool (c : call) (o : Uuid) (p : string) (s : system) : system :=
  match c with
  | CallOk | CallFailed true _ => set_pool o p s
  | CallFailed false _ => s
  end.

(** The error or success a task returns for a fill result. *)
Definition match_result (pool : string) (r : fill_result) : res anyhow unit :=
  match r with
  | Filled => Ok tt
  | Closed => Err "Fill waiter channel closed unexpectedly"%string
  | TimedOut => Err (timeout_error pool)
  end.

(** *** The steps *)
Inductive label :=
  | LRoute (i : nat) (o : Uuid) (p : string)   (* a routing task starts and registers *)
  | LAssign (i : nat) (c : call)
  | LFillReady (i : nat)                       (* the receiver resolves *)
  | LTimeout (i : nat)
  | LReassign (i : nat) (c : call)
  | LCleanup (i : nat)
  | LFill (o : Uuid)                           (* an internal fill update *)
  | LTick (d : Z).

(** Timers fire on time: the clock does not pass the deadline of a waiting task. *)
Definition may_tick (d : Z) (s : system) : Prop :=
  0 <= d /\ map_Forall (fun _ t => match t_phase t with Waiting dl => now s + d <= dl | _ => True end) (tasks s).
#[global] Instance may_tick_dec d s : Decision (may_tick d s).
Proof. unfold may_tick. apply and_dec; [apply _|]. apply map_Forall_dec. intros ? [? ? []]; apply _. Defined.

Definition step (l : label) (s : system) : option system :=
  match l with
  | LRoute i o p =>
      if decide (tasks s !! i = None) then
        let s := register o i s in
        Some (mk_system (now s) (waiters s) (channels s) (<[i := mk_task o p Assigning]> (tasks s)) (pools s))
      else None
  | LAssign i c =>
      t ← tasks s !! i;
      match t_phase t with
      | Assigning =>
          let s := admin_assign_order_to_pool c (t_order t) (t_pool t) s in
          match c with
          | CallOk => Some (set_phase i (Waiting (now s + FILL_TIMEOUT)) s)
          | CallFailed _ e =>
              Some (set_phase i (Done (Err ("Failed to assign order to pool: " +:+ e)%string))
                      (remove (t_order t) s))
          end
      | _ => None
      end
  | LFillReady i =>
      t ← tasks s !! i;
      match t_phase t, channels s !! i with
      | Waiting _, Some ChanSent => Some (set_phase i (Reassigning Filled) s)
      | Waiting _, Some ChanClosed => Some (set_phase i (Reassigning Closed) s)
      | _, _ => None
      end
  | LTimeout i =>
      t ← tasks s !! i;
      match t_phase t, channels s !! i with
      | Waiting dl, Some ChanOpen =>
          if dl <=? now s then Some (set_phase i (Reassigning TimedOut) s) else None
      | _, _ => None
      end
  | LReassign i c =>
      t ← tasks s !! i;
      match t_phase t with
      | Reassigning r =>
          (* a failure is only logged *)
          Some (set_phase i (Cleanup r)
                  (admin_assign_order_to_pool c (t_order t) GLOBAL_MATCHING_POOL s))
      | _ => None
      end
  | LCleanup i =>
      t ← tasks s !! i;
      match t_phase t with
      | Cleanup r => Some (set_phase i (Done (match_result (t_pool t) r)) (remove (t_order t) s))
      | _ => None
      end
  | LFill o => Some (notify o s).2
  | LTick d =>
      if decide (may_tick d s)
      then Some (mk_system (now s + d) (waiters s) (channels s) (tasks s) (pools s)) else None
  end.

Fixpoint run (ls : list label) (s : system) : option system :=
  match ls with
  | [] => Some s
  | l :: ls => s' ← step l s; run ls s'
  end.

(** All orders start in the global pool. *)
Definition system_new : system := mk_system 0 ∅ ∅ ∅ ∅.
Definition pool_of (o : Uuid) (s : system) : string := default GLOBAL_MATCHING_POOL (pools s !! o).

(** *** admin_ws_listener.rs: what an order update does; [route] is the pool
    [try_route_user_order] chooses and [i] the number of a fresh task. *)
Inductive update_type := Created | InternalFill | OtherUpdate.
#[global] Instance update_type_eq_dec : EqDecision update_type.
Proof. solve_decision. Defined.
Definition handle_order_update (u : update_type) (o : ApiAdminOrder)
    (route : res anyhow (option ManagedPool)) (i : nat) : list label :=
  (if bool_decide (u = InternalFill) then [LFill (order_id o)] else []) ++
  (if bool_decide (u = Created) && bool_decide (matching_pool o = GLOBAL_MATCHING_POOL) then
     match route with
     | Ok (Some p) => [LRoute i (order_id o) (pool_name p)]
     | _ => []
     end
   else []).

(** ** Invariants *)

(** The steps of one task, and how far it is from its end. *)
Definition label_task (l : label) : option nat :=
  match l with
  | LAssign i _ | LFillReady i | LTimeout i | LReassign i _ | LCleanup i => Some i
  | _ => None
  end.
Definition rank (p : phase) : nat :=
  match p with Assigning => 4 | Waiting _ => 3 | Reassigning _ => 2 | Cleanup _ => 1 | Done _ => 0 end.

Lemma tasks_assign c o p s : tasks (admin_assign_order_to_pool c o p s) = tasks s.
Proof. by destruct c as [|[] ?]. Qed.
Lemma now_assign c o p s : now (admin_assign_order_to_pool c o p s) = now s.
Proof. by destruct c as [|[] ?]. Qed.
Lemma waiters_assign c o p s :
  waiters (admin_assign_order_to_pool c o p s) = waiters s /\
  channels (admin_assign_order_to_pool c o p s) = channels s.
Proof. by destruct c as [|[] ?]. Qed.

#[local] Arguments admin_assign_order_to_pool : simpl never.

(** Case analysis on an enabled step of a task. *)
Ltac inv_step H :=
  match type of H with step ?l _ = Some _ =>
    unfold step in H;
    repeat (first [apply bind_Some in H as (? & ? & H) | progress case_decide
                  | split_match_in H]; try discriminate H);
    simplify_eq
  end.

Ltac by_phase := match goal with E : t_phase _ = _ |- _ => by rewrite E end.

(** A step changes only the phase of its own task, forwards. *)
Lemma step_task l s s' i t :
  step l s = Some s' -> tasks s !! i = Some t ->
  exists p, tasks s' !! i = Some (mk_task (t_order t) (t_pool t) p) /\
    (if decide (label_task l = Some i) then (rank p < rank (t_phase t))%nat else p = t_phase t).
Proof.
  intros H Ht. assert (Heta : mk_task (t_order t) (t_pool t) (t_phase t) = t) by (by destruct t).
  assert (Hother : forall j q (s0 : system), tasks s0 = tasks s -> i <> j ->
            tasks (set_phase j q s0) !! i = Some t).
  { intros j q s0 E Hne. cbn. by rewrite lookup_alter_ne, E. }
  assert (Hown : forall q (s0 : system), tasks s0 = tasks s ->
            tasks (set_phase i q s0) !! i = Some (mk_task (t_order t) (t_pool t) q)).
  { intros q s0 E. cbn. by rewrite E, lookup_alter_eq, Ht. }
  destruct l; cbn [label_task];
    try (destruct (decide (Some i0 = Some i)) as [Hi|Hi]; [injection Hi as ->|]); inv_step H.
  all: try (eexists; split; [apply Hown; cbn; by rewrite ?tasks_assign
                            |repeat match goal with E : t_phase _ = _ |- _ => rewrite E end; cbn; lia]).
  all: exists (t_phase t); split; [rewrite Heta|done].
  all: try (apply Hother; [cbn; by rewrite ?tasks_assign|congruence]).
  - cbn. destruct (decide (i0 = i)) as [-> |]; [congruence|]. by rewrite lookup_insert_ne.
  - unfold notify. by destruct (waiters s !! o).
  - done.
Qed.

(** *** The clock *)
(** A waiting task is within its deadline. *)
Definition clock_inv (s : system) : Prop :=
  forall i t dl, tasks s !! i = Some t -> t_phase t = Waiting dl -> now s <= dl <= now s + FILL_TIMEOUT.

Lemma step_now l s s' : step l s = Some s' -> now s <= now s'.
Proof.
  intros H. destruct l; inv_step H; cbn; rewrite ?now_assign; try lia.
  - unfold notify. by destruct (waiters s !! o).
  - destruct H0. lia.
Qed.
Lemma step_new l s s' i t :
  step l s = Some s' -> tasks s !! i = None -> tasks s' !! i = Some t ->
  l = LRoute i (t_order t) (t_pool t) /\ t_phase t = Assigning.
Proof.
  intros H Hn Ht.
  assert (Hset : forall j q (s0 : system), tasks s0 = tasks s -> tasks (set_phase j q s0) !! i <> Some t).
  { intros j q s0 E. cbn. rewrite E. destruct (decide (j = i)) as [-> |].
    - by rewrite lookup_alter_eq, Hn.
    - by rewrite lookup_alter_ne, Hn. }
  destruct l; inv_step H; try (by (exfalso; eapply Hset; [|exact Ht]; cbn; rewrite ?tasks_assign)).
  - cbn in Ht. apply lookup_insert_Some in Ht as [[<- <-] | [_ ?]]; [done|congruence].
  - unfold notify in Ht. destruct (waiters s !! o); cbn in Ht; congruence.
  - cbn in Ht. congruence.
Qed.

(** How a task comes to wait. *)
Lemma step_own l s s' i t t' :
  step l s = Some s' -> label_task l = Some i -> tasks s !! i = Some t -> tasks s' !! i = Some t' ->
  now s' = now s /\ forall dl, t_phase t' = Waiting dl -> l = LAssign i CallOk /\ dl = now s + FILL_TIMEOUT.
Proof.
  intros H Hl Ht Ht'.
  assert (Hown : forall q (s0 : system), tasks s0 = tasks s -> tasks (set_phase i q s0) !! i = Some t' ->
            t_phase t' = q).
  { intros q s0 E. cbn. rewrite E, lookup_alter_eq, Ht. by intros [= <-]. }
  destruct l; try discriminate Hl; injection Hl as ->; inv_step H;
    (apply Hown in Ht'; [|cbn; by rewrite ?tasks_assign]);
    cbn; rewrite ?now_assign in *; split; try done; intros dl E; rewrite E in Ht'; try discriminate Ht'.
  by injection Ht' as ->.
Qed.

Lemma step_tick_ok l s s' i t dl :
  step l s = Some s' -> tasks s !! i = Some t -> t_phase t = Waiting dl -> now s <= dl ->
  label_task l <> Some i -> now s' <= dl.
Proof.
  intros H Ht Hp Hle Hl. destruct l; inv_step H; cbn; rewrite ?now_assign; try done.
  - unfold notify. by destruct (waiters s !! o).
  - destruct H0 as [_ H0]. specialize (H0 _ _ Ht). cbn in H0. by rewrite Hp in H0.
Qed.

Lemma step_clock l s s' : step l s = Some s' -> clock_inv s -> clock_inv s'.
Proof.
  intros H Hinv i t' dl Ht' Hp'. pose proof (step_now _ _ _ H) as Hnow.
  destruct (tasks s !! i) as [t|] eqn:Ht.
  - destruct (step_task _ _ _ _ _ H Ht) as (p & Hsome & Hcase).
    rewrite Ht' in Hsome. injection Hsome as ->. cbn in Hp'. subst p.
    case_decide as Hl.
    + destruct (step_own _ _ _ _ _ _ H Hl Ht Ht') as [Hn Hw].
      destruct (Hw dl eq_refl) as [_ ->]. unfold FILL_TIMEOUT in *. lia.
    + destruct (Hinv i t dl Ht (eq_sym Hcase)) as [H1 H2].
      pose proof (step_tick_ok _ _ _ _ _ _ H Ht (eq_sym Hcase) H1 Hl). lia.
  - destruct (step_new _ _ _ _ _ H Ht Ht') as [_ E]. congruence.
Qed.

(** *** The channels *)
Definition orders (s : system) : gmap nat Uuid := t_order <$> tasks s.
(** A channel is open exactly while its sender is registered. *)
Definition chan_inv (s : system) : Prop :=
  (forall o j, waiters s !! o = Some j <-> orders s !! j = Some o /\ channels s !! j = Some ChanOpen) /\
  (forall j, is_Some (orders s !! j) <-> is_Some (channels s !! j)).

Lemma orders_set_phase i p s : orders (set_phase i p s) = orders s.
Proof.
  apply map_eq. intros j. unfold orders. cbn. rewrite !lookup_fmap.
  destruct (decide (i = j)) as [-> |]; [rewrite lookup_alter_eq|by rewrite lookup_alter_ne].
  by destruct (tasks s !! j).
Qed.
Lemma orders_assign c o p s : orders (admin_assign_order_to_pool c o p s) = orders s.
Proof. unfold orders. by rewrite tasks_assign. Qed.

(** The invariant looks at the waiters, the channels and the orders only. *)
Lemma chan_inv_ext s s' :
  waiters s' = waiters s -> channels s' = channels s -> orders s' = orders s -> chan_inv s -> chan_inv s'.
Proof. unfold chan_inv. by intros -> -> ->. Qed.

(** The sender of an order leaves the map, and its channel is no longer open. *)
Lemma chan_inv_take o x s s' : x <> ChanOpen ->
  waiters s' = delete o (waiters s) -> orders s' = orders s ->
  channels s' = match waiters s !! o with Some j => <[j := x]> (channels s) | None => channels s end ->
  chan_inv s -> chan_inv s'.
Proof.
  intros Hx Hw Ho Hc [Hwait Hdom]. unfold chan_inv. rewrite Hw, Ho, Hc.
  destruct (waiters s !! o) as [j|] eqn:E.
  - pose proof (proj1 (Hwait o j) E) as [Hj Hopen]. split.
    + intros o' j'. rewrite lookup_delete_Some, Hwait.
      destruct (decide (j = j')) as [<- |Hne].
      * rewrite lookup_insert_eq. naive_solver.
      * rewrite lookup_insert_ne by done. split; [naive_solver|]. intros [H1 H2]. split; [|done].
        intros <-. apply Hne. assert (waiters s !! o = Some j') by (by apply Hwait). congruence.
    + intros k. rewrite Hdom. destruct (decide (j = k)) as [<- |].
      * rewrite lookup_insert_eq, Hopen. split; eauto.
      * by rewrite lookup_insert_ne.
  - split; [|done]. intros o' j. rewrite lookup_delete_Some, Hwait. split; [naive_solver|].
    intros H. split; [|done]. intros <-. apply Hwait in H. congruence.
Qed.

Lemma drop_sender_open o s : chan_inv s ->
  drop_sender o s = match waiters s !! o with Some j => <[j := ChanClosed]> (channels s) | None => channels s end.
Proof.
  intros [Hw _]. unfold drop_sender. destruct (waiters s !! o) as [j|] eqn:E; [|done].
  by apply Hw in E as [_ ->].
Qed.

Lemma remove_chan o s : chan_inv s -> chan_inv (remove o s).
Proof. intros H. by apply (chan_inv_take o ChanClosed s); [..|apply drop_sender_open|]. Qed.
Lemma notify_chan o s : chan_inv s -> chan_inv (notify o s).2.
Proof.
  intros H. unfold notify. destruct (waiters s !! o) as [j|] eqn:E; [|done].
  apply (chan_inv_take o ChanSent s); try done. cbn. rewrite E.
  by apply (proj1 (proj1 H o j)) in E as [_ ->].
Qed.

(** Registration: the order's former sender is dropped, then the new one is put
    in its place. *)
Lemma register_chan o i p s :
  tasks s !! i = None -> chan_inv s ->
  chan_inv (mk_system (now s) (<[o := i]> (waiters s)) (<[i := ChanOpen]> (drop_sender o s))
              (<[i := mk_task o p Assigning]> (tasks s)) (pools s)).
Proof.
  intros Hi H. destruct (remove_chan o s H) as [Hw Hd].
  change (waiters (remove o s)) with (delete o (waiters s)) in Hw.
  change (channels (remove o s)) with (drop_sender o s) in Hw, Hd.
  change (orders (remove o s)) with (orders s) in Hw, Hd.
  assert (Hoi : orders s !! i = None) by (unfold orders; by rewrite lookup_fmap, Hi).
  unfold chan_inv, orders. cbn. rewrite fmap_insert. fold (orders s). split.
  - intros o' j. destruct (decide (i = j)) as [<- |Hj].
    + rewrite !lookup_insert_eq. destruct (decide (o = o')) as [<- |Ho].
      * rewrite lookup_insert_eq. naive_solver.
      * rewrite lookup_insert_ne by done. split; [|naive_solver].
        intros E. assert (E' : delete o (waiters s) !! o' = Some i) by (by rewrite lookup_delete_ne).
        apply Hw in E' as [? _]. congruence.
    + rewrite !(lookup_insert_ne _ i) by done. rewrite <- Hw.
      rewrite lookup_delete_Some, lookup_insert_Some. naive_solver.
  - intros j. destruct (decide (i = j)) as [<- |Hj]; [rewrite !lookup_insert_eq; split; eauto|].
    rewrite !lookup_insert_ne by done. apply Hd.
Qed.

Lemma step_chan l s s' : step l s = Some s' -> chan_inv s -> chan_inv s'.
Proof.
  intros H Hinv.
  assert (Hset : forall j q s0, chan_inv s0 -> chan_inv (set_phase j q s0)).
  { intros j q s0. by apply chan_inv_ext; [done|done|apply orders_set_phase]. }
  assert (Has : forall c o p s0, chan_inv s0 -> chan_inv (admin_assign_order_to_pool c o p s0)).
  { intros c o p s0. by apply chan_inv_ext; [apply waiters_assign..|apply orders_assign]. }
  destruct l; inv_step H; try apply Hset; try apply remove_chan; try apply Has; try done.
  - exact (register_chan o i p s ltac:(done) Hinv).
  - by apply notify_chan.
Qed.

(** *** Runs *)
Lemma pool_run_snoc ls l s : run (ls ++ [l]) s = run ls s ≫= step l.
Proof.
  revert s. induction ls as [|l' ls IH]; intros s; cbn; [by destruct (step l s)|].
  destruct (step l' s); [apply IH|done].
Qed.

Lemma run_inv (I : system -> Prop) ls s0 s :
  (forall l s s', step l s = Some s' -> I s -> I s') -> run ls s0 = Some s -> I s0 -> I s.
Proof.
  intros Hstep. revert s0. induction ls as [|l ls IH]; intros s0 Hr H0; cbn in Hr; [by simplify_eq|].
  destruct (step l s0) eqn:E; [|done]. eauto.
Qed.

Lemma system_new_inv : chan_inv system_new /\ clock_inv system_new.
Proof.
  split; [|done]. split; [naive_solver|]. intros j. unfold orders. cbn.
  by rewrite fmap_empty, !lookup_empty.
Qed.

Lemma pool_reachable_inv ls s : run ls system_new = Some s -> chan_inv s /\ clock_inv s.
Proof.
  intros Hr. destruct system_new_inv. split.
  - eapply run_inv; [apply step_chan|done..].
  - eapply run_inv; [apply step_clock|done..].
Qed.

(** *** One task per order *)
Definition active (t : task) : Prop := match t_phase t with Done _ => False | _ => True end.
#[global] Instance active_dec t : Decision (active t).
Proof. unfold active. destruct (t_phase t); apply _. Defined.

(** No task starts for an order that one is routing already. *)
Definition exclusive_step (l : label) (s : system) : Prop :=
  match l with
  | LRoute _ o _ => map_Forall (fun _ t => t_order t = o -> ~ active t) (tasks s)
  | _ => True
  end.
#[global] Instance exclusive_step_dec l s : Decision (exclusive_step l s).
Proof. destruct l; cbn; apply _. Defined.
Fixpoint exclusive_run (ls : list label) (s : system) : Prop :=
  match ls with
  | [] => True
  | l :: ls => exclusive_step l s /\ match step l s with Some s' => exclusive_run ls s' | None => True end
  end.
#[global] Instance exclusive_run_dec ls s : Decision (exclusive_run ls s).
Proof.
  revert s. induction ls as [|l ls IH]; intros s; cbn; [apply _|].
  apply and_dec; [apply _|]. destruct (step l s); [apply IH|apply _].
Defined.

Definition not_closed (s : system) (i : nat) (t : task) : Prop :=
  match t_phase t with
  | Assigning | Waiting _ => channels s !! i <> Some ChanClosed
  | Reassigning r | Cleanup r => r <> Closed
  | Done r => r <> Err "Fill waiter channel closed unexpectedly"%string
  end.
Definition exclusive_inv (s : system) : Prop :=
  (forall i j t u, tasks s !! i = Some t -> tasks s !! j = Some u -> active t -> active u ->
     t_order t = t_order u -> i = j) /\
  (forall i t, tasks s !! i = Some t -> not_closed s i t).

Lemma drop_sender_closed o s j : drop_sender o s !! j = Some ChanClosed ->
  channels s !! j = Some ChanClosed \/ waiters s !! o = Some j.
Proof.
  unfold drop_sender. destruct (waiters s !! o) as [k|] eqn:E; [|auto].
  destruct (channels s !! k) as [[]|]; auto.
  destruct (decide (k = j)) as [-> |]; [auto|]. rewrite lookup_insert_ne by done. auto.
Qed.

(** Who closes a channel: a task that starts for the order, or one for the order
    that ends. *)
Lemma step_closed l s s' j :
  step l s = Some s' -> channels s' !! j = Some ChanClosed ->
  channels s !! j = Some ChanClosed \/
  exists o, waiters s !! o = Some j /\
    ((exists i p, l = LRoute i o p) \/
     (exists k t, label_task l = Some k /\ tasks s !! k = Some t /\ t_order t = o /\ active t /\
        forall t', tasks s' !! k = Some t' -> ~ active t')).
Proof.
  intros H Hj.
  assert (Hend : forall k t q (s0 : system), tasks s0 = tasks s -> tasks s !! k = Some t ->
    forall t', tasks (set_phase k (Done q) s0) !! k = Some t' -> ~ active t').
  { intros k t q s0 E Ht t'. cbn. rewrite E, lookup_alter_eq, Ht. intros [= <-] Ha. exact Ha. }
  destruct l; inv_step H; cbn in Hj;
    rewrite ?(proj2 (waiters_assign _ _ _ _)) in Hj; try by left.
  - destruct (decide (i = j)) as [-> |]; [by rewrite lookup_insert_eq in Hj|].
    rewrite lookup_insert_ne in Hj by done. apply drop_sender_closed in Hj as [? | ?]; [by left|].
    right. exists o. eauto.
  - apply drop_sender_closed in Hj as [Hj | Hj];
      rewrite ?(proj1 (waiters_assign _ _ _ _)), ?(proj2 (waiters_assign _ _ _ _)) in Hj; [by left|].
    right. eexists. split; [exact Hj|]. right. exists i, x. split_and!; try done.
    + unfold active. by_phase.
    + eapply Hend; [cbn; by rewrite tasks_assign|done].
  - apply drop_sender_closed in Hj as [Hj | Hj]; [by left|].
    right. eexists. split; [exact Hj|]. right. exists i, x. split_and!; try done.
    + unfold active. by_phase.
    + by eapply Hend.
  - unfold notify in Hj. destruct (waiters s !! o) as [k|]; [|by left].
    cbn in Hj. left. destruct (channels s !! k) as [[]|]; try done.
    destruct (decide (k = j)) as [-> |]; [by rewrite lookup_insert_eq in Hj|].
    by rewrite lookup_insert_ne in Hj.
Qed.

Lemma not_active_rank p t : (rank p < rank (t_phase t))%nat -> active t.
Proof. unfold active. destruct (t_phase t); cbn; lia. Qed.

(** The phases a task's own step leads to. *)
Lemma step_not_closed l s s' i t t' :
  step l s = Some s' -> label_task l = Some i -> tasks s !! i = Some t -> tasks s' !! i = Some t' ->
  not_closed s i t -> not_closed s' i t'.
Proof.
  intros H Hl Ht Ht' Hn.
  assert (Hown : forall q (s0 : system), tasks s0 = tasks s -> tasks (set_phase i q s0) !! i = Some t' ->
            t' = mk_task (t_order t) (t_pool t) q).
  { intros q s0 E. cbn. rewrite E, lookup_alter_eq, Ht. by intros [= <-]. }
  unfold not_closed in Hn.
  destruct l; try discriminate Hl; injection Hl as ->; inv_step H;
    (apply Hown in Ht'; [|cbn; by rewrite ?tasks_assign]); subst t'; unfold not_closed; cbn;
    rewrite ?(proj2 (waiters_assign _ _ _ _)); try done;
    match goal with E : t_phase _ = _ |- _ => rewrite E in Hn end; try done.
  by destruct r.
Qed.

Lemma step_exclusive l s s' :
  step l s = Some s' -> exclusive_step l s -> chan_inv s -> exclusive_inv s -> exclusive_inv s'.
Proof.
  intros H Hx [Hwait _] [Huniq Hnc].
  assert (Hback : forall i t', tasks s' !! i = Some t' -> active t' ->
    (exists p, l = LRoute i (t_order t') p /\ tasks s !! i = None) \/
    (exists t, tasks s !! i = Some t /\ t_order t = t_order t' /\ active t)).
  { intros i t' Ht' Ha. destruct (tasks s !! i) as [t|] eqn:Ht.
    - right. destruct (step_task _ _ _ _ _ H Ht) as (p & Hsome & Hcase).
      rewrite Ht' in Hsome. injection Hsome as ->. exists t. split_and!; try done.
      case_decide; [by eapply not_active_rank|]. unfold active in *. by rewrite <- Hcase.
    - left. destruct (step_new _ _ _ _ _ H Ht Ht') as [-> _]. eauto. }
  split.
  - intros i j t u Hi Hj Ha Hb E.
    destruct (Hback _ _ Hi Ha) as [(p & -> & Hn) | (t0 & Ht0 & Eo & Ha0)];
      destruct (Hback _ _ Hj Hb) as [(p' & El & Hn') | (u0 & Hu0 & Eo' & Hb0)].
    + congruence.
    + destruct (Hx _ _ Hu0); [congruence|done].
    + subst l. destruct (Hx _ _ Ht0); [congruence|done].
    + eapply Huniq; eauto. congruence.
  - intros i t' Ht'. destruct (tasks s !! i) as [t|] eqn:Ht.
    + destruct (decide (label_task l = Some i)) as [Hl|Hl]; [by eapply step_not_closed; eauto|].
      destruct (step_task _ _ _ _ _ H Ht) as (p & Hsome & Hcase).
      rewrite decide_False in Hcase by done. rewrite Ht' in Hsome. injection Hsome as ->. subst p.
      specialize (Hnc _ _ Ht). unfold not_closed in *. cbn.
      assert (Hcl : active t -> channels s !! i <> Some ChanClosed -> channels s' !! i <> Some ChanClosed).
      { intros Ha Hop Hc. destruct (step_closed _ _ _ _ H Hc) as [? | (o & Ho & Hwho)]; [done|].
        apply Hwait in Ho as [Ho _]. unfold orders in Ho. rewrite lookup_fmap, Ht in Ho.
        injection Ho as Ho.
        destruct Hwho as [(k & q & ->) | (k & u & Hk & Hu & Eu & Hau & _)].
        - by apply (Hx _ _ Ht).
        - apply Hl. rewrite Hk. f_equal. symmetry. eapply Huniq; eauto. congruence. }
      unfold active in Hcl. destruct (t_phase t); auto.
    + destruct (step_new _ _ _ _ _ H Ht Ht') as [-> E]. unfold not_closed. rewrite E.
      inv_step H. cbn. by rewrite lookup_insert_eq.
Qed.

Lemma run_exclusive ls s0 s :
  run ls s0 = Some s -> exclusive_run ls s0 -> chan_inv s0 -> exclusive_inv s0 -> exclusive_inv s.
Proof.
  revert s0. induction ls as [|l ls IH]; intros s0 Hr Hx Hc H0; cbn in *; [by simplify_eq|].
  destruct (step l s0) as [s1|] eqn:E; [|done]. destruct Hx as [Hx1 Hx2].
  eapply IH; eauto using step_chan, step_exclusive.
Qed.

(** *** Where the orders are *)
Definition call_ok (l : label) : Prop :=
  match l with LAssign _ (CallFailed _ _) | LReassign _ (CallFailed _ _) => False | _ => True end.
Definition returning (p : phase) : Prop :=
  match p with Waiting _ | Reassigning _ => True | _ => False end.
(** An order outside the global pool has a task that will bring it back. *)
Definition pool_inv (s : system) : Prop :=
  forall o, pool_of o s <> GLOBAL_MATCHING_POOL -> exists i t, tasks s !! i = Some t /\ t_order t = o /\
    t_pool t = pool_of o s /\
    returning (t_phase t).

Lemma step_pools l s s' :
  step l s = Some s' -> call_ok l ->
  match l with
  | LAssign i _ => exists t, tasks s !! i = Some t /\ pools s' = <[t_order t := t_pool t]> (pools s) /\
      t_phase t = Assigning /\
      tasks s' !! i = Some (mk_task (t_order t) (t_pool t) (Waiting (now s + FILL_TIMEOUT)))
  | LReassign i _ => exists t, tasks s !! i = Some t /\
      pools s' = <[t_order t := GLOBAL_MATCHING_POOL]> (pools s)
  | _ => pools s' = pools s
  end.
Proof.
  intros H Hok. destruct l as [| i c | | | i c | | o |]; try (inv_step H; done).
  - destruct c; [|done]. inv_step H. exists x. split_and!; try done. cbn.
    rewrite tasks_assign, now_assign, lookup_alter_eq.
    match goal with E : tasks s !! i = _ |- _ => by rewrite E end.
  - destruct c; [|done]. inv_step H. by exists x.
  - inv_step H. unfold notify. by destruct (waiters s !! o).
Qed.

(** A task on its way back stays so, unless the step is its reassignment. *)
Lemma step_returning l s s' i t :
  step l s = Some s' -> tasks s !! i = Some t -> returning (t_phase t) -> (forall c, l <> LReassign i c) ->
  exists p, tasks s' !! i = Some (mk_task (t_order t) (t_pool t) p) /\ returning p.
Proof.
  intros H Ht Hp Hl. destruct (step_task _ _ _ _ _ H Ht) as (p & Hsome & Hcase).
  exists p. split; [done|]. case_decide as Hd; [|by subst p].
  assert (Hown : forall q (s0 : system), tasks s0 = tasks s ->
    tasks (set_phase i q s0) !! i = Some (mk_task (t_order t) (t_pool t) p) -> p = q).
  { intros q s0 E. cbn. rewrite E, lookup_alter_eq, Ht. by intros [= <-]. }
  destruct l as [| j c | j | j | j c | j | |]; try discriminate Hd; injection Hd as ->;
    try (by destruct (Hl c)); inv_step H;
    (apply Hown in Hsome; [subst p|cbn; by rewrite ?tasks_assign]); try done;
    match goal with E : t_phase _ = _ |- _ => rewrite E in Hp end; done.
Qed.

Lemma pool_of_insert o p o' s s' : pools s' = <[o := p]> (pools s) ->
  pool_of o' s' = if decide (o = o') then p else pool_of o' s.
Proof.
  intros E. unfold pool_of. rewrite E. case_decide as Hd; [subst; by rewrite lookup_insert_eq|].
  by rewrite lookup_insert_ne.
Qed.

Lemma step_pool l s s' : step l s = Some s' -> call_ok l -> pool_inv s -> pool_inv s'.
Proof.
  intros H Hok Hinv o Ho. pose proof (step_pools _ _ _ H Hok) as Hp.
  assert (Hkeep : pool_of o s' = pool_of o s ->
    (forall i t c, l = LReassign i c -> tasks s !! i = Some t -> t_order t <> o) ->
    exists i t, tasks s' !! i = Some t /\ t_order t = o /\ t_pool t = pool_of o s' /\ returning (t_phase t)).
  { intros E Hne. rewrite E in Ho. destruct (Hinv o Ho) as (i & t & Ht & Eo & Epool & Hr).
    destruct (step_returning _ _ _ _ _ H Ht Hr) as (p & Hsome & Hr').
    { intros c ->. by apply (Hne i t c). }
    exists i. eexists. split; [exact Hsome|]. cbn. by rewrite E. }
  destruct l as [| i c | | | i c | | |]; try (apply Hkeep; [unfold pool_of; by rewrite Hp|done]).
  - destruct Hp as (t & Ht & Ep & _ & Ht'). rewrite (pool_of_insert _ _ o _ _ Ep) in Ho, Hkeep |- *.
    case_decide as Hd; [|by apply Hkeep]. exists i. eexists. by split.
  - destruct Hp as (t & Ht & Ep). rewrite (pool_of_insert _ _ o _ _ Ep) in Ho, Hkeep |- *.
    case_decide as Hd; [done|]. apply Hkeep; [done|]. intros i' t' c' [= <- <-] Ht'. congruence.
Qed.

Lemma run_pool ls s0 s : run ls s0 = Some s -> Forall call_ok ls -> pool_inv s0 -> pool_inv s.
Proof.
  revert s0. induction ls as [|l ls IH]; intros s0 Hr Hf H0; cbn in *; [by simplify_eq|].
  apply Forall_cons in Hf as [Hl Hf]. destruct (step l s0) eqn:E; [|done]. eauto using step_pool.
Qed.

(** ** Properties *)

(** C22. Under every interleaving of routing tasks, fills and clock ticks, as long
    as the relayer's calls succeed: an order outside the global pool is in the
    pool of a task that waits for its fill or is about to move it back. *)
Theorem orders_return_to_global ls s o :
  run ls system_new = Some s -> Forall call_ok ls ->
  pool_of o s = GLOBAL_MATCHING_POOL \/
  exists i t, tasks s !! i = Some t /\ t_order t = o /\ t_pool t = pool_of o s /\ returning (t_phase t).
Proof.
  intros Hr Hf. destruct (decide (pool_of o s = GLOBAL_MATCHING_POOL)) as [|Hne]; [by left|]. right.
  eapply (run_pool _ _ _ Hr Hf); [|exact Hne]. intros o' Ho'. exfalso. apply Ho'. unfold pool_of. cbn.
  by rewrite lookup_empty.
Qed.

(** C23. Every routing task ends.  In each reachable state a task that is not done
    has a step of its own enabled, or waits with a deadline that is at most
    FILL_TIMEOUT away and that the clock cannot pass; at the deadline its step
    is enabled.  Its own steps bring it strictly closer to its end and no other
    step moves it. *)
Theorem routing_tasks_progress ls s i t :
  run ls system_new = Some s -> tasks s !! i = Some t ->
  match t_phase t with
  | Assigning => forall c, is_Some (step (LAssign i c) s)
  | Waiting dl => now s <= dl <= now s + FILL_TIMEOUT /\
      (now s = dl -> is_Some (step (LFillReady i) s) \/ is_Some (step (LTimeout i) s)) /\
      (forall d, dl < now s + d -> step (LTick d) s = None)
  | Reassigning _ => forall c, is_Some (step (LReassign i c) s)
  | Cleanup _ => is_Some (step (LCleanup i) s)
  | Done _ => True
  end /\
  (forall l s', step l s = Some s' -> exists p,
     tasks s' !! i = Some (mk_task (t_order t) (t_pool t) p) /\
     (if decide (label_task l = Some i) then (rank p < rank (t_phase t))%nat else p = t_phase t)).
Proof.
  intros Hr Ht. destruct (pool_reachable_inv _ _ Hr) as [[_ Hdom] Hclock].
  split; [|intros l s' H; by eapply step_task].
  destruct (t_phase t) as [|dl|r|r|r] eqn:Hp; cbn; rewrite ?Ht; cbn; rewrite ?Hp; try done.
  - intros [|]; by eexists.
  - split; [by eapply Hclock|]. split.
    + intros <-. destruct (proj1 (Hdom i)) as [c Hc]; [unfold orders; by rewrite lookup_fmap, Ht; eexists|].
      rewrite Hc, Z.leb_refl. destruct c; naive_solver.
    + intros d Hd. rewrite decide_False; [done|]. intros [_ Hall].
      specialize (Hall _ _ Ht). cbn in Hall. rewrite Hp in Hall. lia.
Qed.

(** When no task starts for an order that one is routing already, no channel
    is closed under its receiver: a task ends with a fill, a timeout, or the
    error of its assignment. *)
Theorem exclusive_tasks_not_closed ls s i t :
  run ls system_new = Some s -> exclusive_run ls system_new -> tasks s !! i = Some t ->
  not_closed s i t.
Proof.
  intros Hr Hx Ht. eapply (run_exclusive _ _ _ Hr Hx); [apply system_new_inv| |done].
  split; [intros ? ? ? ? H|intros ? ? H]; cbn in H; by rewrite lookup_empty in H.
Qed.

(** Two tasks for the same order, as a rescan of the pool and the update of
    its creation start them: the registration of the second closes the channel
    of the first, which moves the order out of the pool while the second waits
    for a fill, and whose cleanup closes the channel of the second; the order is
    not matched by either. *)
Theorem duplicate_routing_cancels p :
  exists s, run [LRoute 0 7 p; LAssign 0 CallOk; LRoute 1 7 p; LAssign 1 CallOk; LFillReady 0;
                 LReassign 0 CallOk] system_new = Some s /\
    pool_of 7 s = GLOBAL_MATCHING_POOL /\
    tasks s !! 1%nat = Some (mk_task 7 p (Waiting FILL_TIMEOUT)) /\
    exists s', run [LCleanup 0; LFill 7; LFillReady 1; LReassign 1 CallOk; LCleanup 1] s = Some s' /\
      forall i, i ∈ [0%nat; 1%nat] ->
        tasks s' !! i = Some (mk_task 7 p (Done (Err "Fill waiter channel closed unexpectedly"%string))).
Proof.
  eexists. split; [reflexivity|]. split; [reflexivity|]. split; [reflexivity|].
  eexists. split; [reflexivity|].
  intros i [-> | [-> | []%not_elem_of_nil]%elem_of_cons]%elem_of_cons; reflexivity.
Qed.

(** A failure to move an order back is only logged: the order stays in the
    managed pool with no task left, and the task reports its fill. *)
Theorem failed_reassignment_strands_order p e :
  exists s, run [LRoute 0 7 p; LAssign 0 CallOk; LFill 7; LFillReady 0; LReassign 0 (CallFailed false e);
                 LCleanup 0] system_new = Some s /\
    pool_of 7 s = p /\ tasks s = {[0%nat := mk_task 7 p (Done (Ok tt))]}.
Proof. eexists. split; [reflexivity|]. by split. Qed.
End Tasks.

(** The pool chosen for an order: the first one that covers its ticker and its
    value.  A value that is not a number is never routed, and prices are asked
    for only when some pool covers the ticker. *)
Theorem route_decision_spec usdc ticker conv price price' show pools o r :
  route_decision usdc ticker conv price show pools o = Ok r ->
  match r with
  | Some p => exists t v pre post, pools = pre ++ p :: post /\
      extract_base_ticker usdc ticker o = Some t /\
      compute_order_value_usd usdc conv price show o t = Ok v /\ non_nan v /\
      eligible t v p = true /\ Forall (fun q => eligible t v q = false) pre
  | None => True
  end /\
  (forall t, extract_base_ticker usdc ticker o = Some t -> has_managed_pool_for_ticker pools t = false ->
     route_decision usdc ticker conv price' show pools o = Ok None).
Proof.
  intros H. split.
  - destruct r as [p|]; [|done]. unfold route_decision in H.
    destruct (extract_base_ticker usdc ticker o) as [t|]; [|done].
    destruct (has_managed_pool_for_ticker pools t); [|done]. cbn in H.
    apply bind_Ok_inv in H as (v & Hv & H). injection H as H.
    assert (Hf : exists pre post, pools = pre ++ p :: post /\ eligible t v p = true /\
                 Forall (fun q => eligible t v q = false) pre).
    { revert H. unfold select_managed_pool. clear. induction pools as [|q pools IH]; [done|]. cbn.
      destruct (eligible t v q) eqn:E; [intros [= ->]; by exists [], pools|].
      intros H. destruct (IH H) as (pre & post & -> & ? & ?). exists (q :: pre), post.
      split_and!; [done..|by constructor]. }
    destruct Hf as (pre & post & -> & He & Hpre). exists t, v, pre, post. split_and!; try done.
    unfold eligible in He. apply andb_true_iff in He as [[_ He]%andb_true_iff _].
    unfold fgeb in He. apply (fleb_non_nan _ _ He).
  - intros t Ht Hno. unfold route_decision. by rewrite Ht, Hno.
Qed.

(** The failures are told apart by their text. *)
Lemma timeouts_recognized pool :
  is_timeout_error (timeout_error pool) = true /\
  is_timeout_error "Fill waiter channel closed unexpectedly" = false.
Proof. split; [|reflexivity]. unfold is_timeout_error, timeout_error. reflexivity. Qed.

Module PoolRunnerWitness.
Local Open Scope string_scope.
Definition trace1 : list label :=
  [LRoute 0 7 "mm"; LAssign 0 CallOk; LTick 1000; LRoute 1 8 "mm"; LAssign 1 CallOk; LFill 7; LFillReady 0;
   LTick 29000].
Definition sys1 : option system := run "global" trace1 system_new.

Lemma orders_return_to_global_witness : exists s, run "global" trace1 system_new = Some s /\
  exists i t, tasks s !! i = Some t /\ t_order t = 7%Z /\ t_pool t = "mm" /\ returning (t_phase t).
Proof.
  eexists. split; [reflexivity|].
  destruct (orders_return_to_global "global" trace1 _ 7 eq_refl) as [H | H];
    [repeat constructor|discriminate H|exact H].
Defined.

Lemma routing_tasks_progress_witness : exists s, run "global" trace1 system_new = Some s /\
  (now s <= 31000 <= now s + FILL_TIMEOUT)%Z.
Proof.
  eexists. split; [reflexivity|].
  apply (routing_tasks_progress "global" trace1 _ 1%nat (mk_task 8 "mm" (Waiting 31000)) eq_refl eq_refl).
Defined.

Lemma exclusive_tasks_not_closed_witness : exists s, run "global" trace1 system_new = Some s /\
  not_closed s 0 (mk_task 7 "mm" (Reassigning Filled)).
Proof.
  eexists. split; [reflexivity|].
  apply (exclusive_tasks_not_closed "global" trace1 _ 0%nat _ eq_refl); [|reflexivity].
  apply (bool_decide_unpack _). vm_compute. exact I.
Defined.

Definition pools1 : list ManagedPool :=
  [mk_pool "small" ["ETH"] f0 (Some f1); mk_pool "large" ["BTC"; "ETH"] f1 None].
Definition order1 : ApiAdminOrder := mk_order 7 3 4 100 "global".
Definition route1 (price : f64) :=
  route_decision 4 (fun _ => Some "ETH") (fun _ n => of_Z n) (fun _ => Ok price) (fun _ => "") pools1 order1.
Lemma route_decision_spec_witness : exists t v pre post, pools1 = (pre ++ mk_pool "large" ["BTC"; "ETH"] f1 None :: post)%list /\
  extract_base_ticker 4 (fun _ => Some "ETH") order1 = Some t /\
  compute_order_value_usd 4 (fun _ n => of_Z n) (fun _ => Ok f2) (fun _ => "") order1 t = Ok v /\ non_nan v /\
  eligible t v (mk_pool "large" ["BTC"; "ETH"] f1 None) = true /\ Forall (fun q => eligible t v q = false) pre.
Proof.
  refine (proj1 (route_decision_spec 4 (fun _ => Some "ETH") (fun _ n => of_Z n) (fun _ => Ok f2) (fun _ => Ok f2)
    (fun _ => "") pools1 order1 (Some (mk_pool "large" ["BTC"; "ETH"] f1 None)) _)). vm_compute. reflexivity.
Defined.
End PoolRunnerWitness.
