(* ===== verification/PoolListener.v ===== *)
(** * The pool runner's listener and start-up (pool-runner/src/)

    What feeds the routing tasks of [PoolRunner]: the connection loop of the
    admin websocket with its rescans (admin_ws_listener.rs, server/mod.rs), the
    outcome counters of a routing attempt (server/runner.rs, metrics.rs), and the
    start-up (main.rs, config.rs).  The relayer is the environment: it has the
    open orders, and it sends an update for a change only to a listener that is
    subscribed at that moment.  The connection loop is a labelled transition
    system; what it hands to routing is a list of labels of [PoolRunner.step]. *)
From Stdlib Require Import ZArith Lia Ascii.
From stdpp Require Import gmap strings list.
From S2P Require Import Prelude F64 AuthError PoolRunner.
Local Open Scope Z_scope.

(** ** The outcome of a routing attempt (metrics.rs, server/runner.rs) *)
Definition ORDER_REASSIGN_ATTEMPT : string := "pool_runner_order_reassign_attempt".
Definition ORDER_REASSIGN_SUCCESS : string := "pool_runner_order_reassign_success".
Definition ORDER_REASSIGN_FAILURE : string := "pool_runner_order_reassign_failure".
Definition ORDER_REASSIGN_TIMEOUT : string := "pool_runner_order_reassign_timeout".

Record counter := mk_counter { c_name : string; c_tags : list (string * string) }.
Definition record_reassign_attempt (pool : string) : counter :=
  mk_counter ORDER_REASSIGN_ATTEMPT [("matching_pool", pool)]%string.
Definition record_reassign_success (pool : string) : counter :=
  mk_counter ORDER_REASSIGN_SUCCESS [("matching_pool", pool)]%string.
Definition record_reassign_failure (pool reason : string) : counter :=
  mk_counter ORDER_REASSIGN_FAILURE [("matching_pool", pool); ("reason", reason)]%string.
Definition record_reassign_timeout (pool : string) : counter :=
  mk_counter ORDER_REASSIGN_TIMEOUT [("matching_pool", pool)]%string.

(** The counters of one attempt, by the result of [execute_pool_match]. *)
Definition attempt_counters (pool : string) (result : res anyhow unit) : list counter :=
  record_reassign_attempt pool ::
  match result with
  | Ok _ => [record_reassign_success pool]
  | Err e => if is_timeout_error e then [record_reassign_timeout pool] else [record_reassign_failure pool e]
  | Panic => []
  end.

(** ** Start-up *)
(** *** config.rs *)
Definition S3_PREFIX : string := "s3://".
Fixpoint split_once (c : ascii) (s : string) : option (string * string) :=
  match s with
  | EmptyString => None
  | String a r =>
      if Ascii.eqb a c then Some (""%string, r)
      else '(x, y) ← split_once c r; Some (String a x, y)
  end.
Definition strip_prefix (p s : string) : option string :=
  if String.prefix p s
  then Some (String.substring (String.length p) (String.length s - String.length p) s) else None.

Section Config.
(** The file system, the object store and the JSON codec. *)
Context (read_to_string : string -> res anyhow string)
  (get_object : string -> string -> res anyhow string)
  (parse_config : string -> res anyhow (list ManagedPool)).

Definition load_from_s3 (s3_path : string) : res anyhow string :=
  '(bucket, key) ← ok_or (split_once "/"%char s3_path)
                     ("Invalid S3 path (expected bucket/key): " +:+ s3_path)%string;
  get_object bucket key.
Definition load_runner_config (path : string) : res anyhow (list ManagedPool) :=
  json ← match strip_prefix S3_PREFIX path with
         | Some s3_path => load_from_s3 s3_path
         | None => read_to_string path
         end;
  parse_config json.
End Config.

Lemma substring_all s : String.substring 0 (String.length s) s = s.
Proof. induction s as [|c s IH]; [done|]. cbn. by rewrite IH. Qed.
Lemma substring_app p s :
  String.substring (String.length p) (String.length (p +:+ s) - String.length p) (p +:+ s) = s.
Proof.
  induction p as [|c p IH]; cbn; [|done]. rewrite Nat.sub_0_r. apply substring_all.
Qed.
Lemma strip_prefix_app p s : strip_prefix p (p +:+ s) = Some s.
Proof. unfold strip_prefix. by rewrite prefix_app, substring_app. Qed.
Fixpoint has_char (c : ascii) (s : string) : bool :=
  match s with EmptyString => false | String a r => Ascii.eqb a c || has_char c r end.
Lemma split_once_app c a b :
  has_char c a = false -> split_once c (a +:+ String c b)%string = Some (a, b).
Proof.
  induction a as [|x a IH].
  - intros _. change ("" +:+ String c b)%string with (String c b). cbn [split_once]. by rewrite Ascii.eqb_refl.
  - cbn [has_char]. intros [Hx Ha]%orb_false_iff.
    change (String x a +:+ String c b)%string with (String x (a +:+ String c b)). cbn [split_once].
    by rewrite Hx, IH.
Qed.

(** The configuration of an S3 path comes from its bucket and the whole rest of
    the path as key; any other path is a file. *)
Theorem config_source read get parse bucket key :
  has_char "/"%char bucket = false ->
  load_runner_config read get parse (S3_PREFIX +:+ (bucket +:+ String "/" key))%string
    = (json ← get bucket key; parse json).
Proof.
  intros Hb. unfold load_runner_config. rewrite strip_prefix_app. unfold load_from_s3.
  by rewrite split_once_app.
Qed.

(** *** main.rs, server/mod.rs *)
(** The SDK: its chain ids, keys, and the admin client of a chain, which is
    given a random signer. *)
Class Sdk := {
  ARBITRUM_ONE_CHAIN_ID : Z;
  ARBITRUM_SEPOLIA_CHAIN_ID : Z;
  BASE_MAINNET_CHAIN_ID : Z;
  BASE_SEPOLIA_CHAIN_ID : Z;
  ETHEREUM_SEPOLIA_CHAIN_ID : Z;
  chain_ids_distinct :
    NoDup [ARBITRUM_ONE_CHAIN_ID; ARBITRUM_SEPOLIA_CHAIN_ID; BASE_MAINNET_CHAIN_ID;
           BASE_SEPOLIA_CHAIN_ID; ETHEREUM_SEPOLIA_CHAIN_ID];
  HmacKey : Type;
  from_base64_string : string -> res string HmacKey;
  RenegadeClient : Type;
  new_admin : Chain -> Z -> HmacKey -> res string RenegadeClient;
  int_text : Z -> string;
}.

Record Cli := mk_cli {
  port : Z;
  relayer_admin_url : string;
  relayer_admin_key : string;
  cli_chain_id : Z;
  runner_config_path : string;
  price_reporter_url : string;
}.

Section StartUp.
Context `{S : Sdk}.

(** The chains with an id of the SDK. *)
Definition chain_id_of (c : Chain) : option Z :=
  match c with
  | ArbitrumOne => Some ARBITRUM_ONE_CHAIN_ID
  | ArbitrumSepolia => Some ARBITRUM_SEPOLIA_CHAIN_ID
  | BaseMainnet => Some BASE_MAINNET_CHAIN_ID
  | BaseSepolia => Some BASE_SEPOLIA_CHAIN_ID
  | EthereumSepolia => Some ETHEREUM_SEPOLIA_CHAIN_ID
  | EthereumMainnet | Devnet => None
  end.
(** The match of [main]. *)
Definition chain_of_id (id : Z) : res anyhow Chain :=
  if id =? ARBITRUM_ONE_CHAIN_ID then Ok ArbitrumOne
  else if id =? ARBITRUM_SEPOLIA_CHAIN_ID then Ok ArbitrumSepolia
  else if id =? BASE_MAINNET_CHAIN_ID then Ok BaseMainnet
  else if id =? BASE_SEPOLIA_CHAIN_ID then Ok BaseSepolia
  else if id =? ETHEREUM_SEPOLIA_CHAIN_ID then Ok EthereumSepolia
  else Err ("unknown chain_id: " +:+ int_text id)%string.

(** [build_admin_client], and the constructor of the listener. *)
Definition admin_client_for (signer id : Z) (key : HmacKey) : res anyhow (res string RenegadeClient) :=
  if id =? ARBITRUM_SEPOLIA_CHAIN_ID then Ok (new_admin ArbitrumSepolia signer key)
  else if id =? ARBITRUM_ONE_CHAIN_ID then Ok (new_admin ArbitrumOne signer key)
  else if id =? BASE_SEPOLIA_CHAIN_ID then Ok (new_admin BaseSepolia signer key)
  else if id =? BASE_MAINNET_CHAIN_ID then Ok (new_admin BaseMainnet signer key)
  else if id =? ETHEREUM_SEPOLIA_CHAIN_ID then Ok (new_admin EthereumSepolia signer key)
  else Err ("Unsupported chain ID: " +:+ int_text id)%string.
Definition build_admin_client (signer : Z) (relayer_admin_key : string) (chain_id : Z)
    : res anyhow RenegadeClient :=
  hmac_key ← map_err (fun e => ("Invalid relayer admin key: " +:+ e)%string)
               (from_base64_string relayer_admin_key);
  client ← admin_client_for signer chain_id hmac_key;
  map_err (fun _ => "Failed to build admin client"%string) client.
Definition listener_new (signer : Z) (relayer_admin_key : string) (chain_id : Z)
    : res anyhow RenegadeClient :=
  hmac_key ← map_err (fun e => ("Invalid relayer admin key: " +:+ e)%string)
               (from_base64_string relayer_admin_key);
  client ← admin_client_for signer chain_id hmac_key;
  map_err (fun e => ("Failed to build admin client: " +:+ e)%string) client.

(** [setup_token_remaps] of the chain, the configuration file, and the client of
    the price reporter; the two signers are drawn at random. *)
Context (setup_token_remaps : Chain -> res string unit)
  (load_config : string -> res string (list ManagedPool))
  (price_reporter_new : string -> res string unit).

Definition build_from_cli (signer : Z) (cli : Cli) : res anyhow (RenegadeClient * list ManagedPool) :=
  config ← map_err (fun _ => "Failed to load runner config"%string) (load_config (runner_config_path cli));
  admin_client ← build_admin_client signer (relayer_admin_key cli) (cli_chain_id cli);
  _ ← map_err (fun _ => "Failed to build price reporter client"%string)
        (price_reporter_new (price_reporter_url cli));
  Ok (admin_client, config).
(** [main], up to the tasks it starts: the chain whose tokens are loaded, the
    server and the client of the listener. *)
Definition start (signer signer' : Z) (cli : Cli)
    : res anyhow (Chain * (RenegadeClient * list ManagedPool) * RenegadeClient) :=
  chain ← chain_of_id (cli_chain_id cli);
  _ ← map_err (fun e => ("setup_token_remaps failed: " +:+ e)%string) (setup_token_remaps chain);
  server ← build_from_cli signer cli;
  listener ← listener_new signer' (relayer_admin_key cli) (cli_chain_id cli);
  Ok (chain, server, listener).

Lemma chain_of_id_Ok id c : chain_of_id id = Ok c -> chain_id_of c = Some id.
Proof.
  unfold chain_of_id.
  repeat (match goal with |- context [?x =? ?y] => destruct (Z.eqb_spec x y) end; [intros [= <-]; cbn; by f_equal|]).
  done.
Qed.
Lemma admin_client_for_chain signer c id key :
  chain_id_of c = Some id -> admin_client_for signer id key = Ok (new_admin c signer key).
Proof.
  intros Hc. pose proof chain_ids_distinct as Hd. unfold admin_client_for.
  repeat (apply NoDup_cons in Hd as [? Hd]).
  repeat match goal with H : ?x ∉ _ :: _ |- _ => apply not_elem_of_cons in H as [? H] end.
  destruct c; cbn [chain_id_of] in Hc; try discriminate; injection Hc as <-;
    repeat (match goal with |- context [?x =? ?y] => destruct (Z.eqb_spec x y) end; try congruence).
Qed.

(** A service that starts serves one chain: the tokens, the client of the
    routing tasks and the client of the listener are all of the chain whose id
    was given, although the three matches list the chains in different orders. *)
Theorem start_one_chain signer signer' cli chain server listener :
  start signer signer' cli = Ok (chain, server, listener) ->
  chain_id_of chain = Some (cli_chain_id cli) /\ setup_token_remaps chain = Ok tt /\
  load_config (runner_config_path cli) = Ok server.2 /\
  exists key, from_base64_string (relayer_admin_key cli) = Ok key /\
    new_admin chain signer key = Ok server.1 /\ new_admin chain signer' key = Ok listener.
Proof.
  unfold start. intros Hs. apply bind_Ok_inv in Hs as (c & Hc & Hs).
  pose proof (chain_of_id_Ok _ _ Hc) as Hid.
  apply bind_Ok_inv in Hs as ([] & Ht%map_err_Ok & Hs).
  apply bind_Ok_inv in Hs as (sv & Hsv & Hs). apply bind_Ok_inv in Hs as (l & Hl & [= <- <- <-]).
  unfold build_from_cli in Hsv. apply bind_Ok_inv in Hsv as (config & Hcfg%map_err_Ok & Hsv).
  apply bind_Ok_inv in Hsv as (cl & Hcl & Hsv). apply bind_Ok_inv in Hsv as (? & _ & [= <-]).
  unfold build_admin_client in Hcl. apply bind_Ok_inv in Hcl as (key & Hk%map_err_Ok & Hcl).
  unfold listener_new in Hl. rewrite Hk in Hl. cbn [map_err mbind res_bind] in Hl.
  rewrite (admin_client_for_chain _ _ _ _ Hid) in Hcl. rewrite (admin_client_for_chain _ _ _ _ Hid) in Hl.
  cbn in Hcl, Hl.
  apply map_err_Ok in Hcl, Hl. split_and!; [done..|]. eauto.
Qed.

(** The URL of the relayer is asked for but never used. *)
Lemma admin_url_ignored signer signer' p u u' k id path pr :
  start signer signer' (mk_cli p u k id path pr) = start signer signer' (mk_cli p u' k id path pr).
Proof. reflexivity. Qed.
End StartUp.

(** ** The listener (admin_ws_listener.rs) *)
(** Milliseconds. *)
Definition RECONNECT_DELAY : Z := 5000.

(** [listen_order_updates] between its awaits, and the pause of [listen]; a
    stream knows whether the scan before it succeeded. *)
Inductive lphase :=
  | Connecting
  | Scanning
  | Streaming (scanned : bool)
  | Sleeping (until : Z).

(** An open order of the relayer; it is [settled] when it did not change since
    it was created or scanned last. *)
Record open_order := mk_open { o_order : ApiAdminOrder; settled : bool }.
Record listener := mk_listener {
  l_now : Z;
  l_phase : lphase;
  l_queue : list (update_type * ApiAdminOrder);      (* sent, not handled yet *)
  l_open : gmap Uuid open_order;
  l_session : nat;                                   (* subscriptions so far *)
  l_attempts : list (nat * Uuid);                    (* calls of [try_route_user_order] *)
  l_emitted : list label;                            (* what reaches the routing tasks *)
  l_tasks : nat;                                     (* tasks spawned *)
}.

Section Listener.
Context (GLOBAL_MATCHING_POOL : string) (route : ApiAdminOrder -> res anyhow (option ManagedPool)).

Definition listener_start : listener := mk_listener 0 Connecting [] ∅ 0 [] [] 0.
Definition in_global (o : ApiAdminOrder) : bool := bool_decide (matching_pool o = GLOBAL_MATCHING_POOL).

(** A task that calls [try_route_user_order]. *)
Definition spawn_route (s : listener) (o : ApiAdminOrder) : listener :=
  mk_listener (l_now s) (l_phase s) (l_queue s) (l_open s) (l_session s)
    (l_attempts s ++ [(l_session s, order_id o)])
    (l_emitted s ++ match route o with
                    | Ok (Some p) => [LRoute (l_tasks s) (order_id o) (pool_name p)]
                    | _ => []
                    end)
    (S (l_tasks s)).
(** server/mod.rs; [orders] is the answer of the admin API. *)
Definition process_open_orders (orders : res string (list ApiAdminOrder)) (s : listener)
    : res anyhow unit * listener :=
  match orders with
  | Ok global_orders => (Ok tt, foldl spawn_route s global_orders)
  | Err _ => (Err "Failed to fetch global pool orders"%string, s)
  | Panic => (Panic, s)
  end.
Definition handle_message (m : update_type * ApiAdminOrder) (s : listener) : listener :=
  let '(u, o) := m in
  let s :=
    if bool_decide (u = InternalFill)
    then mk_listener (l_now s) (l_phase s) (l_queue s) (l_open s) (l_session s) (l_attempts s)
           (l_emitted s ++ [LFill (order_id o)]) (l_tasks s)
    else s in
  if bool_decide (u = Created) && in_global o then spawn_route s o else s.

Definition with_phase (p : lphase) (s : listener) : listener :=
  mk_listener (l_now s) p (l_queue s) (l_open s) (l_session s) (l_attempts s) (l_emitted s) (l_tasks s).
Definition with_queue (q : list (update_type * ApiAdminOrder)) (s : listener) : listener :=
  mk_listener (l_now s) (l_phase s) q (l_open s) (l_session s) (l_attempts s) (l_emitted s) (l_tasks s).
Definition with_open (m : gmap Uuid open_order) (s : listener) : listener :=
  mk_listener (l_now s) (l_phase s) (l_queue s) m (l_session s) (l_attempts s) (l_emitted s) (l_tasks s).
Definition new_session (s : listener) : listener :=
  mk_listener (l_now s) Scanning [] (l_open s) (S (l_session s)) (l_attempts s) (l_emitted s) (l_tasks s).

Definition subscribed (p : lphase) : bool :=
  match p with Scanning | Streaming _ => true | _ => false end.
(** The relayer sends an update to a subscriber. *)
Definition publish (m : update_type * ApiAdminOrder) (s : listener) : listener :=
  if subscribed (l_phase s) then with_queue (l_queue s ++ [m]) s else s.
Definition global_orders (s : listener) : list ApiAdminOrder :=
  filter in_global (o_order <$> (map_to_list (l_open s)).*2).
Definition settle (s : listener) : listener :=
  with_open ((fun x => mk_open (o_order x) true) <$> l_open s) s.

Inductive llabel :=
  | RCreate (o : ApiAdminOrder)              (* the relayer *)
  | RUpdate (u : update_type) (o : ApiAdminOrder)
  | RClose (id : Uuid)
  | KSubscribe (ok : bool)                   (* the listener *)
  | KScan (ok : bool)
  | KMessage
  | KEnd                                     (* the stream ends, or the task panics *)
  | KWake
  | KTick (d : Z).

Definition lstep (l : llabel) (s : listener) : option listener :=
  match l with
  | RCreate o =>
      if decide (l_open s !! order_id o = None)
      then Some (publish (Created, o) (with_open (<[order_id o := mk_open o true]> (l_open s)) s)) else None
  | RUpdate u o =>
      if decide (is_Some (l_open s !! order_id o) /\ u <> Created)
      then Some (publish (u, o) (with_open (<[order_id o := mk_open o false]> (l_open s)) s)) else None
  | RClose id =>
      x ← l_open s !! id;
      Some (publish (OtherUpdate, o_order x) (with_open (delete id (l_open s)) s))
  | KSubscribe ok =>
      match l_phase s with
      | Connecting => Some (if ok then new_session s else with_phase (Sleeping (l_now s + RECONNECT_DELAY)) s)
      | _ => None
      end
  | KScan ok =>
      match l_phase s with
      | Scanning =>
          (* a failed scan is only logged *)
          let answer := if ok then Ok (global_orders s) else Err ""%string in
          let '(r, s) := process_open_orders answer s in
          Some (with_phase (Streaming ok) (if ok then settle s else s))
      | _ => None
      end
  | KMessage =>
      match l_phase s, l_queue s with
      | Streaming _, m :: q => Some (handle_message m (with_queue q s))
      | _, _ => None
      end
  | KEnd =>
      match l_phase s with
      | Sleeping _ => None
      | _ => Some (with_phase (Sleeping (l_now s + RECONNECT_DELAY)) (with_queue [] s))
      end
  | KWake =>
      match l_phase s with
      | Sleeping t => if t <=? l_now s then Some (with_phase Connecting s) else None
      | _ => None
      end
  | KTick d =>
      if bool_decide (0 <= d) && match l_phase s with Sleeping t => l_now s + d <=? t | _ => true end
      then Some (mk_listener (l_now s + d) (l_phase s) (l_queue s) (l_open s) (l_session s) (l_attempts s)
                   (l_emitted s) (l_tasks s)) else None
  end.
Fixpoint lrun (ls : list llabel) (s : listener) : option listener :=
  match ls with
  | [] => Some s
  | l :: ls => s' ← lstep l s; lrun ls s'
  end.

(** ** Invariants *)
(** What a spawn and a scan leave alone. *)
Lemma spawn_all (os : list ApiAdminOrder) s :
  let s' := foldl spawn_route s os in
  l_now s' = l_now s /\ l_phase s' = l_phase s /\ l_queue s' = l_queue s /\ l_open s' = l_open s /\
  l_session s' = l_session s /\
  l_attempts s' = l_attempts s ++ ((fun o => (l_session s, order_id o)) <$> os).
Proof.
  revert s. induction os as [|o os IH]; intros s; cbn zeta; [by rewrite app_nil_r|].
  destruct (IH (spawn_route s o)) as (H1 & H2 & H3 & H4 & H5 & H6). cbn [foldl].
  rewrite H1, H2, H3, H4, H5, H6. split_and!; [done..|]. cbn. by rewrite <- (assoc_L (++)).
Qed.
Lemma handle_message_frame m s :
  let s' := handle_message m s in
  l_now s' = l_now s /\ l_phase s' = l_phase s /\ l_queue s' = l_queue s /\ l_open s' = l_open s /\
  l_session s' = l_session s.
Proof. destruct m as [u o]. unfold handle_message. cbn zeta. by repeat case_match. Qed.

Definition well_keyed (s : listener) : Prop := map_Forall (fun id x => order_id (o_order x) = id) (l_open s).
(** After a scan that succeeded, a settled order of the global pool was tried in
    this session or its creation waits in the queue. *)
Definition tried_or_queued (s : listener) : Prop :=
  l_phase s = Streaming true ->
  forall id x, l_open s !! id = Some x -> settled x = true -> in_global (o_order x) = true ->
    (l_session s, id) ∈ l_attempts s \/ (Created, o_order x) ∈ l_queue s.
Definition pause_inv (s : listener) : Prop :=
  forall t, l_phase s = Sleeping t -> l_now s <= t <= l_now s + RECONNECT_DELAY.

(** The labels a message gives are those of [PoolRunner]. *)
Lemma handle_message_emits u o s :
  l_emitted (handle_message (u, o) s)
    = l_emitted s ++ handle_order_update GLOBAL_MATCHING_POOL u o (route o) (l_tasks s).
Proof.
  unfold handle_message, handle_order_update, in_global.
  destruct u; cbn; try (by rewrite app_nil_r). case_match; cbn; [done|by rewrite app_nil_r].
Qed.

Lemma publish_frame m s :
  l_now (publish m s) = l_now s /\ l_phase (publish m s) = l_phase s /\ l_open (publish m s) = l_open s /\
  l_session (publish m s) = l_session s /\ l_attempts (publish m s) = l_attempts s.
Proof. unfold publish. by case_match. Qed.
Lemma publish_queue m m' s : m' ∈ l_queue s -> m' ∈ l_queue (publish m s).
Proof. unfold publish. case_match; cbn; [|done]. intros ?. apply elem_of_app. by left. Qed.
Lemma publish_new m s : subscribed (l_phase s) = true -> m ∈ l_queue (publish m s).
Proof. unfold publish. intros ->. cbn. apply elem_of_app. right. by left. Qed.
Lemma elem_of_global_orders s id x :
  l_open s !! id = Some x -> in_global (o_order x) = true -> o_order x ∈ global_orders s.
Proof.
  intros Hx Hg. unfold global_orders. apply list_elem_of_filter. split; [by rewrite Hg|].
  apply list_elem_of_fmap. exists x. split; [done|]. apply list_elem_of_fmap. exists (id, x).
  split; [done|]. by apply elem_of_map_to_list.
Qed.

Lemma scan_frame (ok : bool) s :
  let s' := (process_open_orders (if ok then Ok (global_orders s) else Err ""%string) s).2 in
  l_now s' = l_now s /\ l_queue s' = l_queue s /\ l_open s' = l_open s /\ l_session s' = l_session s /\
  l_attempts s' = l_attempts s ++
    (if ok then (fun o => (l_session s, order_id o)) <$> global_orders s else []).
Proof.
  destruct ok; cbn; [|by rewrite app_nil_r].
  destruct (spawn_all (global_orders s) s) as (? & ? & ? & ? & ? & ?). done.
Qed.

(** The step of a scan. *)
Lemma scan_step (ok : bool) s s' :
  lstep (KScan ok) s = Some s' ->
  l_phase s = Scanning /\ l_phase s' = Streaming ok /\ l_now s' = l_now s /\ l_queue s' = l_queue s /\
  l_session s' = l_session s /\
  (forall id x', l_open s' !! id = Some x' -> exists x, l_open s !! id = Some x /\ o_order x = o_order x') /\
  l_attempts s' = l_attempts s ++
    (if ok then (fun o => (l_session s, order_id o)) <$> global_orders s else []).
Proof.
  cbn [lstep]. destruct (l_phase s); try discriminate. intros H.
  destruct (scan_frame ok s) as (H1 & H2 & H3 & H4 & H5).
  destruct (process_open_orders _ s) as [r s1]. cbn [snd] in *. injection H as <-.
  destruct ok; cbn; split_and!; try done.
  - intros id x'. rewrite H3, lookup_fmap. intros (x & Hx & ->)%fmap_Some. eauto.
  - intros id x'. rewrite H3. eauto.
Qed.

Lemma lstep_keyed l s s' : lstep l s = Some s' -> well_keyed s -> well_keyed s'.
Proof.
  unfold well_keyed. intros Hs Hk. destruct l; cbn [lstep] in Hs.
  - case_decide; [|discriminate]. injection Hs as <-.
    destruct (publish_frame (Created, o) (with_open (<[order_id o:=mk_open o true]> (l_open s)) s)) as (_ & _ & -> & _).
    by apply map_Forall_insert_2.
  - case_decide; [|discriminate]. injection Hs as <-.
    destruct (publish_frame (u, o) (with_open (<[order_id o:=mk_open o false]> (l_open s)) s)) as (_ & _ & -> & _).
    by apply map_Forall_insert_2.
  - apply bind_Some in Hs as (x & Hx & [= <-]).
    destruct (publish_frame (OtherUpdate, o_order x) (with_open (delete id (l_open s)) s)) as (_ & _ & -> & _).
    by apply map_Forall_delete.
  - destruct (l_phase s); try discriminate. injection Hs as <-. by destruct ok.
  - apply (scan_step ok) in Hs as (_ & _ & _ & _ & _ & Ho & _). intros id x' Hx'.
    destruct (Ho _ _ Hx') as (x & Hx & <-). by apply Hk.
  - destruct (l_phase s); try discriminate. destruct (l_queue s) as [|m q]; [discriminate|].
    injection Hs as <-. destruct (handle_message_frame m (with_queue q s)) as (_ & _ & _ & -> & _). done.
  - by destruct (l_phase s); simplify_eq.
  - destruct (l_phase s); try discriminate. case_match; by simplify_eq.
  - case_match; by simplify_eq.
Qed.

(** The relayer changes its orders and publishes an update. *)
Lemma publish_tried m u s :
  tried_or_queued s ->
  (forall id x, m !! id = Some x -> settled x = true ->
     l_open s !! id = Some x \/ u = (Created, o_order x)) ->
  tried_or_queued (publish u (with_open m s)).
Proof.
  intros Ht Hm. destruct (publish_frame u (with_open m s)) as (_ & Hp & Ho & He & Ha).
  intros Hph id x. rewrite Hp in Hph. rewrite Ho, He, Ha. cbn in *. intros Hx Hset Hg.
  destruct (Hm id x Hx Hset) as [Hx'| ->].
  - destruct (Ht Hph id x Hx' Hset Hg); [by left|]. right. by apply publish_queue.
  - right. apply publish_new. cbn. by rewrite Hph.
Qed.
Lemma lstep_tried l s s' :
  lstep l s = Some s' -> well_keyed s -> tried_or_queued s -> tried_or_queued s'.
Proof.
  intros Hs Hk Ht. destruct l; cbn [lstep] in Hs.
  - case_decide; [|discriminate]. injection Hs as <-. apply publish_tried; [done|].
    intros id x [[<- <-]|[_ Hx]]%lookup_insert_Some _; auto.
  - case_decide; [|discriminate]. injection Hs as <-. apply publish_tried; [done|].
    intros id x [[<- <-]|[_ Hx]]%lookup_insert_Some Hset; [discriminate Hset|auto].
  - apply bind_Some in Hs as (y & _ & [= <-]). apply publish_tried; [done|].
    intros id' x [_ Hx]%lookup_delete_Some _. auto.
  - destruct (l_phase s); try discriminate. injection Hs as <-. intros Hph. by destruct ok.
  - apply (scan_step ok) in Hs as (_ & Hph & _ & _ & He & Ho & Ha). intros Hph' id x' Hx' _ Hg.
    rewrite Hph in Hph'. injection Hph' as ->. left. rewrite He, Ha. apply elem_of_app. right.
    destruct (Ho _ _ Hx') as (x & Hx & Heq). apply list_elem_of_fmap. exists (o_order x).
    split; [|by eapply elem_of_global_orders; [|rewrite Heq]]. f_equal. symmetry. by apply Hk.
  - destruct (l_phase s) eqn:Ep; try discriminate. destruct (l_queue s) as [|m q] eqn:Eq; [discriminate|].
    injection Hs as <-. destruct (handle_message_frame m (with_queue q s)) as (_ & Hp & Hq & Ho & He).
    intros Hph id x. rewrite Hp in Hph. cbn in Hph. rewrite Ho, He. cbn. intros Hx Hset Hg.
    specialize (Hk _ _ Hx). rewrite Hq. cbn.
    destruct (Ht Hph id x Hx Hset Hg) as [Hin|Hin].
    + left. destruct m as [u o]. unfold handle_message. repeat case_match; cbn; try apply elem_of_app; auto.
    + rewrite Eq in Hin. apply elem_of_cons in Hin as [<- |]; [|by right].
      left. unfold handle_message. rewrite Hg. cbn. apply elem_of_app. right. rewrite Hk. by left.
  - by destruct (l_phase s); simplify_eq.
  - destruct (l_phase s); try discriminate. case_match; by simplify_eq.
  - case_match; [|discriminate]. injection Hs as <-. exact Ht.
Qed.

Lemma publish_pause m u s : pause_inv s -> pause_inv (publish u (with_open m s)).
Proof.
  intros Hi t. destruct (publish_frame u (with_open m s)) as (-> & -> & _). apply Hi.
Qed.
Lemma lstep_pause l s s' : lstep l s = Some s' -> pause_inv s -> pause_inv s'.
Proof.
  intros Hs Hi. destruct l; cbn [lstep] in Hs.
  1,2: case_decide; [|discriminate]; injection Hs as <-; by apply publish_pause.
  { apply bind_Some in Hs as (y & _ & [= <-]). by apply publish_pause. }
  all: intros t Ht; unfold RECONNECT_DELAY in *.
  - destruct (l_phase s); try discriminate. injection Hs as <-. destruct ok; [discriminate|].
    cbn in *. injection Ht as <-. lia.
  - apply scan_step in Hs as (_ & Hp & _). by rewrite Hp in Ht.
  - destruct (l_phase s) eqn:Ep; try discriminate. destruct (l_queue s) as [|m q]; [discriminate|].
    injection Hs as <-. destruct (handle_message_frame m (with_queue q s)) as (_ & Hp & _).
    rewrite Hp in Ht. cbn in Ht. congruence.
  - destruct (l_phase s); try discriminate; injection Hs as <-; cbn in *; injection Ht as <-; lia.
  - destruct (l_phase s); try discriminate. case_match; by simplify_eq.
  - case_match eqn:E; [|discriminate]. injection Hs as <-. cbn in *. rewrite Ht in E.
    apply andb_true_iff in E as [E1%bool_decide_eq_true E2%Z.leb_le]. specialize (Hi _ Ht). unfold RECONNECT_DELAY in *. lia.
Qed.

Lemma lrun_app ls ls' s : lrun (ls ++ ls') s = lrun ls s ≫= lrun ls'.
Proof. revert s. induction ls as [|l ls IH]; intros s; cbn; [done|]. destruct (lstep l s); cbn; [apply IH|done]. Qed.
Lemma lrun_inv ls s0 s :
  lrun ls s0 = Some s -> well_keyed s0 -> tried_or_queued s0 -> pause_inv s0 ->
  well_keyed s /\ tried_or_queued s /\ pause_inv s.
Proof.
  revert s0. induction ls as [|l ls IH]; intros s0; cbn; [by intros [= <-]|].
  intros (s1 & H1 & H)%bind_Some Hk Ht Hp.
  eauto using lstep_keyed, lstep_tried, lstep_pause.
Qed.
Lemma listener_reachable ls s :
  lrun ls listener_start = Some s -> well_keyed s /\ tried_or_queued s /\ pause_inv s.
Proof. intros H. apply (lrun_inv _ _ _ H); [apply map_Forall_empty|done|done]. Qed.

(** C24. No order is missed: while the listener is connected after a scan that
    succeeded, and has handled the updates sent to it, every open order of the
    global pool was handed to routing in this session, unless it changed since
    it was created or scanned.  Subscribing before the scan is what makes this
    hold for orders created while the scan runs. *)
Theorem no_order_missed ls s id x :
  lrun ls listener_start = Some s ->
  l_phase s = Streaming true -> l_queue s = [] ->
  l_open s !! id = Some x -> settled x = true -> in_global (o_order x) = true ->
  (l_session s, id) ∈ l_attempts s.
Proof.
  intros Hr Hp Hq Hx Hset Hg. apply listener_reachable in Hr as (_ & Ht & _).
  destruct (Ht Hp id x Hx Hset Hg) as [|Hin]; [done|]. rewrite Hq in Hin. by apply elem_of_nil in Hin.
Qed.

(** The steps of the listener itself when its calls succeed. *)
Definition reconnect (s : listener) : list llabel :=
  match l_phase s with
  | Connecting => [KSubscribe true; KScan true]
  | Scanning => [KScan true]
  | Sleeping t => [KTick (t - l_now s); KWake; KSubscribe true; KScan true]
  | Streaming _ => []
  end.

Lemma connect_run s : l_phase s = Connecting ->
  exists s1, lrun [KSubscribe true] s = Some s1 /\ l_phase s1 = Scanning /\ l_now s1 = l_now s /\
    l_open s1 = l_open s.
Proof. intros Hp. cbn. rewrite Hp. cbn. eauto. Qed.
Lemma scan_run s : l_phase s = Scanning -> exists s', lrun [KScan true] s = Some s'.
Proof. intros Hp. cbn. rewrite Hp. cbn. eauto. Qed.
Lemma wake_run s t : l_phase s = Sleeping t -> l_now s <= t ->
  exists s1, lrun [KTick (t - l_now s); KWake] s = Some s1 /\ l_phase s1 = Connecting /\ l_now s1 = t /\
    l_open s1 = l_open s.
Proof.
  intros Hp Ht. cbn. rewrite Hp, bool_decide_true by lia.
  replace (l_now s + (t - l_now s)) with t by lia. rewrite Z.leb_refl. cbn. rewrite Z.leb_refl. cbn. eauto.
Qed.

Lemma scanned_all s s' id x :
  well_keyed s -> lrun [KScan true] s = Some s' -> l_open s !! id = Some x ->
  in_global (o_order x) = true ->
  l_phase s' = Streaming true /\ l_now s' = l_now s /\ (l_session s', id) ∈ l_attempts s'.
Proof.
  cbn [lrun]. intros Hk (s1 & Hs & [= <-])%bind_Some Hx Hg.
  apply scan_step in Hs as (_ & Hp & Hn & _ & He & _ & Ha). split_and!; [done..|].
  rewrite He, Ha. apply elem_of_app. right. apply list_elem_of_fmap. exists (o_order x).
  split; [f_equal; symmetry; by apply Hk|]. by eapply elem_of_global_orders.
Qed.

(** The listener recovers: from any state it can get into without a stream, it
    is connected again within the pause of five seconds when its calls succeed,
    and every order that is open in the global pool was handed to routing. *)
Theorem listener_recovers ls s id x :
  lrun ls listener_start = Some s -> (forall b, l_phase s <> Streaming b) ->
  l_open s !! id = Some x -> in_global (o_order x) = true ->
  exists s', lrun (reconnect s) s = Some s' /\ l_phase s' = Streaming true /\
    l_now s' <= l_now s + RECONNECT_DELAY /\ (l_session s', id) ∈ l_attempts s'.
Proof.
  intros Hr Hns Hx Hg. apply listener_reachable in Hr as (Hk & _ & Hp).
  assert (forall s1, l_phase s1 = Connecting -> l_open s1 = l_open s ->
    exists s', lrun ([KSubscribe true] ++ [KScan true]) s1 = Some s' /\ l_phase s' = Streaming true /\
      l_now s' = l_now s1 /\ (l_session s', id) ∈ l_attempts s') as Hc.
  { intros s1 Hph Ho. destruct (connect_run s1 Hph) as (s2 & H2 & Hp2 & Hn2 & Ho2).
    destruct (scan_run s2 Hp2) as [s3 H3]. exists s3. rewrite lrun_app, H2.
    assert (well_keyed s2) as Hk2 by (unfold well_keyed; by rewrite Ho2, Ho).
    rewrite <- Ho, <- Ho2 in Hx. destruct (scanned_all _ _ _ _ Hk2 H3 Hx Hg) as (? & ? & ?).
    split_and!; [exact H3|done|congruence|done]. }
  unfold reconnect. unfold pause_inv, RECONNECT_DELAY in *. destruct (l_phase s) as [| |b|t] eqn:Ep.
  - destruct (Hc s Ep eq_refl) as (s' & H1 & H2 & H3 & H4). exists s'. split_and!; [done|done|lia|done].
  - destruct (scan_run s Ep) as [s' Hs']. exists s'. destruct (scanned_all _ _ _ _ Hk Hs' Hx Hg) as (? & ? & ?).
    split_and!; [done|done|lia|done].
  - by destruct (Hns b).
  - destruct (Hp t eq_refl) as [Ht1 Ht2]. destruct (wake_run s t Ep Ht1) as (s1 & H1 & Hp1 & Hn1 & Ho1).
    destruct (Hc s1 Hp1 Ho1) as (s' & H2 & H3 & H4 & H5). exists s'.
    change (lrun ([KTick (t - l_now s); KWake] ++ [KSubscribe true; KScan true]) s = Some s' /\
      l_phase s' = Streaming true /\ l_now s' <= l_now s + 5000 /\ (l_session s', id) ∈ l_attempts s').
    rewrite lrun_app, H1. split_and!; [done|done|lia|done].
Qed.
End Listener.

(** An attempt that ends is counted twice: as an attempt, and once by how its
    wait ended. *)
Lemma attempts_counted pool r :
  attempt_counters pool (match_result pool r)
    = [record_reassign_attempt pool;
       match r with
       | Filled => record_reassign_success pool
       | TimedOut => record_reassign_timeout pool
       | Closed => record_reassign_failure pool "Fill waiter channel closed unexpectedly"
       end].
Proof.
  destruct r; [reflexivity..|]. cbn [match_result]. unfold attempt_counters. by rewrite (proj1 (timeouts_recognized pool)).
Qed.

(** ** Witnesses *)
Module PoolListenerWitness.
Definition order1 : ApiAdminOrder := PoolRunner.mk_order 7 1 2 100 "global".
Definition route1 (o : ApiAdminOrder) : res anyhow (option ManagedPool) :=
  Ok (Some (mk_pool "large" ["BTC"%string] f1 None)).
Definition trace1 : list llabel := [KSubscribe true; RCreate order1; KScan true; KMessage].

Definition final (ls : list llabel) : listener :=
  default listener_start (lrun "global" route1 ls listener_start).

(** An order that is created between the subscription and the scan is handed to
    routing twice: by the scan and by its update. *)
Lemma scan_window_routes_twice :
  lrun "global" route1 trace1 listener_start = Some (final trace1) /\
  l_attempts (final trace1) = [(1%nat, 7); (1%nat, 7)] /\
  l_emitted (final trace1) = [LRoute 0 7 "large"; LRoute 1 7 "large"].
Proof. vm_compute. repeat split. Qed.

(** After a scan that failed, orders created before are not handed to routing
    while the stream lives. *)
Definition trace2 : list llabel := [RCreate order1; KSubscribe true; KScan false; KTick 3600000].
Lemma failed_scan_waits :
  lrun "global" route1 trace2 listener_start = Some (final trace2) /\
  l_phase (final trace2) = Streaming false /\ l_attempts (final trace2) = [] /\ l_queue (final trace2) = [].
Proof. vm_compute. repeat split. Qed.

Lemma no_order_missed_witness : (1%nat, 7) ∈ l_attempts (final trace1).
Proof.
  apply (no_order_missed "global" route1 trace1 (final trace1) 7 (mk_open order1 true));
    vm_compute; reflexivity.
Defined.
Definition trace3 : list llabel := [RCreate order1; KSubscribe false].
Lemma listener_recovers_witness :
  exists s', lrun "global" route1 (reconnect (final trace3)) (final trace3) = Some s' /\
    (l_session s', 7) ∈ l_attempts s'.
Proof.
  destruct (listener_recovers "global" route1 trace3 (final trace3) 7 (mk_open order1 true))
    as (s' & H & _ & _ & Hin); [vm_compute; reflexivity|vm_compute; discriminate|vm_compute; reflexivity..|].
  exists s'. split; [exact H|exact Hin].
Defined.

#[local] Instance sdk1 : Sdk.
Proof.
  refine {| ARBITRUM_ONE_CHAIN_ID := 42161; ARBITRUM_SEPOLIA_CHAIN_ID := 421614;
            BASE_MAINNET_CHAIN_ID := 8453; BASE_SEPOLIA_CHAIN_ID := 84532;
            ETHEREUM_SEPOLIA_CHAIN_ID := 11155111; HmacKey := string;
            from_base64_string s := Ok s; RenegadeClient := Chain * string;
            new_admin c _ k := Ok (c, k); int_text _ := ""%string |}.
  abstract (apply (bool_decide_unpack _); vm_compute; reflexivity).
Defined.
Definition cli1 : Cli := mk_cli 3000 "" "key" 8453 "s3://b/k" "http://p".
Definition start1 := start (fun _ => Ok tt) (fun _ => Ok []) (fun _ => Ok tt) 1 2 cli1.
Lemma start_one_chain_witness : chain_id_of BaseMainnet = Some 8453.
Proof.
  apply (start_one_chain (S := sdk1) (fun _ => Ok tt) (fun _ => Ok []) (fun _ => Ok tt) 1 2 cli1 BaseMainnet
    ((BaseMainnet, "key"%string), []) (BaseMainnet, "key"%string)). reflexivity.
Defined.
Lemma config_source_witness :
  load_runner_config (fun _ => Panic) (fun b k => Ok (b +:+ k)%string) (fun _ => Ok []) "s3://b/k/x" = Ok [].
Proof.
  apply (config_source (fun _ => Panic) (fun b k => Ok (b +:+ k)%string) (fun _ => Ok []) "b" "k/x").
  reflexivity.
Defined.
End PoolListenerWitness.
