(* ===== verification/FundsManager.v ===== *)
(** * Common parts of the funds manager (funds-manager-server: error.rs, helpers.rs,
    middleware.rs, server.rs, main.rs; funds-manager-api: auth.rs)

    Errors and the replies they become, names and identifiers of chains, the
    authentication of requests, and the choice of a client per chain. *)
From Stdlib Require Import ZArith Lia Ascii.
From stdpp Require Import gmap strings list sorting.
From S2P Require Import Prelude F64 AuthError.
From S2P Require Swap.
Local Open Scope Z_scope.

(** ** error.rs *)
Inductive FundsManagerError :=
  | OnChain (msg : string)
  | Db (msg : string)
  | FireblocksError (msg : string)
  | HttpError (msg : string)
  | ParseError (msg : string)
  | SecretsManager (msg : string)
  | S3 (msg : string)
  | JsonRpc (msg : string)
  | PriceReporterError (e : PriceReporterClientError)
  | Conversion (msg : string)
  | ExecutionClient (e : Swap.ExecutionClientError)
  | CustomError (msg : string).

Inductive ApiError :=
  | IndexingError (msg : string)
  | RedemptionError (msg : string)
  | InternalError (msg : string)
  | BadRequestError (msg : string)
  | Unauthenticated (msg : string).

(** [Display] of the errors. *)
Definition price_client_error_to_string (e : PriceReporterClientError) : string :=
  match e with
  | PRSetup m => "Setup error: " +:+ m
  | PRParsing m => "Parsing error: " +:+ m
  | PRConversion m => "Conversion error: " +:+ m
  | PRHttp m => "HTTP error: " +:+ m
  | PRWebSocket m => "WebSocket error: " +:+ m
  | PRStreamMissing m => "No price stream for " +:+ m
  | PRCustom m => "Custom error: " +:+ m
  end.
Definition execution_error_to_string (e : Swap.ExecutionClientError) : string :=
  match e with
  | Swap.Custom m => "custom error: " +:+ m
  | Swap.Http m => "http error: " +:+ m
  | Swap.OnChain m => "on-chain error: " +:+ m
  | Swap.Parse m => "parse error: " +:+ m
  | Swap.PriceReporter e => "price reporter error: " +:+ price_client_error_to_string e
  | Swap.QuoteValidation m => "quote validation error: " +:+ m
  | Swap.QuoteConversion m => "quote conversion error: " +:+ m
  end.
Definition funds_error_to_string (e : FundsManagerError) : string :=
  match e with
  | OnChain m => "On-chain error: " +:+ m
  | Db m => "Database error: " +:+ m
  | HttpError m => "HTTP error: " +:+ m
  | ParseError m => "Parse error: " +:+ m
  | SecretsManager m => "Secrets manager error: " +:+ m
  | S3 m => "S3 error: " +:+ m
  | JsonRpc m => "JSON-RPC error: " +:+ m
  | CustomError m => "Uncategorized error: " +:+ m
  | FireblocksError m => "Fireblocks error: " +:+ m
  | PriceReporterError e => "Price reporter error: " +:+ price_client_error_to_string e
  | ExecutionClient e => "Execution client error: " +:+ execution_error_to_string e
  | Conversion m => "Conversion error: " +:+ m
  end.
Definition api_error_to_string (e : ApiError) : string :=
  match e with
  | IndexingError m => "Indexing error: " +:+ m
  | RedemptionError m => "Redemption error: " +:+ m
  | InternalError m => "Internal error: " +:+ m
  | BadRequestError m => "Bad request: " +:+ m
  | Unauthenticated m => "Unauthenticated: " +:+ m
  end.

(** A handler rejects with an [ApiError] or, through [?] on a client's result,
    with a [FundsManagerError]. *)
Inductive rejection := ApiRejection (e : ApiError) | FundsRejection (e : FundsManagerError).

(** main.rs, [handle_rejection]: [None] leaves the rejection to warp, which
    answers an unknown one with 500. *)
Definition handle_rejection (r : rejection) : option (Z * string) :=
  match r with
  | ApiRejection (IndexingError msg) => Some (400, msg)
  | ApiRejection (RedemptionError msg) => Some (400, msg)
  | ApiRejection (InternalError msg) => Some (500, msg)
  | ApiRejection (BadRequestError msg) => Some (400, msg)
  | ApiRejection (Unauthenticated msg) => Some (401, msg)
  | FundsRejection _ => None
  end.

(** The order in which the database returns rows is not specified: [first_row] is
    the row that LIMIT 1 returns. *)
Class RowOrder (R : Type) := {
  first_row : list R -> option R;
  first_row_in l w : first_row l = Some w -> w ∈ l;
  first_row_none l : first_row l = None -> l = [];
}.

(** ** helpers.rs: sending a transaction *)
Module SendTx.
Definition TX_MAX_RETRIES : nat := 5.
Definition ERR_NONCE_TOO_LOW : string := "nonce too low".

(** How the node answers a submission: with an error response, with a
    transport error after which it may have the transaction or not, or by
    accepting it, after which the receipt may still fail to arrive. *)
Inductive send_outcome (Receipt : Type) :=
  | ErrorResp (message : string)
  | TransportError (reached : bool) (e : string)
  | Pending (receipt : res string Receipt).
Arguments ErrorResp {_} _.
Arguments TransportError {_} _ _.
Arguments Pending {_} _.

(** [submit] enters a transaction that reached the pool in the state. *)
Section Retry.
Context {S E Tx Receipt : Type} (on_chain : string -> E) (submit : Tx -> S -> S).
Fixpoint send_loop (retries : nat) (outs : nat -> send_outcome Receipt) (i : nat) (tx : Tx) : eff S E Receipt :=
  match retries with
  | O => lift (Err (on_chain "Transaction failed after retries"))
  | Datatypes.S retries =>
      match outs i with
      | ErrorResp message =>
          if str_contains ERR_NONCE_TOO_LOW message then send_loop retries outs (Datatypes.S i) tx
          else lift (Err (on_chain message))
      | TransportError reached e =>
          _ ← modify (if reached then submit tx else id);
          lift (Err (on_chain e))
      | Pending receipt =>
          _ ← modify (submit tx);
          lift (map_err on_chain receipt)
      end
  end.
Definition send_tx_with_retry (outs : nat -> send_outcome Receipt) (tx : Tx) : eff S E Receipt :=
  send_loop TX_MAX_RETRIES outs 0 tx.

(** The node confirmed the transaction: after answers that the nonce is too
    low, within the retries, it accepted it and gave its receipt. *)
Definition confirmed (outs : nat -> send_outcome Receipt) (i n : nat) (rc : Receipt) : Prop :=
  exists j, (i <= j < i + n)%nat /\ outs j = Pending (Ok rc) /\
    forall k, (i <= k < j)%nat -> exists message,
      outs k = ErrorResp message /\ str_contains ERR_NONCE_TOO_LOW message = true.

Lemma confirmed_S outs i n rc :
  confirmed outs i (Datatypes.S n) rc <->
  outs i = Pending (Ok rc) \/
  ((exists message, outs i = ErrorResp message /\ str_contains ERR_NONCE_TOO_LOW message = true) /\
   confirmed outs (Datatypes.S i) n rc).
Proof.
  split.
  - intros (j & Hj & Ho & Hk). destruct (decide (j = i)) as [->|]; [by left|right].
    split; [apply Hk; lia|]. exists j. split_and!; [lia|lia|done|]. intros k ?. apply Hk. lia.
  - intros [Ho|(Hm & j & Hj & Ho & Hk)].
    + exists i. split_and!; [lia|lia|done|]. intros k ?. lia.
    + exists j. split_and!; [lia|lia|done|]. intros k ?.
      destruct (decide (k = i)) as [->|]; [done|]. apply Hk. lia.
Qed.

(** A transaction reaches the pool at most once; the receipt is the one that
    confirms it, if any. *)
Lemma send_loop_cases n outs i tx s r s' :
  send_loop n outs i tx s = (r, s') ->
  (s' = s \/ s' = submit tx s) /\
  forall rc, (r = Ok rc <-> confirmed outs i n rc) /\ (r = Ok rc -> s' = submit tx s).
Proof.
  revert i. induction n as [|n IH]; intros i; cbn.
  { unfold lift. intros [= <- <-]. split; [by left|]. intros rc. split; [|done].
    split; [done|]. intros (j & ? & _). lia. }
  assert (Hno : (forall rc, outs i <> Pending (Ok rc)) ->
    (~ exists message, outs i = ErrorResp message /\ str_contains ERR_NONCE_TOO_LOW message = true) ->
    forall rc, ~ confirmed outs i (Datatypes.S n) rc).
  { intros H1 H2 rc [?%H1|[? _]]%confirmed_S; done. }
  destruct (outs i) as [msg|reached e|receipt] eqn:Ho; cbn.
  - destruct (str_contains _ msg) eqn:Em.
    + intros H. destruct (IH _ H) as [Hs Hrc]. split; [done|]. intros rc. destruct (Hrc rc) as [Hc Hsub].
      split; [|done]. rewrite Hc, confirmed_S, Ho. naive_solver.
    + unfold lift. intros [= <- <-]. split; [by left|]. intros rc. split; [|done].
      split; [done|]. intros Hcf. exfalso. revert Hcf. apply Hno; rewrite ?Ho; [done|].
      intros (m & [= ?] & ?). congruence.
  - unfold lift, modify, mbind, eff_bind. intros [= <- <-]. split; [destruct reached; auto|].
    intros rc. split; [|done]. split; [done|]. intros Hcf. exfalso. revert Hcf. apply Hno; rewrite ?Ho; [done|].
    by intros (m & [=] & ?).
  - unfold lift, modify, mbind, eff_bind. intros [= <- <-]. split; [by right|].
    intros rc. split; [|done]. rewrite confirmed_S, Ho. destruct receipt; cbn; naive_solver.
Qed.

End Retry.
End SendTx.

(** ** helpers.rs: chains *)
Inductive Environment := Mainnet | Testnet.

(** The text of a chain and its parser are the library's. *)
Section Chains.
Context (chain_to_string : Chain -> string) (chain_from_str : string -> option Chain).

Definition to_env_agnostic_name (c : Chain) : string :=
  match c with
  | ArbitrumOne | ArbitrumSepolia => "arbitrum"
  | BaseMainnet | BaseSepolia => "base"
  | EthereumMainnet | EthereumSepolia => "ethereum"
  | Devnet => chain_to_string c
  end.
Definition from_env_agnostic_name (chain : string) (environment : Environment) : res string Chain :=
  let arb_chain := match environment with Mainnet => ArbitrumOne | Testnet => ArbitrumSepolia end in
  let base_chain := match environment with Mainnet => BaseMainnet | Testnet => BaseSepolia end in
  let ethereum_chain := match environment with Mainnet => EthereumMainnet | Testnet => EthereumSepolia end in
  if String.eqb chain "arbitrum" then Ok arb_chain
  else if String.eqb chain "base" then Ok base_chain
  else if String.eqb chain "ethereum" then Ok ethereum_chain
  else unwrap (chain_from_str chain).
End Chains.

Definition to_chain_id (c : Chain) : Z :=
  match c with
  | ArbitrumOne => 42161
  | ArbitrumSepolia => 421614
  | BaseMainnet => 8453
  | BaseSepolia => 84532
  | EthereumMainnet => 1
  | EthereumSepolia => 11155111
  | Devnet => 0
  end.
Definition from_chain_id (chain_id : Z) : res string Chain :=
  if chain_id =? 42161 then Ok ArbitrumOne
  else if chain_id =? 421614 then Ok ArbitrumSepolia
  else if chain_id =? 8453 then Ok BaseMainnet
  else if chain_id =? 84532 then Ok BaseSepolia
  else if chain_id =? 1 then Ok EthereumMainnet
  else if chain_id =? 11155111 then Ok EthereumSepolia
  else if chain_id =? 0 then Ok Devnet
  else Err "Invalid chain ID"%string.

Definition upper_ascii (c : Ascii.ascii) : Ascii.ascii :=
  let n := Ascii.N_of_ascii c in
  if ((97 <=? n) && (n <=? 122))%N then Ascii.ascii_of_N (n - 32)%N else c.
(** [split_whitespace] drops the empty parts; the words of a name are separated
    by spaces. *)
Definition titlecase (s : string) : string :=
  String.concat " "
    (map (fun w => match w with EmptyString => EmptyString | String c w => String (upper_ascii c) w end)
         (filter (fun w => w <> EmptyString) (split_on " "%char s))).

(** server.rs: the clients are kept per chain. *)
Definition get_client {A} (chain_to_string : Chain -> string) (clients : Chain -> option A) (what : string) (c : Chain)
    : res FundsManagerError A :=
  ok_or (clients c) (CustomError ("No " +:+ what +:+ " configured for " +:+ chain_to_string c)%string).

(** ** auth.rs of the API: the bytes that a v1 signature covers *)
Definition RENEGADE_HEADER_PREFIX : string := "x-renegade-".
Abbreviation headers := (list (string * string)).

Definition header_le (a b : string * string) : Prop := String.leb a.1 b.1 = true.
#[export] Instance header_le_dec : RelDecision header_le.
Proof. intros a b. unfold header_le. apply _. Defined.
Definition get_header_bytes (hs : headers) : string :=
  let renegade_headers :=
    omap (fun h => let key := to_lowercase h.1 in
                   if String.prefix RENEGADE_HEADER_PREFIX key then Some (key, h.2) else None) hs in
  let sorted := merge_sort header_le renegade_headers in
  String.concat "" (map (fun h => h.1 +:+ h.2)%string sorted).
Definition get_request_bytes (method path : string) (hs : headers) (body : string) : string :=
  (method +:+ path +:+ get_header_bytes hs +:+ body)%string.

(** ** middleware.rs *)
Record request := mk_request {
  rq_path : string;                 (* with the query after a question mark *)
  rq_signature : option string;
  rq_method : string;
  rq_headers : headers;
  rq_body : string;
}.

Section Auth.
(** The key, the v2 check (expiring signatures, renegade_api), hex and the MAC. *)
Context {Key : Type} (validate_expiring_auth : string -> headers -> string -> Key -> bool)
  (hex_decode : string -> option string) (verify_mac : Key -> string -> string -> bool).

Definition path_of (path : string) : string := default path (head (split_on "?"%char path)).
Definition verify_hmac (hmac_key : option Key) (rq : request) : res ApiError string :=
  match hmac_key with
  | None => Ok (rq_body rq)
  | Some key =>
      if validate_expiring_auth (rq_path rq) (rq_headers rq) (rq_body rq) key then Ok (rq_body rq)
      else
        signature ← ok_or (rq_signature rq) (Unauthenticated "Missing signature");
        let expected := get_request_bytes (rq_method rq) (path_of (rq_path rq)) (rq_headers rq) (rq_body rq) in
        provided ← ok_or (hex_decode signature) (BadRequestError "Invalid signature");
        if verify_mac key expected provided then Ok (rq_body rq)
        else Err (Unauthenticated "Invalid signature")
  end.
Definition with_json_body {T} (decode : string -> res string T) (body : string) : res ApiError T :=
  map_err (fun e => BadRequestError ("Invalid JSON: " +:+ e)%string) (decode body).

(** A request passes exactly when authentication is off, when its expiring
    signature is accepted, or when the MAC in its header verifies for the bytes
    of method, path without query, renegade headers and body; it then reaches
    the handler with its body unchanged, and is otherwise refused with 400 or
    401. *)
Theorem hmac_gate hmac_key rq :
  match verify_hmac hmac_key rq with
  | Ok body => body = rq_body rq /\
      match hmac_key with
      | None => True
      | Some key =>
          validate_expiring_auth (rq_path rq) (rq_headers rq) (rq_body rq) key = true \/
          exists sig mac, rq_signature rq = Some sig /\ hex_decode sig = Some mac /\
            verify_mac key (get_request_bytes (rq_method rq) (path_of (rq_path rq)) (rq_headers rq) (rq_body rq)) mac = true
      end
  | Err e => exists code msg, handle_rejection (ApiRejection e) = Some (code, msg) /\ (code = 400 \/ code = 401)
  | Panic => False
  end.
Proof.
  unfold verify_hmac. destruct hmac_key as [key|]; [|done].
  destruct (validate_expiring_auth _ _ _ _) eqn:Hv; [by auto|].
  destruct (rq_signature rq) as [sig|]; cbn; [|by eauto].
  destruct (hex_decode sig) as [mac|] eqn:Hh; cbn; [|by eauto].
  destruct (verify_mac _ _ _) eqn:Hm; [|by eauto]. split; [done|]. right. by exists sig, mac.
Qed.

(** The v1 signature leaves out the query and a time: it verifies for any query
    on the path, at any later time. *)
Lemma v1_ignores_query key p q q' rq :
  str_mem "?"%char p = false ->
  (forall path, validate_expiring_auth path (rq_headers rq) (rq_body rq) key = false) ->
  verify_hmac (Some key) (mk_request (p +:+ String "?"%char q)%string (rq_signature rq) (rq_method rq) (rq_headers rq) (rq_body rq)) =
  verify_hmac (Some key) (mk_request (p +:+ String "?"%char q')%string (rq_signature rq) (rq_method rq) (rq_headers rq) (rq_body rq)).
Proof.
  intros Hp Hv. unfold verify_hmac, path_of. cbn [rq_path rq_headers rq_body rq_signature rq_method].
  rewrite !Hv, !split_on_app by done. done.
Qed.
End Auth.

(** Identifiers of chains are read back. *)
Lemma chain_id_roundtrip c : from_chain_id (to_chain_id c) = Ok c.
Proof. by destruct c. Qed.
Lemma chain_name_roundtrip show parse c env :
  c <> Devnet ->
  exists c', from_env_agnostic_name parse (to_env_agnostic_name show c) env = Ok c' /\
             to_env_agnostic_name show c' = to_env_agnostic_name show c.
Proof. destruct c, env; cbn; eauto; naive_solver. Qed.

(** The signed bytes do not mark where the path ends and the body begins. *)
Lemma request_bytes_ambiguous method path body :
  get_request_bytes method (path +:+ body)%string [] "" = get_request_bytes method path [] body.
Proof.
  assert (forall a, (a +:+ "")%string = a) as Hnil.
  { unfold String.append. intros a. induction a as [|c a IH]; cbn; [done|by rewrite IH]. }
  unfold get_request_bytes. cbn. by rewrite Hnil.
Qed.
