(* ===== verification/GasWallets.v ===== *)
(** * The pool of gas wallets (funds-manager: custody_client/gas_wallets.rs)

    Relayers draw a wallet that pays their gas from a pool in the database.  A
    wallet is [Inactive] in the pool, [Active] for a peer, or [Pending] after the
    peer was missing from a report.  Operations act on [gas_state]: the rows of
    the chain of the client (every query filters on it), the secrets manager and
    the transfers sent.  What the database, the secrets manager and the RPC node
    answer is the environment; a query that fails has no effect. *)
From Stdlib Require Import ZArith Lia.
From stdpp Require Import gmap strings list.
From S2P Require Import Prelude F64 AuthError FundsManager.
Local Open Scope Z_scope.

Create HintDb gas discriminated.

(** ** Rows (db/models.rs) *)
Inductive GasWalletStatus := Active | Pending | Inactive.
#[export] Instance status_eq_dec : EqDecision GasWalletStatus.
Proof. solve_decision. Defined.

Definition status_to_string (s : GasWalletStatus) : string :=
  match s with Active => "active" | Pending => "pending" | Inactive => "inactive" end.
Definition status_from_str (s : string) : res string GasWalletStatus :=
  if String.eqb s "active" then Ok Active
  else if String.eqb s "pending" then Ok Pending
  else if String.eqb s "inactive" then Ok Inactive
  else Err ("Invalid gas wallet status: " +:+ s)%string.

(** Times are in seconds. *)
Record GasWallet := mk_wallet {
  gw_address : string;
  gw_peer_id : option string;
  gw_status : string;
  gw_activated_at : option Z;
}.
Definition wallet_new (address : string) : GasWallet :=
  mk_wallet address None (status_to_string Inactive) None.

(** ** gas_wallets.rs: the decision of a report *)
Definition DEFAULT_GAS_REFILL_TOLERANCE : f64 := of_parts 7205759403792794 (-56). (* 0.1 *)
Definition GAS_WALLET_RECLAIM_GRACE : Z := 180.

Inductive GasWalletReportAction := NoAction | Activate | MarkPending | MarkInactive.

Definition gas_wallet_report_action (status : GasWalletStatus) (peer_active : bool)
    (activated_elapsed : option Z) : GasWalletReportAction :=
  if peer_active then
    match status with Pending => Activate | _ => NoAction end
  else
    match status with
    | Active =>
        let within_grace :=
          default false ((fun age => age <? GAS_WALLET_RECLAIM_GRACE) <$> activated_elapsed) in
        if within_grace then NoAction else MarkPending
    | Pending => MarkInactive
    | Inactive => NoAction
    end.

(** [SystemTime::elapsed]: an error when the time lies ahead. *)
Definition elapsed (now t : Z) : option Z := if t <=? now then Some (now - t) else None.

Record gas_state := mk_gas {
  gs_table : gmap string GasWallet;
  gs_secrets : gmap string string;
  gs_transfers : list (string * f64);
}.
Abbreviation M := (eff gas_state FundsManagerError).

(** ** queries.rs *)
Section Queries.
Context `{RO : RowOrder GasWallet}.

Definition on_table (up : bool) (f : gmap string GasWallet -> gmap string GasWallet) : M unit := fun s =>
  if up then (Ok tt, mk_gas (f (gs_table s)) (gs_secrets s) (gs_transfers s)) else (Err (Db ""), s).
Definition query {A} (up : bool) (f : gmap string GasWallet -> res FundsManagerError A) : M A := fun s =>
  (if up then f (gs_table s) else Err (Db ""), s).

Definition rows (t : gmap string GasWallet) : list GasWallet := (map_to_list t).*2.
Definition get_all_gas_wallets (up : bool) : M (list GasWallet) := query up (fun t => Ok (rows t)).
Definition get_active_gas_wallets (up : bool) : M (list GasWallet) :=
  query up (fun t => Ok (filter (fun w => gw_status w = status_to_string Active) (rows t))).

(** The rows with the least status. *)
Definition order_by_status (l : list GasWallet) : list GasWallet :=
  filter (fun w => Forall (fun v => String.leb (gw_status w) (gw_status v) = true) l) l.
Definition find_live_gas_wallet_for_peer (up : bool) (peer_id : string) : M (option GasWallet) :=
  query up (fun t =>
    Ok (first_row (order_by_status
      (filter (fun w => gw_status w <> status_to_string Inactive /\ gw_peer_id w = Some peer_id) (rows t))))).
Definition find_inactive_gas_wallet (up : bool) : M GasWallet :=
  query up (fun t =>
    ok_or (first_row (filter (fun w => gw_status w = status_to_string Inactive) (rows t)))
      (Db "Record not found")).

(** The address column is unique. *)
Definition add_gas_wallet (up : bool) (address : string) : M unit := fun s =>
  match gs_table s !! address with
  | Some _ => (Err (Db ""), s)
  | None => on_table up (<[address := wallet_new address]>) s
  end.

Definition set_inactive (w : GasWallet) : GasWallet :=
  mk_wallet (gw_address w) None (status_to_string Inactive) (gw_activated_at w).
Definition set_pending (w : GasWallet) : GasWallet :=
  mk_wallet (gw_address w) (gw_peer_id w) (status_to_string Pending) (gw_activated_at w).
Definition set_active (now : Z) (peer_id : string) (w : GasWallet) : GasWallet :=
  mk_wallet (gw_address w) (Some peer_id) (status_to_string Active) (Some now).

Definition alter_all (f : GasWallet -> GasWallet) (addresses : list string)
    (t : gmap string GasWallet) : gmap string GasWallet :=
  map_imap (fun a w => Some (if decide (a ∈ addresses) then f w else w)) t.
Definition mark_gas_wallets_inactive_batch (up : bool) (addresses : list string) : M unit :=
  if decide (addresses = []) then mret tt else on_table up (alter_all set_inactive addresses).
Definition mark_gas_wallet_inactive (up : bool) (address : string) : M unit :=
  mark_gas_wallets_inactive_batch up [address].
Definition mark_gas_wallets_pending_batch (up : bool) (addresses : list string) : M unit :=
  if decide (addresses = []) then mret tt else on_table up (alter_all set_pending addresses).
Definition mark_gas_wallet_pending (up : bool) (address : string) : M unit :=
  mark_gas_wallets_pending_batch up [address].
(** One update per wallet, each with a reading of the clock. *)
Fixpoint mark_gas_wallets_active_batch (wallets : list (string * string * bool * Z)) : M unit :=
  match wallets with
  | [] => mret tt
  | (address, peer_id, up, now) :: wallets =>
      _ ← on_table up (alter (set_active now peer_id) address);
      mark_gas_wallets_active_batch wallets
  end.
Definition mark_gas_wallet_active (up : bool) (now : Z) (address peer_id : string) : M unit :=
  mark_gas_wallets_active_batch [(address, peer_id, up, now)].
End Queries.

(** ** gas_wallets.rs: handlers *)
Section Handlers.
Context `{RO : RowOrder GasWallet}.

Definition gas_wallet_secret_name (address : string) : string :=
  ("gas-wallet-" +:+ to_lowercase address)%string.

(** helpers.rs: the secrets manager, which refuses a name that is taken. *)
Definition create_secrets_manager_entry (up : bool) (name value : string) : M unit := fun s =>
  match gs_secrets s !! name with
  | None =>
      if up then (Ok tt, mk_gas (gs_table s) (<[name := value]> (gs_secrets s)) (gs_transfers s))
      else (Err (SecretsManager ""), s)
  | Some _ => (Err (SecretsManager ""), s)
  end.
Definition get_secret (up : bool) (name : string) : M string := fun s =>
  (if up then ok_or (gs_secrets s !! name) (SecretsManager "") else Err (SecretsManager ""), s).

(** A new key pair, and whether the database and the secrets manager answer. *)
Record create_env := mk_create_env {
  ce_address : string;
  ce_private_key : string;
  ce_db : bool;
  ce_secrets : bool;
}.
Definition create_gas_wallet (env : create_env) : M string :=
  let address := ce_address env in
  _ ← add_gas_wallet (ce_db env) address;
  _ ← create_secrets_manager_entry (ce_secrets env) (gas_wallet_secret_name address) (ce_private_key env);
  mret address.

(** The answers of the RPC node and the tables while wallets are refilled. *)
Record refill_env := mk_refill_env {
  fe_all : bool;
  fe_hot_wallet : res FundsManagerError string;       (* the address of the gas hot wallet *)
  fe_my_balance : res FundsManagerError f64;
  fe_balance : string -> res FundsManagerError f64;   (* when the need is summed up *)
  fe_balance' : string -> res FundsManagerError f64;  (* at the top-up *)
  fe_signer : string -> res FundsManagerError unit;   (* the hot wallet and its key, per top-up *)
  fe_transfer : string -> f64 -> res FundsManagerError unit;
}.

(** Transfers are recorded as they are sent; the node may report a failure. *)
Definition transfer_ether (env : refill_env) (to : string) (amount : f64) : M unit := fun s =>
  (fe_transfer env to amount,
   mk_gas (gs_table s) (gs_secrets s) (gs_transfers s ++ [(to, amount)])).

Definition top_up_gas_with_tolerance (env : refill_env) (addr : string) (amount tolerance : f64) : M unit :=
  bal ← lift (fe_balance' env addr);
  if fgtb bal (fmul amount tolerance) then mret tt
  else
    _ ← lift (fe_signer env addr);
    let needs := fsub amount bal in
    transfer_ether env addr needs.

Context (gas_refill_tolerance gas_top_up_amount : f64).
Definition top_up_gas (env : refill_env) (addr : string) (amount : f64) : M unit :=
  top_up_gas_with_tolerance env addr amount gas_refill_tolerance.

Fixpoint sum_needs (env : refill_env) (fill_to : f64) (wallets : list GasWallet) (total : f64) : M f64 :=
  match wallets with
  | [] => mret total
  | w :: wallets =>
      bal ← lift (fe_balance env (gw_address w));
      let needs := fmax (fsub fill_to bal) f0 in
      sum_needs env fill_to wallets (fadd total needs)
  end.
Fixpoint top_up_all (env : refill_env) (target : f64) (wallets : list GasWallet) : M unit :=
  match wallets with
  | [] => mret tt
  | w :: wallets => _ ← top_up_gas env (gw_address w) target; top_up_all env target wallets
  end.
Definition refill_gas_for_wallets (env : refill_env) (wallets : list GasWallet) (fill_to : f64) : M unit :=
  _ ← lift (fe_hot_wallet env);
  my_balance ← lift (fe_my_balance env);
  total_amount ← sum_needs env fill_to wallets f0;
  let target := if fltb my_balance total_amount
                then fdiv my_balance (of_Z (Z.of_nat (length wallets))) else fill_to in
  top_up_all env target wallets.
Definition refill_gas_wallets (env : refill_env) (fill_to : f64) : M unit :=
  gas_wallets ← get_all_gas_wallets (fe_all env);
  refill_gas_for_wallets env gas_wallets fill_to.

Record register_env := mk_register_env {
  rg_find_live : bool;
  rg_find_inactive : bool;
  rg_mark : bool;
  rg_now : Z;
  rg_secret : bool;
  rg_refill : refill_env;
}.
Definition register_gas_wallet (env : register_env) (peer_id : string) : M string :=
  live ← find_live_gas_wallet_for_peer (rg_find_live env) peer_id;
  gas_wallet ←
    match live with
    | Some existing =>
        if decide (gw_status existing <> status_to_string Active)
        then _ ← mark_gas_wallet_active (rg_mark env) (rg_now env) (gw_address existing) peer_id;
             mret existing
        else mret existing
    | None =>
        wallet ← find_inactive_gas_wallet (rg_find_inactive env);
        _ ← mark_gas_wallet_active (rg_mark env) (rg_now env) (gw_address wallet) peer_id;
        mret wallet
    end;
  secret_value ← get_secret (rg_secret env) (gas_wallet_secret_name (gw_address gas_wallet));
  _ ← refill_gas_wallets (rg_refill env) gas_top_up_amount;
  mret secret_value.

(** Whether the update of a row succeeds, and the clock when the loop is at it. *)
Record report_env := mk_report_env {
  pe_all : bool;
  pe_mark : string -> bool;
  pe_now : string -> Z;
}.
Definition report_wallet (env : report_env) (active_peers : list string) (w : GasWallet) : M unit :=
  match status_from_str (gw_status w) with
  | Ok state =>
      match gw_peer_id w with
      | None => mret tt
      | Some peer_id =>
          let peer_active := bool_decide (peer_id ∈ active_peers) in
          let activated_elapsed := gw_activated_at w ≫= elapsed (pe_now env (gw_address w)) in
          let up := pe_mark env (gw_address w) in
          match gas_wallet_report_action state peer_active activated_elapsed with
          | NoAction => mret tt
          | Activate => mark_gas_wallet_active up (pe_now env (gw_address w)) (gw_address w) peer_id
          | MarkPending => mark_gas_wallet_pending up (gw_address w)
          | MarkInactive => mark_gas_wallet_inactive up (gw_address w)
          end
      end
  | _ => lift Panic
  end.
Fixpoint report_all (env : report_env) (active_peers : list string) (ws : list GasWallet) : M unit :=
  match ws with
  | [] => mret tt
  | w :: ws => _ ← report_wallet env active_peers w; report_all env active_peers ws
  end.
Definition record_active_gas_wallet (env : report_env) (active_peers : list string) : M unit :=
  all_wallets ← get_all_gas_wallets (pe_all env);
  report_all env active_peers all_wallets.

(** ** handlers/gas.rs: the administrator sets statuses *)
Record GasWalletStatusUpdate := mk_update {
  u_address : string;
  u_status : string;
  u_peer_id : option string;
}.
(** The three batches of a request; an unknown status panics. *)
Fixpoint sort_updates (updates : list GasWalletStatusUpdate)
    : res rejection (list (string * string) * list string * list string) :=
  match updates with
  | [] => Ok ([], [], [])
  | u :: updates =>
      match status_from_str (u_status u) with
      | Ok Active =>
          peer_id ← ok_or (u_peer_id u) (ApiRejection (BadRequestError "Peer ID is required for active status"));
          '(act, pend, inact) ← sort_updates updates;
          Ok ((u_address u, peer_id) :: act, pend, inact)
      | Ok Pending =>
          '(act, pend, inact) ← sort_updates updates; Ok (act, u_address u :: pend, inact)
      | Ok Inactive =>
          '(act, pend, inact) ← sort_updates updates; Ok (act, pend, u_address u :: inact)
      | _ => Panic
      end
  end.
Definition as_api {A} (m : M A) : eff gas_state rejection A := fun s =>
  let '(r, s) := m s in (map_err FundsRejection r, s).
Definition set_gas_wallet_status_handler (up_active : string -> bool) (up_pending up_inactive : bool)
    (now : Z) (updates : list GasWalletStatusUpdate) : eff gas_state rejection unit :=
  '(mark_active, mark_pending, mark_inactive) ← lift (sort_updates updates);
  _ ← as_api (mark_gas_wallets_active_batch
                (map (fun p => (p.1, p.2, up_active p.1, now)) mark_active));
  _ ← as_api (mark_gas_wallets_pending_batch up_pending mark_pending);
  as_api (mark_gas_wallets_inactive_batch up_inactive mark_inactive).

Definition refill_gas_handler (env : refill_env) (max amount : f64) : eff gas_state rejection unit :=
  if fgtb amount max
  then lift (Err (ApiRejection (BadRequestError "Requested amount exceeds maximum allowed refill")))
  else as_api (refill_gas_wallets env amount).
End Handlers.

(** ** The pool as peers see it

    A wallet is idle, held by a peer since a time, or drifting towards the pool
    after one report without its peer. *)
Inductive wallet_view := Idle | Held (p : string) (since : Z) | Drifting (p : string) (since : Z).
Definition view (w : GasWallet) : option wallet_view :=
  match status_from_str (gw_status w), gw_peer_id w, gw_activated_at w with
  | Ok Inactive, None, _ => Some Idle
  | Ok Active, Some p, Some t => Some (Held p t)
  | Ok Pending, Some p, Some t => Some (Drifting p t)
  | _, _, _ => None
  end.
Definition holder (v : wallet_view) : option string :=
  match v with Idle => None | Held p _ | Drifting p _ => Some p end.
Abbreviation pool := (gmap string wallet_view).

(** What one report does to one wallet. *)
Definition report_view (now : Z) (peers : list string) (v : wallet_view) : wallet_view :=
  match v with
  | Idle => Idle
  | Held p t =>
      if bool_decide (p ∈ peers) || (t <=? now) && (now <? t + GAS_WALLET_RECLAIM_GRACE)
      then Held p t else Drifting p t
  | Drifting p t => if bool_decide (p ∈ peers) then Held p now else Idle
  end.

Inductive pool_op :=
  | OpCreate (env : create_env)
  | OpRegister (env : register_env) (peer_id : string)
  | OpReport (env : report_env) (active_peers : list string)
  | OpRefill (env : refill_env) (fill_to : f64).

(** The specification: what an operation may do to the pool, calls to the
    database failing anywhere. *)
Definition pool_step (o : pool_op) (m m' : pool) : Prop :=
  match o with
  | OpCreate env => m' = m \/ (m !! ce_address env = None /\ m' = <[ce_address env := Idle]> m)
  | OpRegister env p =>
      m' = m \/ exists a, m' = <[a := Held p (rg_now env)]> m /\
        ((exists t, m !! a = Some (Drifting p t)) \/
         (m !! a = Some Idle /\ forall b v, m !! b = Some v -> holder v <> Some p))
  | OpReport env peers =>
      map_Forall2 (fun a v v' => v' = v \/ v' = report_view (pe_now env a) peers v) m m'
  | OpRefill _ _ => m' = m
  end.

(** A wallet is keyed by its address and in one of the three states; a peer
    has at most one wallet. *)
Definition represents (s : gas_state) (m : pool) : Prop :=
  map_Forall2 (fun a w v => gw_address w = a /\ view w = Some v) (gs_table s) m.
Definition one_each (m : pool) : Prop :=
  forall a b v w p, m !! a = Some v -> m !! b = Some w ->
  holder v = Some p -> holder w = Some p -> a = b.

Section Exec.
Context `{RO : RowOrder GasWallet} (tol top : f64).
Definition exec (o : pool_op) (s : gas_state) : gas_state :=
  match o with
  | OpCreate env => (create_gas_wallet env s).2
  | OpRegister env p => (register_gas_wallet tol top env p s).2
  | OpReport env peers => (record_active_gas_wallet env peers s).2
  | OpRefill env fill_to => (refill_gas_wallets tol env fill_to s).2
  end.
Definition exec_all (ops : list pool_op) (s : gas_state) : gas_state := fold_left (fun s o => exec o s) ops s.
End Exec.

(** *** Lemmas on the table *)
Lemma alter_all_single f a t : alter_all f [a] t = alter f a t.
Proof.
  apply map_eq. intros b. unfold alter_all. rewrite map_lookup_imap.
  destruct (decide (a = b)) as [<-|].
  - rewrite lookup_alter_eq. destruct (t !! a); cbn; [|done]. by rewrite decide_True by set_solver.
  - rewrite lookup_alter_ne by done. destruct (t !! b); cbn; [|done]. by rewrite decide_False by set_solver.
Qed.

Lemma alter_insert_row (f : GasWallet -> GasWallet) a w (t : gmap string GasWallet) :
  t !! a = Some w -> alter f a t = <[a := f w]> t.
Proof. intros H. by rewrite <-(insert_id t a w H) at 1; rewrite alter_insert_eq. Qed.

Lemma view_status w v :
  view w = Some v ->
  (gw_status w = "active" /\ exists p t, gw_peer_id w = Some p /\ gw_activated_at w = Some t /\ v = Held p t) \/
  (gw_status w = "pending" /\ exists p t, gw_peer_id w = Some p /\ gw_activated_at w = Some t /\ v = Drifting p t) \/
  (gw_status w = "inactive" /\ gw_peer_id w = None /\ v = Idle).
Proof.
  unfold view, status_from_str.
  destruct (String.eqb_spec (gw_status w) "active") as [->|];
    [|destruct (String.eqb_spec (gw_status w) "pending") as [->|];
      [|destruct (String.eqb_spec (gw_status w) "inactive") as [->|]]];
    destruct (gw_peer_id w), (gw_activated_at w); naive_solver.
Qed.

Lemma represents_row s m a w :
  represents s m -> gs_table s !! a = Some w ->
  exists v, m !! a = Some v /\ gw_address w = a /\ view w = Some v.
Proof. intros H Hw. specialize (H a). rewrite Hw in H. inversion H; subst. eauto. Qed.

Lemma represents_rev s m a v :
  represents s m -> m !! a = Some v ->
  exists w, gs_table s !! a = Some w /\ gw_address w = a /\ view w = Some v.
Proof. intros H Hv. specialize (H a). rewrite Hv in H. inversion H; subst. eauto. Qed.

Lemma represents_table s s' m : gs_table s' = gs_table s -> represents s m -> represents s' m.
Proof. unfold represents. by intros ->. Qed.

Lemma elem_of_rows t w : w ∈ rows t <-> exists a, t !! a = Some w.
Proof.
  unfold rows. rewrite list_elem_of_fmap. split.
  - intros ([a w'] & -> & H%elem_of_map_to_list). eauto.
  - intros (a & H). exists (a, w). by rewrite elem_of_map_to_list.
Qed.

(** *** Refills leave the table and the secrets alone *)
Definition same_pool (s s' : gas_state) : Prop :=
  gs_table s' = gs_table s /\ gs_secrets s' = gs_secrets s.
#[export] Instance same_pool_preorder : PreOrder same_pool.
Proof. split; [done|]. intros s1 s2 s3 [] []. split; congruence. Qed.

Lemma lift_same {A} (r : res FundsManagerError A) s : same_pool s (lift r s).2.
Proof. done. Qed.
Lemma query_same {A} up (f : _ -> res _ A) s : same_pool s (query up f s).2.
Proof. done. Qed.
#[export] Hint Resolve lift_same query_same : gas.

Lemma top_up_same tol env addr amount s : same_pool s (top_up_gas tol env addr amount s).2.
Proof.
  apply (eff_bind_state same_pool); [apply lift_same|]. intros bal s1.
  case_match; [done|]. by apply (eff_bind_state same_pool).
Qed.

Lemma sum_needs_same env fill_to ws total s : same_pool s (sum_needs env fill_to ws total s).2.
Proof.
  induction ws as [|w ws IH] in total, s |- *; cbn [sum_needs]; [done|].
  apply (eff_bind_state same_pool); auto with gas.
Qed.
Lemma top_up_all_same tol env target ws s : same_pool s (top_up_all tol env target ws s).2.
Proof.
  induction ws as [|w ws IH] in s |- *; cbn [top_up_all]; [done|].
  apply (eff_bind_state same_pool); [apply top_up_same|auto].
Qed.
#[export] Hint Resolve sum_needs_same top_up_all_same : gas.

Lemma refill_same tol env fill_to s : same_pool s (refill_gas_wallets tol env fill_to s).2.
Proof.
  unfold refill_gas_wallets, refill_gas_for_wallets, get_all_gas_wallets.
  repeat (apply (eff_bind_state same_pool); [auto with gas|intros]). auto with gas.
Qed.

(** *** Reports *)
Definition report_row (env : report_env) (peers : list string) (w : GasWallet) : GasWallet :=
  match status_from_str (gw_status w), gw_peer_id w with
  | Ok state, Some p =>
      match gas_wallet_report_action state (bool_decide (p ∈ peers))
              (gw_activated_at w ≫= elapsed (pe_now env (gw_address w))) with
      | NoAction => w
      | Activate => set_active (pe_now env (gw_address w)) p w
      | MarkPending => set_pending w
      | MarkInactive => set_inactive w
      end
  | _, _ => w
  end.

Lemma report_row_view env peers w v :
  view w = Some v ->
  gw_address (report_row env peers w) = gw_address w /\
  view (report_row env peers w) = Some (report_view (pe_now env (gw_address w)) peers v).
Proof.
  intros [(Hs & p & t & Hp & Ht & ->) | [(Hs & p & t & Hp & Ht & ->) | (Hs & Hp & ->)]]%view_status;
    unfold report_row; rewrite Hs, Hp; cbn [status_from_str String.eqb Ascii.eqb Bool.eqb];
    rewrite ?Ht; cbn -[Z.leb Z.ltb Z.add Z.sub].
  - assert (default false ((fun age => age <? GAS_WALLET_RECLAIM_GRACE) <$> elapsed (pe_now env (gw_address w)) t)
            = (t <=? pe_now env (gw_address w)) && (pe_now env (gw_address w) <? t + GAS_WALLET_RECLAIM_GRACE)) as Hg.
    { unfold elapsed. destruct (Z.leb_spec t (pe_now env (gw_address w))); cbn -[Z.ltb]; [|done].
      apply eq_iff_eq_true. rewrite !Z.ltb_lt. lia. }
    case_bool_decide; cbn -[Z.leb Z.ltb]; [unfold view; by rewrite Hs, Hp, Ht|].
    cbn -[Z.leb Z.ltb] in Hg. rewrite Hg. unfold view.
    destruct ((t <=? pe_now env (gw_address w)) && _); cbn; [by rewrite Hs, Hp, Ht|by rewrite Hp, Ht].
  - case_bool_decide; done.
  - unfold view. by rewrite Hs, Hp.
Qed.

Lemma mark_active_eq up now a p s :
  mark_gas_wallet_active up now a p s = on_table up (alter (set_active now p) a) s.
Proof. unfold mark_gas_wallet_active. cbn. unfold mbind, eff_bind, on_table. by destruct up. Qed.
Lemma mark_pending_eq up a s : mark_gas_wallet_pending up a s = on_table up (alter set_pending a) s.
Proof.
  unfold mark_gas_wallet_pending, mark_gas_wallets_pending_batch, on_table.
  rewrite decide_False by done. by rewrite alter_all_single.
Qed.
Lemma mark_inactive_eq up a s : mark_gas_wallet_inactive up a s = on_table up (alter set_inactive a) s.
Proof.
  unfold mark_gas_wallet_inactive, mark_gas_wallets_inactive_batch, on_table.
  rewrite decide_False by done. by rewrite alter_all_single.
Qed.

(** A write of one row: it happened and was acknowledged, or nothing changed. *)
Definition row_written (up : bool) (a : string) (w : GasWallet) (s : gas_state)
    (out : res FundsManagerError unit * gas_state) : Prop :=
  gs_secrets out.2 = gs_secrets s /\
  ((out.1 = Ok tt /\ gs_table out.2 = <[a := w]> (gs_table s)) \/
   (up = false /\ (exists e, out.1 = Err e) /\ gs_table out.2 = gs_table s)).

Lemma on_table_written up f a w s :
  gs_table s !! a = Some w -> row_written up a (f w) s (on_table up (alter f a) s).
Proof.
  intros Hw. unfold row_written, on_table. destruct up; cbn; [|by eauto 10].
  rewrite (alter_insert_row f a w) by done. auto.
Qed.

Lemma report_wallet_run env peers w v s :
  gs_table s !! gw_address w = Some w -> view w = Some v ->
  row_written (pe_mark env (gw_address w)) (gw_address w) (report_row env peers w) s
    (report_wallet env peers w s).
Proof.
  intros Hw Hv. unfold report_wallet, report_row.
  assert (exists st, status_from_str (gw_status w) = Ok st) as [st ->].
  { apply view_status in Hv as [(-> & _) | [(-> & _) | (-> & _)]]; cbn; eauto. }
  assert (row_written (pe_mark env (gw_address w)) (gw_address w) w s (Ok tt, s)) as Hid.
  { split; [done|]. left. cbn. by rewrite insert_id. }
  destruct (gw_peer_id w) as [p|]; [|done].
  destruct (gas_wallet_report_action _ _ _); [done|..].
  - rewrite mark_active_eq. by apply on_table_written.
  - rewrite mark_pending_eq. by apply on_table_written.
  - rewrite mark_inactive_eq. by apply on_table_written.
Qed.

(** A report visits every row once: each ends as it was or as reported. *)
Lemma report_all_run env peers ws s :
  NoDup (gw_address <$> ws) ->
  (forall w, w ∈ ws -> gs_table s !! gw_address w = Some w /\ is_Some (view w)) ->
  let out := report_all env peers ws s in
  out.1 <> Panic /\ gs_secrets out.2 = gs_secrets s /\
  (forall a, a ∉ gw_address <$> ws -> gs_table out.2 !! a = gs_table s !! a) /\
  (forall w, w ∈ ws -> gs_table out.2 !! gw_address w = Some w \/
                       gs_table out.2 !! gw_address w = Some (report_row env peers w)) /\
  ((forall w, w ∈ ws -> pe_mark env (gw_address w) = true) ->
   forall w, w ∈ ws -> gs_table out.2 !! gw_address w = Some (report_row env peers w)).
Proof.
  induction ws as [|w ws IH] in s |- *; intros Hnd Hws; [cbn; split_and!; set_solver|].
  rewrite fmap_cons in Hnd. apply NoDup_cons in Hnd as [Hni Hnd].
  destruct (Hws w ltac:(set_solver)) as [Hw [v Hv]].
  destruct (report_wallet_run env peers w v s Hw Hv) as [Hsec Hrun].
  cbn zeta. cbn [report_all].
  assert (forall w', w' ∈ ws -> gw_address w' <> gw_address w) as Hne.
  { intros w' Hw' Heq. apply Hni. rewrite <-Heq. by apply list_elem_of_fmap_2. }
  unfold mbind, eff_bind.
  destruct (report_wallet env peers w s) as [r s1]; cbn [fst snd] in *.
  destruct Hrun as [[-> Ht] | (Hup & [e ->] & Ht)].
  - destruct (IH s1 Hnd) as (Hp & Hs & Hout & Hin & Hall).
    { intros w' Hw'. rewrite Ht, lookup_insert_ne by (symmetry; auto). apply Hws. set_solver. }
    rewrite Hs, Hsec. split_and!; [done|done|..].
    + intros a Ha. rewrite fmap_cons in Ha. rewrite Hout, Ht by set_solver.
      apply lookup_insert_ne. set_solver.
    + intros w' [->|Hw']%elem_of_cons; [|auto]. right. rewrite Hout by done. by rewrite Ht, lookup_insert_eq.
    + intros Hm w' [->|Hw']%elem_of_cons; [rewrite Hout by done; by rewrite Ht, lookup_insert_eq|].
      apply Hall; [|done]. intros. apply Hm. set_solver.
  - cbn [fst snd]. split_and!; [done|done|..].
    + intros. by rewrite Ht.
    + intros w' Hw'. left. rewrite Ht. by apply Hws.
    + intros Hm. exfalso. rewrite (Hm w) in Hup; set_solver.
Qed.

Lemma rows_nodup s m : represents s m -> NoDup (gw_address <$> rows (gs_table s)).
Proof.
  intros H. replace (gw_address <$> rows (gs_table s)) with ((map_to_list (gs_table s)).*1);
    [apply NoDup_fst_map_to_list|].
  unfold rows. rewrite <-list_fmap_compose. apply list_fmap_ext. intros i [a w] Hi. cbn.
  apply list_elem_of_lookup_2, elem_of_map_to_list in Hi.
  by destruct (represents_row s m a w H Hi) as (v & _ & -> & _).
Qed.

Lemma rows_represented s m w :
  represents s m -> w ∈ rows (gs_table s) ->
  gs_table s !! gw_address w = Some w /\ exists v, m !! gw_address w = Some v /\ view w = Some v.
Proof.
  intros H [a Ha]%elem_of_rows. destruct (represents_row s m a w H Ha) as (v & Hv & <- & Hw). eauto.
Qed.

(** The report as a whole, when the database reads and when it does not. *)
Lemma report_sim env peers s m :
  represents s m ->
  let out := record_active_gas_wallet env peers s in
  out.1 <> Panic /\ gs_secrets out.2 = gs_secrets s /\
  (exists m', represents out.2 m' /\ pool_step (OpReport env peers) m m') /\
  (pe_all env = true -> (forall a, pe_mark env a = true) ->
   represents out.2 (map_imap (fun a v => Some (report_view (pe_now env a) peers v)) m)).
Proof.
  intros H. unfold record_active_gas_wallet, get_all_gas_wallets, query, mbind, eff_bind.
  destruct (pe_all env); cbn zeta;
    [|cbn; split_and!; [done|done| |done]; exists m; split; [done|];
      intros a; destruct (m !! a); constructor; auto].
  destruct (report_all_run env peers (rows (gs_table s)) s) as (Hp & Hs & Hout & Hin & Hall).
  { by eapply rows_nodup. }
  { intros w Hw. destruct (rows_represented s m w H Hw) as (? & v & _ & ?). eauto. }
  cbn zeta in *. set (s' := (report_all env peers (rows (gs_table s)) s).2) in *.
  assert (forall a, gs_table s !! a = None -> gs_table s' !! a = None) as Hnone.
  { intros a Ha. rewrite Hout; [done|]. intros (w & -> & Hw)%list_elem_of_fmap.
    apply (rows_represented s m w H) in Hw as [Hw _]. congruence. }
  split_and!; [done|done| |].
  - exists (map_imap (fun a v => (gs_table s' !! a) ≫= view) m). split.
    + intros a. rewrite map_lookup_imap. specialize (H a).
      destruct (gs_table s !! a) as [w|] eqn:Hw; inversion H as [? v [<- Hv]|]; subst; cbn;
        [|rewrite Hnone by done; constructor].
      destruct (Hin w ltac:(apply elem_of_rows; eauto)) as [-> | ->]; cbn.
      * rewrite Hv. by constructor.
      * destruct (report_row_view env peers w v Hv) as [? Hv']. rewrite Hv'. by constructor.
    + intros a. rewrite map_lookup_imap. destruct (m !! a) as [v|] eqn:Hv; cbn; [|constructor].
      destruct (represents_rev s m a v H Hv) as (w & Hw & <- & Hvw).
      destruct (Hin w ltac:(apply elem_of_rows; eauto)) as [-> | ->]; cbn.
      * rewrite Hvw. constructor. auto.
      * destruct (report_row_view env peers w v Hvw) as [? ->]. constructor. auto.
  - intros _ Hm a. rewrite map_lookup_imap. specialize (H a).
    destruct (gs_table s !! a) as [w|] eqn:Hw; inversion H as [? v [<- Hv]|]; subst; cbn;
      [|rewrite Hnone by done; constructor].
    rewrite Hall by (auto; apply elem_of_rows; eauto).
    destruct (report_row_view env peers w v Hv) as [? Hv']. by constructor.
Qed.

(** *** Creation and registration *)
Lemma represents_insert s s' m a w v :
  represents s m -> gw_address w = a -> view w = Some v ->
  gs_table s' = <[a := w]> (gs_table s) -> represents s' (<[a := v]> m).
Proof. intros H Ha Hv Ht. unfold represents. rewrite Ht. by apply map_Forall2_insert_2. Qed.

Lemma create_sim env s m :
  represents s m ->
  exists m', represents (create_gas_wallet env s).2 m' /\ pool_step (OpCreate env) m m'.
Proof.
  intros H. unfold create_gas_wallet, add_gas_wallet, mbind, eff_bind, on_table.
  destruct (gs_table s !! ce_address env) as [w|] eqn:Hw; [exists m; cbn; auto|].
  assert (m !! ce_address env = None) as Hm.
  { specialize (H (ce_address env)). rewrite Hw in H. by inversion H. }
  destruct (ce_db env); cbn; [|by eauto].
  exists (<[ce_address env := Idle]> m). split; [|by auto].
  apply (represents_insert s _ m _ (wallet_new (ce_address env))); [done..|].
  unfold create_secrets_manager_entry. cbn. by repeat case_match; simplify_eq/=.
Qed.

Lemma order_by_status_live l :
  l <> [] -> (forall w, w ∈ l -> gw_status w = "active" \/ gw_status w = "pending") ->
  order_by_status l <> [].
Proof.
  intros Hne Hl. assert (exists x, x ∈ order_by_status l) as [x Hx]; [|by intros Heq; rewrite Heq in Hx; set_solver].
  destruct (decide (Exists (fun w => gw_status w = "active") l)) as [[w [Hw Ha]]%Exists_exists | Hno].
  - exists w. apply list_elem_of_filter. split; [|done]. apply Forall_forall. intros v Hv.
    rewrite Ha. by destruct (Hl v Hv) as [-> | ->].
  - destruct l as [|w l]; [done|]. exists w. apply list_elem_of_filter. split; [|set_solver].
    apply Forall_forall. intros v Hv.
    assert (forall x, x ∈ w :: l -> gw_status x = "pending") as Hp.
    { intros x Hx. destruct (Hl x Hx) as [Ha|]; [|done]. destruct Hno. apply Exists_exists. eauto. }
    rewrite !Hp by set_solver. done.
Qed.

Section Register.
Context `{RO : RowOrder GasWallet} (tol top : f64).

Lemma find_live_spec up p s m r s' :
  represents s m -> find_live_gas_wallet_for_peer up p s = (r, s') ->
  s' = s /\ match r with
            | Ok (Some w) => exists v, gs_table s !! gw_address w = Some w /\
                               m !! gw_address w = Some v /\ view w = Some v /\ holder v = Some p
            | Ok None => forall a v, m !! a = Some v -> holder v <> Some p
            | Err _ => up = false
            | Panic => False
            end.
Proof.
  intros H. unfold find_live_gas_wallet_for_peer, query. intros [= <- <-]. split; [done|].
  destruct up; [|done]. destruct (first_row _) as [w|] eqn:Hf.
  - apply first_row_in in Hf. unfold order_by_status in Hf.
    apply list_elem_of_filter in Hf as [_ [[Hs Hp] Hf]%list_elem_of_filter].
    destruct (rows_represented s m w H Hf) as (Hw & v & Hm & Hv). exists v. split_and!; try done.
    apply view_status in Hv as [(_ & q & t & ? & _ & ->) | [(_ & q & t & ? & _ & ->) | (? & _)]]; cbn; congruence.
  - apply first_row_none in Hf. intros a v Hm Hh.
    destruct (represents_rev s m a v H Hm) as (w & Hw & Ha & Hv).
    revert Hf. apply order_by_status_live.
    + intros Hnil. apply (not_elem_of_nil w). rewrite <-Hnil. apply list_elem_of_filter.
      split; [|apply elem_of_rows; eauto].
      apply view_status in Hv as [(-> & q & t & -> & _ & ->) | [(-> & q & t & -> & _ & ->) | (_ & _ & ->)]];
        cbn in Hh; by simplify_eq.
    + intros x [[Hx _] Hr]%list_elem_of_filter.
      destruct (rows_represented s m x H Hr) as (_ & v' & _ & Hv').
      by apply view_status in Hv' as [(? & _) | [(? & _) | (? & _)]]; auto.
Qed.

Lemma find_inactive_spec up s m r s' :
  represents s m -> find_inactive_gas_wallet up s = (r, s') ->
  s' = s /\ r <> Panic /\ match r with
            | Ok w => gs_table s !! gw_address w = Some w /\ m !! gw_address w = Some Idle
            | _ => up = true -> forall a, m !! a <> Some Idle
            end.
Proof.
  intros H. unfold find_inactive_gas_wallet, query. intros [= <- <-]. split; [done|].
  destruct up; [|done]. destruct (first_row _) as [w|] eqn:Hf; cbn; (split; [done|]).
  - apply first_row_in, list_elem_of_filter in Hf as [Hs Hf].
    destruct (rows_represented s m w H Hf) as (Hw & v & Hm & Hv). split; [done|].
    apply view_status in Hv as [(? & _) | [(? & _) | (_ & _ & ->)]]; cbn in *; congruence.
  - apply first_row_none in Hf. intros _ a Hm.
    destruct (represents_rev s m a Idle H Hm) as (w & Hw & Ha & Hv).
    apply (not_elem_of_nil w). rewrite <-Hf. apply list_elem_of_filter.
    split; [|apply elem_of_rows; eauto].
    by apply view_status in Hv as [(_ & ? & ? & _ & _ & ?) | [(_ & ? & ? & _ & _ & ?) | (? & _)]].
Qed.

(** After the wallet is settled: the key is fetched and the pool refilled. *)
Definition deliver_key (env : register_env) (w : GasWallet) : M string :=
  secret_value ← get_secret (rg_secret env) (gas_wallet_secret_name (gw_address w));
  _ ← refill_gas_wallets tol (rg_refill env) top;
  mret secret_value.

Lemma deliver_key_run env w s1 :
  same_pool s1 (deliver_key env w s1).2 /\
  forall k, (deliver_key env w s1).1 = Ok k -> gs_secrets s1 !! gas_wallet_secret_name (gw_address w) = Some k.
Proof.
  unfold deliver_key, get_secret, mbind, eff_bind.
  destruct (rg_secret env); cbn; [|done].
  destruct (gs_secrets s1 !! _) as [k|]; cbn; [|done].
  pose proof (refill_same tol (rg_refill env) top s1) as Hr.
  destruct (refill_gas_wallets _ _ _ s1) as [[] s2]; cbn in *; split; [done| |done| |done|]; naive_solver.
Qed.

(** A row set active for a peer is held by the peer from then on. *)
Lemma set_active_run env p w v s m :
  represents s m -> gs_table s !! gw_address w = Some w -> m !! gw_address w = Some v ->
  let out := mark_gas_wallet_active (rg_mark env) (rg_now env) (gw_address w) p s in
  gs_secrets out.2 = gs_secrets s /\
  ((out.1 = Ok tt /\ represents out.2 (<[gw_address w := Held p (rg_now env)]> m)) \/
   ((exists e, out.1 = Err e) /\ out.2 = s /\ rg_mark env = false)).
Proof.
  intros H Hw Hm. cbn zeta. rewrite mark_active_eq. unfold on_table.
  destruct (rg_mark env); cbn; (split; [done|]); [|eauto]. left. split; [done|].
  by apply (represents_insert s _ m _ (set_active (rg_now env) p w)), alter_insert_row.
Qed.

#[local] Arguments mark_gas_wallet_active : simpl never.
#[local] Arguments find_inactive_gas_wallet : simpl never.
#[local] Arguments get_secret : simpl never.
(** What a registration leads to: a state with the wallet settled, from which
    the key is delivered, or a failure that wrote nothing. *)
Lemma register_run env p s m :
  represents s m ->
  (exists w t s1, register_gas_wallet tol top env p s = deliver_key env w s1 /\
     gs_secrets s1 = gs_secrets s /\
     (exists m', represents s1 m' /\ pool_step (OpRegister env p) m m' /\ m' !! gw_address w = Some (Held p t))) \/
  ((register_gas_wallet tol top env p s).2 = s /\
   (exists e, (register_gas_wallet tol top env p s).1 = Err e) /\
   (rg_find_live env = true -> rg_mark env = true -> rg_find_inactive env = true ->
    forall a v, m !! a = Some v -> v <> Idle /\ holder v <> Some p)).
Proof.
  intros H. remember (register_gas_wallet tol top env p s) as out eqn:Hout. revert Hout.
  unfold register_gas_wallet, mbind, eff_bind.
  destruct (find_live_gas_wallet_for_peer (rg_find_live env) p s) as [r s0] eqn:Hf.
  apply (find_live_spec _ _ _ m) in Hf as [-> Hf]; [|done].
  destruct r as [[w|]|e|]; cbn [fst snd].
  - destruct Hf as (v & Hw & Hm & Hv & Hh).
    destruct (decide _) as [Hna|Ha].
    + pose proof (set_active_run env p w v s m H Hw Hm) as [Hs Ho]. cbn zeta in *.
      destruct (mark_gas_wallet_active _ _ _ _ s) as [r s1]; cbn in *.
      destruct Ho as [[-> Hrep] | ([e ->] & -> & Hup)]; intros ->.
      * left. exists w, (rg_now env), s1. split_and!; [done..|].
        exists (<[gw_address w := Held p (rg_now env)]> m).
        split_and!; [done| |by rewrite lookup_insert_eq]. right. exists (gw_address w). split; [done|]. left.
        apply view_status in Hv as [(? & _) | [(_ & q & t & _ & _ & ->) | (_ & _ & ->)]]; cbn in *; naive_solver.
      * right. split_and!; [done|eauto|congruence].
    + intros ->. left. apply dec_stable in Ha.
      apply view_status in Hv as [(_ & q & t & _ & _ & ->) | [(? & _) | (? & _)]]; [|cbn in *; congruence..].
      cbn in Hh. simplify_eq. exists w, t, s. split_and!; [done..|]. exists m. cbn. auto.
  - destruct (find_inactive_gas_wallet _ s) as [r s1] eqn:Hfi.
    apply (find_inactive_spec _ _ m) in Hfi as (-> & Hp & Hfi); [|done].
    destruct r as [w|e|]; [|intros ->; right; split_and!; [done|by eauto|]|done].
    + destruct Hfi as [Hw Hm].
      pose proof (set_active_run env p w Idle s m H Hw Hm) as [Hs Ho]. cbn zeta in *.
      destruct (mark_gas_wallet_active _ _ _ _ s) as [r s1]; cbn in *.
      destruct Ho as [[-> Hrep] | ([e ->] & -> & Hup)]; intros ->.
      * left. exists w, (rg_now env), s1. split_and!; [done..|].
        exists (<[gw_address w := Held p (rg_now env)]> m).
        split_and!; [done| |by rewrite lookup_insert_eq]. right. exists (gw_address w). auto.
      * right. split_and!; [done|eauto|congruence].
    + intros _ _ Hup a v Hv. split; [|by eapply Hf]. intros ->. by eapply Hfi.
  - intros ->. right. split_and!; [done|eauto|congruence].
  - done.
Qed.

(** *** The theorems *)

(** An operation takes the pool along its specification. *)
Lemma exec_sim o s m :
  represents s m -> exists m', represents (exec tol top o s) m' /\ pool_step o m m'.
Proof.
  destruct o as [env|env p|env peers|env fill_to]; intros H; cbn [exec].
  - by apply create_sim.
  - destruct (register_run env p s m H) as [(w & t & s1 & -> & _ & m' & Hm' & Hst & _) | (-> & _)].
    + exists m'. split; [|done]. eapply represents_table; [|exact Hm']. apply deliver_key_run.
    + exists m. cbn. auto.
  - by apply report_sim.
  - exists m. split; [|done]. eapply represents_table; [|exact H]. apply refill_same.
Qed.

Lemma pool_step_one_each o m m' : pool_step o m m' -> one_each m -> one_each m'.
Proof.
  intros Hst H1. destruct o as [env|env p|env peers|env fill_to]; cbn in Hst.
  - destruct Hst as [->|[Hn ->]]; [done|]. intros a b v w q.
    rewrite !lookup_insert_Some. naive_solver.
  - destruct Hst as [->|(a0 & -> & Hst)]; [done|].
    assert (forall b v, b <> a0 -> m !! b = Some v -> holder v <> Some p) as Hno.
    { destruct Hst as [[t Ht]|[_ Hno]]; [|eauto]. intros b v Hb Hv Hh. apply Hb. by eapply (H1 b a0 v _ p). }
    intros a b v w q. rewrite !lookup_insert_Some. naive_solver.
  - assert (forall a v', m' !! a = Some v' -> exists v, m !! a = Some v /\ forall q, holder v' = Some q -> holder v = Some q) as Hback.
    { intros a v' Hv'. specialize (Hst a). rewrite Hv' in Hst. inversion Hst as [v ? Hor|]; subst.
      exists v. split; [done|]. destruct Hor as [->| ->]; [done|].
      destruct v; cbn; [done|..]; case_match; cbn; naive_solver. }
    intros a b v w q (v0 & Hv & Hvq)%Hback (w0 & Hw & Hwq)%Hback Hq Hq'. eapply H1; eauto.
  - by subst.
Qed.

Inductive pool_trace : list pool_op -> pool -> pool -> Prop :=
  | trace_nil m : pool_trace [] m m
  | trace_cons o ops m m1 m' : pool_step o m m1 -> pool_trace ops m1 m' -> pool_trace (o :: ops) m m'.

Lemma exec_all_sim ops s m :
  represents s m -> exists m', represents (exec_all tol top ops s) m' /\ pool_trace ops m m'.
Proof.
  induction ops as [|o ops IH] in s, m |- *; intros H; [exists m; split; [done|constructor]|].
  destruct (exec_sim o s m H) as (m1 & H1 & Hst). destruct (IH _ _ H1) as (m' & H' & Htr).
  exists m'. split; [done|]. by econstructor.
Qed.

Lemma pool_trace_one_each ops m m' : pool_trace ops m m' -> one_each m -> one_each m'.
Proof. induction 1; eauto using pool_step_one_each. Qed.

(** C20. For every sequence of creations, registrations, reports and refills,
    with calls to the database, the secrets manager and the node failing
    anywhere, the rows of the pool stay well-formed, the pool evolves as the
    abstract specification [pool_step] allows, no two wallets are assigned to
    one peer, and no report panics on the status of a row. *)
Theorem gas_pool_refines ops s :
  gs_table s = ∅ ->
  exists m, represents (exec_all tol top ops s) m /\ pool_trace ops ∅ m /\ one_each m /\
    forall env peers, (record_active_gas_wallet env peers (exec_all tol top ops s)).1 <> Panic.
Proof.
  intros Ht. assert (represents s ∅) as H0. { unfold represents. rewrite Ht. apply map_Forall2_empty. }
  destruct (exec_all_sim ops s ∅ H0) as (m & Hm & Htr). exists m. split_and!; [done..| |].
  - eapply pool_trace_one_each; [done|]. intros a b v w p Hv. by rewrite lookup_empty in Hv.
  - intros env peers. by apply (report_sim env peers _ m).
Qed.

(** Keys are never replaced. *)
Lemma exec_secret o s m n k :
  represents s m -> gs_secrets s !! n = Some k -> gs_secrets (exec tol top o s) !! n = Some k.
Proof.
  intros H Hk. destruct o as [env|env p|env peers|env fill_to]; cbn [exec].
  - unfold create_gas_wallet, add_gas_wallet, on_table, create_secrets_manager_entry, mbind, eff_bind.
    repeat (case_match; simplify_eq/=; try done). rewrite lookup_insert_ne; [done|]. congruence.
  - destruct (register_run env p s m H) as [(w & t & s1 & -> & Hs & _) | (-> & _)]; [|done].
    destruct (deliver_key_run env w s1) as [[_ ->] _]. by rewrite Hs.
  - destruct (report_sim env peers s m H) as (_ & -> & _). done.
  - destruct (refill_same tol env fill_to s) as [_ ->]. done.
Qed.

(** A peer with a wallet is served the key of that wallet. *)
Lemma register_live env p s m a v k :
  represents s m -> one_each m -> m !! a = Some v -> holder v = Some p ->
  (register_gas_wallet tol top env p s).1 = Ok k ->
  gs_secrets s !! gas_wallet_secret_name a = Some k.
Proof.
  intros H H1 Hv Hh Hr.
  destruct (register_run env p s m H) as [(w & t & s1 & Heq & Hs & m' & Hm' & Hst & Hw) | (_ & [e He] & _)];
    [|congruence].
  rewrite Heq in Hr. apply deliver_key_run in Hr. rewrite Hs in Hr.
  assert (gw_address w = a) as Ha; [|by rewrite Ha in Hr].
  cbn in Hst. destruct Hst as [->|(b & -> & [[t' Ht'] | [_ Hno]])].
  - by eapply (H1 _ _ _ _ p); eauto.
  - assert (b = a) as -> by (by eapply (H1 _ _ _ _ p); eauto).
    apply lookup_insert_Some in Hw as [[-> _] | [_ Hw]]; [done|]. by eapply (H1 _ _ _ _ p); eauto.
  - by destruct (Hno a v).
Qed.

(** The reports of a sequence that do not list a peer. *)
Definition missed (p : string) (o : pool_op) : bool :=
  match o with OpReport _ peers => negb (bool_decide (p ∈ peers)) | _ => false end.
Definition misses (p : string) (ops : list pool_op) : nat := length (List.filter (missed p) ops).
(** Reports on a wallet within the grace of its activation at [t]. *)
Definition in_grace (a : string) (t : Z) (o : pool_op) : Prop :=
  match o with OpReport env _ => t <= pe_now env a < t + GAS_WALLET_RECLAIM_GRACE | _ => True end.

Lemma step_other o m m' a p t :
  pool_step o m m' -> m !! a = Some (Held p t) -> one_each m ->
  match o with OpReport _ _ => True | _ => m' !! a = Some (Held p t) end.
Proof.
  intros Hst Ha H1. destruct o; cbn in *; [|..|done|by subst].
  - destruct Hst as [->|[Hn ->]]; [done|]. rewrite lookup_insert_ne; congruence.
  - destruct Hst as [->|(b & -> & Hst)]; [done|]. destruct (decide (b = a)) as [->|]; [|by rewrite lookup_insert_ne].
    destruct Hst as [[] | []]; congruence.
Qed.

Lemma step_keeps o m m' a p t :
  pool_step o m m' -> m !! a = Some (Held p t) -> one_each m ->
  in_grace a t o \/ missed p o = false -> m' !! a = Some (Held p t).
Proof.
  intros Hst Ha H1 Hg. pose proof (step_other o m m' a p t Hst Ha H1) as Ho.
  destruct o as [| |env peers|]; [done|done| |done]. cbn in Hst, Hg.
  specialize (Hst a). rewrite Ha in Hst. inversion Hst as [? v' Hor|]; subst.
  destruct Hor as [->| ->]; [done|]. cbn -[Z.leb Z.ltb].
  destruct (bool_decide (p ∈ peers)) eqn:Hb; [done|]. destruct Hg as [Hg|Hg]; [|done].
  cbn -[Z.leb Z.ltb]. rewrite (proj2 (Z.leb_le _ _)), (proj2 (Z.ltb_lt _ _)) by lia. done.
Qed.

(** A drifting wallet stays its peer's until a second report misses the peer. *)
Lemma step_live o m m' a p v :
  pool_step o m m' -> m !! a = Some v -> holder v = Some p -> one_each m -> missed p o = false ->
  exists v', m' !! a = Some v' /\ holder v' = Some p.
Proof.
  intros Hst Ha Hh H1 Hm. destruct o as [env|env q|env peers|env fill]; cbn in Hst, Hm.
  - destruct Hst as [->|[Hn ->]]; [by eauto|]. exists v. rewrite lookup_insert_ne; [done|congruence].
  - destruct Hst as [->|(b & -> & Hst)]; [by eauto|].
    destruct (decide (b = a)) as [->|]; [|rewrite lookup_insert_ne; eauto].
    rewrite lookup_insert_eq. destruct Hst as [[] | []]; simplify_eq/=. eauto.
  - specialize (Hst a). rewrite Ha in Hst. inversion Hst as [? v' Hor|]; subst.
    apply negb_false_iff in Hm. exists v'. split; [done|]. destruct Hor as [->| ->]; [done|].
    destruct v; simplify_eq/=; by rewrite Hm.
  - subst. eauto.
Qed.

Lemma trace_keeps ops m m' a p t :
  pool_trace ops m m' -> m !! a = Some (Held p t) -> one_each m ->
  Forall (fun o => in_grace a t o \/ missed p o = false) ops -> m' !! a = Some (Held p t).
Proof.
  induction 1 as [|o ops m m1 m' Hst Htr IH]; [done|]. intros Ha H1 [Ho Hops]%Forall_cons.
  eauto using step_keeps, pool_step_one_each.
Qed.

Lemma trace_live ops m m' a p v :
  pool_trace ops m m' -> m !! a = Some v -> holder v = Some p -> one_each m -> misses p ops = 0%nat ->
  exists v', m' !! a = Some v' /\ holder v' = Some p.
Proof.
  induction 1 as [|o ops m m1 m' Hst Htr IH] in v |- *; [by eauto|]. unfold misses. cbn.
  intros Ha Hh H1. destruct (missed p o) eqn:Hm; [done|]. intros Hops.
  destruct (step_live o m m1 a p v Hst Ha Hh H1 Hm) as (v1 & Hv1 & Hh1).
  eauto using pool_step_one_each.
Qed.

Lemma trace_one_miss ops m m' a p t :
  pool_trace ops m m' -> m !! a = Some (Held p t) -> one_each m -> (misses p ops <= 1)%nat ->
  exists v', m' !! a = Some v' /\ holder v' = Some p.
Proof.
  induction 1 as [|o ops m m1 m' Hst Htr IH]; [by eauto|]. unfold misses. cbn.
  intros Ha H1. destruct (missed p o) eqn:Hm; cbn; intros Hops.
  - assert (exists v, m1 !! a = Some v /\ holder v = Some p) as (v & Hv & Hh).
    { destruct o as [| |env peers|]; [done|done| |done]. cbn in Hst. specialize (Hst a).
      rewrite Ha in Hst. inversion Hst as [? v' Hor|]; subst. exists v'. split; [done|].
      destruct Hor as [->| ->]; [done|]. cbn. by case_match. }
    eapply trace_live; eauto using pool_step_one_each. unfold misses. lia.
  - apply IH; [|by eapply pool_step_one_each|done]. eapply step_keeps; eauto.
Qed.

(** Whatever creations, registrations, reports and refills run in between,
    a peer that registers again is handed the key it was issued, while its
    wallet was only reported on within the grace of its activation or with the
    peer listed, or while at most one report missed the peer: a wallet is not
    reclaimed from a slow or briefly absent relayer. *)
Theorem registered_peer_keeps_wallet ops env s m a p t k k' :
  represents s m -> one_each m -> m !! a = Some (Held p t) ->
  gs_secrets s !! gas_wallet_secret_name a = Some k ->
  Forall (fun o => in_grace a t o \/ missed p o = false) ops \/ (misses p ops <= 1)%nat ->
  (register_gas_wallet tol top env p (exec_all tol top ops s)).1 = Ok k' -> k' = k.
Proof.
  intros H H1 Ha Hk Hops.
  destruct (exec_all_sim ops s m H) as (m' & H' & Htr).
  assert (exists v, m' !! a = Some v /\ holder v = Some p) as (v & Hv & Hh).
  { destruct Hops; [exists (Held p t); split; [|done]; by eapply trace_keeps|by eapply trace_one_miss]. }
  assert (gs_secrets (exec_all tol top ops s) !! gas_wallet_secret_name a = Some k) as Hk'.
  { clear -H Hk. induction ops as [|o ops IH] in s, m, H, Hk |- *; [done|]. cbn.
    destruct (exec_sim o s m H) as (m1 & Hm1 & _). eauto using exec_secret. }
  intros Hr. eapply register_live in Hr; eauto using pool_trace_one_each. congruence.
Qed.

Lemma report_all_up env peers s m a v :
  represents s m -> m !! a = Some v -> pe_all env = true -> (forall b, pe_mark env b = true) ->
  exists m', represents (exec tol top (OpReport env peers) s) m' /\
             m' !! a = Some (report_view (pe_now env a) peers v).
Proof.
  intros H Ha Hall Hm. destruct (report_sim env peers s m H) as (_ & _ & _ & Hrep).
  eexists. split; [by apply Hrep|]. by rewrite map_lookup_imap, Ha.
Qed.

(** C21. A wallet whose peer is gone returns to the pool: after two reports that
    reach the database and do not list the peer, the first of them past the
    grace period, the wallet is inactive and without a peer, and a registration
    finds an inactive wallet again. *)
Theorem absent_peer_reclaimed env1 env2 peers1 peers2 s m a p t :
  represents s m -> m !! a = Some (Held p t) ->
  pe_all env1 = true -> (forall b, pe_mark env1 b = true) ->
  pe_all env2 = true -> (forall b, pe_mark env2 b = true) ->
  p ∉ peers1 -> p ∉ peers2 -> t + GAS_WALLET_RECLAIM_GRACE <= pe_now env1 a ->
  let s' := exec_all tol top [OpReport env1 peers1; OpReport env2 peers2] s in
  (exists w, gs_table s' !! a = Some w /\ gw_status w = status_to_string Inactive /\ gw_peer_id w = None) /\
  (exists w, find_inactive_gas_wallet true s' = (Ok w, s')).
Proof.
  intros H Ha Hu1 Hm1 Hu2 Hm2 Hp1 Hp2 Ht. cbn [exec_all fold_left].
  destruct (report_all_up env1 peers1 s m a _ H Ha Hu1 Hm1) as (m1 & H1 & Ha1).
  destruct (report_all_up env2 peers2 _ m1 a _ H1 Ha1 Hu2 Hm2) as (m2 & H2 & Ha2).
  set (s2 := exec tol top (OpReport env2 peers2) _) in *.
  assert (m2 !! a = Some Idle) as Hidle.
  { rewrite Ha2. cbn -[Z.leb Z.ltb]. rewrite (bool_decide_false (p ∈ peers1)) by done.
    destruct (Z.ltb_spec (pe_now env1 a) (t + GAS_WALLET_RECLAIM_GRACE)); [lia|].
    rewrite andb_false_r. cbn. by rewrite bool_decide_false. }
  cbn zeta. split.
  - destruct (represents_rev s2 m2 a Idle H2 Hidle) as (w & Hw & _ & Hv). exists w. split; [done|].
    by apply view_status in Hv as [(_ & ? & ? & _ & _ & ?) | [(_ & ? & ? & _ & _ & ?) | (? & ? & _)]].
  - destruct (find_inactive_gas_wallet true s2) as [r s3] eqn:Hf.
    apply (find_inactive_spec _ _ m2) in Hf as (-> & Hnp & Hf); [|done].
    destruct r as [w|e|]; [by eauto| |done]. by destruct (Hf eq_refl a).
Qed.

(** *** Interleaved registrations

    A registration reads the pool, then writes: the two halves of
    [register_gas_wallet], between which another task may run. *)
Definition register_read (env : register_env) (p : string) : M (GasWallet * bool) :=
  live ← find_live_gas_wallet_for_peer (rg_find_live env) p;
  match live with
  | Some existing => mret (existing, bool_decide (gw_status existing <> status_to_string Active))
  | None => wallet ← find_inactive_gas_wallet (rg_find_inactive env); mret (wallet, true)
  end.
Definition register_write (env : register_env) (p : string) (wm : GasWallet * bool) : M string :=
  _ ← (if wm.2 then mark_gas_wallet_active (rg_mark env) (rg_now env) (gw_address wm.1) p else mret tt);
  deliver_key env wm.1.

Lemma register_split env p s :
  register_gas_wallet tol top env p s = (wm ← register_read env p; register_write env p wm) s.
Proof.
  unfold register_gas_wallet, register_read, register_write, mbind, eff_bind.
  destruct (find_live_gas_wallet_for_peer _ _ s) as [[[w|]|e|] s1]; [|..|done|done].
  - destruct (decide (gw_status w ≠ status_to_string Active)) as [Hd|Hd]; cbn [mret eff_ret];
      [rewrite bool_decide_true by done|by rewrite bool_decide_false by done]; cbn [fst snd].
    by destruct (mark_gas_wallet_active _ _ _ _ s1) as [[] ?].
  - destruct (find_inactive_gas_wallet _ s1) as [[w|e|] s2]; cbn [mret eff_ret fst snd]; [|done..].
    by destruct (mark_gas_wallet_active _ _ _ _ s2) as [[] ?].
Qed.

(** What either racing registration does once both have read the pool. *)
Lemma register_write_active env p w s k :
  rg_mark env = true -> rg_secret env = true ->
  (forall s', (refill_gas_wallets tol (rg_refill env) top s').1 = Ok tt) ->
  gs_secrets s !! gas_wallet_secret_name (gw_address w) = Some k ->
  let out := register_write env p (w, true) s in
  out.1 = Ok k /\ gs_secrets out.2 = gs_secrets s /\
  gs_table out.2 = alter (set_active (rg_now env) p) (gw_address w) (gs_table s).
Proof.
  intros Hm Hs Hr Hk. cbn zeta. unfold register_write, deliver_key, get_secret, mbind, eff_bind. cbn [fst snd].
  rewrite mark_active_eq, Hm, Hs. cbn [on_table].
  set (s1 := mk_gas _ _ _). assert (gs_secrets s1 = gs_secrets s) as -> by done. rewrite Hk. cbn [ok_or].
  pose proof (Hr s1) as Hok. pose proof (refill_same tol (rg_refill env) top s1) as [Ht Hse].
  destruct (refill_gas_wallets _ _ _ s1) as [r s2]. cbn in *. by subst.
Qed.

Lemma register_read_fresh env p s m a :
  represents s m -> (forall b v, m !! b = Some v -> holder v <> Some p) -> m !! a = Some Idle ->
  rg_find_live env = true -> rg_find_inactive env = true ->
  exists w, find_inactive_gas_wallet true s = (Ok w, s) /\ register_read env p s = (Ok (w, true), s) /\
            gs_table s !! gw_address w = Some w.
Proof.
  intros H Hno Ha Hl Hi. unfold register_read, mbind, eff_bind. rewrite Hl, Hi.
  destruct (find_live_gas_wallet_for_peer true p s) as [r s1] eqn:Hf.
  apply (find_live_spec _ _ _ m) in Hf as [-> Hf]; [|done].
  destruct r as [[w|]|e|]; [|..|done|done].
  - destruct Hf as (v & _ & Hv & _ & Hh). by destruct (Hno _ _ Hv).
  - destruct (find_inactive_gas_wallet true s) as [r s2] eqn:Hfi.
    apply (find_inactive_spec _ _ m) in Hfi as (-> & Hnp & Hfi); [|done].
    destruct r as [w|e|]; [|by destruct (Hfi eq_refl a)|done]. exists w. by destruct Hfi.
Qed.

(** C39. Two registrations of peers without a wallet that both read the pool
    before either writes draw the same wallet: both peers are handed the same
    private key, and the wallet is recorded for the second peer alone.  Neither
    the update nor the table excludes this. *)
Theorem racing_registrations_share_key env1 env2 p q s m a :
  represents s m -> m !! a = Some Idle ->
  (forall b v, m !! b = Some v -> holder v <> Some p /\ holder v <> Some q) ->
  (forall b, m !! b = Some Idle -> is_Some (gs_secrets s !! gas_wallet_secret_name b)) ->
  (forall env, env = env1 \/ env = env2 ->
    rg_find_live env = true /\ rg_find_inactive env = true /\ rg_mark env = true /\ rg_secret env = true /\
    forall s', (refill_gas_wallets tol (rg_refill env) top s').1 = Ok tt) ->
  exists w k,
    register_read env1 p s = (Ok (w, true), s) /\ register_read env2 q s = (Ok (w, true), s) /\
    let out1 := register_write env1 p (w, true) s in
    let out2 := register_write env2 q (w, true) out1.2 in
    out1.1 = Ok k /\ out2.1 = Ok k /\
    gs_table out2.2 !! gw_address w = Some (set_active (rg_now env2) q w).
Proof.
  intros H Ha Hno Hkeys Henv.
  destruct (Henv env1) as (Hl1 & Hi1 & Hm1 & Hs1 & Hr1); [auto|].
  destruct (Henv env2) as (Hl2 & Hi2 & Hm2 & Hs2 & Hr2); [auto|].
  destruct (register_read_fresh env1 p s m a) as (w & Hw & Hread1 & Htab); [naive_solver..|].
  destruct (register_read_fresh env2 q s m a) as (w' & Hw' & Hread2 & _); [naive_solver..|].
  rewrite Hw in Hw'. injection Hw' as <-.
  apply (find_inactive_spec _ _ m) in Hw as (_ & _ & _ & Hidle); [|done].
  destruct (Hkeys _ Hidle) as [k Hk]. exists w, k. split_and!; [done..|]. cbn zeta.
  destruct (register_write_active env1 p w s k Hm1 Hs1 Hr1 Hk) as (H1 & Hsec1 & Ht1).
  destruct (register_write_active env2 q w (register_write env1 p (w, true) s).2 k) as (H2 & Hsec2 & Ht2);
    [done..|by rewrite Hsec1|].
  split_and!; [done..|]. rewrite Ht2, Ht1, lookup_alter_eq, lookup_alter_eq, Htab. done.
Qed.

(** A wallet is entered in the table before its key is stored: when the
    secrets manager fails in between, the wallet is offered from the pool
    without a key, and every registration of a peer that was assigned it fails
    for as long as the peer keeps the wallet. *)
Theorem half_created_wallet_strands_peer cenv s :
  gs_table s !! ce_address cenv = None ->
  gs_secrets s !! gas_wallet_secret_name (ce_address cenv) = None ->
  ce_db cenv = true -> ce_secrets cenv = false ->
  let out := create_gas_wallet cenv s in
  (exists e, out.1 = Err e) /\ gs_table out.2 !! ce_address cenv = Some (wallet_new (ce_address cenv)) /\
  gs_secrets out.2 = gs_secrets s /\
  forall s' m' v p env k,
    gs_secrets s' = gs_secrets out.2 -> represents s' m' -> one_each m' ->
    m' !! ce_address cenv = Some v -> holder v = Some p ->
    (register_gas_wallet tol top env p s').1 <> Ok k.
Proof.
  intros Ha Hs Hdb Hse. cbn zeta.
  unfold create_gas_wallet, add_gas_wallet, create_secrets_manager_entry, on_table, mbind, eff_bind.
  rewrite Ha, Hdb. cbn [gs_secrets]. rewrite Hs, Hse. cbn.
  split_and!; [by eauto|by rewrite lookup_insert_eq|done|].
  intros s' m' v p env k Hsec H H1 Hv Hh Hr. eapply register_live in Hr; eauto. congruence.
Qed.
End Register.

(** The skip rule: a wallet is left alone as soon as it holds more than the
    tolerated fraction of the target; it is otherwise filled up to the target. *)
Lemma top_up_skips tol env addr amount s bal :
  fe_balance' env addr = Ok bal -> fgtb bal (fmul amount tol) = true ->
  top_up_gas tol env addr amount s = (Ok tt, s).
Proof.
  intros Hb Hg. unfold top_up_gas, top_up_gas_with_tolerance, mbind, eff_bind, lift. by rewrite Hb, Hg.
Qed.

(** ** Witnesses *)
Module GasWalletsWitness.
#[local] Instance head_order : RowOrder GasWallet.
Proof. refine {| first_row := head |}; [by intros [] ? [= ->]; left|by intros []]. Defined.

Definition ok_refill : refill_env := {|
  fe_all := true; fe_hot_wallet := Ok "hot"; fe_my_balance := Ok f0;
  fe_balance _ := Ok f0; fe_balance' _ := Ok f0; fe_signer _ := Ok tt; fe_transfer _ _ := Ok tt |}.
Definition reg (now : Z) : register_env := mk_register_env true true true now true ok_refill.
Definition rep (now : Z) : report_env := mk_report_env true (fun _ => true) (fun _ => now).
Definition empty_pool : gas_state := mk_gas ∅ ∅ [].
Definition history : list pool_op :=
  [OpCreate (mk_create_env "aa" "key-aa" true true); OpCreate (mk_create_env "bb" "key-bb" true false);
   OpRegister (reg 100) "relayer"; OpReport (rep 200) []; OpReport (rep 300) []].
Definition held : gas_state :=
  mk_gas {["aa" := mk_wallet "aa" (Some "relayer") "active" (Some 100)]} {["gas-wallet-aa" := "key-aa"]} [].
Definition held_pool : pool := {["aa" := Held "relayer" 100]}.

Lemma held_represents : represents held held_pool.
Proof. apply map_Forall2_singleton. done. Qed.
Lemma held_one_each : one_each held_pool.
Proof. unfold held_pool. intros a b v w p [<- _]%lookup_singleton_Some [<- _]%lookup_singleton_Some. done. Qed.

Lemma gas_pool_refines_witness :
  exists m, represents (exec_all f0 f0 history empty_pool) m /\ one_each m.
Proof.
  destruct (gas_pool_refines f0 f0 history empty_pool eq_refl) as (m & Hm & _ & H1 & _). eauto.
Defined.

Example history_reclaims :
  gw_status <$> gs_table (exec_all f0 f0 history empty_pool) !! "aa" = Some "pending".
Proof. vm_compute. reflexivity. Qed.

Definition quiet_reports : list pool_op := [OpReport (rep 150) []; OpReport (rep 200) []].
Lemma registered_peer_keeps_wallet_witness :
  exists k, (register_gas_wallet f0 f0 (reg 250) "relayer" (exec_all f0 f0 quiet_reports held)).1 = Ok k /\
            k = "key-aa".
Proof.
  exists "key-aa". assert ((register_gas_wallet f0 f0 (reg 250) "relayer" (exec_all f0 f0 quiet_reports held)).1
    = Ok "key-aa") as Hr by (vm_compute; reflexivity). split; [exact Hr|].
  refine (registered_peer_keeps_wallet f0 f0 quiet_reports (reg 250) held held_pool "aa" "relayer" 100 _ _
    held_represents held_one_each eq_refl eq_refl (or_introl _) Hr).
  unfold quiet_reports. rewrite !Forall_cons. split_and!; [left|left|constructor];
    cbn; unfold GAS_WALLET_RECLAIM_GRACE; lia.
Defined.

Lemma absent_peer_reclaimed_witness :
  exists w, find_inactive_gas_wallet true (exec_all f0 f0 [OpReport (rep 280) ["other"]; OpReport (rep 400) []] held)
            = (Ok w, exec_all f0 f0 [OpReport (rep 280) ["other"]; OpReport (rep 400) []] held).
Proof.
  refine (proj2 (absent_peer_reclaimed f0 f0 (rep 280) (rep 400) ["other"] [] held held_pool "aa" "relayer" 100
    held_represents eq_refl eq_refl (fun _ => eq_refl) eq_refl (fun _ => eq_refl) _ _ _)).
  - by intros ?%list_elem_of_singleton.
  - by intros ?%not_elem_of_nil.
  - cbn. unfold GAS_WALLET_RECLAIM_GRACE. lia.
Defined.

Definition idle : gas_state := mk_gas {["aa" := wallet_new "aa"]} {["gas-wallet-aa" := "key-aa"]} [].
Definition idle_pool : pool := {["aa" := Idle]}.
Lemma idle_represents : represents idle idle_pool.
Proof. apply map_Forall2_singleton. done. Qed.

Lemma ok_refill_ok s : (refill_gas_wallets f0 ok_refill f0 s).1 = Ok tt.
Proof.
  unfold refill_gas_wallets, refill_gas_for_wallets, get_all_gas_wallets, query, lift, mbind, eff_bind.
  cbn [ok_refill fe_all fe_hot_wallet fe_my_balance].
  generalize (rows (gs_table s)). intros l.
  assert (forall total, exists z, sum_needs ok_refill f0 l total s = (Ok z, s)) as Hsum.
  { induction l as [|w l IH]; intros total; [by eexists|]. cbn [sum_needs]. apply IH. }
  destruct (Hsum f0) as [z ->].
  generalize (if fltb f0 z then fdiv f0 (of_Z (Z.of_nat (length l))) else f0). intros target.
  clear z Hsum. induction l as [|w l IH] in s |- *; [done|]. cbn [top_up_all].
  unfold top_up_gas, top_up_gas_with_tolerance, lift, transfer_ether, mbind, eff_bind.
  cbn [ok_refill fe_balance' fe_signer fe_transfer].
  destruct (fgtb _ _); apply IH.
Qed.

Lemma racing_registrations_share_key_witness :
  exists w k, (register_write f0 f0 (reg 1) "p" (w, true) idle).1 = Ok k /\
    (register_write f0 f0 (reg 2) "q" (w, true) (register_write f0 f0 (reg 1) "p" (w, true) idle).2).1 = Ok k.
Proof.
  destruct (racing_registrations_share_key f0 f0 (reg 1) (reg 2) "p" "q" idle idle_pool "aa") as
    (w & k & _ & _ & H1 & H2 & _).
  - exact idle_represents.
  - reflexivity.
  - unfold idle_pool. by intros b v [_ <-]%lookup_singleton_Some.
  - unfold idle_pool. intros b [<- _]%lookup_singleton_Some. vm_compute. eexists. reflexivity.
  - by intros env [-> | ->]; split_and!; try done; apply ok_refill_ok.
  - exists w, k. split; assumption.
Defined.

Lemma half_created_wallet_strands_peer_witness :
  exists e, (create_gas_wallet (mk_create_env "cc" "key-cc" true false) empty_pool).1 = Err e.
Proof.
  refine (proj1 (half_created_wallet_strands_peer f0 f0 (mk_create_env "cc" "key-cc" true false) empty_pool
    eq_refl eq_refl eq_refl eq_refl)).
Defined.
End GasWalletsWitness.
