(* ===== verification/Custody.v ===== *)
(** * The custody client (funds-manager-server: custody_client/ and its handlers)

    Funds lie in Fireblocks vaults and in hot wallets whose keys the secrets
    manager keeps.  Operations act on [custody_state]: the metadata cached from
    Fireblocks, the table of hot wallets of the chain, the secrets, and the log
    of what was sent, on chain or to Fireblocks.  What Fireblocks, the RPC node,
    the database and the price reporter answer is the record [custody_env]; the
    Fireblocks calls pass the rate limiter of [Fireblocks], which only delays
    them. *)
From Stdlib Require Import ZArith Lia Ascii.
From stdpp Require Import gmap strings list.
From S2P Require Import Prelude F64 AuthError FundsManager.
Local Open Scope Z_scope.

Create HintDb custody discriminated.

(** ** mod.rs: vaults and assets *)
Inductive DepositWithdrawSource := Quoter | FeeRedemption | Gas.
#[export] Instance source_eq_dec : EqDecision DepositWithdrawSource.
Proof. solve_decision. Defined.

Definition ARB_ONE_ETH_ASSET_ID : string := "ETH-AETH".
Definition ARB_SEPOLIA_ETH_ASSET_ID : string := "ETH-AETH_SEPOLIA".
Definition BASE_MAINNET_ETH_ASSET_ID : string := "BASECHAIN_ETH".
Definition BASE_SEPOLIA_ETH_ASSET_ID : string := "BASECHAIN_ETH_TEST5".
Definition ETHEREUM_MAINNET_ETH_ASSET_ID : string := "ETH".
Definition ETHEREUM_SEPOLIA_ETH_ASSET_ID : string := "ETH_TEST5".
Definition TESTNET_NATIVE_ASSET_IDS : list string :=
  [ARB_SEPOLIA_ETH_ASSET_ID; BASE_SEPOLIA_ETH_ASSET_ID; ETHEREUM_SEPOLIA_ETH_ASSET_ID].
Definition MAINNET_NATIVE_ASSET_IDS : list string :=
  [ARB_ONE_ETH_ASSET_ID; BASE_MAINNET_ETH_ASSET_ID; ETHEREUM_MAINNET_ETH_ASSET_ID].

Definition get_native_eth_asset_id (c : Chain) : res FundsManagerError string :=
  match c with
  | ArbitrumOne => Ok ARB_ONE_ETH_ASSET_ID
  | ArbitrumSepolia => Ok ARB_SEPOLIA_ETH_ASSET_ID
  | BaseMainnet => Ok BASE_MAINNET_ETH_ASSET_ID
  | BaseSepolia => Ok BASE_SEPOLIA_ETH_ASSET_ID
  | EthereumMainnet => Ok ETHEREUM_MAINNET_ETH_ASSET_ID
  | EthereumSepolia => Ok ETHEREUM_SEPOLIA_ETH_ASSET_ID
  | Devnet => Err (CustomError "Unsupported chain")
  end.
Definition get_current_env_native_asset_ids (c : Chain) : res FundsManagerError (list string) :=
  match c with
  | ArbitrumOne | BaseMainnet | EthereumMainnet => Ok MAINNET_NATIVE_ASSET_IDS
  | ArbitrumSepolia | BaseSepolia | EthereumSepolia => Ok TESTNET_NATIVE_ASSET_IDS
  | Devnet => Err (CustomError "Unsupported chain")
  end.

Section VaultNames.
Context (chain_to_string : Chain -> string).
Definition vault_name (src : DepositWithdrawSource) (c : Chain) : string :=
  let env_name := titlecase (to_env_agnostic_name chain_to_string c) in
  match src with
  | Quoter => env_name +:+ " Quoters"
  | FeeRedemption => env_name +:+ " Fee Collection"
  | Gas => env_name +:+ " Gas"
  end%string.
Definition from_vault_name (name : string) (c : Chain) : res FundsManagerError DepositWithdrawSource :=
  let full_name := to_lowercase (to_env_agnostic_name chain_to_string c +:+ " " +:+ name)%string in
  let one_of l := bool_decide (to_lowercase full_name ∈ l) in
  if one_of ["arbitrum quoters"; "base quoters"; "ethereum quoters"]%string then Ok Quoter
  else if one_of ["arbitrum fee collection"; "base fee collection"; "ethereum fee collection"]%string
  then Ok FeeRedemption
  else if one_of ["arbitrum gas"; "base gas"; "ethereum gas"]%string then Ok Gas
  else Err (ParseError ("invalid vault name: " +:+ name)%string).
End VaultNames.

(** ** fireblocks_client.rs: cached metadata; models of Fireblocks and the table *)
Record AssetOnchain := mk_onchain { oc_address : option string; oc_decimals : f64 }.
Record FireblocksMetadata := mk_meta {
  vault_ids : gmap string string;
  asset_ids : gmap string string;
  deposit_addresses : gmap (string * string) string;
  asset_onchain_data : gmap string AssetOnchain;
}.
Definition metadata_new : FireblocksMetadata := mk_meta ∅ ∅ ∅ ∅.

Record VaultAsset := mk_vault_asset { va_id : string; va_available : string }.
Record VaultAccount := mk_vault { v_id : string; v_name : string; v_assets : list VaultAsset }.
Record FbAsset := mk_fb_asset { fa_legacy_id : string; fa_address : option string }.
Record HotWallet := mk_hot {
  hw_secret_id : string;
  hw_vault : string;
  hw_address : string;
  hw_internal_wallet_id : string;
}.

(** The statuses the code names; the others are pending ones. *)
Inductive TransactionStatus :=
  | Blocked | Cancelled | Cancelling | Completed | Confirming | Failed | Rejected
  | OtherStatus (s : string).
#[export] Instance tx_status_eq_dec : EqDecision TransactionStatus.
Proof. solve_decision. Defined.
Record SignedMessage := mk_signed { sg_r : option string; sg_s : option string; sg_v : option Z }.
Record TransactionResponse := mk_tx {
  tx_status : TransactionStatus;
  tx_signed : option (list (option SignedMessage));
}.

Inductive TransferPeerPathType := InternalWallet | ExternalWallet.
(** EIP-712 typed data: its domain, its primary type and the rest. *)
Record TypedData := mk_typed {
  td_domain_name : option string;
  td_chain_id : option Z;
  td_primary_type : string;
  td_content : string;
}.

(** What leaves the service: the transactions that reach the pool, with their
    amounts in base units and the key that signs them; the requests to Fireblocks;
    and the swaps. *)
Inductive custody_action :=
  | Erc20Transfer (token to : string) (units : Z) (key : string)
  | EtherTransfer (to : string) (units : Z) (key : string)
  | ReceiveEth (to : string) (units : Z) (calldata : bool) (gas_price : Z) (key : string)
  | FbTransfer (vault_id asset_id dest_id : string) (dest_type : TransferPeerPathType) (amount : f64)
  | FbSign (vault_id asset_id note : string) (data : TypedData)
  | SwapInto (targets : list (string * f64)).   (* [Swap.multi_swap_into_target_tokens] *)

Record custody_state := mk_custody {
  cs_meta : FireblocksMetadata;
  cs_hot_wallets : list HotWallet;
  cs_secrets : gmap string string;
  cs_log : list custody_action;
}.
Abbreviation C := (eff custody_state FundsManagerError).

(** The polls of a transaction: how long the i-th read takes, in ms, and what it
    answers; and the read after the deadline. *)
Record poll_env := mk_poll {
  pl_read : nat -> nat * res FundsManagerError TransactionResponse;
  pl_final : res FundsManagerError TransactionResponse;
}.

Record custody_env := mk_env {
  (* Fireblocks *)
  fb_blockchains : bool -> res FundsManagerError (list (option string * string));
  fb_assets : string -> res FundsManagerError (list FbAsset);
  fb_vaults : string -> res FundsManagerError (list VaultAccount);
  fb_addresses : string -> string -> res FundsManagerError (list string);
  fb_asset_by_id : string -> res FundsManagerError (option AssetOnchain);
  fb_vault_asset : string -> string -> res FundsManagerError string;
  fb_external_wallets : res FundsManagerError (list (string * list (option string)));
  fb_create : custody_action -> res FundsManagerError string;
  fb_poll : string -> poll_env;
  fb_index : string -> nat -> nat * res FundsManagerError (list TransactionResponse);
  (* RPC node: balances, decimals, the base fee of the latest block, and the
     answers to the submissions of a transaction, up to its hash *)
  rpc_erc20 : string -> string -> res FundsManagerError f64;
  rpc_erc20_raw : string -> string -> res FundsManagerError Z;
  rpc_ether : string -> res FundsManagerError f64;
  rpc_decimals : string -> res string Z;
  rpc_block : res string (option (option Z));
  rpc_send : custody_action -> nat -> SendTx.send_outcome string;
  (* swaps *)
  ex_swap : list (string * f64) -> res FundsManagerError string;
  (* database and secrets manager *)
  db_up : bool;
  sm_up : bool;
  (* prices *)
  pr_price : string -> res FundsManagerError f64;
  pr_eth : res FundsManagerError f64;
}.

(** ** rpc_shim.rs: JSON values as far as the shim looks into them, and errors *)
Inductive Value := VString (s : string) | VArray (l : list Value) | VOther (s : string).
Record JsonRpcRequest := mk_rpc { rpc_id : string; rpc_method : string; rpc_params : Value }.
Inductive RpcError :=
  | ErrorResp (code : Z) (msg : string)
  | UnsupportedFeature (msg : string)
  | DeserError (msg : string)
  | Transport (e : FundsManagerError).
Inductive ResponsePayload := Success (v : Value) | Failure (code : Z) (msg : string).

(** ** The client *)
Section Client.
(** The library's texts, numbers and keys: chains as text, [parse::<f64>],
    the rounding of a decimal number, powers of ten, signers from their key and
    the address of a key, tickers. *)
Context `{RO : RowOrder HotWallet}
  (chain_to_string : Chain -> string)
  (parse_f64 : string -> option f64)
  (round_up : f64 -> Z -> res FundsManagerError f64)
  (powf10 : f64 -> f64) (floor : f64 -> f64)
  (signer_of : string -> res FundsManagerError unit)
  (address_of : string -> string)
  (usdc_on : Chain -> string).
(** [Address::from_str], the text of an amount, and [parse_units] with a number of
    decimals, up to a [U256]. *)
Context (parse_address : string -> res string string) (show_f64 : f64 -> string)
  (parse_units : string -> Z -> res string Z).
(** The chain of the client and its identifier. *)
Context (chain : Chain) (chain_id : Z) (chain_id_str : string).
Abbreviation vault_of src := (vault_name chain_to_string src chain).

Definition get_meta {A} (f : FireblocksMetadata -> A) : C A := gets (fun s => f (cs_meta s)).
Definition set_meta (f : FireblocksMetadata -> FireblocksMetadata) : C unit :=
  modify (fun s => mk_custody (f (cs_meta s)) (cs_hot_wallets s) (cs_secrets s) (cs_log s)).
(** An action is logged when it is sent; the answer may be an error all the same. *)
Definition send {A} (answer : custody_action -> res FundsManagerError A) (a : custody_action) : C A := fun s =>
  (answer a, mk_custody (cs_meta s) (cs_hot_wallets s) (cs_secrets s) (cs_log s ++ [a])).

Definition cache_vault_id (name id : string) : C unit :=
  set_meta (fun m => mk_meta (<[name := id]> (vault_ids m)) (asset_ids m) (deposit_addresses m) (asset_onchain_data m)).
Definition cache_asset_id (mint id : string) : C unit :=
  set_meta (fun m => mk_meta (vault_ids m) (<[mint := id]> (asset_ids m)) (deposit_addresses m) (asset_onchain_data m)).
Definition cache_deposit_address (name mint address : string) : C unit :=
  set_meta (fun m => mk_meta (vault_ids m) (asset_ids m) (<[(name, mint) := address]> (deposit_addresses m)) (asset_onchain_data m)).
Definition cache_asset_onchain_data (id : string) (d : AssetOnchain) : C unit :=
  set_meta (fun m => mk_meta (vault_ids m) (asset_ids m) (deposit_addresses m) (<[id := d]> (asset_onchain_data m))).

(** *** mod.rs: assets *)
Definition is_testnet : bool :=
  match chain with ArbitrumSepolia | BaseSepolia | EthereumSepolia => true | _ => false end.
Definition get_current_blockchain_id (env : custody_env) : C string :=
  blockchains ← lift (fb_blockchains env is_testnet);
  lift (ok_or ((fun p => p.2.2) <$> list_find (fun b => b.1 = Some chain_id_str) blockchains)
              (FireblocksError "Arbitrum blockchain not found")).

Definition asset_matches (address : string) (a : FbAsset) : Prop :=
  to_lowercase <$> fa_address a = Some (to_lowercase address).
#[local] Instance asset_matches_dec address a : Decision (asset_matches address a).
Proof. unfold asset_matches. apply _. Defined.
Definition get_asset_id_for_address (env : custody_env) (address : string) : C (option string) :=
  cached ← get_meta (fun m => asset_ids m !! address);
  match cached with
  | Some asset_id => mret (Some asset_id)
  | None =>
      blockchain_id ← get_current_blockchain_id env;
      assets ← lift (fb_assets env blockchain_id);
      match list_find (asset_matches address) assets with
      | Some (_, a) => _ ← cache_asset_id address (fa_legacy_id a); mret (Some (fa_legacy_id a))
      | None => mret None
      end
  end.

(** *** vaults.rs *)
Definition get_vault_account (env : custody_env) (name : string) : C (option VaultAccount) :=
  accounts ← lift (fb_vaults env name);
  mret (snd <$> list_find (fun v => v_name v = name) accounts).
Definition get_vault_id (env : custody_env) (name : string) : C string :=
  cached ← get_meta (fun m => vault_ids m !! name);
  match cached with
  | Some id => mret id
  | None =>
      vault ← get_vault_account env name;
      v ← lift (ok_or vault (FireblocksError ("no vault with name '" +:+ name +:+ "'")%string));
      _ ← cache_vault_id name (v_id v);
      mret (v_id v)
  end.
Definition get_vault_available_balance (env : custody_env) (vault_id mint : string) : C f64 :=
  asset ← get_asset_id_for_address env mint;
  asset_id ← lift (ok_or asset (FireblocksError ("asset " +:+ mint +:+ " not found")%string));
  available ← lift (fb_vault_asset env vault_id asset_id);
  lift (ok_or (parse_f64 available) (ParseError "invalid float literal")).
Definition get_asset_onchain_data (env : custody_env) (asset_id : string) : C AssetOnchain :=
  cached ← get_meta (fun m => asset_onchain_data m !! asset_id);
  match cached with
  | Some d => mret d
  | None =>
      resp ← lift (fb_asset_by_id env asset_id);
      d ← lift (ok_or resp (FireblocksError ("asset " +:+ asset_id +:+ " has no onchain data")%string));
      _ ← cache_asset_onchain_data asset_id d;
      mret d
  end.
Definition ZERO_ADDRESS : string := "0x0000000000000000000000000000000000000000".
Definition try_get_token_balance_for_asset (env : custody_env) (a : VaultAsset) : C (option (string * Z)) :=
  available ← lift (ok_or (parse_f64 (va_available a)) (ParseError "invalid float literal"));
  if feqb available f0 then mret None
  else
    d ← get_asset_onchain_data env (va_id a);
    natives ← lift (get_current_env_native_asset_ids chain);
    let mint := if decide (va_id a ∈ natives) then Some ZERO_ADDRESS else oc_address d in
    match mint with
    | None => mret None
    | Some mint => mret (Some (mint, to_uint 128 (floor (fmul available (powf10 (oc_decimals d))))))
    end.
(** [try_join_all] polls the futures in turn. *)
Fixpoint token_balances (env : custody_env) (assets : list VaultAsset) : C (list (string * Z)) :=
  match assets with
  | [] => mret []
  | a :: assets =>
      b ← try_get_token_balance_for_asset env a;
      bs ← token_balances env assets;
      mret (match b with Some b => b :: bs | None => bs end)
  end.
Definition get_vault_token_balances (env : custody_env) (name : string) : C (list (string * Z)) :=
  vault ← get_vault_account env name;
  v ← lift (ok_or vault (FireblocksError ("vault " +:+ name +:+ " not found")%string));
  token_balances env (v_assets v).

(** *** queries.rs: hot wallets *)
Definition hot_query {A} (env : custody_env) (f : list HotWallet -> res FundsManagerError A) : C A := fun s =>
  (if db_up env then f (cs_hot_wallets s) else Err (Db ""), s).
Definition get_all_hot_wallets (env : custody_env) : C (list HotWallet) := hot_query env (fun ws => Ok ws).
Definition get_hot_wallet_by_address (env : custody_env) (address : string) : C HotWallet :=
  hot_query env (fun ws => ok_or (first_row (filter (fun w => hw_address w = address) ws)) (Db "Record not found")).
Definition get_hot_wallet_by_vault (env : custody_env) (vault : string) : C HotWallet :=
  hot_query env (fun ws => ok_or (first_row (filter (fun w => hw_vault w = vault) ws)) (Db "Record not found")).
Definition get_quoter_hot_wallet (env : custody_env) : C HotWallet := get_hot_wallet_by_vault env (vault_of Quoter).
Definition insert_hot_wallet (env : custody_env) (w : HotWallet) : C unit := fun s =>
  if db_up env then (Ok tt, mk_custody (cs_meta s) (cs_hot_wallets s ++ [w]) (cs_secrets s) (cs_log s))
  else (Err (Db ""), s).

(** *** hot_wallets.rs *)
Definition hot_wallet_secret_name (address : string) : string := ("hot-wallet-" +:+ to_lowercase address)%string.
Definition get_secret (env : custody_env) (name : string) : C string := fun s =>
  (if sm_up env then ok_or (cs_secrets s !! name) (SecretsManager "") else Err (SecretsManager ""), s).
Definition create_secret (env : custody_env) (name value : string) : C unit := fun s =>
  match cs_secrets s !! name with
  | None =>
      if sm_up env
      then (Ok tt, mk_custody (cs_meta s) (cs_hot_wallets s) (<[name := value]> (cs_secrets s)) (cs_log s))
      else (Err (SecretsManager ""), s)
  | Some _ => (Err (SecretsManager ""), s)
  end.
(** The key is stored before the wallet is entered in the table. *)
Definition create_hot_wallet (env : custody_env) (private_key vault internal_wallet_id : string) : C string :=
  let address := address_of private_key in
  let secret_name := hot_wallet_secret_name address in
  _ ← create_secret env secret_name private_key;
  _ ← insert_hot_wallet env (mk_hot secret_name vault address internal_wallet_id);
  mret address.
Definition get_hot_wallet_private_key (env : custody_env) (address : string) : C string :=
  secret_value ← get_secret env (hot_wallet_secret_name address);
  _ ← lift (signer_of secret_value);
  mret secret_value.
Definition get_token_balance (env : custody_env) (wallet mint : string) : C Z :=
  balance ← lift (rpc_erc20_raw env wallet mint);
  lift (ok_or (try_into_u 128 balance) (ParseError "FromUintError")).
Fixpoint wallet_balances (env : custody_env) (wallet : string) (mints : list string) : C (list (string * Z)) :=
  match mints with
  | [] => mret []
  | mint :: mints =>
      b ← get_token_balance env wallet mint;
      bs ← wallet_balances env wallet mints;
      mret ((mint, b) :: bs)
  end.
Fixpoint balances_of (env : custody_env) (ws : list HotWallet) (mints : list string)
    : C (list (string * list (string * Z))) :=
  match ws with
  | [] => mret []
  | w :: ws =>
      bs ← wallet_balances env (hw_address w) mints;
      rest ← balances_of env ws mints;
      mret ((hw_address w, bs) :: rest)
  end.
Definition get_hot_wallet_balances (env : custody_env) (mints : list string) :=
  ws ← get_all_hot_wallets env; balances_of env ws mints.

(** *** deposit.rs *)
Definition get_deposit_address_by_vault_name (env : custody_env) (name : string) : C string :=
  w ← get_hot_wallet_by_vault env name; mret (hw_address w).
Definition get_deposit_address (env : custody_env) (src : DepositWithdrawSource) : C string :=
  get_deposit_address_by_vault_name env (vault_of src).
Definition get_fireblocks_deposit_address (env : custody_env) (mint name : string) : C string :=
  cached ← get_meta (fun m => deposit_addresses m !! (name, mint));
  match cached with
  | Some address => mret address
  | None =>
      vault ← get_vault_account env name;
      v ← lift (ok_or vault (FireblocksError ("no vault for deposit source: " +:+ name)%string));
      asset ← get_asset_id_for_address env mint;
      asset_id ← lift (ok_or asset (FireblocksError ("no asset for mint: " +:+ mint)%string));
      addresses ← lift (fb_addresses env (v_id v) asset_id);
      address ← lift (ok_or (head addresses) (FireblocksError ("no addresses for asset: " +:+ asset_id)%string));
      _ ← cache_deposit_address name mint address;
      mret address
  end.

(** *** mod.rs: polling

    Times are in ms since the start.  A turn of the loop ends past the deadline
    or sleeps for a second. *)
Definition POLL_TIMEOUT : Z := 60000.
Definition POLL_INTERVAL : Z := 1000.
Definition POLL_FUEL : nat := 61.

Definition settled (st : TransactionStatus) : bool := match st with OtherStatus _ => false | _ => true end.
Fixpoint poll_loop (pl : poll_env) (fuel i : nat) (elapsed : Z) : res FundsManagerError TransactionResponse :=
  match fuel with
  | O => pl_final pl
  | S fuel =>
      let '(took, answer) := pl_read pl i in
      let elapsed := elapsed + Z.of_nat took in
      let go_on :=
        if POLL_TIMEOUT <=? elapsed then pl_final pl
        else poll_loop pl fuel (S i) (elapsed + POLL_INTERVAL) in
      match answer with
      | Ok tx => if settled (tx_status tx) then Ok tx else go_on
      | Err _ => go_on
      | Panic => Panic
      end
  end.
Definition poll_fireblocks_transaction (env : custody_env) (id : string) : C TransactionResponse :=
  lift (poll_loop (fb_poll env id) POLL_FUEL 0 0).

Fixpoint index_loop (read : nat -> nat * res FundsManagerError (list TransactionResponse)) (fuel i : nat) (elapsed : Z)
    : res FundsManagerError TransactionResponse :=
  let timed_out := Err (FireblocksError "Timed out waiting for Fireblocks to index transaction") in
  match fuel with
  | O => timed_out
  | S fuel =>
      if POLL_TIMEOUT <=? elapsed then timed_out
      else
        let '(took, answer) := read i in
        txs ← answer;
        match head txs with
        | Some tx => Ok tx
        | None => index_loop read fuel (S i) (elapsed + Z.of_nat took + POLL_INTERVAL)
        end
  end.
Definition poll_fireblocks_external_transaction (env : custody_env) (tx_hash : string) : C TransactionResponse :=
  lift (index_loop (fb_index env tx_hash) POLL_FUEL 0 0).

(** *** mod.rs: transfers, and helpers.rs: sending with retries *)
Definition submit (a : custody_action) (s : custody_state) : custody_state :=
  mk_custody (cs_meta s) (cs_hot_wallets s) (cs_secrets s) (cs_log s ++ [a]).
Definition send_tx_with_retry (env : custody_env) (a : custody_action) : C string :=
  SendTx.send_tx_with_retry OnChain submit (rpc_send env a) a.
Definition ETHER_DECIMALS : Z := 18.
Definition transfer_ether (env : custody_env) (to : string) (amount : f64) (key : string) : C string :=
  to ← lift (map_err ParseError (parse_address to));
  amount_units ← lift (map_err ParseError (parse_units (show_f64 amount) ETHER_DECIMALS));
  send_tx_with_retry env (EtherTransfer to amount_units key).
Definition erc20_transfer (env : custody_env) (mint to_address : string) (amount : f64) (key : string) : C string :=
  token_address ← lift (map_err ParseError (parse_address mint));
  decimals ← lift (map_err OnChain (rpc_decimals env token_address));
  amount ← lift (map_err ParseError (parse_units (show_f64 amount) decimals));
  to_address ← lift (map_err ParseError (parse_address to_address));
  send_tx_with_retry env (Erc20Transfer token_address to_address amount key).

(** *** withdraw.rs *)
Definition transfer_from_vault (env : custody_env) (vault_id asset_id dest_id : string)
    (dest_type : TransferPeerPathType) (amount : f64) : C unit :=
  id ← send (fb_create env) (FbTransfer vault_id asset_id dest_id dest_type amount);
  tx ← poll_fireblocks_transaction env id;
  if decide (tx_status tx <> Completed /\ tx_status tx <> Confirming)
  then lift (Err (FireblocksError "Transaction failed"))
  else mret tt.

Definition withdraw_from_hot_wallet (env : custody_env) (src : DepositWithdrawSource)
    (destination token : string) (amount : f64) : C unit :=
  wallet ← get_hot_wallet_by_vault env (vault_of src);
  bal ← lift (rpc_erc20 env token (hw_address wallet));
  if fltb bal amount then lift (Err (CustomError "Insufficient balance"))
  else
    key ← get_hot_wallet_private_key env (hw_address wallet);
    _ ← erc20_transfer env token destination amount key;
    mret tt.

Definition withdraw_from_fireblocks (env : custody_env) (src : DepositWithdrawSource) (mint : string)
    (withdraw_amount : f64) : C unit :=
  let name := vault_of src in
  hot_wallet ← get_hot_wallet_by_vault env name;
  vault ← get_vault_account env name;
  v ← lift (ok_or vault (CustomError "Vault not found"));
  asset ← get_asset_id_for_address env mint;
  asset_id ← lift (ok_or asset (CustomError ("Asset not found for mint: " +:+ mint)%string));
  let available_str := default "" ((fun p => va_available p.2) <$> list_find (fun a => va_id a = asset_id) (v_assets v)) in
  available ← lift (ok_or (parse_f64 available_str) (ParseError "invalid float literal"));
  if fltb available withdraw_amount then lift (Err (CustomError "Insufficient balance"))
  else transfer_from_vault env (v_id v) asset_id (hw_internal_wallet_id hot_wallet) InternalWallet withdraw_amount.

Definition withdraw_gas (env : custody_env) (amount : f64) (to : string) : C unit :=
  gas_wallet ← get_hot_wallet_by_vault env (vault_of Gas);
  bal ← lift (rpc_ether env (hw_address gas_wallet));
  if fltb bal amount then lift (Err (CustomError "Insufficient balance"))
  else
    key ← get_hot_wallet_private_key env (hw_address gas_wallet);
    _ ← transfer_ether env to amount key;
    mret tt.

Definition TESTNET_HYPERLIQUID_USDC_ADDRESS : string := "0x1baAbB04529D43a73232B713C0FE471f7c7334d5".
Definition MAINNET_HYPERLIQUID_BRIDGE_ADDRESS : string := "0x2df1c51e09aecf9cacb7bc98cb1742757f163df7".
Definition TESTNET_HYPERLIQUID_BRIDGE_ADDRESS : string := "0x08cfc1B6b2dCF36A1480b99353A354AA8AC56f89".
Definition USDC_DECIMALS : Z := 6.
Definition HYPERLIQUID_VAULT_NAME : string := "Hyperliquid".

Definition get_hyperliquid_usdc_mint : res FundsManagerError string :=
  match chain with
  | ArbitrumOne => Ok (usdc_on chain)
  | ArbitrumSepolia => Ok TESTNET_HYPERLIQUID_USDC_ADDRESS
  | _ => Err (CustomError "Unsupported chain")
  end.
Definition get_hyperliquid_vault_id (env : custody_env) : C string := get_vault_id env HYPERLIQUID_VAULT_NAME.
Definition get_hyperliquid_address (env : custody_env) : C string :=
  usdc_mint ← lift get_hyperliquid_usdc_mint;
  get_fireblocks_deposit_address env usdc_mint HYPERLIQUID_VAULT_NAME.

Definition get_hyperliquid_bridge_id (env : custody_env) : C string :=
  bridge ← lift (match chain with
                 | ArbitrumOne => Ok MAINNET_HYPERLIQUID_BRIDGE_ADDRESS
                 | ArbitrumSepolia => Ok TESTNET_HYPERLIQUID_BRIDGE_ADDRESS
                 | _ => Err (CustomError "Unsupported chain")
                 end);
  wallets ← lift (fb_external_wallets env);
  lift (ok_or ((fun p => p.2.1) <$>
      list_find (fun w => Exists (fun a => to_lowercase <$> a = Some (to_lowercase bridge)) w.2) wallets)
    (FireblocksError "Hyperliquid bridge not found")).
Definition bridge_to_hyperliquid (env : custody_env) (amount : f64) (usdc_mint vault_id : string) : C unit :=
  bridge_id ← get_hyperliquid_bridge_id env;
  asset ← get_asset_id_for_address env usdc_mint;
  asset_id ← lift (ok_or asset (FireblocksError "USDC asset not found"));
  transfer_from_vault env vault_id asset_id bridge_id ExternalWallet amount.
Definition transfer_to_hyperliquid_account (env : custody_env) (amount : f64)
    (quoter_address hyperliquid_address usdc_mint : string) : C unit :=
  key ← get_hot_wallet_private_key env quoter_address;
  tx_hash ← erc20_transfer env usdc_mint hyperliquid_address amount key;
  _ ← poll_fireblocks_external_transaction env tx_hash;
  mret tt.
Definition withdraw_to_hyperliquid (env : custody_env) (amount : f64) : C unit :=
  rounded_amount ← lift (round_up amount USDC_DECIMALS);
  vault_id ← get_hyperliquid_vault_id env;
  address ← get_hyperliquid_address env;
  hot_wallet ← get_quoter_hot_wallet env;
  usdc_mint ← lift get_hyperliquid_usdc_mint;
  hl_available_bal ← get_vault_available_balance env vault_id usdc_mint;
  _ ← (if fltb hl_available_bal amount then
         amount_to_transfer ← lift (round_up (fsub rounded_amount hl_available_bal) USDC_DECIMALS);
         bal ← lift (rpc_erc20 env usdc_mint (hw_address hot_wallet));
         if fltb bal amount_to_transfer
         then lift (Err (CustomError "Insufficient balance for Hyperliquid bridge"))
         else transfer_to_hyperliquid_account env amount_to_transfer (hw_address hot_wallet) address usdc_mint
       else mret tt);
  bridge_to_hyperliquid env rounded_amount usdc_mint vault_id.

(** *** hot_wallets.rs: between wallets and vaults *)
Definition transfer_from_hot_wallet_to_vault (env : custody_env) (address mint : string) (amount : f64) : C unit :=
  hot_wallet ← get_hot_wallet_by_address env address;
  secret_value ← get_secret env (hw_secret_id hot_wallet);
  _ ← lift (signer_of secret_value);
  deposit_address ← get_fireblocks_deposit_address env mint (hw_vault hot_wallet);
  _ ← erc20_transfer env mint deposit_address amount secret_value;
  mret tt.
Definition transfer_from_vault_to_hot_wallet (env : custody_env) (vault mint : string) (amount : f64) : C unit :=
  src ← lift (from_vault_name chain_to_string vault chain);
  withdraw_from_fireblocks env src mint amount.

(** *** rpc_shim.rs *)
Definition ETH_ACCOUNTS_METHOD : string := "eth_accounts".
Definition ETH_SIGN_TYPED_DATA_V4_METHOD : string := "eth_signTypedData_v4".
Definition HYPERLIQUID_L1_ACTION_DOMAIN : string := "Exchange".
Definition HYPERLIQUID_USER_ACTION_DOMAIN : string := "HyperliquidSignTransaction".
Definition HYPERLIQUID_EXCHANGE_CHAIN_ID : Z := 1337.

(** Typed data is decoded by the library. *)
Context (decode_typed_data : Value -> res string TypedData).
Abbreviation R := (eff custody_state RpcError).
Definition transport {A} (m : C A) : R A := fun s => let '(r, s) := m s in (map_err Transport r, s).
Definition invalid_params : RpcError := ErrorResp (-32602) "Invalid params".

Definition parse_sign_typed_data_params (params : Value) : res RpcError (string * TypedData) :=
  l ← match params with VArray l => Ok l | _ => Err invalid_params end;
  address ← match l with VString a :: _ => Ok a | _ => Err invalid_params end;
  raw_data ← ok_or (l !! 1%nat) invalid_params;
  typed_data ← map_err DeserError (decode_typed_data raw_data);
  Ok (address, typed_data).

Definition validate_domain (d : TypedData) : res FundsManagerError unit :=
  expected ← match td_domain_name d with
             | None => Err (JsonRpc "Invalid domain name")
             | Some name =>
                 if String.eqb name HYPERLIQUID_L1_ACTION_DOMAIN then Ok HYPERLIQUID_EXCHANGE_CHAIN_ID
                 else if String.eqb name HYPERLIQUID_USER_ACTION_DOMAIN then Ok chain_id
                 else Err (JsonRpc "Invalid domain name")
             end;
  match td_chain_id d with
  | None => Err (JsonRpc "Invalid chain ID")
  | Some id => if id =? expected then Ok tt else Err (JsonRpc "Invalid chain ID")
  end.
Definition validate_typed_data (d : TypedData) : res FundsManagerError unit := validate_domain d.
Definition validate_signing_account (env : custody_env) (address : string) : C unit :=
  hyperliquid_address ← get_hyperliquid_address env;
  if String.eqb address hyperliquid_address then mret tt
  else lift (Err (JsonRpc "Invalid signing account")).
Definition generate_typed_data_note (name : string) (d : TypedData) : string :=
  ("Signing " +:+ td_primary_type d +:+ " using " +:+ name)%string.
Definition send_fireblocks_typed_data_signature_request (env : custody_env) (vault_id : string)
    (d : TypedData) (note : string) : C string :=
  asset_id ← lift (get_native_eth_asset_id chain);
  send (fb_create env) (FbSign vault_id asset_id note d).

(** The recovery byte as two hexadecimal digits, of [v as u8]. *)
Definition hex_digit (n : Z) : string := String.substring (Z.to_nat n) 1 "0123456789abcdef".
Definition hex_byte (v : Z) : string := (hex_digit (v mod 256 / 16) +:+ hex_digit (v mod 16))%string.
Definition signature_text (tx : TransactionResponse) : option string :=
  signed ← tx_signed tx;
  first ← head signed;
  sg ← first;
  r ← sg_r sg; s ← sg_s sg; v ← sg_v sg;
  Some ("0x" +:+ r +:+ s +:+ hex_byte v)%string.

Definition handle_eth_sign_typed_data_v4_request (env : custody_env) (rq : JsonRpcRequest) : R string :=
  '(address, typed_data) ← lift (parse_sign_typed_data_params (rpc_params rq));
  vault_id ← transport (get_hyperliquid_vault_id env);
  _ ← transport (validate_signing_account env address);
  _ ← transport (lift (validate_typed_data typed_data));
  let note := generate_typed_data_note HYPERLIQUID_VAULT_NAME typed_data in
  id ← transport (send_fireblocks_typed_data_signature_request env vault_id typed_data note);
  tx ← transport (poll_fireblocks_transaction env id);
  if decide (tx_status tx <> Completed)
  then lift (Err (Transport (FireblocksError "Typed data signature request unsuccessful")))
  else lift (ok_or (signature_text tx)
               (Transport (FireblocksError "Signature not found in Fireblocks transaction response"))).
Definition handle_eth_accounts_request (env : custody_env) : R (list string) :=
  address ← transport (get_hyperliquid_address env); mret [address].
Definition try_handle_rpc_request (env : custody_env) (rq : JsonRpcRequest) : R Value :=
  if String.eqb (rpc_method rq) ETH_SIGN_TYPED_DATA_V4_METHOD
  then s ← handle_eth_sign_typed_data_v4_request env rq; mret (VString s)
  else if String.eqb (rpc_method rq) ETH_ACCOUNTS_METHOD
  then l ← handle_eth_accounts_request env; mret (VArray (map VString l))
  else lift (Err (UnsupportedFeature "Unsupported RPC method")).

(** An error that is no response of its own becomes an internal error. *)
Definition handle_rpc_request (env : custody_env) (rq : JsonRpcRequest)
    : eff custody_state FundsManagerError (string * ResponsePayload) := fun s =>
  let '(r, s) := try_handle_rpc_request env rq s in
  match r with
  | Ok v => (Ok (rpc_id rq, Success v), s)
  | Err (ErrorResp code msg) => (Ok (rpc_id rq, Failure code msg), s)
  | Err (UnsupportedFeature msg) | Err (DeserError msg) => (Ok (rpc_id rq, Failure (-32603) msg), s)
  | Err (Transport _) => (Ok (rpc_id rq, Failure (-32603) "transport error"), s)
  | Panic => (Panic, s)
  end.

(** *** gas_sponsor.rs *)
Definition DESIRED_GAS_SPONSORSHIP_RESERVE_VALUE : f64 := of_Z 50.
Definition MIN_TRANSFER_VALUE : f64 := of_Z 10.
Definition MAX_REFILL_REDUCTION_FACTOR : f64 := lit 9999 10000.

(** What a balance lacks: an amount when its value is more than the minimum
    transfer below the reserve. *)
Definition refill_amount (bal price : f64) : option f64 :=
  let bal_value := fmul bal price in
  if fltb bal_value (fsub DESIRED_GAS_SPONSORSHIP_RESERVE_VALUE MIN_TRANSFER_VALUE)
  then Some (fdiv (fsub DESIRED_GAS_SPONSORSHIP_RESERVE_VALUE bal_value) price)
  else None.
(** The tokens of the chain other than USD, from the library's list. *)
Context (chain_tokens : list string).
Fixpoint tokens_needing_refill (env : custody_env) (gas_sponsor : string) (tokens : list string)
    : list (string * f64) :=
  match tokens with
  | [] => []
  | t :: tokens =>
      let rest := tokens_needing_refill env gas_sponsor tokens in
      match pr_price env t, rpc_erc20 env t gas_sponsor with
      | Ok price, Ok bal => match refill_amount bal price with Some a => (t, a) :: rest | None => rest end
      | _, _ => rest
      end
  end.
Definition get_tokens_needing_refill (env : custody_env) (gas_sponsor : string) : C (list (string * f64)) :=
  mret (tokens_needing_refill env gas_sponsor chain_tokens).

Definition get_eth_transfer_calldata : res FundsManagerError bool :=
  match chain with
  | ArbitrumSepolia | ArbitrumOne => Ok true
  | BaseSepolia | BaseMainnet | EthereumSepolia | EthereumMainnet => Ok false
  | Devnet => Panic
  end.
Definition send_receive_eth_tx (env : custody_env) (amount : f64) (key gas_sponsor : string) : C string :=
  to ← lift (map_err ParseError (parse_address gas_sponsor));
  calldata ← lift get_eth_transfer_calldata;
  amount_units ← lift (map_err ParseError (parse_units (show_f64 amount) ETHER_DECIMALS));
  block ← lift (map_err OnChain (rpc_block env));
  latest_block ← lift (ok_or block (OnChain "No latest block found"));
  latest_basefee ← lift (ok_or latest_block (OnChain "No basefee found"));
  let tx := ReceiveEth to amount_units calldata (umul 128 latest_basefee 2) key in
  match rpc_send env tx 0 with
  | SendTx.ErrorResp message => lift (Err (OnChain message))
  | SendTx.TransportError reached e => _ ← modify (if reached then submit tx else id); lift (Err (OnChain e))
  | SendTx.Pending receipt => _ ← modify (submit tx); lift (map_err OnChain receipt)
  end.
Definition send_eth_to_gas_sponsor (env : custody_env) (amount : f64) (gas_sponsor : string) : C string :=
  gas_wallet ← get_hot_wallet_by_vault env (vault_of Gas);
  key ← get_hot_wallet_private_key env (hw_address gas_wallet);
  my_balance ← lift (rpc_ether env (hw_address gas_wallet));
  if fltb my_balance amount
  then lift (Err (CustomError "gas wallet does not have enough ETH to cover the refill"))
  else send_receive_eth_tx env amount key gas_sponsor.
(** A failure is logged and dropped: [Err] becomes [Ok], a panic stays. *)
Definition tolerate {A} (m : C A) : C unit := fun s =>
  match m s with (Panic, s) => (Panic, s) | (_, s) => (Ok tt, s) end.
Definition refill_gas_sponsor_eth (env : custody_env) (gas_sponsor : string) : C unit :=
  price ← lift (pr_eth env);
  bal ← lift (rpc_ether env gas_sponsor);
  match refill_amount bal price with
  | Some a => tolerate (send_eth_to_gas_sponsor env a gas_sponsor)
  | None => mret tt
  end.
Definition send_token_to_gas_sponsor (env : custody_env) (token : string) (amount : f64)
    (quoter_key gas_sponsor : string) : C unit :=
  bal ← lift (rpc_erc20 env token (address_of quoter_key));
  let send_amount := if fleb bal amount then fmul bal MAX_REFILL_REDUCTION_FACTOR else amount in
  price ← lift (pr_price env token);
  let value := fmul send_amount price in
  if fltb value MIN_TRANSFER_VALUE then lift (Err (CustomError "below minimum"))
  else _ ← erc20_transfer env token gas_sponsor send_amount quoter_key; mret tt.

(** *** handlers/gas.rs and handlers/quoters.rs *)
Abbreviation H := (eff custody_state rejection).
Context (display : FundsManagerError -> string).
Definition or_internal {A} (m : C A) : H A := fun s =>
  let '(r, s) := m s in (map_err (fun e => ApiRejection (InternalError (display e))) r, s).
Definition or_reject {A} (m : C A) : H A := fun s => let '(r, s) := m s in (map_err FundsRejection r, s).

Definition withdraw_gas_handler (env : custody_env) (max amount : f64) (destination : string) : H unit :=
  if fgtb amount max
  then lift (Err (ApiRejection (BadRequestError "Requested amount exceeds maximum allowed withdrawal")))
  else or_internal (withdraw_gas env amount destination).

(** The tokens are swapped for first; neither a failed swap nor a failed transfer
    stops the rest. *)
Fixpoint send_tokens (env : custody_env) (key gas_sponsor : string) (tokens : list (string * f64)) : C unit :=
  match tokens with
  | [] => mret tt
  | (t, a) :: tokens =>
      _ ← tolerate (send_token_to_gas_sponsor env t a key gas_sponsor);
      send_tokens env key gas_sponsor tokens
  end.
Fixpoint refill_sponsors (envs : list custody_env) (key : string) (sponsors : list string) : C unit :=
  match sponsors, envs with
  | gas_sponsor :: sponsors, env :: envs =>
      _ ← refill_gas_sponsor_eth env gas_sponsor;
      tokens ← get_tokens_needing_refill env gas_sponsor;
      _ ← tolerate (send (fun _ => ex_swap env tokens) (SwapInto tokens));
      _ ← send_tokens env key gas_sponsor tokens;
      refill_sponsors envs key sponsors
  | _, _ => mret tt
  end.
Definition refill_gas_sponsor_handler (env : custody_env) (envs : list custody_env) (sponsors : list string) : H unit :=
  quoter_wallet ← or_reject (get_quoter_hot_wallet env);
  key ← or_reject (get_hot_wallet_private_key env (hw_address quoter_wallet));
  or_reject (refill_sponsors envs key sponsors).

Definition MAX_WITHDRAWAL_VALUE : f64 := of_Z 50000.
Definition MIN_HYPERLIQUID_DEPOSIT_AMOUNT : f64 := of_Z 5.
Definition quoter_withdraw_handler (env : custody_env) (address mint : string) (amount : f64) : H unit :=
  let too_much :=
    match pr_price env mint with Ok price => fgtb (fmul amount price) MAX_WITHDRAWAL_VALUE | _ => false end in
  if too_much
  then lift (Err (ApiRejection (BadRequestError "Requested withdrawal exceeds maximum allowed withdrawal")))
  else or_internal (withdraw_from_hot_wallet env Quoter address mint amount).
Definition withdraw_to_hyperliquid_handler (env : custody_env) (amount : f64) : H unit :=
  if fltb amount MIN_HYPERLIQUID_DEPOSIT_AMOUNT
  then lift (Err (ApiRejection (BadRequestError "Requested amount is less than the minimum allowed deposit")))
  else or_reject (withdraw_to_hyperliquid env amount).
Definition withdraw_from_vault_handler (env : custody_env) (vault mint : string) (amount : f64) : H unit :=
  or_internal (transfer_from_vault_to_hot_wallet env vault mint amount).
Definition transfer_to_vault_handler (env : custody_env) (address mint : string) (amount : f64) : H unit :=
  or_internal (transfer_from_hot_wallet_to_vault env address mint amount).

(** *** The service over time: operations of all kinds, each with the answers that
    the world gives during it *)
Inductive custody_op :=
  | OpRpc (rq : JsonRpcRequest)
  | OpQuoterWithdraw (address mint : string) (amount : f64)
  | OpGasWithdraw (max amount : f64) (destination : string)
  | OpWithdrawToHyperliquid (amount : f64)
  | OpWithdrawFromVault (vault mint : string) (amount : f64)
  | OpTransferToVault (address mint : string) (amount : f64)
  | OpVaultBalances (vault : string)
  | OpCreateHotWallet (private_key vault internal_wallet_id : string)
  | OpRefillSponsors (envs : list custody_env) (sponsors : list string).
Definition run_op (env : custody_env) (op : custody_op) (s : custody_state) : custody_state :=
  match op with
  | OpRpc rq => (handle_rpc_request env rq s).2
  | OpQuoterWithdraw address mint amount => (quoter_withdraw_handler env address mint amount s).2
  | OpGasWithdraw max amount destination => (withdraw_gas_handler env max amount destination s).2
  | OpWithdrawToHyperliquid amount => (withdraw_to_hyperliquid_handler env amount s).2
  | OpWithdrawFromVault vault mint amount => (withdraw_from_vault_handler env vault mint amount s).2
  | OpTransferToVault address mint amount => (transfer_to_vault_handler env address mint amount s).2
  | OpVaultBalances vault => (get_vault_token_balances env vault s).2
  | OpCreateHotWallet key vault wallet => (create_hot_wallet env key vault wallet s).2
  | OpRefillSponsors envs sponsors => (refill_gas_sponsor_handler env envs sponsors s).2
  end.
Definition run_ops (past : list (custody_env * custody_op)) (s : custody_state) : custody_state :=
  foldl (fun s p => run_op p.1 p.2 s) s past.

(** ** Theorems *)
#[local] Arguments poll_loop : simpl never.
#[local] Arguments index_loop : simpl never.

(** *** Reads leave everything but the cached metadata alone *)
Definition quiet (s s' : custody_state) : Prop :=
  cs_log s' = cs_log s /\ cs_hot_wallets s' = cs_hot_wallets s /\ cs_secrets s' = cs_secrets s /\
  (forall n id, vault_ids (cs_meta s) !! n = Some id -> vault_ids (cs_meta s') !! n = Some id).
#[local] Instance quiet_preorder : PreOrder quiet.
Proof. split; [by intros s|]. intros s1 s2 s3 (? & ? & ? & ?) (? & ? & ? & ?). split_and!; [congruence..|auto]. Qed.

Ltac quiet_step := apply (eff_bind_state quiet); [|intros].

Lemma lift_quiet {A} (r : res FundsManagerError A) s : quiet s (lift r s).2.
Proof. done. Qed.
Lemma mret_quiet {A} (a : A) s : quiet s ((mret a : C A) s).2.
Proof. done. Qed.
Lemma get_meta_quiet {A} (f : _ -> A) s : quiet s (get_meta f s).2.
Proof. done. Qed.
Lemma hot_query_quiet {A} env (f : _ -> res _ A) s : quiet s (hot_query env f s).2.
Proof. done. Qed.
Lemma get_secret_quiet env n s : quiet s (get_secret env n s).2.
Proof. done. Qed.
Lemma cache_asset_quiet mint id s : quiet s (cache_asset_id mint id s).2.
Proof. done. Qed.
Lemma cache_address_quiet n mint a s : quiet s (cache_deposit_address n mint a s).2.
Proof. done. Qed.
#[local] Hint Resolve lift_quiet mret_quiet get_meta_quiet hot_query_quiet get_secret_quiet
  cache_asset_quiet cache_address_quiet : custody.

Lemma asset_id_quiet env address s : quiet s (get_asset_id_for_address env address s).2.
Proof.
  unfold get_asset_id_for_address, get_current_blockchain_id.
  quiet_step; [auto with custody|]. destruct a as [id|]; [auto with custody|].
  quiet_step; [quiet_step; auto with custody|]. quiet_step; [auto with custody|].
  destruct (list_find _ _) as [[? x]|]; [|auto with custody]. quiet_step; auto with custody.
Qed.
Lemma vault_account_quiet env n s : quiet s (get_vault_account env n s).2.
Proof. unfold get_vault_account. quiet_step; auto with custody. Qed.
#[local] Hint Resolve asset_id_quiet vault_account_quiet : custody.
Lemma deposit_address_quiet env mint n s : quiet s (get_fireblocks_deposit_address env mint n s).2.
Proof.
  unfold get_fireblocks_deposit_address.
  quiet_step; [auto with custody|]. destruct a as [a|]; [auto with custody|].
  repeat (quiet_step; [auto with custody|]). auto with custody.
Qed.
#[local] Hint Resolve deposit_address_quiet : custody.
Lemma vault_balance_quiet env v mint s : quiet s (get_vault_available_balance env v mint s).2.
Proof. unfold get_vault_available_balance. repeat (quiet_step; [auto with custody|]). auto with custody. Qed.
Lemma hyperliquid_address_quiet env s : quiet s (get_hyperliquid_address env s).2.
Proof. unfold get_hyperliquid_address. quiet_step; auto with custody. Qed.
Lemma private_key_quiet env a s : quiet s (get_hot_wallet_private_key env a s).2.
Proof. unfold get_hot_wallet_private_key. repeat (quiet_step; [auto with custody|]). auto with custody. Qed.
#[local] Hint Resolve vault_balance_quiet hyperliquid_address_quiet private_key_quiet : custody.
Lemma vault_id_quiet env n s : quiet s (get_vault_id env n s).2.
Proof.
  unfold get_vault_id, get_meta, gets, get_vault_account, mbind, eff_bind.
  destruct (vault_ids (cs_meta s) !! n) as [id|] eqn:Hn; [done|].
  unfold lift. destruct (fb_vaults env n) as [vs|e|]; cbn; [|done..].
  destruct (list_find _ _) as [[? v]|]; cbn; [|done]. split_and!; [done..|].
  intros n' id Hid. cbn. rewrite lookup_insert_ne; [done|congruence].
Qed.
#[local] Hint Resolve vault_id_quiet : custody.

(** *** What was returned is cached *)
Lemma vault_id_cached env n s id s' :
  get_vault_id env n s = (Ok id, s') -> vault_ids (cs_meta s') !! n = Some id.
Proof.
  unfold get_vault_id, get_meta, gets, get_vault_account, lift, mbind, eff_bind.
  destruct (vault_ids (cs_meta s) !! n) as [id'|] eqn:Hn; [by intros [= <- <-]|].
  destruct (fb_vaults env n) as [vs|e|]; cbn; [|done..].
  destruct (list_find _ _) as [[? v]|]; cbn; [|done]. intros [= <- <-]. apply lookup_insert_eq.
Qed.
Lemma deposit_address_cached env mint n s a s' :
  get_fireblocks_deposit_address env mint n s = (Ok a, s') -> deposit_addresses (cs_meta s') !! (n, mint) = Some a.
Proof.
  unfold get_fireblocks_deposit_address. intros (c & s1 & Hc & H)%eff_bind_Ok.
  unfold get_meta, gets in Hc. injection Hc as <- <-.
  destruct (deposit_addresses (cs_meta s) !! (n, mint)) as [a'|] eqn:Ha; [by injection H as <- <-|].
  do 6 (apply eff_bind_Ok in H as (? & ? & _ & H)). apply eff_bind_Ok in H as (? & ? & Hset & H).
  injection H as <- <-. unfold cache_deposit_address, set_meta, modify in Hset. injection Hset as _ <-.
  apply lookup_insert_eq.
Qed.

(** *** The signing gate *)
Definition hyperliquid_domain (d : TypedData) : Prop :=
  (td_domain_name d = Some HYPERLIQUID_L1_ACTION_DOMAIN /\ td_chain_id d = Some HYPERLIQUID_EXCHANGE_CHAIN_ID) \/
  (td_domain_name d = Some HYPERLIQUID_USER_ACTION_DOMAIN /\ td_chain_id d = Some chain_id).
Lemma validate_domain_Ok d : validate_domain d = Ok tt -> hyperliquid_domain d.
Proof.
  unfold validate_domain, hyperliquid_domain. intros (e & He & H)%bind_Ok_inv.
  destruct (td_chain_id d) as [cid|]; [|done]. destruct (Z.eqb_spec cid e) as [Hid|]; [subst cid|done].
  destruct (td_domain_name d) as [n|]; [|done].
  destruct (String.eqb n HYPERLIQUID_L1_ACTION_DOMAIN) eqn:E1.
  { apply String.eqb_eq in E1. injection He as He. left. by rewrite E1, He. }
  destruct (String.eqb n HYPERLIQUID_USER_ACTION_DOMAIN) eqn:E2; [|done].
  apply String.eqb_eq in E2. injection He as He. right. by rewrite E2, He.
Qed.

Lemma transport_Ok {A} (m : C A) s a s' : transport m s = (Ok a, s') -> m s = (Ok a, s').
Proof. unfold transport. destruct (m s) as [r s1]. intros [= Hr <-]. by apply map_err_Ok in Hr as ->. Qed.
Lemma transport_state {A} (m : C A) s : (transport m s).2 = (m s).2.
Proof. unfold transport. by destruct (m s). Qed.

(** What a signing request does to the log. *)
Definition signing_spec (rq : JsonRpcRequest) (s s' : custody_state) : Prop :=
  exists address d mint vid aid,
    rpc_method rq = ETH_SIGN_TYPED_DATA_V4_METHOD /\
    parse_sign_typed_data_params (rpc_params rq) = Ok (address, d) /\ hyperliquid_domain d /\
    get_hyperliquid_usdc_mint = Ok mint /\
    deposit_addresses (cs_meta s') !! (HYPERLIQUID_VAULT_NAME, mint) = Some address /\
    vault_ids (cs_meta s') !! HYPERLIQUID_VAULT_NAME = Some vid /\
    get_native_eth_asset_id chain = Ok aid /\
    cs_log s' = cs_log s ++ [FbSign vid aid (generate_typed_data_note HYPERLIQUID_VAULT_NAME d) d].

Lemma validate_account_Ok env address s s' :
  validate_signing_account env address s = (Ok tt, s') ->
  quiet s s' /\ exists mint, get_hyperliquid_usdc_mint = Ok mint /\
    deposit_addresses (cs_meta s') !! (HYPERLIQUID_VAULT_NAME, mint) = Some address.
Proof.
  unfold validate_signing_account. intros (a & s1 & Ha & H)%eff_bind_Ok.
  pose proof (hyperliquid_address_quiet env s) as Hq. rewrite Ha in Hq. cbn in Hq.
  destruct (String.eqb_spec address a) as [->|]; [|done]. injection H as <-. split; [done|].
  unfold get_hyperliquid_address in Ha. apply eff_bind_Ok in Ha as (mint & s2 & [Hm ->]%lift_Ok & Ha).
  exists mint. split; [done|]. by eapply deposit_address_cached.
Qed.

Lemma validate_account_quiet env address s : quiet s (validate_signing_account env address s).2.
Proof. unfold validate_signing_account. quiet_step; [auto with custody|]. by case_match. Qed.

(** Either a step of a computation fails, or all of it runs from there. *)
Lemma step_cases {S E A B} (m : eff S E A) (f : A -> eff S E B) s r s' :
  (m ≫= f) s = (r, s') ->
  (exists a s1, m s = (Ok a, s1) /\ f a s1 = (r, s')) \/ (s' = (m s).2 /\ forall v, r <> Ok v).
Proof. unfold mbind, eff_bind. destruct (m s) as [[a|e|] s1]; [by eauto|..]; intros [= <- <-]; by right. Qed.

Lemma sign_request_log env rq s r s' :
  rpc_method rq = ETH_SIGN_TYPED_DATA_V4_METHOD ->
  handle_eth_sign_typed_data_v4_request env rq s = (r, s') ->
  (cs_log s' = cs_log s /\ (forall v, r <> Ok v)) \/ signing_spec rq s s'.
Proof.
  intros Hm. unfold handle_eth_sign_typed_data_v4_request.
  intros [([address d] & s1 & [Hparse ->]%lift_Ok & H) | [-> ?]]%step_cases; [|by left].
  apply step_cases in H as [(vid & s2 & Hvid%transport_Ok & H) | [-> ?]];
    [|left; rewrite transport_state; split; [apply vault_id_quiet|done]].
  pose proof (vault_id_quiet env HYPERLIQUID_VAULT_NAME s) as (Hl2 & _ & _ & _).
  unfold get_hyperliquid_vault_id in Hvid. rewrite Hvid in Hl2. cbn in Hl2. apply vault_id_cached in Hvid.
  apply step_cases in H as [([] & s3 & Hacc%transport_Ok & H) | [-> ?]];
    [|left; rewrite transport_state; split; [|done]; by rewrite (proj1 (validate_account_quiet env address s2))].
  apply validate_account_Ok in Hacc as [(Hl3 & _ & _ & Hvs) (mint & Hmint & Haddr)].
  apply Hvs in Hvid.
  apply step_cases in H as [([] & s4 & [Hdom ->]%transport_Ok%lift_Ok & H) | [-> ?]];
    [|left; rewrite transport_state; split; [|done]; cbn; congruence].
  apply validate_domain_Ok in Hdom.
  assert (forall r0 s0, (id ← transport (send_fireblocks_typed_data_signature_request env vid d
       (generate_typed_data_note HYPERLIQUID_VAULT_NAME d));
       tx ← transport (poll_fireblocks_transaction env id);
       if decide (tx_status tx <> Completed)
       then lift (Err (Transport (FireblocksError "Typed data signature request unsuccessful")))
       else lift (ok_or (signature_text tx)
         (Transport (FireblocksError "Signature not found in Fireblocks transaction response")))) s3 = (r0, s0) ->
     (s0 = s3 /\ forall v, r0 <> Ok v) \/
     exists aid, get_native_eth_asset_id chain = Ok aid /\ s0 = (send (fb_create env) (FbSign vid aid (generate_typed_data_note HYPERLIQUID_VAULT_NAME d) d) s3).2) as Hsend.
  { clear. intros r0 s0. unfold send_fireblocks_typed_data_signature_request.
    destruct (get_native_eth_asset_id chain) as [aid|e|] eqn:Haid; cbn;
      [|intros [= <- <-]; by left|intros [= <- <-]; by left].
    intros H. right. exists aid. split; [done|]. revert H. unfold mbind, eff_bind, transport, send, lift, poll_fireblocks_transaction. cbn.
    destruct (fb_create env _) as [id|e|]; cbn; [|by intros [= <- <-]..].
    destruct (poll_loop _ _ _ _) as [tx|e|]; cbn; [|by intros [= <- <-]..].
    by case_decide; intros [= <- <-]. }
  apply Hsend in H as [[-> Hr] | (aid & Haid & ->)]; [left; split; [congruence|done]|].
  right. exists address, d, mint, vid, aid. cbn. rewrite Hl3, Hl2. done.
Qed.

Lemma rpc_signing env rq s :
  let '(r, s') := handle_rpc_request env rq s in
  (cs_log s' = cs_log s \/ signing_spec rq s s') /\
  (forall id sg, r = Ok (id, Success (VString sg)) -> signing_spec rq s s') /\
  (forall id p, r = Ok (id, p) -> id = rpc_id rq).
Proof.
  unfold handle_rpc_request, try_handle_rpc_request.
  destruct (String.eqb_spec (rpc_method rq) ETH_SIGN_TYPED_DATA_V4_METHOD) as [Hm|Hm].
  - unfold mbind, eff_bind. destruct (handle_eth_sign_typed_data_v4_request env rq s) as [r s'] eqn:Hs.
    apply sign_request_log in Hs; [|done].
    destruct r as [v|[]|]; cbn; (split; [naive_solver|split; [|naive_solver]]); naive_solver.
  - destruct (String.eqb_spec (rpc_method rq) ETH_ACCOUNTS_METHOD) as [Ha|Ha].
    + unfold handle_eth_accounts_request, mbind, eff_bind.
      pose proof (hyperliquid_address_quiet env s) as [Hl _]. rewrite <-transport_state in Hl.
      destruct (transport (get_hyperliquid_address env) s) as [r s']. cbn in Hl.
      destruct r as [v|[]|]; cbn; (split; [by left|split; [done|]]); naive_solver.
    + cbn. split; [by left|split; [done|]]. naive_solver.
Qed.

(** *** Polling ends *)
Lemma poll_loop_S pl n i e :
  poll_loop pl (S n) i e =
    let '(took, answer) := pl_read pl i in
    let go_on := if POLL_TIMEOUT <=? e + Z.of_nat took then pl_final pl
                 else poll_loop pl n (S i) (e + Z.of_nat took + POLL_INTERVAL) in
    match answer with
    | Ok tx => if settled (tx_status tx) then Ok tx else go_on
    | Err _ => go_on
    | Panic => Panic
    end.
Proof. done. Qed.

Lemma poll_loop_fuel pl n n' i e :
  POLL_TIMEOUT <= e + POLL_INTERVAL * (Z.of_nat n - 1) -> (1 <= n <= n')%nat ->
  poll_loop pl n' i e = poll_loop pl n i e.
Proof.
  unfold POLL_TIMEOUT, POLL_INTERVAL.
  induction n as [|n IH] in n', i, e |- *; intros He Hn; [lia|]. destruct n' as [|n']; [lia|].
  rewrite !poll_loop_S. destruct (pl_read pl i) as [took answer]. cbn zeta.
  destruct (Z.leb_spec POLL_TIMEOUT (e + Z.of_nat took)) as [|Hlt]; [done|].
  unfold POLL_TIMEOUT in Hlt. rewrite (IH n') by (unfold POLL_INTERVAL; lia). done.
Qed.
Lemma poll_enough pl n : (POLL_FUEL <= n)%nat -> poll_loop pl n 0 0 = poll_loop pl POLL_FUEL 0 0.
Proof. intros Hn. apply poll_loop_fuel; unfold POLL_FUEL, POLL_TIMEOUT, POLL_INTERVAL in *; lia. Qed.

Lemma poll_loop_pending pl n i e :
  (forall j tx, (pl_read pl j).2 = Ok tx -> settled (tx_status tx) = false) ->
  (forall j, (pl_read pl j).2 <> Panic) -> poll_loop pl n i e = pl_final pl.
Proof.
  intros Hp Hnp. induction n as [|n IH] in i, e |- *; [done|]. rewrite poll_loop_S.
  specialize (Hp i). specialize (Hnp i). destruct (pl_read pl i) as [took [tx|er|]]; cbn in *; [|..|done].
  - rewrite (Hp tx eq_refl). case_match; [done|apply IH].
  - case_match; [done|apply IH].
Qed.

(** What the polling sees, apart from the loop: the time at which a read starts, a
    second after the end of the one before; the statuses that end the polling; and
    the transaction it returns, which is that of the first read with such a status, or
    of the last read when none had one before the minute was over. *)
Fixpoint starts_at (pl : poll_env) (i : nat) : Z :=
  match i with O => 0 | S i => starts_at pl i + Z.of_nat (pl_read pl i).1 + 1000 end.
Definition ends_at (pl : poll_env) (i : nat) : Z := starts_at pl i + Z.of_nat (pl_read pl i).1.
Definition final (st : TransactionStatus) : Prop :=
  st ∈ [Blocked; Cancelled; Cancelling; Completed; Confirming; Failed; Rejected].
Definition open_ended (answer : res FundsManagerError TransactionResponse) : Prop :=
  match answer with Ok tx => ~ final (tx_status tx) | Err _ => True | Panic => False end.
Definition polled_from (pl : poll_env) (i : nat) (tx : TransactionResponse) : Prop :=
  exists n, (i <= n)%nat /\
    (forall j, (i <= j < n)%nat -> open_ended (pl_read pl j).2 /\ ends_at pl j < 60000) /\
    ((pl_read pl n).2 = Ok tx /\ final (tx_status tx) \/
     open_ended (pl_read pl n).2 /\ 60000 <= ends_at pl n /\ pl_final pl = Ok tx).
Definition polled (pl : poll_env) (tx : TransactionResponse) : Prop := polled_from pl 0 tx.

Lemma settled_final st : settled st = true <-> final st.
Proof. unfold final. destruct st; cbn; split; try done; set_solver. Qed.
(** A read ends the polling, or the next one goes on. *)
Lemma polled_step pl i tx :
  polled_from pl i tx <->
  match (pl_read pl i).2 with
  | Ok tx' => if settled (tx_status tx') then tx' = tx
              else if 60000 <=? ends_at pl i then pl_final pl = Ok tx else polled_from pl (S i) tx
  | Err _ => if 60000 <=? ends_at pl i then pl_final pl = Ok tx else polled_from pl (S i) tx
  | Panic => False
  end.
Proof.
  assert (open_ended (pl_read pl i).2 ->
    polled_from pl i tx <-> if 60000 <=? ends_at pl i then pl_final pl = Ok tx else polled_from pl (S i) tx) as Hopen.
  { intros Ho. destruct (Z.leb_spec 60000 (ends_at pl i)) as [Ht|Ht]; split.
    - intros (n & Hn & Hj & Hend). destruct (decide (n = i)) as [->|]; [|by destruct (Hj i) as [_ ?]; lia].
      destruct Hend as [[Hr Hf]|(_ & _ & ?)]; [|done]. exfalso. by rewrite Hr in Ho.
    - intros Hfin. exists i. split; [lia|]. split; [lia|]. by right.
    - intros (n & Hn & Hj & Hend). destruct (decide (n = i)) as [->|].
      + destruct Hend as [[Hr Hf]|(_ & ? & _)]; [|lia]. exfalso. by rewrite Hr in Ho.
      + exists n. split; [lia|]. split; [|done]. intros k ?. apply Hj. lia.
    - intros (n & Hn & Hj & Hend). exists n. split; [lia|]. split; [|done]. intros k ?.
      destruct (decide (k = i)) as [->|]; [done|]. apply Hj. lia. }
  destruct (pl_read pl i).2 as [tx'|e|] eqn:Hr.
  - pose proof (settled_final (tx_status tx')) as Hs. destruct (settled (tx_status tx')).
    + split.
      * intros (n & Hn & Hj & Hend). destruct (decide (n = i)) as [->|].
        -- destruct Hend as [[Hr' _]|(Ho & _)]; rewrite Hr in *; [congruence|]. exfalso. by apply Ho, Hs.
        -- destruct (Hj i) as [Ho _]; [lia|]. rewrite Hr in Ho. exfalso. by apply Ho, Hs.
      * intros ->. exists i. split; [lia|]. split; [lia|]. left. split; [done|by apply Hs].
    + apply Hopen. intros Hf. by apply Hs in Hf.
  - by apply Hopen.
  - split; [|done]. intros (n & Hn & Hj & Hend). destruct (decide (n = i)) as [->|].
    + destruct Hend as [[Hr' _]|(Ho & _)]; rewrite Hr in *; done.
    + destruct (Hj i) as [Ho _]; [lia|]. by rewrite Hr in Ho.
Qed.
Lemma poll_loop_polled pl n i tx :
  (1 <= n)%nat -> 60000 <= starts_at pl i + 1000 * (Z.of_nat n - 1) ->
  poll_loop pl n i (starts_at pl i) = Ok tx <-> polled_from pl i tx.
Proof.
  induction n as [|n IH] in i |- *; intros Hn Hlt; [lia|].
  rewrite poll_loop_S, polled_step. unfold POLL_TIMEOUT, POLL_INTERVAL. cbn zeta.
  assert (~ 60000 <= ends_at pl i -> poll_loop pl n (S i) (ends_at pl i + 1000) = Ok tx <-> polled_from pl (S i) tx) as Hnext.
  { intros Hend. change (ends_at pl i + 1000) with (starts_at pl (S i)).
    unfold ends_at in Hend. apply IH; [|cbn [starts_at]]; lia. }
  unfold ends_at in Hnext |- *. destruct (pl_read pl i) as [took answer]. cbn [fst snd] in *.
  destruct answer as [tx'|e|]; [|destruct (Z.leb_spec 60000 (starts_at pl i + Z.of_nat took)); [done|apply Hnext; lia]|done].
  destruct (settled (tx_status tx')); [split; congruence|].
  destruct (Z.leb_spec 60000 (starts_at pl i + Z.of_nat took)); [done|apply Hnext; lia].
Qed.

(** C34. A transfer from a vault is sent to Fireblocks once, and is reported done exactly
    when it was created and the polling saw it completed or confirming: at the first
    read whose status is one of the seven final ones, all reads before it failing or
    pending and ending within the minute, or at the last read when none of those was
    final.  A transfer that is still pending then is reported as failed although
    Fireblocks has it and may yet carry it out.  The polling ends within 61 reads. *)
Theorem vault_transfer_outcome env vid aid did ty amount s :
  let a := FbTransfer vid aid did ty amount in
  let '(r, s') := transfer_from_vault env vid aid did ty amount s in
  cs_log s' = cs_log s ++ [a] /\
  (r = Ok tt <-> exists id tx, fb_create env a = Ok id /\ polled (fb_poll env id) tx /\
     (tx_status tx = Completed \/ tx_status tx = Confirming)) /\
  (forall id st sig, fb_create env a = Ok id ->
     (forall j, (pl_read (fb_poll env id) j).2 = Ok (mk_tx (OtherStatus st) sig)) ->
     pl_final (fb_poll env id) = Ok (mk_tx (OtherStatus st) sig) -> r = Err (FireblocksError "Transaction failed")) /\
  (forall id n, (61 <= n)%nat -> poll_loop (fb_poll env id) n 0 0 = poll_loop (fb_poll env id) 61 0 0).
Proof.
  cbn zeta. unfold transfer_from_vault, poll_fireblocks_transaction, send, lift, mbind, eff_bind.
  assert (forall id n, (61 <= n)%nat -> poll_loop (fb_poll env id) n 0 0 = poll_loop (fb_poll env id) 61 0 0) as Hfuel.
  { intros id n Hn. by apply poll_enough. }
  destruct (fb_create env _) as [id|e|]; cbn [fst snd]; [|split_and!; [done|naive_solver|done|done]..].
  assert (forall tx, poll_loop (fb_poll env id) POLL_FUEL 0 0 = Ok tx <-> polled (fb_poll env id) tx) as Hpolled.
  { intros tx. apply (poll_loop_polled (fb_poll env id) POLL_FUEL 0 tx); unfold POLL_FUEL; cbn; lia. }
  assert (forall st sig, (forall j, (pl_read (fb_poll env id) j).2 = Ok (mk_tx (OtherStatus st) sig)) ->
    pl_final (fb_poll env id) = Ok (mk_tx (OtherStatus st) sig) ->
    poll_loop (fb_poll env id) POLL_FUEL 0 0 = Ok (mk_tx (OtherStatus st) sig)) as Hpend.
  { intros st sig Hread Hfin. rewrite poll_loop_pending; [done|intros j tx; rewrite Hread; by intros [= <-]|].
    intros j. by rewrite Hread. }
  destruct (poll_loop (fb_poll env id) POLL_FUEL 0 0) as [tx|e|] eqn:Hp.
  2,3: split_and!; [done|split; [done|]; intros (id' & tx & [= <-] & Htx%Hpolled & _); congruence| |done];
    intros id' st sig [= <-] Hread Hfin; by specialize (Hpend st sig Hread Hfin).
  assert (polled (fb_poll env id) tx) as Htx by (by apply Hpolled).
  case_decide as Hd; (split; [done|split; [|split; [|done]]]).
  - split; [done|]. intros (id' & tx' & [= <-] & Htx'%Hpolled & Hst). injection Htx' as <-. naive_solver.
  - done.
  - split; [|done]. intros _. exists id, tx. split_and!; [done..|].
    destruct (decide (tx_status tx = Completed)); [by left|].
    right. by destruct (decide (tx_status tx = Confirming)); [|destruct Hd].
  - intros id' st sig [= <-] Hread Hfin. specialize (Hpend st sig Hread Hfin). injection Hpend as ->. by destruct Hd.
Qed.

(** *** Withdrawals from hot wallets *)

(** The transaction that a transfer stands for, in base units. *)
Definition erc20_tx (env : custody_env) (mint to : string) (amount : f64) (key : string) (a : custody_action) : Prop :=
  exists token dest decimals units, parse_address mint = Ok token /\ rpc_decimals env token = Ok decimals /\
    parse_units (show_f64 amount) decimals = Ok units /\ parse_address to = Ok dest /\
    a = Erc20Transfer token dest units key.
Definition ether_tx (to : string) (amount : f64) (key : string) (a : custody_action) : Prop :=
  exists dest units, parse_address to = Ok dest /\ parse_units (show_f64 amount) 18 = Ok units /\
    a = EtherTransfer dest units key.

(** The run of a transfer: its transaction reaches the pool at most once, and it
    succeeds exactly when the node confirms it within five submissions, the others
    refused for their nonce. *)
Definition transfers (env : custody_env) (tx : custody_action -> Prop) (s : custody_state)
    (ok : Prop) (s' : custody_state) : Prop :=
  (s' = s \/ exists a, tx a /\ s' = submit a s) /\
  (ok <-> exists a h, tx a /\ SendTx.confirmed (rpc_send env a) 0 5 h /\ s' = submit a s).

Lemma send_retry_transfers env (tx : custody_action -> Prop) a s r s' :
  tx a -> (forall a', tx a' -> a' = a) ->
  send_tx_with_retry env a s = (r, s') -> transfers env tx s (exists h, r = Ok h) s'.
Proof.
  intros Ha Hu H. unfold send_tx_with_retry, SendTx.send_tx_with_retry in H.
  apply SendTx.send_loop_cases in H as [Hs Hrc]. split; [destruct Hs; eauto|]. split.
  - intros [h Hr]. destruct (Hrc h) as [Hc Hsub]. exists a, h. split_and!; [done|by apply Hc|by apply Hsub].
  - intros (a' & h & ->%Hu & Hc & _). exists h. by apply Hrc.
Qed.
Lemma transfers_proper env (tx tx' : custody_action -> Prop) s (ok ok' : Prop) s' :
  (forall a, tx a <-> tx' a) -> (ok' <-> ok) -> transfers env tx s ok s' -> transfers env tx' s ok' s'.
Proof. intros Htx Hok [H1 H2]. unfold transfers. setoid_rewrite <- Htx. by rewrite Hok. Qed.
Lemma map_err_Ok_iff {E E'} (f : E -> E') (r : res E unit) : map_err f r = Ok tt <-> r = Ok tt.
Proof. by destruct r as [[]| |]. Qed.
(** A step before the transaction that fails leaves no transfer. *)
Lemma no_transfer {A} env (tx : custody_action -> Prop) s (e : res FundsManagerError A) :
  (forall a, ~ tx a) -> (forall h, e <> Ok h) -> transfers env tx s (exists h, e = Ok h) s.
Proof.
  intros Htx He. split; [by left|]. split; [by intros [h ?%He]|]. by intros (a & h & ?%Htx & _).
Qed.
Lemma transfer_ether_transfers env to amount key s r s' :
  transfer_ether env to amount key s = (r, s') -> transfers env (ether_tx to amount key) s (exists h, r = Ok h) s'.
Proof.
  unfold transfer_ether, ETHER_DECIMALS, mbind, eff_bind, lift.
  destruct (parse_address to) as [dest|e|] eqn:Hd; cbn.
  2,3: intros [= <- <-]; apply no_transfer; [intros a (? & ? & ? & _); congruence|done].
  destruct (parse_units _ _) as [units|e|] eqn:Hu; cbn.
  2,3: intros [= <- <-]; apply no_transfer; [intros a (? & ? & _ & ? & _); congruence|done].
  apply send_retry_transfers; [by exists dest, units|]. intros a' (? & ? & ? & ? & ->). congruence.
Qed.
Lemma erc20_transfer_transfers env mint to amount key s r s' :
  erc20_transfer env mint to amount key s = (r, s') ->
  transfers env (erc20_tx env mint to amount key) s (exists h, r = Ok h) s'.
Proof.
  unfold erc20_transfer, mbind, eff_bind, lift.
  destruct (parse_address mint) as [token|e|] eqn:Ht; cbn.
  2,3: intros [= <- <-]; apply no_transfer; [intros a (? & ? & ? & ? & ? & _); congruence|done].
  destruct (rpc_decimals env token) as [dec|e|] eqn:Hdec; cbn.
  2,3: intros [= <- <-]; apply no_transfer; [intros a (? & ? & ? & ? & ? & ? & _); congruence|done].
  destruct (parse_units _ dec) as [units|e|] eqn:Hu; cbn.
  2,3: intros [= <- <-]; apply no_transfer; [intros a (? & ? & ? & ? & ? & ? & ? & _); congruence|done].
  destruct (parse_address to) as [dest|e|] eqn:Hd; cbn.
  2,3: intros [= <- <-]; apply no_transfer; [intros a (? & ? & ? & ? & ? & ? & ? & ? & _); congruence|done].
  apply send_retry_transfers; [by exists token, dest, dec, units|]. intros a' (? & ? & ? & ? & ? & ? & ? & ? & ->).
  congruence.
Qed.

(** The hash of a transfer that succeeds is that of its confirmed transaction. *)
Lemma erc20_transfer_Ok env mint to amount key s h s' :
  erc20_transfer env mint to amount key s = (Ok h, s') ->
  exists a, erc20_tx env mint to amount key a /\ SendTx.confirmed (rpc_send env a) 0 5 h /\ s' = submit a s.
Proof.
  unfold erc20_transfer. intros (token & s1 & [Ht%map_err_Ok ->]%lift_Ok & H)%eff_bind_Ok.
  apply eff_bind_Ok in H as (dec & s1 & [Hdec%map_err_Ok ->]%lift_Ok & H).
  apply eff_bind_Ok in H as (units & s1 & [Hu%map_err_Ok ->]%lift_Ok & H).
  apply eff_bind_Ok in H as (dest & s1 & [Hd%map_err_Ok ->]%lift_Ok & H).
  eexists. split; [by exists token, dest, dec, units|].
  apply SendTx.send_loop_cases in H as [_ Hrc]. destruct (Hrc h) as [Hc Hs]. split; [by apply Hc|by apply Hs].
Qed.

(** The name of a vault, as Fireblocks has it. *)
Definition vault_title (kind : string) : string :=
  (match chain with
   | ArbitrumOne | ArbitrumSepolia => "Arbitrum"
   | BaseMainnet | BaseSepolia => "Base"
   | EthereumMainnet | EthereumSepolia => "Ethereum"
   | Devnet => titlecase (chain_to_string Devnet)
   end +:+ " " +:+ kind)%string.
Lemma vault_titles :
  vault_of Gas = vault_title "Gas" /\ vault_of Quoter = vault_title "Quoters".
Proof. unfold vault_name, vault_title. by destruct chain. Qed.

(** The wallet of a vault, with its key, when it holds enough. *)
Definition withdrawable (env : custody_env) (vault : string) (bal_of : string -> res FundsManagerError f64)
    (amount : f64) (s : custody_state) (w : HotWallet) (key : string) : Prop :=
  db_up env = true /\ first_row (filter (fun w => hw_vault w = vault) (cs_hot_wallets s)) = Some w /\
  (exists bal, bal_of (hw_address w) = Ok bal /\ fltb bal amount = false) /\
  sm_up env = true /\ cs_secrets s !! ("hot-wallet-" +:+ to_lowercase (hw_address w))%string = Some key /\
  signer_of key = Ok tt.

(** The shape of a withdrawal: the wallet of a vault, a balance check, the key,
    and a transfer. *)
Definition checked_withdrawal (env : custody_env) (vault : string) (bal_of : string -> res FundsManagerError f64)
    (amount : f64) (transfer : string -> C string) : C unit :=
  wallet ← get_hot_wallet_by_vault env vault;
  bal ← lift (bal_of (hw_address wallet));
  if fltb bal amount then lift (Err (CustomError "Insufficient balance"))
  else
    key ← get_hot_wallet_private_key env (hw_address wallet);
    _ ← transfer key;
    mret tt.

Lemma private_key_Ok env a s key s' :
  get_hot_wallet_private_key env a s = (Ok key, s') ->
  s' = s /\ sm_up env = true /\ cs_secrets s !! hot_wallet_secret_name a = Some key /\ signer_of key = Ok tt.
Proof.
  unfold get_hot_wallet_private_key, get_secret, lift, mbind, eff_bind.
  destruct (sm_up env); cbn; [|done]. destruct (cs_secrets s !! _) as [k|]; cbn; [|done].
  destruct (signer_of k) as [[]|e|] eqn:Hk; cbn; [|done..]. by intros [= <- <-].
Qed.
Lemma private_key_state env a s : (get_hot_wallet_private_key env a s).2 = s.
Proof.
  unfold get_hot_wallet_private_key, get_secret, lift, mbind, eff_bind.
  destruct (sm_up env); cbn; [|done]. destruct (cs_secrets s !! _) as [k|]; cbn; [|done].
  by destruct (signer_of k).
Qed.
Lemma wallet_by_vault_Ok env v s w s' :
  get_hot_wallet_by_vault env v s = (Ok w, s') ->
  s' = s /\ db_up env = true /\ first_row (filter (fun w => hw_vault w = v) (cs_hot_wallets s)) = Some w.
Proof.
  unfold get_hot_wallet_by_vault, hot_query. intros [= H <-]. split; [done|].
  destruct (db_up env); [|done]. destruct (first_row _) as [w'|] eqn:Hf; [|done]. by injection H as <-.
Qed.

Lemma checked_withdrawal_run env v bal_of amount (transfer : string -> C string) (tx : string -> custody_action -> Prop) s r s' :
  (forall key r s', transfer key s = (r, s') -> transfers env (tx key) s (exists h, r = Ok h) s') ->
  checked_withdrawal env v bal_of amount transfer s = (r, s') ->
  transfers env (fun a => exists w key, withdrawable env v bal_of amount s w key /\ tx key a) s (r = Ok tt) s'.
Proof.
  intros Ht.
  assert (forall r0 : res FundsManagerError unit, r0 <> Ok tt ->
    (forall w key, ~ withdrawable env v bal_of amount s w key) ->
    transfers env (fun a => exists w key, withdrawable env v bal_of amount s w key /\ tx key a) s (r0 = Ok tt) s) as Hno.
  { intros r0 Hr Hw. split; [by left|]. split; [done|]. by intros (a & h & (w & key & ?%Hw & _) & _). }
  unfold checked_withdrawal, get_hot_wallet_by_vault, hot_query, get_hot_wallet_private_key, get_secret, lift, mbind, eff_bind.
  destruct (db_up env) eqn:Hdb; [|intros [= <- <-]; apply Hno; [done|]; intros w key (? & _); congruence].
  destruct (first_row _) as [w|] eqn:Hw; cbn;
    [|intros [= <- <-]; apply Hno; [done|]; intros w key (_ & ? & _); congruence].
  destruct (bal_of (hw_address w)) as [bal|e|] eqn:Hb; cbn.
  2,3: intros [= <- <-]; apply Hno; [done|]; intros w' key (_ & ? & (? & ? & _) & _); congruence.
  destruct (fltb bal amount) eqn:Hlt; cbn;
    [intros [= <- <-]; apply Hno; [done|]; intros w' key (_ & ? & (? & ? & ?) & _); congruence|].
  destruct (sm_up env) eqn:Hsm; cbn; [|intros [= <- <-]; apply Hno; [done|]; intros w' key (_ & _ & _ & ? & _); congruence].
  destruct (cs_secrets s !! _) as [key|] eqn:Hk; cbn.
  2: { intros [= <- <-]. apply Hno; [done|]. intros w' key (_ & Hw' & _ & _ & Hk' & _).
       rewrite Hw in Hw'. injection Hw' as <-. unfold hot_wallet_secret_name in Hk. congruence. }
  assert (forall w' key', withdrawable env v bal_of amount s w' key' -> w' = w /\ key' = key) as Huniq.
  { intros w' key' (_ & Hw' & _ & _ & Hk' & _). rewrite Hw in Hw'. injection Hw' as <-.
    unfold hot_wallet_secret_name in Hk. split; [done|congruence]. }
  destruct (signer_of key) as [[]|e|] eqn:Hsg; cbn.
  2,3: intros [= <- <-]; apply Hno; [done|]; intros w' key' Hwd; destruct (Huniq _ _ Hwd) as [-> ->];
    destruct Hwd as (_ & _ & _ & _ & _ & ?); congruence.
  assert (withdrawable env v bal_of amount s w key) as Hwd by (split_and!; eauto).
  destruct (transfer key s) as [r1 s1] eqn:Htr. apply Ht in Htr as [Hone Hiff]. intros H.
  assert (s' = s1 /\ (r = Ok tt <-> exists h, r1 = Ok h)) as [-> Hr].
  { destruct r1 as [h|e|]; injection H as <- <-; (split; [done|]); split; eauto; try done; by intros [? ?]. }
  split; [destruct Hone as [|(a & Ha & Hs)]; [by left|right; exists a; eauto]|]. rewrite Hr, Hiff. split.
  - intros (a & h & Ha & Hrest). exists a, h. split; [eauto|done].
  - intros (a & h & (w' & key' & Hwd' & Ha) & Hrest). destruct (Huniq _ _ Hwd') as [-> ->]. eauto.
Qed.

(** C18. Withdrawals of gas and from the quoter wallet put at most one transfer on the
    chain: of the amount and to the destination of the request, in the units of the
    token, signed with the key of the hot wallet of the Gas or the Quoters vault,
    whose balance was seen to cover it.  They succeed exactly when the node confirms
    that transfer, within five submissions of which it refused the earlier ones for
    their nonce.  Gas above the configured maximum is refused, and so are tokens worth
    more than 50,000 USD when their price is known; without a price there is no
    limit. *)
Theorem withdrawals_checked env max amount destination mint s :
  (let '(r, s') := withdraw_gas_handler env max amount destination s in
   transfers env (fun a => fgtb amount max = false /\ exists w key,
     withdrawable env (vault_title "Gas") (rpc_ether env) amount s w key /\ ether_tx destination amount key a)
     s (r = Ok tt) s') /\
  (let '(r, s') := quoter_withdraw_handler env destination mint amount s in
   transfers env (fun a => (forall price, pr_price env mint = Ok price -> fgtb (fmul amount price) (of_Z 50000) = false) /\
     exists w key, withdrawable env (vault_title "Quoters") (rpc_erc20 env mint) amount s w key /\
       erc20_tx env mint destination amount key a)
     s (r = Ok tt) s').
Proof.
  destruct vault_titles as [Hgas Hquoter]. split.
  - unfold withdraw_gas_handler. destruct (fgtb amount max) eqn:Hmax.
    { split; [by left|]. split; [done|]. by intros (a & h & [? _] & _). }
    unfold or_internal. destruct (withdraw_gas env amount destination s) as [r s'] eqn:H.
    change (withdraw_gas env amount destination) with
      (checked_withdrawal env (vault_of Gas) (rpc_ether env) amount (transfer_ether env destination amount)) in H.
    rewrite Hgas in H. apply (checked_withdrawal_run _ _ _ _ _ (ether_tx destination amount)) in H;
      [|intros *; apply transfer_ether_transfers].
    eapply transfers_proper; [|apply map_err_Ok_iff|exact H]. naive_solver.
  - unfold quoter_withdraw_handler.
    destruct (match pr_price env mint with Ok price => fgtb (fmul amount price) MAX_WITHDRAWAL_VALUE | _ => false end) eqn:Hmax.
    { split; [by left|]. split; [done|]. intros (a & h & [Hlim _] & _). exfalso.
      destruct (pr_price env mint) as [price|e|]; [|done..]. specialize (Hlim price eq_refl).
      unfold MAX_WITHDRAWAL_VALUE in Hmax. congruence. }
    unfold or_internal. destruct (withdraw_from_hot_wallet env Quoter destination mint amount s) as [r s'] eqn:H.
    change (withdraw_from_hot_wallet env Quoter destination mint amount) with
      (checked_withdrawal env (vault_of Quoter) (rpc_erc20 env mint) amount (erc20_transfer env mint destination amount)) in H.
    rewrite Hquoter in H. apply (checked_withdrawal_run _ _ _ _ _ (erc20_tx env mint destination amount)) in H;
      [|intros *; apply erc20_transfer_transfers].
    eapply transfers_proper; [|apply map_err_Ok_iff|exact H]. intros a. split; [|by intros [_ ?]].
    intros Ha. split; [|done]. intros price Hp. by rewrite Hp in Hmax.
Qed.

(** Without a price the withdrawal is not limited. *)
Lemma unpriced_withdrawal_unlimited env mint destination amount e s :
  pr_price env mint = Err e ->
  quoter_withdraw_handler env destination mint amount s =
  or_internal (withdraw_from_hot_wallet env Quoter destination mint amount) s.
Proof. intros Hp. unfold quoter_withdraw_handler. by rewrite Hp. Qed.

(** *** Where the cached metadata comes from *)
(** What Fireblocks said, in one of [envs]: the id of the vault of a name, the id of
    the asset of a token on this chain, and the first address of an asset in a vault. *)
Definition vault_told (envs : list custody_env) (name id : string) : Prop :=
  exists e vs v, e ∈ envs /\ fb_vaults e name = Ok vs /\ v ∈ vs /\ v_name v = name /\ v_id v = id.
Definition asset_told (envs : list custody_env) (mint id : string) : Prop :=
  exists e bs bid assets a, e ∈ envs /\ fb_blockchains e is_testnet = Ok bs /\ (Some chain_id_str, bid) ∈ bs /\
    fb_assets e bid = Ok assets /\ a ∈ assets /\
    to_lowercase <$> fa_address a = Some (to_lowercase mint) /\ fa_legacy_id a = id.
Definition address_told (envs : list custody_env) (name mint address : string) : Prop :=
  exists e vid aid more, e ∈ envs /\ vault_told envs name vid /\ asset_told envs mint aid /\
    fb_addresses e vid aid = Ok (address :: more).
Record told (envs : list custody_env) (m : FireblocksMetadata) : Prop := {
  told_vaults : forall name id, vault_ids m !! name = Some id -> vault_told envs name id;
  told_assets : forall mint id, asset_ids m !! mint = Some id -> asset_told envs mint id;
  told_addresses : forall name mint a, deposit_addresses m !! (name, mint) = Some a -> address_told envs name mint a;
}.
Definition keeps (envs : list custody_env) (s s' : custody_state) : Prop :=
  told envs (cs_meta s) -> told envs (cs_meta s').
#[local] Instance keeps_preorder envs : PreOrder (keeps envs).
Proof. split; [by intros s H|]. intros s1 s2 s3. unfold keeps. tauto. Qed.

Lemma told_new envs : told envs metadata_new.
Proof. split; intros *; cbn; by rewrite lookup_empty. Qed.
Lemma told_more envs envs' m : told envs m -> told (envs ++ envs') m.
Proof.
  assert (forall name id, vault_told envs name id -> vault_told (envs ++ envs') name id) as Hv.
  { intros name id (e & vs & v & He & ?). exists e, vs, v. split; [apply elem_of_app; by left|done]. }
  assert (forall mint id, asset_told envs mint id -> asset_told (envs ++ envs') mint id) as Ha.
  { intros mint id (e & bs & bid & l & a & He & ?). exists e, bs, bid, l, a. split; [apply elem_of_app; by left|done]. }
  intros [H1 H2 H3]. split; eauto. intros name mint a (e & vid & aid & more & He & ? & ? & ?)%H3.
  exists e, vid, aid, more. split; [apply elem_of_app; by left|eauto].
Qed.

Section Keeps.
Context (envs : list custody_env) (env : custody_env) (Henv : env ∈ envs).
Ltac keep_step := apply (eff_bind_state (keeps envs)); [|intros].

Lemma asset_id_told mint s r s' :
  told envs (cs_meta s) -> get_asset_id_for_address env mint s = (r, s') ->
  told envs (cs_meta s') /\ forall id, r = Ok (Some id) -> asset_told envs mint id.
Proof.
  intros Ht. unfold get_asset_id_for_address, get_current_blockchain_id, get_meta, gets, lift, mbind, eff_bind.
  destruct (asset_ids (cs_meta s) !! mint) as [id|] eqn:Hid.
  { intros [= <- <-]. split; [done|]. intros ? [= <-]. by apply (told_assets _ _ Ht). }
  destruct (fb_blockchains env is_testnet) as [bs|e|] eqn:Hbs; cbn; [|by intros [= <- <-]..].
  destruct (list_find _ bs) as [[i [cid bid]]|] eqn:Hfind; cbn; [|by intros [= <- <-]].
  apply list_find_Some in Hfind as (Hin & Hcid & _). apply list_elem_of_lookup_2 in Hin. cbn in Hcid. subst cid.
  destruct (fb_assets env bid) as [assets|e|] eqn:Has; cbn; [|by intros [= <- <-]..].
  destruct (list_find _ assets) as [[k a]|] eqn:Hfa; cbn; [|intros [= <- <-]; by split].
  apply list_find_Some in Hfa as (Hina & Hma & _). apply list_elem_of_lookup_2 in Hina.
  assert (asset_told envs mint (fa_legacy_id a)) as Hat by (by exists env, bs, bid, assets, a).
  intros [= <- <-]. split; [|by intros ? [= <-]]. destruct Ht as [H1 H2 H3]. split; cbn; eauto.
  intros m' id'. rewrite lookup_insert_Some. intros [[<- <-]|[_ ?]]; eauto.
Qed.
Lemma vault_account_told name s r s' :
  get_vault_account env name s = (r, s') ->
  s' = s /\ forall v, r = Ok (Some v) -> vault_told envs name (v_id v).
Proof.
  unfold get_vault_account, lift, mbind, eff_bind. destruct (fb_vaults env name) as [vs|e|] eqn:Hvs; cbn;
    intros [= <- <-]; (split; [done|]); [|done..]. intros v [= H]. apply fmap_Some in H as ([i v'] & H & ->).
  apply list_find_Some in H as (Hin & Hn & _). apply list_elem_of_lookup_2 in Hin. by exists env, vs, v'.
Qed.
Lemma vault_id_keeps name s : keeps envs s (get_vault_id env name s).2.
Proof.
  intros Ht. unfold get_vault_id, get_meta, gets, lift, mbind, eff_bind.
  destruct (vault_ids (cs_meta s) !! name) as [id|]; [done|].
  destruct (get_vault_account env name s) as [r s1] eqn:Hv. apply vault_account_told in Hv as [-> Hv].
  destruct r as [[v|]|e|]; cbn; [|done..]. specialize (Hv v eq_refl). destruct Ht as [H1 H2 H3].
  split; cbn; eauto. intros n id. rewrite lookup_insert_Some. intros [[<- <-]|[_ ?]]; eauto.
Qed.
Lemma deposit_address_keeps mint name s : keeps envs s (get_fireblocks_deposit_address env mint name s).2.
Proof.
  intros Ht. unfold get_fireblocks_deposit_address, get_meta, gets, mbind, eff_bind.
  destruct (deposit_addresses (cs_meta s) !! (name, mint)) as [a|]; [done|].
  destruct (get_vault_account env name s) as [r s1] eqn:Hv. apply vault_account_told in Hv as [-> Hv].
  destruct r as [[v|]|e|]; cbn; [|done..]. specialize (Hv v eq_refl).
  destruct (get_asset_id_for_address env mint s) as [r s1] eqn:Ha. apply asset_id_told in Ha as [Ht' Ha]; [|done].
  destruct r as [[aid|]|e|]; cbn; [|done..]. specialize (Ha aid eq_refl).
  destruct (fb_addresses env (v_id v) aid) as [[|a more]|e|] eqn:Hads; cbn; [done| |done..].
  assert (address_told envs name mint a) as Had by (by exists env, (v_id v), aid, more).
  destruct Ht' as [H1 H2 H3]. split; cbn; eauto.
  intros n m a'. rewrite lookup_insert_Some. intros [[[= <- <-] <-]|[_ ?]]; eauto.
Qed.
Lemma asset_id_keeps mint s : keeps envs s (get_asset_id_for_address env mint s).2.
Proof. intros Ht. destruct (get_asset_id_for_address env mint s) eqn:H. by apply asset_id_told in H as [? _]. Qed.

(** Steps that leave the metadata alone. *)
Lemma same_meta_keeps s s' : cs_meta s' = cs_meta s -> keeps envs s s'.
Proof. unfold keeps. by intros ->. Qed.
Lemma lift_keeps {E A} (r : res E A) s : keeps envs s (lift r s).2.
Proof. done. Qed.
Lemma ret_keeps {E A} (a : A) s : keeps envs s ((mret a : eff custody_state E A) s).2.
Proof. done. Qed.
Lemma hot_query_keeps {A} e (f : _ -> res _ A) s : keeps envs s (hot_query e f s).2.
Proof. done. Qed.
Lemma send_keeps {A} (answer : _ -> res _ A) a s : keeps envs s (send answer a s).2.
Proof. by apply same_meta_keeps. Qed.
Lemma key_keeps e a s : keeps envs s (get_hot_wallet_private_key e a s).2.
Proof. by rewrite private_key_state. Qed.
Lemma transfers_keep e tx s ok s' : transfers e tx s ok s' -> keeps envs s s'.
Proof. intros [[->|(a & _ & ->)] _]; by apply same_meta_keeps. Qed.
Lemma erc20_keeps e mint to amount key s : keeps envs s (erc20_transfer e mint to amount key s).2.
Proof. destruct (erc20_transfer e mint to amount key s) eqn:H. eapply transfers_keep. by apply erc20_transfer_transfers in H. Qed.
Lemma ether_keeps e to amount key s : keeps envs s (transfer_ether e to amount key s).2.
Proof. destruct (transfer_ether e to amount key s) eqn:H. eapply transfers_keep. by apply transfer_ether_transfers in H. Qed.
Lemma secret_keeps e n s : keeps envs s (get_secret e n s).2.
Proof. done. Qed.
Lemma account_keeps name s : keeps envs s (get_vault_account env name s).2.
Proof. destruct (get_vault_account env name s) eqn:H. by apply vault_account_told in H as [-> _]. Qed.
Lemma tolerate_keeps {A} (m : C A) s : keeps envs s (m s).2 -> keeps envs s (tolerate m s).2.
Proof. unfold tolerate. by destruct (m s) as [[]]. Qed.
Lemma transport_keeps {A} (m : C A) s : keeps envs s (m s).2 -> keeps envs s (transport m s).2.
Proof. by rewrite transport_state. Qed.
Lemma internal_keeps {A} (m : C A) s : keeps envs s (m s).2 -> keeps envs s (or_internal m s).2.
Proof. unfold or_internal. by destruct (m s). Qed.
Lemma reject_keeps {A} (m : C A) s : keeps envs s (m s).2 -> keeps envs s (or_reject m s).2.
Proof. unfold or_reject. by destruct (m s). Qed.
#[local] Hint Resolve vault_id_keeps deposit_address_keeps asset_id_keeps account_keeps lift_keeps ret_keeps
  hot_query_keeps send_keeps key_keeps erc20_keeps ether_keeps secret_keeps tolerate_keeps transport_keeps
  internal_keeps reject_keeps : custody.
(** Through the steps and the branches of a computation. *)
Ltac keep := repeat first [progress auto with custody | keep_step | case_match].

Lemma receive_eth_keeps e amount key sponsor s : keeps envs s (send_receive_eth_tx e amount key sponsor s).2.
Proof.
  unfold send_receive_eth_tx. repeat (keep_step; [auto with custody|]).
  destruct (rpc_send _ _ _) as [m|[] m|m]; try done; by apply same_meta_keeps.
Qed.
Lemma vault_transfer_keeps e vid aid did ty amount s : keeps envs s (transfer_from_vault e vid aid did ty amount s).2.
Proof. unfold transfer_from_vault, poll_fireblocks_transaction. keep. Qed.
#[local] Hint Resolve receive_eth_keeps vault_transfer_keeps : custody.
Lemma hyperliquid_address_keeps s : keeps envs s (get_hyperliquid_address env s).2.
Proof. unfold get_hyperliquid_address. keep. Qed.
#[local] Hint Resolve hyperliquid_address_keeps : custody.
Lemma rpc_keeps rq s : keeps envs s (handle_rpc_request env rq s).2.
Proof.
  assert (keeps envs s (try_handle_rpc_request env rq s).2) as H.
  { unfold try_handle_rpc_request, handle_eth_sign_typed_data_v4_request, handle_eth_accounts_request,
      send_fireblocks_typed_data_signature_request, validate_signing_account, poll_fireblocks_transaction,
      get_hyperliquid_vault_id, get_hyperliquid_address.
    keep; apply transport_keeps; keep. }
  unfold handle_rpc_request. by destruct (try_handle_rpc_request env rq s) as [[v|[]|] s'].
Qed.
Lemma hyperliquid_keeps amount s : keeps envs s (withdraw_to_hyperliquid env amount s).2.
Proof.
  unfold withdraw_to_hyperliquid, get_hyperliquid_vault_id, get_quoter_hot_wallet, get_hot_wallet_by_vault,
    get_vault_available_balance, transfer_to_hyperliquid_account, bridge_to_hyperliquid, get_hyperliquid_bridge_id,
    poll_fireblocks_external_transaction.
  keep.
Qed.
Lemma balances_keep assets s : keeps envs s (token_balances env assets s).2.
Proof.
  induction assets as [|a assets IH] in s |- *; cbn [token_balances]; [done|].
  keep_step; [|keep_step; auto with custody].
  unfold try_get_token_balance_for_asset, get_asset_onchain_data. keep.
  all: intros [H1 H2 H3]; by split.
Qed.
Lemma refill_keeps es key sponsors s : keeps envs s (refill_sponsors es key sponsors s).2.
Proof.
  assert (forall e key t l s, keeps envs s (send_tokens e key t l s).2) as Hsend.
  { intros e k t l. induction l as [|[m a] l IH]; intros s0; cbn [send_tokens]; [done|].
    keep_step; [|apply IH]. apply tolerate_keeps. unfold send_token_to_gas_sponsor. keep. }
  induction sponsors as [|sp sponsors IH] in es, s |- *; cbn [refill_sponsors]; [by destruct es|]. destruct es as [|e es]; [done|].
  keep_step; [|keep_step; [done|]; keep_step; [apply tolerate_keeps; auto with custody|]; keep_step; [apply Hsend|apply IH]].
  unfold refill_gas_sponsor_eth, send_eth_to_gas_sponsor, get_hot_wallet_by_vault. keep. apply tolerate_keeps. keep.
Qed.
Lemma op_keeps op s : keeps envs s (run_op env op s).
Proof.
  destruct op; cbn [run_op]; [apply rpc_keeps|..].
  - unfold quoter_withdraw_handler. case_match; [done|]. apply internal_keeps.
    unfold withdraw_from_hot_wallet, get_hot_wallet_by_vault. keep.
  - unfold withdraw_gas_handler. case_match; [done|]. apply internal_keeps.
    unfold withdraw_gas, get_hot_wallet_by_vault. keep.
  - unfold withdraw_to_hyperliquid_handler. case_match; [done|]. apply reject_keeps, hyperliquid_keeps.
  - apply internal_keeps. unfold transfer_from_vault_to_hot_wallet, withdraw_from_fireblocks, get_hot_wallet_by_vault. keep.
  - apply internal_keeps. unfold transfer_from_hot_wallet_to_vault, get_hot_wallet_by_address. keep.
  - unfold get_vault_token_balances. repeat (keep_step; [auto with custody|]). apply balances_keep.
  - unfold create_hot_wallet, create_secret, insert_hot_wallet. keep.
    all: apply same_meta_keeps; cbn; by repeat case_match.
  - unfold refill_gas_sponsor_handler. keep_step; [apply reject_keeps; done|]. keep_step; [auto with custody|].
    apply reject_keeps, refill_keeps.
Qed.
End Keeps.

Lemma told_run past s :
  told [] (cs_meta s) -> told (map fst past) (cs_meta (run_ops past s)).
Proof.
  intros Hs. induction past as [|[env op] past IH] using rev_ind; [done|].
  unfold run_ops in *. rewrite foldl_snoc, map_app. cbn. apply op_keeps; [apply elem_of_app; right; by left|].
  by apply told_more.
Qed.

(** A request to sign that is passed on, and what it is passed on as. *)
Definition signed_for (envs : list custody_env) (rq : JsonRpcRequest) (s s' : custody_state) : Prop :=
  exists account raw more d mint vid aid,
    rpc_method rq = "eth_signTypedData_v4"%string /\ rpc_params rq = VArray (VString account :: raw :: more) /\
    decode_typed_data raw = Ok d /\
    (td_domain_name d = Some "Exchange"%string /\ td_chain_id d = Some 1337 \/
     td_domain_name d = Some "HyperliquidSignTransaction"%string /\ td_chain_id d = Some chain_id) /\
    (chain = ArbitrumOne /\ mint = usdc_on ArbitrumOne /\ aid = "ETH-AETH"%string \/
     chain = ArbitrumSepolia /\ mint = "0x1baAbB04529D43a73232B713C0FE471f7c7334d5"%string /\
       aid = "ETH-AETH_SEPOLIA"%string) /\
    address_told envs "Hyperliquid" mint account /\ vault_told envs "Hyperliquid" vid /\
    cs_log s' = cs_log s ++ [FbSign vid aid ("Signing " +:+ td_primary_type d +:+ " using Hyperliquid")%string d].

Lemma parse_params_Ok params account d :
  parse_sign_typed_data_params params = Ok (account, d) ->
  exists raw more, params = VArray (VString account :: raw :: more) /\ decode_typed_data raw = Ok d.
Proof.
  unfold parse_sign_typed_data_params. destruct params as [|l|]; [done| |done]. cbn.
  destruct l as [|[a| |] [|raw more]]; cbn; try done. intros (d' & Hd%map_err_Ok & [= <- <-])%bind_Ok_inv. eauto.
Qed.
Lemma signing_told envs rq s s' : told envs (cs_meta s') -> signing_spec rq s s' -> signed_for envs rq s s'.
Proof.
  intros Ht (account & d & mint & vid & aid & Hm & (raw & more & Hp & Hd)%parse_params_Ok & Hdom & Hmint & Ha & Hv & Haid & Hl).
  exists account, raw, more, d, mint, vid, aid. split_and!; try done.
  - unfold get_hyperliquid_usdc_mint, get_native_eth_asset_id in *. destruct chain; naive_solver.
  - by apply (told_addresses _ _ Ht).
  - by apply (told_vaults _ _ Ht).
Qed.

(** C17. The signing endpoint signs only for Hyperliquid.  After any operations of the
    service, starting with nothing cached, a JSON-RPC request sends Fireblocks at most
    one signing request, and only when it is an eth_signTypedData_v4 request whose
    account is an address that Fireblocks gave for the USDC asset of the vault named
    Hyperliquid, and whose typed data has one of the two Hyperliquid domains with its
    chain id; it is signed as sent, with the vault that Fireblocks gave for that name.
    Nothing else is sent, a signature is answered for such a request only, and the
    answer carries the id of the request. *)
Theorem rpc_signs_only_hyperliquid past wallets secrets env rq :
  let s := run_ops past (mk_custody metadata_new wallets secrets []) in
  let envs := map fst past ++ [env] in
  let '(r, s') := handle_rpc_request env rq s in
  (cs_log s' = cs_log s \/ signed_for envs rq s s') /\
  (forall id sg, r = Ok (id, Success (VString sg)) -> signed_for envs rq s s') /\
  (forall id p, r = Ok (id, p) -> id = rpc_id rq).
Proof.
  cbn zeta. set (s := run_ops past _).
  assert (told (map fst past ++ [env]) (cs_meta (handle_rpc_request env rq s).2)) as Ht.
  { apply rpc_keeps; [apply elem_of_app; right; by left|]. apply told_more, told_run, told_new. }
  pose proof (rpc_signing env rq s) as H. destruct (handle_rpc_request env rq s) as [r s']. cbn in Ht.
  destruct H as (H1 & H2 & H3). split; [|split; [|exact H3]].
  - destruct H1 as [|H1]; [by left|right; by apply signing_told].
  - intros id sg Hr. apply signing_told; [done|]. by eapply H2.
Qed.

(** *** Bridging to Hyperliquid *)
Lemma bridge_log env amount mint vid s r s' :
  bridge_to_hyperliquid env amount mint vid s = (r, s') ->
  (cs_log s' = cs_log s /\ r <> Ok tt) \/
  exists aid bid, cs_log s' = cs_log s ++ [FbTransfer vid aid bid ExternalWallet amount].
Proof.
  unfold bridge_to_hyperliquid. intros H.
  assert (forall t, quiet t (get_hyperliquid_bridge_id env t).2) as Hq.
  { intros t. unfold get_hyperliquid_bridge_id. repeat (quiet_step; [auto with custody|]). auto with custody. }
  apply step_cases in H as [(bid & s1 & Hb & H) | [-> ?]]; [|left; split; [apply Hq|done]].
  pose proof (Hq s) as [Hl1 _]. rewrite Hb in Hl1. cbn in Hl1.
  apply step_cases in H as [(asset & s2 & Ha & H) | [-> ?]];
    [|left; split; [|done]; rewrite <-Hl1; apply asset_id_quiet].
  pose proof (asset_id_quiet env mint s1) as [Hl2 _]. rewrite Ha in Hl2. cbn in Hl2.
  apply step_cases in H as [(aid & s3 & [_ ->]%lift_Ok & H) | [-> ?]]; [|left; split; [cbn; congruence|done]].
  right. exists aid, bid. rewrite <-Hl1, <-Hl2. revert H.
  unfold transfer_from_vault, poll_fireblocks_transaction, send, lift, mbind, eff_bind.
  destruct (fb_create env _) as [id|e|]; cbn [fst snd]; [|by intros [= <- <-]..].
  destruct (poll_loop _ _ _ _) as [tx|e|]; cbn [fst snd]; [|by intros [= <- <-]..].
  by case_decide; intros [= <- <-].
Qed.

Lemma to_account_log env x quoter address mint s r s' :
  transfer_to_hyperliquid_account env x quoter address mint s = (r, s') ->
  (cs_log s' = cs_log s /\ r <> Ok tt) \/
  exists key a, erc20_tx env mint address x key a /\ cs_log s' = cs_log s ++ [a] /\
    (r = Ok tt -> exists h tx, SendTx.confirmed (rpc_send env a) 0 5 h /\
       index_loop (fb_index env h) POLL_FUEL 0 0 = Ok tx).
Proof.
  unfold transfer_to_hyperliquid_account. intros H.
  apply step_cases in H as [(key & s1 & (-> & _)%private_key_Ok & H) | [-> ?]];
    [|left; by rewrite private_key_state].
  apply step_cases in H as [(h & s1 & Ht & H) | [-> Hr]].
  - apply erc20_transfer_Ok in Ht as (a & Ha & Hc & ->). right. exists key, a. split; [done|].
    apply step_cases in H as [(tx & s2 & [Htx ->]%lift_Ok & H) | [-> Hr]]; [|split; [done|by intros ?%Hr]].
    injection H as <- <-. split; [done|]. intros _. by exists h, tx.
  - destruct (erc20_transfer env mint address x key s) as [r1 s1] eqn:Ht.
    apply erc20_transfer_transfers in Ht as [[Hs|(a & Ha & Hs)] _]; cbn; subst s1; [by left|].
    right. exists key, a. split; [done|]. split; [done|by intros ?%Hr].
Qed.

(** A log extended by at most one transfer from the hot wallet. *)
Definition one_transfer (l : list custody_action) : Prop :=
  l = [] \/ exists token to units key, l = [Erc20Transfer token to units key].
(** How the vault came to hold the amount: it did, or it was sent the shortfall. *)
Definition vault_filled (env : custody_env) (amount rounded avail : f64) (pre : list custody_action) : Prop :=
  (fltb avail amount = false /\ pre = []) \/
  exists mint to x key a w bal h tx, fltb avail amount = true /\ pre = [a] /\ erc20_tx env mint to x key a /\
    round_up (fsub rounded avail) USDC_DECIMALS = Ok x /\
    rpc_erc20 env mint w = Ok bal /\ fltb bal x = false /\
    SendTx.confirmed (rpc_send env a) 0 5 h /\
    index_loop (fb_index env h) POLL_FUEL 0 0 = Ok tx.

Lemma shortfall_log env amount rounded avail wallet address mint s r s' :
  (if fltb avail amount then
     amount_to_transfer ← lift (round_up (fsub rounded avail) USDC_DECIMALS);
     bal ← lift (rpc_erc20 env mint wallet);
     if fltb bal amount_to_transfer
     then lift (Err (CustomError "Insufficient balance for Hyperliquid bridge"))
     else transfer_to_hyperliquid_account env amount_to_transfer wallet address mint
   else mret tt) s = (r, s') ->
  exists l, cs_log s' = cs_log s ++ l /\ one_transfer l /\ (r = Ok tt -> vault_filled env amount rounded avail l).
Proof.
  assert (forall t (e : res FundsManagerError unit), cs_log t = cs_log s -> e <> Ok tt ->
    exists l, cs_log t = cs_log s ++ l /\ one_transfer l /\ (e = Ok tt -> vault_filled env amount rounded avail l)) as Hnone.
  { intros t e Ht He. exists []. rewrite app_nil_r. split_and!; [done|by left|done]. }
  destruct (fltb avail amount) eqn:Hlt.
  - intros [(x & s1 & [Hx ->]%lift_Ok & H) | [-> ?]]%step_cases; [|by apply Hnone].
    apply step_cases in H as [(bal & s1 & [Hbal ->]%lift_Ok & H) | [-> ?]]; [|by apply Hnone].
    destruct (fltb bal x) eqn:Hbx; [injection H as <- <-; by apply Hnone|].
    apply to_account_log in H as [[Hl ?]|(key & a & Ha & Hl & Hok)]; [by apply Hnone|].
    eexists. split; [done|]. split.
    + right. destruct Ha as (token & dest & dec & units & _ & _ & _ & _ & ->). eauto.
    + intros (h & tx & Hh & Htx)%Hok. right. by exists mint, address, x, key, a, wallet, bal, h, tx.
  - intros [= <- <-]. exists []. rewrite app_nil_r. split_and!; [done|by left|]. intros _. by left.
Qed.

(** A withdrawal to Hyperliquid moves USDC to the bridge last.  It bridges the
    rounded amount from the vault either without touching the hot wallet, when
    the vault holds the requested amount, or after one transfer of the rounded
    shortfall from the hot wallet, covered by its balance and seen indexed by
    Fireblocks; otherwise it sends at most that one transfer and does not
    succeed.  A retry after a failed bridging thus does not move the same funds
    twice. *)
Theorem hyperliquid_bridge_order env amount s :
  let '(r, s') := withdraw_to_hyperliquid env amount s in
  (r <> Ok tt /\ exists l, cs_log s' = cs_log s ++ l /\ one_transfer l) \/
  exists rounded vid aid bid pre avail, round_up amount USDC_DECIMALS = Ok rounded /\
    cs_log s' = cs_log s ++ pre ++ [FbTransfer vid aid bid ExternalWallet rounded] /\
    vault_filled env amount rounded avail pre.
Proof.
  destruct (withdraw_to_hyperliquid env amount s) as [r s'] eqn:H. unfold withdraw_to_hyperliquid in H.
  assert (forall t, cs_log t = cs_log s -> exists l, cs_log t = cs_log s ++ l /\ one_transfer l) as Hnone.
  { intros t Ht. exists []. rewrite app_nil_r. split; [done|by left]. }
  apply step_cases in H as [(rounded & s1 & [Hround ->]%lift_Ok & H) | [-> ?]]; [|left; split; auto].
  apply step_cases in H as [(vid & s1 & Hv & H) | [-> ?]]; [|left; split; [done|]; apply Hnone, vault_id_quiet].
  pose proof (proj1 (vault_id_quiet env HYPERLIQUID_VAULT_NAME s)) as Hl1.
  unfold get_hyperliquid_vault_id in Hv. rewrite Hv in Hl1. cbn in Hl1.
  apply step_cases in H as [(address & s2 & Ha & H) | [-> ?]];
    [|left; split; [done|]; apply Hnone; rewrite <-Hl1; apply hyperliquid_address_quiet].
  pose proof (proj1 (hyperliquid_address_quiet env s1)) as Hl2. rewrite Ha in Hl2. cbn in Hl2.
  apply step_cases in H as [(w & s3 & (-> & _)%wallet_by_vault_Ok & H) | [-> ?]];
    [|left; split; [done|]; apply Hnone; cbn; congruence].
  apply step_cases in H as [(mint & s3 & [_ ->]%lift_Ok & H) | [-> ?]];
    [|left; split; [done|]; apply Hnone; cbn; congruence].
  apply step_cases in H as [(avail & s4 & Hb & H) | [-> ?]];
    [|left; split; [done|]; apply Hnone; rewrite (proj1 (vault_balance_quiet env vid mint s2)); congruence].
  pose proof (proj1 (vault_balance_quiet env vid mint s2)) as Hl4. rewrite Hb in Hl4. cbn in Hl4.
  apply step_cases in H as [([] & s5 & H5 & H) | [-> Hr]].
  - apply shortfall_log in H5 as (l & Hl & Hone & Hfill). rewrite Hl4, Hl2, Hl1 in Hl.
    apply bridge_log in H as [[Hl' Hr]|(aid & bid & Hl')]; rewrite Hl in Hl'; [left; split; eauto|].
    right. exists rounded, vid, aid, bid, l, avail. rewrite Hl', <-app_assoc. auto.
  - left. split; [done|]. match goal with |- context [(?m s4).2] => destruct (m s4) as [r5 s5] eqn:H5 end.
    apply shortfall_log in H5 as (l & Hl & Hone & _). cbn. rewrite Hl4, Hl2, Hl1 in Hl. eauto.
Qed.

(** *** Names of vaults *)

(** The names that vaults carry are refused; only their last part is accepted. *)
Lemma vault_name_refused src :
  chain <> Devnet -> exists e, from_vault_name chain_to_string (vault_of src) chain = Err e.
Proof. intros Hc. unfold vault_name, from_vault_name. destruct chain; try done; destruct src; eexists; vm_compute; reflexivity. Qed.
Lemma vault_suffix_accepted src :
  chain <> Devnet ->
  from_vault_name chain_to_string (match src with Quoter => "Quoters" | FeeRedemption => "Fee Collection" | Gas => "Gas" end) chain = Ok src.
Proof. intros Hc. unfold from_vault_name. destruct chain; try done; destruct src; vm_compute; reflexivity. Qed.

(** A transfer to the gas sponsor is not worth less than the minimum. *)
Lemma sponsor_transfer_value env token amount key sponsor s r s' :
  send_token_to_gas_sponsor env token amount key sponsor s = (r, s') ->
  s' = s \/ exists x price a, erc20_tx env token sponsor x key a /\ s' = submit a s /\
    pr_price env token = Ok price /\ fltb (fmul x price) MIN_TRANSFER_VALUE = false.
Proof.
  unfold send_token_to_gas_sponsor. intros H.
  apply step_cases in H as [(bal & s1 & [_ ->]%lift_Ok & H) | [-> ?]]; [|by left].
  apply step_cases in H as [(price & s1 & [Hp ->]%lift_Ok & H) | [-> ?]]; [|by left].
  destruct (fltb _ MIN_TRANSFER_VALUE) eqn:Hv; [injection H as <- <-; by left|].
  match type of H with ((erc20_transfer env token sponsor ?x key ≫= _) _ = _) =>
    destruct (erc20_transfer env token sponsor x key s) as [r1 s1] eqn:Ht end.
  assert (s' = s1) as -> by (unfold mbind, eff_bind in H; rewrite Ht in H; by destruct r1; injection H as <- <-).
  apply erc20_transfer_transfers in Ht as [[->|(a & Ha & ->)] _]; [by left|]. right. eauto 10.
Qed.
End Client.

(** ** Witnesses *)
Module CustodyWitness.
#[local] Instance hot_order : RowOrder HotWallet.
Proof. refine {| first_row := head |}; [by intros [] ? [= ->]; left|by intros []]. Defined.

Definition usdc : string := "0xaf88".
Definition done_poll : poll_env := mk_poll (fun _ => (5%nat, Ok (mk_tx Completed (Some [Some (mk_signed (Some "aa") (Some "bb") (Some 27))])))) (Err (Db "")).
Definition env : custody_env := {|
  fb_blockchains _ := Ok [(Some "42161", "arb")];
  fb_assets _ := Ok [mk_fb_asset "USDC_ARB" (Some usdc)];
  fb_vaults n := Ok [mk_vault "7" n []];
  fb_addresses _ _ := Ok ["0xhl"];
  fb_asset_by_id _ := Ok None;
  fb_vault_asset _ _ := Ok "0";
  fb_external_wallets := Ok [];
  fb_create _ := Ok "tx-1";
  fb_poll _ := done_poll;
  fb_index _ _ := (0%nat, Ok []);
  rpc_erc20 _ _ := Ok f2;
  rpc_erc20_raw _ _ := Ok 0;
  rpc_ether _ := Ok f2;
  rpc_decimals _ := Ok 6;
  rpc_block := Ok None;
  rpc_send _ i := if Nat.eqb i 0 then SendTx.ErrorResp "nonce too low" else SendTx.Pending (Ok "0xhash");
  ex_swap _ := Err (CustomError "");
  db_up := true; sm_up := true;
  pr_price _ := Ok f1; pr_eth := Ok f1 |}.
Definition start : custody_state :=
  mk_custody metadata_new [mk_hot "hot-wallet-0xq" "Arbitrum Quoters" "0xq" "w1"; mk_hot "hot-wallet-0xg" "Arbitrum Gas" "0xg" "w2"]
    {["hot-wallet-0xg" := "key-g"]} [].
Definition sign_request (account domain : string) (id : Z) : JsonRpcRequest :=
  mk_rpc "1" "eth_signTypedData_v4" (VArray [VString account; VOther "data"]).
Definition decode (domain : string) (id : Z) (_ : Value) : res string TypedData :=
  Ok (mk_typed (Some domain) (Some id) "Agent" "data").
Definition signed_by (account domain : string) (id : Z) : nat :=
  length (cs_log (handle_rpc_request (fun _ => usdc) ArbitrumOne 42161 "42161" (decode domain id) env
    (sign_request account domain id) start).2).

(** The gate lets a Hyperliquid action through and stops other accounts, domains
    and chains. *)
Example signing_gate_runs :
  signed_by "0xhl" "Exchange" 1337 = 1%nat /\ signed_by "0xother" "Exchange" 1337 = 0%nat /\
  signed_by "0xhl" "Permit2" 42161 = 0%nat /\ signed_by "0xhl" "HyperliquidSignTransaction" 1 = 0%nat.
Proof. vm_compute. auto. Qed.

Definition gas_sent (max amount : f64) : list custody_action :=
  cs_log (withdraw_gas_handler (fun _ => "") (fun _ => Ok tt) (fun a => Ok a) (fun _ => "1") (fun _ d => Ok (10 ^ d))
    ArbitrumOne (fun _ => "") env max amount "0xdest" start).2.
(** The node refuses the first submission for its nonce and accepts the second; an
    amount over the maximum or the balance is not sent. *)
Example gas_withdrawal_runs :
  gas_sent f2 f1 = [EtherTransfer "0xdest" (10 ^ 18) "key-g"] /\ gas_sent f1 f2 = [] /\ gas_sent (of_Z 9) (of_Z 3) = [].
Proof. vm_compute. auto. Qed.
End CustodyWitness.
