(* ===== verification/PriceServer.v ===== *)
(** * The price reporter's servers and the other exchanges (price-reporter/src)

    Topics and pairs (utils/), the websocket server with its subscriptions
    (ws_server.rs), the HTTP routes (http_server/), and the message handlers of
    Binance, Kraken and Okx (exchanges/).  Tokens, their tickers and the names
    of exchanges belong to the library: the class [TokenLib].  The map of
    streams is that of [PriceReporter]. *)
From Stdlib Require Import ZArith Lia Ascii Floats.SpecFloat.
From stdpp Require Import gmap strings list.
From S2P Require Import Prelude F64.
From S2P Require PriceReporter.
Local Open Scope Z_scope.
Import PriceReporter (ServerError(..), ExchangeConnectionError(..), Message(..)).
Abbreviation safe_midpoint := PriceReporter.safe_midpoint.
Abbreviation streams := PriceReporter.GlobalPriceStreams.

Create HintDb prices discriminated.

(** ** Tokens and exchanges *)
Inductive Exchange := Binance | Coinbase | Kraken | Okx | UniswapV3 | Renegade.
#[export] Instance exchange_eq_dec : EqDecision Exchange.
Proof. solve_decision. Defined.
Record Token := mk_token { tk_addr : string; tk_chain : Chain }.
#[export] Instance token_eq_dec : EqDecision Token.
Proof. solve_decision. Defined.
Definition USDC_TICKER : string := "USDC".

(** The static mapping of addresses to tickers, per chain, in the order in which
    the map of chains iterates; tickers are unique per chain, and looked up in
    both directions. *)
Class TokenLib := {
  remaps : list (Chain * list (string * string));
  from_ticker_on_chain : string -> Chain -> res ServerError Token;
  exchange_from_str : string -> option Exchange;
  exchange_to_string : Exchange -> string;
  token_to_string : Token -> string;
  stable_ticker : Exchange -> string;
  exchange_tickers : Token -> Exchange -> option string;
  supported_exchanges : Token -> list Exchange;
  default_chain : Chain;
  remaps_nodup : NoDup (fst <$> remaps);
  from_ticker_law chain m addr ticker :
    (chain, m) ∈ remaps -> (addr, ticker) ∈ m ->
    from_ticker_on_chain ticker chain = Ok (mk_token addr chain);
}.

Section Pairs.
Context `{TL : TokenLib}.
Abbreviation Res := (res ServerError).

Definition get_by_left (m : list (string * string)) (addr : string) : option string :=
  (fun p => p.2.2) <$> list_find (fun p => p.1 = addr) m.
Definition remap_of (chain : Chain) : list (string * string) :=
  default [] ((fun p => p.2.2) <$> list_find (fun p => p.1 = chain) remaps).
Definition get_ticker (t : Token) : option string := get_by_left (remap_of (tk_chain t)) (tk_addr t).

(** ** utils/mod.rs *)
Definition get_token_and_chain (addr : string) : option (Token * Chain) :=
  let addr := to_lowercase addr in
  (fun p => (mk_token addr p.2.1, p.2.1)) <$>
    list_find (fun p => is_Some (get_by_left p.2 addr)) remaps.
Definition resolve_tokens_and_chain (base_mint quote_mint : string) : option (Token * Token * Chain) :=
  let base := to_lowercase base_mint in
  let quote := to_lowercase quote_mint in
  (fun p => (mk_token base p.2.1, mk_token quote p.2.1, p.2.1)) <$>
    list_find (fun p => is_Some (get_by_left p.2 base) /\ is_Some (get_by_left p.2 quote)) remaps.
Definition default_exchange_stable (e : Exchange) (chain : Chain) : Res Token :=
  if decide (e = Renegade) then from_ticker_on_chain USDC_TICKER chain
  else from_ticker_on_chain (stable_ticker e) chain.

(** ** utils/pair_info.rs *)
Record PairInfo := mk_pair { p_exchange : Exchange; p_base : string; p_quote : string; p_chain : Chain }.
(** Equality and hash ignore the chain: this is the key of the map of streams. *)
Definition key (p : PairInfo) : PriceReporter.PairInfo := (exchange_to_string (p_exchange p), p_base p, p_quote p).
Definition pair_new (e : Exchange) (base quote : string) (chain : option Chain) : PairInfo :=
  mk_pair e base quote (default default_chain chain).
Definition new_from_tokens (e : Exchange) (base quote : Token) : Res PairInfo :=
  if decide (tk_chain base = tk_chain quote) then
    base_ticker ← ok_or (get_ticker base) (InvalidPairInfo "unable to get ticker");
    quote_ticker ← ok_or (get_ticker quote) (InvalidPairInfo "unable to get ticker");
    Ok (mk_pair e base_ticker quote_ticker (tk_chain quote))
  else Panic.
Definition new_default_stable (e : Exchange) (base_mint : string) : Res PairInfo :=
  '(base, chain) ← ok_or (get_token_and_chain base_mint) (InvalidPairInfo "invalid token");
  quote ← default_exchange_stable e chain;
  new_from_tokens e base quote.
Definition base_token (p : PairInfo) : Res Token := from_ticker_on_chain (p_base p) (p_chain p).
Definition quote_token (p : PairInfo) : Res Token := from_ticker_on_chain (p_quote p) (p_chain p).
Definition enforce_usdc (t : Token) : Res unit :=
  ticker ← ok_or (get_ticker t) (InvalidPairInfo "unable to get ticker");
  if decide (ticker <> USDC_TICKER) then Err (InvalidPairInfo "expected USDC") else Ok tt.

(** Indexing past the parts of a topic panics. *)
Definition from_topic (topic : string) : Res PairInfo :=
  let parts := split_on "-"%char topic in
  part0 ← unwrap (parts !! 0%nat);
  exchange ← ok_or (exchange_from_str part0) (InvalidPairInfo part0);
  base_mint ← unwrap (parts !! 1%nat);
  if decide (exchange = Renegade /\ length parts = 2%nat) then new_default_stable exchange base_mint
  else
    quote_mint ← unwrap (parts !! 2%nat);
    match resolve_tokens_and_chain base_mint quote_mint with
    | Some (base, quote, _) =>
        _ ← (if decide (exchange = Renegade) then enforce_usdc quote else Ok tt);
        new_from_tokens exchange base quote
    | None => Err (InvalidPairInfo "invalid token pair")
    end.
Definition to_topic (p : PairInfo) : string :=
  (exchange_to_string (p_exchange p) +:+ "-" +:+ p_base p +:+ "-" +:+ p_quote p)%string.
Definition is_unit_pair (p : PairInfo) : bool := bool_decide (p_base p = p_quote p).

(** What the exchanges' REST endpoints answer about a symbol. *)
Context (lists_symbol : Exchange -> string -> res ExchangeConnectionError bool).
Definition exchange_lists_pair_tokens (e : Exchange) (base quote : Token) : bool :=
  bool_decide (e ∈ supported_exchanges base /\ e ∈ supported_exchanges quote).
Definition symbol (e : Exchange) (base quote : string) : string :=
  match e with
  | Kraken => base +:+ "/" +:+ quote
  | Okx | Coinbase => base +:+ "-" +:+ quote
  | _ => base +:+ quote
  end%string.
Definition supports_pair (e : Exchange) (base quote : Token) : res ExchangeConnectionError bool :=
  if negb (exchange_lists_pair_tokens e base quote) then Ok false
  else
    match exchange_tickers base e, exchange_tickers quote e with
    | Some b, Some q => lists_symbol e (symbol e b q)
    | _, _ => Ok false
    end.
Definition is_supported (p : PairInfo) : Res bool :=
  if is_unit_pair p then Ok true
  else
    base ← base_token p;
    quote ← quote_token p;
    match p_exchange p with
    | Binance | Renegade => map_err ExchangeConnection (supports_pair Binance base quote)
    | Coinbase => map_err ExchangeConnection (supports_pair Coinbase base quote)
    | Kraken => map_err ExchangeConnection (supports_pair Kraken base quote)
    | Okx => map_err ExchangeConnection (supports_pair Okx base quote)
    | UniswapV3 => Err (InvalidPairInfo (to_topic p))
    end.
Definition validate_subscription (p : PairInfo) : Res unit :=
  _ ← base_token p;
  _ ← quote_token p;
  if decide (p_exchange p = UniswapV3) then Err (InvalidPairInfo "UniswapV3 is not supported")
  else
    supported ← is_supported p;
    if supported : bool then Ok tt else Err (InvalidPairInfo "unsupported pair").

(** *** utils/canonical_exchange.rs *)
Context (canonical : gmap string Exchange).
Definition get_canonical_exchange (mint : string) : Res Exchange :=
  '(token, _) ← ok_or (get_token_and_chain mint) (InvalidPairInfo "invalid token");
  ticker ← ok_or (get_ticker token) (InvalidPairInfo "unable to get ticker");
  ok_or (canonical !! ticker) (InvalidPairInfo "unable to get canonical exchange").
Definition new_canonical_exchange (base_mint : string) : Res PairInfo :=
  e ← get_canonical_exchange base_mint; new_default_stable e base_mint.
Definition requires_quote_conversion (p : PairInfo) : Res bool :=
  let is_renegade := bool_decide (p_exchange p = Renegade) in
  base ← base_token p;
  e ← get_canonical_exchange (tk_addr base);
  stable ← default_exchange_stable e (p_chain p);
  ticker ← unwrap (get_ticker stable);
  Ok (is_renegade && negb (bool_decide (e = Coinbase)) && negb (bool_decide (ticker = USDC_TICKER))).
Definition get_conversion_pair (p : PairInfo) : Res PairInfo :=
  usdc ← from_ticker_on_chain USDC_TICKER (p_chain p);
  new_default_stable (p_exchange p) (tk_addr usdc).
Definition normalize_pair_info (p : PairInfo) : Res (PairInfo * bool) :=
  if decide (p_exchange p <> Renegade) then Ok (p, false)
  else
    base ← base_token p;
    new_pair ← new_canonical_exchange (tk_addr base);
    requires_conversion ← requires_quote_conversion p;
    Ok (new_pair, requires_conversion).

(** ** price_stream_manager.rs: streams for a pair *)
Abbreviation S := (eff streams ServerError).
Definition get_or_create_price_receiver (p : PairInfo) : S nat := fun s =>
  match PriceReporter.price_streams s !! key p with
  | Some rx => (Ok rx, s)
  | None =>
      match validate_subscription p with
      | Ok _ => let '(rx, s) := PriceReporter.init_price_stream (key p) (fresh (dom (PriceReporter.tasks s))) s in (Ok rx, s)
      | Err e => (Err e, s)
      | Panic => (Panic, s)
      end
  end.
Definition quote_conversion_stream (p : PairInfo) : S nat :=
  conversion_pair ← lift (get_conversion_pair p);
  get_or_create_price_receiver conversion_pair.
(** A stream: the receiver of the price and that of the conversion. *)
Abbreviation handle := (nat * option nat)%type.
Definition get_or_create_price_stream (p : PairInfo) : S handle :=
  '(norm, requires_conversion) ← lift (normalize_pair_info p);
  price_rx ← get_or_create_price_receiver norm;
  if requires_conversion : bool
  then conversion_rx ← quote_conversion_stream norm; mret (price_rx, Some conversion_rx)
  else mret (price_rx, None).
(** The values of the receivers when they are borrowed. *)
Definition get_current_price (value : nat -> f64) (p : PairInfo) : S f64 :=
  '(norm, requires_conversion) ← lift (normalize_pair_info p);
  price_rx ← get_or_create_price_receiver norm;
  let price := value price_rx in
  if feqb price f0 then lift (Err PriceStreamClosed)
  else if requires_conversion : bool then
    conversion_rx ← quote_conversion_stream norm;
    let conversion_price := value conversion_rx in
    if feqb conversion_price f0 then lift (Err PriceStreamClosed) else mret (fdiv price conversion_price)
  else mret price.

(** ** ws_server.rs: the subscriptions of a client *)
Abbreviation PriceTopic := (Exchange * Token * Token)%type.
Abbreviation subs := (list (PriceTopic * handle)).
Definition topic_of (p : PairInfo) : Res PriceTopic :=
  base ← base_token p; quote ← quote_token p; Ok (p_exchange p, base, quote).
Definition get_price_topic_str (t : PriceTopic) : string :=
  (exchange_to_string t.1.1 +:+ "-" +:+ token_to_string t.1.2 +:+ "-" +:+ token_to_string t.2)%string.
Definition get_subscribed_topics (l : subs) : list string := map (fun p => get_price_topic_str p.1) l.
(** [StreamMap]: the first entry of the key is taken out, and the last entry of the map
    takes its place; an insertion replaces the entry of its key. *)
Definition swap_remove {A} (i : nat) (l : list A) : list A :=
  match last l with Some x => take (length l - 1) (<[i := x]> l) | None => [] end.
Definition sub_remove (t : PriceTopic) (l : subs) : subs :=
  match list_find (fun p => p.1 = t) l with Some (i, _) => swap_remove i l | None => l end.
Definition sub_insert (t : PriceTopic) (h : handle) (l : subs) : subs := sub_remove t l ++ [(t, h)].

Inductive WebsocketMessage := Subscribe (topic : string) | Unsubscribe (topic : string).
Definition handle_subscription_message (m : WebsocketMessage)
    : eff (subs * streams) ServerError (list string) := fun st =>
  let '(l, s) := st in
  match m with
  | Subscribe topic =>
      match (pair_info ← lift (from_topic topic);
             h ← get_or_create_price_stream pair_info;
             t ← lift (topic_of pair_info);
             mret (t, h)) s with
      | (Ok (t, h), s) => let l := sub_insert t h l in (Ok (get_subscribed_topics l), (l, s))
      | (Err e, s) => (Err e, (l, s))
      | (Panic, s) => (Panic, (l, s))
      end
  | Unsubscribe topic =>
      match pair_info ← from_topic topic; topic_of pair_info with
      | Ok t => let l := sub_remove t l in (Ok (get_subscribed_topics l), (l, s))
      | Err e => (Err e, (l, s))
      | Panic => (Panic, (l, s))
      end
  end.
(** The reply to a text; other messages get none. *)
Inductive ws_reply := SubscriptionResponse (topics : list string) | ErrorText (e : ServerError) | InvalidRequest.
Definition handle_ws_message (decode : string -> option WebsocketMessage) (m : Message)
    : eff (subs * streams) ServerError (option ws_reply) := fun st =>
  match m with
  | Text text =>
      match decode text with
      | Some msg =>
          match handle_subscription_message msg st with
          | (Ok topics, st) => (Ok (Some (SubscriptionResponse topics)), st)
          | (Err e, st) => (Ok (Some (ErrorText e)), st)
          | (Panic, st) => (Panic, st)
          end
      | None => (Ok (Some InvalidRequest), st)
      end
  | _ => (Ok None, st)
  end.
End Pairs.

(** ** exchanges: Binance, Kraken, Okx

    A decoded message has the fields that the handlers look up; [None] stands for
    a field that is absent, of another type, or does not parse. *)
Inductive binance_json := BinanceNumber | BinanceTicker (b a : option f64).
Record kraken_json := mk_kraken {
  kr_event : option string;
  kr_bid : option f64;
  kr_ask : option f64;
  kr_timestamp : option f64;
}.
Record okx_json := mk_okx { ok_event : option string; ok_bid : option f64; ok_ask : option f64 }.

Section Exchanges.
Abbreviation R := (res ExchangeConnectionError).

(** connection.rs *)
Definition parse_json_from_message {J} (from_str : string -> option (option J)) (m : Message) : R (option J) :=
  match m with
  | Text s =>
      if bool_decide (s = PriceReporter.PROTOCOL_VIOLATION_MSG) || bool_decide (s = ""%string) then Ok None
      else if bool_decide (s = PriceReporter.PONG_MESSAGE) then Ok None
      else if bool_decide (s = PriceReporter.CLOUDFLARE_RESET_MESSAGE) then Ok None
      else ok_or (from_str s) (InvalidMessage s)
  | Close => Err (ConnectionHangup "received close frame from websocket")
  | OtherMessage => Ok None
  end.
Definition parse_json_field_array {A} (field : option A) : R A := ok_or field (InvalidMessage "field").

Definition KRAKEN_MSG_IGNORE_LIST : list string := ["systemStatus"; "subscriptionStatus"; "heartbeat"]%string.
Definition OKX_SUBSCRIBE_EVENT : string := "subscribe".

Definition binance_midpoint (from_str : string -> option (option binance_json)) (m : Message) : R (option f64) :=
  json ← parse_json_from_message from_str m;
  match json with
  | None | Some BinanceNumber => Ok None
  | Some (BinanceTicker b a) =>
      best_bid ← parse_json_field_array b;
      best_offer ← parse_json_field_array a;
      Ok (safe_midpoint best_bid best_offer)
  end.
Definition kraken_midpoint (from_str : string -> option (option kraken_json)) (m : Message) : R (option f64) :=
  json ← parse_json_from_message from_str m;
  match json with
  | None => Ok None
  | Some j =>
      if decide (default ""%string (kr_event j) ∈ KRAKEN_MSG_IGNORE_LIST) then Ok None
      else
        best_bid ← parse_json_field_array (kr_bid j);
        best_offer ← parse_json_field_array (kr_ask j);
        _ ← parse_json_field_array (kr_timestamp j);
        Ok (safe_midpoint best_bid best_offer)
  end.
Definition okx_midpoint (from_str : string -> option (option okx_json)) (m : Message) : R (option f64) :=
  json ← parse_json_from_message from_str m;
  match json with
  | None => Ok None
  | Some j =>
      if decide (default ""%string (ok_event j) = OKX_SUBSCRIBE_EVENT) then Ok None
      else
        best_bid ← parse_json_field_array (ok_bid j);
        best_offer ← parse_json_field_array (ok_ask j);
        Ok (safe_midpoint best_bid best_offer)
  end.

(** The closure of [connect]: what an item of the socket yields. *)
Definition on_item (midpoint : Message -> R (option f64)) (item : res string Message) : option (R f64) :=
  match item with
  | Ok m => match midpoint m with Ok (Some p) => Some (Ok p) | Ok None => None | Err e => Some (Err e) | Panic => Some Panic end
  | Err e => Some (Err (ConnectionHangup e))
  | Panic => Some Panic
  end.
(** [InitializablePriceStream]: the buffered value first, if there is one. *)
Definition price_stream (initial : option f64) (midpoint : Message -> R (option f64))
    (items : list (res string Message)) : list (R f64) :=
  option_list (Ok <$> initial) ++ omap (on_item midpoint) items.

(** Binance: the first price is fetched over REST and is not checked. *)
Definition fetch_price_report (bid offer : R f64) : R f64 :=
  best_bid ← bid;
  best_offer ← offer;
  Ok (fdiv (fadd best_bid best_offer) f2).
Definition binance_connect (bid offer : R f64) (ws : R unit) (from_str : string -> option (option binance_json))
    (items : list (res string Message)) : R (list (R f64)) :=
  initial ← fetch_price_report bid offer;
  _ ← ws;
  Ok (price_stream (Some initial) (binance_midpoint from_str) items).
Definition kraken_connect (ws : R unit) (from_str : string -> option (option kraken_json))
    (items : list (res string Message)) : R (list (R f64)) :=
  _ ← ws; Ok (price_stream None (kraken_midpoint from_str) items).
Definition okx_connect (ws : R unit) (from_str : string -> option (option okx_json))
    (items : list (res string Message)) : R (list (R f64)) :=
  _ ← ws; Ok (price_stream None (okx_midpoint from_str) items).

(** *** Prices of the exchanges *)
Lemma safe_midpoint_valid b o p : safe_midpoint b o = Some p -> PriceReporter.valid_price p.
Proof.
  unfold safe_midpoint. intros H.
  destruct (negb (is_finite b) || fleb b f0) eqn:Hb; [done|].
  destruct (negb (is_finite o) || fleb o f0) eqn:Ho; [done|]. injection H as <-. by exists b, o.
Qed.
Definition only_valid (midpoint : Message -> R (option f64)) : Prop :=
  forall m p, midpoint m = Ok (Some p) -> PriceReporter.valid_price p.
Lemma midpoints_valid fb fk fo :
  only_valid (binance_midpoint fb) /\ only_valid (kraken_midpoint fk) /\ only_valid (okx_midpoint fo).
Proof.
  split_and!; intros m p H; unfold binance_midpoint, kraken_midpoint, okx_midpoint in H;
    apply bind_Ok_inv in H as ([j|] & _ & H); try done.
  - destruct j as [|b a]; [done|]. inv_ok. by eapply safe_midpoint_valid.
  - case_decide; [done|]. inv_ok. by eapply safe_midpoint_valid.
  - case_decide; [done|]. inv_ok. by eapply safe_midpoint_valid.
Qed.
Lemma on_item_valid midpoint (items : list (res string Message)) p :
  only_valid midpoint -> Ok p ∈ omap (on_item midpoint) items -> PriceReporter.valid_price p.
Proof.
  intros Hv (item & _ & H)%list_elem_of_omap. destruct item as [m|e|]; cbn in H; [|done..].
  destruct (midpoint m) as [[q|]|e|] eqn:Hm; simplify_eq/=. by apply (Hv m).
Qed.

(** Whatever the sockets deliver, every price of Kraken and Okx, and every
    price of Binance but the first, is the midpoint of a finite positive bid
    and offer.  The first price of a Binance connection is the midpoint of what
    the REST endpoint reported, unchecked: a missing bid gives half the offer,
    a finite positive price that no later check can tell from a real one. *)
Theorem exchange_prices_valid bid offer ws fb fk fo items :
  (forall l p, (kraken_connect ws fk items = Ok l \/ okx_connect ws fo items = Ok l) ->
     Ok p ∈ l -> PriceReporter.valid_price p) /\
  (forall l, binance_connect bid offer ws fb items = Ok l ->
     exists b o rest, bid = Ok b /\ offer = Ok o /\ l = Ok (fdiv (fadd b o) f2) :: rest /\
       forall p, Ok p ∈ rest -> PriceReporter.valid_price p) /\
  (binance_connect (Ok f0) (Ok (of_Z 100)) (Ok tt) fb [] = Ok [Ok (of_Z 50)]).
Proof.
  destruct (midpoints_valid fb fk fo) as (Hb & Hk & Ho). split_and!.
  - intros l p [H|H] Hp; apply bind_Ok_inv in H as (? & _ & H); injection H as <-; cbn in Hp.
    + exact (on_item_valid _ items p Hk Hp).
    + exact (on_item_valid _ items p Ho Hp).
  - intros l H. unfold binance_connect, fetch_price_report in H. inv_ok. subst.
    eexists _, _, _. split_and!; [done..|reflexivity|]. intros p Hp. exact (on_item_valid _ items p Hb Hp).
  - vm_compute. reflexivity.
Qed.
End Exchanges.

(** ** http_server/ *)
Record response := mk_response { rs_status : Z; rs_body : string }.
Section Http.
Context `{TL : TokenLib} (lists_symbol : Exchange -> string -> res ExchangeConnectionError bool)
  (canonical : gmap string Exchange) (show_price : f64 -> string) (show_error : ServerError -> string).

Definition health_handle : response := mk_response 200 "OK".
Definition price_handle (value : nat -> f64) (topic : string) : eff streams ServerError response := fun s =>
  match (pair_info ← lift (from_topic topic);
         get_current_price lists_symbol canonical value pair_info) s with
  | (Ok price, s) => (Ok (mk_response 200 (show_price price)), s)
  | (Err e, s) => (Ok (mk_response 500 (show_error e)), s)
  | (Panic, s) => (Panic, s)
  end.

(** The admin endpoint: [validate] is the expiring signature of renegade_api. *)
Context {Key : Type} (validate : Key -> string -> string -> res string unit).
Definition authenticate_request (admin_key : option Key) (path body : string) : res ServerError unit :=
  match admin_key with
  | None => Err NoAdminKey
  | Some k => map_err Unauthorized (validate k path body)
  end.
(** [refresh] reloads the mapping and restarts the default streams. *)
Definition refresh_handle (admin_key : option Key) (path body : string)
    (refresh : eff streams ServerError unit) : eff streams ServerError response := fun s =>
  match admin_key with
  | None => (Ok (mk_response 400 "Admin API disabled"), s)
  | Some _ =>
      match authenticate_request admin_key path body with
      | Err e => (Ok (mk_response 401 (show_error e)), s)
      | Panic => (Panic, s)
      | Ok _ =>
          match refresh s with
          | (Ok _, s) => (Ok (mk_response 200 ""), s)
          | (Err e, s) => (Ok (mk_response 500 (show_error e)), s)
          | (Panic, s) => (Panic, s)
          end
      end
  end.

(** Routes: /health, /price/:topic, /refresh-token-mapping. *)
Inductive route := HealthRoute | PriceRoute (topic : string) | RefreshRoute | NoRoute.
Definition route_of (path : string) : route :=
  match split_on "/"%char path with
  | ["" ; "health"] => HealthRoute
  | ["" ; "price"; topic] => if decide (topic = "") then NoRoute else PriceRoute topic
  | ["" ; "refresh-token-mapping"] => RefreshRoute
  | _ => NoRoute
  end%string.
Definition serve_request (value : nat -> f64) (admin_key : option Key) (refresh : eff streams ServerError unit)
    (path body : string) : eff streams ServerError response :=
  match route_of path with
  | HealthRoute => mret health_handle
  | PriceRoute topic => price_handle value topic
  | RefreshRoute => refresh_handle admin_key path body refresh
  | NoRoute => mret (mk_response 404 "Not found")
  end.
End Http.

(** ** Topics *)
Section Topics.
Context `{TL : TokenLib}.

Lemma get_by_left_in m addr ticker : get_by_left m addr = Some ticker -> (addr, ticker) ∈ m.
Proof.
  unfold get_by_left. intros H. apply fmap_Some in H as ([i [a t]] & H & ->).
  apply list_find_Some in H as (Hi & <- & _). by eapply list_elem_of_lookup_2.
Qed.
Lemma remap_of_in chain m : (chain, m) ∈ remaps -> remap_of chain = m.
Proof.
  intros Hin. unfold remap_of.
  destruct (list_find (fun p => p.1 = chain) remaps) as [[i [c m']]|] eqn:Hf; cbn.
  - apply list_find_Some in Hf as (Hi & Hc & _). cbn in Hc. subst c.
    apply list_elem_of_lookup_1 in Hin as [j Hj].
    assert (i = j) as ->; [|congruence].
    eapply (NoDup_lookup _ i j chain remaps_nodup); by rewrite list_lookup_fmap, ?Hi, ?Hj.
  - exfalso. apply list_find_None in Hf. rewrite Forall_forall in Hf. by apply (Hf _ Hin).
Qed.
Lemma resolved_tokens base_mint quote_mint b q c :
  resolve_tokens_and_chain base_mint quote_mint = Some (b, q, c) ->
  b = mk_token (to_lowercase base_mint) c /\ q = mk_token (to_lowercase quote_mint) c /\
  exists m, (c, m) ∈ remaps.
Proof.
  unfold resolve_tokens_and_chain. intros ([i [c' m]] & Hf & [= -> -> ->])%fmap_Some.
  apply list_find_Some in Hf as (Hi & _ & _). split_and!; [done..|]. exists m. by eapply list_elem_of_lookup_2.
Qed.
(** The tokens of a pair are the tokens it was made of. *)
Lemma pair_tokens e b q m p :
  (tk_chain b, m) ∈ remaps -> new_from_tokens e b q = Ok p ->
  p_exchange p = e /\ base_token p = Ok b /\ quote_token p = Ok q.
Proof.
  intros Hin. unfold new_from_tokens. case_decide as Hc; [|done].
  intros (bt & Hb & H)%bind_Ok_inv. apply bind_Ok_inv in H as (qt & Hq & [= <-]).
  unfold ok_or in *. destruct (get_ticker b) as [bt'|] eqn:Hb'; [|done]. destruct (get_ticker q) as [qt'|] eqn:Hq'; [|done].
  injection Hb as ->. injection Hq as ->.
  unfold get_ticker in Hb', Hq'. rewrite <-Hc in Hq'. rewrite (remap_of_in _ _ Hin) in Hb', Hq'.
  apply get_by_left_in in Hb', Hq'. destruct b as [ba bc], q as [qa qc]. cbn in *. subst qc.
  unfold base_token, quote_token. cbn. split_and!; [done|by eapply from_ticker_law..].
Qed.

Lemma split_two a b :
  str_mem "-"%char a = false -> str_mem "-"%char b = false ->
  split_on "-"%char (a +:+ String "-"%char b)%string = [a; b].
Proof. intros Ha Hb. by rewrite split_on_app, (split_on_none _ b). Qed.
Lemma split_three a b c :
  str_mem "-"%char a = false -> str_mem "-"%char b = false -> str_mem "-"%char c = false ->
  split_on "-"%char (a +:+ String "-"%char (b +:+ String "-"%char c))%string = [a; b; c].
Proof. intros Ha Hb Hc. by rewrite split_on_app, split_two. Qed.

(** A full topic is resolved to tokens with its two addresses on one chain. *)
Lemma from_topic_full name base quote e p :
  str_mem "-"%char name = false -> str_mem "-"%char base = false -> str_mem "-"%char quote = false ->
  exchange_from_str name = Some e ->
  from_topic (name +:+ String "-"%char (base +:+ String "-"%char quote))%string = Ok p ->
  exists c, topic_of p = Ok (e, mk_token (to_lowercase base) c, mk_token (to_lowercase quote) c) /\
    (e = Renegade -> get_ticker (mk_token (to_lowercase quote) c) = Some USDC_TICKER).
Proof.
  intros Hn Hb Hq He. unfold from_topic. rewrite split_three by done.
  cbn [mbind res_bind lookup list_lookup unwrap]. rewrite He. cbn [ok_or mbind res_bind unwrap].
  rewrite decide_False by (intros [_ ?]; done). cbn [unwrap mbind res_bind].
  destruct (resolve_tokens_and_chain base quote) as [[[b q] c]|] eqn:Hr; [|done].
  apply resolved_tokens in Hr as (-> & -> & m & Hm).
  intros ([] & Hu & H)%bind_Ok_inv. exists c.
  eapply pair_tokens in H as (Hex & Hbt & Hqt); [|done].
  unfold topic_of. rewrite Hbt, Hqt. cbn [mbind res_bind]. rewrite Hex. split; [done|]. intros ->.
  rewrite decide_True in Hu by done. unfold enforce_usdc in Hu. apply bind_Ok_inv in Hu as (t & Ht & Hu).
  unfold ok_or in Ht. destruct (get_ticker _) as [t'|]; [|done]. injection Ht as ->.
  case_decide as Hd; [done|]. by rewrite Hd.
Qed.

(** *** Short topics *)
Lemma from_topic_short name e :
  str_mem "-"%char name = false -> exchange_from_str name = Some e -> from_topic name = Panic.
Proof.
  intros Hn He. unfold from_topic. rewrite split_on_none by done.
  cbn [mbind res_bind lookup list_lookup unwrap]. by rewrite He.
Qed.
Lemma from_topic_no_quote name base e :
  str_mem "-"%char name = false -> str_mem "-"%char base = false ->
  exchange_from_str name = Some e -> e <> Renegade ->
  from_topic (name +:+ String "-"%char base)%string = Panic.
Proof.
  intros Hn Hb He Hr. unfold from_topic. rewrite split_two by done.
  cbn [mbind res_bind lookup list_lookup unwrap]. rewrite He. cbn [ok_or mbind res_bind unwrap].
  by rewrite decide_False by (intros [? _]; done).
Qed.

Context (lists_symbol : Exchange -> string -> res ExchangeConnectionError bool) (canonical : gmap string Exchange).

(** A topic that names an exchange but lacks a token, such as a bare exchange
    name or an exchange and one token (unless it is Renegade), makes the server
    panic instead of answering an error: the task of the websocket connection
    dies with all its subscriptions, and the HTTP price route does not reply. *)
Theorem short_topic_panics name base e decode text l s value show show_e :
  str_mem "-"%char name = false -> str_mem "-"%char base = false ->
  exchange_from_str name = Some e ->
  let short t := t = name \/ (e <> Renegade /\ t = (name +:+ String "-"%char base)%string) in
  forall topic, short topic ->
  (decode text = Some (Subscribe topic) \/ decode text = Some (Unsubscribe topic) ->
   handle_ws_message lists_symbol canonical decode (Text text) (l, s) = (Panic, (l, s))) /\
  price_handle lists_symbol canonical show show_e value topic s = (Panic, s).
Proof.
  intros Hn Hb He short topic Hs.
  assert (from_topic topic = Panic) as Hp.
  { destruct Hs as [->|[Hr ->]]; [by eapply from_topic_short|by eapply from_topic_no_quote]. }
  split.
  - intros [Hd|Hd]; cbn; rewrite Hd; cbn; unfold lift, mbind, eff_bind; by rewrite Hp.
  - unfold price_handle, lift, mbind, eff_bind. by rewrite Hp.
Qed.

(** *** Subscriptions *)
Lemma swap_remove_last {A} (l : list A) x : swap_remove (length l) (l ++ [x]) = l.
Proof.
  unfold swap_remove. rewrite last_snoc, length_app. cbn.
  rewrite insert_app_r_alt, Nat.sub_diag by lia. cbn. by rewrite Nat.add_sub, take_app_length.
Qed.
Lemma swap_remove_perm {A} i (l : list A) : (i < length l)%nat -> swap_remove i l ≡ₚ delete i l.
Proof.
  destruct l as [|x l _] using rev_ind; [cbn; lia|]. rewrite length_app. cbn. intros Hi.
  destruct (decide (i = length l)) as [->|Hne].
  - rewrite swap_remove_last, delete_take_drop, take_app_length, drop_ge by (rewrite length_app; cbn; lia).
    by rewrite app_nil_r.
  - unfold swap_remove. rewrite last_snoc, length_app, Nat.add_sub, insert_app_l, take_app_le by (rewrite ?length_insert; lia).
    rewrite take_ge by (rewrite length_insert; lia). rewrite insert_take_drop by lia.
    rewrite delete_take_drop, take_app_le, drop_app_le by lia.
    rewrite (app_assoc (take i l)). by rewrite (Permutation_app_comm _ [x]), <-Permutation_middle.
Qed.
Lemma sub_remove_absent t (l : list (_ * (nat * option nat))) : t ∉ l.*1 -> sub_remove t l = l.
Proof.
  intros Ht. unfold sub_remove. destruct (list_find _ l) as [[i [t' h]]|] eqn:Hf; [|done].
  apply list_find_Some in Hf as (Hi & Ht' & _). cbn in Ht'. subst t'. destruct Ht.
  apply list_elem_of_fmap. exists (t, h). split; [done|]. by eapply list_elem_of_lookup_2.
Qed.
(** Either the key is absent, or its entry is taken out of the map. *)
Lemma sub_remove_spec t (l : list (_ * (nat * option nat))) :
  (t ∉ l.*1 /\ sub_remove t l = l) \/ exists h, l ≡ₚ (t, h) :: sub_remove t l.
Proof.
  destruct (decide (t ∈ l.*1)) as [Ht|Ht]; [|left; auto using sub_remove_absent]. right.
  unfold sub_remove. destruct (list_find (fun p => p.1 = t) l) as [[i [t' h]]|] eqn:Hf.
  - apply list_find_Some in Hf as (Hi & Ht' & _). cbn in Ht'. subst t'. exists h.
    rewrite swap_remove_perm by (by eapply lookup_lt_Some). by apply delete_Permutation.
  - apply list_find_None in Hf. rewrite Forall_forall in Hf.
    apply list_elem_of_fmap in Ht as (p & -> & Hp). by apply Hf in Hp.
Qed.
(** What removal and insertion do to the topics of a map without repetitions. *)
Lemma sub_remove_topics t (l : list (_ * (nat * option nat))) : NoDup l.*1 ->
  NoDup (sub_remove t l).*1 /\ forall x, x ∈ (sub_remove t l).*1 <-> x ∈ l.*1 /\ x <> t.
Proof.
  intros Hl. destruct (sub_remove_spec t l) as [[Ht ->]|[h Hp]].
  - split; [done|]. intros x. split; [|by intros []]. intros Hx. split; [done|]. by intros ->.
  - assert (l.*1 ≡ₚ t :: (sub_remove t l).*1) as Hk by (rewrite Hp at 1; done).
    rewrite Hk in Hl. apply NoDup_cons in Hl as [Ht Hl]. split; [done|].
    intros x. rewrite Hk, elem_of_cons. split; [|tauto]. intros Hx. split; [by right|]. by intros ->.
Qed.
Lemma sub_insert_topics t h (l : list (_ * (nat * option nat))) : NoDup l.*1 ->
  NoDup (sub_insert t h l).*1 /\ forall x, x ∈ (sub_insert t h l).*1 <-> x = t \/ x ∈ l.*1.
Proof.
  intros Hl. destruct (sub_remove_topics t l Hl) as [Hr Hx]. unfold sub_insert. rewrite fmap_app. cbn. split.
  - apply NoDup_app. split_and!; [done| |apply NoDup_singleton]. intros x [_ Hne]%Hx. by intros ->%list_elem_of_singleton.
  - intros x. rewrite elem_of_app, list_elem_of_singleton, Hx. destruct (decide (x = t)); tauto.
Qed.
Lemma sub_insert_remove t h (l : list (_ * (nat * option nat))) : NoDup l.*1 ->
  sub_remove t (sub_insert t h l) = sub_remove t l.
Proof.
  intros Hl. destruct (sub_remove_topics t l Hl) as [_ Hx]. unfold sub_insert.
  unfold sub_remove at 1. rewrite (proj2 (list_find_Some _ (sub_remove t l ++ [(t, h)]) (length (sub_remove t l)) (t, h))).
  - apply swap_remove_last.
  - split_and!; [|done|].
    + by rewrite lookup_app_r, Nat.sub_diag by lia.
    + intros j y Hj Hlt. rewrite lookup_app_l in Hj by done. intros Hy.
      assert (y.1 ∈ (sub_remove t l).*1) as [_ Hne]%Hx; [|done]. apply list_elem_of_fmap_2. by eapply list_elem_of_lookup_2.
Qed.

(** A client that subscribes to a full topic is subscribed, under the two
    addresses in lower case on a chain that has both, to one stream: the reply
    lists the other topics it had and this one; unsubscribing from the topic
    takes exactly this entry out again, and a topic is never listed twice.  A
    failed subscription leaves the list as it was. *)
Theorem subscriptions_spec name base quote e l s :
  str_mem "-"%char name = false -> str_mem "-"%char base = false -> str_mem "-"%char quote = false ->
  exchange_from_str name = Some e -> NoDup (fst <$> l) ->
  let topic := (name +:+ String "-"%char (base +:+ String "-"%char quote))%string in
  match handle_subscription_message lists_symbol canonical (Subscribe topic) (l, s) with
  | (Ok topics, (l', s')) => exists c h,
      let t := (e, mk_token (to_lowercase base) c, mk_token (to_lowercase quote) c) in
      l' = sub_remove t l ++ [(t, h)] /\ topics = get_subscribed_topics l' /\ NoDup (fst <$> l') /\
      (forall x, x ∈ fst <$> l' <-> x = t \/ x ∈ fst <$> l) /\
      handle_subscription_message lists_symbol canonical (Unsubscribe topic) (l', s') =
        (Ok (get_subscribed_topics (sub_remove t l)), (sub_remove t l, s'))
  | (_, (l', _)) => l' = l
  end.
Proof.
  intros Hn Hb Hq He Hnd topic. cbn [handle_subscription_message].
  unfold lift, mret, eff_ret, mbind, eff_bind.
  destruct (from_topic topic) as [p|er|] eqn:Hp; [|done..].
  destruct (get_or_create_price_stream lists_symbol canonical p s) as [[h|er|] s1]; [|done..].
  destruct (from_topic_full name base quote e p Hn Hb Hq He Hp) as (c & Ht & _).
  rewrite Ht. exists c, h. cbn zeta. destruct (sub_insert_topics (e, mk_token (to_lowercase base) c, mk_token (to_lowercase quote) c) h l Hnd) as [Hi Hx].
  split_and!; [done|done|done|done|]. cbn. by rewrite Ht, sub_insert_remove.
Qed.
End Topics.

(** ** Witnesses *)
Module PriceServerWitness.
Definition arbitrum : list (string * string) := [("0xaa", "WETH"); ("0xbb", "USDC")]%string.
Definition find_ticker (ticker : string) (c : Chain) : res ServerError Token :=
  if decide (c = ArbitrumOne) then
    if String.eqb ticker "WETH" then Ok (mk_token "0xaa" c)
    else if String.eqb ticker "USDC" then Ok (mk_token "0xbb" c) else Panic
  else Panic.
Definition exchange_name (n : string) : option Exchange :=
  if String.eqb n "coinbase" then Some Coinbase else if String.eqb n "renegade" then Some Renegade else None.
#[local] Instance tokens : TokenLib.
Proof.
  refine {| remaps := [(ArbitrumOne, arbitrum)]; from_ticker_on_chain := find_ticker;
    exchange_from_str := exchange_name; exchange_to_string _ := "exchange"%string; token_to_string := tk_addr;
    stable_ticker _ := USDC_TICKER; exchange_tickers _ _ := Some "T"%string;
    supported_exchanges _ := [Coinbase]; default_chain := ArbitrumOne |}.
  - apply NoDup_singleton.
  - intros c m addr ticker [= -> ->]%list_elem_of_singleton. unfold arbitrum.
    by intros [[= -> ->]|[[= -> ->]|?%not_elem_of_nil]%elem_of_cons]%elem_of_cons.
Defined.
Definition lists (_ : Exchange) (_ : string) : res ExchangeConnectionError bool := Ok true.
Definition decode (s : string) : option WebsocketMessage := Some (Subscribe s).

Lemma short_topic_panics_witness :
  handle_ws_message lists ∅ decode (Text "coinbase-0xaa") ([], PriceReporter.streams_new) =
    (Panic, ([], PriceReporter.streams_new)).
Proof.
  refine (proj1 (short_topic_panics lists ∅ "coinbase" "0xaa" Coinbase decode "coinbase-0xaa" [] PriceReporter.streams_new
    (fun _ => f0) (fun _ => ""%string) (fun _ => ""%string) eq_refl eq_refl eq_refl "coinbase-0xaa"%string _) _).
  - right. split; [discriminate|reflexivity].
  - left. reflexivity.
Defined.

Lemma subscriptions_spec_witness :
  match handle_subscription_message lists ∅ (Subscribe "coinbase-0xAA-0xbb") ([], PriceReporter.streams_new) with
  | (Ok topics, _) => topics = ["exchange-0xaa-0xbb"]%string
  | _ => False
  end.
Proof.
  pose proof (subscriptions_spec lists ∅ "coinbase" "0xAA" "0xbb" Coinbase [] PriceReporter.streams_new
    eq_refl eq_refl eq_refl eq_refl (NoDup_nil_2)) as H.
  destruct (handle_subscription_message lists ∅ (Subscribe "coinbase-0xAA-0xbb") ([], PriceReporter.streams_new))
    as [[topics|e|] [l s]] eqn:E.
  - change (handle_subscription_message lists ∅ (Subscribe ("coinbase" +:+ String "-" ("0xAA" +:+ String "-" "0xbb"))) ([], PriceReporter.streams_new) = (Ok topics, (l, s))) in E.
    cbn zeta in H. rewrite E in H. destruct H as (c & h & -> & -> & _). reflexivity.
  - apply (f_equal (fun r => match r.1 with Ok _ => true | _ => false end)) in E. vm_compute in E. discriminate.
  - apply (f_equal (fun r => match r.1 with Ok _ => true | _ => false end)) in E. vm_compute in E. discriminate.
Defined.
End PriceServerWitness.
