(* ===== verification/PriceFeeds.v ===== *)
(** * The price reporter's feeds (price-reporter/src/main.rs, exchanges/)

    Which streams the price reporter starts and keeps: the default set of pairs,
    its refresh over HTTP, and the loop of the process.  And how a connection is
    set up: the handshake, the authenticated subscriptions of Coinbase with their
    periodic renewal, the REST checks of the exchanges.  Tokens are those of
    [PriceServer], the map of streams is that of [PriceReporter]; signatures,
    sockets and HTTP replies are parameters. *)
From Stdlib Require Import ZArith Lia.
From stdpp Require Import gmap strings list.
From S2P Require Import Prelude F64.
From S2P Require PriceReporter.
From S2P Require Import PriceServer.
Local Open Scope Z_scope.
Import PriceReporter (ServerError(..), ExchangeConnectionError(..), Message(..), price_streams, tasks).

(** ** exchanges/mod.rs *)
Record ExchangeConnectionsConfig := mk_conn_config {
  coinbase_key_name : option string;
  coinbase_key_secret : option string;
  eth_websocket_addr : option string;
}.
Definition coinbase_configured (c : ExchangeConnectionsConfig) : bool :=
  bool_decide (is_Some (coinbase_key_name c)) && bool_decide (is_Some (coinbase_key_secret c)).
Definition uniswap_v3_configured (c : ExchangeConnectionsConfig) : bool :=
  bool_decide (is_Some (eth_websocket_addr c)).

(** ** main.rs: the default streams *)
Section Defaults.
Context `{TL : TokenLib} (lists_symbol : Exchange -> string -> res ExchangeConnectionError bool)
  (canonical : gmap string Exchange).
(** The library's list of exchanges, USDC, the tokens of the mapping, and the
    stable token of an exchange. *)
Context (all_exchanges : list Exchange) (usdc : Token) (get_all_base_tokens : list Token)
  (exchange_stable : Exchange -> Token).
Abbreviation feed := (Token * Exchange)%type.
(** The order in which a hash set is iterated. *)
Context (iter : list feed -> list feed) (iter_perm : forall l, iter l ≡ₚ l).

Definition get_supported_exchanges (t : Token) (c : ExchangeConnectionsConfig) : list Exchange :=
  let l := supported_exchanges t in
  let l := if negb (coinbase_configured c) then filter (fun e => e <> Coinbase) l else l in
  if negb (uniswap_v3_configured c) then filter (fun e => e <> UniswapV3) l else l.

(** The set of streams, without repetitions. *)
Definition default_streams (c : ExchangeConnectionsConfig) (disabled : list Exchange) : list feed :=
  let enabled_exchanges := filter (fun e => e ∉ disabled) all_exchanges in
  remove_dups
    (((fun e => (usdc, e)) <$> enabled_exchanges) ++
     ((fun e => (exchange_stable e, e)) <$> enabled_exchanges) ++
     (t ← get_all_base_tokens;
      (fun e => (t, e)) <$> filter (fun e => e ∉ disabled) (get_supported_exchanges t c))).

Definition pair_of (f : feed) : res ServerError PairInfo := new_default_stable f.2 (tk_addr f.1).
(** Pairs that cannot be formed are left out here. *)
Fixpoint desired_pairs (l : list feed) : res ServerError (gset PriceReporter.PairInfo) :=
  match l with
  | [] => Ok ∅
  | f :: l =>
      match pair_of f with
      | Ok p => d ← desired_pairs l; Ok ({[key p]} ∪ d)
      | Err _ => desired_pairs l
      | Panic => Panic
      end
  end.
(** The tasks that are spawned; one that cannot be formed ends the loop. *)
Fixpoint init_price_streams (l : list feed) : res ServerError unit * list PairInfo :=
  match l with
  | [] => (Ok tt, [])
  | f :: l =>
      match pair_of f with
      | Ok p => let '(r, ps) := init_price_streams l in (r, p :: ps)
      | Err e => (Err e, [])
      | Panic => (Panic, [])
      end
  end.
Definition cancel_removed_streams (desired : gset PriceReporter.PairInfo) (s : streams) : streams :=
  PriceReporter.cancel_streams (PriceReporter.to_cancel desired s) s.
Definition init_default_price_streams (c : ExchangeConnectionsConfig) (disabled : list Exchange)
    : eff streams ServerError (list PairInfo) := fun s =>
  let feeds := default_streams c disabled in
  match desired_pairs (iter feeds) with
  | Ok desired =>
      let s := cancel_removed_streams desired s in
      match init_price_streams (iter feeds) with
      | (Ok _, spawned) => (Ok spawned, s)
      | (Err e, _) => (Err e, s)
      | (Panic, _) => (Panic, s)
      end
  | Err e => (Err e, s)
  | Panic => (Panic, s)
  end.
(** A spawned task; its errors are logged. *)
Definition run_spawned (s : streams) (p : PairInfo) : streams :=
  (get_or_create_price_stream lists_symbol canonical p s).2.

(** *** http_server/routes.rs; [reload] is the result of reading the mapping
    again, and the tokens are those after it. *)
Definition refresh_token_mapping (reload : res ServerError unit) (c : ExchangeConnectionsConfig)
    (disabled : list Exchange) : eff streams ServerError (list PairInfo) :=
  _ ← lift (map_err (fun _ => TokenRemap "refresh"%string) reload); init_default_price_streams c disabled.

(** ** What a refresh leaves *)
Lemma remove_stream_lookup p s k :
  price_streams (PriceReporter.remove_price_stream p s) !! k
    = if decide (k = p) then None else price_streams s !! k.
Proof.
  unfold PriceReporter.remove_price_stream. destruct (price_streams s !! p) eqn:E; cbn.
  - case_decide as Hk; [subst; apply lookup_delete_eq|by apply lookup_delete_ne].
  - case_decide as Hk; [by subst|done].
Qed.
Lemma cancel_streams_lookup l s k :
  price_streams (PriceReporter.cancel_streams l s) !! k
    = if decide (k ∈ l) then None else price_streams s !! k.
Proof.
  revert s. induction l as [|p l IH]; intros s; [done|].
  unfold PriceReporter.cancel_streams in *. cbn [foldl]. rewrite IH, remove_stream_lookup. clear IH.
  repeat case_decide; try done; exfalso; set_solver.
Qed.
Lemma cancel_removed_lookup D s k :
  price_streams (cancel_removed_streams D s) !! k = if decide (k ∈ D) then price_streams s !! k else None.
Proof.
  unfold cancel_removed_streams. rewrite cancel_streams_lookup. unfold PriceReporter.to_cancel.
  destruct (price_streams s !! k) eqn:E; [|by repeat case_decide].
  destruct (decide (k ∈ D)) as [Hd|Hd].
  - rewrite decide_False; [done|]. rewrite list_elem_of_filter. naive_solver.
  - rewrite decide_True; [done|]. apply list_elem_of_filter. split; [done|]. apply elem_of_elements.
    apply elem_of_dom. eauto.
Qed.

Lemma desired_elem l D k :
  desired_pairs l = Ok D -> k ∈ D <-> exists f p, f ∈ l /\ pair_of f = Ok p /\ key p = k.
Proof.
  revert D. induction l as [|f l IH]; intros D; cbn; [intros [= <-]; set_solver|].
  destruct (pair_of f) as [p|e|] eqn:Hp; [|intros H; rewrite (IH D H)|done].
  - intros (d & Hd & [= <-])%bind_Ok_inv. rewrite elem_of_union, elem_of_singleton, (IH d Hd).
    split; [intros [-> |(g & q & ? & ? & ?)]; [exists f, p|exists g, q]; set_solver|].
    intros (g & q & [-> |Hg]%elem_of_cons & Hq & <-); [left; congruence|right; eauto].
  - split; intros (g & q & Hg & Hq & <-); [exists g, q; set_solver|].
    apply elem_of_cons in Hg as [-> |Hg]; [congruence|eauto].
Qed.
Lemma spawned_elem l ps : init_price_streams l = (Ok tt, ps) ->
  (forall p, p ∈ ps <-> exists f, f ∈ l /\ pair_of f = Ok p) /\ (forall f, f ∈ l -> exists p, pair_of f = Ok p).
Proof.
  revert ps. induction l as [|f l IH]; intros ps; cbn; [intros [= <-]; set_solver|].
  destruct (pair_of f) as [p|e|] eqn:Hp; [|done..].
  destruct (init_price_streams l) as [r qs]. intros [= -> <-]. destruct (IH qs eq_refl) as [H1 H2].
  split.
  - intros q. rewrite elem_of_cons, H1. split.
    + intros [-> |(g & ? & ?)]; [exists f|exists g]; set_solver.
    + intros (g & [-> |Hg]%elem_of_cons & Hq); [left; congruence|right; eauto].
  - intros g [-> |Hg]%elem_of_cons; eauto.
Qed.

(** A task for a pair of an exchange adds the stream of that pair, if it is
    listed, and no other. *)
Lemma run_spawned_dom p s k :
  p_exchange p <> Renegade ->
  (k ∈ dom (price_streams (run_spawned s p)) ->
     k ∈ dom (price_streams s) \/ k = key p) /\
  (k ∈ dom (price_streams s) -> k ∈ dom (price_streams (run_spawned s p))) /\
  (validate_subscription lists_symbol p = Ok tt -> key p ∈ dom (price_streams (run_spawned s p))).
Proof.
  intros He. unfold run_spawned, get_or_create_price_stream, normalize_pair_info, mbind, eff_bind, lift.
  rewrite decide_True by done. cbn.
  unfold get_or_create_price_receiver. destruct (price_streams s !! key p) as [rx|] eqn:Ek.
  { cbn. split_and!; [by left|done|]. intros _. apply elem_of_dom. eauto. }
  destruct (validate_subscription lists_symbol p) as [[]|e|]; [|split_and!; [by left|done|done]..].
  unfold PriceReporter.init_price_stream, PriceReporter.maybe_add_price_stream. rewrite Ek. cbn.
  rewrite dom_insert. set_solver.
Qed.
Lemma run_all_dom ps s k :
  Forall (fun p => p_exchange p <> Renegade) ps ->
  (k ∈ dom (price_streams (foldl run_spawned s ps)) ->
     k ∈ dom (price_streams s) \/ exists p, p ∈ ps /\ k = key p) /\
  (k ∈ dom (price_streams s) -> k ∈ dom (price_streams (foldl run_spawned s ps))) /\
  (forall p, p ∈ ps -> validate_subscription lists_symbol p = Ok tt ->
     key p ∈ dom (price_streams (foldl run_spawned s ps))).
Proof.
  revert s k. induction ps as [|p ps IH]; intros s k Hps; cbn [foldl].
  { split_and!; [by left|done|]. intros p []%elem_of_nil. }
  apply Forall_cons in Hps as [Hp Hps]. destruct (IH (run_spawned s p) k Hps) as (H1 & H2 & H3).
  destruct (run_spawned_dom p s k Hp) as (G1 & G2 & G3). split_and!.
  - intros [Hk|(q & Hq & ->)]%H1; [|right; exists q; set_solver].
    apply G1 in Hk as [|]; [by left|]. right. exists p. set_solver.
  - auto.
  - intros q [-> |Hq]%elem_of_cons Hv; [|by apply H3].
    destruct (IH (run_spawned s p) (key p) Hps) as (_ & H2' & _).
    apply H2'. by apply (run_spawned_dom p s (key p) Hp).
Qed.

(** A refresh that succeeds converges: right after it the map has exactly the
    streams it had that are wanted, with their receivers, and once the tasks it
    spawned ran, in any order and with their pairs listed, the streams of the map
    are those of the default set. *)
Theorem refresh_converges reload c disabled s spawned s' :
  refresh_token_mapping reload c disabled s = (Ok spawned, s') ->
  Forall (fun p => p_exchange p <> Renegade /\ validate_subscription lists_symbol p = Ok tt) spawned ->
  let wanted k := exists f p, f ∈ default_streams c disabled /\ pair_of f = Ok p /\ key p = k in
  (forall k rx, price_streams s' !! k = Some rx <-> price_streams s !! k = Some rx /\ wanted k) /\
  (forall ps, ps ≡ₚ spawned -> forall k,
     k ∈ dom (price_streams (foldl run_spawned s' ps)) <-> wanted k).
Proof.
  intros Hr Hok wanted. unfold refresh_token_mapping in Hr.
  apply eff_bind_Ok in Hr as ([] & s0 & [_ ->]%lift_Ok & Hr). unfold init_default_price_streams in Hr.
  destruct (desired_pairs _) as [D|e|] eqn:HD; [|discriminate Hr..].
  destruct (init_price_streams _) as [[[]|e|] ps0] eqn:Hi; [|discriminate Hr..]. injection Hr as -> <-.
  assert (forall f, f ∈ iter (default_streams c disabled) <-> f ∈ default_streams c disabled) as Hit
    by (intros f; by rewrite iter_perm).
  assert (forall k, k ∈ D <-> wanted k) as HDw.
  { intros k. rewrite (desired_elem _ _ k HD). unfold wanted. by setoid_rewrite Hit. }
  destruct (spawned_elem _ _ Hi) as [Hsp _]. split.
  - intros k rx. rewrite cancel_removed_lookup, <- HDw. case_decide; naive_solver.
  - intros ps Hps k. rewrite Forall_forall in Hok.
    assert (forall q, q ∈ ps <-> q ∈ spawned) as Hmem by (intros q; by rewrite Hps).
    destruct (run_all_dom ps (cancel_removed_streams D s) k) as (H1 & H2 & H3).
    { apply Forall_forall. intros q Hq%Hmem. by apply Hok. }
    split.
    + intros [Hk|(q & Hq & ->)]%H1.
      * apply HDw. apply elem_of_dom in Hk as [rx Hk]. rewrite cancel_removed_lookup in Hk. by case_decide.
      * apply Hmem, Hsp in Hq as (f & Hf%Hit & Hp). by exists f, q.
    + intros (f & q & Hf%Hit & Hp & <-). assert (q ∈ spawned) as Hq by (apply Hsp; eauto).
      apply H3; [by apply Hmem|by apply Hok].
Qed.

(** No stream of a disabled exchange is wanted. *)
Lemma disabled_not_wanted c disabled t e : (t, e) ∈ default_streams c disabled -> e ∉ disabled.
Proof.
  unfold default_streams. rewrite elem_of_remove_dups, !elem_of_app.
  intros [H|[H|H]].
  1,2: apply list_elem_of_fmap in H as (e' & [= _ ->] & H); apply list_elem_of_filter in H; tauto.
  apply list_elem_of_bind in H as (t' & H & _). apply list_elem_of_fmap in H as (e' & [= _ ->] & H).
  apply list_elem_of_filter in H. tauto.
Qed.
(** A stream that cannot be formed fails the whole refresh, after the others were
    cancelled; which tasks were spawned before depends on the order of the set. *)
Lemma unformed_pair_fails c disabled s f e :
  f ∈ default_streams c disabled -> pair_of f = Err e ->
  forall l, (init_default_price_streams c disabled s).1 <> Ok l.
Proof.
  intros Hf He l. unfold init_default_price_streams.
  destruct (desired_pairs _) as [D|e'|]; [|done..].
  destruct (init_price_streams _) as [[[]|e'|] ps] eqn:Hi; [|done..]. exfalso.
  apply spawned_elem in Hi as [_ Hi]. destruct (Hi f) as [p Hp]; [by rewrite iter_perm|congruence].
Qed.
End Defaults.

(** ** utils/canonical_exchange.rs, utils/mod.rs: reading the mapping *)
Section Remaps.
(** The mapping of a file or of the repository for a chain, as the canonical
    exchanges it has, and the set-up of the token library. *)
Context (read_remap : option string -> Chain -> res string (gmap string Exchange))
  (setup_token_remaps : option string -> Chain -> res string unit).

Definition set_canonical_exchange_map (file : option string) (chain : Chain)
    : eff (gmap string Exchange) ServerError unit := fun m =>
  match map_err TokenRemap (read_remap file chain) with
  | Ok map => (Ok tt, map ∪ m)
  | Err e => (Err e, m)
  | Panic => (Panic, m)
  end.
Definition setup_chain (file : option string) (chain : Chain) : eff (gmap string Exchange) ServerError unit :=
  _ ← set_canonical_exchange_map file chain; lift (map_err TokenRemap (setup_token_remaps file chain)).
Fixpoint setup_chains (chains : list Chain) : eff (gmap string Exchange) ServerError unit :=
  match chains with
  | [] => mret tt
  | chain :: chains => _ ← setup_chain None chain; setup_chains chains
  end.
Definition setup_all_token_remaps (path : option string) (chains : list Chain)
    : eff (gmap string Exchange) ServerError unit :=
  match path, chains with
  | Some p, [chain] => setup_chain (Some p) chain
  | Some _, _ =>
      lift (Err (TokenRemap "When providing a token remap path, exactly one chain must be specified"))
  | None, chains => setup_chains chains
  end.

(** Entries are merged, never dropped: a ticker that has a canonical exchange
    has one after every refresh. *)
Lemma canonical_kept path chains m : dom m ⊆ dom (setup_all_token_remaps path chains m).2.
Proof.
  assert (forall file chain m, dom m ⊆ dom (setup_chain file chain m).2) as Hc.
  { intros file chain m'. unfold setup_chain, set_canonical_exchange_map, mbind, eff_bind, lift.
    destruct (read_remap file chain); cbn; [|done..]. set_solver. }
  assert (forall chains m, dom m ⊆ dom (setup_chains chains m).2) as Hcs.
  { intros cs. induction cs as [|chain cs IH]; intros m'; [done|]. cbn [setup_chains].
    unfold mbind, eff_bind. specialize (Hc None chain m').
    destruct (setup_chain None chain m') as [[[]|e|] m1]; cbn in *; [|done..]. by etrans. }
  unfold setup_all_token_remaps. destruct path as [p|]; [|apply Hcs].
  destruct chains as [|chain [|]]; [done|apply Hc|done].
Qed.
End Remaps.

(** ** exchanges/connection.rs, exchanges/util.rs *)
Section Connections.
Context `{TL : TokenLib}.
Abbreviation R := (res ExchangeConnectionError).

Inductive WsError := WsHttp (status : Z) (msg : string) | WsOther (msg : string).
Definition TOO_MANY_REQUESTS : Z := 429.
Definition ws_connect {C} (connect_async : C + WsError) : R C :=
  match connect_async with
  | inl conn => Ok conn
  | inr (WsHttp status msg) =>
      if status =? TOO_MANY_REQUESTS then Err RateLimited else Err (HandshakeFailure msg)
  | inr (WsOther msg) => Err (HandshakeFailure msg)
  end.
Definition ws_send (r : res string unit) : R unit := map_err ConnectionHangup r.
Definition ws_ping (r : res string unit) : R unit := map_err SendError r.

Definition get_exchange_ticker (t base quote : Token) (e : Exchange) : R string :=
  ok_or (exchange_tickers t e)
    (UnsupportedPair (token_to_string base) (token_to_string quote) (exchange_to_string e)).
Definition get_base_exchange_ticker (base quote : Token) (e : Exchange) : R string :=
  get_exchange_ticker base base quote e.
Definition get_quote_exchange_ticker (base quote : Token) (e : Exchange) : R string :=
  get_exchange_ticker quote base quote e.

(** *** The REST checks *)
(** What an exchange answers: a status, and the array it reports, if the reply
    is JSON with one. *)
Record rest_reply := mk_rest { rr_status : Z; rr_json : res string (option nat) }.
Definition is_success (status : Z) : bool := (200 <=? status) && (status <? 300).
Definition json_array (exchange : string) (r : res string (option nat)) : R nat :=
  a ← map_err InvalidMessage r;
  ok_or a (InvalidMessage ("Invalid response from " +:+ exchange)%string).
Definition rest_lists_symbol (get : string -> res string rest_reply) (e : Exchange) (symbol : string) : R bool :=
  let url :=
    match e with
    | Coinbase => "https://api.exchange.coinbase.com/products/" +:+ symbol
    | Kraken => "https://api.kraken.com/0/public/AssetPairs?pair=" +:+ symbol
    | Okx => "https://okx.com/api/v5/public/instruments?instType=SPOT&instId=" +:+ symbol
    | _ => "https://api.binance.com/api/v3/exchangeInfo?symbol=" +:+ symbol
    end%string in
  reply ← map_err ConnectionHangup (get url);
  match e with
  | Kraken => errors ← json_array "Kraken" (rr_json reply); Ok (Nat.eqb errors 0)
  | Okx => data ← json_array "Okx" (rr_json reply); Ok (negb (Nat.eqb data 0))
  | _ => Ok (is_success (rr_status reply))
  end.
Definition supports_pair_rest (get : string -> res string rest_reply) (e : Exchange) (base quote : Token)
    : R bool := supports_pair (rest_lists_symbol get) e base quote.

(** ** exchanges/coinbase/mod.rs: subscriptions *)
Definition CDP_ISSUER_ID : string := "cdp".
(** Seconds. *)
Definition COINBASE_JWT_TIMEOUT_SECS : Z := 60.
Definition RESUBSCRIPTION_INTERVAL_MIN : Z := 30.
Definition RESUBSCRIPTION_INTERVAL_MAX : Z := 60.

Record CoinbaseJwtClaims := mk_claims { subject : string; issuer : string; not_before : Z; expires : Z }.
(** A message to Coinbase: the fields of its JSON object. *)
Record request := mk_request {
  rq_type : string; rq_product_ids : option (list string); rq_channel : string; rq_jwt : string }.

(** The keys of the JWT library, and the signed text of a header and claims. *)
Context {EncodingKey : Type} (from_ec_pem : string -> res string EncodingKey)
  (jwt_encode : string -> CoinbaseJwtClaims -> EncodingKey -> res string string).

Definition get_product_id (base quote : Token) : R string :=
  base_ticker ← get_base_exchange_ticker base quote Coinbase;
  quote_ticker ← get_quote_exchange_ticker base quote Coinbase;
  Ok (base_ticker +:+ "-" +:+ quote_ticker)%string.

Definition construct_jwt (now : Z) (key_name key_secret : string) : R string :=
  key ← map_err Crypto (from_ec_pem key_secret);
  map_err Crypto (jwt_encode key_name
    (mk_claims key_name CDP_ISSUER_ID now (now + COINBASE_JWT_TIMEOUT_SECS)) key).
(** Both keys are expected to be configured. *)
Definition config_jwt (now : Z) (c : ExchangeConnectionsConfig) : R string :=
  key_name ← unwrap (coinbase_key_name c);
  key_secret ← unwrap (coinbase_key_secret c);
  construct_jwt now key_name key_secret.
Definition construct_subscribe_message (now : Z) (product_id : string) (c : ExchangeConnectionsConfig) : R request :=
  jwt ← config_jwt now c; Ok (mk_request "subscribe" (Some [product_id]) "level2" jwt).
Definition construct_unsubscribe_message (now : Z) (product_id : string) (c : ExchangeConnectionsConfig) : R request :=
  jwt ← config_jwt now c; Ok (mk_request "unsubscribe" (Some [product_id]) "level2" jwt).
Definition construct_heartbeat_message (now : Z) (c : ExchangeConnectionsConfig) : R request :=
  jwt ← config_jwt now c; Ok (mk_request "subscribe" None "heartbeat" jwt).

(** The messages sent, with the time. *)
Abbreviation W := (eff (list (Z * request)) ExchangeConnectionError).
Definition send (now : Z) (r : res string unit) (m : request) : W unit := fun sent =>
  (ws_send r, match r with Ok _ => sent ++ [(now, m)] | _ => sent end).

(** [connect], up to the stream it returns. *)
Definition coinbase_connect (now : Z) (conn : unit + WsError) (sends : res string unit * res string unit)
    (base quote : Token) (c : ExchangeConnectionsConfig) : W string :=
  _ ← lift (ws_connect conn);
  product_id ← lift (get_product_id base quote);
  subscribe ← lift (construct_subscribe_message now product_id c);
  heartbeat ← lift (construct_heartbeat_message now c);
  _ ← send now sends.1 subscribe;
  _ ← send now sends.2 heartbeat;
  mret product_id.

Definition resubscribe_to_channel (now : Z) (sends : res string unit * res string unit)
    (product_id : string) (c : ExchangeConnectionsConfig) : W unit :=
  unsubscribe ← lift (construct_unsubscribe_message now product_id c);
  _ ← send now sends.1 unsubscribe;
  subscribe ← lift (construct_subscribe_message now product_id c);
  send now sends.2 subscribe.

(** A turn of the loop: whether the connection was dropped, the fate of the
    two messages, and the random pause. *)
Record turn := mk_turn { tn_cancelled : bool; tn_sends : res string unit * res string unit; tn_sleep : Z }.
(** Errors are logged; a panic ends the task. *)
Fixpoint resubscription_loop (now : Z) (turns : list turn) (product_id : string)
    (c : ExchangeConnectionsConfig) (sent : list (Z * request)) : list (Z * request) :=
  match turns with
  | [] => sent
  | t :: turns =>
      if tn_cancelled t then sent
      else
        match resubscribe_to_channel now (tn_sends t) product_id c sent with
        | (Panic, sent) => sent
        | (_, sent) => resubscription_loop (now + tn_sleep t) turns product_id c sent
        end
  end.

(** *** Proofs *)
(** A message of the loop is for the product and its token is valid from the
    second it is sent, for one minute. *)
Definition authenticated (product_id : string) (c : ExchangeConnectionsConfig) (x : Z * request) : Prop :=
  rq_product_ids x.2 = Some [product_id] /\ rq_channel x.2 = "level2"%string /\
  exists name secret key,
    coinbase_key_name c = Some name /\ coinbase_key_secret c = Some secret /\ from_ec_pem secret = Ok key /\
    jwt_encode name (mk_claims name CDP_ISSUER_ID x.1 (x.1 + 60)) key = Ok (rq_jwt x.2).

Lemma config_jwt_Ok now c jwt : config_jwt now c = Ok jwt ->
  exists name secret key,
    coinbase_key_name c = Some name /\ coinbase_key_secret c = Some secret /\ from_ec_pem secret = Ok key /\
    jwt_encode name (mk_claims name CDP_ISSUER_ID now (now + 60)) key = Ok jwt.
Proof.
  unfold config_jwt. intros H. apply bind_Ok_inv in H as (name & Hn & H).
  apply bind_Ok_inv in H as (secret & Hs & H). unfold construct_jwt in H.
  apply bind_Ok_inv in H as (key & Hk%map_err_Ok & H%map_err_Ok).
  destruct (coinbase_key_name c); [|discriminate Hn]. destruct (coinbase_key_secret c); [|discriminate Hs].
  injection Hn as ->. injection Hs as ->. by exists name, secret, key.
Qed.

(** What one turn sends: nothing, the unsubscription, or both. *)
Lemma resubscribe_sends now sends product_id c sent :
  exists l, (resubscribe_to_channel now sends product_id c sent).2 = sent ++ l /\
    Forall (authenticated product_id c) l /\ Forall (fun x => x.1 = now) l /\
    (fun x => rq_type x.2) <$> l ∈ [[]; ["unsubscribe"]; ["unsubscribe"; "subscribe"]]%string /\
    ((resubscribe_to_channel now sends product_id c sent).1 = Ok tt -> length l = 2%nat).
Proof.
  unfold resubscribe_to_channel, construct_unsubscribe_message, construct_subscribe_message, mbind, eff_bind, lift.
  destruct (config_jwt now c) as [jwt|e|] eqn:Hj; cbn.
  2,3: exists []; rewrite app_nil_r; split_and!; [done..|set_solver|done].
  pose proof (config_jwt_Ok _ _ _ Hj) as Hk. unfold send, ws_send.
  destruct sends as [[[]|e1|] [[]|e2|]]; cbn.
  all: first [ exists []; rewrite app_nil_r; split_and!; [done..|set_solver|done]
             | exists [(now, mk_request "unsubscribe" (Some [product_id]) "level2" jwt)];
               split_and!; [done|repeat constructor; done|repeat constructor|set_solver|done]
             | exists [(now, mk_request "unsubscribe" (Some [product_id]) "level2" jwt);
                       (now, mk_request "subscribe" (Some [product_id]) "level2" jwt)];
               split_and!; [by rewrite <- (assoc_L (++))|repeat constructor; done|repeat constructor|set_solver|done] ].
Qed.

Lemma resubscribe_succeeds now sends product_id c sent :
  sends = (Ok tt, Ok tt) -> (exists jwt, config_jwt now c = Ok jwt) ->
  (resubscribe_to_channel now sends product_id c sent).1 = Ok tt.
Proof.
  intros -> [jwt Hj]. unfold resubscribe_to_channel, construct_unsubscribe_message,
    construct_subscribe_message, mbind, eff_bind, lift. by rewrite Hj.
Qed.

Definition pauses_ok (turns : list turn) : Prop :=
  Forall (fun t => RESUBSCRIPTION_INTERVAL_MIN <= tn_sleep t <= RESUBSCRIPTION_INTERVAL_MAX) turns.

(** A dropped connection sends nothing more. *)
Lemma resubscriptions_end now turns t post product_id c sent :
  tn_cancelled t = true ->
  resubscription_loop now (turns ++ t :: post) product_id c sent
    = resubscription_loop now turns product_id c sent.
Proof.
  intros Ht. revert now sent. induction turns as [|u turns IH]; intros now sent; cbn; [by rewrite Ht|].
  destruct (tn_cancelled u); [done|]. destruct (resubscribe_to_channel _ _ _ _ _) as [[] ?]; auto.
Qed.

(** The renewal of a subscription: every message that is sent is for the product
    of the connection and carries a token made in that second and valid for one
    minute, so no token is used beyond its life; when signatures and messages go
    through, every turn of a connection that is not dropped sends its two
    messages, the turns at most a minute apart. *)
Theorem resubscriptions_authenticated now turns product_id c sent :
  pauses_ok turns ->
  exists l, resubscription_loop now turns product_id c sent = sent ++ l /\
    Forall (authenticated product_id c) l /\
    Forall (fun x => now <= x.1 <= now + 60 * Z.of_nat (length turns)) l /\
    (Forall (fun t => tn_cancelled t = false /\ tn_sends t = (Ok tt, Ok tt)) turns ->
     (forall n, exists jwt, config_jwt n c = Ok jwt) -> length l = (2 * length turns)%nat).
Proof.
  revert now sent. induction turns as [|t turns IH]; intros now sent Hp; cbn [resubscription_loop].
  { exists []. by rewrite app_nil_r. }
  apply Forall_cons in Hp as [Ht Hp]. unfold RESUBSCRIPTION_INTERVAL_MIN, RESUBSCRIPTION_INTERVAL_MAX in Ht.
  destruct (tn_cancelled t) eqn:Ec.
  { exists []. rewrite app_nil_r. split_and!; [done..|]. intros [[] _]%Forall_cons _. congruence. }
  pose proof (resubscribe_succeeds now (tn_sends t) product_id c sent) as Hs.
  destruct (resubscribe_sends now (tn_sends t) product_id c sent) as (l & Hl & Ha & Hn & _ & H2).
  set (bound := fun x : Z * request => now <= x.1 <= now + 60 * Z.of_nat (S (length turns))).
  assert (Forall bound l) as Hb by (eapply Forall_impl; [exact Hn|]; unfold bound; intros x ->; lia).
  destruct (resubscribe_to_channel _ _ _ _ _) as [r sent1]. cbn in Hl, Hs, H2. subst sent1.
  destruct (IH (now + tn_sleep t) (sent ++ l) Hp) as (l' & Hl' & Ha' & Hn' & H2').
  assert (Forall bound l') as Hb' by (eapply Forall_impl; [exact Hn'|]; unfold bound; intros x Hx; lia).
  destruct r as [[]|e|]; [exists (l ++ l')|exists (l ++ l')|exists l]; rewrite ?(assoc_L (++));
    (split_and!; [done|by try apply Forall_app|by try apply Forall_app|]);
    intros [[_ Hts] Hts']%Forall_cons Hj; specialize (Hs Hts (Hj now)); try discriminate Hs.
  rewrite length_app, H2, H2' by done. cbn. lia.
Qed.

Lemma unconfigured_jwt now c : coinbase_configured c = false -> config_jwt now c = Panic.
Proof.
  unfold coinbase_configured, config_jwt. destruct (coinbase_key_name c); cbn; [|done].
  by destruct (coinbase_key_secret c).
Qed.
(** Without the keys a connection to Coinbase panics as soon as the socket is
    there, and nothing is sent. *)
Lemma unconfigured_coinbase_panics now sends base quote c product_id sent :
  coinbase_configured c = false -> get_product_id base quote = Ok product_id ->
  coinbase_connect now (inl tt) sends base quote c sent = (Panic, sent).
Proof.
  intros Hc Hp. unfold coinbase_connect, construct_subscribe_message, mbind, eff_bind, lift. cbn.
  by rewrite Hp, unconfigured_jwt.
Qed.

(** A rate limit on the check of a pair is reported as a pair that is not
    supported. *)
Lemma rate_limited_unsupported get symbol json :
  get ("https://api.exchange.coinbase.com/products/" +:+ symbol)%string = Ok (mk_rest TOO_MANY_REQUESTS json) ->
  rest_lists_symbol get Coinbase symbol = Ok false.
Proof. intros Hg. unfold rest_lists_symbol. by rewrite Hg. Qed.
(** A handshake that is refused for too many requests waits the longer delay. *)
Lemma rate_limited_handshake {C} status msg :
  PriceReporter.is_rate_limit_error (ExchangeConnection RateLimited) = true /\
  (ws_connect (C := C) (inr (WsHttp status msg)) = Err RateLimited <-> status = TOO_MANY_REQUESTS).
Proof.
  split; [done|]. cbn. destruct (Z.eqb_spec status TOO_MANY_REQUESTS); split; try done; by intros [=].
Qed.
End Connections.

(** ** A task that panics (price_stream_manager.rs)

    The stream is removed from the map after the task of its pair returns; a
    task that panics is dropped before that, and its sender with it. *)
Definition task_panic (id : nat) (s : streams) : streams :=
  PriceReporter.mk_streams (price_streams s) (delete id (tasks s)).

(** The stream of a pair whose task panicked stays in the map: later requests
    are handed its receiver, whose sender is gone, and no task is started. *)
Theorem panicked_stream_stays `{TL : TokenLib} lists s p id :
  price_streams s !! key p = Some id ->
  tasks (task_panic id s) !! id = None /\
  get_or_create_price_receiver lists p (task_panic id s) = (Ok id, task_panic id s).
Proof.
  intros Hp. split; [apply lookup_delete_eq|]. unfold get_or_create_price_receiver. cbn. by rewrite Hp.
Qed.

(** ** The age of a feed (price_stream_manager.rs) *)
(** Milliseconds; the value of the gauge, if one is set. *)
Definition feed_age (last_ms now_ms : Z) : option f64 :=
  if last_ms =? 0 then None else Some (fdiv (of_Z (Z.max 0 (now_ms - last_ms))) (of_Z 1000)).

(** ** The loop of the process (main.rs) *)
Inductive main_event := Accepted (r : res string unit) | StreamClosed (r : res ServerError unit).
(** Connections served so far, and the result when the loop ends.  A branch of
    [select!] whose pattern does not match is out until the next turn, so that
    after a failed accept ([accepting] is off) only a closure is waited for. *)
Fixpoint main_loop (events : list main_event) (accepting : bool) (served : nat)
    : nat * option (res ServerError unit) :=
  match events with
  | [] => (served, None)
  | Accepted (Ok _) :: events =>
      if accepting then main_loop events true (S served) else main_loop events false served
  | Accepted _ :: events => main_loop events false served
  | StreamClosed (Err e) :: _ => (served, Some (Ok tt))
  | StreamClosed _ :: events => main_loop events true served
  end.
(** The first stream that fails ends the process, and with success. *)
Lemma failed_stream_exits pre e post accepting served :
  Forall (fun ev => match ev with StreamClosed (Err _) => False | _ => True end) pre ->
  (main_loop (pre ++ StreamClosed (Err e) :: post) accepting served).2 = Some (Ok tt).
Proof.
  revert accepting served. induction pre as [|ev pre IH]; intros accepting served Hp; [done|].
  apply Forall_cons in Hp as [Hev Hp]. destruct ev as [[]|[]]; cbn; try done; try by apply IH.
  destruct accepting; by apply IH.
Qed.
(** After an accept that failed no connection is served until a stream is closed. *)
Theorem failed_accept_stops_serving e accepts accepting served :
  main_loop (Accepted (Err e) :: (Accepted <$> accepts)) accepting served = (served, None).
Proof. cbn. induction accepts as [|[] accepts IH]; cbn; done. Qed.

(** ** Witnesses *)
Module PriceFeedsWitness.
Import PriceServerWitness.
#[local] Existing Instance tokens.
Definition usdc1 : Token := mk_token "0xbb" ArbitrumOne.
Definition weth1 : Token := mk_token "0xaa" ArbitrumOne.
Definition config1 : ExchangeConnectionsConfig := mk_conn_config (Some "name") (Some "secret") None.

(** A stream that is no longer wanted, and one that is kept. *)
Definition old1 : streams :=
  (PriceReporter.init_price_stream ("exchange", "OLD", "USDC") 1
    (PriceReporter.init_price_stream ("exchange", "WETH", "USDC") 0 PriceReporter.streams_new).2)%string.2.
Definition refresh1 :=
  refresh_token_mapping [Coinbase] usdc1 [weth1] (fun _ => usdc1) (fun l => l) (Ok tt) config1 [] old1.
Definition spawned1 : list PairInfo :=
  [mk_pair Coinbase "USDC" "USDC" ArbitrumOne; mk_pair Coinbase "WETH" "USDC" ArbitrumOne].

Lemma refresh_converges_witness :
  price_streams refresh1.2 !! ("exchange", "WETH", "USDC")%string = Some 0%nat.
Proof.
  assert (refresh1 = (Ok spawned1, refresh1.2)) as Hr by (vm_compute; reflexivity).
  destruct (refresh_converges lists ∅ [Coinbase] usdc1 [weth1] (fun _ => usdc1) (fun l => l)
    (fun l => reflexivity l) (Ok tt) config1 [] old1 spawned1 refresh1.2 Hr) as [H _].
  { do 2 (constructor; [split; [discriminate|vm_compute; reflexivity]|]). constructor. }
  apply H. split; [vm_compute; reflexivity|].
  exists (weth1, Coinbase), (mk_pair Coinbase "WETH" "USDC" ArbitrumOne).
  split_and!; [|vm_compute; reflexivity..]. apply (bool_decide_unpack _). vm_compute. reflexivity.
Defined.

Definition encode1 (kid : string) (c : CoinbaseJwtClaims) (k : string) : res string string := Ok kid.
Definition turn1 : turn := mk_turn false (Ok tt, Ok tt) 45.
Definition loop1 := resubscription_loop (fun s => Ok s) encode1 100 [turn1; turn1] "BTC-USDC" config1 [].
Lemma resubscriptions_authenticated_witness : length loop1 = 4%nat.
Proof.
  destruct (resubscriptions_authenticated (fun s => Ok s) encode1 100 [turn1; turn1] "BTC-USDC" config1 [])
    as (l & Hl & _ & _ & H).
  { repeat constructor; discriminate. }
  unfold loop1. rewrite Hl. apply H; [repeat constructor|]. intros n. eexists. reflexivity.
Defined.

Lemma panicked_stream_stays_witness :
  (get_or_create_price_receiver lists (mk_pair Coinbase "WETH" "USDC" ArbitrumOne) (task_panic 0 old1)).1 = Ok 0%nat.
Proof.
  assert (price_streams old1 !! key (mk_pair Coinbase "WETH" "USDC" ArbitrumOne) = Some 0%nat) as Hp
    by (vm_compute; reflexivity).
  rewrite (proj2 (panicked_stream_stays lists old1 (mk_pair Coinbase "WETH" "USDC" ArbitrumOne) 0 Hp)).
  reflexivity.
Defined.
End PriceFeedsWitness.
