(* ===== verification/Compliance.v ===== *)
(** * Compliance server: cached screening of wallets

    The compliance service (compliance/compliance-server/src/ and
    compliance-api): a table of verdicts with an expiry (db.rs), the screening
    of an address at Chainalysis (chainalysis_api.rs), and the request handler
    that joins them (main.rs).  The table is keyed by its primary key, the
    address.  What the database, the connection pool, Chainalysis and the clock
    do for one request is the [env] of the request.  Requests run
    concurrently: [task_step] takes the handler apart where it can be
    interrupted, and [system_run] interleaves the requests.  Times are
    nanoseconds; the columns hold microseconds. *)
From Stdlib Require Import ZArith Lia String.
From stdpp Require Import gmap strings list.
From S2P Require Import Prelude.
Open Scope Z_scope.

(** ** Data *)
Inductive ComplianceServerError :=
  | Db (e : string)
  | Chainalysis (e : string).
Inductive ComplianceStatus := Compliant | NotCompliant (reason : string).
Record ComplianceEntry := mk_entry {
  ce_address : string; is_compliant : bool; risk_level : string; reason : string;
  created_at : Z; expires_at : Z }.
Record RiskAssessmentResponse := mk_assessment {
  ra_address : string; risk : string; risk_reason : option string }.

(** Seven days. *)
Definition DEFAULT_EXPIRATION_DURATION : Z := 7 * 86400 * 10 ^ 9.

(** A timestamp as the column keeps it: whole microseconds, truncated. *)
Definition pg_time (t : Z) : Z := t / 1000 * 1000.
Definition stored (e : ComplianceEntry) : ComplianceEntry :=
  mk_entry (ce_address e) (is_compliant e) (risk_level e) (reason e)
    (pg_time (created_at e)) (pg_time (expires_at e)).

Definition entry_new (now : Z) (address : string) (compliant : bool) (level why : string) : ComplianceEntry :=
  mk_entry address compliant level why now (now + DEFAULT_EXPIRATION_DURATION).
Definition compliance_status (e : ComplianceEntry) : ComplianceStatus :=
  if is_compliant e then Compliant else NotCompliant (reason e).
Definition is_expired (now : Z) (e : ComplianceEntry) : bool := expires_at e <? now.

(** Low and medium risks pass, high and severe ones do not, and a level that
    is none of the four passes. *)
Definition as_compliance_entry (now : Z) (r : RiskAssessmentResponse) : ComplianceEntry :=
  let compliant :=
    if String.eqb (risk r) "Low" || String.eqb (risk r) "Medium" then true
    else if String.eqb (risk r) "High" || String.eqb (risk r) "Severe" then false
    else true in
  entry_new now (ra_address r) compliant (risk r) (default ""%string (risk_reason r)).

(** ** State, and the surroundings of one request

    [w_screened] records what Chainalysis was asked and answered, with the
    time the entry was made from the answer. *)
Record screening := mk_screening { s_asked : string; s_reply : RiskAssessmentResponse; s_at : Z }.
Record world := mk_world { w_table : gmap string ComplianceEntry; w_screened : list screening }.
Record env := mk_env {
  e_pool : res string unit;          (* [pool.get] *)
  e_select : res string unit;        (* the query by address *)
  e_read_now : Z;                    (* the clock of [is_expired] *)
  e_register : string -> res string unit;
  e_assess : string -> res string RiskAssessmentResponse;
  e_created : Z;                     (* the clock of [ComplianceEntry::new] *)
  e_upsert : res string unit }.

Abbreviation M := (eff world ComplianceServerError).

(** ** Queries *)
Definition get_compliance_entry (env : env) (address : string) : M (option ComplianceEntry) :=
  _ ← lift (map_err Db (e_select env));
  row ← gets (fun w => w_table w !! address);
  match row with
  | Some entry => if is_expired (e_read_now env) entry then mret None else mret (Some entry)
  | None => mret None
  end.
Definition upsert_compliance_entry (env : env) (entry : ComplianceEntry) : M unit :=
  _ ← lift (map_err Db (e_upsert env));
  modify (fun w => mk_world (<[ce_address entry := stored entry]> (w_table w)) (w_screened w)).

(** ** Chainalysis *)
Definition register_addr (env : env) (wallet_address : string) : M unit :=
  lift (map_err Chainalysis (e_register env wallet_address)).
Definition query_risk_assessment (env : env) (wallet_address : string) : M RiskAssessmentResponse :=
  r ← lift (map_err Chainalysis (e_assess env wallet_address));
  _ ← modify (fun w => mk_world (w_table w) (w_screened w ++ [mk_screening wallet_address r (e_created env)]));
  mret r.
Definition query_chainalysis (env : env) (wallet_address : string) : M ComplianceEntry :=
  _ ← register_addr env wallet_address;
  r ← query_risk_assessment env wallet_address;
  mret (as_compliance_entry (e_created env) r).

(** ** The handler *)
Definition check_wallet_compliance (env : env) (wallet_address : string) : M ComplianceStatus :=
  _ ← lift (map_err Db (e_pool env));
  cached ← get_compliance_entry env wallet_address;
  match cached with
  | Some e => mret (compliance_status e)
  | None =>
      e ← query_chainalysis env wallet_address;
      _ ← upsert_compliance_entry env e;
      mret (compliance_status e)
  end.

(** Replies: the verdict, [PONG], or what warp makes of a rejection: a custom
    rejection no filter recovers is a 500. *)
Inductive reply :=
  | Verdict (st : ComplianceStatus)
  | Pong
  | Failed (code : Z).
Definition handle_req (env : env) (wallet_address : string) (w : world) : reply * world :=
  match check_wallet_compliance env wallet_address w with
  | (Ok st, w) => (Verdict st, w)
  | (_, w) => (Failed 500, w)
  end.
(** The routes look at the first segments of a path only. *)
Definition routes (env : env) (is_get : bool) (path : list string) (w : world) : reply * world :=
  if negb is_get then (Failed 405, w) else
  match path with
  | v :: rest =>
      if String.eqb v "v0" then
        match rest with
        | c :: addr :: _ =>
            if String.eqb c "check-compliance" && negb (String.eqb addr "") then handle_req env addr w
            else (Failed 404, w)
        | _ => (Failed 404, w)
        end
      else if String.eqb v "ping" then (Pong, w) else (Failed 404, w)
  | [] => (Failed 404, w)
  end.

(** ** Concurrent requests

    A handler is interrupted at its calls; it holds what it has read. *)
Inductive task :=
  | TRead (a : string)
  | TScreen (a : string)
  | TStore (a : string) (e : ComplianceEntry)
  | TDone (a : string) (r : res ComplianceServerError ComplianceStatus) (at_ : Z).
Definition task_step (env : env) (t : task) (w : world) : task * world :=
  match t with
  | TRead a =>
      match (_ ← lift (map_err Db (e_pool env)); get_compliance_entry env a) w with
      | (Ok (Some e), w) => (TDone a (Ok (compliance_status e)) (e_read_now env), w)
      | (Ok None, w) => (TScreen a, w)
      | (Err e, w) => (TDone a (Err e) (e_read_now env), w)
      | (Panic, w) => (TDone a Panic (e_read_now env), w)
      end
  | TScreen a =>
      match query_chainalysis env a w with
      | (Ok e, w) => (TStore a e, w)
      | (Err e, w) => (TDone a (Err e) (e_created env), w)
      | (Panic, w) => (TDone a Panic (e_created env), w)
      end
  | TStore a e =>
      match upsert_compliance_entry env e w with
      | (Ok _, w) => (TDone a (Ok (compliance_status e)) (created_at e), w)
      | (Err er, w) => (TDone a (Err er) (created_at e), w)
      | (Panic, w) => (TDone a Panic (created_at e), w)
      end
  | TDone _ _ _ => (t, w)
  end.

(** The tasks of the server: requests arrive and tasks take steps. *)
Inductive label := Request (a : string) | Turn (id : nat) (env : env).
Definition system : Type := list task * world.
Definition system_step (l : label) (s : system) : system :=
  match l with
  | Request a => (s.1 ++ [TRead a], s.2)
  | Turn id env =>
      match s.1 !! id with
      | Some t => let out := task_step env t s.2 in (<[id := out.1]> s.1, out.2)
      | None => s
      end
  end.
Definition system_run (ls : list label) (s : system) : system := foldl (fun s l => system_step l s) s ls.
Definition system_new : system := ([], mk_world ∅ []).

Definition result_of (t : task) : option (res ComplianceServerError ComplianceStatus) :=
  match t with TDone _ r _ => Some r | _ => None end.

(** Opens the handler down to the outcomes of its calls. *)
Ltac open_check :=
  unfold handle_req, check_wallet_compliance, get_compliance_entry, query_chainalysis, register_addr,
    query_risk_assessment, upsert_compliance_entry, lift, modify, gets, mret, eff_ret, mbind, eff_bind.

(** Alone, a task takes the steps of the handler. *)
Lemma task_runs_handler env a w :
  let turn := fun tw => task_step env tw.1 tw.2 in
  let out := turn (turn (turn (TRead a, w))) in
  (result_of out.1, out.2) =
    (Some (check_wallet_compliance env a w).1, (check_wallet_compliance env a w).2).
Proof.
  cbn. open_check.
  destruct (e_pool env) as [[]|er|]; cbn; [|done..].
  destruct (e_select env) as [[]|er|] eqn:Es; cbn; [|done..].
  destruct (w_table w !! a) as [e|]; [destruct (is_expired _ _)|]; cbn; try done;
    open_check;
    cbn; (destruct (e_register env a) as [[]|er|]; cbn; [|done..]);
    (destruct (e_assess env a) as [r|er|]; cbn; [|done..]);
    open_check;
    (destruct (e_upsert env) as [[]|er|]; cbn; [|done..]); done.
Qed.

(** ** What an assessment says *)
Definition blocked (r : RiskAssessmentResponse) : Prop :=
  risk r = "High"%string \/ risk r = "Severe"%string.
(** The status an assessment justifies. *)
Definition justified (r : RiskAssessmentResponse) (st : ComplianceStatus) : Prop :=
  (blocked r /\ st = NotCompliant (default ""%string (risk_reason r))) \/
  (~ blocked r /\ st = Compliant).

Lemma as_entry_justified now r : justified r (compliance_status (as_compliance_entry now r)).
Proof.
  unfold justified, blocked, compliance_status, as_compliance_entry, entry_new. cbn.
  destruct (String.eqb_spec (risk r) "Low") as [->|?]; [right; by split; [intros [?|?]|]|].
  destruct (String.eqb_spec (risk r) "Medium") as [->|?]; [right; by split; [intros [?|?]|]|].
  destruct (String.eqb_spec (risk r) "High"), (String.eqb_spec (risk r) "Severe"); cbn; naive_solver.
Qed.

Lemma pg_time_le t : t - 1000 < pg_time t <= t.
Proof. unfold pg_time. pose proof (Z.div_mod t 1000). pose proof (Z.mod_pos_bound t 1000). lia. Qed.

(** ** Every verdict is justified *)
Definition from_screening (s : screening) : ComplianceEntry := as_compliance_entry (s_at s) (s_reply s).
(** Rows come from screenings, under the address Chainalysis answered with. *)
Definition rows_screened (w : world) : Prop :=
  forall k e, w_table w !! k = Some e ->
    exists s, s ∈ w_screened w /\ ra_address (s_reply s) = k /\ e = stored (from_screening s).
Definition task_ok (w : world) (t : task) : Prop :=
  match t with
  | TStore a e => exists s, s ∈ w_screened w /\ s_asked s = a /\ e = from_screening s
  | TDone a (Ok st) t => exists s, s ∈ w_screened w /\ (s_asked s = a \/ ra_address (s_reply s) = a) /\
      justified (s_reply s) st /\ t <= s_at s + DEFAULT_EXPIRATION_DURATION
  | _ => True
  end.
Definition system_ok (s : system) : Prop := rows_screened s.2 /\ Forall (task_ok s.2) s.1.

Lemma task_ok_mono w w' t : w_screened w ⊆ w_screened w' -> task_ok w t -> task_ok w' t.
Proof. intros H. destruct t as [| | |a [st|e|] at_]; cbn; naive_solver. Qed.

Lemma task_step_ok env t w :
  rows_screened w -> task_ok w t ->
  let out := task_step env t w in
  rows_screened out.2 /\ task_ok out.2 out.1 /\ w_screened w ⊆ w_screened out.2.
Proof.
  intros Hw Ht. destruct t as [a|a|a e|a r at_]; cbn.
  - open_check.
    destruct (e_pool env) as [[]|er|]; cbn; [|done..].
    destruct (e_select env) as [[]|er|]; cbn; [|done..].
    destruct (w_table w !! a) as [e|] eqn:He; [|done].
    destruct (is_expired _ _) eqn:Hexp; cbn; [done|]. split_and!; [done| |done].
    destruct (Hw _ _ He) as (s & Hs & Ha & ->). exists s. split_and!; [done|by right| |].
    + apply as_entry_justified.
    + apply Z.ltb_ge in Hexp. cbn in Hexp. pose proof (pg_time_le (s_at s + DEFAULT_EXPIRATION_DURATION)). lia.
  - open_check.
    destruct (e_register env a) as [[]|er|]; cbn; [|done..].
    destruct (e_assess env a) as [r|er|]; cbn; [|done..].
    split_and!; [|exists (mk_screening a r (e_created env)); split_and!; [set_solver|done|done]|set_solver].
    intros k e He. destruct (Hw k e He) as (s & ? & ?). exists s. split; [set_solver|done].
  - open_check.
    destruct (e_upsert env) as [[]|er|]; cbn; [|done..].
    destruct Ht as (s & Hs & Ha & ->). split_and!; [|exists s; split_and!|done].
    + intros k e. cbn. rewrite lookup_insert_Some. intros [[<- <-]|[_ He]]; [by exists s|by apply Hw].
    + done.
    + by left.
    + apply as_entry_justified.
    + cbn. unfold DEFAULT_EXPIRATION_DURATION. lia.
  - done.
Qed.

Lemma system_step_ok l s : system_ok s -> system_ok (system_step l s).
Proof.
  destruct s as [ts w]. intros [Hw Hts]. destruct l as [a|id env]; cbn.
  - split; [done|]. cbn in *. apply Forall_app. by repeat constructor.
  - destruct (ts !! id) as [t|] eqn:Ht; [|done].
    destruct (task_step_ok env t w Hw) as (Hw' & Ht' & Hmono); [by eapply Forall_lookup_1|].
    split; [done|]. cbn. apply Forall_insert; [|done].
    eapply Forall_impl; [exact Hts|]. intros t'. by apply task_ok_mono.
Qed.

Lemma system_run_ok ls s : system_ok s -> system_ok (system_run ls s).
Proof. revert s. induction ls as [|l ls IH]; intros s Hs; [done|]. apply IH, system_step_ok, Hs. Qed.

(** C25. Under every interleaving of requests, with failures anywhere, a wallet is
    answered with the verdict that an assessment by Chainalysis justifies: one
    asked for that wallet or answered under its address, made at most seven
    days before the clock of the answer; compliant exactly when the assessed
    risk is neither high nor severe. *)
Theorem verdicts_justified ls ts w a st t :
  system_run ls system_new = (ts, w) -> TDone a (Ok st) t ∈ ts ->
  exists s, s ∈ w_screened w /\ (s_asked s = a \/ ra_address (s_reply s) = a) /\
    justified (s_reply s) st /\ t <= s_at s + DEFAULT_EXPIRATION_DURATION.
Proof.
  intros Hrun Hin. destruct (system_run_ok ls system_new) as [_ Hts]; [by split|].
  rewrite Hrun in Hts. by apply (proj1 (Forall_forall _ _) Hts) in Hin.
Qed.

(** ** How often an address is screened

    Requests one after the other, on a clock that does not go back. *)
Definition serve_all (reqs : list (env * string)) (w : world) : world :=
  foldl (fun w r => (handle_req r.1 r.2 w).2) w reqs.
(** Chainalysis answers with the address it was asked, and the entry is stored. *)
Definition env_ok (env : env) : Prop :=
  (forall a r, e_assess env a = Ok r -> ra_address r = a) /\ e_upsert env = Ok tt /\
  e_read_now env <= e_created env.
(** [now] bounds the clock so far. *)
Fixpoint clocks (now : Z) (reqs : list (env * string)) : Prop :=
  match reqs with
  | [] => True
  | (env, _) :: reqs => now <= e_read_now env /\ clocks (e_created env) reqs
  end.
(** The last screening of every address is in the table, and screenings of one
    address are a validity apart. *)
Definition spaced (l : list screening) : Prop :=
  forall i j x y, l !! i = Some x -> l !! j = Some y -> (i < j)%nat -> s_asked x = s_asked y ->
    s_at x + DEFAULT_EXPIRATION_DURATION - 1000 < s_at y.
Definition cached (w : world) : Prop :=
  forall s, s ∈ w_screened w -> exists e, w_table w !! s_asked s = Some e /\
    s_at s + DEFAULT_EXPIRATION_DURATION - 1000 < expires_at e.

Lemma screenings_snoc l s :
  spaced l -> (forall x, x ∈ l -> s_asked x = s_asked s -> s_at x + DEFAULT_EXPIRATION_DURATION - 1000 < s_at s) ->
  spaced (l ++ [s]).
Proof.
  intros Hl Hs i j x y Hi Hj Hij Ha.
  apply lookup_app_Some in Hj as [Hj|[Hlen Hj]].
  - assert (j < length l)%nat by (by eapply lookup_lt_Some).
    rewrite lookup_app_l in Hi by lia. by eapply Hl.
  - destruct (j - length l)%nat eqn:E; [|done]. cbn in Hj. injection Hj as <-.
    rewrite lookup_app_l in Hi by lia. apply Hs; [|done]. by eapply list_elem_of_lookup_2.
Qed.

(** One request: either nothing is screened, or a miss is screened and stored. *)
Lemma handle_req_cases env a w :
  env_ok env -> spaced (w_screened w) -> cached w -> Forall (fun s => s_at s <= e_read_now env) (w_screened w) ->
  let w' := (handle_req env a w).2 in
  spaced (w_screened w') /\ cached w' /\ Forall (fun s => s_at s <= e_created env) (w_screened w').
Proof.
  intros (Hecho & Hup & Hclk) Hsp Hc Hnow.
  assert (Hsame : spaced (w_screened w) /\ cached w /\ Forall (fun s => s_at s <= e_created env) (w_screened w)).
  { split_and!; [done..|]. eapply Forall_impl; [exact Hnow|]. cbn. lia. }
  open_check.
  destruct (e_pool env) as [[]|er|]; cbn; [|done..].
  destruct (e_select env) as [[]|er|]; cbn; [|done..].
  set (row := w_table w !! a).
  destruct (match row with Some entry => is_expired (e_read_now env) entry | None => true end) eqn:Hmiss.
  2: { destruct row as [e|]; [|done]. by rewrite Hmiss. }
  assert (Hold : forall x, x ∈ w_screened w -> s_asked x = a ->
            s_at x + DEFAULT_EXPIRATION_DURATION - 1000 < e_created env).
  { intros x Hx <-. destruct (Hc x Hx) as (e & He & Hexp). subst row. rewrite He in Hmiss.
    apply Z.ltb_lt in Hmiss. lia. }
  replace (match row with Some entry => if is_expired (e_read_now env) entry then _ else _ | None => _ end)
    with (fun s : world => (Ok None, s) : res ComplianceServerError (option ComplianceEntry) * world)
    by (destruct row; [by rewrite Hmiss|done]).
  cbn. destruct (e_register env a) as [[]|er|]; cbn; [|done..].
  destruct (e_assess env a) as [r|er|] eqn:Hr; cbn; [|done..].
  rewrite Hup. cbn. apply Hecho in Hr. split_and!.
  - apply screenings_snoc; [done|]. cbn. intros x Hx Ha. by apply Hold.
  - intros s Hs. cbn in *. rewrite Hr. destruct (decide (s_asked s = a)) as [->|Hne].
    + eexists. rewrite lookup_insert_eq. split; [done|]. cbn.
      pose proof (pg_time_le (e_created env + DEFAULT_EXPIRATION_DURATION)).
      apply elem_of_app in Hs as [Hs|Hs%list_elem_of_singleton].
      * pose proof (proj1 (Forall_forall _ _) Hnow s Hs). cbn in *. lia.
      * subst s. cbn. lia.
    + rewrite lookup_insert_ne by done. apply elem_of_app in Hs as [Hs|Hs%list_elem_of_singleton]; [by apply Hc|].
      by subst s.
  - apply Forall_app. split; [|by repeat constructor]. eapply Forall_impl; [exact Hnow|]. cbn. lia.
Qed.

(** When Chainalysis answers with the address it was asked and entries are
    stored, requests on a clock that does not go back screen one address at
    most once in seven days (less the microsecond the column truncates),
    whatever else fails. *)
Theorem screened_once_a_week now reqs :
  Forall (fun r => env_ok r.1) reqs -> clocks now reqs ->
  spaced (w_screened (serve_all reqs (mk_world ∅ []))).
Proof.
  assert (H : forall now w, Forall (fun r => env_ok r.1) reqs -> clocks now reqs -> spaced (w_screened w) ->
    cached w -> Forall (fun s => s_at s <= now) (w_screened w) -> spaced (w_screened (serve_all reqs w))).
  { induction reqs as [|[env a] reqs IH]; intros now' w Hok Hclk Hsp Hc Hnow; [done|].
    apply Forall_cons in Hok as [He Hok]. destruct Hclk as [Hn Hclk]. cbn [serve_all foldl].
    destruct (handle_req_cases env a w) as (? & ? & ?); [done..| |].
    - eapply Forall_impl; [exact Hnow|]. cbn. lia.
    - by eapply IH. }
  intros Hok Hclk. eapply H; [done|done| |by intros ? ?%elem_of_nil|done].
  intros i j x y Hi. cbn in Hi. by rewrite lookup_nil in Hi.
Qed.

(** When Chainalysis answers under another spelling of the address, the entry
    is stored under that spelling and the request never hits it: every
    request for the address is screened again. *)
Theorem respelled_address_never_cached reqs a w :
  w_table w !! a = None ->
  Forall (fun r => r.2 = a /\ e_pool r.1 = Ok tt /\ e_select r.1 = Ok tt /\ e_register r.1 a = Ok tt /\
    exists x, e_assess r.1 a = Ok x /\ ra_address x <> a) reqs ->
  length (w_screened (serve_all reqs w)) = (length (w_screened w) + length reqs)%nat.
Proof.
  revert w. induction reqs as [|[env b] reqs IH]; intros w Hw Hf; [cbn; lia|].
  apply Forall_cons in Hf as [(Hb & Hp & Hs & Hr & x & Hx & Hne) Hf]. cbn in Hb. subst b. cbn [serve_all foldl].
  change (foldl _ ?w0 reqs) with (serve_all reqs w0). cbn in Hp, Hs, Hr, Hx.
  assert (Hlen : exists w1, (handle_req (env, a).1 (env, a).2 w).2 = w1 /\ w_table w1 !! a = None /\
    length (w_screened w1) = S (length (w_screened w))).
  { eexists. split; [reflexivity|]. cbn.
    open_check.
    rewrite Hp, Hs. cbn. rewrite Hw, Hr. cbn. rewrite Hx. cbn.
    destruct (e_upsert env) as [[]|er|]; cbn; rewrite length_app; cbn; split; try done; try lia.
    by rewrite lookup_insert_ne. }
  destruct Hlen as (w1 & -> & Hw1 & Hlen). rewrite IH, Hlen by done. cbn. lia.
Qed.

(** ** Witnesses *)
Module ComplianceWitness.
Definition answer (level : string) (a : string) : res string RiskAssessmentResponse :=
  Ok (mk_assessment a level (Some "sanctions"%string)).
Definition at_time (t : Z) (level : string) : env :=
  mk_env (Ok tt) (Ok tt) t (fun _ => Ok tt) (answer level) t (Ok tt).
Definition day : Z := 86400 * 10 ^ 9.

(** Two concurrent requests for one wallet are both screened. *)
Definition interleaved : list label :=
  [Request "0xaa"; Request "0xaa"; Turn 0 (at_time 5 "High"); Turn 1 (at_time 6 "High");
   Turn 0 (at_time 7 "High"); Turn 1 (at_time 8 "Low"); Turn 1 (at_time 9 "Low"); Turn 0 (at_time 9 "High")]%string.
Example concurrent_screenings :
  (system_run interleaved system_new).1 =
    [TDone "0xaa" (Ok (NotCompliant "sanctions")) 7; TDone "0xaa" (Ok Compliant) 8]%string /\
  length (w_screened (system_run interleaved system_new).2) = 2%nat.
Proof. split; vm_compute; reflexivity. Qed.

Lemma verdicts_justified_witness :
  exists s, s ∈ w_screened (system_run interleaved system_new).2 /\
    (s_asked s = "0xaa"%string \/ ra_address (s_reply s) = "0xaa"%string) /\
    justified (s_reply s) (NotCompliant "sanctions") /\ 7 <= s_at s + DEFAULT_EXPIRATION_DURATION.
Proof.
  apply (verdicts_justified interleaved (system_run interleaved system_new).1 _ "0xaa" _ 7).
  - apply surjective_pairing.
  - destruct concurrent_screenings as [-> _]. left.
Defined.

Definition weekly : list (env * string) :=
  [(at_time day "Low", "0xaa"%string); (at_time (3 * day) "Low", "0xaa"%string); (at_time (9 * day) "High", "0xaa"%string)].
Lemma screened_once_a_week_witness :
  length (w_screened (serve_all weekly (mk_world ∅ []))) = 2%nat /\
  spaced (w_screened (serve_all weekly (mk_world ∅ []))).
Proof.
  split; [vm_compute; reflexivity|]. apply (screened_once_a_week 0 weekly).
  - repeat (apply Forall_cons; split; [split_and!; [intros a r; unfold at_time; cbn; intros [= <-]; reflexivity|reflexivity|unfold at_time; cbn; lia]|]).
    apply Forall_nil_2.
  - cbn. unfold day. lia.
Defined.

(** A wallet asked for in lower case and answered with its checksum spelling. *)
Definition respelled (t : Z) : env :=
  mk_env (Ok tt) (Ok tt) t (fun _ => Ok tt) (fun _ => answer "Low" "0xAa") t (Ok tt).
Example respelled_screened_each_time :
  length (w_screened (serve_all [(respelled 1, "0xaa"%string); (respelled 2, "0xaa"%string)] (mk_world ∅ []))) = 2%nat /\
  (routes (at_time 1 "Severe") true ["v0"; "check-compliance"; "0xaa"; "more"]%string (mk_world ∅ [])).1 =
    Verdict (NotCompliant "sanctions").
Proof. split; vm_compute; reflexivity. Qed.
End ComplianceWitness.
