(* ===== verification/Indexer.v ===== *)
(** * Darkpool indexer

    The indexer (indexer/darkpool-indexer/src/) keeps a view of the darkpool
    state of registered accounts in a database, fed by messages of an SQS
    queue.  This file models its types (types.rs), their database rows and the
    conversions between them (db/models.rs, db/utils.rs), the queries
    (db/interface/), the message handlers with their transactions
    (api/handlers/sqs.rs) and the consumer that groups messages and runs the
    groups concurrently (main.rs).

    Scalars, hashes, the CSPRNG of renegade and alloy's addresses are the
    parameters of the class [Darkpool].  A transaction is atomic: the tables
    have primary keys, and what a concurrent transaction can do to another one
    is make a query of it fail, which every query may do.  The code of the
    repository is unfinished where it says [todo!()], which panics. *)
From Stdlib Require Import ZArith Lia String.
From stdpp Require Import gmap strings list.
From S2P Require Import Prelude.
Open Scope Z_scope.

(** ** What the code takes from elsewhere *)
Class Darkpool := {
  Scalar : Type;
  to_biguint : Scalar -> Z;
  from_biguint : Z -> Scalar;
  to_bytes_be : Scalar -> list Z;
  from_be_bytes_mod_order : list Z -> Scalar;
  keccak256 : list Z -> list Z;
  compute_poseidon_hash : list Scalar -> Scalar;
  (** the [i]th value of the stream of a seed *)
  csprng_ith : Scalar -> Z -> Scalar;
  Address : Type;
  address_to_string : Address -> string;
  address_from_str : string -> option Address;
  (** a scalar is the number below the modulus that stands for it *)
  to_biguint_nonneg : forall x, 0 <= to_biguint x;
  from_to_biguint : forall x, from_biguint (to_biguint x) = x;
  address_from_to : forall a, address_from_str (address_to_string a) = Some a }.

(** ** Numbers of the database *)
Record BigDecimal := mk_bd { bd_int : Z; bd_scale : Z }.
Definition bd_of (z : Z) : BigDecimal := mk_bd z 0.
(** [ToPrimitive]: truncates, and refuses what is negative or too large. *)
Definition bd_to_u (w : Z) (b : BigDecimal) : option Z :=
  if bd_int b <? 0 then None
  else let v := if 0 <=? bd_scale b then bd_int b / 10 ^ bd_scale b else bd_int b * 10 ^ (- bd_scale b) in
       if v <? 2 ^ w then Some v else None.

Lemma bd_to_u_of w z : in_u w z -> bd_to_u w (bd_of z) = Some z.
Proof.
  unfold in_u, bd_to_u. cbn. intros [H0 H1].
  destruct (Z.ltb_spec z 0); [lia|]. cbn. rewrite Z.div_1_r. by destruct (Z.ltb_spec z (2 ^ w)); [|lia].
Qed.

(** ** Errors *)
Inductive DbError :=
  | ClientSetup (e : string)
  | PoolConnection (e : string)
  | Query (e : string)
  | DieselError (e : string).
Inductive HandlerError :=
  | HDb (e : DbError)
  | Sqs (e : string)
  | Rpc (e : string)
  | Parse (e : string)
  | Serde (e : string).

Inductive StateObjectType := Intent_ | Balance_.
#[export] Instance state_object_type_eq : EqDecision StateObjectType.
Proof. solve_decision. Defined.
(** The SQL enum of the object type. *)
Inductive DbStateObjectType := DbIntent | DbBalance.
Definition to_sql (t : DbStateObjectType) : string :=
  match t with DbIntent => "intent" | DbBalance => "balance" end.
Definition from_sql (bytes : string) : option DbStateObjectType :=
  if String.eqb bytes "intent" then Some DbIntent
  else if String.eqb bytes "balance" then Some DbBalance else None.
Definition db_of_type (t : StateObjectType) : DbStateObjectType :=
  match t with Intent_ => DbIntent | Balance_ => DbBalance end.
Definition type_of_db (t : DbStateObjectType) : StateObjectType :=
  match t with DbIntent => Intent_ | DbBalance => Balance_ end.

Lemma type_of_db_of_type t : type_of_db (db_of_type t) = t.
Proof. by destruct t. Qed.
Lemma from_to_sql t : from_sql (to_sql t) = Some t.
Proof. by destruct t. Qed.

Section Indexer.
Context {D : Darkpool}.

(** ** Types (types.rs) *)
Record PoseidonCSPRNG := mk_csprng { cs_seed : Scalar; cs_index : Z }.
Definition csprng_new (seed : Scalar) : PoseidonCSPRNG := mk_csprng seed 0.
Definition get_ith (c : PoseidonCSPRNG) (i : Z) : Scalar := csprng_ith (cs_seed c) i.
Definition advance_by (n : Z) (c : PoseidonCSPRNG) : PoseidonCSPRNG := mk_csprng (cs_seed c) (cs_index c + n).
(** The next [n] values of the iterator. *)
Definition csprng_take (n : nat) (c : PoseidonCSPRNG) : list Scalar :=
  (fun i => get_ith c (cs_index c + Z.of_nat i)) <$> seq 0 n.

(** A message is hashed twice and the two digests are reduced together. *)
Definition hash_to_scalar (msg : list Z) : Scalar :=
  let msg_hash := keccak256 msg in
  from_be_bytes_mod_order (msg_hash ++ keccak256 msg_hash).
Definition bytes_of (s : string) : list Z :=
  (fun a => Z.of_N (Ascii.N_of_ascii a)) <$> list_ascii_of_string s.
Definition RECOVERY_SEED_CSPRNG_MSG : list Z := bytes_of "recovery-seed-csprng".
Definition SHARE_SEED_CSPRNG_MSG : list Z := bytes_of "share-seed-csprng".
Definition create_recovery_seed_csprng (master_view_seed : Scalar) : PoseidonCSPRNG :=
  csprng_new (hash_to_scalar (to_bytes_be master_view_seed ++ RECOVERY_SEED_CSPRNG_MSG)).
Definition create_share_seed_csprng (master_view_seed : Scalar) : PoseidonCSPRNG :=
  csprng_new (hash_to_scalar (to_bytes_be master_view_seed ++ SHARE_SEED_CSPRNG_MSG)).

Record MasterViewSeed := mk_mvs {
  mv_account_id : string; mv_owner_address : Address; mv_seed : Scalar;
  recovery_seed_csprng : PoseidonCSPRNG; share_seed_csprng : PoseidonCSPRNG }.
Definition mvs_new (account_id : string) (owner_address : Address) (seed : Scalar) : MasterViewSeed :=
  mk_mvs account_id owner_address seed (create_recovery_seed_csprng seed) (create_share_seed_csprng seed).

Record ExpectedStateObject := mk_expected {
  ex_nullifier : Scalar; ex_account_id : string; ex_owner_address : Address;
  ex_recovery_stream : PoseidonCSPRNG; ex_share_stream : PoseidonCSPRNG }.
Definition expected_new (account_id : string) (owner_address : Address)
    (recovery_stream_seed share_stream_seed : Scalar) : ExpectedStateObject :=
  let recovery_stream := csprng_new recovery_stream_seed in
  let share_stream := csprng_new share_stream_seed in
  let expected_recovery_id := get_ith recovery_stream 0 in
  let expected_nullifier := compute_poseidon_hash [expected_recovery_id; recovery_stream_seed] in
  mk_expected expected_nullifier account_id owner_address recovery_stream share_stream.

Record GenericStateObject := mk_generic {
  go_recovery_stream : PoseidonCSPRNG; go_share_stream : PoseidonCSPRNG; go_account_id : string;
  go_active : bool; go_object_type : StateObjectType; go_nullifier : Scalar; go_owner_address : Address;
  go_public_shares : list Scalar; go_private_shares : list Scalar }.
Definition generic_new (recovery_stream_seed : Scalar) (account_id : string) (object_type : StateObjectType)
    (nullifier share_stream_seed : Scalar) (owner_address : Address)
    (public_shares private_shares : list Scalar) : GenericStateObject :=
  (* new state objects are created at version 1 *)
  let recovery_stream := advance_by 1 (csprng_new recovery_stream_seed) in
  let share_stream := csprng_new share_stream_seed in
  mk_generic recovery_stream share_stream account_id true object_type nullifier owner_address
    public_shares private_shares.

(** Of renegade's circuit types. *)
Record FixedPoint := mk_fixed { repr : Scalar }.
Record Balance := mk_balance {
  b_mint : Address; b_owner : Address; relayer_fee_recipient : Address; one_time_authority : Address;
  relayer_fee_balance : Z; protocol_fee_balance : Z; b_amount : Z }.
Record Intent := mk_intent {
  in_token : Address; out_token : Address; i_owner : Address; min_price : FixedPoint; amount_in : Z }.

Record BalanceStateObject := mk_bso {
  bo_balance : Balance; bo_recovery_stream_seed : Scalar; bo_account_id : string; bo_active : bool;
  allow_public_fills : bool }.
(** [Balance::new] is of the circuit types; a new balance disallows public fills. *)
Definition bso_new (balance_new : Address -> Address -> Address -> Address -> Balance)
    (mint owner relayer_fee_recipient one_time_authority : Address) (recovery_stream_seed : Scalar)
    (account_id : string) : BalanceStateObject :=
  mk_bso (balance_new mint owner relayer_fee_recipient one_time_authority) recovery_stream_seed account_id true false.

Definition GLOBAL_MATCHING_POOL : string := "global".
Record IntentStateObject := mk_iso {
  io_intent : Intent; io_recovery_stream_seed : Scalar; io_account_id : string; io_active : bool;
  matching_pool : string; allow_external_matches : bool; min_fill_size : Z; precompute_cancellation_proof : bool }.
Definition iso_new (in_token out_token owner : Address) (min_price : FixedPoint) (amount_in : Z)
    (recovery_stream_seed : Scalar) (account_id : string) : IntentStateObject :=
  mk_iso (mk_intent in_token out_token owner min_price amount_in) recovery_stream_seed account_id true
    GLOBAL_MATCHING_POOL false amount_in false.

(** ** Conversions (db/utils.rs)

    [From] cannot fail in Rust: what does not convert panics. *)
Abbreviation R := (res DbError).
Definition scalar_to_bigdecimal (scalar : Scalar) : BigDecimal := bd_of (to_biguint scalar).
(** The scale is looked at by a [debug_assert] only. *)
Definition bigdecimal_to_scalar (b : BigDecimal) : R Scalar :=
  if bd_int b <? 0 then Panic else Ok (from_biguint (bd_int b)).
Definition fixed_point_to_bigdecimal (f : FixedPoint) : BigDecimal := bd_of (to_biguint (repr f)).
Definition bigdecimal_to_fixed_point (b : BigDecimal) : R FixedPoint :=
  r ← bigdecimal_to_scalar b; Ok (mk_fixed r).
Fixpoint scalars (l : list BigDecimal) : R (list Scalar) :=
  match l with
  | [] => Ok []
  | b :: l => x ← bigdecimal_to_scalar b; xs ← scalars l; Ok (x :: xs)
  end.
Definition parse_address (s : string) : R Address := unwrap (address_from_str s).

(** ** Rows (db/models.rs) *)
Record MasterViewSeedModel := mk_mvs_model {
  mm_account_id : string; mm_owner_address : string; mm_seed : BigDecimal;
  recovery_seed_csprng_index : BigDecimal; share_seed_csprng_index : BigDecimal }.
Definition mvs_to_model (v : MasterViewSeed) : MasterViewSeedModel :=
  mk_mvs_model (mv_account_id v) (address_to_string (mv_owner_address v)) (scalar_to_bigdecimal (mv_seed v))
    (bd_of (cs_index (recovery_seed_csprng v))) (bd_of (cs_index (share_seed_csprng v))).
Definition mvs_of_model (m : MasterViewSeedModel) : R MasterViewSeed :=
  seed_scalar ← bigdecimal_to_scalar (mm_seed m);
  owner ← parse_address (mm_owner_address m);
  recovery_index ← unwrap (bd_to_u 64 (recovery_seed_csprng_index m));
  share_index ← unwrap (bd_to_u 64 (share_seed_csprng_index m));
  let recovery := create_recovery_seed_csprng seed_scalar in
  let share := create_share_seed_csprng seed_scalar in
  Ok (mk_mvs (mm_account_id m) owner seed_scalar
        (mk_csprng (cs_seed recovery) recovery_index) (mk_csprng (cs_seed share) share_index)).

Record ExpectedStateObjectModel := mk_expected_model {
  em_nullifier : BigDecimal; em_account_id : string; em_owner_address : string;
  em_recovery_stream_seed : BigDecimal; em_share_stream_seed : BigDecimal }.
Definition expected_to_model (v : ExpectedStateObject) : ExpectedStateObjectModel :=
  mk_expected_model (scalar_to_bigdecimal (ex_nullifier v)) (ex_account_id v)
    (address_to_string (ex_owner_address v)) (scalar_to_bigdecimal (cs_seed (ex_recovery_stream v)))
    (scalar_to_bigdecimal (cs_seed (ex_share_stream v))).
(** The nullifier of the row is not read: it is computed again. *)
Definition expected_of_model (m : ExpectedStateObjectModel) : R ExpectedStateObject :=
  recovery ← bigdecimal_to_scalar (em_recovery_stream_seed m);
  share ← bigdecimal_to_scalar (em_share_stream_seed m);
  owner ← parse_address (em_owner_address m);
  Ok (expected_new (em_account_id m) owner recovery share).

Record ProcessedNullifierModel := mk_processed { pn_nullifier : BigDecimal; pn_block_number : BigDecimal }.

Record GenericStateObjectModel := mk_generic_model {
  gm_recovery_stream_seed : BigDecimal; gm_account_id : string; gm_active : bool;
  gm_object_type : DbStateObjectType; gm_nullifier : BigDecimal; gm_version : BigDecimal;
  gm_share_stream_seed : BigDecimal; gm_share_stream_index : BigDecimal; gm_owner_address : string;
  gm_public_shares : list BigDecimal; gm_private_shares : list BigDecimal }.
Definition generic_to_model (v : GenericStateObject) : GenericStateObjectModel :=
  mk_generic_model (scalar_to_bigdecimal (cs_seed (go_recovery_stream v))) (go_account_id v) (go_active v)
    (db_of_type (go_object_type v)) (scalar_to_bigdecimal (go_nullifier v))
    (bd_of (cs_index (go_recovery_stream v))) (scalar_to_bigdecimal (cs_seed (go_share_stream v)))
    (bd_of (cs_index (go_share_stream v))) (address_to_string (go_owner_address v))
    (scalar_to_bigdecimal <$> go_public_shares v) (scalar_to_bigdecimal <$> go_private_shares v).
Definition generic_of_model (m : GenericStateObjectModel) : R GenericStateObject :=
  recovery ← bigdecimal_to_scalar (gm_recovery_stream_seed m);
  nullifier ← bigdecimal_to_scalar (gm_nullifier m);
  share ← bigdecimal_to_scalar (gm_share_stream_seed m);
  version ← unwrap (bd_to_u 64 (gm_version m));
  share_index ← unwrap (bd_to_u 64 (gm_share_stream_index m));
  owner ← parse_address (gm_owner_address m);
  public_shares ← scalars (gm_public_shares m);
  private_shares ← scalars (gm_private_shares m);
  Ok (mk_generic (mk_csprng recovery version) (mk_csprng share share_index) (gm_account_id m) (gm_active m)
        (type_of_db (gm_object_type m)) nullifier owner public_shares private_shares).

Record IntentModel := mk_intent_model {
  im_recovery_stream_seed : BigDecimal; im_account_id : string; im_active : bool; im_input_mint : string;
  im_output_mint : string; im_owner_address : string; im_min_price : BigDecimal; im_input_amount : BigDecimal;
  im_matching_pool : string; im_allow_external_matches : bool; im_min_fill_size : BigDecimal;
  im_precompute_cancellation_proof : bool }.
Definition intent_to_model (v : IntentStateObject) : IntentModel :=
  let i := io_intent v in
  mk_intent_model (scalar_to_bigdecimal (io_recovery_stream_seed v)) (io_account_id v) (io_active v)
    (address_to_string (in_token i)) (address_to_string (out_token i)) (address_to_string (i_owner i))
    (fixed_point_to_bigdecimal (min_price i)) (bd_of (amount_in i)) (matching_pool v)
    (allow_external_matches v) (bd_of (min_fill_size v)) (precompute_cancellation_proof v).
Definition intent_of_model (m : IntentModel) : R IntentStateObject :=
  input_mint ← parse_address (im_input_mint m);
  output_mint ← parse_address (im_output_mint m);
  owner ← parse_address (im_owner_address m);
  min_price ← bigdecimal_to_fixed_point (im_min_price m);
  input_amount ← unwrap (bd_to_u 128 (im_input_amount m));
  recovery ← bigdecimal_to_scalar (im_recovery_stream_seed m);
  min_fill ← unwrap (bd_to_u 128 (im_min_fill_size m));
  Ok (mk_iso (mk_intent input_mint output_mint owner min_price input_amount) recovery (im_account_id m)
        (im_active m) (im_matching_pool m) (im_allow_external_matches m) min_fill
        (im_precompute_cancellation_proof m)).

Record BalanceModel := mk_balance_model {
  bm_recovery_stream_seed : BigDecimal; bm_account_id : string; bm_active : bool; bm_mint : string;
  bm_owner_address : string; bm_relayer_fee_recipient : string; bm_one_time_authority : string;
  bm_protocol_fee : BigDecimal; bm_relayer_fee : BigDecimal; bm_amount : BigDecimal;
  bm_allow_public_fills : bool }.
Definition balance_to_model (v : BalanceStateObject) : BalanceModel :=
  let b := bo_balance v in
  mk_balance_model (scalar_to_bigdecimal (bo_recovery_stream_seed v)) (bo_account_id v) (bo_active v)
    (address_to_string (b_mint b)) (address_to_string (b_owner b))
    (address_to_string (relayer_fee_recipient b)) (address_to_string (one_time_authority b))
    (bd_of (protocol_fee_balance b)) (bd_of (relayer_fee_balance b)) (bd_of (b_amount b)) (allow_public_fills v).
Definition balance_of_model (m : BalanceModel) : R BalanceStateObject :=
  mint ← parse_address (bm_mint m);
  owner ← parse_address (bm_owner_address m);
  recipient ← parse_address (bm_relayer_fee_recipient m);
  authority ← parse_address (bm_one_time_authority m);
  relayer_fee ← unwrap (bd_to_u 128 (bm_relayer_fee m));
  protocol_fee ← unwrap (bd_to_u 128 (bm_protocol_fee m));
  amount ← unwrap (bd_to_u 128 (bm_amount m));
  recovery ← bigdecimal_to_scalar (bm_recovery_stream_seed m);
  Ok (mk_bso (mk_balance mint owner recipient authority relayer_fee protocol_fee amount) recovery
        (bm_account_id m) (bm_active m) (bm_allow_public_fills m)).

(** ** Tables and queries (db/interface/)

    A row is found by its primary key; the numeric keys hold whole numbers, so
    the integer stands for the number. *)
Record tables := mk_tables {
  master_view_seeds : gmap string MasterViewSeedModel;
  expected_state_objects : gmap Z ExpectedStateObjectModel;
  processed_nullifiers : gmap Z ProcessedNullifierModel;
  generic_state_objects : gmap Z GenericStateObjectModel;
  intents : gmap Z IntentModel;
  balances : gmap Z BalanceModel }.
Definition no_tables : tables := mk_tables ∅ ∅ ∅ ∅ ∅ ∅.
Abbreviation Q := (eff tables DbError).

(** What the database does with one query: nothing wrong, or a failure. *)
Abbreviation fault := (option string).
Definition query_ok (f : fault) : Q unit :=
  lift (match f with None => Ok tt | Some e => Err (Query e) end).
(** An INSERT: the CHECKs of the table, then its primary key. *)
Definition insert_into {K V} `{Countable K} (get : tables -> gmap K V) (set : gmap K V -> tables -> tables)
    (f : fault) (checks : bool) (key : K) (row : V) : Q unit :=
  _ ← query_ok f;
  t ← gets get;
  if negb checks then lift (Err (Query "violates check constraint"))
  else match t !! key with
       | Some _ => lift (Err (Query "duplicate key value violates unique constraint"))
       | None => modify (set (<[key := row]> t))
       end.
Definition whole (b : BigDecimal) : bool := 0 <=? bd_int b.

Definition set_seeds t s := mk_tables t (expected_state_objects s) (processed_nullifiers s)
  (generic_state_objects s) (intents s) (balances s).
Definition set_expected t s := mk_tables (master_view_seeds s) t (processed_nullifiers s)
  (generic_state_objects s) (intents s) (balances s).
Definition set_processed t s := mk_tables (master_view_seeds s) (expected_state_objects s) t
  (generic_state_objects s) (intents s) (balances s).
Definition set_generic t s := mk_tables (master_view_seeds s) (expected_state_objects s) (processed_nullifiers s)
  t (intents s) (balances s).
Definition set_intents t s := mk_tables (master_view_seeds s) (expected_state_objects s) (processed_nullifiers s)
  (generic_state_objects s) t (balances s).
Definition set_balances t s := mk_tables (master_view_seeds s) (expected_state_objects s) (processed_nullifiers s)
  (generic_state_objects s) (intents s) t.

Definition insert_master_view_seed (f : fault) (v : MasterViewSeed) : Q unit :=
  let m := mvs_to_model v in
  insert_into master_view_seeds set_seeds f
    (whole (mm_seed m) && whole (recovery_seed_csprng_index m) && whole (share_seed_csprng_index m))
    (mm_account_id m) m.
Definition get_account_master_view_seed (f : fault) (account_id : string) : Q MasterViewSeed :=
  _ ← query_ok f;
  row ← gets (fun s => master_view_seeds s !! account_id);
  m ← lift (ok_or row (Query "Record not found"));
  lift (mvs_of_model m).

Definition insert_expected_state_object (f : fault) (v : ExpectedStateObject) : Q unit :=
  let m := expected_to_model v in
  insert_into expected_state_objects set_expected f
    (whole (em_nullifier m) && whole (em_recovery_stream_seed m) && whole (em_share_stream_seed m))
    (bd_int (em_nullifier m)) m.
(** [first(..).optional()]: a missing row is [None]. *)
Definition optional_row {V X} (into : V -> R X) (row : option V) : Q (option X) :=
  match row with
  | Some m => x ← lift (into m); mret (Some x)
  | None => mret None
  end.
Definition get_expected_state_object (f : fault) (nullifier : Scalar) : Q (option ExpectedStateObject) :=
  _ ← query_ok f;
  row ← gets (fun s => expected_state_objects s !! bd_int (scalar_to_bigdecimal nullifier));
  optional_row expected_of_model row.

Definition mark_nullifier_processed (f : fault) (nullifier : Scalar) (block_number : Z) : Q unit :=
  let m := mk_processed (scalar_to_bigdecimal nullifier) (bd_of block_number) in
  insert_into processed_nullifiers set_processed f (whole (pn_nullifier m) && whole (pn_block_number m))
    (bd_int (pn_nullifier m)) m.
Definition check_nullifier_processed (f : fault) (nullifier : Scalar) : Q bool :=
  _ ← query_ok f;
  gets (fun s => bool_decide (is_Some (processed_nullifiers s !! bd_int (scalar_to_bigdecimal nullifier)))).

Definition create_generic_state_object (f : fault) (v : GenericStateObject) : Q unit :=
  let m := generic_to_model v in
  insert_into generic_state_objects set_generic f
    (whole (gm_recovery_stream_seed m) && whole (gm_nullifier m) && whole (gm_version m) &&
     whole (gm_share_stream_seed m) && whole (gm_share_stream_index m) &&
     forallb whole (gm_public_shares m) && forallb whole (gm_private_shares m))
    (bd_int (gm_recovery_stream_seed m)) m.
Definition get_generic_state_object (f : fault) (recovery_stream_seed : Scalar) : Q GenericStateObject :=
  _ ← query_ok f;
  row ← gets (fun s => generic_state_objects s !! bd_int (scalar_to_bigdecimal recovery_stream_seed));
  m ← lift (ok_or row (Query "Record not found"));
  lift (generic_of_model m).

Definition create_intent (f : fault) (v : IntentStateObject) : Q unit :=
  let m := intent_to_model v in
  insert_into intents set_intents f
    (whole (im_recovery_stream_seed m) && whole (im_min_price m) && whole (im_input_amount m) &&
     whole (im_min_fill_size m))
    (bd_int (im_recovery_stream_seed m)) m.
Definition get_intent (f : fault) (recovery_stream_seed : Scalar) : Q (option IntentStateObject) :=
  _ ← query_ok f;
  row ← gets (fun s => intents s !! bd_int (scalar_to_bigdecimal recovery_stream_seed));
  optional_row intent_of_model row.

Definition create_balance (f : fault) (v : BalanceStateObject) : Q unit :=
  let m := balance_to_model v in
  insert_into balances set_balances f
    (whole (bm_recovery_stream_seed m) && whole (bm_protocol_fee m) && whole (bm_relayer_fee m) &&
     whole (bm_amount m))
    (bd_int (bm_recovery_stream_seed m)) m.
Definition get_balance (f : fault) (recovery_stream_seed : Scalar) : Q (option BalanceStateObject) :=
  _ ← query_ok f;
  row ← gets (fun s => balances s !! bd_int (scalar_to_bigdecimal recovery_stream_seed));
  optional_row balance_of_model row.

(** ** Round trips

    Values as the code makes them: indices and amounts at their width, streams
    derived from the seeds they are stored with. *)
Definition mvs_wf (v : MasterViewSeed) : Prop :=
  cs_seed (recovery_seed_csprng v) = cs_seed (create_recovery_seed_csprng (mv_seed v)) /\
  cs_seed (share_seed_csprng v) = cs_seed (create_share_seed_csprng (mv_seed v)) /\
  in_u 64 (cs_index (recovery_seed_csprng v)) /\ in_u 64 (cs_index (share_seed_csprng v)).
Definition expected_wf (v : ExpectedStateObject) : Prop :=
  v = expected_new (ex_account_id v) (ex_owner_address v) (cs_seed (ex_recovery_stream v)) (cs_seed (ex_share_stream v)).
Definition generic_wf (v : GenericStateObject) : Prop :=
  in_u 64 (cs_index (go_recovery_stream v)) /\ in_u 64 (cs_index (go_share_stream v)).
Definition intent_wf (v : IntentStateObject) : Prop :=
  in_u 128 (amount_in (io_intent v)) /\ in_u 128 (min_fill_size v).
Definition balance_wf (v : BalanceStateObject) : Prop :=
  let b := bo_balance v in
  in_u 128 (relayer_fee_balance b) /\ in_u 128 (protocol_fee_balance b) /\ in_u 128 (b_amount b).

Lemma scalar_roundtrip x : bigdecimal_to_scalar (scalar_to_bigdecimal x) = Ok x.
Proof.
  unfold bigdecimal_to_scalar. cbn. pose proof (to_biguint_nonneg x).
  destruct (Z.ltb_spec (to_biguint x) 0); [lia|]. by rewrite from_to_biguint.
Qed.
Lemma fixed_point_roundtrip f : bigdecimal_to_fixed_point (fixed_point_to_bigdecimal f) = Ok f.
Proof.
  unfold bigdecimal_to_fixed_point. change (fixed_point_to_bigdecimal f) with (scalar_to_bigdecimal (repr f)).
  rewrite scalar_roundtrip. by destruct f.
Qed.
Lemma scalars_roundtrip l : scalars (scalar_to_bigdecimal <$> l) = Ok l.
Proof. induction l as [|x l IH]; [done|]. cbn. by rewrite scalar_roundtrip; cbn; rewrite IH. Qed.
Lemma address_roundtrip a : parse_address (address_to_string a) = Ok a.
Proof. unfold parse_address. by rewrite address_from_to. Qed.
Lemma whole_scalar x : whole (scalar_to_bigdecimal x) = true.
Proof. apply Z.leb_le, to_biguint_nonneg. Qed.
Lemma whole_u w z : in_u w z -> whole (bd_of z) = true.
Proof. intros [? _]. by apply Z.leb_le. Qed.
Lemma whole_scalars l : forallb whole (scalar_to_bigdecimal <$> l) = true.
Proof. induction l as [|x l IH]; [done|]. cbn [forallb fmap list_fmap]. by rewrite whole_scalar. Qed.
Lemma scalar_key_inj x y : bd_int (scalar_to_bigdecimal x) = bd_int (scalar_to_bigdecimal y) -> x = y.
Proof. cbn. intros H. rewrite <- (from_to_biguint x), H. apply from_to_biguint. Qed.

(** Reads a row back, field by field. *)
Ltac read_row :=
  repeat (rewrite ?scalar_roundtrip, ?address_roundtrip, ?fixed_point_roundtrip, ?scalars_roundtrip,
            ?type_of_db_of_type by done;
          rewrite ?bd_to_u_of by done; cbn).

Lemma mvs_roundtrip v : mvs_wf v -> mvs_of_model (mvs_to_model v) = Ok v.
Proof.
  intros (Hr & Hs & Hri & Hsi). unfold mvs_of_model, mvs_to_model. cbn [mm_seed mm_owner_address
    recovery_seed_csprng_index share_seed_csprng_index mm_account_id]. read_row.
  destruct v as [a o s [rs ri] [ss si]]. cbn in *. by subst.
Qed.
Lemma expected_roundtrip v : expected_wf v -> expected_of_model (expected_to_model v) = Ok v.
Proof.
  intros Hv. unfold expected_of_model, expected_to_model.
  cbn [em_recovery_stream_seed em_share_stream_seed em_owner_address em_account_id]. read_row. by rewrite <- Hv.
Qed.
Lemma generic_roundtrip v : generic_wf v -> generic_of_model (generic_to_model v) = Ok v.
Proof.
  intros [Hr Hs]. unfold generic_of_model, generic_to_model.
  cbn [gm_recovery_stream_seed gm_nullifier gm_share_stream_seed gm_version gm_share_stream_index gm_owner_address
    gm_public_shares gm_private_shares gm_account_id gm_active gm_object_type]. read_row.
  by destruct v as [[] [] ? ? ? ? ? ? ?].
Qed.
Lemma intent_roundtrip v : intent_wf v -> intent_of_model (intent_to_model v) = Ok v.
Proof.
  intros [Ha Hm]. unfold intent_of_model, intent_to_model.
  cbn [im_input_mint im_output_mint im_owner_address im_min_price im_input_amount im_recovery_stream_seed
    im_min_fill_size im_account_id im_active im_matching_pool im_allow_external_matches
    im_precompute_cancellation_proof]. read_row.
  by destruct v as [[] ? ? ? ? ? ? ?].
Qed.
Lemma balance_roundtrip v : balance_wf v -> balance_of_model (balance_to_model v) = Ok v.
Proof.
  intros (Hr & Hp & Ha). unfold balance_of_model, balance_to_model.
  cbn [bm_mint bm_owner_address bm_relayer_fee_recipient bm_one_time_authority bm_relayer_fee bm_protocol_fee
    bm_amount bm_recovery_stream_seed bm_account_id bm_active bm_allow_public_fills]. read_row.
  by destruct v as [[] ? ? ? ?].
Qed.

(** An INSERT without a failure succeeds exactly for a new key. *)
Lemma insert_into_spec {K V} `{Countable K} (get : tables -> gmap K V) set key (row : V) s :
  (get s !! key = None -> insert_into get set None true key row s = (Ok tt, set (<[key := row]> (get s)) s)) /\
  (forall f checks, is_Some (get s !! key) -> exists e, insert_into get set f checks key row s = (Err (Query e), s)).
Proof.
  unfold insert_into, query_ok, gets, modify, lift, mbind, eff_bind. split.
  - intros Hk. cbn. by rewrite Hk.
  - intros f checks [x Hx]. destruct f as [e|]; [by exists e|]. cbn. destruct checks; cbn; [rewrite Hx|]; eauto.
Qed.
(** One that succeeds had a new key and wrote its row. *)
Lemma insert_into_Ok {K V} `{Countable K} (get : tables -> gmap K V) set f checks key (row : V) s u s' :
  insert_into get set f checks key row s = (Ok u, s') ->
  get s !! key = None /\ s' = set (<[key := row]> (get s)) s.
Proof.
  unfold insert_into, query_ok, gets, modify, lift, mbind, eff_bind. destruct f; [done|]. cbn.
  destruct checks; [cbn|done]. destruct (get s !! key) eqn:E; [done|]. by intros [= _ <-].
Qed.

(** [create] refuses a key that is [taken]; otherwise [get] then returns [x]. *)
Definition read_back {X} (create : Q unit) (taken : Prop) (get : Q X) (x : X) (s : tables) : Prop :=
  (taken -> exists e, create s = (Err (Query e), s)) /\
  (~ taken -> exists s', create s = (Ok tt, s') /\ get s' = (Ok x, s')).
Lemma read_back_row {K V X} `{Countable K} (get : tables -> gmap K V) set checks key (row : V) (getter : Q X) x s :
  checks = true ->
  (let s' := set (<[key := row]> (get s)) s in getter s' = (Ok x, s')) ->
  read_back (insert_into get set None checks key row) (is_Some (get s !! key)) getter x s.
Proof.
  intros -> Hg. split; [by apply insert_into_spec|]. intros Hn%eq_None_not_Some.
  eexists. split; [by apply insert_into_spec|done].
Qed.
Ltac run_getter f :=
  unfold f, optional_row, query_ok, gets, lift, mret, eff_ret, mbind, eff_bind; cbn; rewrite lookup_insert_eq; cbn.

(** What the indexer stores it reads back: for each of the five tables, an
    object whose key is new is inserted, its row passes the checks of the
    table, and the getter returns the object itself; an object whose key is
    taken is refused and changes nothing. *)
Theorem stored_objects_read_back mv ex ge it ba s :
  mvs_wf mv -> expected_wf ex -> generic_wf ge -> intent_wf it -> balance_wf ba ->
  read_back (insert_master_view_seed None mv) (is_Some (master_view_seeds s !! mv_account_id mv))
    (get_account_master_view_seed None (mv_account_id mv)) mv s /\
  read_back (insert_expected_state_object None ex)
    (is_Some (expected_state_objects s !! to_biguint (ex_nullifier ex)))
    (get_expected_state_object None (ex_nullifier ex)) (Some ex) s /\
  read_back (create_generic_state_object None ge)
    (is_Some (generic_state_objects s !! to_biguint (cs_seed (go_recovery_stream ge))))
    (get_generic_state_object None (cs_seed (go_recovery_stream ge))) ge s /\
  read_back (create_intent None it) (is_Some (intents s !! to_biguint (io_recovery_stream_seed it)))
    (get_intent None (io_recovery_stream_seed it)) (Some it) s /\
  read_back (create_balance None ba) (is_Some (balances s !! to_biguint (bo_recovery_stream_seed ba)))
    (get_balance None (bo_recovery_stream_seed ba)) (Some ba) s.
Proof.
  intros Hmv Hex Hge Hit Hba. split_and!; apply read_back_row; cbn zeta.
  - destruct Hmv as (_ & _ & ? & ?). unfold mvs_to_model. cbn -[whole].
    by rewrite whole_scalar, !(whole_u 64).
  - run_getter get_account_master_view_seed. by rewrite mvs_roundtrip.
  - unfold expected_to_model. cbn -[whole]. by rewrite !whole_scalar.
  - run_getter get_expected_state_object. by rewrite expected_roundtrip.
  - destruct Hge as [? ?]. unfold generic_to_model.
    cbn -[whole forallb]. by rewrite !whole_scalar, !whole_scalars, !(whole_u 64).
  - run_getter get_generic_state_object. by rewrite generic_roundtrip.
  - destruct Hit as [? ?]. unfold intent_to_model.
    cbn -[whole]. change (fixed_point_to_bigdecimal ?f) with (scalar_to_bigdecimal (repr f)).
    by rewrite !whole_scalar, !(whole_u 128).
  - run_getter get_intent. by rewrite intent_roundtrip.
  - destruct Hba as (? & ? & ?). unfold balance_to_model. cbn -[whole]. by rewrite whole_scalar, !(whole_u 128).
  - run_getter get_balance. by rewrite balance_roundtrip.
Qed.

(** The constructors make such objects. *)
Lemma mvs_new_wf account owner seed : mvs_wf (mvs_new account owner seed).
Proof. by split_and!. Qed.
Lemma expected_new_wf account owner r x : expected_wf (expected_new account owner r x).
Proof. done. Qed.
Lemma generic_new_wf r account t n x owner pub priv : generic_wf (generic_new r account t n x owner pub priv).
Proof. by split. Qed.
Lemma iso_new_wf i o owner p a r account : in_u 128 a -> intent_wf (iso_new i o owner p a r account).
Proof. by split. Qed.

(** ** Messages and their handlers (api/handlers/sqs.rs) *)
Record MasterViewSeedMessage := mk_seed_message {
  ms_account_id : string; ms_owner_address : Address; ms_seed : Scalar }.
Record NullifierSpendMessage := mk_spend_message { ns_nullifier : Scalar; ns_tx_hash : string }.
Inductive SqsMessage :=
  | RegisterMasterViewSeed (m : MasterViewSeedMessage)
  | NullifierSpend (m : NullifierSpendMessage).
(** An SQS message: what the consumer looks at. *)
Record Message := mk_message {
  m_body : option string; m_receipt_handle : option string; m_group_id : option string }.
Record NullifierSpendData := mk_spend_data {
  sd_nullifier : Scalar; sd_block_number : Z; sd_state_object_type : StateObjectType;
  sd_updated_public_shares : list Scalar; sd_updated_shares_index : Z }.
(** A transaction receipt: its block, when it is mined. *)
Record TransactionReceipt := mk_receipt { tr_block_number : option Z }.

(** The tables, and the messages deleted from the queue so far. *)
Record state := mk_state { st_tables : tables; st_deleted : list Message }.
Abbreviation H := (eff state HandlerError).

(** How a COMMIT ends: a connection lost while it runs leaves it open whether
    the transaction took effect. *)
Inductive commit := Committed | NotCommitted (e : string) | ReplyLost (e : string).
(** What happens outside while one message is handled. *)
Record env := mk_env {
  e_conn : res string unit;      (* a connection of the pool *)
  e_begin : option string;       (* BEGIN *)
  e_query : nat -> fault;        (* the queries of the transaction, in order *)
  e_commit : commit;
  e_receipt : string -> res string (option TransactionReceipt);
  e_delete : bool * option string  (* whether the message is gone, and the error reported *) }.

Definition get_db_conn (env : env) : R unit := map_err PoolConnection (e_conn env).
(** An error or a panic in the body rolls the transaction back. *)
Definition transaction {A} (env : env) (body : Q A) : Q A := fun s =>
  match e_begin env with
  | Some e => (Err (DieselError e), s)
  | None =>
      match body s with
      | (Ok a, s') =>
          match e_commit env with
          | Committed => (Ok a, s')
          | NotCommitted e => (Err (DieselError e), s)
          | ReplyLost e => (Err (DieselError e), s')
          end
      | (Err e, _) => (Err e, s)
      | (Panic, _) => (Panic, s)
      end
  end.
(** Work on the tables inside a handler; [From<DbError>]. *)
Definition on_tables {A} (q : Q A) : H A := fun s =>
  let out := q (st_tables s) in (map_err HDb out.1, mk_state out.2 (st_deleted s)).

Definition FIRST_OBJECT_IDX : Z := 0.
Definition handle_master_view_seed_message (env : env) (message : MasterViewSeedMessage) : H unit :=
  let master_view_seed := mvs_new (ms_account_id message) (ms_owner_address message) (ms_seed message) in
  let first_object_recovery_stream_seed := get_ith (recovery_seed_csprng master_view_seed) FIRST_OBJECT_IDX in
  let first_object_share_stream_seed := get_ith (share_seed_csprng master_view_seed) FIRST_OBJECT_IDX in
  let expected_state_object := expected_new (ms_account_id message) (ms_owner_address message)
    first_object_recovery_stream_seed first_object_share_stream_seed in
  _ ← lift (map_err HDb (get_db_conn env));
  on_tables (transaction env (
    _ ← insert_master_view_seed (e_query env 0) master_view_seed;
    insert_expected_state_object (e_query env 1) expected_state_object)).

(** Not written yet: both panic. *)
Definition get_updated_state_object_type (nullifier : Scalar) (tx : TransactionReceipt) :
  res HandlerError StateObjectType := Panic.
Definition get_updated_public_shares (nullifier : Scalar) (tx : TransactionReceipt) :
  res HandlerError (list Scalar * Z) := Panic.
Definition fetch_nullifier_spend_data (env : env) (spend : NullifierSpendMessage) :
    res HandlerError NullifierSpendData :=
  receipt ← map_err Rpc (e_receipt env (ns_tx_hash spend));
  spend_tx ← ok_or receipt (Rpc "Transaction receipt not found");
  block_number ← ok_or (tr_block_number spend_tx) (Rpc "Block number not found");
  object_type ← get_updated_state_object_type (ns_nullifier spend) spend_tx;
  '(shares, index) ← get_updated_public_shares (ns_nullifier spend) spend_tx;
  Ok (mk_spend_data (ns_nullifier spend) block_number object_type shares index).

(** The typed object is not created yet: the function panics after it has
    inserted the generic one. *)
Definition handle_first_object_nullifier_spend (f : fault) (data : NullifierSpendData)
    (expected : ExpectedStateObject) : Q unit :=
  let private_shares := csprng_take (length (sd_updated_public_shares data)) (ex_share_stream expected) in
  let generic := generic_new (cs_seed (ex_recovery_stream expected)) (ex_account_id expected)
    (sd_state_object_type data) (ex_nullifier expected) (cs_seed (ex_share_stream expected))
    (ex_owner_address expected) (sd_updated_public_shares data) private_shares in
  _ ← create_generic_state_object f generic;
  match go_object_type generic with
  | Intent_ => lift Panic
  | Balance_ => lift Panic
  end.
(** The transaction of a spend. *)
Definition index_nullifier_spend (env : env) (data : NullifierSpendData) : Q unit :=
  let nullifier := sd_nullifier data in
  processed ← check_nullifier_processed (e_query env 0) nullifier;
  if (processed : bool) then mret tt
  else
    expected ← get_expected_state_object (e_query env 1) nullifier;
    _ ← match expected with
        | Some e => handle_first_object_nullifier_spend (e_query env 2) data e
        | None => mret tt
        end;
    mark_nullifier_processed (e_query env 3) nullifier (sd_block_number data).
Definition handle_nullifier_spend_message (env : env) (message : NullifierSpendMessage) : H unit :=
  data ← lift (fetch_nullifier_spend_data env message);
  _ ← lift (map_err HDb (get_db_conn env));
  on_tables (transaction env (index_nullifier_spend env data)).

Section Consumer.
(** [serde_json::from_str] of a message body. *)
Variable from_json : string -> res string SqsMessage.

(** A message without a receipt handle cannot be deleted. *)
Definition delete_message (env : env) (message : Message) : H unit := fun s =>
  match m_receipt_handle message with
  | None => (Ok tt, s)
  | Some _ =>
      let s' := if (e_delete env).1 then mk_state (st_tables s) (st_deleted s ++ [message]) else s in
      (match (e_delete env).2 with None => Ok tt | Some e => Err (Sqs e) end, s')
  end.
Definition handle_sqs_message (env : env) (message : Message) : H unit :=
  _ ← match m_body message with
      | Some body =>
          m ← lift (map_err Serde (from_json body));
          match m with
          | RegisterMasterViewSeed m => handle_master_view_seed_message env m
          | NullifierSpend m => handle_nullifier_spend_message env m
          end
      | None => mret tt
      end;
  delete_message env message.

(** ** The consumer (main.rs)

    The messages of one reply, by group and in order; messages without a group
    are skipped. *)
Definition group_messages (messages : list Message) : gmap string (list Message) :=
  foldl (fun groups message =>
    match m_group_id message with
    | None => groups
    | Some id => <[id := default [] (groups !! id) ++ [message]]> groups
    end) ∅ messages.

(** One task per group, which handles its messages one after the other: an
    error is logged, a panic ends the task. *)
Definition system : Type := list (list Message) * state.
Inductive label :=
  | Receive (messages : res string (list Message))
  | Turn (task : nat) (env : env).
Definition system_step (l : label) (s : system) : system :=
  match l with
  | Receive (Ok messages) => (s.1 ++ (map_to_list (group_messages messages)).*2, s.2)
  | Receive _ => s
  | Turn i env =>
      match s.1 !! i with
      | Some (message :: rest) =>
          match handle_sqs_message env message s.2 with
          | (Panic, st) => (<[i := []]> s.1, st)
          | (_, st) => (<[i := rest]> s.1, st)
          end
      | _ => s
      end
  end.
Definition system_run (ls : list label) (s : system) : system := foldl (fun s l => system_step l s) s ls.
Definition system_new : system := ([], mk_state no_tables []).

(** Within a group the order of the reply is kept. *)
Lemma group_messages_lookup messages id :
  default [] (group_messages messages !! id) = filter (fun m => m_group_id m = Some id) messages.
Proof.
  unfold group_messages. induction messages as [|m ms IH] using rev_ind; [done|].
  rewrite foldl_app, filter_app. cbn [foldl]. destruct (m_group_id m) as [id'|] eqn:Hid.
  - destruct (decide (id' = id)) as [->|Hne].
    + rewrite lookup_insert_eq. cbn. rewrite IH. by rewrite decide_True.
    + rewrite lookup_insert_ne by done. rewrite IH. cbn. rewrite decide_False by congruence. by rewrite app_nil_r.
  - rewrite IH. cbn. rewrite decide_False by congruence. by rewrite app_nil_r.
Qed.

(** *** What a registration writes *)
Definition seed_row (m : MasterViewSeedMessage) : MasterViewSeedModel :=
  mvs_to_model (mvs_new (ms_account_id m) (ms_owner_address m) (ms_seed m)).
Definition first_object (m : MasterViewSeedMessage) : ExpectedStateObject :=
  expected_new (ms_account_id m) (ms_owner_address m)
    (get_ith (create_recovery_seed_csprng (ms_seed m)) FIRST_OBJECT_IDX)
    (get_ith (create_share_seed_csprng (ms_seed m)) FIRST_OBJECT_IDX).
Definition first_key (m : MasterViewSeedMessage) : Z := to_biguint (ex_nullifier (first_object m)).
(** Both rows of an account are there. *)
Definition registered (t : tables) (m : MasterViewSeedMessage) : Prop :=
  master_view_seeds t !! ms_account_id m = Some (seed_row m) /\
  expected_state_objects t !! first_key m = Some (expected_to_model (first_object m)).
Definition register (m : MasterViewSeedMessage) (t : tables) : tables :=
  set_expected (<[first_key m := expected_to_model (first_object m)]> (expected_state_objects t))
    (set_seeds (<[ms_account_id m := seed_row m]> (master_view_seeds t)) t).

Lemma registration_cases env m s r s' :
  handle_master_view_seed_message env m s = (r, s') ->
  st_deleted s' = st_deleted s /\
  ((st_tables s' = st_tables s /\ r <> Ok tt) \/
   (master_view_seeds (st_tables s) !! ms_account_id m = None /\
    expected_state_objects (st_tables s) !! first_key m = None /\
    st_tables s' = register m (st_tables s))).
Proof.
  unfold handle_master_view_seed_message, on_tables, transaction, lift, mbind, eff_bind. cbn zeta.
  destruct (get_db_conn env) as [[]|e|]; cbn; [|by intros [= <- <-]; auto..].
  destruct (e_begin env); [by intros [= <- <-]; auto|].
  destruct (insert_master_view_seed _ _ _) as [[[]|e|] t1] eqn:E1; cbn; [|by intros [= <- <-]; auto..].
  destruct (insert_expected_state_object _ _ _) as [[[]|e|] t2] eqn:E2; cbn; [|by intros [= <- <-]; auto..].
  apply insert_into_Ok in E1 as [Hn1 ->]. apply insert_into_Ok in E2 as [Hn2 ->].
  destruct (e_commit env); cbn; intros [= <- <-]; cbn; auto.
Qed.

(** Spends are fetched before anything is written, and fetching never succeeds. *)
Lemma spend_never_indexed env m s :
  (handle_nullifier_spend_message env m s).2 = s /\ (handle_nullifier_spend_message env m s).1 <> Ok tt.
Proof.
  unfold handle_nullifier_spend_message, fetch_nullifier_spend_data, get_updated_state_object_type,
    lift, mbind, eff_bind, res_bind.
  destruct (map_err Rpc _) as [[[[b|]]|]|e|]; cbn; done.
Qed.

Lemma delete_cases env m s r s' :
  delete_message env m s = (r, s') ->
  st_tables s' = st_tables s /\ (st_deleted s' = st_deleted s \/ st_deleted s' = st_deleted s ++ [m]).
Proof.
  unfold delete_message. destruct (m_receipt_handle m); [|by intros [= _ <-]; auto].
  destruct (e_delete env).1; intros [= _ <-]; auto.
Qed.

(** A message changes the tables only by registering an account that has
    neither row yet, and is deleted only after its account is registered. *)
Lemma handle_sqs_message_cases env m s r s' :
  handle_sqs_message env m s = (r, s') ->
  (st_tables s' = st_tables s \/
   exists body msg, m_body m = Some body /\ from_json body = Ok (RegisterMasterViewSeed msg) /\
     master_view_seeds (st_tables s) !! ms_account_id msg = None /\
     expected_state_objects (st_tables s) !! first_key msg = None /\
     st_tables s' = register msg (st_tables s)) /\
  (st_deleted s' = st_deleted s \/
   (st_deleted s' = st_deleted s ++ [m] /\ forall body, m_body m = Some body ->
     exists msg, from_json body = Ok (RegisterMasterViewSeed msg) /\ st_tables s' = register msg (st_tables s))).
Proof.
  unfold handle_sqs_message, mbind, eff_bind. destruct (m_body m) as [body|] eqn:Hb.
  2: { cbn. intros [-> [-> | ->]]%delete_cases; auto. split; [auto|]. right. by split. }
  unfold lift. destruct (from_json body) as [[msg|msg]|e|] eqn:Hj; cbn; [| |by intros [= <- <-]; auto..].
  - destruct (handle_master_view_seed_message env msg s) as [r1 s1] eqn:E1.
    apply registration_cases in E1 as [Hd [[Ht Hr]|(H1 & H2 & Ht)]].
    + destruct r1 as [[]|e|]; [done|..]; intros [= <- <-]; rewrite Ht, Hd; auto.
    + assert (Hnew : forall s2, st_tables s2 = st_tables s1 -> exists body0 msg0, Some body = Some body0 /\
        from_json body0 = Ok (RegisterMasterViewSeed msg0) /\
        master_view_seeds (st_tables s) !! ms_account_id msg0 = None /\
        expected_state_objects (st_tables s) !! first_key msg0 = None /\
        st_tables s2 = register msg0 (st_tables s)).
      { intros s2 Hs2. exists body, msg. by rewrite Hs2. }
      destruct r1 as [[]|e|]; [|by intros [= <- <-]; auto..].
      intros [Ht2 Hd2]%delete_cases. split; [auto|]. rewrite Hd in Hd2. destruct Hd2 as [-> | ->]; [auto|].
      right. split; [done|]. intros ? [= <-]. exists msg. by rewrite Ht2.
  - destruct (spend_never_indexed env msg s) as [Hs Hr].
    destruct (handle_nullifier_spend_message env msg s) as [[[]|e|] s1]; cbn in *; [done|..];
      subst s1; intros [= <- <-]; auto.
Qed.

(** *** The tables agree in every reachable state *)
Definition consistent (t : tables) : Prop :=
  (forall a row, master_view_seeds t !! a = Some row ->
    exists m, ms_account_id m = a /\ row = seed_row m /\ registered t m) /\
  (forall k row, expected_state_objects t !! k = Some row ->
    exists m, first_key m = k /\ row = expected_to_model (first_object m) /\ registered t m) /\
  processed_nullifiers t = ∅ /\ generic_state_objects t = ∅ /\ intents t = ∅ /\ balances t = ∅.

Lemma registered_register m m' t :
  master_view_seeds t !! ms_account_id m = None -> expected_state_objects t !! first_key m = None ->
  registered t m' -> registered (register m t) m'.
Proof.
  intros H1 H2 [H3 H4]. split; cbn; rewrite lookup_insert_ne; congruence.
Qed.
Lemma register_registered m t : registered (register m t) m.
Proof. split; cbn; by rewrite lookup_insert_eq. Qed.

Lemma register_consistent m t :
  master_view_seeds t !! ms_account_id m = None -> expected_state_objects t !! first_key m = None ->
  consistent t -> consistent (register m t).
Proof.
  intros H1 H2 (Hs & He & Hrest). split; [|split; [|exact Hrest]].
  - intros a row. cbn. rewrite lookup_insert_Some. intros [[<- <-]|[_ Hrow]].
    + exists m. split_and!; [done..|]. apply register_registered.
    + destruct (Hs _ _ Hrow) as (m' & ? & ? & ?). exists m'. split_and!; [done..|]. by apply registered_register.
  - intros k row. cbn. rewrite lookup_insert_Some. intros [[<- <-]|[_ Hrow]].
    + exists m. split_and!; [done..|]. apply register_registered.
    + destruct (He _ _ Hrow) as (m' & ? & ? & ?). exists m'. split_and!; [done..|]. by apply registered_register.
Qed.

(** Deleted messages have taken effect. *)
Definition effective (t : tables) (m : Message) : Prop :=
  forall body, m_body m = Some body ->
    exists msg, from_json body = Ok (RegisterMasterViewSeed msg) /\ registered t msg.
Definition state_ok (s : state) : Prop := consistent (st_tables s) /\ Forall (effective (st_tables s)) (st_deleted s).

Lemma handle_ok env m s : state_ok s -> state_ok (handle_sqs_message env m s).2.
Proof.
  intros [Hc Hd]. destruct (handle_sqs_message env m s) as [r s'] eqn:E. cbn.
  apply handle_sqs_message_cases in E as [Ht Hdel].
  assert (Hc' : consistent (st_tables s') /\ forall m, effective (st_tables s) m -> effective (st_tables s') m).
  { destruct Ht as [->|(body & msg & _ & _ & H1 & H2 & ->)]; [by split|].
    split; [by apply register_consistent|]. intros m0 Hm body0 Hb. destruct (Hm body0 Hb) as (msg0 & ? & ?).
    exists msg0. split; [done|by apply registered_register]. }
  destruct Hc' as [Hc' Hmono]. split; [done|].
  assert (Forall (effective (st_tables s')) (st_deleted s)) by (by eapply Forall_impl).
  destruct Hdel as [-> | [-> Hm]]; [done|]. apply Forall_app. split; [done|]. apply Forall_singleton.
  intros body Hb. destruct (Hm body Hb) as (msg & ? & ->). exists msg. split; [done|apply register_registered].
Qed.

Lemma system_run_state ls s : state_ok s.2 -> state_ok (system_run ls s).2.
Proof.
  revert s. induction ls as [|l ls IH]; intros s Hs; [done|]. cbn. apply IH.
  destruct l as [[ms|e|]|i env]; try done. cbn. destruct (s.1 !! i) as [[|m rest]|]; [done| |done].
  pose proof (handle_ok env m s.2 Hs) as Hok. destruct (handle_sqs_message env m s.2) as [[] ?]; done.
Qed.

Lemma state_ok_new : state_ok system_new.2.
Proof.
  split; [|by constructor].
  split_and!; [intros a row Hr|intros k row Hr|done..]; cbn in Hr; by rewrite lookup_empty in Hr.
Qed.

(** C26. Whatever the queue delivers, and wherever the database, the queue or the
    node fail, the rows of an account come and go together: every master view
    seed has the row of its first expected object, with the nullifier derived
    from it, and every expected object belongs to a registered seed.  A
    message leaves the queue only once the account it registers is stored, so
    no registration is lost. *)
Theorem registrations_atomic ls :
  let s := (system_run ls system_new).2 in
  consistent (st_tables s) /\ Forall (effective (st_tables s)) (st_deleted s).
Proof.
  apply system_run_state, state_ok_new.
Qed.

(** C40. In every reachable state the rows that are there read back: the getters
    never panic on them, and what they return is well formed, with the
    streams, the nullifier and the account they were asked for. *)
Theorem reachable_rows_well_typed ls f account nullifier :
  let t := st_tables (system_run ls system_new).2 in
  (match get_account_master_view_seed f account t with
   | (Ok v, t') => mvs_wf v /\ mv_account_id v = account /\ t' = t
   | (Err (Query _), t') => t' = t
   | _ => False
   end) /\
  (match get_expected_state_object f nullifier t with
   | (Ok (Some e), t') => expected_wf e /\ ex_nullifier e = nullifier /\ t' = t
   | (Ok None, t') | (Err (Query _), t') => t' = t
   | _ => False
   end).
Proof.
  cbn zeta. assert (Hok : state_ok (system_run ls system_new).2) by apply system_run_state, state_ok_new.
  destruct Hok as [(Hs & He & _) _]. set (t := st_tables _) in *.
  unfold get_account_master_view_seed, get_expected_state_object, optional_row, query_ok, gets, lift, mret, eff_ret,
    mbind, eff_bind. destruct f; [done|]. cbn. split.
  - destruct (master_view_seeds t !! account) as [row|] eqn:Hrow; [|done]. cbn.
    destruct (Hs _ _ Hrow) as (m & <- & -> & _). unfold seed_row.
    rewrite mvs_roundtrip by apply mvs_new_wf. split_and!; [apply mvs_new_wf|done..].
  - destruct (expected_state_objects t !! to_biguint nullifier) as [row|] eqn:Hrow; [|done]. cbn.
    destruct (He _ _ Hrow) as (m & Hk & -> & _). rewrite expected_roundtrip by apply expected_new_wf.
    split_and!; [apply expected_new_wf|by apply scalar_key_inj|done].
Qed.

(** The queue delivers at least once, but registering is not idempotent: when
    the deletion of a handled message fails, each further delivery is refused
    on the primary key, and the message is never deleted. *)
Theorem redelivered_registration_stuck m body msg envs s :
  m_body m = Some body -> from_json body = Ok (RegisterMasterViewSeed msg) -> registered (st_tables s) msg ->
  foldl (fun s env => (handle_sqs_message env m s).2) s envs = s /\
  Forall (fun env => (handle_sqs_message env m s).1 <> Ok tt) envs.
Proof.
  intros Hb Hj [Hr _].
  assert (H1 : forall env, (handle_sqs_message env m s).2 = s /\ (handle_sqs_message env m s).1 <> Ok tt).
  { intros env. unfold handle_sqs_message, mbind, eff_bind, lift. rewrite Hb, Hj. cbn.
    destruct (handle_master_view_seed_message env msg s) as [r s'] eqn:E.
    apply registration_cases in E as [Hd [[Ht Hne]|(Hnone & _ & _)]]; [|by rewrite Hr in Hnone].
    destruct s' as [t d], s; cbn in *. subst. by destruct r as [[]|e|]. }
  split; [|apply Forall_forall; intros env _; apply H1].
  induction envs as [|env envs IH]; [done|]. cbn. by rewrite (proj1 (H1 env)).
Qed.

(** A spend whose transaction is mined panics: the task of its group ends, and
    the messages after it in the group are not handled. *)
Theorem spend_ends_group i env m rest body spend b ts s :
  ts !! i = Some (m :: rest) -> m_body m = Some body -> from_json body = Ok (NullifierSpend spend) ->
  e_receipt env (ns_tx_hash spend) = Ok (Some (mk_receipt (Some b))) ->
  system_step (Turn i env) (ts, s) = (<[i := []]> ts, s).
Proof.
  intros Hi Hb Hj Hr. cbn. rewrite Hi.
  unfold handle_sqs_message, handle_nullifier_spend_message, fetch_nullifier_spend_data, mbind, eff_bind, lift, res_bind.
  rewrite Hb, Hj. cbn. rewrite Hr. done.
Qed.

(** *** The transaction of a spend, once its data can be fetched *)
Theorem index_nullifier_spend_spec env data s :
  (forall n, e_query env n = None) -> e_begin env = None -> e_commit env = Committed ->
  consistent s -> in_u 64 (sd_block_number data) ->
  let n := to_biguint (sd_nullifier data) in
  transaction env (index_nullifier_spend env data) s =
    if bool_decide (is_Some (expected_state_objects s !! n)) then (Panic, s)
    else (Ok tt, set_processed (<[n := mk_processed (bd_of n) (bd_of (sd_block_number data))]> ∅) s).
Proof.
  intros Hq Hb Hc (_ & He & Hp & Hg & _) Hbn n. unfold transaction. rewrite Hb.
  unfold index_nullifier_spend, check_nullifier_processed, get_expected_state_object, query_ok, gets, lift,
    mbind, eff_bind. rewrite !Hq. cbn. rewrite Hp, lookup_empty. rewrite bool_decide_false by (by intros []).
  fold n. destruct (expected_state_objects s !! n) as [row|] eqn:Hrow.
  - rewrite bool_decide_true by done. destruct (He _ _ Hrow) as (m & _ & -> & _). cbn.
    unfold lift, mbind, eff_bind. rewrite expected_roundtrip by apply expected_new_wf. cbn.
    unfold handle_first_object_nullifier_spend, lift, mbind, eff_bind.
    destruct (create_generic_state_object _ _ _) as [[u|e|] s1] eqn:E; [by destruct (go_object_type _)| |done].
    exfalso. revert E. unfold create_generic_state_object. cbn zeta.
    match goal with |- context [insert_into _ _ None ?c ?k ?r s] => assert (c = true) as ->;
      [|pose proof (proj1 (insert_into_spec generic_state_objects set_generic k r s)) as Hi] end.
    + unfold generic_to_model. cbn -[whole forallb]. by rewrite !whole_scalar, !whole_scalars.
    + rewrite Hi by (rewrite Hg; apply lookup_empty). done.
  - rewrite bool_decide_false by (by intros []). cbn. unfold mark_nullifier_processed. cbn zeta.
    cbn [pn_nullifier pn_block_number]. rewrite whole_scalar, (whole_u 64) by done.
    pose proof (insert_into_spec processed_nullifiers set_processed n
      (mk_processed (bd_of n) (bd_of (sd_block_number data))) s) as [Hi _].
    change (bd_int (scalar_to_bigdecimal (sd_nullifier data))) with n.
    change (scalar_to_bigdecimal (sd_nullifier data)) with (bd_of n). cbn [andb].
    rewrite Hi, Hc, Hp by (rewrite Hp; apply lookup_empty). done.
Qed.
End Consumer.
End Indexer.

(** ** Witnesses *)
Module IndexerWitness.
(** Small scalars and a stand-in for the hashes. *)
#[local] Instance toy : Darkpool.
Proof.
  refine {| Scalar := N; to_biguint := Z.of_N; from_biguint := Z.to_N; to_bytes_be x := [Z.of_N x];
    from_be_bytes_mod_order l := Z.to_N (foldr Z.add 0 l); keccak256 l := l;
    compute_poseidon_hash := foldr N.add 0%N; csprng_ith seed i := (10 * seed + Z.to_N i)%N;
    Address := string; address_to_string a := a; address_from_str := Some |}.
  - intros x. apply N2Z.is_nonneg.
  - apply N2Z.id.
  - done.
Defined.

Definition intent : IntentStateObject :=
  iso_new (D := toy) "0xaa"%string "0xbb"%string "0xcc"%string (mk_fixed (D := toy) 7%N) 1000 42%N "account".
Definition zero_balance (mint owner recipient authority : Address) : Balance :=
  mk_balance mint owner recipient authority 0 0 0.
Definition balance : BalanceStateObject :=
  bso_new (D := toy) zero_balance "0xaa"%string "0xcc"%string "0xdd"%string "0xee"%string 43%N "account".
Definition message : MasterViewSeedMessage := mk_seed_message (D := toy) "account" "0xcc"%string 5%N.

Lemma stored_objects_read_back_witness :
  exists s', create_intent None intent no_tables = (Ok tt, s') /\
    get_intent None (io_recovery_stream_seed intent) s' = (Ok (Some intent), s').
Proof.
  destruct (stored_objects_read_back (mvs_new (D := toy) "account" "0xcc"%string 5%N) (first_object message)
    (generic_new (D := toy) 1%N "account" Intent_ 2%N 3%N "0xcc"%string [] [])
    intent balance no_tables) as (_ & _ & _ & [_ Hi] & _).
  - apply mvs_new_wf.
  - apply expected_new_wf.
  - apply generic_new_wf.
  - apply iso_new_wf. unfold in_u. lia.
  - unfold balance_wf, in_u. cbn. lia.
  - apply Hi. intros [x Hx]. cbn in Hx. by rewrite lookup_empty in Hx.
Defined.

Definition decode (body : string) : res string SqsMessage :=
  if String.eqb body "register" then Ok (RegisterMasterViewSeed message)
  else if String.eqb body "spend" then Ok (NullifierSpend (mk_spend_message (D := toy) 9%N "0x01"))
  else Err "expected value"%string.
Definition sqs (body group : string) : Message := mk_message (Some body) (Some "handle"%string) (Some group).
Definition fine : env :=
  mk_env (Ok tt) None (fun _ => None) Committed (fun _ => Ok (Some (mk_receipt (Some 100)))) (true, None).
(** The message stays in the queue: its deletion fails. *)
Definition undeleted : env :=
  mk_env (Ok tt) None (fun _ => None) Committed (fun _ => Ok None) (false, Some "timeout"%string).

(** A registration, a spend that panics, and a registration behind it. *)
Definition batch : list label :=
  [Receive (Ok [sqs "register" "g"; sqs "spend" "h"; sqs "register" "h"; mk_message (Some "register"%string) None None]);
   Turn 0 fine; Turn 1 fine; Turn 1 fine]%string.
Example batch_run :
  let s := system_run decode batch system_new in
  length s.1 = 2%nat /\ st_deleted s.2 = [sqs "register" "g"] /\
  bool_decide (is_Some (master_view_seeds (st_tables s.2) !! "account"%string)) = true.
Proof. vm_compute. repeat split. Qed.

Lemma redelivered_registration_stuck_witness :
  exists s, (handle_sqs_message decode undeleted (sqs "register" "g") (mk_state no_tables [])).2 = s /\
    foldl (fun s env => (handle_sqs_message decode env (sqs "register" "g") s).2) s [fine; fine; undeleted] = s.
Proof.
  eexists. split; [reflexivity|].
  apply (redelivered_registration_stuck decode (sqs "register" "g") "register" message);
    [reflexivity|reflexivity|].
  apply (register_registered message no_tables).
Defined.
End IndexerWitness.
