(* ===== verification/Venues.v ===== *)
(** * Funds manager: execution venues

    The clients behind the trait [ExecutionVenue] that a swap fetches quotes from
    and executes them on (funds-manager, execution_client/venues/): Lifi and
    Bebop, which answer with a transaction to send, and Cowswap, where an order
    is signed, placed and waited for; with the on-chain helpers they share
    (helpers.rs).  [Swap] models the loop that uses them; its record [market]
    is what it knows of a venue, and [market_of] builds one from the clients.

    Replies of the HTTP services and of the node are arguments; what reaches
    the chain and the order book is the state.  Text formats, addresses and
    signatures are the class [VenueLib]. *)
From Stdlib Require Import ZArith Lia Ascii String.
From stdpp Require Import gmap strings list.
From S2P Require Import Prelude F64 AuthError Swap.
From S2P Require FundsManager.
Import FundsManager.SendTx.
Local Open Scope Z_scope.

Abbreviation FMError := FundsManager.FundsManagerError.

(** The order that is signed (cowswap/abi.rs) and the domain it is signed in. *)
Record Order := mk_order {
  o_sellToken : Address; o_buyToken : Address; o_receiver : Address; o_sellAmount : Z; o_buyAmount : Z;
  o_validTo : Z; o_appData : list Z; o_feeAmount : Z; o_kind : string; o_partiallyFillable : bool;
  o_sellTokenBalance : string; o_buyTokenBalance : string }.
Record Eip712Domain := mk_domain {
  dom_name : string; dom_version : string; dom_chain_id : Z; dom_verifying_contract : Address }.

Class VenueLib := {
  parse_address : string -> option Address;
  address_to_string : Address -> string;
  (** [Token::get_addr] of a token, which stands for its address *)
  token_addr : Address -> string;
  token_from_addr : string -> Address;
  u256_from_str_radix : string -> Z -> option Z;
  u256_to_string : Z -> string;
  hex_decode : string -> option (list Z);
  parse_tx_hash : string -> option Z;
  (** [U256::from(f64)], which panics on what is not a [U256] *)
  u256_from_f64 : f64 -> option Z;
  sign_hash : Eip712Domain -> Order -> option string;
  fm_text : FMError -> string;
  parse_token_addr a : parse_address (token_addr a) = Some a;
  u256_from_f64_range x v : u256_from_f64 x = Some v -> in_u 256 v }.

(** ** On-chain helpers (helpers.rs) *)
Definition APPROVAL_AMPLIFIER : Z := 4.

Inductive Tx :=
  | ApproveTx (token spender : Address) (amount : Z)
  | SwapTx (to from : Address) (value : Z) (data : list Z) (max_fee max_priority_fee : Z).
(** A log, with the recipient and value when it decodes as a [Transfer]. *)
Record Log := mk_log { lg_address : Address; lg_transfer : option (Address * Z) }.
Record TransactionReceipt := mk_receipt {
  rc_hash : Z; rc_status : bool; rc_gas_used : Z; rc_effective_gas_price : Z; rc_logs : list Log }.

(** The parameters of an order, and the request that places one. *)
Record OrderParameters := mk_order_params {
  op_sell_token : string; op_buy_token : string; op_sell_amount : Z; op_buy_amount : Z; op_valid_to : Z;
  op_fee_amount : Z; op_kind : OrderKind; op_partially_fillable : bool }.
Record OrderCreation := mk_creation {
  oc_order : OrderParameters; oc_signing_scheme : SigningScheme; oc_signature : string; oc_app_data : string }.

(** Transactions that reached the pool and orders that reached the book. *)
Record venue_state := mk_venue_state { vs_txs : list Tx; vs_orders : list OrderCreation }.
Definition submit (tx : Tx) (s : venue_state) : venue_state := mk_venue_state (vs_txs s ++ [tx]) (vs_orders s).
Definition place (o : OrderCreation) (s : venue_state) : venue_state := mk_venue_state (vs_txs s) (vs_orders s ++ [o]).

Section Chain.
Context {E : Type} (on_chain : string -> E).
(** The receipt of the approval is not looked at. *)
Definition approve_erc20_allowance (allowance : res string Z) (outs : nat -> send_outcome TransactionReceipt)
    (token spender : Address) (amount : Z) : eff venue_state E unit :=
  allowance ← lift (map_err on_chain allowance);
  if (amount <=? allowance : bool) then mret tt
  else
    let approval_amount := umul 256 amount APPROVAL_AMPLIFIER in
    _ ← send_tx_with_retry on_chain submit outs (ApproveTx token spender approval_amount);
    mret tt.
End Chain.

Definition get_gas_cost (r : TransactionReceipt) : Z := umul 256 (rc_gas_used r) (rc_effective_gas_price r).
(** [sum] of [U256]s wraps. *)
Definition get_received_amount (r : TransactionReceipt) (token recipient : Address) : Z :=
  let received log :=
    if negb (lg_address log =? token) then 0
    else match lg_transfer log with
         | None => 0
         | Some (to, value) => if to =? recipient then value else 0
         end in
  foldl (uadd 256) 0 (received <$> rc_logs r).

(** ** HTTP *)
Record http_reply := mk_reply { hr_status : Z; hr_body : res string string }.
Definition is_success (status : Z) : bool := (200 <=? status) && (status <? 300).
Definition handle_http_response {T} (decode : string -> res string T) (r : http_reply) : res FMError T :=
  if negb (is_success (hr_status r)) then
    body ← map_err FundsManager.HttpError (hr_body r);
    Err (FundsManager.HttpError ("Unexpected status code, body: " +:+ body)%string)
  else
    body ← map_err FundsManager.HttpError (hr_body r);
    map_err FundsManager.HttpError (decode body).

(** What one execution meets outside. *)
Record rpc := mk_rpc {
  rp_allowance : Address -> Address -> Address -> res string Z;   (* token, owner, spender *)
  rp_approve : nat -> send_outcome TransactionReceipt;
  rp_latest_block : res string (option (option Z));               (* its base fee *)
  rp_swap : nat -> send_outcome TransactionReceipt }.

Definition DEFAULT_SLIPPAGE_TOLERANCE : f64 := lit 1 1000.

Section Venues.
Context {VL : VenueLib}.
(** The hot wallet and the chain of the clients. *)
Context (hot_wallet : Address) (chain : Chain).
Abbreviation R := (res ExecutionClientError).
Abbreviation V := (eff venue_state ExecutionClientError).

Definition http_err {T} (r : res FMError T) : R T := map_err (fun e => Http (fm_text e)) r.
(** A request whose reply may not come: [From<reqwest::Error>]. *)
Definition http_get {T} (decode : string -> res string T) (reply : res string http_reply) : R T :=
  r ← map_err Http reply;
  http_err (handle_http_response decode r).

(** [trim_start_matches] with a pattern removes every repetition of it. *)
Fixpoint trim_0x (fuel : nat) (s : string) : string :=
  match fuel with
  | O => s
  | S fuel => if String.prefix "0x" s then trim_0x fuel (String.substring 2 (String.length s) s) else s
  end.
Definition trim_start_0x (s : string) : string := trim_0x (String.length s) s.

(** ** The transactions of Lifi and Bebop *)
Definition build_swap_tx (p : rpc) (to from : Address) (value : Z) (data : list Z) : V Tx :=
  block ← lift (map_err OnChain (rp_latest_block p));
  header ← lift (ok_or block (OnChain "No latest block found"));
  latest_basefee ← lift (ok_or header (OnChain "No basefee found"));
  mret (SwapTx to from value data (umul 128 latest_basefee 2) (umul 128 latest_basefee 2)).
(** Failures to send or to see the receipt, and reverts, are an execution
    without a transaction. *)
Definition swap_result (q : ExecutionQuote) (recipient : Address) (r : R TransactionReceipt) : R ExecutionResult :=
  match r with
  | Ok receipt =>
      let gas_cost := get_gas_cost receipt in
      if rc_status receipt then
        Ok (mk_result (get_received_amount receipt (buy_token q) recipient) gas_cost (Some (rc_hash receipt)))
      else Ok (mk_result 0 gas_cost None)
  | Err _ => Ok (mk_result 0 0 None)
  | Panic => Panic
  end.
(** A [match] on the outcome of a call. *)
Definition on_result {A B} (f : R A -> R B) (m : V A) : V B := fun s => let out := m s in (f out.1, out.2).
Definition run_swap (p : rpc) (q : ExecutionQuote) (spender to from : Address) (value : Z) (data : list Z) :
    V ExecutionResult :=
  _ ← approve_erc20_allowance OnChain (rp_allowance p (sell_token q) hot_wallet spender) (rp_approve p)
        (sell_token q) spender (sell_amount q);
  tx ← build_swap_tx p to from value data;
  on_result (swap_result q from) (send_tx_with_retry OnChain submit (rp_swap p) tx).

(** ** Lifi (lifi/mod.rs, lifi/api_types.rs) *)
Definition LIFI_DIAMOND_ADDRESS : Address := 0x1231deb6f5749ef6ce6943a275a1d3e7486f4eae.
Definition DEFAULT_MAX_PRICE_IMPACT : f64 := lit 3 10.
Definition DEFAULT_TIMING_STRATEGY : string := "minWaitTime-600-4-300".
Definition DEFAULT_ORDER_PREFERENCE : string := "CHEAPEST".
Record LifiQuoteParams := mk_lifi_params {
  lp_from_token : string; lp_to_token : string; lp_from_amount : Z; lp_from_address : string;
  lp_to_address : option string; lp_from_chain : Z; lp_to_chain : Z; lp_slippage : option f64;
  lp_max_price_impact : option f64; lp_swap_step_timing_strategies : option (list string);
  lp_order : option string; lp_skip_simulation : option bool; lp_allow_exchanges : option (list string);
  lp_deny_exchanges : option (list string) }.
Record LifiQuote := mk_lifi_quote {
  lq_to : string; lq_data : string; lq_value : string; lq_from_amount : string; lq_to_amount : string;
  lq_from_token : string; lq_to_token : string; lq_from_address : string; lq_tool : string }.

Definition lifi_sell_amount (q : LifiQuote) : R Z :=
  ok_or (u256_from_str_radix (lq_from_amount q) 10) (QuoteConversion "amount").
Definition lifi_buy_amount (q : LifiQuote) : R Z :=
  ok_or (u256_from_str_radix (lq_to_amount q) 10) (QuoteConversion "amount").
Definition lifi_to_address (q : LifiQuote) : R Address :=
  ok_or (parse_address (lq_to q)) (QuoteConversion "address").
Definition lifi_from_address (q : LifiQuote) : R Address :=
  ok_or (parse_address (lq_from_address q)) (QuoteConversion "address").
Definition lifi_value (q : LifiQuote) : R Z :=
  ok_or (u256_from_str_radix (trim_start_0x (lq_value q)) 16) (QuoteConversion "value").
Definition lifi_calldata (q : LifiQuote) : R (list Z) :=
  ok_or (hex_decode (trim_start_0x (lq_data q))) (QuoteConversion "calldata").
Definition get_cross_venue_source (q : LifiQuote) : CrossVenueQuoteSource := LifiExchange (lq_tool q).

Definition from_lifi_quote (q : LifiQuote) : R ExecutableQuote :=
  sell_amount ← lifi_sell_amount q;
  buy_amount ← lifi_buy_amount q;
  to ← lifi_to_address q;
  from ← lifi_from_address q;
  value ← lifi_value q;
  data ← lifi_calldata q;
  Ok (mk_executable
    (mk_quote (token_from_addr (lq_from_token q)) (token_from_addr (lq_to_token q)) sell_amount buy_amount Lifi
       (get_cross_venue_source q))
    (LifiData (mk_lifi_data to from value data (lq_tool q)))).

Definition denied (s : CrossVenueQuoteSource) : option string :=
  match s with LifiExchange exchange => Some exchange | _ => None end.
Definition lifi_construct_quote_params (p : QuoteParams) (excluded : list CrossVenueQuoteSource) : LifiQuoteParams :=
  let chain_id := FundsManager.to_chain_id chain in
  mk_lifi_params (token_addr (from_token p)) (token_addr (to_token p)) (from_amount p)
    (address_to_string hot_wallet) None chain_id chain_id
    (match slippage_tolerance p with Some x => Some x | None => Some DEFAULT_SLIPPAGE_TOLERANCE end)
    (Some DEFAULT_MAX_PRICE_IMPACT) (Some [DEFAULT_TIMING_STRATEGY]) (Some DEFAULT_ORDER_PREFERENCE)
    (Some true) None (Some (omap denied excluded)).

(** [api] is the service: the reply to a query, and how it decodes. *)
Definition lifi_get_quotes (to_query : LifiQuoteParams -> option string) (api : string -> res string http_reply)
    (decode : string -> res string LifiQuote) (p : QuoteParams) (excluded : list CrossVenueQuoteSource) :
    R (list ExecutableQuote) :=
  query ← ok_or (to_query (lifi_construct_quote_params p excluded)) (Parse "query");
  resp ← http_get decode (api query);
  q ← from_lifi_quote resp;
  Ok [q].
Definition lifi_data (d : QuoteExecutionData) : R LifiQuoteExecutionData :=
  match d with LifiData d => Ok d | _ => Err (QuoteConversion "Non-Lifi quote execution data") end.
Definition lifi_execute_quote (p : rpc) (q : ExecutableQuote) : V ExecutionResult :=
  d ← lift (lifi_data (execution_data q));
  run_swap p (quote q) LIFI_DIAMOND_ADDRESS (ld_to d) (ld_from d) (ld_value d) (ld_data d).

(** ** Bebop (bebop/mod.rs, bebop/api_types.rs) *)
Inductive BebopRouteSource := JAMv2 | PMMv3.
#[export] Instance route_source_eq : EqDecision BebopRouteSource.
Proof. solve_decision. Defined.
(** The token maps in their iteration order. *)
Record BebopQuote := mk_bebop_quote {
  bq_buy_tokens : list (string * Z); bq_sell_tokens : list (string * Z); bq_approval_target : Address;
  bq_from : Address; bq_to : Address; bq_value : Z; bq_data : list Z }.
Record BebopRoute := mk_route { route_source : BebopRouteSource; route_quote : BebopQuote }.
Record BebopQuoteParams := mk_bebop_params {
  bp_sell_tokens : string; bp_buy_tokens : string; bp_sell_amounts : string; bp_taker_address : string;
  bp_gasless : bool; bp_slippage : f64; bp_skip_validation : bool; bp_skip_taker_checks : bool;
  bp_source : string }.

Definition to_bebop_chain (c : Chain) : R string :=
  match c with
  | ArbitrumOne => Ok "arbitrum"%string
  | BaseMainnet => Ok "base"%string
  | _ => Err (OnChain "Bebop does not support chain")
  end.
Definition get_checksummed_address (to_checksum : Address -> string) (a : string) : R string :=
  ok_or (to_checksum <$> parse_address a) (Parse "address").
Definition bebop_construct_quote_params (to_checksum : Address -> string) (p : QuoteParams) : R BebopQuoteParams :=
  sell_tokens ← get_checksummed_address to_checksum (token_addr (from_token p));
  buy_tokens ← get_checksummed_address to_checksum (token_addr (to_token p));
  Ok (mk_bebop_params sell_tokens buy_tokens (u256_to_string (from_amount p)) (address_to_string hot_wallet)
        false (default DEFAULT_SLIPPAGE_TOLERANCE (slippage_tolerance p)) true true "renegade").

Definition route_for_source (routes : list BebopRoute) (s : CrossVenueQuoteSource) : R BebopRoute :=
  wanted ← match s with
           | BebopJAMv2 => Ok JAMv2
           | BebopPMMv3 => Ok PMMv3
           | _ => Err (Custom "Invalid Bebop quote source")
           end;
  ok_or (list_find (fun r => route_source r = wanted) routes ≫= fun x => Some x.2)
    (Custom "Winning Bebop route not found").
Definition from_bebop_quote (routes : list BebopRoute) (s : CrossVenueQuoteSource) : R ExecutableQuote :=
  route ← route_for_source routes s;
  let q := route_quote route in
  sell ← ok_or (head (bq_sell_tokens q)) (Custom "No sell token found");
  buy ← ok_or (head (bq_buy_tokens q)) (Custom "No buy token found");
  Ok (mk_executable (mk_quote (token_from_addr sell.1) (token_from_addr buy.1) sell.2 buy.2 Bebop s)
        (BebopData (mk_bebop_data (bq_to q) (bq_from q) (bq_value q) (bq_data q) (bq_approval_target q)))).
(** A route that is missing or does not convert is logged and left out. *)
Fixpoint bebop_quotes (routes : list BebopRoute) (sources : list CrossVenueQuoteSource) : R (list ExecutableQuote) :=
  match sources with
  | [] => Ok []
  | s :: sources =>
      match from_bebop_quote routes s with
      | Ok q => qs ← bebop_quotes routes sources; Ok (q :: qs)
      | Err _ => bebop_quotes routes sources
      | Panic => Panic
      end
  end.
#[export] Instance quote_source_eq : EqDecision CrossVenueQuoteSource.
Proof. solve_decision. Defined.
Definition bebop_get_quotes (to_checksum : Address -> string) (to_query : BebopQuoteParams -> option string)
    (api : string -> string -> res string http_reply) (decode : string -> res string (list BebopRoute))
    (p : QuoteParams) (excluded : list CrossVenueQuoteSource) : R (list ExecutableQuote) :=
  let sources := filter (fun s => s ∉ excluded) [BebopJAMv2; BebopPMMv3] in
  params ← bebop_construct_quote_params to_checksum p;
  query ← ok_or (to_query params) (Parse "query");
  bebop_chain ← to_bebop_chain chain;
  routes ← http_get decode (api bebop_chain query);
  bebop_quotes routes sources.
Definition bebop_data (d : QuoteExecutionData) : R BebopQuoteExecutionData :=
  match d with BebopData d => Ok d | _ => Err (QuoteConversion "Non-Bebop quote execution data") end.
Definition bebop_execute_quote (p : rpc) (q : ExecutableQuote) : V ExecutionResult :=
  d ← lift (bebop_data (execution_data q));
  run_swap p (quote q) (bd_approval_target d) (bd_to d) (bd_from d) (bd_value d) (bd_data d).

(** ** Cowswap (cowswap/mod.rs, cowswap/api_types.rs) *)
Definition COWSWAP_ORDER_VALID_FOR : Z := 120.
Definition BPS_PER_UNIT : Z := 10000.
Definition MAX_TRADE_EXECUTION_WAIT_TIME : Z := 60.
Definition DEFAULT_APP_DATA : string := "{}".
Definition DEFAULT_APP_DATA_HASH : string := "0xb48d38f93eaa084033fc5970bf96e559c33c4cdc07d889ab00b4d63f9590739d".
Definition DEFAULT_BALANCE_KIND : string := "erc20".
Definition EIP_712_DOMAIN_NAME : string := "Gnosis Protocol".
Definition EIP_712_DOMAIN_VERSION : string := "v2".
Definition COWSWAP_SETTLEMENT_CONTRACT_ADDRESS : Address := 0x9008D19f58AAbD9eD0D60971565AA8510560ab41.
Definition COWSWAP_VAULT_RELAYER_ADDRESS : Address := 0xC92E8bdf79f0507f65a392b0ab4667716BFE0110.
Definition order_kind_text (k : OrderKind) : string := match k with SellOrder => "sell" end.

Record OrderQuoteRequest := mk_quote_request {
  qr_sell_token : string; qr_buy_token : string; qr_from : string; qr_kind : OrderKind;
  qr_sell_amount_before_fee : Z }.
Record Trade := mk_trade { tr_buy_amount : Z; tr_tx_hash : string }.

Definition to_cowswap_chain (c : Chain) : R string :=
  match c with
  | ArbitrumOne => Ok "arbitrum_one"%string
  | BaseMainnet => Ok "base"%string
  | _ => Err (OnChain "Cowswap does not support chain")
  end.
Definition cowswap_construct_quote_params (p : QuoteParams) : OrderQuoteRequest :=
  mk_quote_request (token_addr (from_token p)) (token_addr (to_token p)) (address_to_string hot_wallet)
    SellOrder (from_amount p).
(** Fees are added back to what is sold, slippage is taken off what is bought. *)
Definition get_quote_amounts_after_costs (q : OrderParameters) (slippage : option f64) : R (Z * Z) :=
  let sell_amount_after_fees := uadd 256 (op_sell_amount q) (op_fee_amount q) in
  let buy_amount_after_fees := op_buy_amount q in
  let slippage_f64 := fmul (default DEFAULT_SLIPPAGE_TOLERANCE slippage) (of_Z BPS_PER_UNIT) in
  bps ← unwrap (u256_from_f64 slippage_f64);
  match op_kind q with
  | SellOrder =>
      let slippage_amount := umul 256 buy_amount_after_fees bps / BPS_PER_UNIT in
      Ok (sell_amount_after_fees, usub 256 buy_amount_after_fees slippage_amount)
  end.
(** [now] is in seconds. *)
Definition compute_valid_to (now : Z) : Z := uadd 32 (uwrap 32 now) COWSWAP_ORDER_VALID_FOR.
Definition from_cowswap_quote (now : Z) (q : OrderParameters) (slippage : option f64) : R ExecutableQuote :=
  '(sell, buy) ← get_quote_amounts_after_costs q slippage;
  Ok (mk_executable
    (mk_quote (token_from_addr (op_sell_token q)) (token_from_addr (op_buy_token q)) sell buy Cowswap CowswapSource)
    (CowswapData (mk_cowswap_data (compute_valid_to now) 0 (op_kind q) false Eip712 "" DEFAULT_APP_DATA))).
Definition cowswap_get_quotes (now : Z) (api : string -> OrderQuoteRequest -> res string http_reply)
    (decode : string -> res string OrderParameters) (p : QuoteParams) (excluded : list CrossVenueQuoteSource) :
    R (list ExecutableQuote) :=
  if decide (CowswapSource ∈ excluded) then Ok []
  else
    cowswap_chain ← to_cowswap_chain chain;
    q ← http_get decode (api cowswap_chain (cowswap_construct_quote_params p));
    eq ← from_cowswap_quote now q (slippage_tolerance p);
    Ok [eq].

Definition construct_signable_order (o : OrderParameters) : R Order :=
  sell_token ← ok_or (parse_address (op_sell_token o)) (Parse "address");
  buy_token ← ok_or (parse_address (op_buy_token o)) (Parse "address");
  app_data ← ok_or (hex_decode DEFAULT_APP_DATA_HASH) (Parse "hash");
  Ok (mk_order sell_token buy_token 0 (op_sell_amount o) (op_buy_amount o) (op_valid_to o) app_data
        (op_fee_amount o) (order_kind_text (op_kind o)) (op_partially_fillable o)
        DEFAULT_BALANCE_KIND DEFAULT_BALANCE_KIND).
Definition eip712_domain : Eip712Domain :=
  mk_domain EIP_712_DOMAIN_NAME EIP_712_DOMAIN_VERSION (FundsManager.to_chain_id chain)
    COWSWAP_SETTLEMENT_CONTRACT_ADDRESS.
Definition sign_order (o : OrderParameters) : R string :=
  order ← construct_signable_order o;
  ok_or (sign_hash eip712_domain order) (QuoteConversion "signature").
Definition cowswap_data (d : QuoteExecutionData) : R CowswapQuoteExecutionData :=
  match d with CowswapData d => Ok d | _ => Err (QuoteConversion "Non-Cowswap quote execution data") end.
Definition construct_order_request (q : ExecutableQuote) : R OrderCreation :=
  d ← cowswap_data (execution_data q);
  let order := mk_order_params (token_addr (sell_token (quote q))) (token_addr (buy_token (quote q)))
    (sell_amount (quote q)) (buy_amount (quote q)) (cd_valid_to d) (cd_fee_amount d) (cd_kind d)
    (cd_partially_fillable d) in
  signature ← sign_order order;
  Ok (mk_creation order (cd_signing_scheme d) signature (cd_app_data d)).

(** The polls of an order: what the [i]th of them returns, and the seconds that
    have passed when it starts.  A pause of a second follows each. *)
Fixpoint await_loop (fuel : nat) (elapsed : nat -> Z) (trades : nat -> R (list Trade)) (i : nat) :
    option (R ExecutionResult) :=
  match fuel with
  | O => None
  | S fuel =>
      if elapsed i <? MAX_TRADE_EXECUTION_WAIT_TIME then
        match trades i with
        | Ok (trade :: _) =>
            Some (h ← ok_or (parse_tx_hash (tr_tx_hash trade)) (Parse "tx hash");
                  Ok (mk_result (tr_buy_amount trade) 0 (Some h)))
        | Ok [] => await_loop fuel elapsed trades (S i)
        | Err e => Some (Err e)
        | Panic => Some Panic
        end
      else Some (Ok (mk_result 0 0 None))
  end.
Definition AWAIT_FUEL : nat := 61.
Definition await_trade_execution (elapsed : nat -> Z) (trades : nat -> R (list Trade)) : R ExecutionResult :=
  default Panic (await_loop AWAIT_FUEL elapsed trades 0).

(** How the book answers an order: refused, lost on the way or on the way
    back, or placed. *)
Inductive placement := Refused (e : ExecutionClientError) | NoReply (reached : bool) (e : ExecutionClientError) | Placed.
Record book := mk_book { bk_place : placement; bk_elapsed : nat -> Z; bk_trades : nat -> R (list Trade) }.
Definition place_order (b : book) (o : OrderCreation) : V unit :=
  match bk_place b with
  | Refused e => lift (Err e)
  | NoReply reached e => _ ← modify (if reached then place o else id); lift (Err e)
  | Placed => modify (place o)
  end.
Definition cowswap_execute_quote (p : rpc) (b : book) (q : ExecutableQuote) : V ExecutionResult :=
  _ ← approve_erc20_allowance OnChain (rp_allowance p (sell_token (quote q)) hot_wallet COWSWAP_VAULT_RELAYER_ADDRESS)
        (rp_approve p) (sell_token (quote q)) COWSWAP_VAULT_RELAYER_ADDRESS (sell_amount (quote q));
  order_request ← lift (construct_order_request q);
  _ ← place_order b order_request;
  lift (await_trade_execution (bk_elapsed b) (bk_trades b)).

(** ** The venues of the execution client (venues/mod.rs) *)
Record services := mk_services {
  sv_lifi : QuoteParams -> list CrossVenueQuoteSource -> R (list ExecutableQuote);
  sv_bebop : QuoteParams -> list CrossVenueQuoteSource -> R (list ExecutableQuote);
  sv_cowswap : QuoteParams -> list CrossVenueQuoteSource -> R (list ExecutableQuote) }.
(** [get_venue] does not know Okx. *)
Definition venue_get_quotes (sv : services) (v : SupportedExecutionVenue) :
    QuoteParams -> list CrossVenueQuoteSource -> R (list ExecutableQuote) :=
  match v with
  | Lifi => sv_lifi sv
  | Bebop => sv_bebop sv
  | Cowswap => sv_cowswap sv
  | Okx => fun _ _ => Panic
  end.
Definition venue_execute_quote (p : rpc) (b : book) (v : SupportedExecutionVenue) (q : ExecutableQuote) :
    V ExecutionResult :=
  match v with
  | Lifi => lifi_execute_quote p q
  | Bebop => bebop_execute_quote p q
  | Cowswap => cowswap_execute_quote p b q
  | Okx => lift Panic
  end.
(** What [Swap] sees of the venues in one iteration: answers do not depend on
    what was sent before. *)
Definition market_of (balance : R Z) (price : Address -> R f64) (sv : services) (p : rpc) (b : book) : market :=
  mk_market balance price (venue_get_quotes sv)
    (fun v q => (venue_execute_quote p b v q (mk_venue_state [] [])).1).
End Venues.

(** ** What reaches the chain *)
#[local] Arguments send_tx_with_retry : simpl never.
Lemma submit_neq tx s : s <> submit tx s.
Proof.
  intros H. apply (f_equal (length ∘ vs_txs)) in H. cbn in H. rewrite length_app in H. cbn in H. lia.
Qed.
Section ChainLemmas.
Context {E : Type} (on_chain : string -> E).

(** An allowance is approved only when it is too small, at four times the
    amount; success without a transaction means that it was large enough. *)
Lemma approve_cases allowance outs token spender amount s r s' :
  approve_erc20_allowance on_chain allowance outs token spender amount s = (r, s') ->
  (s' = s \/ (s' = submit (ApproveTx token spender (umul 256 amount APPROVAL_AMPLIFIER)) s /\
              exists a, allowance = Ok a /\ a < amount)) /\
  (r = Ok tt -> s' = s -> exists a, allowance = Ok a /\ amount <= a).
Proof.
  unfold approve_erc20_allowance, lift, mbind, eff_bind.
  destruct allowance as [a|e|]; cbn; [|intros [= <- <-]; split; [by left|done]..].
  destruct (Z.leb_spec amount a); [intros [= <- <-]; split; [by left|by exists a]|].
  destruct (send_tx_with_retry _ _ _ _) as [[rc|e|] s1] eqn:Hs; cbn;
    apply send_loop_cases in Hs as [Hs Hrc]; intros [= <- <-];
    (split; [destruct Hs as [-> | ->]; [by left|right; by eauto]|]); [|done..].
  intros _ Heq. destruct (Hrc rc) as [_ Hsub]. rewrite Heq in Hsub. by destruct (submit_neq _ _ (Hsub eq_refl)).
Qed.

(** An approval that confirms covers the amount, unless it overflows. *)
Lemma approval_covers amount : in_u 254 amount -> amount <= umul 256 amount APPROVAL_AMPLIFIER.
Proof.
  unfold in_u, umul, APPROVAL_AMPLIFIER. intros [? ?].
  rewrite uwrap_id; [lia|]. unfold in_u. change (2 ^ 256) with (2 ^ 254 * 4). lia.
Qed.
End ChainLemmas.

(** The amount received is the sum of the transfers of the token to the
    recipient, in 256 bits. *)
Lemma foldl_uadd l z : in_u 256 z -> foldl (uadd 256) z l = uwrap 256 (z + foldr Z.add 0 l).
Proof.
  revert z. induction l as [|x l IH]; intros z Hz; cbn.
  - rewrite Z.add_0_r. symmetry. by apply uwrap_id.
  - rewrite IH by (apply uwrap_range; lia). unfold uadd, uwrap. rewrite Zplus_mod_idemp_l. f_equal. lia.
Qed.

(** *** Contracts of the venues

    What [ExecutionVenue::get_quotes] promises: quotes of different sources,
    none of them excluded, each executed on the venue that gave it. *)
Class VenueContract (get : QuoteParams -> list CrossVenueQuoteSource -> res ExecutionClientError (list ExecutableQuote)) := {
  quotes_unique p ex qs : get p ex = Ok qs -> NoDup ((fun q => source (quote q)) <$> qs);
  quotes_not_excluded p ex qs q : get p ex = Ok qs -> q ∈ qs -> source (quote q) ∉ ex;
  quotes_own p ex qs q : get p ex = Ok qs -> q ∈ qs -> execution_venue q = quote_venue (quote q) }.

Section VenueLemmas.
Context {VL : VenueLib} (hot_wallet : Address) (chain : Chain).

Lemma from_bebop_quote_Ok routes s q :
  from_bebop_quote routes s = Ok q ->
  source (quote q) = s /\ quote_venue (quote q) = Bebop /\ execution_venue q = Bebop.
Proof. unfold from_bebop_quote. intros H. inv_ok. by subst. Qed.

Lemma bebop_quotes_sources routes sources qs :
  bebop_quotes routes sources = Ok qs ->
  ((fun q => source (quote q)) <$> qs) `sublist_of` sources /\
  (forall q, q ∈ qs -> source (quote q) ∈ sources /\ execution_venue q = quote_venue (quote q)).
Proof.
  revert qs. induction sources as [|s sources IH]; intros qs; cbn.
  { intros [= <-]. split; [constructor|by intros q ?%elem_of_nil]. }
  destruct (from_bebop_quote routes s) as [q|e|] eqn:Hq; [| |done].
  - intros H. apply bind_Ok_inv in H as (qs' & H & [= <-]). destruct (IH _ H) as [Hs Hin].
    apply from_bebop_quote_Ok in Hq as (Hsrc & Hv & He). split.
    + cbn. rewrite Hsrc. by constructor.
    + intros q' [->|Hq']%elem_of_cons; [rewrite Hsrc, He; split; [left|done]|].
      destruct (Hin _ Hq'). split; [by right|done].
  - intros H. destruct (IH _ H) as [Hs Hin]. split; [by constructor|].
    intros q' Hq'. destruct (Hin _ Hq'). split; [by right|done].
Qed.

#[export] Instance bebop_contract to_checksum to_query api decode :
  VenueContract (bebop_get_quotes hot_wallet chain to_checksum to_query api decode).
Proof.
  assert (H : forall p ex qs, bebop_get_quotes hot_wallet chain to_checksum to_query api decode p ex = Ok qs ->
    exists routes, bebop_quotes routes (filter (fun s => s ∉ ex) [BebopJAMv2; BebopPMMv3]) = Ok qs).
  { intros p ex qs H. unfold bebop_get_quotes in H. inv_ok. eauto. }
  split; intros p ex qs.
  - intros [routes Hq]%H. apply bebop_quotes_sources in Hq as [Hs _].
    eapply sublist_NoDup; [|exact Hs]. apply NoDup_filter. repeat constructor; set_solver.
  - intros q [routes Hq]%H Hin. apply bebop_quotes_sources in Hq as [_ Hs].
    by apply Hs in Hin as [[? _]%list_elem_of_filter _].
  - intros q [routes Hq]%H Hin. apply bebop_quotes_sources in Hq as [_ Hs]. by apply Hs.
Qed.

#[export] Instance cowswap_contract now api decode :
  VenueContract (cowswap_get_quotes hot_wallet chain now api decode).
Proof.
  assert (H : forall p ex qs, cowswap_get_quotes hot_wallet chain now api decode p ex = Ok qs ->
    qs = [] \/ ((CowswapSource ∉ ex) /\ exists q, qs = [q] /\ source (quote q) = CowswapSource /\
                execution_venue q = quote_venue (quote q))).
  { intros p ex qs H. unfold cowswap_get_quotes in H. destruct (decide _); [by injection H as <-; left|].
    right. split; [done|]. inv_ok. subst. unfold from_cowswap_quote in *. inv_ok.
    destruct x2 as [a b]. inv_ok. subst. eexists. done. }
  split; intros p ex qs.
  - intros [->|(_ & q & -> & _)]%H; repeat constructor; set_solver.
  - intros q [->|(Hn & q' & -> & Hs & _)]%H Hin; [by apply elem_of_nil in Hin|].
    apply list_elem_of_singleton in Hin as ->. by rewrite Hs.
  - intros q [->|(Hn & q' & -> & _ & Ho)]%H Hin; [by apply elem_of_nil in Hin|].
    by apply list_elem_of_singleton in Hin as ->.
Qed.

(** Lifi excludes through its API only: the contract holds if no reply is
    routed through an exchange of the deny list of its query. *)
Definition denies (to_query : LifiQuoteParams -> option string) (api : string -> res string http_reply)
    (decode : string -> res string LifiQuote) : Prop :=
  forall lp query q, to_query lp = Some query -> http_get decode (api query) = Ok q ->
    forall l, lp_deny_exchanges lp = Some l -> lq_tool q ∉ l.
Lemma lifi_contract to_query api decode :
  denies to_query api decode -> VenueContract (lifi_get_quotes hot_wallet chain to_query api decode).
Proof.
  intros Hden.
  assert (H : forall p ex qs, lifi_get_quotes hot_wallet chain to_query api decode p ex = Ok qs ->
    exists q, qs = [q] /\ (source (quote q) ∉ ex) /\ execution_venue q = quote_venue (quote q)).
  { intros p ex qs H. unfold lifi_get_quotes in H.
    apply bind_Ok_inv in H as (query & Hq & H). apply bind_Ok_inv in H as (resp & Hr & H).
    apply bind_Ok_inv in H as (q & Hf & [= <-]). exists q. split; [done|].
    destruct (to_query _) as [query'|] eqn:Ht; [|done]. injection Hq as ->.
    unfold from_lifi_quote in Hf. inv_ok. subst q. cbn. split; [|done].
    intros Hin. eapply (Hden _ _ _ Ht Hr); [reflexivity|].
    apply list_elem_of_omap. eexists. split; [exact Hin|done]. }
  split; intros p ex qs.
  - intros (q & -> & _)%H. repeat constructor; set_solver.
  - intros q (q' & -> & Hs & _)%H Hin. by apply list_elem_of_singleton in Hin as ->.
  - intros q (q' & -> & _ & Ho)%H Hin. by apply list_elem_of_singleton in Hin as ->.
Qed.
End VenueLemmas.

(** *** Executions *)
Section Execution.
Context {VL : VenueLib} (hot_wallet : Address) (chain : Chain).

(** The call of a quote that is a transaction: spender, target, sender, value
    and calldata. *)
Definition swap_call (q : ExecutableQuote) : option (Address * Address * Address * Z * list Z) :=
  match execution_data q with
  | LifiData d => Some (LIFI_DIAMOND_ADDRESS, ld_to d, ld_from d, ld_value d, ld_data d)
  | BebopData d => Some (bd_approval_target d, bd_to d, bd_from d, bd_value d, bd_data d)
  | CowswapData _ => None
  end.
(** The tokens that the logs of a receipt move to the recipient. *)
Definition tokens_received (token recipient : Address) (logs : list Log) : Z :=
  foldr (fun lg total =>
    match lg_transfer lg with
    | Some (to, value) => if decide (lg_address lg = token /\ to = recipient) then value + total else total
    | None => total
    end) 0 logs.

Lemma received_spec rc token recipient :
  get_received_amount rc token recipient = uwrap 256 (tokens_received token recipient (rc_logs rc)).
Proof.
  unfold get_received_amount. rewrite foldl_uadd by (unfold in_u; lia). f_equal. rewrite Z.add_0_l.
  induction (rc_logs rc) as [|lg logs IH]; [done|]. cbn. rewrite IH.
  destruct (Z.eqb_spec (lg_address lg) token) as [Ht|Ht]; cbn; destruct (lg_transfer lg) as [[to v]|];
    try reflexivity.
  - destruct (Z.eqb_spec to recipient), (decide (lg_address lg = token /\ to = recipient)); naive_solver.
  - destruct (decide (lg_address lg = token /\ to = recipient)) as [[? _]|]; [done|reflexivity].
Qed.

(** What a result says of the call: a receipt that confirmed it gives the gas,
    and, unless the call reverted, the hash and the tokens received; without one
    nothing is reported. *)
Definition reports (p : rpc) (q : ExecutionQuote) (recipient : Address) (swaps : list Tx)
    (x : ExecutionResult) : Prop :=
  (exists rc, confirmed (rp_swap p) 0 5 rc /\ swaps <> [] /\
     gas_cost x = (rc_gas_used rc * rc_effective_gas_price rc) mod 2 ^ 256 /\
     if rc_status rc
     then tx_hash x = Some (rc_hash rc) /\
          buy_amount_actual x = tokens_received (buy_token q) recipient (rc_logs rc) mod 2 ^ 256
     else tx_hash x = None /\ buy_amount_actual x = 0) \/
  ((forall rc, ~ confirmed (rp_swap p) 0 5 rc) /\ x = mk_result 0 0 None).

(** The transactions of an execution: an approval when the allowance is too
    small, then the call, each at most once. *)
Definition executed (p : rpc) (q : ExecutionQuote) (spender to from : Address) (value : Z) (data : list Z)
    (s : venue_state) (r : res ExecutionClientError ExecutionResult) (s' : venue_state) : Prop :=
  exists approvals swaps,
    s' = mk_venue_state (vs_txs s ++ approvals ++ swaps) (vs_orders s) /\
    (approvals = [] \/
     (approvals = [ApproveTx (sell_token q) spender ((4 * sell_amount q) mod 2 ^ 256)] /\
      exists a, rp_allowance p (sell_token q) hot_wallet spender = Ok a /\ a < sell_amount q)) /\
    (swaps = [] \/ exists base, rp_latest_block p = Ok (Some (Some base)) /\
       swaps = [SwapTx to from value data ((2 * base) mod 2 ^ 128) ((2 * base) mod 2 ^ 128)]) /\
    (forall x, r = Ok x -> reports p q from swaps x).

Lemma swap_result_reports p q from swaps r2 x :
  (forall rc, r2 = Ok rc <-> confirmed (rp_swap p) 0 5 rc) ->
  (forall rc, r2 = Ok rc -> swaps <> []) ->
  swap_result q from r2 = Ok x -> reports p q from swaps x.
Proof.
  intros Hc Hne Hr. destruct r2 as [rc|e|]; cbn in Hr; [|injection Hr as <-; right|done].
  - left. exists rc. split; [by apply Hc|]. split; [by eapply Hne|].
    destruct (rc_status rc); injection Hr as <-; cbn; [|done].
    by rewrite received_spec.
  - split; [|done]. intros rc Hcf. by apply Hc in Hcf.
Qed.

Lemma run_swap_spec p q spender to from value data s r s' :
  run_swap hot_wallet p q spender to from value data s = (r, s') ->
  executed p q spender to from value data s r s'.
Proof.
  unfold run_swap, mbind, eff_bind.
  destruct (approve_erc20_allowance _ _ _ _ _ _ s) as [r1 s1] eqn:Ha. apply approve_cases in Ha as [Ha _].
  assert (Hsent : forall r swaps, (swaps = [] \/ exists base, rp_latest_block p = Ok (Some (Some base)) /\
      swaps = [SwapTx to from value data ((2 * base) mod 2 ^ 128) ((2 * base) mod 2 ^ 128)]) ->
    (forall x, r = Ok x -> reports p q from swaps x) ->
    executed p q spender to from value data s r (mk_venue_state (vs_txs s1 ++ swaps) (vs_orders s1))).
  { intros r0 swaps Hsw Hrep. destruct Ha as [-> | [-> Ha]].
    - exists [], swaps. split_and!; auto.
    - eexists [_], swaps. split_and!; [by cbn; rewrite <- app_assoc| |done..].
      right. split; [|done]. unfold umul, uwrap, APPROVAL_AMPLIFIER. by rewrite Z.mul_comm. }
  assert (Hnone : forall r0, (forall x, r0 <> Ok x) -> (r0, s1) = (r, s') -> executed p q spender to from value data s r s').
  { intros r0 Hr [= <- <-]. specialize (Hsent r0 [] ltac:(by left) ltac:(by intros x ?%Hr)).
    rewrite app_nil_r in Hsent. by destruct s1. }
  clear Ha. destruct r1 as [[]|e|]; [|by apply Hnone..].
  unfold build_swap_tx, lift, mret, eff_ret, mbind, eff_bind.
  destruct (rp_latest_block p) as [[[fee|]|]|e|] eqn:Hb; cbn; try (by apply Hnone).
  unfold on_result. destruct (send_tx_with_retry _ _ _ _) as [r2 s2] eqn:Hs. cbn.
  apply send_loop_cases in Hs as [Hs2 Hrc]. intros [= <- <-].
  assert (Hx : forall x swaps, (forall rc, r2 = Ok rc -> swaps <> []) -> swap_result q from r2 = Ok x ->
    reports p q from swaps x).
  { intros x swaps Hne. apply swap_result_reports; [|done]. intros rc. apply Hrc. }
  destruct Hs2 as [-> | ->].
  - specialize (Hsent (swap_result q from r2) []). rewrite app_nil_r in Hsent. destruct s1. apply Hsent; [by left|].
    intros x. apply Hx. intros rc H. apply Hrc in H. by apply submit_neq in H.
  - apply Hsent; [right; exists fee; split; [done|]|].
    + unfold umul, uwrap. by rewrite Z.mul_comm.
    + intros x. by apply Hx.
Qed.


(** A call that reaches the pool while its receipt does not come back is
    reported as a failed execution without gas; the swap then goes on with
    another source or a smaller amount while the call may still fill. *)
Theorem unconfirmed_swap_repeated p b q s spender to from value data fee tx j e balance price sv cumulative num :
  swap_call q = Some (spender, to, from, value, data) ->
  rp_allowance p (sell_token (quote q)) hot_wallet spender = Ok j -> sell_amount (quote q) <= j ->
  rp_latest_block p = Ok (Some (Some fee)) -> rp_swap p 0 = Pending (Err e) ->
  tx = SwapTx to from value data (umul 128 fee 2) (umul 128 fee 2) ->
  venue_execute_quote hot_wallet chain p b (execution_venue q) q s = (Ok (mk_result 0 0 None), submit tx s) /\
  exists flow, (execute_quote (market_of hot_wallet chain balance price sv p b) q cumulative num).1 = (Err flow, S num) /\
    (flow = ExcludeQuoteSource (source (quote q)) 0 \/ flow = DecreaseSwapSize 0).
Proof.
  intros Hc Ha Hle Hf Hp ->.
  assert (Hrun : forall s, run_swap hot_wallet p (quote q) spender to from value data s =
    (Ok (mk_result 0 0 None), submit (SwapTx to from value data (umul 128 fee 2) (umul 128 fee 2)) s)).
  { intros s0. unfold run_swap, approve_erc20_allowance, build_swap_tx, on_result, lift, mret, eff_ret, mbind, eff_bind.
    rewrite Ha. cbn. destruct (Z.leb_spec (sell_amount (quote q)) j); [|lia]. cbn. rewrite Hf. cbn.
    unfold send_tx_with_retry. cbn. rewrite Hp. done. }
  assert (Hex : forall s, venue_execute_quote hot_wallet chain p b (execution_venue q) q s =
    run_swap hot_wallet p (quote q) spender to from value data s).
  { intros s0. revert Hc. unfold swap_call, execution_venue.
    destruct (execution_data q) as [d|d|d] eqn:Hd; [| |done]; intros [= <- <- <- <- <-]; cbn;
      unfold lifi_execute_quote, bebop_execute_quote, lift, mbind, eff_bind; by rewrite Hd. }
  split; [by rewrite Hex, Hrun|].
  unfold execute_quote. cbn [venue_execute market_of]. rewrite Hex, Hrun. cbn -[Nat.ltb].
  destruct (Nat.ltb _ _); eauto.
Qed.

(** *** Cowswap *)

(** The signed order of an order that is placed. *)
Definition signed_as (o : OrderParameters) (x : Order) : Prop :=
  parse_address (op_sell_token o) = Some (o_sellToken x) /\ parse_address (op_buy_token o) = Some (o_buyToken x) /\
  o_sellAmount x = op_sell_amount o /\ o_buyAmount x = op_buy_amount o /\ o_validTo x = op_valid_to o /\
  o_feeAmount x = op_fee_amount o /\ o_kind x = order_kind_text (op_kind o) /\
  o_partiallyFillable x = op_partially_fillable o /\ o_receiver x = 0.

Lemma sign_order_signs o sig :
  sign_order chain o = Ok sig -> exists x, signed_as o x /\ sign_hash (eip712_domain chain) x = Some sig.
Proof.
  unfold sign_order, construct_signable_order. intros H.
  apply bind_Ok_inv in H as (x & Hx & H).
  destruct (parse_address (op_sell_token o)) eqn:Hs; [|done]. cbn in Hx.
  destruct (parse_address (op_buy_token o)) eqn:Hb; [|done]. cbn in Hx.
  destruct (hex_decode _); [|done]. injection Hx as <-.
  destruct (sign_hash _ _) eqn:Hg; [|done]. injection H as ->. eexists. split; [|exact Hg]. by split_and!.
Qed.

(** The order of a quote: its tokens, amounts and terms, signed as they are. *)
Definition order_of (q : ExecutableQuote) (d : CowswapQuoteExecutionData) (o : OrderCreation) : Prop :=
  op_sell_token (oc_order o) = token_addr (sell_token (quote q)) /\
  op_buy_token (oc_order o) = token_addr (buy_token (quote q)) /\
  op_sell_amount (oc_order o) = sell_amount (quote q) /\ op_buy_amount (oc_order o) = buy_amount (quote q) /\
  op_valid_to (oc_order o) = cd_valid_to d /\ op_fee_amount (oc_order o) = cd_fee_amount d /\
  op_partially_fillable (oc_order o) = cd_partially_fillable d /\
  exists x, signed_as (oc_order o) x /\ sign_hash (eip712_domain chain) x = Some (oc_signature o).
Lemma construct_order_request_of q d o :
  execution_data q = CowswapData d -> construct_order_request chain q = Ok o -> order_of q d o.
Proof.
  unfold construct_order_request. intros -> H. cbn in H.
  apply bind_Ok_inv in H as (sig & Hsig & [= <-]). apply sign_order_signs in Hsig as (x & Hx & Hg).
  unfold order_of. cbn. split_and!; [done..|]. by exists x.
Qed.

(** Polling an order ends: each poll is a second after the one before, so the
    sixty-first starts after the limit. *)
Lemma await_loop_ends fuel elapsed trades i :
  (forall j, elapsed j + 1 <= elapsed (S j)) -> MAX_TRADE_EXECUTION_WAIT_TIME <= elapsed i + Z.of_nat fuel - 1 ->
  (0 < fuel)%nat -> is_Some (await_loop fuel elapsed trades i).
Proof.
  intros Hclk. revert i. induction fuel as [|fuel IH]; intros i Hle Hpos; [lia|]. cbn.
  destruct (Z.ltb_spec (elapsed i) MAX_TRADE_EXECUTION_WAIT_TIME); [|by eauto].
  destruct (trades i) as [[|trade ts]|e|]; [|by eauto..].
  apply IH; [specialize (Hclk i); lia|]. unfold MAX_TRADE_EXECUTION_WAIT_TIME in *. lia.
Qed.
(** A result without a trade is given no earlier than at the limit. *)
Lemma await_loop_none fuel elapsed trades i x :
  await_loop fuel elapsed trades i = Some (Ok x) -> tx_hash x = None ->
  exists j, (i <= j < i + fuel)%nat /\ MAX_TRADE_EXECUTION_WAIT_TIME <= elapsed j /\
    forall k, (i <= k < j)%nat -> trades k = Ok [] /\ elapsed k < MAX_TRADE_EXECUTION_WAIT_TIME.
Proof.
  revert i. induction fuel as [|fuel IH]; intros i; [done|]. cbn.
  destruct (Z.ltb_spec (elapsed i) MAX_TRADE_EXECUTION_WAIT_TIME).
  2: { intros _ _. exists i. split_and!; [lia..|]. intros k ?. lia. }
  destruct (trades i) as [[|trade ts]|e|] eqn:Ht; [|destruct (parse_tx_hash _); by intros [= <-]|done..].
  intros Hr Hn. destruct (IH _ Hr Hn) as (j & ? & ? & Hk). exists j. split_and!; [lia..|].
  intros k ?. destruct (decide (k = i)) as [->|]; [done|]. apply Hk. lia.
Qed.

(** A Cowswap execution ends, and places at most one order: the quoted tokens
    and amounts, fill-or-kill, with the signature of exactly these terms for
    the settlement contract on the chain of the client.  It is reported
    unfilled only after a minute without a trade, although the order stays
    valid for two minutes from its quote and is not cancelled. *)
Theorem cowswap_execution_spec p b q d s r s' :
  execution_data q = CowswapData d -> bk_elapsed b 0 = 0 -> (forall j, bk_elapsed b j + 1 <= bk_elapsed b (S j)) ->
  cowswap_execute_quote hot_wallet chain p b q s = (r, s') ->
  (exists ended, await_loop AWAIT_FUEL (bk_elapsed b) (bk_trades b) 0 = Some ended) /\
  (vs_orders s' = vs_orders s \/
   exists o, vs_orders s' = vs_orders s ++ [o] /\ order_of q d o) /\
  (forall res, r = Ok res -> tx_hash res = None ->
     exists j, MAX_TRADE_EXECUTION_WAIT_TIME <= bk_elapsed b j /\ forall k, (k < j)%nat -> bk_trades b k = Ok []).
Proof.
  intros Hd H0 Hclk Hrun. destruct (await_loop_ends AWAIT_FUEL (bk_elapsed b) (bk_trades b) 0 Hclk) as [ended He];
    [rewrite H0; done|unfold AWAIT_FUEL; lia|].
  split; [by exists ended|]. revert Hrun.
  unfold cowswap_execute_quote, lift, mbind, eff_bind.
  destruct (approve_erc20_allowance _ _ _ _ _ _ s) as [r1 s1] eqn:Ha. apply approve_cases in Ha as [Ha _].
  assert (Ho1 : vs_orders s1 = vs_orders s) by (by destruct Ha as [-> | [-> _]]).
  destruct r1 as [[]|e|]; [|by intros [= <- <-]; rewrite Ho1; split; [left|]..].
  destruct (construct_order_request chain q) as [o|e|] eqn:Hreq; [|by intros [= <- <-]; rewrite Ho1; split; [left|]..].
  assert (Hplaced : exists o', vs_orders (place o s1) = vs_orders s ++ [o'] /\ order_of q d o').
  { exists o. cbn. rewrite Ho1. split; [done|]. by apply construct_order_request_of. }
  unfold place_order, lift, modify, mbind, eff_bind. destruct (bk_place b) as [e|reached e|].
  - intros [= <- <-]. rewrite Ho1. by split; [left|].
  - intros [= <- <-]. split; [|done]. destruct reached; [by right|by left].
  - intros [= <- <-]. split; [by right|]. unfold await_trade_execution. rewrite He. cbn.
    intros res -> Hn. destruct (await_loop_none _ _ _ _ _ He Hn) as (j & _ & Hj & Hk).
    exists j. split; [done|]. intros k ?. by apply Hk; lia.
Qed.
End Execution.

(** Costs of a Cowswap quote: everything requested is sold, and at most the
    tolerated share is taken off what is bought. *)
Lemma amounts_after_costs {VL : VenueLib} q slippage bps :
  u256_from_f64 (fmul (default DEFAULT_SLIPPAGE_TOLERANCE slippage) (of_Z BPS_PER_UNIT)) = Some bps ->
  bps <= BPS_PER_UNIT -> in_u 256 (op_buy_amount q) -> op_buy_amount q * bps < 2 ^ 256 ->
  0 <= op_sell_amount q -> 0 <= op_fee_amount q -> op_sell_amount q + op_fee_amount q < 2 ^ 256 ->
  exists buy, get_quote_amounts_after_costs q slippage = Ok (op_sell_amount q + op_fee_amount q, buy) /\
    buy <= op_buy_amount q /\ op_buy_amount q * (BPS_PER_UNIT - bps) <= buy * BPS_PER_UNIT.
Proof.
  intros Hb Hle Hbuy Hm Hs Hf Hsum. unfold get_quote_amounts_after_costs. rewrite Hb. cbn -[Z.pow Z.mul].
  destruct (op_kind q). pose proof (u256_from_f64_range _ _ Hb) as Hr. unfold in_u in *.
  unfold umul, uadd, usub. rewrite (uwrap_id 256 (op_buy_amount q * bps)) by (unfold in_u; nia).
  rewrite (uwrap_id 256 (_ + _)) by (unfold in_u; lia).
  unfold BPS_PER_UNIT in *. pose proof (Z.mul_div_le (op_buy_amount q * bps) 10000 ltac:(lia)) as H1.
  assert (0 <= op_buy_amount q * bps / 10000) by (apply Z.div_pos; nia).
  assert (op_buy_amount q * bps / 10000 <= op_buy_amount q) by (apply Z.div_le_upper_bound; nia).
  rewrite uwrap_id by (unfold in_u; lia). eexists. split; [reflexivity|]. split; nia.
Qed.

(** *** Swaps over venues that keep their contract *)
Section Composition.
Context (usdc : Address) (conv : Address -> Z -> f64) (stable : Address -> bool).
Context (darkpool : list Z) (devs : Address -> option f64).

Lemma collect_quotes_in rs qs q : collect_quotes rs = Ok qs -> q ∈ qs -> exists l, Ok l ∈ rs /\ q ∈ l.
Proof.
  revert qs. induction rs as [|[l|e|] rs IH]; intros qs; cbn.
  - by intros [= <-] ?%elem_of_nil.
  - intros H. apply bind_Ok_inv in H as (all & H & [= <-]). intros [Hl|Ha]%elem_of_app.
    + exists l. split; [left|done].
    + destruct (IH _ H Ha) as (l' & ? & ?). exists l'. split; [by right|done].
  - intros H Hq. destruct (IH _ H Hq) as (l' & ? & ?). exists l'. split; [by right|done].
  - done.
Qed.

Lemma executable_quote_source m p mult ex q :
  (forall v, v <> Okx -> VenueContract (get_quotes m v)) ->
  get_executable_quote usdc conv stable darkpool devs m p mult ex = Ok q ->
  (source (quote q) ∉ ex) /\ execution_venue q = quote_venue (quote q).
Proof.
  intros Hv H. unfold get_executable_quote in H. apply bind_Ok_inv in H as ([] & _ & H); [|done]. cbn in H.
  apply bind_Ok_inv in H as ([q'|] & Hf & H); [|done].
  apply bind_Ok_inv in H as ([] & _ & H); [done|]. injection H as ->. apply map_err_Ok in Hf.
  unfold fetch_best_quote in Hf. apply bind_Ok_inv in Hf as (all & Ha & Hb).
  apply select_best_in in Hb as [|[_ Hin]%list_elem_of_filter]; [done|].
  unfold fetch_all_quotes in Ha. apply bind_Ok_inv in Ha as (vs & Hvs & Ha).
  destruct (collect_quotes_in _ _ _ Ha Hin) as (l & Hl & Hq).
  apply list_elem_of_fmap in Hl as (v & Hget & Hin_v). symmetry in Hget.
  assert (v <> Okx) as Hok.
  { destruct (venue p) as [[]|]; try discriminate Hvs; injection Hvs as <-; unfold get_all_venues in *; set_solver. }
  pose proof (Hv v Hok). split; [by eapply quotes_not_excluded|by eapply quotes_own].
Qed.

Lemma turn_attempts m st out tr :
  (forall v, v <> Okx -> VenueContract (get_quotes m v)) ->
  swap_turn usdc conv stable darkpool devs m st = (out, tr) ->
  forall a, a ∈ tr -> (source (quote a.1) ∉ l_excluded st) /\ execution_venue a.1 = quote_venue (quote a.1).
Proof.
  intros Hv. unfold swap_turn, execute_swap_step.
  destruct (get_executable_quote _ _ _ _ _ _ _ _ _) as [q|e|] eqn:E;
    [|intros [= <- <-]; by intros ? ?%elem_of_nil..].
  destruct (executable_quote_source _ _ _ _ _ Hv E) as [Hn Ho]. unfold execute_quote. cbn zeta.
  destruct (venue_execute m (execution_venue q) q) as [x|e|]; cbn -[Nat.ltb];
    [|intros [= <- <-]; by intros a ->%list_elem_of_singleton..].
  destruct (tx_hash x); cbn -[Nat.ltb]; intros [= <- <-]; by intros a ->%list_elem_of_singleton.
Qed.

(** A turn that goes on halves the size, or keeps it and the exclusions and
    excludes the source it tried. *)
Lemma turn_next m st st' tr :
  swap_turn usdc conv stable darkpool devs m st = (inr st', tr) ->
  from_amount (l_params st') = from_amount (l_params st) / 2 \/
  (from_amount (l_params st') = from_amount (l_params st) /\
   (forall s, s ∈ l_excluded st -> s ∈ l_excluded st') /\
   forall a, a ∈ tr -> source (quote a.1) ∈ l_excluded st').
Proof.
  unfold swap_turn, execute_swap_step.
  destruct (get_executable_quote _ _ _ _ _ _ _ _ _) as [q|e|] eqn:E; [| |done].
  - unfold execute_quote. cbn zeta.
    destruct (venue_execute m (execution_venue q) q) as [x|e|]; cbn -[Nat.ltb]; [|done..].
    destruct (tx_hash x); cbn -[Nat.ltb]; [done|]. destruct (Nat.ltb _ _); intros [= <- <-]; cbn; [right|by left].
    split_and!; [done|set_solver|]. intros a ->%list_elem_of_singleton. set_solver.
  - destruct e as [| |g|src g|e]; cbn; [done| | |by apply get_executable_quote_flow in E|done].
    + destruct (fgtb _ _); [done|]. intros [= <- <-]. right. split_and!; [done..|]. by intros a ?%elem_of_nil.
    + intros [= <- <-]. by left.
Qed.

(** The turns of a swap, each with the state it starts in and its executions. *)
Fixpoint swap_log (fuel : nat) (mkt : nat -> market) (i : nat) (st : loop_state)
    : list (loop_state * list attempt) :=
  match fuel with
  | O => []
  | S fuel =>
      match swap_turn usdc conv stable darkpool devs (mkt i) st with
      | (inl _, tr) => [(st, tr)]
      | (inr st', tr) => (st, tr) :: swap_log fuel mkt (S i) st'
      end
  end.

Lemma swap_log_trace fuel mkt i st r tr :
  swap_loop usdc conv stable darkpool devs fuel mkt i st = Some (r, tr) ->
  tr = concat (map snd (swap_log fuel mkt i st)).
Proof.
  revert i st r tr. induction fuel as [|fuel IH]; intros i st r tr; cbn; [done|].
  destruct (swap_turn _ _ _ _ _ _ _) as [[r0|st'] tr0].
  - intros [= <- <-]. cbn. by rewrite app_nil_r.
  - destruct (swap_loop _ _ _ _ _ fuel mkt (S i) st') as [[r1 tr1]|] eqn:E; [|done].
    intros [= <- <-]. cbn. by rewrite (IH _ _ _ _ E).
Qed.

Section Log.
Context (mkt : nat -> market).
Hypothesis Hmkt : forall j v, v <> Okx -> VenueContract (get_quotes (mkt j) v).

(** Later turns ask for no more, and try an excluded source only for half. *)
Lemma swap_log_sources fuel i st k y b :
  0 <= from_amount (l_params st) -> swap_log fuel mkt i st !! k = Some y ->
  0 <= from_amount (l_params y.1) <= from_amount (l_params st) /\
  (b ∈ y.2 -> execution_venue b.1 = quote_venue (quote b.1) /\
     ((source (quote b.1) ∉ l_excluded st) \/
      from_amount (l_params y.1) <= from_amount (l_params st) / 2)).
Proof.
  revert i st k. induction fuel as [|fuel IH]; intros i st k Hst; cbn; [done|].
  destruct (swap_turn _ _ _ _ _ (mkt i) st) as [[r|st'] tr] eqn:E;
    pose proof (turn_attempts _ _ _ _ (Hmkt i) E b) as Hb.
  - destruct k as [|k]; [|done]. intros [= <-]. cbn. split; [lia|]. intros [? ?]%Hb. auto.
  - destruct k as [|k]; cbn.
    { intros [= <-]. cbn. split; [lia|]. intros [? ?]%Hb. auto. }
    intros Hk. assert (Hhalf : 0 <= from_amount (l_params st) / 2 <= from_amount (l_params st)).
    { split; [apply Z.div_pos; lia|apply Z.div_le_upper_bound; lia]. }
    destruct (turn_next _ _ _ _ E) as [Hs|(Hs & Hex & _)].
    + destruct (IH (S i) st' k ltac:(lia) Hk) as [H1 H2]. split; [lia|]. intros Hy.
      split; [by apply H2|right; lia].
    + destruct (IH (S i) st' k ltac:(lia) Hk) as [H1 H2]. split; [lia|]. intros Hy.
      destruct (H2 Hy) as [Hv Hd]. split; [done|]. rewrite Hs in Hd. destruct Hd as [Hd|]; [left|by right].
      intros Hin. by apply Hd, Hex.
Qed.

Lemma swap_log_retries fuel i st j k x y a b :
  0 <= from_amount (l_params st) ->
  swap_log fuel mkt i st !! j = Some x -> swap_log fuel mkt i st !! k = Some y -> (j < k)%nat ->
  a ∈ x.2 -> b ∈ y.2 -> source (quote a.1) = source (quote b.1) ->
  from_amount (l_params y.1) <= from_amount (l_params x.1) / 2.
Proof.
  revert i st j k. induction fuel as [|fuel IH]; intros i st j k Hst; cbn; [done|].
  destruct (swap_turn _ _ _ _ _ (mkt i) st) as [[r|st'] tr] eqn:E.
  { destruct k; [|done]. lia. }
  destruct k as [|k]; [lia|]. cbn.
  assert (Hst' : 0 <= from_amount (l_params st')).
  { destruct (turn_next _ _ _ _ E) as [->|(-> & _)]; [apply Z.div_pos|]; lia. }
  destruct j as [|j]; cbn.
  - intros [= <-] Hk _ Ha Hb Heq. cbn in *.
    destruct (swap_log_sources fuel (S i) st' k y b Hst' Hk) as [Hle H].
    destruct (turn_next _ _ _ _ E) as [Hs|(Hs & _ & Hex)]; [lia|].
    destruct (H Hb) as [_ [Hn|]]; [|by rewrite <- Hs]. destruct Hn. rewrite <- Heq. by apply Hex.
  - intros Hj Hk Hlt. apply (IH (S i) st' j k); [done..|lia].
Qed.
End Log.

(** What an iteration of a swap meets: the three clients with any replies of their
    services, any balance, prices and node; Lifi's service is taken to honour the
    deny list of a query. *)
Context {VL : VenueLib} (hot_wallet : Address) (chain : Chain).
Inductive live_market : market -> Prop :=
  | live balance price to_query api decode to_checksum bebop_query bebop_api bebop_decode
         now cow_api cow_decode p b :
      denies to_query api decode ->
      live_market (market_of hot_wallet chain balance price
        (mk_services (lifi_get_quotes hot_wallet chain to_query api decode)
           (bebop_get_quotes hot_wallet chain to_checksum bebop_query bebop_api bebop_decode)
           (cowswap_get_quotes hot_wallet chain now cow_api cow_decode)) p b).

Lemma live_market_contract m v : live_market m -> v <> Okx -> VenueContract (get_quotes m v).
Proof. intros [] Hv. destruct v; cbn; [by apply lifi_contract|apply _..|done]. Qed.

(** C8. Over a whole swap on Lifi, Bebop and Cowswap, whatever they and the node
    answer as long as Lifi's service honours the deny list of a query: each quote
    is executed on the venue that gave it, and of two executions of quotes of one
    source the later asks for at most half the amount of the earlier; a source that
    failed is not tried again at the same size. *)
Theorem failed_sources_not_retried fuel mkt params r tr :
  (forall j, live_market (mkt j)) -> 0 <= from_amount params ->
  swap_immediate_decaying usdc conv stable darkpool devs fuel mkt params = Some (r, tr) ->
  let log := swap_log fuel mkt 0 (loop_init params) in
  tr = concat (map snd log) /\
  (forall a, a ∈ tr -> execution_venue a.1 = quote_venue (quote a.1)) /\
  forall j k x y a b, log !! j = Some x -> log !! k = Some y -> (j < k)%nat -> a ∈ x.2 -> b ∈ y.2 ->
    source (quote a.1) = source (quote b.1) ->
    from_amount (l_params y.1) <= from_amount (l_params x.1) / 2.
Proof.
  intros Hlive Hpos Hrun log.
  assert (Hc : forall j v, v <> Okx -> VenueContract (get_quotes (mkt j) v))
    by (intros; by apply live_market_contract).
  assert (Htr : tr = concat (map snd log)) by (by eapply swap_log_trace).
  split_and!; [done| |].
  - intros a Ha. rewrite Htr in Ha. apply list_elem_of_In, in_concat in Ha as (l & Hl & Ha).
    apply in_map_iff in Hl as (y & <- & Hy). apply list_elem_of_In in Hy, Ha.
    apply list_elem_of_lookup in Hy as [k Hk].
    by apply (swap_log_sources mkt Hc fuel 0 (loop_init params) k y a Hpos Hk).
  - intros j k x y a b. by apply (swap_log_retries mkt Hc fuel 0 (loop_init params)).
Qed.
End Composition.

(** ** Witnesses *)
Module VenuesWitness.
(** Addresses as signed binary numerals. *)
Fixpoint pos_text (p : positive) : string :=
  match p with
  | xH => ""
  | xO p => String "0"%char (pos_text p)
  | xI p => String "1"%char (pos_text p)
  end.
Fixpoint text_pos (s : string) : positive :=
  match s with
  | EmptyString => xH
  | String c s => if Ascii.eqb c "0"%char then xO (text_pos s) else xI (text_pos s)
  end.
Definition z_text (z : Z) : string :=
  match z with Z0 => "" | Zpos p => String "+"%char (pos_text p) | Zneg p => String "-"%char (pos_text p) end.
Definition text_z (s : string) : Z :=
  match s with
  | EmptyString => 0
  | String c s => if Ascii.eqb c "+"%char then Zpos (text_pos s) else Zneg (text_pos s)
  end.
Lemma text_pos_text p : text_pos (pos_text p) = p.
Proof. induction p as [p IH|p IH|]; cbn; by rewrite ?IH. Qed.
Lemma text_z_text z : text_z (z_text z) = z.
Proof. destruct z; cbn; by rewrite ?text_pos_text. Qed.

Definition amount_of (s : string) : Z :=
  if String.eqb s "sell" then 100000000 else if String.eqb s "buy" then 200500000 else 0.
#[local] Instance lib : VenueLib.
Proof.
  refine {| parse_address s := Some (text_z s); address_to_string := z_text; token_addr := z_text;
    token_from_addr := text_z; u256_from_str_radix s _ := Some (amount_of s); u256_to_string := z_text;
    hex_decode s := Some (if String.eqb s "data" then [1; 2] else []); parse_tx_hash _ := Some 5;
    u256_from_f64 _ := Some 10; sign_hash _ _ := Some "signature"%string; fm_text _ := "error"%string |}.
  - intros a. by rewrite text_z_text.
  - intros x v [= <-]. unfold in_u. lia.
Defined.

(** Lifi routes through uni unless it is denied; Bebop answers one route. *)
Definition lifi_query (lp : LifiQuoteParams) : option string :=
  Some (if decide ("uni"%string ∈ default [] (lp_deny_exchanges lp)) then "denied" else "any")%string.
Definition lifi_api (query : string) : res string http_reply :=
  if String.eqb query "any" then Ok (mk_reply 200 (Ok ""%string)) else Err "no route"%string.
Definition lifi_reply : LifiQuote :=
  mk_lifi_quote (z_text 21) "0xdata" "0x0" "sell" "buy" (z_text 9) (z_text 6) (z_text 20) "uni".
Definition routes : list BebopRoute :=
  [mk_route PMMv3 (mk_bebop_quote [(z_text 6, 200000000)] [(z_text 9, 100000000)] 23 20 22 0 [3])].
Definition clients : services :=
  mk_services (lifi_get_quotes 20 ArbitrumOne lifi_query lifi_api (fun _ => Ok lifi_reply))
    (bebop_get_quotes 20 ArbitrumOne z_text (fun _ => Some ""%string) (fun _ _ => Ok (mk_reply 200 (Ok ""%string)))
       (fun _ => Ok routes))
    (cowswap_get_quotes 20 ArbitrumOne 1000 (fun _ _ => Err "down"%string) (fun _ => Err "down"%string)).

Definition receipt : TransactionReceipt := mk_receipt 77 true 5 2 [mk_log 6 (Some (20, 200000000))].
Definition node (swap : send_outcome TransactionReceipt) : rpc :=
  mk_rpc (fun _ _ _ => Ok 100000000) (fun _ => ErrorResp "unused") (Ok (Some (Some 3))) (fun _ => swap).
Definition no_book : book := mk_book Placed (fun i => Z.of_nat i) (fun _ => Ok []).
Definition lost : rpc := node (Pending (Err "timeout"%string)).
Definition healthy : rpc := node (Pending (Ok receipt)).
Definition market_at (i : nat) : market :=
  market_of 20 ArbitrumOne (Ok 100000000) (fun t => Ok (if t =? 9 then of_Z 2 else f1)) clients
    (if Nat.eqb i 0 then lost else healthy) no_book.

Definition lifi_quote : ExecutableQuote :=
  mk_executable (mk_quote 9 6 100000000 200500000 Lifi (LifiExchange "uni")) (LifiData (mk_lifi_data 21 20 0 [1; 2] "uni")).
Definition bebop_quote : ExecutableQuote :=
  mk_executable (mk_quote 9 6 100000000 200000000 Bebop BebopPMMv3) (BebopData (mk_bebop_data 22 20 0 [3] 23)).

(** The first call reaches the pool and its receipt is lost; the swap executes
    a second quote for the full amount: one request, two calls in the pool. *)
Example swap_sent_twice :
  swap_immediate_decaying 6 TargetRun.decimal SwapWitness.stable [2; 1] SwapWitness.tolerance 2 market_at
    (default_params 9 6 100000000) =
  Some (Ok (Some (mk_outcome (quote bebop_quote) 200000000 77 10)),
        [(lifi_quote, Ok (mk_result 0 0 None)); (bebop_quote, Ok (mk_result 200000000 10 (Some 77)))]) /\
  length (vs_txs (venue_execute_quote 20 ArbitrumOne healthy no_book Bebop bebop_quote
    (venue_execute_quote 20 ArbitrumOne lost no_book Lifi lifi_quote (mk_venue_state [] [])).2).2) = 2%nat.
Proof. split; vm_compute; reflexivity. Qed.


Definition cow_data : CowswapQuoteExecutionData := mk_cowswap_data 1120 0 SellOrder false Eip712 "" DEFAULT_APP_DATA.
Definition cow_quote : ExecutableQuote :=
  mk_executable (mk_quote 9 6 100000000 199800000 Cowswap CowswapSource) (CowswapData cow_data).
Lemma cowswap_execution_spec_witness : exists r s',
  cowswap_execute_quote 20 ArbitrumOne healthy no_book cow_quote (mk_venue_state [] []) = (r, s') /\
  (vs_orders s' = [] \/ exists o, vs_orders s' = [o] /\ order_of ArbitrumOne cow_quote cow_data o).
Proof.
  eexists _, _. split; [apply surjective_pairing|].
  destruct (cowswap_execution_spec 20 ArbitrumOne healthy no_book cow_quote cow_data (mk_venue_state [] [])
    _ _ eq_refl eq_refl ltac:(cbn; lia) (surjective_pairing _)) as (_ & H & _). exact H.
Defined.
(** An order quoted at second 1000 is valid until second 1120 and reported
    unfilled after sixty seconds. *)
Example unfilled_order_still_valid :
  (cowswap_execute_quote 20 ArbitrumOne healthy no_book cow_quote (mk_venue_state [] [])).1 = Ok (mk_result 0 0 None) /\
  compute_valid_to 1000 = 1000 + 2 * MAX_TRADE_EXECUTION_WAIT_TIME.
Proof. split; vm_compute; reflexivity. Qed.

Lemma lifi_denies : denies lifi_query lifi_api (fun _ => Ok lifi_reply).
Proof.
  intros lp query q Hq Hr l Hl. unfold lifi_query in Hq. injection Hq as <-. rewrite Hl in Hr. cbn in Hr.
  destruct (decide ("uni"%string ∈ l)) as [|Hn]; [done|]. cbn in Hr. by injection Hr as <-.
Qed.
Lemma market_live i : live_market 20 ArbitrumOne (market_at i).
Proof. apply live, lifi_denies. Qed.
Definition params1 : QuoteParams := default_params 9 6 100000000.
Definition swap1 := swap_immediate_decaying 6 TargetRun.decimal SwapWitness.stable [2; 1]
  SwapWitness.tolerance 2 market_at params1.
Definition log1 := swap_log 6 TargetRun.decimal SwapWitness.stable [2; 1] SwapWitness.tolerance 2
  market_at 0 (loop_init params1).
Lemma failed_sources_not_retried_witness :
  exists r tr, swap1 = Some (r, tr) /\ tr = concat (map snd log1) /\
    forall x y, log1 !! 0%nat = Some x -> log1 !! 1%nat = Some y ->
      forall a b, a ∈ x.2 -> b ∈ y.2 -> source (quote a.1) <> source (quote b.1).
Proof.
  destruct swap1 as [[r tr]|] eqn:E; [|vm_compute in E; discriminate E].
  exists r, tr. split; [reflexivity|].
  destruct (failed_sources_not_retried 6 TargetRun.decimal SwapWitness.stable [2; 1] SwapWitness.tolerance
    20 ArbitrumOne 2 market_at params1 r tr) as (Htr & _ & Hlog).
  - exact market_live.
  - cbn. lia.
  - exact E.
  - split; [exact Htr|]. intros x y Hx Hy a b Ha Hb Heq.
    specialize (Hlog 0%nat 1%nat x y a b Hx Hy ltac:(lia) Ha Hb Heq).
    vm_compute in Hx, Hy. injection Hx as <-. injection Hy as <-. vm_compute in Hlog. by apply Hlog.
Defined.
End VenuesWitness.
