(* ===== verification/VenueHttp.v ===== *)
(** * The clients of the execution venues (funds-manager/funds-manager-server/src/
    execution_client/venues: lifi/mod.rs, bebop/mod.rs, bebop/api_types.rs, cowswap/mod.rs)

    [Venues] models quotes and executions over the replies of the three services; here
    are the requests: the clients as they are built, the addresses and headers of what
    they send, and how a reply becomes a result.  What is said of all of them is said over a
    class, [VenueService], with an instance per client.  The network is a parameter. *)
From Stdlib Require Import ZArith Lia.
From stdpp Require Import strings list.
From S2P Require Import Prelude F64 Swap Venues.
Local Open Scope Z_scope.

Abbreviation R := (res ExecutionClientError).

(** ** Requests *)
(** The body of a POST is JSON; a GET has none. *)
Record venue_request := mk_request { vq_url : string; vq_headers : list (string * string); vq_body : option string }.

Definition LIFI_BASE_URL : string := "https://li.quest/v1".
Definition LIFI_QUOTE_ENDPOINT : string := "quote".
Definition LIFI_API_KEY_HEADER : string := "x-lifi-api-key".
Definition BEBOP_BASE_URL : string := "https://api.bebop.xyz/router".
Definition BEBOP_QUOTE_ENDPOINT : string := "v1/quote".
Definition BEBOP_API_KEY_HEADER : string := "source-auth".
Definition COWSWAP_BASE_URL : string := "https://api.cow.fi".
Definition COWSWAP_API_VERSION_PATH_SEGMENT : string := "api/v1".
Definition COWSWAP_QUOTE_ENDPOINT : string := "quote".
Definition COWSWAP_ORDER_ENDPOINT : string := "orders".
Definition COWSWAP_TRADES_ENDPOINT : string := "trades".
Definition ORDER_UID_QUERY_PARAM : string := "orderUid".

(** The clients; a provider is the wallet that signs with it. *)
Record LifiClient := mk_lifi { lc_api_key : option string; lc_wallet : Address; lc_hot_wallet : Address; lc_chain : Chain }.
Record BebopClient := mk_bebop { bc_api_key : option string; bc_wallet : Address; bc_hot_wallet : Address; bc_chain : Chain }.
Record CowswapClient := mk_cowswap { wc_hot_wallet : Address; wc_chain : Chain; wc_wallet : Address }.
Definition lifi_new (api_key : option string) (hot_wallet : Address) (chain : Chain) : LifiClient :=
  mk_lifi api_key hot_wallet hot_wallet chain.
Definition bebop_new (api_key : option string) (hot_wallet : Address) (chain : Chain) : BebopClient :=
  mk_bebop api_key hot_wallet hot_wallet chain.
Definition cowswap_new (hot_wallet : Address) (chain : Chain) : CowswapClient := mk_cowswap hot_wallet chain hot_wallet.

Section Requests.
Local Open Scope string_scope.
Definition key_header (name : string) (key : option string) : list (string * string) :=
  match key with Some k => [(name, k)] | None => [] end.
Definition lifi_request (c : LifiClient) (path : string) : R venue_request :=
  Ok (mk_request (LIFI_BASE_URL +:+ "/" +:+ path) (key_header LIFI_API_KEY_HEADER (lc_api_key c)) None).
Definition build_bebop_url (c : BebopClient) (path : string) : R string :=
  chain ← to_bebop_chain (bc_chain c);
  Ok (BEBOP_BASE_URL +:+ "/" +:+ chain +:+ "/" +:+ path).
Definition bebop_request (c : BebopClient) (path : string) : R venue_request :=
  url ← build_bebop_url c path;
  Ok (mk_request url (key_header BEBOP_API_KEY_HEADER (bc_api_key c)) None).
Definition build_cowswap_url (c : CowswapClient) (path : string) : R string :=
  cowswap_chain ← to_cowswap_chain (wc_chain c);
  Ok (COWSWAP_BASE_URL +:+ "/" +:+ cowswap_chain +:+ "/" +:+ COWSWAP_API_VERSION_PATH_SEGMENT +:+ "/" +:+ path).
Definition cowswap_get_request (c : CowswapClient) (path : string) : R venue_request :=
  url ← build_cowswap_url c path; Ok (mk_request url [] None).
Definition cowswap_post_request (c : CowswapClient) (path body : string) : R venue_request :=
  url ← build_cowswap_url c path;
  Ok (mk_request url [("content-type", "application/json")] (Some body)).
Definition trades_path (order_id : string) : string :=
  COWSWAP_TRADES_ENDPOINT +:+ "?" +:+ ORDER_UID_QUERY_PARAM +:+ "=" +:+ order_id.
End Requests.

(** [send_get_request], [send_post_request]: the request is built, sent, and its reply
    decoded.  What was sent is kept. *)
Section Send.
Context {VL : VenueLib} (net : venue_request -> res string http_reply).
Definition send {T} (decode : string -> res string T) (rq : R venue_request) : eff (list venue_request) ExecutionClientError T :=
  request ← lift rq;
  _ ← modify (fun sent => sent ++ [request]);
  lift (http_get decode (net request)).
End Send.

(** ** What each venue is *)
Class VenueService (C : Type) := {
  venue_specifier : C -> SupportedExecutionVenue;
  base_url : string;
  secret : C -> option (string * string);   (* a header that carries the client's key *)
  supports : C -> bool;
}.
#[export] Instance lifi_venue : VenueService LifiClient := {|
  venue_specifier _ := Lifi; base_url := LIFI_BASE_URL;
  secret c := (fun k => (LIFI_API_KEY_HEADER, k)) <$> lc_api_key c; supports _ := true |}.
Definition mainnet_l2 (c : Chain) : bool := match c with ArbitrumOne | BaseMainnet => true | _ => false end.
#[export] Instance bebop_venue : VenueService BebopClient := {|
  venue_specifier _ := Bebop; base_url := BEBOP_BASE_URL;
  secret c := (fun k => (BEBOP_API_KEY_HEADER, k)) <$> bc_api_key c; supports c := mainnet_l2 (bc_chain c) |}.
#[export] Instance cowswap_venue : VenueService CowswapClient := {|
  venue_specifier _ := Cowswap; base_url := COWSWAP_BASE_URL; secret _ := None; supports c := mainnet_l2 (wc_chain c) |}.

(** What a client promises of its requests: they go to its own service, carry its key if
    it has one and no other, and none is made for a chain the service does not know. *)
Definition keeps_to_its_service {C} `{VenueService C} (c : C) (rq : R venue_request) : Prop :=
  if supports c then
    exists r path, rq = Ok r /\ vq_url r = (base_url (C := C) +:+ "/" +:+ path)%string /\
      (forall h, h ∈ vq_headers r -> secret c = Some h \/ h = ("content-type", "application/json")%string) /\
      (forall h, secret c = Some h -> h ∈ vq_headers r)
  else exists e, rq = Err (OnChain e).

Lemma key_header_spec name key h : h ∈ key_header name key <-> (fun k => (name, k)) <$> key = Some h.
Proof.
  destruct key as [k|]; cbn; [rewrite list_elem_of_singleton; naive_solver|]. split; [by intros ?%not_elem_of_nil|done].
Qed.
(** Every request of the three clients is such a request. *)
Theorem requests_keep_to_their_service lc bc wc path body :
  keeps_to_its_service lc (lifi_request lc path) /\ keeps_to_its_service bc (bebop_request bc path) /\
  keeps_to_its_service wc (cowswap_get_request wc path) /\ keeps_to_its_service wc (cowswap_post_request wc path body).
Proof.
  split_and!; unfold keeps_to_its_service; cbn [supports lifi_venue bebop_venue cowswap_venue secret base_url].
  - eexists _, path. split_and!; [reflexivity..| |]; intros h; cbn [vq_headers]; rewrite key_header_spec; auto.
  - unfold bebop_request, build_bebop_url, to_bebop_chain. destruct (bc_chain bc); cbn -[BEBOP_BASE_URL]; try (by eexists);
      (eexists _, _; split_and!; [reflexivity..| |]; intros h; cbn [vq_headers]; rewrite key_header_spec; auto).
  - unfold cowswap_get_request, build_cowswap_url, to_cowswap_chain.
    destruct (wc_chain wc); cbn -[COWSWAP_BASE_URL]; try (by eexists);
      (eexists _, _; split_and!; [reflexivity..| |]; [by intros h ?%not_elem_of_nil|done]).
  - unfold cowswap_post_request, build_cowswap_url, to_cowswap_chain.
    destruct (wc_chain wc); cbn -[COWSWAP_BASE_URL]; try (by eexists);
      (eexists _, _; split_and!; [reflexivity..| |]; [by intros h ->%list_elem_of_singleton; right|done]).
Qed.
(** No address of one service is an address of another, so that a key goes to its own. *)
Lemma services_apart path path' :
  (LIFI_BASE_URL +:+ "/" +:+ path <> BEBOP_BASE_URL +:+ "/" +:+ path')%string /\
  (LIFI_BASE_URL +:+ "/" +:+ path <> COWSWAP_BASE_URL +:+ "/" +:+ path')%string /\
  (BEBOP_BASE_URL +:+ "/" +:+ path <> COWSWAP_BASE_URL +:+ "/" +:+ path')%string.
Proof. by split_and!; intros [=]. Qed.

(** ** Quotes over the wire

    The three [get_quotes], with the requests they send.  [Venues] takes the reply to a
    query as an argument; here it is the reply to the request made for it. *)
Section Quotes.
Context {VL : VenueLib} (net : venue_request -> res string http_reply).
Abbreviation W := (eff (list venue_request) ExecutionClientError).
Local Open Scope string_scope.

Definition lifi_path (query : string) : string := LIFI_QUOTE_ENDPOINT +:+ "?" +:+ query.
Definition lifi_quotes (c : LifiClient) (to_query : LifiQuoteParams -> option string)
    (decode : string -> res string LifiQuote) (p : QuoteParams) (excluded : list CrossVenueQuoteSource)
    : W (list ExecutableQuote) :=
  query ← lift (ok_or (to_query (lifi_construct_quote_params (lc_hot_wallet c) (lc_chain c) p excluded)) (Parse "query"));
  resp ← send net decode (lifi_request c (lifi_path query));
  q ← lift (from_lifi_quote resp);
  mret [q].

Definition bebop_path (query : string) : string := BEBOP_QUOTE_ENDPOINT +:+ "?" +:+ query.
Definition bebop_quotes_of (c : BebopClient) (to_checksum : Address -> string) (to_query : BebopQuoteParams -> option string)
    (decode : string -> res string (list BebopRoute)) (p : QuoteParams) (excluded : list CrossVenueQuoteSource)
    : W (list ExecutableQuote) :=
  let sources := filter (fun s => s ∉ excluded) [BebopJAMv2; BebopPMMv3] in
  params ← lift (bebop_construct_quote_params (bc_hot_wallet c) to_checksum p);
  query ← lift (ok_or (to_query params) (Parse "query"));
  routes ← send net decode (bebop_request c (bebop_path query));
  lift (bebop_quotes routes sources).

Definition cowswap_quotes (c : CowswapClient) (to_json : OrderQuoteRequest -> string) (now : Z)
    (decode : string -> res string OrderParameters) (p : QuoteParams) (excluded : list CrossVenueQuoteSource)
    : W (list ExecutableQuote) :=
  if decide (CowswapSource ∈ excluded) then mret []
  else
    q ← send net decode (cowswap_post_request c COWSWAP_QUOTE_ENDPOINT (to_json (cowswap_construct_quote_params (wc_hot_wallet c) p)));
    eq ← lift (from_cowswap_quote now q (slippage_tolerance p));
    mret [eq].

(** The reply to a request that cannot be built is not asked for. *)
Definition reply_to (rq : R venue_request) : res string http_reply :=
  match rq with Ok r => net r | Err e => Err "not sent" | Panic => Panic end.

Lemma send_sent {T} (decode : string -> res string T) rq sent :
  (send net decode rq sent).2 = match rq with Ok r => (sent ++ [r])%list | _ => sent end.
Proof. by destruct rq. Qed.

(** What is sent for a quote: at most one request, the one for the quote endpoint of the
    venue, and the quotes are those that [Venues] gives for the reply to it. *)
Theorem lifi_quotes_wired c to_query decode p excluded sent :
  let out := lifi_quotes c to_query decode p excluded sent in
  out.1 = lifi_get_quotes (lc_hot_wallet c) (lc_chain c) to_query (fun query => reply_to (lifi_request c (lifi_path query)))
            decode p excluded /\
  (out.2 = sent \/ exists query r, lifi_request c (lifi_path query) = Ok r /\ out.2 = (sent ++ [r])%list).
Proof.
  unfold lifi_quotes, lifi_get_quotes. cbn zeta.
  destruct (to_query _) as [query|]; cbn; [|by split; [|left]].
  unfold send, lifi_request, lift, modify, mret, eff_ret, mbind, eff_bind. cbn.
  match goal with |- context [http_get decode ?x] => destruct (http_get decode x) as [resp|e|] end; cbn;
    try (destruct (from_lifi_quote resp); cbn); (split; [done|right; eexists query, _; by split]).
Qed.
Theorem bebop_quotes_wired c to_checksum to_query decode p excluded sent :
  let out := bebop_quotes_of c to_checksum to_query decode p excluded sent in
  out.1 = bebop_get_quotes (bc_hot_wallet c) (bc_chain c) to_checksum to_query
            (fun _ query => reply_to (bebop_request c (bebop_path query))) decode p excluded /\
  (out.2 = sent \/ exists query r, bebop_request c (bebop_path query) = Ok r /\ out.2 = (sent ++ [r])%list) /\
  (mainnet_l2 (bc_chain c) = false -> out.2 = sent).
Proof.
  unfold bebop_quotes_of, bebop_get_quotes. cbn zeta. unfold lift, mbind, eff_bind.
  destruct (bebop_construct_quote_params _ _ _) as [params|e|]; cbn; [|by split_and!; [|left|]..].
  destruct (to_query params) as [query|]; cbn; [|by split_and!; [|left|]].
  unfold send, bebop_request, build_bebop_url, lift, modify, mbind, eff_bind.
  destruct (to_bebop_chain (bc_chain c)) as [chain|e|] eqn:Hc; cbn; [|by split_and!; [|left|]..].
  match goal with |- context [http_get decode ?x] => destruct (http_get decode x) as [routes|e|] end; cbn;
    (split_and!; [done|right; eexists query, _; rewrite ?Hc; cbn; done|by destruct (bc_chain c)]).
Qed.
Theorem cowswap_quotes_wired c to_json now decode p excluded sent :
  let out := cowswap_quotes c to_json now decode p excluded sent in
  out.1 = cowswap_get_quotes (wc_hot_wallet c) (wc_chain c) now
            (fun _ rq => reply_to (cowswap_post_request c COWSWAP_QUOTE_ENDPOINT (to_json rq))) decode p excluded /\
  (CowswapSource ∈ excluded -> out.2 = sent) /\ (mainnet_l2 (wc_chain c) = false -> out.2 = sent).
Proof.
  unfold cowswap_quotes, cowswap_get_quotes. cbn zeta. case_decide as Hex; [done|].
  unfold send, cowswap_post_request, build_cowswap_url, lift, modify, mret, eff_ret, mbind, eff_bind.
  destruct (to_cowswap_chain (wc_chain c)) as [chain|e|] eqn:Hc; cbn; [|done..].
  match goal with |- context [http_get decode ?x] => destruct (http_get decode x) as [q|e|] end; cbn;
    try (destruct (from_cowswap_quote now q (slippage_tolerance p)); cbn);
    (split_and!; [done|done|by destruct (wc_chain c)]).
Qed.
End Quotes.

(** ** bebop/api_types.rs: the parts of a quote

    The code asks the reply for each part by its source; [Venues.from_bebop_quote] looks
    the route up once. *)
Section Bebop.
Context {VL : VenueLib}.
Definition route_source_text (s : BebopRouteSource) : string := match s with JAMv2 => "JAMv2" | PMMv3 => "PMMv3" end.
Definition bebop_sell_token (routes : list BebopRoute) (s : CrossVenueQuoteSource) : R Address :=
  route ← route_for_source routes s;
  t ← ok_or (head (bq_sell_tokens (route_quote route)).*1) (Custom "No sell token found");
  Ok (token_from_addr t).
Definition bebop_buy_token (routes : list BebopRoute) (s : CrossVenueQuoteSource) : R Address :=
  route ← route_for_source routes s;
  t ← ok_or (head (bq_buy_tokens (route_quote route)).*1) (Custom "No buy token found");
  Ok (token_from_addr t).
Definition bebop_sell_amount (routes : list BebopRoute) (s : CrossVenueQuoteSource) : R Z :=
  route ← route_for_source routes s;
  ok_or (head (bq_sell_tokens (route_quote route)).*2) (Custom "No sell token found").
Definition bebop_buy_amount (routes : list BebopRoute) (s : CrossVenueQuoteSource) : R Z :=
  route ← route_for_source routes s;
  ok_or (head (bq_buy_tokens (route_quote route)).*2) (Custom "No buy token found").
Definition get_to_address (routes : list BebopRoute) (s : CrossVenueQuoteSource) : R Address :=
  route ← route_for_source routes s; Ok (bq_to (route_quote route)).
Definition get_from_address (routes : list BebopRoute) (s : CrossVenueQuoteSource) : R Address :=
  route ← route_for_source routes s; Ok (bq_from (route_quote route)).
Definition get_value (routes : list BebopRoute) (s : CrossVenueQuoteSource) : R Z :=
  route ← route_for_source routes s; Ok (bq_value (route_quote route)).
Definition get_data (routes : list BebopRoute) (s : CrossVenueQuoteSource) : R (list Z) :=
  route ← route_for_source routes s; Ok (bq_data (route_quote route)).
Definition get_approval_target (routes : list BebopRoute) (s : CrossVenueQuoteSource) : R Address :=
  route ← route_for_source routes s; Ok (bq_approval_target (route_quote route)).
Definition from_bebop_parts (routes : list BebopRoute) (s : CrossVenueQuoteSource) : R ExecutableQuote :=
  sell_token ← bebop_sell_token routes s;
  buy_token ← bebop_buy_token routes s;
  sell_amount ← bebop_sell_amount routes s;
  buy_amount ← bebop_buy_amount routes s;
  to ← get_to_address routes s;
  from ← get_from_address routes s;
  value ← get_value routes s;
  data ← get_data routes s;
  approval_target ← get_approval_target routes s;
  Ok (mk_executable (mk_quote sell_token buy_token sell_amount buy_amount Bebop s)
        (BebopData (mk_bebop_data to from value data approval_target))).
(** Part by part or all at once, the quote and the errors are the same. *)
Theorem bebop_quote_of_parts routes s : from_bebop_parts routes s = from_bebop_quote routes s.
Proof.
  unfold from_bebop_parts, from_bebop_quote, bebop_sell_token, bebop_buy_token, bebop_sell_amount, bebop_buy_amount,
    get_to_address, get_from_address, get_value, get_data, get_approval_target.
  destruct (route_for_source routes s) as [route|e|]; cbn; [|done..].
  destruct (bq_sell_tokens (route_quote route)) as [|[st sa] sells]; cbn; [done|].
  by destruct (bq_buy_tokens (route_quote route)) as [|[bt ba] buys].
Qed.
End Bebop.
