(* ===== verification/Warp.v ===== *)
(** * The HTTP front ends: what the servers use of warp

    The services of the repository build their HTTP interface from warp's filters:
    chains of [and] that match the method and the path of a request, alternatives
    composed with [or], and a [recover] that turns rejections into replies.  The
    framework is not part of the repository; [WarpLib] states what its
    documentation promises of the filters that are used, [warp_list] is an
    implementation that shows the promises can be kept, and the lemmas below say
    what a table of routes does with a request.  The tables themselves are in
    [ProverService], [AuthRoutes], [FundsRoutes], [DealerServer] and [SolverServer]. *)
From Stdlib Require Import ZArith Lia Ascii.
From stdpp Require Import gmap strings list.
From S2P Require Import Prelude.

(** ** Requests, causes of rejections, filters *)
Inductive Method := GET | POST | OtherMethod.
#[export] Instance Method_eq_dec : EqDecision Method.
Proof. solve_decision. Defined.

(** The path as its segments; the rest of a request (headers, query, body) is what
    the server makes of it. *)
Record Request (R : Type) := mk_req { rq_method : Method; rq_segments : list string; rq_rest : R }.
Arguments mk_req {R} _ _ _.
Arguments rq_method {R} _.
Arguments rq_segments {R} _.
Arguments rq_rest {R} _.

(** The rejections of warp's own filters, and the server's. *)
Inductive cause (E : Type) :=
  | MethodNotAllowed
  | MissingHeader (name : string)
  | InvalidHeader (name : string)
  | UnsupportedMediaType
  | BodyReadError (msg : string)
  | BodyDeserializeError (msg : string)
  | InvalidQuery
  | Custom (e : E).
Arguments MethodNotAllowed {E}.
Arguments MissingHeader {E} _.
Arguments InvalidHeader {E} _.
Arguments UnsupportedMediaType {E}.
Arguments BodyReadError {E} _.
Arguments BodyDeserializeError {E} _.
Arguments InvalidQuery {E}.
Arguments Custom {E} _.

(** [warp::get], [warp::post], [warp::path], [warp::path::param] with the parser of
    its type as a test, [warp::path::end]. *)
Inductive filt := IsGet | IsPost | Path (s : string) | Param (valid : string -> bool) | End.

(** A filter that matches takes segments off the path and may extract one. *)
Class WarpLib := {
  Rejection : Type -> Type;
  not_found : forall {E}, Rejection E;
  reject : forall {E}, cause E -> Rejection E;
  combine : forall {E}, Rejection E -> Rejection E -> Rejection E;
  causes : forall {E}, Rejection E -> list (cause E);
  matching : forall {E}, filt -> Method -> list string -> res (Rejection E) (option string * list string);
  causes_not_found E : causes (@not_found E) = [];
  causes_reject E (c : cause E) : causes (reject c) = [c];
  causes_combine E (a b : Rejection E) : causes (combine a b) = causes a ++ causes b;
  matching_get E m segs :
    @matching E IsGet m segs = if decide (m = GET) then Ok (None, segs) else Err (reject MethodNotAllowed);
  matching_post E m segs :
    @matching E IsPost m segs = if decide (m = POST) then Ok (None, segs) else Err (reject MethodNotAllowed);
  matching_path E s m segs :
    @matching E (Path s) m segs =
      match segs with
      | x :: rest => if String.eqb x s then Ok (None, rest) else Err not_found
      | [] => Err not_found
      end;
  matching_param E valid m segs :
    @matching E (Param valid) m segs =
      match segs with
      | x :: rest => if valid x then Ok (Some x, rest) else Err not_found
      | [] => Err not_found
      end;
  matching_end E m segs :
    @matching E End m segs = match segs with [] => Ok (None, []) | _ => Err not_found end;
}.

(** ** Chains of filters *)
Section Routing.
Context `{WarpLib} {R E S A : Type}.

Fixpoint run_match (fs : list filt) (m : Method) (segs : list string) : res (Rejection E) (list string) :=
  match fs with
  | [] => Ok []
  | f :: fs =>
      p ← matching f m segs;
      ps ← run_match fs m p.2;
      Ok (option_list p.1 ++ ps)
  end.

(** The same without the framework: the parameters of a request that matches, and
    the cause of a refusal. *)
Definition filter_step (f : filt) (m : Method) (segs : list string) : option (option string * list string) :=
  match f, segs with
  | IsGet, _ => if decide (m = GET) then Some (None, segs) else None
  | IsPost, _ => if decide (m = POST) then Some (None, segs) else None
  | Path s, x :: rest => if String.eqb x s then Some (None, rest) else None
  | Param valid, x :: rest => if valid x then Some (Some x, rest) else None
  | End, [] => Some (None, [])
  | _, _ => None
  end.
Definition refusal_of (f : filt) : list (cause E) :=
  match f with IsGet | IsPost => [MethodNotAllowed] | _ => [] end.
Fixpoint accepts (fs : list filt) (m : Method) (segs : list string) : option (list string) :=
  match fs with
  | [] => Some []
  | f :: fs =>
      match filter_step f m segs with
      | Some (p, rest) => app (option_list p) <$> accepts fs m rest
      | None => None
      end
  end.
Fixpoint refusal (fs : list filt) (m : Method) (segs : list string) : list (cause E) :=
  match fs with
  | [] => []
  | f :: fs =>
      match filter_step f m segs with
      | Some (_, rest) => refusal fs m rest
      | None => refusal_of f
      end
  end.

Lemma matching_step f m segs :
  match filter_step f m segs with
  | Some p => matching (E := E) f m segs = Ok p
  | None => exists e : Rejection E, matching f m segs = Err e /\ causes e = refusal_of f
  end.
Proof.
  destruct f; cbn [filter_step refusal_of];
    rewrite ?matching_get, ?matching_post, ?matching_path, ?matching_param, ?matching_end;
    repeat case_match; simplify_eq; try done;
    (eexists; split; [done|]; first [apply causes_reject | apply causes_not_found]).
Qed.

Lemma run_match_spec fs m segs :
  match accepts fs m segs with
  | Some ps => run_match fs m segs = Ok ps
  | None => exists e, run_match fs m segs = Err e /\ causes e = refusal fs m segs
  end.
Proof.
  revert segs. induction fs as [|f fs IH]; intros segs; cbn; [done|].
  generalize (matching_step f m segs).
  destruct (filter_step f m segs) as [[p rest]|]; cbn.
  - intros ->. cbn. specialize (IH rest).
    destruct (accepts fs m rest); cbn; [by rewrite IH|].
    destruct IH as (e & -> & ?). cbn. eauto.
  - intros (e & -> & ?). cbn. eauto.
Qed.

(** ** Tables of routes

    [a.or(b)] tries [b] when [a] rejects, whichever of its filters, handler included,
    did; when both reject, the rejections are combined. *)
Record route := mk_route {
  r_match : list filt;
  r_run : list string -> R -> eff S (Rejection E) A;
}.

Definition run_route (rq : Request R) (r : route) : eff S (Rejection E) A := fun s =>
  match run_match (r_match r) (rq_method rq) (rq_segments rq) with
  | Ok ps => r_run r ps (rq_rest rq) s
  | Err e => (Err e, s)
  | Panic => (Panic, s)
  end.
Definition or_else (a b : eff S (Rejection E) A) : eff S (Rejection E) A := fun s =>
  match a s with
  | (Err e, s) =>
      match b s with
      | (Err e', s) => (Err (combine e e'), s)
      | done => done
      end
  | done => done
  end.
Fixpoint or_routes (acc : eff S (Rejection E) A) (rs : list route) (rq : Request R) : eff S (Rejection E) A :=
  match rs with
  | [] => acc
  | r :: rs => or_routes (or_else acc (run_route rq r)) rs rq
  end.
(** [r1.or(r2).or(r3) ...] *)
Definition routes_of (rs : list route) (rq : Request R) : eff S (Rejection E) A :=
  match rs with
  | [] => lift (Err not_found)
  | r :: rs => or_routes (run_route rq r) rs rq
  end.

(** [Rejection::find] and [Rejection::is_not_found]. *)
Definition find_cause {B} (p : cause E -> option B) (e : Rejection E) : option B := head (omap p (causes e)).
Definition is_not_found (e : Rejection E) : bool := match causes e with [] => true | _ => false end.

(** The refusals of the routes that do not match. *)
Definition misses (rs : list route) (rq : Request R) : list (cause E) :=
  concat (map (fun r => refusal (r_match r) (rq_method rq) (rq_segments rq)) rs).
Definition matches (rq : Request R) (r : route) : option (list string) :=
  accepts (r_match r) (rq_method rq) (rq_segments rq).

Lemma misses_app rs1 rs2 rq : misses (rs1 ++ rs2) rq = misses rs1 rq ++ misses rs2 rq.
Proof. unfold misses. by rewrite map_app, concat_app. Qed.
Lemma misses_cons r rs rq :
  misses (r :: rs) rq = refusal (r_match r) (rq_method rq) (rq_segments rq) ++ misses rs rq.
Proof. done. Qed.
Lemma misses_none rs rq :
  Forall (fun r => refusal (r_match r) (rq_method rq) (rq_segments rq) = []) rs -> misses rs rq = [].
Proof. induction 1 as [|r rs Hr _ IH]; [done|]. by rewrite misses_cons, Hr, IH. Qed.

Lemma run_route_hit rq r ps s : matches rq r = Some ps -> run_route rq r s = r_run r ps (rq_rest rq) s.
Proof.
  unfold matches, run_route. generalize (run_match_spec (r_match r) (rq_method rq) (rq_segments rq)).
  intros Hs Hm. rewrite Hm in Hs. by rewrite Hs.
Qed.

Lemma run_route_miss rq r s :
  matches rq r = None -> exists e, run_route rq r s = (Err e, s) /\ causes e = misses [r] rq.
Proof.
  unfold matches, run_route. generalize (run_match_spec (r_match r) (rq_method rq) (rq_segments rq)).
  intros Hs Hm. rewrite Hm in Hs. destruct Hs as (e & -> & He). unfold misses. cbn. rewrite app_nil_r. eauto.
Qed.

(** Later routes do nothing once one has answered. *)
Lemma or_routes_done acc rs rq s :
  (forall e, (acc s).1 <> Err e) -> or_routes acc rs rq s = acc s.
Proof.
  revert acc. induction rs as [|r rs IH]; intros acc Ha; cbn; [done|].
  assert (or_else acc (run_route rq r) s = acc s) as He.
  { unfold or_else. destruct (acc s) as [[] ?]; naive_solver. }
  rewrite IH; rewrite He; done.
Qed.

Lemma or_routes_miss acc rs rq s e s' :
  acc s = (Err e, s') -> Forall (fun r => matches rq r = None) rs ->
  exists e', or_routes acc rs rq s = (Err e', s') /\ causes e' = causes e ++ misses rs rq.
Proof.
  intros Ha Hr. revert acc e Ha. induction Hr as [|r rs Hm Hr IH]; intros acc e Ha; cbn.
  - exists e. unfold misses. cbn. by rewrite app_nil_r.
  - destruct (run_route_miss rq r s' Hm) as (er & Hrun & Hc).
    destruct (IH (or_else acc (run_route rq r)) (combine e er)) as (e' & He' & Hce).
    { unfold or_else. by rewrite Ha, Hrun. }
    exists e'. split; [done|]. rewrite Hce, causes_combine, Hc, <- app_assoc. f_equal.
    unfold misses. cbn. by rewrite app_nil_r.
Qed.

(** What one route made of a request, with the refusals of its neighbours. *)
Definition among (before after : list (cause E)) (out out' : res (Rejection E) A * S) : Prop :=
  match out with
  | (Err e, s') => exists e', out' = (Err e', s') /\ causes e' = before ++ causes e ++ after
  | done => out' = done
  end.

(** A request that matches no route is refused without an effect. *)
Lemma routes_of_miss rs rq s :
  Forall (fun r => matches rq r = None) rs ->
  exists e, routes_of rs rq s = (Err e, s) /\ causes e = misses rs rq.
Proof.
  intros Hr. destruct Hr as [|r rs Hm Hr]; cbn.
  - exists not_found. by rewrite causes_not_found.
  - destruct (run_route_miss rq r s Hm) as (e & Hrun & Hc).
    destruct (or_routes_miss _ _ _ _ _ _ Hrun Hr) as (e' & He' & Hce).
    exists e'. split; [done|]. rewrite Hce, Hc. unfold misses. cbn. by rewrite app_nil_r.
Qed.

Lemma or_routes_app acc pre rs rq : or_routes acc (pre ++ rs) rq = or_routes (or_routes acc pre rq) rs rq.
Proof. revert acc. by induction pre as [|r pre IH]; intros acc; cbn; [|rewrite IH]. Qed.

(** A request that matches exactly one route is answered by it. *)
Lemma routes_of_hit pre r post rq ps s :
  Forall (fun r => matches rq r = None) (pre ++ post) -> matches rq r = Some ps ->
  among (misses pre rq) (misses post rq) (r_run r ps (rq_rest rq) s) (routes_of (pre ++ r :: post) rq s).
Proof.
  intros [Hpre Hpost]%Forall_app Hm.
  assert (routes_of (pre ++ r :: post) rq s = or_routes (routes_of (pre ++ [r]) rq) post rq s) as ->.
  { destruct pre; cbn; [done|]. by rewrite !or_routes_app. }
  assert (among (misses pre rq) [] (r_run r ps (rq_rest rq) s) (routes_of (pre ++ [r]) rq s)) as Hone.
  { unfold among. destruct pre as [|r0 pre]; cbn.
    - rewrite (run_route_hit _ _ _ _ Hm). unfold misses. cbn.
      destruct (r_run r ps (rq_rest rq) s) as [[] ?]; try done. eexists. split; [done|]. by rewrite app_nil_r.
    - destruct (routes_of_miss (r0 :: pre) rq s Hpre) as (e & He & Hc). cbn in He.
      rewrite or_routes_app. cbn. unfold or_else. rewrite He, (run_route_hit _ _ _ _ Hm).
      destruct (r_run r ps (rq_rest rq) s) as [[] ?]; try done.
      eexists. split; [done|]. by rewrite causes_combine, Hc, app_nil_r. }
  unfold among in *. destruct (r_run r ps (rq_rest rq) s) as [[a|e|] s'] eqn:Hrun.
  - rewrite or_routes_done; rewrite Hone; done.
  - destruct Hone as (e1 & H1 & Hc1).
    destruct (or_routes_miss _ _ _ _ _ _ H1 Hpost) as (e' & He' & Hce).
    exists e'. split; [done|]. by rewrite Hce, Hc1, app_nil_r, <- !app_assoc.
  - rewrite or_routes_done; rewrite Hone; done.
Qed.
End Routing.

(** ** Disjoint routes

    Two chains are disjoint when they ask for different methods, or for different
    segments at the same place of the path. *)
Definition demands_get (fs : list filt) : bool := existsb (fun f => match f with IsGet => true | _ => false end) fs.
Definition demands_post (fs : list filt) : bool := existsb (fun f => match f with IsPost => true | _ => false end) fs.
Definition path_part (fs : list filt) : list filt :=
  List.filter (fun f => match f with IsGet | IsPost => false | _ => true end) fs.
Fixpoint paths_disjoint (p q : list filt) : bool :=
  match p, q with
  | Path a :: p, Path b :: q => negb (String.eqb a b) || paths_disjoint p q
  | Path a :: p, Param v :: q => negb (v a) || paths_disjoint p q
  | Param v :: p, Path b :: q => negb (v b) || paths_disjoint p q
  | Param _ :: p, Param _ :: q => paths_disjoint p q
  | End :: _, (Path _ | Param _) :: _ | (Path _ | Param _) :: _, End :: _ => true
  | _, _ => false
  end.
Definition disjoint_matches (fs gs : list filt) : bool :=
  (demands_get fs && demands_post gs) || (demands_post fs && demands_get gs) ||
  paths_disjoint (path_part fs) (path_part gs).
Fixpoint pairwise_disjoint (ms : list (list filt)) : bool :=
  match ms with
  | [] => true
  | m :: ms => forallb (disjoint_matches m) ms && pairwise_disjoint ms
  end.

Lemma accepts_method fs m segs ps :
  accepts fs m segs = Some ps ->
  (demands_get fs = true -> m = GET) /\ (demands_post fs = true -> m = POST).
Proof.
  revert segs ps. induction fs as [|f fs IH]; intros segs ps; cbn; [done|].
  destruct (filter_step f m segs) as [[p rest]|] eqn:Hf; [|done].
  intros (ps' & Hps & ->)%fmap_Some. specialize (IH _ _ Hps).
  destruct f; cbn in *; try (destruct_decide (decide (m = GET))); try (destruct_decide (decide (m = POST)));
    simplify_eq; naive_solver.
Qed.

Lemma accepts_path fs m segs ps : accepts fs m segs = Some ps -> is_Some (accepts (path_part fs) m segs).
Proof.
  revert segs ps. induction fs as [|f fs IH]; intros segs ps; cbn; [eauto|].
  destruct (filter_step f m segs) as [[p rest]|] eqn:Hf; [|done].
  intros (ps' & Hps & ->)%fmap_Some. destruct (IH _ _ Hps) as [ps1 Hps1].
  destruct f; cbn [path_part List.filter filter_step accepts] in *;
    repeat case_match; simplify_eq; try done; fold (path_part fs); rewrite ?Hps1; eauto.
Qed.

Lemma paths_disjoint_sound p q m segs :
  paths_disjoint p q = true -> is_Some (accepts p m segs) -> is_Some (accepts q m segs) -> False.
Proof.
  revert q segs. induction p as [|f p IH]; intros q segs Hd [ps Hp] [qs Hq]; [done|].
  destruct q as [|g q]; [by destruct f|].
  cbn in Hp, Hq. destruct (filter_step f m segs) as [[pf rf]|] eqn:Hf; [|done].
  destruct (filter_step g m segs) as [[pg rg]|] eqn:Hg; [|done].
  apply fmap_Some in Hp as (ps' & Hp & _). apply fmap_Some in Hq as (qs' & Hq & _).
  assert (rf = rg -> paths_disjoint p q = true -> False) as Hrec by (intros -> ?; eapply (IH q rg); eauto).
  clear IH Hp Hq. destruct f, g, segs as [|x rest]; cbn in Hd, Hf, Hg; try done;
    repeat match type of Hf with context [if ?b then _ else _] => destruct b eqn:?; [|done] end;
    repeat match type of Hg with context [if ?b then _ else _] => destruct b eqn:?; [|done] end;
    simplify_eq;
    repeat match goal with H : String.eqb _ _ = true |- _ => apply String.eqb_eq in H as -> end;
    rewrite ?String.eqb_refl in Hd;
    repeat match goal with
    | H : ?v ?y = true |- _ => match type of v with string -> bool => rewrite H in Hd; clear H end
    end;
    by apply Hrec.
Qed.

Lemma disjoint_sound fs gs m segs ps qs :
  disjoint_matches fs gs = true -> accepts fs m segs = Some ps -> accepts gs m segs = Some qs -> False.
Proof.
  intros Hd Hf Hg.
  destruct (accepts_method _ _ _ _ Hf) as [Hf1 Hf2], (accepts_method _ _ _ _ Hg) as [Hg1 Hg2].
  apply orb_true_iff in Hd as [[[H1 H2]%andb_true_iff | [H1 H2]%andb_true_iff]%orb_true_iff | Hd].
  - rewrite Hf1 in Hg2; [by specialize (Hg2 H2)|done].
  - rewrite Hf2 in Hg1; [by specialize (Hg1 H2)|done].
  - eapply paths_disjoint_sound; eauto using accepts_path.
Qed.

(** Chains that look at the method last: their refusal tells whether another method
    would have been accepted. *)
Definition is_method (f : filt) : bool := match f with IsGet | IsPost => true | _ => false end.
Fixpoint method_last (fs : list filt) : bool :=
  match fs with
  | [] | [_] => true
  | f :: fs => negb (is_method f) && method_last fs
  end.
Lemma filter_step_path f m m' segs : is_method f = false -> filter_step f m segs = filter_step f m' segs.
Proof. by destruct f. Qed.
Lemma refusal_method_last {E} fs m segs :
  method_last fs = true -> accepts fs m segs = None ->
  (refusal (E := E) fs m segs = [MethodNotAllowed] /\ exists m', is_Some (accepts fs m' segs)) \/
  (refusal (E := E) fs m segs = [] /\ forall m', accepts fs m' segs = None).
Proof.
  revert segs. induction fs as [|f fs IH]; intros segs Hl Ha; [done|].
  destruct fs as [|g fs].
  { cbn in Ha |- *. destruct (is_method f) eqn:Hf.
    - left. destruct (filter_step f m segs) as [[]|] eqn:Hs; [done|].
      destruct f; try done; (split; [done|]); [exists GET|exists POST]; cbn; eauto.
    - right. destruct (filter_step f m segs) as [[]|] eqn:Hs; [done|]. split; [by destruct f|].
      intros m'. by rewrite (filter_step_path f m' m), Hs. }
  cbn [method_last] in Hl. apply andb_true_iff in Hl as [Hf%negb_true_iff Hl].
  change (refusal (f :: g :: fs) m segs) with
    (match filter_step f m segs with Some (_, rest) => refusal (E := E) (g :: fs) m rest | None => refusal_of f end).
  assert (forall m, accepts (f :: g :: fs) m segs =
    match filter_step f m segs with Some (p, rest) => app (option_list p) <$> accepts (g :: fs) m rest | None => None end)
    as Hacc by done.
  rewrite Hacc in Ha. setoid_rewrite Hacc. destruct (filter_step f m segs) as [[p rest]|] eqn:Hs.
  - apply fmap_None in Ha. destruct (IH rest Hl Ha) as [[-> [m' Hm']]|[-> Hm']]; [left|right]; (split; [done|]).
    + exists m'. rewrite (filter_step_path f m' m), Hs by done. by apply fmap_is_Some.
    + intros m'. rewrite (filter_step_path f m' m), Hs by done. by apply fmap_None.
  - right. split; [by destruct f|]. intros m'. by rewrite (filter_step_path f m' m), Hs.
Qed.

Section Tables.
Context `{WarpLib} {R E S A : Type}.
Implicit Type rs : list (route (R := R) (E := E) (S := S) (A := A)).

(** A request meets no route of the table, or exactly one. *)
Inductive table_case rs (rq : Request R) : Prop :=
  | NoRoute : Forall (fun r => matches rq r = None) rs -> table_case rs rq
  | OneRoute pre r post ps : rs = pre ++ r :: post -> matches rq r = Some ps ->
      Forall (fun r => matches rq r = None) (pre ++ post) -> table_case rs rq.

Lemma table_cases rs rq : pairwise_disjoint (map r_match rs) = true -> table_case rs rq.
Proof.
  induction rs as [|r rs IH]; intros Hd; [by left|].
  cbn in Hd. apply andb_true_iff in Hd as [Hr Hd].
  destruct (matches rq r) as [ps|] eqn:Hm.
  - apply (OneRoute _ _ [] r rs ps); [done..|]. cbn.
    apply Forall_forall. intros r' Hin. destruct (matches rq r') as [qs|] eqn:Hm'; [|done].
    exfalso. rewrite forallb_forall in Hr.
    eapply disjoint_sound; [|exact Hm|exact Hm'].
    apply Hr, in_map, list_elem_of_In, Hin.
  - destruct (IH Hd) as [Hall|pre r' post ps -> Hm' Hall].
    + left. by constructor.
    + apply (OneRoute _ _ (r :: pre) r' post ps); [done..|]. by constructor.
Qed.

(** The routes that do not match contribute at most a refused method. *)
Lemma misses_method rs (rq : Request R) : Forall (fun c => c = MethodNotAllowed) (misses rs rq).
Proof.
  unfold misses. apply Forall_concat, Forall_map, Forall_forall. intros r _.
  generalize (rq_segments rq). induction (r_match r) as [|f fs IH]; intros segs; cbn; [done|].
  destruct (filter_step f _ segs) as [[]|]; [apply IH|]. destruct f; cbn; auto.
Qed.

(** [find] for a cause that is not a refused method sees through them. *)
Lemma omap_refused {B} (p : cause E -> option B) l :
  p MethodNotAllowed = None -> Forall (fun c => c = MethodNotAllowed) l -> omap p l = [].
Proof. intros Hp. induction 1 as [|? ? -> _ IH]; cbn; [done|]. by rewrite Hp. Qed.
Lemma find_among {B} (p : cause E -> option B) (e e' : Rejection E) before after :
  p MethodNotAllowed = None ->
  Forall (fun c => c = MethodNotAllowed) before -> Forall (fun c => c = MethodNotAllowed) after ->
  causes e' = before ++ causes e ++ after -> find_cause p e' = find_cause p e.
Proof.
  intros Hp Hb Ha He. unfold find_cause. rewrite He, !omap_app.
  by rewrite (omap_refused p before), (omap_refused p after), app_nil_r.
Qed.

(** ** Servers as tables of endpoints

    The routes of a server by endpoint, in the order in which they are composed. *)
Context {EP : Type} (filters : EP -> list filt) (run : EP -> list string -> R -> eff S (Rejection E) A).

Definition route_of (ep : EP) : route (R := R) := mk_route (filters ep) (run ep).

(** A request is taken by one endpoint, whose outcome stands (refused methods of
    the other routes aside), or by none, and then nothing happens. *)
Inductive dispatched (eps : list EP) (rq : Request R) (s : S) (out : res (Rejection E) A * S) : Prop :=
  | Taken ep ps before after :
      ep ∈ eps -> accepts (filters ep) (rq_method rq) (rq_segments rq) = Some ps ->
      Forall (fun c => c = MethodNotAllowed) before -> Forall (fun c => c = MethodNotAllowed) after ->
      among before after (run ep ps (rq_rest rq) s) out -> dispatched eps rq s out
  | Untaken e :
      Forall (fun ep => accepts (filters ep) (rq_method rq) (rq_segments rq) = None) eps ->
      out = (Err e, s) -> causes e = misses (map route_of eps) rq -> dispatched eps rq s out.

Lemma table_dispatch eps rq s :
  pairwise_disjoint (map filters eps) = true -> dispatched eps rq s (routes_of (map route_of eps) rq s).
Proof.
  intros Hd. assert (pairwise_disjoint (map r_match (map route_of eps)) = true) as Hd'.
  { by rewrite map_map. }
  destruct (table_cases (map route_of eps) rq Hd') as [Hall|pre r post ps Hsplit Hm Hall].
  - destruct (routes_of_miss _ _ s Hall) as (e & -> & Hc). eapply Untaken; [|done..].
    by apply Forall_map in Hall.
  - rewrite Hsplit. assert (r ∈ map route_of eps) as Hin by (rewrite Hsplit; set_solver).
    apply list_elem_of_fmap in Hin as (ep & -> & Hep).
    eapply (Taken _ _ _ _ ep ps); [done|exact Hm|apply misses_method|apply misses_method|].
    by apply (routes_of_hit pre (route_of ep) post).
Qed.

(** The endpoint of a request is determined. *)
Lemma endpoint_unique eps (rq : Request R) ep ep' ps ps' :
  pairwise_disjoint (map filters eps) = true -> NoDup eps -> ep ∈ eps -> ep' ∈ eps ->
  accepts (filters ep) (rq_method rq) (rq_segments rq) = Some ps ->
  accepts (filters ep') (rq_method rq) (rq_segments rq) = Some ps' -> ep = ep'.
Proof.
  intros Hd Hnd. induction Hnd as [|x l Hx Hnd IH]; intros He He' Ha Ha'; [set_solver|].
  cbn in Hd. apply andb_true_iff in Hd as [Hfx Hd]. rewrite forallb_forall in Hfx.
  assert (forall y, y ∈ l -> disjoint_matches (filters x) (filters y) = true) as Hxy.
  { intros y Hy. apply Hfx, in_map, list_elem_of_In, Hy. }
  apply elem_of_cons in He as [-> |He], He' as [-> |He']; [done| | |by apply IH].
  - exfalso. eapply disjoint_sound; [by apply Hxy|done..].
  - exfalso. eapply disjoint_sound; [by apply Hxy|done..].
Qed.
End Tables.

(** Takes apart the acceptance of a chain of filters on a path. *)
Ltac split_segments Ha :=
  repeat match type of Ha with
  | Some _ = Some _ => injection Ha as Ha; subst
  | None = Some _ => discriminate Ha
  | (_ <$> _) = Some _ =>
      let H := fresh in apply fmap_Some in Ha as (? & H & ->); rename H into Ha; cbn in Ha
  | context [match ?l with [] => _ | _ :: _ => _ end] => destruct l; cbn in Ha
  | context [if String.eqb ?a ?b then _ else _] =>
      let H := fresh in destruct (String.eqb a b) eqn:H; cbn in Ha; [apply String.eqb_eq in H; subst|]
  | context [if ?b then _ else _] => destruct b eqn:?; cbn in Ha
  end.

(** ** An implementation: a rejection is the list of its causes *)
#[refine, export] Instance warp_list : WarpLib := {
  Rejection E := list (cause E);
  not_found E := [];
  reject E c := [c];
  combine E a b := a ++ b;
  causes E l := l;
  matching E f m segs :=
    match filter_step f m segs with Some p => Ok p | None => Err (refusal_of f) end;
}.
Proof. all: intros; cbn; repeat case_match; by simplify_eq. Defined.
