(* ===== verification/DealerServer.v ===== *)
(** * The HTTP server of the dealer (dealer/renegade-dealer/src/main.rs)

    The server validates a request, opens a response channel, queues a job for the
    dealer and waits for the reply.  [Dealer] models the table of open requests;
    here the routes, the queue, the tasks the dealer spawns (which run in any order)
    and the handlers that wait are put around it, so that the theorems speak of what
    a client sees: a reply, a dropped connection, or none for ever. *)
From Stdlib Require Import ZArith Lia Ascii.
From stdpp Require Import gmap strings list.
From S2P Require Import Prelude Dealer Warp.
Local Open Scope string_scope.

(** ** Headers and keys (renegade-dealer-api) *)
Definition PARTY_ID_HEADER : string := "X-Party-Id".
Definition SIGNATURE_HEADER : string := "X-Signature".

(** What the server uses of uuid, serde, base64 and k256: the parsers of a request
    id, of a party id and of the JSON of a request; the bytes of an id and of a
    request; the decoding of a signature and its verification over a payload. *)
Class DealerLib (PK : Type) := {
  parse_uuid : string -> option Uuid;
  parse_party_id : string -> option Z;
  decode_request : string -> string + DealerRequest PK;
  b64_decode : string -> option (list Z);
  sig_from_slice : list Z -> option (list Z);
  to_bytes_le : Uuid -> list Z;
  to_vec : DealerRequest PK -> option (list Z);
  verify : PK -> list Z -> list Z -> bool;
}.

(** The SEC1 encoding of a key as [serialize_key] and [deserialize_key] use it. *)
Class Sec1 (PK : Type) := {
  to_sec1_bytes : PK -> list Z;
  from_sec1_bytes : list Z -> string + PK;
  sec1_roundtrip k : from_sec1_bytes (to_sec1_bytes k) = inr k;
}.

Section Keys.
Context {PK : Type} `{Sec1 PK}.
Definition serialize_key (key : PK) : list Z := to_sec1_bytes key.
Definition deserialize_key (bytes : list Z) : string + PK :=
  match from_sec1_bytes bytes with
  | inl e => inl ("Invalid public key bytes: " +:+ e)
  | inr k => inr k
  end.
End Keys.

(** ** The builder of a request *)
Section Builder.
Context {PK : Type}.
Implicit Type r : DealerRequest PK.
Definition new_request (first_party_key second_party_key : PK) : DealerRequest PK :=
  {| first_party_key := first_party_key; second_party_key := second_party_key;
     n_random_bits := 0; n_random_values := 0; n_input_masks := 0; n_inverse_pairs := 0; n_triples := 0 |}.
Definition with_n_random_bits n r : DealerRequest PK :=
  {| first_party_key := first_party_key r; second_party_key := second_party_key r;
     n_random_bits := n; n_random_values := n_random_values r; n_input_masks := n_input_masks r;
     n_inverse_pairs := n_inverse_pairs r; n_triples := n_triples r |}.
Definition with_n_random_values n r : DealerRequest PK :=
  {| first_party_key := first_party_key r; second_party_key := second_party_key r;
     n_random_bits := n_random_bits r; n_random_values := n; n_input_masks := n_input_masks r;
     n_inverse_pairs := n_inverse_pairs r; n_triples := n_triples r |}.
Definition with_n_input_masks n r : DealerRequest PK :=
  {| first_party_key := first_party_key r; second_party_key := second_party_key r;
     n_random_bits := n_random_bits r; n_random_values := n_random_values r; n_input_masks := n;
     n_inverse_pairs := n_inverse_pairs r; n_triples := n_triples r |}.
Definition with_n_inverse_pairs n r : DealerRequest PK :=
  {| first_party_key := first_party_key r; second_party_key := second_party_key r;
     n_random_bits := n_random_bits r; n_random_values := n_random_values r;
     n_input_masks := n_input_masks r; n_inverse_pairs := n; n_triples := n_triples r |}.
Definition with_n_triples n r : DealerRequest PK :=
  {| first_party_key := first_party_key r; second_party_key := second_party_key r;
     n_random_bits := n_random_bits r; n_random_values := n_random_values r;
     n_input_masks := n_input_masks r; n_inverse_pairs := n_inverse_pairs r; n_triples := n |}.
End Builder.

(** ** The server *)
Section Server.
Context `{SF : ScalarField} `{WL : WarpLib} {PK : Type} `{EqDecision PK} `{DL : DealerLib PK}.
Variable rng : Rng.

(** The dealer; the jobs that are queued or whose task has not run; and every job
    sent so far.  The channel of a job is named by its position among those. *)
Record Server := mk_server {
  sv_dealer : Dealer (PK := PK);
  sv_tasks : list (DealerJob (PK := PK));
  sv_jobs : list (DealerJob (PK := PK));
}.
Definition start (p : RngPos) : Server := mk_server (new_dealer p) [] [].

(** The reply of a route: at once, or that of the channel the handler waits for. *)
Inductive answer :=
  | Pong
  | Json (resp : DealerResponse)
  | ErrorResponse (code : Z) (message : string)
  | Await (c : nat).

(** The parts of a request: the two headers, which warp refuses when they are not
    text; whether the content type, if any, is JSON; the body, or the error of
    reading it. *)
Record parts := mk_parts {
  pt_party_id : option (option string);
  pt_signature : option (option string);
  pt_json_content : bool;
  pt_body : string + string;
}.
Abbreviation rejection := (Rejection Dealer.reject).

Definition reject_with {A} (r : res Dealer.reject A) : res rejection A :=
  match r with Ok a => Ok a | Err e => Err (reject (Custom e)) | Panic => Panic end.

(** [dealer_queue.send(DealerJob::new(..))] on a new response channel; the queue is
    unbounded and its receiver lives as long as the dealer's loop. *)
Definition enqueue (request_id : Uuid) (party_id : Z) (body : DealerRequest PK) (sv : Server) : Server :=
  let job := mk_job request_id party_id body (length (sv_jobs sv)) in
  mk_server (sv_dealer sv) (sv_tasks sv ++ [job]) (sv_jobs sv ++ [job]).

(** [handle_req] up to the wait for the reply. *)
Definition handle_req (request_id : Uuid) (party_id : Z) (signature : string) (body : DealerRequest PK)
    : eff Server rejection answer :=
  _ ← lift (reject_with (validate_request b64_decode sig_from_slice to_bytes_le to_vec verify request_id party_id signature body));
  c ← gets (fun sv => length (sv_jobs sv));
  _ ← modify (enqueue request_id party_id body);
  mret (Await c).

Definition as_bad_request (c : cause Dealer.reject) : option string :=
  match c with Custom (BadRequestError msg) => Some msg | _ => None end.
Definition as_unauthorized (c : cause Dealer.reject) : option string :=
  match c with Custom (UnauthorizedError msg) => Some msg | _ => None end.
Definition handle_rejection (err : rejection) : res rejection answer :=
  match find_cause as_bad_request err with
  | Some msg => Ok (ErrorResponse 400 msg)
  | None =>
      match find_cause as_unauthorized err with
      | Some msg => Ok (ErrorResponse 401 msg)
      | None => Err err
      end
  end.

(** [filter.recover(handle_rejection)] *)
Definition recover_with (m : eff Server rejection answer) : eff Server rejection answer := fun sv =>
  match m sv with (Err e, sv') => (handle_rejection e, sv') | out => out end.

Definition header {A} (name : string) (parse : string -> option A) (h : option (option string)) : res rejection A :=
  match h with
  | None => Err (reject (MissingHeader name))
  | Some None => Err (reject (InvalidHeader name))
  | Some (Some text) => match parse text with Some a => Ok a | None => Err (reject (InvalidHeader name)) end
  end.
Definition body_json (pt : parts) : res rejection (DealerRequest PK) :=
  if negb (pt_json_content pt) then Err (reject UnsupportedMediaType)
  else match pt_body pt with
  | inl e => Err (reject (BodyReadError e))
  | inr b => match decode_request b with inl e => Err (reject (BodyDeserializeError e)) | inr r => Ok r end
  end.

(** ** main.rs: the routes *)
Definition is_uuid (s : string) : bool := match parse_uuid s with Some _ => true | None => false end.
Definition offline_phase : route (R := parts) (E := Dealer.reject) (S := Server) (A := answer) :=
  mk_route [IsPost; Path "v0"; Path "offline-phase"; Param is_uuid] (fun ps pt =>
    request_id ← lift (unwrap (ps !! 0 ≫= parse_uuid));
    party_id ← lift (header PARTY_ID_HEADER parse_party_id (pt_party_id pt));
    sig ← lift (header SIGNATURE_HEADER Some (pt_signature pt));
    body ← lift (body_json pt);
    handle_req request_id party_id sig body).
Definition ping : route (R := parts) (E := Dealer.reject) (S := Server) (A := answer) :=
  mk_route [IsGet; Path "ping"] (fun _ _ => mret Pong).
Definition routes (rq : Request parts) : eff Server rejection answer :=
  or_else (recover_with (run_route rq offline_phase)) (run_route rq ping).

(** ** The waiting handlers

    [recv.recv().await.unwrap()]: the reply once there is one; a panic when the
    sender was dropped without one; until then the handler waits.  A job owns the
    sender: it lives in the queue, in its task or in the table. *)
Inductive poll := Ready (a : res rejection answer) | Waiting | Crashed.

Definition sender_alive (sv : Server) (c : nat) : bool :=
  existsb (fun j => Nat.eqb (chan j) c)
    (sv_tasks sv ++ map snd (map_to_list (open_requests (sv_dealer sv)))).
Definition respond (r : Reply) : res rejection answer :=
  match r with
  | Ok resp => Ok (Json resp)
  | Err msg => handle_rejection (reject (Custom (BadRequestError msg)))
  | Panic => Panic
  end.
Definition await (c : nat) (sv : Server) : poll :=
  match mailbox (sv_dealer sv) c with
  | r :: _ => Ready (respond r)
  | [] => if sender_alive sv c then Waiting else Crashed
  end.

(** ** The server as a whole: requests arrive, tasks run in any order, clients leave *)
Inductive sevent := Arrive (rq : Request parts) | Task (i : nat) | Leave (c : nat).

Definition sv_step (sv : Server) (ev : sevent) : Server :=
  match ev with
  | Arrive rq => (routes rq sv).2
  | Task i =>
      match sv_tasks sv !! i with
      | Some job => mk_server (handle_request rng job (sv_dealer sv)) (delete i (sv_tasks sv)) (sv_jobs sv)
      | None => sv
      end
  | Leave c => mk_server (step rng (sv_dealer sv) (Disconnect c)) (sv_tasks sv) (sv_jobs sv)
  end.
Definition sv_run (sv : Server) (evs : list sevent) : Server := foldl sv_step sv evs.

(** ** Lemmas *)

(** The request [rq] asks for the job [j] as [party], and its signature header is a
    signature by [key] of the bytes of the id followed by the JSON of the body. *)
Definition signed_request (rq : Request parts) (party : Z) (key : PK) (j : DealerJob (PK := PK)) : Prop :=
  rq_method rq = POST /\ party_id j = party /\
  exists rid rest party_text signature body decoded sig bytes,
    rq_segments rq = (["v0"; "offline-phase"; rid] ++ rest)%list /\ parse_uuid rid = Some (request_id j) /\
    pt_party_id (rq_rest rq) = Some (Some party_text) /\ parse_party_id party_text = Some party /\
    pt_body (rq_rest rq) = inr body /\ decode_request body = inr (request j) /\
    pt_signature (rq_rest rq) = Some (Some signature) /\ b64_decode signature = Some decoded /\
    sig_from_slice decoded = Some sig /\ to_vec (request j) = Some bytes /\
    verify key (to_bytes_le (request_id j) ++ bytes)%list sig = true.
(** A job that a request asks for: one of the two parties named in the body signed it,
    and its size was accepted. *)
Definition asked (rq : Request parts) (j : DealerJob (PK := PK)) : Prop :=
  (signed_request rq PARTY0 (first_party_key (request j)) j \/
   signed_request rq PARTY1 (second_party_key (request j)) j) /\
  (total_values (request j) <= MAX_REQUEST_SIZE)%Z.

Lemma validated_signed id party signature body :
  validate_request b64_decode sig_from_slice to_bytes_le to_vec verify id party signature body = Ok () ->
  (total_values body <= MAX_REQUEST_SIZE)%Z /\
  exists key decoded sig bytes,
    (party = PARTY0 /\ key = first_party_key body \/ party = PARTY1 /\ key = second_party_key body) /\
    b64_decode signature = Some decoded /\ sig_from_slice decoded = Some sig /\ to_vec body = Some bytes /\
    verify key (to_bytes_le id ++ bytes)%list sig = true.
Proof.
  unfold validate_request. rewrite Z.gtb_ltb.
  destruct (Z.ltb_spec MAX_REQUEST_SIZE (total_values body)); [done|]. intros Hv. split; [done|].
  assert (exists key, (party = PARTY0 /\ key = first_party_key body \/ party = PARTY1 /\ key = second_party_key body) /\
    (decoded ← unwrap (b64_decode signature); sig ← unwrap (sig_from_slice decoded); bytes ← unwrap (to_vec body);
     if verify key (to_bytes_le id ++ bytes)%list sig then Ok () else Err (UnauthorizedError "Invalid signature"))
    = Ok (E := Dealer.reject) ()) as (key & Hkey & Hk).
  { destruct (Z.eqb_spec party PARTY0) as [-> |]; cbn [orb negb] in Hv; [eauto|].
    destruct (Z.eqb_spec party PARTY1) as [-> |]; cbn [negb] in Hv; [eauto|done]. }
  clear Hv. destruct (b64_decode signature) as [d|] eqn:Hd; [|done]. cbn in Hk.
  destruct (sig_from_slice d) as [sg|] eqn:Hs; [|done]. cbn in Hk.
  destruct (to_vec body) as [bytes|] eqn:Hb; [|done]. cbn in Hk.
  destruct (verify key _ sg) eqn:Hver; [|done]. by exists key, d, sg, bytes.
Qed.

Lemma header_Ok {A} name (parse : string -> option A) h a :
  header name parse h = Ok a -> exists text, h = Some (Some text) /\ parse text = Some a.
Proof.
  unfold header. destruct h as [[text|]|]; [|done..]. destruct (parse text) eqn:Hp; [|done].
  intros [= ->]. eauto.
Qed.
Lemma body_json_Ok pt r : body_json pt = Ok r -> exists b, pt_body pt = inr b /\ decode_request b = inr r.
Proof.
  unfold body_json. destruct (negb _); [done|]. destruct (pt_body pt) as [|b]; [done|].
  destruct (decode_request b) eqn:Hb; [done|]. intros [= ->]. eauto.
Qed.
Lemma offline_phase_matches rq ps :
  matches rq offline_phase = Some ps ->
  rq_method rq = POST /\ exists rid rest, rq_segments rq = (["v0"; "offline-phase"; rid] ++ rest)%list /\ ps = [rid].
Proof.
  unfold matches. destruct rq as [m segs pt]. cbn -[is_uuid]. intros Ha. split_segments Ha. eauto.
Qed.

(** The offline phase queues one job that was asked for, or does nothing and fails. *)
Lemma offline_phase_cases rq sv :
  (exists e, run_route rq offline_phase sv = (Err e, sv)) \/ run_route rq offline_phase sv = (Panic, sv) \/
  exists id party body, asked rq (mk_job id party body (length (sv_jobs sv))) /\
    run_route rq offline_phase sv = (Ok (Await (length (sv_jobs sv))), enqueue id party body sv).
Proof.
  destruct (matches rq offline_phase) as [ps|] eqn:Hm.
  2: { destruct (run_route_miss rq offline_phase sv Hm) as (e & He & _). eauto. }
  rewrite (run_route_hit _ _ _ _ Hm). apply offline_phase_matches in Hm as (Hmeth & rid & rest & Hsegs & ->). cbn.
  unfold mbind, eff_bind, lift, mret, eff_ret, gets, modify. cbn.
  destruct (parse_uuid rid) as [id|] eqn:Hid; cbn; [|eauto].
  destruct (header PARTY_ID_HEADER _ _) as [party|e|] eqn:Hp; [|eauto..].
  destruct (header SIGNATURE_HEADER _ _) as [sig|e|] eqn:Hs; [|eauto..].
  destruct (body_json _) as [body|e|] eqn:Hb; [|eauto..].
  unfold handle_req, mbind, eff_bind, lift, mret, eff_ret, gets, modify.
  destruct (validate_request _ _ _ _ _ id party sig body) as [[]|e|] eqn:Hv; [|cbn; eauto..].
  right. right. exists id, party, body. split; [|done].
  apply validated_signed in Hv as (Hsz & key & d & sg & bytes & Hk & Hd & Hsg & Hbytes & Hver).
  apply header_Ok in Hp as (ptext & Hp & Hpp). apply header_Ok in Hs as (stext & Hs & [= ->]).
  apply body_json_Ok in Hb as (btext & Hb & Hbd). split; [|done].
  destruct Hk as [[-> ->]|[-> ->]]; [left|right]; (split; [done|split; [done|]]);
    by exists rid, rest, ptext, sig, btext, d, sg, bytes.
Qed.

Lemma run_ping rq sv : (run_route rq ping sv).2 = sv.
Proof. unfold run_route. by repeat case_match. Qed.

(** A request changes the server by queueing the job it asks for, or not at all. *)
Lemma routes_cases rq sv :
  (routes rq sv).2 = sv \/
  exists id party body, asked rq (mk_job id party body (length (sv_jobs sv))) /\
    routes rq sv = (Ok (Await (length (sv_jobs sv))), enqueue id party body sv).
Proof.
  unfold routes, or_else, recover_with.
  destruct (offline_phase_cases rq sv) as [[e ->]|[-> |(id & party & body & Ha & ->)]]; [|by left|by eauto 10].
  left. destruct (handle_rejection e) as [a|e'|]; [done| |done].
  generalize (run_ping rq sv). by destruct (run_route rq ping sv) as [[] ?].
Qed.

(** The jobs that meet at [job]: the waiting one has its id, its body and the other
    party. *)
Definition partners (ex job : DealerJob (PK := PK)) : Prop :=
  request_id ex = request_id job /\ request ex = request job /\ party_id ex <> party_id job.

(** A send adds one message to its channel. *)
Lemma elem_of_sent c m k (st : Dealer (PK := PK)) x c' (Q : Prop) :
  (forall st', x ∈ mailbox (k st') c' -> x ∈ mailbox st' c' \/ Q) ->
  x ∈ mailbox (send_then c m k st) c' -> x ∈ mailbox st c' \/ (x = m /\ c' = c) \/ Q.
Proof.
  intros Hk. rewrite send_then_mail. case_bool_decide; [by left|].
  intros [Hin|HQ]%Hk; [|by right; right]. unfold mailbox in *. cbn in Hin. rewrite lookup_insert in Hin.
  case_decide; subst; cbn in Hin; [|by left].
  apply elem_of_app in Hin as [Hin|Hin]; [by left|]. apply list_elem_of_singleton in Hin. auto.
Qed.

(** Where shares come from: only from a job that meets its partner. *)
Lemma handle_request_deals job st c r :
  (forall id j, open_requests st !! id = Some j -> request_id j = id) ->
  Ok r ∈ mailbox (handle_request rng job st) c ->
  Ok r ∈ mailbox st c \/
  exists ex, open_requests st !! request_id job = Some ex /\ partners ex job /\
    exists r', (c = chan ex /\ correlated (request job) r r') \/ (c = chan job /\ correlated (request job) r' r).
Proof.
  intros Hkey. unfold handle_request. destruct (poisoned st); [by left|].
  destruct (open_requests st !! request_id job) as [ex|] eqn:E; [|by left].
  case_bool_decide as Hr; cbn [negb]; [|by left].
  destruct (Z.eqb_spec (party_id ex) (party_id job)) as [|Hp].
  - intros [?|[[? _]|[? _]]]%(elem_of_sent _ _ _ _ _ _ ((Ok r : Reply) = Err DUPLICATE_PARTY /\ c = chan ex)); try done; [by left|].
    intros st' [?|[?|[]]]%(elem_of_sent _ _ _ _ _ _ False); auto.
  - unfold handle_ready_pair. destruct (ready_pair_responses _ _ _) as [[[r1 r2] p]|] eqn:Hg; [|by left].
    apply ready_pair_correlated in Hg. rewrite Hr in Hg.
    assert (partners ex job) as Hpa by (split_and!; eauto).
    intros [?|[[[= ->] ->]|[[= ->] ->]]]%(elem_of_sent _ _ _ _ _ _ ((Ok r : Reply) = Ok r2 /\ c = chan job));
      [by left|right; exists ex; eauto 10..|].
    intros st' [?|[?|[]]]%(elem_of_sent _ _ _ _ _ _ False); auto.
Qed.

(** A job writes to its own channel and to that of the job it meets. *)
Lemma handle_request_writes job (st : Dealer (PK := PK)) x c :
  x ∈ mailbox (handle_request rng job st) c ->
  x ∈ mailbox st c \/ c = chan job \/ exists ex, open_requests st !! request_id job = Some ex /\ c = chan ex.
Proof.
  unfold handle_request. destruct (poisoned st); [by left|].
  destruct (open_requests st !! request_id job) as [ex|] eqn:E; [|by left].
  case_bool_decide as Hr; cbn [negb]; [|by left]. destruct (_ =? _)%Z.
  - intros [?|[[_ ?]|?]]%(elem_of_sent _ _ _ _ _ _ (c = chan ex)); eauto.
    intros st' [?|[[_ ?]|[]]]%(elem_of_sent _ _ _ _ _ _ False); auto.
  - unfold handle_ready_pair. destruct (ready_pair_responses _ _ _) as [[[r1 r2] p]|]; [|by left].
    intros [?|[[_ ?]|?]]%(elem_of_sent _ _ _ _ _ _ (c = chan job)); eauto.
    intros st' [?|[[_ ?]|[]]]%(elem_of_sent _ _ _ _ _ _ False); auto.
Qed.

(** ** The invariant of the server

    Every job is known under the position of its channel; tasks
    and the table hold known jobs, the table under their ids; and whoever was dealt
    shares had a partner. *)
Definition dealt (sv : Server) (c : nat) (r : DealerResponse) : Prop :=
  exists j j' r', sv_jobs sv !! c = Some j /\ j' ∈ sv_jobs sv /\ (partners j j' \/ partners j' j) /\
    (correlated (request j) r r' \/ correlated (request j) r' r).

Record sv_inv (sv : Server) : Prop := {
  jobs_known : forall i j, sv_jobs sv !! i = Some j -> chan j = i;
  tasks_known : forall j, j ∈ sv_tasks sv -> j ∈ sv_jobs sv;
  table_known : forall id j, open_requests (sv_dealer sv) !! id = Some j -> request_id j = id /\ j ∈ sv_jobs sv;
  shares_dealt : forall c r, Ok r ∈ mailbox (sv_dealer sv) c -> dealt sv c r;
  replies_known : forall c, length (sv_jobs sv) <= c -> mailbox (sv_dealer sv) c = [];
}.

Lemma known_at sv j : sv_inv sv -> j ∈ sv_jobs sv -> sv_jobs sv !! chan j = Some j.
Proof. intros Hi [i Hj]%list_elem_of_lookup_1. by rewrite (jobs_known _ Hi _ _ Hj). Qed.

Lemma sv_inv_start p : sv_inv (start p).
Proof. split; unfold mailbox; cbn; intros *; rewrite ?lookup_nil, ?lookup_empty; cbn; try done; set_solver. Qed.

Lemma sv_inv_enqueue id party body sv : sv_inv sv -> sv_inv (enqueue id party body sv).
Proof.
  intros [H1 H2 H3 H4 H5]. split; cbn.
  - intros i j [Hj|[Hle Hj]]%lookup_app_Some; [eauto|].
    apply list_lookup_singleton_Some in Hj as [Hi <-]. cbn. lia.
  - set_solver.
  - intros id' j Hj. destruct (H3 _ _ Hj). set_solver.
  - intros c r (j & j' & r' & Hj & Hj' & Hr)%H4. exists j, j', r'. cbn.
    split_and!; [by apply lookup_app_l_Some|set_solver|tauto..].
  - intros c Hc. apply H5. rewrite length_app in Hc. lia.
Qed.

(** The table after a job: what it held, and perhaps the job. *)
Lemma handle_request_table job (st : Dealer (PK := PK)) id j :
  open_requests (handle_request rng job st) !! id = Some j ->
  open_requests st !! id = Some j \/ (j = job /\ id = request_id job).
Proof.
  destruct (decide (request_id job = id)) as [<-|Hne]; [|rewrite handle_request_other by done; auto].
  unfold handle_request. destruct (poisoned st); [auto|].
  destruct (open_requests st !! request_id job) as [ex|] eqn:E.
  - case_bool_decide; cbn [negb]; [destruct (_ =? _)%Z|];
      rewrite ?handle_ready_pair_open, ?send_then_open; cbn; rewrite ?lookup_delete_eq; try done;
      intros; by rewrite send_then_open.
  - cbn. rewrite lookup_insert_eq. intros [= ->]. auto.
Qed.

Lemma sv_inv_task i sv : sv_inv sv -> sv_inv (sv_step sv (Task i)).
Proof.
  intros Hi. pose proof Hi as [H1 H2 H3 H4 H5]. cbn. destruct (sv_tasks sv !! i) as [job|] eqn:Ej; [|done].
  assert (job ∈ sv_jobs sv) as Hjob by (apply H2; by eapply list_elem_of_lookup_2).
  split; cbn.
  - done.
  - intros j Hj%list_elem_of_delete_inv. auto.
  - intros id j [Hj|[-> ->]]%handle_request_table; eauto.
  - intros c r [?|(ex & Hex & Hp & r' & Hr)]%handle_request_deals; [by apply H4| |naive_solver].
    destruct (H3 _ _ Hex) as [_ Hin]. destruct Hr as [[-> Hr]|[-> Hr]].
    + exists ex, job, r'. pose proof Hp as (_ & Hreq & _). rewrite <- Hreq in Hr. cbn. split_and!; eauto using known_at.
    + exists job, ex, r'. cbn. split_and!; eauto using known_at.
  - intros c Hc. apply elem_of_nil_inv. intros x Hx.
    apply handle_request_writes in Hx as [Hx|Hx]; [rewrite H5 in Hx by done; set_solver|].
    assert (exists j, j ∈ sv_jobs sv /\ c = chan j) as (j & Hj & ->) by naive_solver.
    apply known_at, lookup_lt_Some in Hj; [lia|done].
Qed.

Lemma sv_inv_step ev sv : sv_inv sv -> sv_inv (sv_step sv ev).
Proof.
  intros Hi. destruct ev as [rq|i|c]; [|by apply sv_inv_task|by destruct Hi; split].
  cbn. destruct (routes_cases rq sv) as [-> |(id & party & body & Ha & ->)]; [done|].
  by apply sv_inv_enqueue.
Qed.
Lemma sv_inv_run evs sv : sv_inv sv -> sv_inv (sv_run sv evs).
Proof. revert sv. induction evs as [|ev evs IH]; intros sv Hi; cbn; [done|]. by apply IH, sv_inv_step. Qed.

(** Every job was asked for by a request that arrived. *)
Lemma jobs_asked evs sv j :
  j ∈ sv_jobs (sv_run sv evs) -> j ∈ sv_jobs sv \/ exists rq, Arrive rq ∈ evs /\ asked rq j.
Proof.
  revert sv. induction evs as [|ev evs IH]; intros sv Hj; [by left|].
  apply (IH (sv_step sv ev)) in Hj as [Hj|(rq & Hin & Ha)]; [|right; exists rq; split; [by right|done]].
  destruct ev as [rq|i|c]; cbn in Hj; [|destruct (sv_tasks sv !! i); by left|by left].
  destruct (routes_cases rq sv) as [Hr|(id & party & body & Ha & Hr)]; rewrite Hr in Hj; [by left|]. cbn in Hj.
  apply elem_of_app in Hj as [Hj|Hj]; [by left|]. apply list_elem_of_singleton in Hj as ->.
  right. exists rq. split; [by left|done].
Qed.

(** ** A request that is served *)

(** The offline-phase request of [party] with its signature. *)
Definition offline_request (rid party signature body : string) : Request parts :=
  mk_req POST ["v0"; "offline-phase"; rid] (mk_parts (Some (Some party)) (Some (Some signature)) true (inr body)).

(** Its texts stand for these values, which pass the validation. *)
Definition well_formed (rid party signature body : string) (j : DealerJob (PK := PK)) : Prop :=
  parse_uuid rid = Some (request_id j) /\ parse_party_id party = Some (party_id j) /\
  decode_request body = inr (request j) /\
  validate_request b64_decode sig_from_slice to_bytes_le to_vec verify (request_id j) (party_id j) signature (request j) = Ok ().

Lemma offline_request_match rid party signature body id :
  parse_uuid rid = Some id -> matches (offline_request rid party signature body) offline_phase = Some [rid].
Proof. intros Hid. assert (is_uuid rid = true) as Hu by (unfold is_uuid; by rewrite Hid).
  unfold matches. cbn -[is_uuid]. rewrite decide_True by done. cbn -[is_uuid]. by rewrite Hu.
Qed.

Lemma well_formed_queued rid party signature body j sv :
  well_formed rid party signature body j ->
  routes (offline_request rid party signature body) sv =
    (Ok (Await (length (sv_jobs sv))), enqueue (request_id j) (party_id j) (request j) sv).
Proof.
  intros (Hid & Hp & Hb & Hv). unfold routes, or_else, recover_with.
  rewrite (run_route_hit _ _ [rid]) by eauto using offline_request_match.
  cbn. unfold mbind, eff_bind, lift, mret, eff_ret, gets, modify. cbn. rewrite Hid. cbn. rewrite Hp.
  unfold body_json. cbn. rewrite Hb. unfold handle_req, mbind, eff_bind, lift, mret, eff_ret, gets, modify.
  by rewrite Hv.
Qed.

(** ** A poisoned table *)
Lemma poisoned_step ev sv :
  poisoned (sv_dealer sv) = true ->
  poisoned (sv_dealer (sv_step sv ev)) = true /\
  mail (sv_dealer (sv_step sv ev)) = mail (sv_dealer sv) /\
  open_requests (sv_dealer (sv_step sv ev)) = open_requests (sv_dealer sv).
Proof.
  intros Hp. destruct ev as [rq|i|c]; cbn; [|destruct (sv_tasks sv !! i); cbn; [|done]|done].
  - destruct (routes_cases rq sv) as [-> |(id & party & body & _ & ->)]; done.
  - unfold handle_request. by rewrite Hp.
Qed.
Lemma poisoned_run evs sv :
  poisoned (sv_dealer sv) = true ->
  poisoned (sv_dealer (sv_run sv evs)) = true /\
  mail (sv_dealer (sv_run sv evs)) = mail (sv_dealer sv) /\
  open_requests (sv_dealer (sv_run sv evs)) = open_requests (sv_dealer sv).
Proof.
  revert sv. induction evs as [|ev evs IH]; intros sv Hp; [done|].
  destruct (poisoned_step ev sv Hp) as (H1 & H2 & H3).
  destruct (IH _ H1) as (H4 & H5 & H6). change (sv_run sv (ev :: evs)) with (sv_run (sv_step sv ev) evs).
  by rewrite H5, H6, H2, H3.
Qed.

(** ** Who still holds a sender *)
Definition holds (sv : Server) (c : nat) (j : DealerJob (PK := PK)) : Prop :=
  chan j = c /\ (j ∈ sv_tasks sv \/ exists id, open_requests (sv_dealer sv) !! id = Some j).
Lemma sender_alive_spec sv c : sender_alive sv c = true <-> exists j, holds sv c j.
Proof.
  unfold sender_alive, holds. rewrite existsb_exists. setoid_rewrite <- list_elem_of_In.
  setoid_rewrite elem_of_app. setoid_rewrite Nat.eqb_eq. setoid_rewrite list_elem_of_fmap.
  split.
  - intros (j & [Hj|([id j'] & -> & Hj%elem_of_map_to_list)] & Hc); exists j || exists j'; eauto.
  - intros (j & Hc & [Hj|[id Hj]]); exists j; (split; [|done]); [by left|right].
    exists (id, j). by rewrite elem_of_map_to_list.
Qed.

(** ** Two requests in a row *)
Lemma two_tasks {A} (l : list A) (x y : A) :
  ((l ++ [x; y]) !! length l = Some x /\ (l ++ [x; y]) !! S (length l) = Some y /\
   delete (length l) (l ++ [x; y]) = l ++ [y] /\ delete (S (length l)) (l ++ [x; y]) = l ++ [x] /\
   forall z, (l ++ [z]) !! length l = Some z)%list.
Proof. induction l as [|a l (H1 & H2 & H3 & H4 & H5)]; cbn; [done|]. split_and!; auto; f_equal; auto. Qed.

Lemma two_arrivals rid p1 s1 b1 p2 s2 b2 j1 j2 sv :
  well_formed rid p1 s1 b1 j1 -> well_formed rid p2 s2 b2 j2 ->
  let n := length (sv_jobs sv) in
  let js := [mk_job (request_id j1) (party_id j1) (request j1) n;
             mk_job (request_id j2) (party_id j2) (request j2) (S n)] in
  sv_run sv [Arrive (offline_request rid p1 s1 b1); Arrive (offline_request rid p2 s2 b2)] =
  mk_server (sv_dealer sv) (sv_tasks sv ++ js) (sv_jobs sv ++ js).
Proof.
  intros H1 H2. cbn [sv_run foldl sv_step]. rewrite (well_formed_queued rid p1 s1 b1 j1) by done.
  rewrite (well_formed_queued rid p2 s2 b2 j2) by done. cbn [snd]. unfold enqueue. cbn.
  rewrite length_app, <- !app_assoc. cbn. by rewrite Nat.add_1_r.
Qed.

(** ** Two jobs that meet *)
Lemma jobs_meet j1 j2 (st : Dealer (PK := PK)) :
  (forall i, samples rng i <> szero) ->
  poisoned st = false -> open_requests st !! request_id j1 = None -> partners j1 j2 ->
  chan j1 ∉ closed st -> chan j2 ∉ closed st -> chan j1 <> chan j2 ->
  mailbox st (chan j1) = [] -> mailbox st (chan j2) = [] ->
  exists r1 r2, correlated (request j1) r1 r2 /\
    mailbox (handle_request rng j2 (handle_request rng j1 st)) (chan j1) = [Ok r1] /\
    mailbox (handle_request rng j2 (handle_request rng j1 st)) (chan j2) = [Ok r2] /\
    poisoned (handle_request rng j2 (handle_request rng j1 st)) = false.
Proof.
  intros Hnz Hp Ho (Hid & Hreq & Hparty) H1 H2 Hne E1 E2.
  unfold handle_request at 2 4 6. rewrite Hp, Ho.
  unfold handle_request. cbn [poisoned set_open open_requests]. rewrite Hp, <- Hid, lookup_insert_eq.
  rewrite bool_decide_eq_true_2 by done. cbn [negb]. destruct (Z.eqb_spec (party_id j1) (party_id j2)); [done|].
  match goal with |- context [handle_ready_pair rng j1 j2 ?s] =>
    destruct (handle_ready_pair_ok rng j1 j2 s Hnz) as (r1 & r2 & Hc & Hm1 & Hm2 & Hpo); [done..|] end.
  exists r1, r2. rewrite Hm1, Hm2, Hpo. split_and!; [done| | |done]; unfold mailbox in *; cbn; by rewrite ?E1, ?E2.
Qed.
End Server.

(** ** Theorems *)

(** A library for concrete runs: ids, parties and bodies by name; a signature is good
    when it is "ok". *)
Definition toy_body (s : string) : string + DealerRequest nat :=
  if String.eqb s "body" then inr f2_req
  else if String.eqb s "other" then inr (with_n_triples 0 f2_req) else inl "expected value".
#[local] Instance toy_lib : DealerLib nat := {
  parse_uuid s := if String.eqb s "seven" then Some 7%Z else if String.eqb s "eight" then Some 8%Z else None;
  parse_party_id s := if String.eqb s "0" then Some 0%Z else if String.eqb s "1" then Some 1%Z
    else if String.eqb s "2" then Some 2%Z else None;
  decode_request := toy_body;
  b64_decode s := if String.eqb s "ok" then Some [1%Z] else if String.eqb s "forged" then Some [0%Z] else None;
  sig_from_slice b := Some b;
  to_bytes_le id := [id];
  to_vec _ := Some [2%Z];
  verify key payload sig := bool_decide (sig = [1%Z] /\ length payload = 2);
}.
Definition toy_start : @Server F2 nat := start {| next_sample := 0; next_coin := 0 |}.
Definition toy_arrive (party body : string) : sevent := Arrive (offline_request "seven" party "ok" body).

(** C27. Whatever requests arrive, in whatever order the tasks run and whichever clients
    leave: shares are dealt to a channel only when two requests arrived, one of each
    party named in their common body, for the same id, each with a header that is
    the signature, by the key the body names for its party, of the bytes of the id
    followed by the JSON of the body.  The channel is that of one of the two; the
    shares are one half of a correlated pair for that body; and no more values were
    asked for than the limit, as the server counts them. *)
Theorem dealt_only_to_signers `{SF : ScalarField} `{WL : WarpLib} {PK} `{EqDecision PK} `{DL : DealerLib PK}
    (rng : Rng) p evs c r :
  let sv := sv_run rng (start p) evs in
  Ok r ∈ mailbox (sv_dealer sv) c ->
  exists rq0 rq1 j0 j1 r', Arrive rq0 ∈ evs /\ Arrive rq1 ∈ evs /\
    signed_request rq0 PARTY0 (first_party_key (request j0)) j0 /\
    signed_request rq1 PARTY1 (second_party_key (request j0)) j1 /\
    request_id j0 = request_id j1 /\ request j0 = request j1 /\
    (sv_jobs sv !! c = Some j0 \/ sv_jobs sv !! c = Some j1) /\
    (correlated (request j0) r r' \/ correlated (request j0) r' r) /\
    (total_values (request j0) <= MAX_REQUEST_SIZE)%Z.
Proof.
  intros sv Hr. assert (sv_inv sv) as Hi by apply sv_inv_run, sv_inv_start.
  destruct (shares_dealt _ Hi _ _ Hr) as (j & j' & r' & Hj & Hj' & Hpa & Hc).
  assert (j ∈ sv_jobs sv) as Hin by (by eapply list_elem_of_lookup_2).
  apply jobs_asked in Hin as [Hin|(rq & Harr & Hs & Hsz)]; [by apply elem_of_nil in Hin|].
  apply jobs_asked in Hj' as [Hin|(rq' & Harr' & Hs' & _)]; [by apply elem_of_nil in Hin|].
  assert (request_id j = request_id j' /\ request j = request j' /\ party_id j <> party_id j') as (Hid & Hq & Hp).
  { destruct Hpa as [(?&?&?)|(?&?&?)]; split_and!; congruence. }
  destruct Hs as [Hs|Hs], Hs' as [Hs'|Hs']; pose proof (proj1 (proj2 Hs)); pose proof (proj1 (proj2 Hs'));
    try congruence.
  - exists rq, rq', j, j', r'. rewrite <- Hq in Hs'. split_and!; auto.
  - exists rq', rq, j', j, r'. rewrite Hq in *. split_and!; auto.
Qed.

(** Both requests of the witness carry the signature that verifies. *)
Lemma dealt_only_to_signers_witness :
  let evs := [toy_arrive "0" "body"; toy_arrive "1" "body"; Task 1; Task 0] in
  exists r, Ok r ∈ mailbox (sv_dealer (sv_run f2_rng toy_start evs)) 0 /\
  exists rq0 rq1 j0 j1, Arrive rq0 ∈ evs /\ Arrive rq1 ∈ evs /\
    signed_request rq0 PARTY0 (first_party_key (request j0)) j0 /\
    signed_request rq1 PARTY1 (second_party_key (request j0)) j1.
Proof.
  cbv zeta. evar (r : @DealerResponse F2). exists r.
  assert (Ok r ∈ mailbox (sv_dealer (sv_run f2_rng toy_start
    [toy_arrive "0" "body"; toy_arrive "1" "body"; Task 1; Task 0])) 0) as Hin.
  { subst r. vm_compute. apply list_elem_of_here. }
  split; [exact Hin|].
  destruct (dealt_only_to_signers f2_rng _ _ 0 r Hin) as (rq0 & rq1 & j0 & j1 & r' & A0 & A1 & S0 & S1 & _).
  by exists rq0, rq1, j0, j1.
Defined.

(** Two well-formed requests, one of each party, for the same id and body: once
    both are queued, and in whichever order the two tasks run, both handlers answer
    with status 200 and the two halves of a correlated pair, and the dealer goes on. *)
Theorem pair_served `{SF : ScalarField} `{WL : WarpLib} {PK} `{EqDecision PK} `{DL : DealerLib PK}
    (rng : Rng) p evs rid p1 s1 b1 p2 s2 b2 j1 j2 (first_runs_first : bool) :
  let sv := sv_run rng (start p) evs in
  let n := length (sv_jobs sv) in let t := length (sv_tasks sv) in
  (forall i, samples rng i <> szero) ->
  poisoned (sv_dealer sv) = false -> open_requests (sv_dealer sv) !! request_id j1 = None ->
  n ∉ closed (sv_dealer sv) -> S n ∉ closed (sv_dealer sv) ->
  well_formed rid p1 s1 b1 j1 -> well_formed rid p2 s2 b2 j2 ->
  request j1 = request j2 -> party_id j1 <> party_id j2 ->
  let sv' := sv_run rng sv (Arrive (offline_request rid p1 s1 b1) :: Arrive (offline_request rid p2 s2 b2) ::
    if first_runs_first then [Task t; Task t] else [Task (S t); Task t]) in
  exists r1 r2, await n sv' = Ready (Ok (Json r1)) /\ await (S n) sv' = Ready (Ok (Json r2)) /\
    (correlated (request j1) r1 r2 \/ correlated (request j1) r2 r1) /\ poisoned (sv_dealer sv') = false.
Proof.
  intros sv n t Hnz Hp Ho Hc1 Hc2 Hw1 Hw2 Hreq Hpar sv'.
  assert (sv_inv sv) as Hi by apply sv_inv_run, sv_inv_start.
  assert (request_id j1 = request_id j2) as Hid.
  { destruct Hw1 as [E1 _], Hw2 as [E2 _]. congruence. }
  set (k1 := mk_job (request_id j1) (party_id j1) (request j1) n).
  set (k2 := mk_job (request_id j2) (party_id j2) (request j2) (S n)).
  pose proof (two_arrivals rng rid p1 s1 b1 p2 s2 b2 j1 j2 sv Hw1 Hw2) as Harr.
  cbv zeta in Harr. change (mk_job (request_id j1) _ _ _) with k1 in Harr. change (mk_job (request_id j2) _ _ _) with k2 in Harr.
  assert (mailbox (sv_dealer sv) n = [] /\ mailbox (sv_dealer sv) (S n) = []) as [E1 E2].
  { split; apply (replies_known _ Hi); lia. }
  destruct (two_tasks (sv_tasks sv) k1 k2) as (T1 & T2 & D1 & D2 & Tk). fold t in T1, T2, D1, D2, Tk.
  assert (sv_dealer sv' = if first_runs_first then handle_request rng k2 (handle_request rng k1 (sv_dealer sv))
    else handle_request rng k1 (handle_request rng k2 (sv_dealer sv))) as Hd.
  { unfold sv'. destruct first_runs_first;
      (match goal with |- context [sv_run rng sv (?a :: ?b :: ?l)] =>
         change (sv_run rng sv (a :: b :: l)) with (sv_run rng (sv_run rng sv [a; b]) l) end;
       rewrite Harr; cbn [sv_run foldl sv_step sv_tasks sv_dealer sv_jobs]; rewrite ?T1, ?T2;
       cbn [sv_tasks sv_dealer sv_jobs]; rewrite ?D1, ?D2, Tk; done). }
  assert (forall c r, mailbox (sv_dealer sv') c = [Ok r] -> await c sv' = Ready (Ok (Json r))) as Haw.
  { intros c r Hm. unfold await. by rewrite Hm. }
  rewrite Hd in Haw |- *. destruct first_runs_first.
  - destruct (jobs_meet rng k1 k2 (sv_dealer sv)) as (r1 & r2 & Hc & M1 & M2 & Hpo); try done.
    exists r1, r2. split_and!; auto.
  - assert (partners k2 k1 /\ S n <> n /\ open_requests (sv_dealer sv) !! request_id k2 = None) as (Hpa & Hne & Ho2).
    { split; [|split; [lia|by cbn; rewrite <- Hid]]. unfold partners. cbn. auto. }
    destruct (jobs_meet rng k2 k1 (sv_dealer sv)) as (r2 & r1 & Hc & M2 & M1 & Hpo); try done.
    exists r1, r2. cbn in Hc. rewrite <- Hreq in Hc. split_and!; auto.
Qed.

Lemma pair_served_witness :
  let sv' := sv_run f2_rng toy_start [toy_arrive "0" "body"; toy_arrive "1" "body"; Task 1; Task 0] in
  exists r1 r2, await 0 sv' = Ready (Ok (Json r1)) /\ await 1 sv' = Ready (Ok (Json r2)) /\
    (correlated f2_req r1 r2 \/ correlated f2_req r2 r1) /\ poisoned (sv_dealer sv') = false.
Proof.
  apply (pair_served f2_rng {| next_sample := 0; next_coin := 0 |} [] "seven" "0" "ok" "body" "1" "ok" "body"
    (f2_job 0 0) (f2_job 1 1) false);
    [done|reflexivity|reflexivity|exact (not_elem_of_empty _)|exact (not_elem_of_empty _)|by split_and!..|done|done].
Defined.

(** What the server makes of a request whose texts parse: validated, it is queued and
    its handler waits; refused, it is answered with the status and the message of
    the refusal, 400 or 401; and a signature that cannot be decoded makes the
    handler panic.  Only in the first case does the server change. *)
Theorem offline_request_outcomes `{SF : ScalarField} `{WL : WarpLib} {PK} `{EqDecision PK} `{DL : DealerLib PK}
    rid party signature body id pid req sv :
  parse_uuid rid = Some id -> parse_party_id party = Some pid -> decode_request body = inr req ->
  match validate_request b64_decode sig_from_slice to_bytes_le to_vec verify id pid signature req with
  | Ok _ => routes (offline_request rid party signature body) sv =
      (Ok (Await (length (sv_jobs sv))), enqueue id pid req sv)
  | Err e => exists code msg, Dealer.handle_rejection e = Some (code, msg) /\ (code = 400 \/ code = 401)%Z /\
      routes (offline_request rid party signature body) sv = (Ok (ErrorResponse code msg), sv)
  | Panic => routes (offline_request rid party signature body) sv = (Panic, sv)
  end.
Proof.
  intros Hid Hp Hb.
  assert (routes (offline_request rid party signature body) sv =
    or_else (recover_with (handle_req id pid signature req))
      (run_route (offline_request rid party signature body) ping) sv) as ->.
  { unfold routes, or_else, recover_with.
    rewrite (run_route_hit _ _ [rid]) by eauto using offline_request_match.
    cbn. unfold mbind, eff_bind, lift. cbn. rewrite Hid. cbn. rewrite Hp. unfold body_json. cbn. by rewrite Hb. }
  unfold or_else, recover_with, handle_req, mbind, eff_bind, lift, mret, eff_ret, gets, modify.
  destruct (validate_request _ _ _ _ _ _ _ _ _) as [[]|e|] eqn:Hv; cbn; [done| |done].
  assert (e = BadRequestError "Request size too large" \/ e = BadRequestError "Invalid party ID" \/
    e = UnauthorizedError "Invalid signature") as He.
  { revert Hv. unfold validate_request. case_match; [naive_solver|]. case_match; [naive_solver|].
    destruct (b64_decode signature) as [d|]; cbn; [|done]. destruct (sig_from_slice d); cbn; [|done].
    destruct (to_vec req); cbn; [|done].
    case_match; naive_solver. }
  unfold handle_rejection, find_cause. rewrite causes_reject.
  destruct He as [-> |[-> | ->]]; cbn; eauto 10.
Qed.

Lemma offline_request_outcomes_witness :
  routes (offline_request "seven" "0" "forged" "body") toy_start =
    (Ok (ErrorResponse 401 "Invalid signature"), toy_start) /\
  routes (offline_request "seven" "2" "ok" "body") toy_start =
    (Ok (ErrorResponse 400 "Invalid party ID"), toy_start) /\
  routes (offline_request "seven" "0" "not base64!" "body") toy_start = (Panic, toy_start).
Proof.
  pose proof (offline_request_outcomes "seven" "0" "forged" "body" 7 0 f2_req toy_start
    eq_refl eq_refl eq_refl) as H1.
  pose proof (offline_request_outcomes "seven" "2" "ok" "body" 7 2 f2_req toy_start
    eq_refl eq_refl eq_refl) as H2.
  pose proof (offline_request_outcomes "seven" "0" "not base64!" "body" 7 0 f2_req toy_start
    eq_refl eq_refl eq_refl) as H3.
  replace (validate_request b64_decode sig_from_slice to_bytes_le to_vec verify 7 0 "forged" f2_req)
    with (Err (A := unit) (UnauthorizedError "Invalid signature")) in H1 by (vm_compute; reflexivity).
  replace (validate_request b64_decode sig_from_slice to_bytes_le to_vec verify 7 2 "ok" f2_req)
    with (Err (A := unit) (BadRequestError "Invalid party ID")) in H2 by (vm_compute; reflexivity).
  replace (validate_request b64_decode sig_from_slice to_bytes_le to_vec verify 7 0 "not base64!" f2_req)
    with (Panic (E := Dealer.reject) (A := unit)) in H3 by (vm_compute; reflexivity).
  destruct H1 as (c1 & m1 & [= <- <-] & _ & H1), H2 as (c2 & m2 & [= <- <-] & _ & H2). auto.
Defined.

(** A client that leaves while it waits for its peer: when the peer's job is run, the
    send to the first client fails and panics with the table locked.  From then on,
    whatever happens, no channel gets a message, and no later request is ever
    answered: its handler waits, or panics once its sender has been dropped. *)
Theorem disconnected_client_stops_dealer `{SF : ScalarField} `{WL : WarpLib} {PK} `{EqDecision PK} `{DL : DealerLib PK}
    (rng : Rng) (sv : Server) (i : nat) (waiting job : DealerJob (PK := PK)) later :
  (forall k, samples rng k <> szero) ->
  sv_inv sv -> poisoned (sv_dealer sv) = false -> sv_tasks sv !! i = Some job ->
  open_requests (sv_dealer sv) !! request_id job = Some waiting -> partners waiting job ->
  chan waiting ∈ closed (sv_dealer sv) ->
  let sv' := sv_run rng sv (Task i :: later) in
  (forall c, mailbox (sv_dealer sv') c = mailbox (sv_dealer sv) c) /\
  forall c, length (sv_jobs sv) <= c -> await c sv' = if sender_alive sv' c then Waiting else Crashed.
Proof.
  intros Hnz Hi Hp Hj Ho (Hid & Hreq & Hparty) Hcl sv'.
  set (st := set_open (delete (request_id job) (open_requests (sv_dealer sv))) (sv_dealer sv)).
  assert (exists st', handle_request rng job (sv_dealer sv) = st' /\ poisoned st' = true /\
    mail st' = mail (sv_dealer sv)) as (st' & Hst & Hpo & Hm).
  { eexists. split; [reflexivity|]. unfold handle_request. rewrite Hp, Ho, Hreq, bool_decide_eq_true_2 by done.
    cbn [negb]. destruct (Z.eqb_spec (party_id waiting) (party_id job)); [done|]. fold st.
    unfold handle_ready_pair. destruct (ready_pair_total rng (request waiting) Hnz (rng_pos st)) as [[[r1 r2] p] ->].
    unfold send_then, send. cbn. by rewrite bool_decide_eq_true_2. }
  assert (sv_dealer (sv_step rng sv (Task i)) = st') as Hd by (cbn; by rewrite Hj).
  destruct (poisoned_run rng later (sv_step rng sv (Task i))) as (_ & Hmail & _); [by rewrite Hd|].
  change (sv_run rng (sv_step rng sv (Task i)) later) with sv' in Hmail. rewrite Hd, Hm in Hmail.
  assert (forall c, mailbox (sv_dealer sv') c = mailbox (sv_dealer sv) c) as Hbox.
  { intros c. unfold mailbox. by rewrite Hmail. }
  split; [done|]. intros c Hc. unfold await. by rewrite Hbox, (replies_known _ Hi) by done.
Qed.

Lemma disconnected_client_stops_dealer_witness :
  let sv := sv_run f2_rng toy_start [toy_arrive "0" "body"; Task 0; Leave 0; toy_arrive "1" "body"] in
  let later := [Arrive (offline_request "eight" "0" "ok" "body"); Arrive (offline_request "eight" "1" "ok" "body");
                Task 0; Task 0] in
  let sv' := sv_run f2_rng sv (Task 0 :: later) in
  await 2 sv' = Crashed /\ await 3 sv' = Crashed.
Proof.
  cbv zeta.
  destruct (disconnected_client_stops_dealer f2_rng
    (sv_run f2_rng toy_start [toy_arrive "0" "body"; Task 0; Leave 0; toy_arrive "1" "body"]) 0
    (f2_job 0 0) (f2_job 1 1)
    [Arrive (offline_request "eight" "0" "ok" "body"); Arrive (offline_request "eight" "1" "ok" "body");
     Task 0; Task 0]) as [_ Ha]; [done|apply sv_inv_run, sv_inv_start|reflexivity..|by split_and!|by cbn; set_solver|].
  split; rewrite Ha; reflexivity || (vm_compute; lia).
Defined.

(** A key survives its encoding in a request. *)
Theorem key_roundtrip {PK} `{Sec1 PK} (k : PK) : deserialize_key (serialize_key k) = inr k.
Proof. unfold deserialize_key, serialize_key. by rewrite sec1_roundtrip. Qed.
