(* ===== verification/AuthStartup.v ===== *)
(** * Start-up of the auth server (auth/auth-server/src: main.rs, server/setup.rs,
    server/db/mod.rs, server/gas_estimation/, chain_events/worker.rs, telemetry/mod.rs)

    The command line, the construction of the server from it, the gas oracles and the
    timer that samples them, and the life of the on-chain listener from the thread
    that runs it to the cancellation of the server.  Every call to a library or to
    another service is recorded, and what it returns may depend on all the calls
    before it; shared objects are handles. *)
From Stdlib Require Import ZArith Lia.
From stdpp Require Import gmap strings list.
From S2P Require Import Prelude F64 AuthError RateLimiter GasSponsorship Settlement.
Local Open Scope Z_scope.

(** ** Calls to other code *)
Inductive call :=
  | ConfigureTelemetry (datadog otlp metrics : bool) (collector statsd_host : string) (statsd_port : Z) (prefix : string)
  | SetupTokenRemaps (file : option string)
  | NewDarkpoolClient (darkpool permit2 : Z) (rpc_url : string) (polling_ms : Z)
  | GetProtocolFee (base quote : Z)
  | BuildDbPool (url : string)
  | OpenRedis (url : string)
  | ConnectRedis (url : string) (timeout_secs : Z)
  | NewPriceReporterClient (url : string)
  | GasEstimateL1Component (contract to : Z) (contract_creation : bool) (data : list Z)
  | GetGasPrice
  | L1BaseFee (contract : Z)
  | GetL1GasUsed (contract : Z) (data : list Z)
  | AddAsyncTimer (name : string) (interval_secs : Z)
  | SpawnThread (name : string).

Class StartupTypes := {
  Aes128Gcm : Type;
  HmacKey : Type;
  SigningKey : Type;
  DarkpoolClient : Type;
  DbPool : Type;
  ConnectionManager : Type;
  PriceClient : Type;
}.

(** The outcomes, given the calls made before. *)
Class StartupLib `{StartupTypes} := {
  telemetry_outcome : list call -> res string unit;
  remap_outcome : list call -> res string unit;
  darkpool_outcome : list call -> Chain -> res string DarkpoolClient;
  protocol_fee : list call -> Z -> Z -> res string Z;
  db_outcome : list call -> res string DbPool;
  redis_open_outcome : list call -> res string unit;
  (** [None]: not connected within the timeout *)
  redis_connect_outcome : list call -> option (res string ConnectionManager);
  price_client_outcome : list call -> res PriceReporterClientError PriceClient;
  timer_outcome : list call -> res string unit;
  thread_outcome : list call -> res string unit;
  l1_component : list call -> res string (Z * Z * Z);
  gas_price : list call -> res string Z;
  l1_base_fee : list call -> res string Z;
  l1_gas_used : list call -> res string Z;
  (** [thread_rng().fill_bytes] *)
  fill_bytes : list call -> nat -> list Z;
  all_tokens : list Z;
  usdc_address : Z;
  NATIVE_ASSET_ADDRESS : Z;
  address_from_hex_string : string -> string + Z;
  base64_decode : string -> string + list Z;
  hex_decode : string -> string + list Z;
  aes_from_slice : list Z -> string + Aes128Gcm;
  hmac_from_base64 : string -> string + HmacKey;
  signing_key_from_slice : list Z -> string + SigningKey;
}.

(** ** The command line (main.rs) *)
Record Cli `{StartupTypes} := mk_cli {
  database_url : string;
  encryption_key : string;
  management_key : string;
  relayer_url : string;
  relayer_admin_key : string;
  port : Z;
  chain_id : Chain;
  bundle_rate_limit : Z;
  quote_rate_limit : Z;
  token_remap_file : option string;
  eth_websocket_addr : option string;
  rpc_url : string;
  darkpool_address : string;
  permit2_address : string;
  price_reporter_url : string;
  redis_url : string;
  execution_cost_redis_url : string;
  gas_sponsor_address : string;
  gas_sponsor_auth_key : string;
  max_gas_sponsorship_value : f64;
  min_sponsored_order_quote_amount : f64;
  datadog_enabled : bool;
  otlp_enabled : bool;
  metrics_enabled : bool;
  statsd_host : string;
  statsd_port : Z;
  metrics_sampling_rate : option f64;
}.

Section CommandLine.
Context `{StartupTypes}.
(** The value of an argument, from the command line or its environment variable;
    the parsers of the types. *)
Context (arg : string -> option string) (flag : string -> bool)
  (parse_u16 parse_u64 : string -> option Z) (parse_f64 : string -> option f64) (parse_chain : string -> option Chain).

Definition with_default (env dflt : string) : string := default dflt (arg env).

(** [Cli::parse()]: [None] when the process exits with a usage error. *)
Definition parse_cli : option Cli :=
  database_url ← arg "DATABASE_URL";
  encryption_key ← arg "ENCRYPTION_KEY";
  management_key ← arg "MANAGEMENT_KEY";
  relayer_url ← arg "RELAYER_URL";
  relayer_admin_key ← arg "RELAYER_ADMIN_KEY";
  port ← parse_u16 (with_default "PORT" "3000");
  chain_id ← arg "CHAIN_ID" ≫= parse_chain;
  bundle_rate_limit ← parse_u64 (with_default "BUNDLE_RATE_LIMIT" "200");
  quote_rate_limit ← parse_u64 (with_default "QUOTE_RATE_LIMIT" "500");
  rpc_url ← arg "RPC_URL";
  darkpool_address ← arg "DARKPOOL_ADDRESS";
  permit2_address ← arg "PERMIT2_ADDRESS";
  price_reporter_url ← arg "PRICE_REPORTER_URL";
  gas_sponsor_address ← arg "GAS_SPONSOR_ADDRESS";
  gas_sponsor_auth_key ← arg "GAS_SPONSOR_AUTH_KEY";
  max_value ← parse_f64 (with_default "MAX_GAS_SPONSORSHIP_VALUE" "25.0");
  min_quote ← parse_f64 (with_default "MIN_SPONSORED_ORDER_QUOTE_AMOUNT" "10.0");
  statsd_port ← parse_u16 (with_default "STATSD_PORT" "8125");
  sampling_rate ← match arg "METRICS_SAMPLING_RATE" with None => Some None | Some s => Some <$> parse_f64 s end;
  Some (mk_cli _ database_url encryption_key management_key relayer_url relayer_admin_key port chain_id
    bundle_rate_limit quote_rate_limit (arg "TOKEN_REMAP_FILE") (arg "ETH_WEBSOCKET_URL") rpc_url
    darkpool_address permit2_address price_reporter_url
    (with_default "REDIS_URL" "redis://localhost:6379")
    (with_default "EXECUTION_COST_REDIS_URL" "redis://localhost:6379")
    gas_sponsor_address gas_sponsor_auth_key max_value min_quote
    (flag "ENABLE_DATADOG") (flag "ENABLE_OTLP") (flag "ENABLE_METRICS")
    (with_default "STATSD_HOST" "127.0.0.1") statsd_port sampling_rate).
End CommandLine.

(** ** The state of the start-up *)

(** [gas_estimation/gas_cost_sampler.rs]: the cell of the latest estimate is shared
    by the clones of the sampler. *)
Record GasCostSampler := mk_sampler { latest_estimate : nat; sampler_address : Z }.

(** [chain_events/listener.rs] *)
Record OnChainEventListenerConfig `{StartupTypes} := mk_listener_config {
  lc_chain : Chain;
  lc_gas_sponsor_address : Z;
  lc_websocket_addr : option string;
  lc_bundle_store : nat;
  lc_rate_limiter : AuthServerRateLimiter;
  lc_price_reporter_client : PriceClient;
  lc_gas_cost_sampler : GasCostSampler;
  lc_darkpool_client : DarkpoolClient;
}.
Record OnChainEventListenerExecutor `{StartupTypes} := mk_executor {
  ex_chain : Chain;
  ex_gas_sponsor_address : Z;
  ex_websocket_addr : option string;
  ex_bundle_store : nat;
  ex_rate_limiter : AuthServerRateLimiter;
  ex_price_reporter_client : PriceClient;
  ex_gas_cost_sampler : GasCostSampler;
  ex_darkpool_client : DarkpoolClient;
}.
(** The handle of a started executor is the executor its thread runs. *)
Record OnChainEventListener `{StartupTypes} := mk_listener {
  executor : option OnChainEventListenerExecutor;
  executor_handle : option OnChainEventListenerExecutor;
}.

Record Boot `{StartupTypes} := mk_boot {
  calls : list call;
  (** the protocol fees by pair *)
  fees : gmap (Z * Z) Z;
  (** the latest estimates of the samplers *)
  cells : gmap nat Z;
  (** handles given out *)
  next_handle : nat;
  (** the listener whose end is watched *)
  watched : option OnChainEventListener;
}.

Create HintDb calm.
(** The steps of a computation that succeeded. *)
Ltac boot_inv H :=
  repeat match type of H with
  | (_ ≫= _) _ = (Ok _, _) => apply eff_bind_Ok in H as (? & ? & ? & H)
  | (let '(_, _) := ?x in _) _ = _ => destruct x
  end;
  injection H as <- <-.

Section Startup.
Context {ST : StartupTypes} {SL : StartupLib}.
Abbreviation boot E A := (eff Boot E A).

Definition record (c : call) (b : Boot) : Boot :=
  mk_boot _ (calls b ++ [c]) (fees b) (cells b) (next_handle b) (watched b).
Definition invoke {E A} (c : call) (outcome : list call -> res E A) : boot E A := fun b =>
  (outcome (calls b), record c b).
Definition with_error {E F A} (f : E -> F) (m : boot E A) : boot F A := fun b =>
  let '(r, b') := m b in (map_err f r, b').
(** [.expect(..)] *)
Definition expect {E F A} (m : boot E A) : boot F A := fun b =>
  let '(r, b') := m b in (match r with Ok a => Ok a | _ => Panic end, b').
Definition from_sum {E F A} (f : E -> F) (x : E + A) : boot F A :=
  lift (match x with inl e => Err (f e) | inr a => Ok a end).

(** ** telemetry/mod.rs *)
Definition METRICS_PREFIX : string := "auth-server".
Definition DEFAULT_OTLP_COLLECTOR_ENDPOINT : string := "http://localhost:4317".
Definition configure_telemetry_from_args (args : Cli) : boot AuthServerError unit :=
  with_error Setup (invoke
    (ConfigureTelemetry (datadog_enabled args) (otlp_enabled args) (metrics_enabled args)
       DEFAULT_OTLP_COLLECTOR_ENDPOINT (statsd_host args) (statsd_port args) METRICS_PREFIX)
    telemetry_outcome).

(** ** server/setup.rs: helpers *)
Definition DEFAULT_BLOCK_POLLING_INTERVAL : Z := 100.

(** The join of the blocking task is unwrapped: a panic in it goes on. *)
Definition setup_token_mapping (args : Cli) : boot AuthServerError unit :=
  with_error Setup (invoke (SetupTokenRemaps (token_remap_file args)) remap_outcome).

Fixpoint set_fees (dc : DarkpoolClient) (tokens : list Z) : boot AuthServerError unit :=
  match tokens with
  | [] => mret tt
  | addr :: tokens =>
      if addr =? usdc_address then set_fees dc tokens
      else
        fee ← with_error Setup (invoke (GetProtocolFee addr usdc_address) (fun h => protocol_fee h addr usdc_address));
        _ ← modify (fun b => mk_boot _ (calls b) (<[(addr, usdc_address) := fee]> (fees b)) (cells b)
          (next_handle b) (watched b));
        set_fees dc tokens
  end.
Definition set_external_match_fees (dc : DarkpoolClient) : boot AuthServerError unit :=
  set_fees dc (all_tokens ++ [NATIVE_ASSET_ADDRESS]).

Definition parse_auth_server_keys (args : Cli) : boot AuthServerError (Aes128Gcm * HmacKey * HmacKey * SigningKey) :=
  encryption_key_bytes ← from_sum Setup (base64_decode (encryption_key args));
  encryption_key ← from_sum Setup (aes_from_slice encryption_key_bytes);
  management_key ← from_sum Setup (hmac_from_base64 (management_key args));
  relayer_admin_key ← from_sum Setup (hmac_from_base64 (relayer_admin_key args));
  gas_sponsor_auth_key_bytes ← from_sum Setup (hex_decode (gas_sponsor_auth_key args));
  gas_sponsor_auth_key ← from_sum Setup (signing_key_from_slice gas_sponsor_auth_key_bytes);
  mret (encryption_key, management_key, relayer_admin_key, gas_sponsor_auth_key).

Definition parse_gas_sponsor_address (args : Cli) : boot AuthServerError Z :=
  from_sum Setup (address_from_hex_string (gas_sponsor_address args)).

Definition create_darkpool_client (darkpool_address permit2_address : string) (chain : Chain) (rpc_url : string)
    : boot string DarkpoolClient :=
  darkpool_addr ← from_sum id (address_from_hex_string darkpool_address);
  permit2_addr ← from_sum id (address_from_hex_string permit2_address);
  with_error (fun e => "Failed to create darkpool client: " +:+ e)%string
    (invoke (NewDarkpoolClient darkpool_addr permit2_addr rpc_url DEFAULT_BLOCK_POLLING_INTERVAL)
       (fun h => darkpool_outcome h chain)).

(** ** server/db/mod.rs *)
Definition REDIS_CONNECT_TIMEOUT : Z := 30.
Definition create_db_pool (db_url : string) : boot AuthServerError DbPool :=
  with_error DatabaseConnection (invoke (BuildDbPool db_url) db_outcome).
Definition create_redis_client (redis_url : string) : boot AuthServerError ConnectionManager :=
  _ ← with_error RedisConnection (invoke (OpenRedis redis_url) redis_open_outcome);
  with_error Setup (invoke (ConnectRedis redis_url REDIS_CONNECT_TIMEOUT) (fun h =>
    match redis_connect_outcome h with None => Err "deadline has elapsed"%string | Some r => r end)).

(** ** server/rate_limiter/mod.rs: the two connections and the limiters on the first *)
Definition new_auth_rate_limiter (quote_rate_limit bundle_rate_limit : Z) (max_gas_sponsorship_value : f64)
    (auth_server_redis_url execution_cost_redis_url : string)
    : boot AuthServerError (AuthServerRateLimiter * ConnectionManager) :=
  _ ← create_redis_client auth_server_redis_url;
  execution_cost ← create_redis_client execution_cost_redis_url;
  mret (new_rate_limiter quote_rate_limit bundle_rate_limit max_gas_sponsorship_value, execution_cost).

(** ** server/gas_estimation/ *)
Definition ESTIMATED_COMPRESSED_CALLDATA_SIZE_BYTES : nat := Z.to_nat 6000.
Definition GAS_COST_SAMPLING_INTERVAL : Z := 10.
Definition NODE_INTERFACE_ADDRESS : Z := 0xc8.
Definition GAS_ORACLE_ADDRESS : Z := 0x420000000000000000000000000000000000000F.

(** The chain the binary is built for. *)
Inductive chain_feature := Arbitrum | Base | Ethereum | NoChain.

Definition arbitrum_estimate_l1_gas_component (to : Z) (data : list Z) : boot string GasPriceEstimation :=
  r ← invoke (GasEstimateL1Component NODE_INTERFACE_ADDRESS to false data) l1_component;
  let '(gas_estimate_for_l1, l2_base_fee, l1_base_fee_estimate) := r in
  mret (mk_estimation gas_estimate_for_l1 l2_base_fee (umul 256 l1_base_fee_estimate 16)).
Definition base_estimate_l1_gas_component (to : Z) (data : list Z) : boot string GasPriceEstimation :=
  l2_base_fee ← invoke GetGasPrice gas_price;
  l1_fee ← invoke (L1BaseFee GAS_ORACLE_ADDRESS) l1_base_fee;
  l1_gas ← invoke (GetL1GasUsed GAS_ORACLE_ADDRESS data) l1_gas_used;
  mret (mk_estimation l1_gas l2_base_fee (umul 256 l1_fee 16)).
Definition ethereum_estimate_l1_gas_component (to : Z) (data : list Z) : boot string GasPriceEstimation :=
  gas_price ← invoke GetGasPrice gas_price;
  mret (mk_estimation 0 gas_price 0).
Definition no_chain_estimate_l1_gas_component (to : Z) (data : list Z) : boot string GasPriceEstimation :=
  lift (Err "auth-server built without a chain feature; enable one of `arbitrum`, `base`, or `ethereum`"%string).
Definition estimate_l1_gas_component (f : chain_feature) : Z -> list Z -> boot string GasPriceEstimation :=
  match f with
  | Arbitrum => arbitrum_estimate_l1_gas_component
  | Base => base_estimate_l1_gas_component
  | Ethereum => ethereum_estimate_l1_gas_component
  | NoChain => no_chain_estimate_l1_gas_component
  end.

Definition sample_gas_prices (f : chain_feature) (s : GasCostSampler) : boot string GasPriceEstimation :=
  data ← gets (fun b => fill_bytes (calls b) ESTIMATED_COMPRESSED_CALLDATA_SIZE_BYTES);
  estimate_l1_gas_component f (sampler_address s) data.

Definition read_cell (c : nat) (b : Boot) : Z := default 0 (cells b !! c).
Definition write_cell (c : nat) (v : Z) (b : Boot) : Boot :=
  mk_boot _ (calls b) (fees b) (<[c := v]> (cells b)) (next_handle b) (watched b).
Definition alloc {E} : boot E nat := fun b =>
  (Ok (next_handle b), mk_boot _ (calls b) (fees b) (cells b) (S (next_handle b)) (watched b)).

(** [estimate_external_match_gas_cost], with the arithmetic of [GasSponsorship]. *)
Definition estimate_gas_cost (f : chain_feature) (s : GasCostSampler) : boot string unit :=
  estimate ← sample_gas_prices f s;
  latest ← gets (read_cell (latest_estimate s));
  total_cost ← lift (estimate_external_match_gas_cost latest (Ok estimate));
  modify (write_cell (latest_estimate s) total_cost).

Definition new_gas_cost_sampler (f : chain_feature) (address : Z) : boot AuthServerError GasCostSampler :=
  cell ← alloc;
  _ ← modify (write_cell cell 0);
  let this := mk_sampler cell address in
  _ ← with_error AuthError.GasCostSampler (estimate_gas_cost f this);
  _ ← with_error AuthError.GasCostSampler (invoke (AddAsyncTimer "gas-cost-sampler" GAS_COST_SAMPLING_INTERVAL) timer_outcome);
  mret this.
Definition get_latest_estimate (s : GasCostSampler) (b : Boot) : Z := read_cell (latest_estimate s) b.

(** A tick of the timer: the clock logs an error and goes on. *)
Definition timer_tick (f : chain_feature) (s : GasCostSampler) (b : Boot) : Boot := (estimate_gas_cost f s b).2.

(** ** chain_events/listener.rs and worker.rs *)
Definition new_executor (config : OnChainEventListenerConfig) : OnChainEventListenerExecutor :=
  mk_executor _ (lc_chain config) (lc_gas_sponsor_address config) (lc_websocket_addr config)
    (lc_bundle_store config) (lc_rate_limiter config) (lc_price_reporter_client config)
    (lc_gas_cost_sampler config) (lc_darkpool_client config).
Definition new_listener (config : OnChainEventListenerConfig) : OnChainEventListener :=
  mk_listener _ (Some (new_executor config)) None.

Definition has_websocket_listener (ex : OnChainEventListenerExecutor) : bool :=
  match ex_websocket_addr ex with Some _ => true | None => false end.
(** The provider of a websocket, or the panics of the two unwrapped values. *)
Definition ws_client {P} (connect_ws : string -> res string P) (ex : OnChainEventListenerExecutor)
    : res OnChainEventListenerError P :=
  if negb (has_websocket_listener ex) then Panic
  else
    addr ← unwrap (ex_websocket_addr ex);
    map_err ORpc (connect_ws addr).
Definition log_provider {P} (connect_ws : string -> res string P) (http : DarkpoolClient -> P)
    (ex : OnChainEventListenerExecutor) : res OnChainEventListenerError P :=
  if has_websocket_listener ex then ws_client connect_ws ex
  else Ok (http (ex_darkpool_client ex)).

(** [start] moves the executor to a thread of its own. *)
Definition start_listener (l : OnChainEventListener) : boot OnChainEventListenerError OnChainEventListener :=
  executor ← lift (unwrap (executor l));
  _ ← with_error OSetup (invoke (SpawnThread "on-chain-event-listener-executor") thread_outcome);
  mret (mk_listener _ None (Some executor)).
(** What the thread returns, given how its runtime was built and how [execute]
    ended; [None] when it panics. *)
Definition executor_thread (runtime : res string unit) (ended : res OnChainEventListenerError unit)
    : option OnChainEventListenerError :=
  match runtime with
  | Err e => Some (OSetup e)
  | Panic => None
  | Ok _ =>
      match ended with
      | Err e => Some e
      | Ok _ => Some OStreamEnded
      | Panic => None
      end
  end.
(** [watch] spawns the watcher; the spawn is unwrapped. *)
Definition watch_listener {E} (l : OnChainEventListener) : boot E unit :=
  _ ← expect (invoke (SpawnThread "on-chain-listener-watcher") thread_outcome);
  modify (fun b => mk_boot _ (calls b) (fees b) (cells b) (next_handle b) (Some l)).
(** The watcher: whether it cancels the token once the thread it joins has ended;
    it panics when there is no thread to join. *)
Definition watcher (l : OnChainEventListener) (ended : option OnChainEventListenerError) : bool :=
  match executor_handle l with
  | None => false
  | Some _ => match ended with None => true | Some _ => true end
  end.

(** ** server/setup.rs: the server *)
Record Server := mk_server {
  chain : Chain;
  db_pool : DbPool;
  redis_client : ConnectionManager;
  server_relayer_url : string;
  server_relayer_admin_key : HmacKey;
  server_management_key : HmacKey;
  server_encryption_key : Aes128Gcm;
  cache : nat;
  rate_limiter : AuthServerRateLimiter;
  execution_cost_redis : ConnectionManager;
  sampling_rate : f64;
  sponsor_address : Z;
  sponsor_auth_key : SigningKey;
  price_reporter_client : PriceClient;
  gas_cost_sampler : GasCostSampler;
  min_sponsored_quote_amount : f64;
  bundle_store : nat;
}.

Definition setup (f : chain_feature) (args : Cli) : boot AuthServerError Server :=
  _ ← configure_telemetry_from_args args;
  _ ← setup_token_mapping args;
  darkpool_client ← expect (create_darkpool_client (darkpool_address args) (permit2_address args)
    (chain_id args) (rpc_url args));
  _ ← set_external_match_fees darkpool_client;
  db_pool ← create_db_pool (database_url args);
  redis_client ← create_redis_client (redis_url args);
  keys ← parse_auth_server_keys args;
  let '(encryption_key, management_key, relayer_admin_key, gas_sponsor_auth_key) := keys in
  limiter ← new_auth_rate_limiter (quote_rate_limit args) (bundle_rate_limit args)
    (max_gas_sponsorship_value args) (redis_url args) (execution_cost_redis_url args);
  price_reporter_client ← with_error PriceReporter
    (invoke (NewPriceReporterClient (price_reporter_url args)) price_client_outcome);
  gas_sponsor_address ← parse_gas_sponsor_address args;
  gas_cost_sampler ← new_gas_cost_sampler f gas_sponsor_address;
  bundle_store ← alloc;
  let config := mk_listener_config _ (chain_id args) gas_sponsor_address (eth_websocket_addr args) bundle_store
    limiter.1 price_reporter_client gas_cost_sampler darkpool_client in
  chain_listener ← expect (start_listener (new_listener config));
  _ ← watch_listener chain_listener;
  cache ← alloc;
  mret (mk_server (chain_id args) db_pool redis_client (relayer_url args) relayer_admin_key management_key
    encryption_key cache limiter.1 limiter.2 (default f1 (metrics_sampling_rate args)) gas_sponsor_address
    gas_sponsor_auth_key price_reporter_client gas_cost_sampler (min_sponsored_order_quote_amount args) bundle_store).

(** ** main.rs: what ends the process *)
Inductive first_event := ServeEnded | TokenCancelled.
Definition main_select (e : first_event) : res AuthServerError unit :=
  match e with
  | ServeEnded => Err (Custom "Server crashed")
  | TokenCancelled => Err (Custom "Chain event listener crashed")
  end.

(** ** What the steps of the start-up leave alone

    [calm]: no thread has been started between the two states. *)
Definition is_spawn (c : call) : bool := match c with SpawnThread _ => true | _ => false end.
Definition calm (b b' : Boot) : Prop :=
  watched b' = watched b /\ exists cs, calls b' = calls b ++ cs /\ Forall (fun c => is_spawn c = false) cs.
#[local] Instance calm_trans : Transitive calm.
Proof.
  intros x y z (H1 & cs & H2 & H3) (H4 & cs' & H5 & H6). split; [congruence|].
  exists (cs ++ cs'). rewrite H5, H2, <- app_assoc. split; [done|]. by apply Forall_app.
Qed.
Lemma calm_same b b' : watched b' = watched b -> calls b' = calls b -> calm b b'.
Proof. intros H1 H2. split; [done|]. exists []. by rewrite app_nil_r. Qed.

Definition calm_step {E A} (m : boot E A) : Prop := forall b, calm b (m b).2.
Lemma calm_bind {E A B} (m : boot E A) (k : A -> boot E B) :
  calm_step m -> (forall a, calm_step (k a)) -> calm_step (m ≫= k).
Proof. intros Hm Hk b. apply eff_bind_state; [apply _|apply Hm|intros; apply Hk]. Qed.
Lemma calm_invoke {E A} c (o : list call -> res E A) : is_spawn c = false -> calm_step (invoke c o).
Proof. intros Hc b. split; [done|]. exists [c]. auto. Qed.
Lemma calm_with_error {E F A} (f : E -> F) (m : boot E A) : calm_step m -> calm_step (with_error f m).
Proof. intros Hm b. generalize (Hm b). unfold with_error. by destruct (m b). Qed.
Lemma calm_expect {E F A} (m : boot E A) : calm_step m -> calm_step (expect (F := F) m).
Proof. intros Hm b. generalize (Hm b). unfold expect. by destruct (m b). Qed.
Lemma calm_lift {E A} (r : res E A) : calm_step (lift r).
Proof. intros b. by apply calm_same. Qed.
Lemma calm_from_sum {E F A} (f : E -> F) (x : E + A) : calm_step (from_sum f x).
Proof. apply calm_lift. Qed.
Lemma calm_mret {E A} (a : A) : calm_step (mret (M := eff Boot E) a).
Proof. intros b. by apply calm_same. Qed.
Lemma calm_gets {E A} (g : Boot -> A) : calm_step (gets (E := E) g).
Proof. intros b. by apply calm_same. Qed.
Lemma calm_write {E} c v : calm_step (modify (E := E) (write_cell c v)).
Proof. intros b. by apply calm_same. Qed.
Lemma calm_alloc {E} : calm_step (alloc (E := E)).
Proof. intros b. by apply calm_same. Qed.
#[local] Hint Resolve calm_with_error calm_expect calm_lift calm_from_sum calm_mret calm_gets calm_write calm_alloc : calm.
#[local] Hint Extern 1 (calm_step (invoke _ _)) => apply calm_invoke; reflexivity : calm.
Ltac calm_steps :=
  repeat match goal with
  | |- calm_step (_ ≫= _) => apply calm_bind; [|intros]
  | |- calm_step (with_error _ _) => apply calm_with_error
  | |- calm_step (expect _) => apply calm_expect
  | |- calm_step (let '(_, _) := ?x in _) => destruct x
  | |- _ => by auto with calm
  end.

Lemma calm_set_fees dc tokens : calm_step (set_fees dc tokens).
Proof.
  induction tokens as [|addr tokens IH]; cbn [set_fees]; [auto with calm|].
  destruct (addr =? usdc_address); [done|]. calm_steps. intros b. by apply calm_same.
Qed.
Lemma calm_redis url : calm_step (create_redis_client url).
Proof. unfold create_redis_client. calm_steps. Qed.
Lemma calm_darkpool d p c u : calm_step (create_darkpool_client d p c u).
Proof. unfold create_darkpool_client. calm_steps. Qed.
Lemma calm_keys args : calm_step (parse_auth_server_keys args).
Proof. unfold parse_auth_server_keys. calm_steps. Qed.
Lemma calm_limiter q b m u1 u2 : calm_step (new_auth_rate_limiter q b m u1 u2).
Proof. unfold new_auth_rate_limiter. calm_steps; apply calm_redis. Qed.
Lemma calm_estimate f s : calm_step (estimate_gas_cost f s).
Proof.
  unfold estimate_gas_cost, sample_gas_prices. destruct f; cbn;
    unfold arbitrum_estimate_l1_gas_component, base_estimate_l1_gas_component,
      ethereum_estimate_l1_gas_component, no_chain_estimate_l1_gas_component; calm_steps.
Qed.
Lemma calm_sampler f a : calm_step (new_gas_cost_sampler f a).
Proof. unfold new_gas_cost_sampler. calm_steps. apply calm_estimate. Qed.

(** A computation whose failures start nothing. *)
Definition fails_calm {A} (m : boot AuthServerError A) : Prop :=
  forall b e b', m b = (Err e, b') -> calm b b'.
Lemma fails_calm_bind {A B} (m : boot AuthServerError A) (k : A -> boot AuthServerError B) :
  calm_step m -> (forall a, fails_calm (k a)) -> fails_calm (m ≫= k).
Proof.
  intros Hm Hk b e b'. generalize (Hm b). unfold mbind, eff_bind.
  destruct (m b) as [[a|e'|] b1]; cbn; intros Hc H; [etrans; [exact Hc|by eapply Hk]|by simplify_eq|done].
Qed.
Definition never_fails {A} (m : boot AuthServerError A) : Prop := forall b e, (m b).1 <> Err e.
Lemma never_fails_bind {A B} (m : boot AuthServerError A) (k : A -> boot AuthServerError B) :
  never_fails m -> (forall a, never_fails (k a)) -> never_fails (m ≫= k).
Proof.
  intros Hm Hk b e. generalize (Hm b). unfold mbind, eff_bind.
  destruct (m b) as [[a|e'|] b1]; cbn; [intros; apply Hk|naive_solver|done].
Qed.
Lemma never_fails_expect {E A} (m : boot E A) : never_fails (expect m).
Proof. intros b e. unfold expect. by destruct (m b) as [[] ?]. Qed.

Lemma start_listener_Ok l b l' b' :
  start_listener l b = (Ok l', b') ->
  exists ex, executor l = Some ex /\ l' = mk_listener _ None (Some ex) /\ cells b' = cells b /\ next_handle b' = next_handle b.
Proof.
  unfold start_listener. intros (ex & b1 & [Hex ->]%lift_Ok & H)%eff_bind_Ok.
  apply eff_bind_Ok in H as (u & b2 & Hi & [= <- <-]).
  destruct (executor l) as [ex'|]; [|done]. injection Hex as ->.
  exists ex. unfold with_error, invoke in Hi. cbn in Hi. by injection Hi as _ <-.
Qed.
Lemma expect_Ok {E F A} (m : boot E A) b a b' : expect (F := F) m b = (Ok a, b') -> m b = (Ok a, b').
Proof. unfold expect. destruct (m b) as [[] ?]; congruence. Qed.
Lemma watch_listener_Ok {E} l b u b' :
  watch_listener (E := E) l b = (Ok u, b') -> watched b' = Some l /\ cells b' = cells b /\ next_handle b' = next_handle b.
Proof.
  unfold watch_listener. intros (x & b1 & Hi%expect_Ok & [= _ <-])%eff_bind_Ok.
  unfold invoke in Hi. by injection Hi as _ <-.
Qed.

(** The cost of a sample, as the sampler computes it. *)
Definition gas_cost (e : GasPriceEstimation) : Z :=
  umul 256 (uadd 256 ESTIMATED_L2_GAS (gas_estimate_for_l1 e)) (l2_base_fee e).

(** Sampling changes nothing but the record of the calls. *)
Definition only_calls (b b' : Boot) : Prop :=
  fees b' = fees b /\ cells b' = cells b /\ next_handle b' = next_handle b /\ watched b' = watched b.
Lemma sample_only_calls f s b : only_calls b (sample_gas_prices f s b).2.
Proof.
  unfold sample_gas_prices, mbind, eff_bind, gets. destruct f; cbn; try done;
    unfold arbitrum_estimate_l1_gas_component, base_estimate_l1_gas_component,
      ethereum_estimate_l1_gas_component, mbind, eff_bind, invoke, mret, eff_ret; cbn;
    repeat case_match; cbn in *; simplify_eq; done.
Qed.

(** A sampling either fails and leaves the estimate, or writes the cost of the sample. *)
Lemma estimate_gas_cost_cases f s b :
  (exists e b1, sample_gas_prices f s b = (Ok e, b1) /\ estimate_gas_cost f s b = (Ok tt, write_cell (latest_estimate s) (gas_cost e) b1)) \/
  ((forall u, (estimate_gas_cost f s b).1 <> Ok u) /\ only_calls b (estimate_gas_cost f s b).2).
Proof.
  generalize (sample_only_calls f s b). unfold estimate_gas_cost at 2 3, mbind, eff_bind.
  unfold estimate_gas_cost, mbind, eff_bind.
  destruct (sample_gas_prices f s b) as [[e|e|] b1] eqn:Hs; cbn; intros Ho; [left|right; done..].
  exists e, b1. done.
Qed.

(** ** The fees *)
Lemma set_fees_spec dc tokens b b' :
  set_fees dc tokens b = (Ok tt, b') ->
  (forall k, (forall t, t ∈ tokens -> t <> usdc_address -> k <> (t, usdc_address)) -> fees b' !! k = fees b !! k) /\
  forall t, t ∈ tokens -> t <> usdc_address ->
    exists h fee, protocol_fee h t usdc_address = Ok fee /\ fees b' !! (t, usdc_address) = Some fee.
Proof.
  revert b. induction tokens as [|a tokens IH]; intros b; cbn [set_fees].
  { intros [= <-]. split; [done|set_solver]. }
  destruct (Z.eqb_spec a usdc_address) as [->|Hne].
  { intros [H1 H2]%IH. split; [set_solver|]. intros t [->|Ht]%elem_of_cons Hu; eauto; done. }
  intros (fee & b1 & Hf & H)%eff_bind_Ok. apply eff_bind_Ok in H as (u & b2 & [= _ <-] & [H1 H2]%IH).
  unfold with_error, invoke in Hf. injection Hf as Hf%map_err_Ok <-. cbn in H1.
  split.
  - intros k Hk. rewrite H1 by set_solver. apply lookup_insert_ne. intros <-. by eapply (Hk a); [left| |].
  - intros t [->|Ht]%elem_of_cons Hu; [|eauto].
    destruct (decide (a ∈ tokens)) as [Hin|Hin]; [eauto|].
    exists (calls b), fee. split; [done|]. rewrite H1; [apply lookup_insert_eq|]. intros t Ht _ [= ->]. done.
Qed.

Lemma new_sampler_Ok f a b s b' :
  new_gas_cost_sampler f a b = (Ok s, b') ->
  s = mk_sampler (next_handle b) a /\ next_handle b' = S (next_handle b) /\
  exists e b1 b2, sample_gas_prices f s b1 = (Ok e, b2) /\ read_cell (latest_estimate s) b' = gas_cost e.
Proof.
  unfold new_gas_cost_sampler. intros (c & b1 & [= <- <-] & H)%eff_bind_Ok.
  apply eff_bind_Ok in H as (u & b2 & [= _ <-] & H). apply eff_bind_Ok in H as (u' & b3 & He & H).
  apply eff_bind_Ok in H as (u2 & b4 & Ht & [= <- <-]).
  unfold with_error in He, Ht. unfold invoke in Ht. injection Ht as _ <-.
  set (s := mk_sampler _ _) in *.
  set (b0 := write_cell _ _ _) in He.
  destruct (estimate_gas_cost_cases f s b0) as [(e & b5 & Hs & Hest)|[Hno _]].
  - rewrite Hest in He. injection He as _ <-. pose proof (sample_only_calls f s b0) as (_ & _ & Hn & _).
    rewrite Hs in Hn. cbn in Hn |- *. split_and!; [done|by rewrite Hn|]. exists e, b0, b5. split; [done|].
    unfold read_cell, write_cell. cbn. by rewrite lookup_insert_eq.
  - destruct (estimate_gas_cost f s b0) as [[v|e|] b5]; cbn in *; [by destruct (Hno v)|done..].
Qed.

Lemma setup_watches f args b sv b' :
  setup f args b = (Ok sv, b') -> exists ex, watched b' = Some (mk_listener _ None (Some ex)).
Proof.
  unfold setup. intros H. boot_inv H.
  repeat match goal with
  | H : alloc _ = (Ok _, _) |- _ => unfold alloc in H; injection H as <- <-
  | H : expect (start_listener _) _ = _ |- _ => apply expect_Ok, start_listener_Ok in H as (ex & Hex & -> & _)
  | H : watch_listener _ _ = _ |- _ => apply watch_listener_Ok in H as (Hw & _)
  end.
  cbn. eauto.
Qed.
End Startup.

(** ** Theorems *)

(** A start-up that succeeds leaves the server and its listener on the same bundle
    store, rate limiter, prices and gas estimate, for the same gas sponsor; the
    listener runs and its end is watched; and the estimate the server begins with is
    the cost of a sample that was taken, not the zero the cell was made with. *)
Theorem setup_shares_state {ST : StartupTypes} {SL : StartupLib} f (args : Cli) b sv b' :
  setup f args b = (Ok sv, b') ->
  (exists ex, watched b' = Some (mk_listener _ None (Some ex)) /\
    ex_bundle_store ex = bundle_store sv /\ ex_rate_limiter ex = rate_limiter sv /\
    ex_price_reporter_client ex = price_reporter_client sv /\ ex_gas_cost_sampler ex = gas_cost_sampler sv /\
    ex_gas_sponsor_address ex = sponsor_address sv /\ ex_websocket_addr ex = eth_websocket_addr args) /\
  (exists s e b1 b2, gas_cost_sampler sv = s /\ sample_gas_prices f s b1 = (Ok e, b2) /\
    get_latest_estimate s b' = gas_cost e) /\
  address_from_hex_string (gas_sponsor_address args) = inr (sponsor_address sv) /\
  bundle_store sv <> cache sv /\ bundle_store sv <> latest_estimate (gas_cost_sampler sv).
Proof.
  unfold setup. intros H. boot_inv H.
  repeat match goal with
  | Hs : new_gas_cost_sampler _ _ _ = (Ok _, _) |- _ =>
      apply new_sampler_Ok in Hs as (-> & Hn & e & b1 & b2 & Hsamp & Hread)
  | Hs : alloc _ = (Ok _, _) |- _ => unfold alloc in Hs; injection Hs as <- <-
  | Hs : expect (start_listener _) _ = _ |- _ => apply expect_Ok, start_listener_Ok in Hs as (ex & Hex & -> & Hc1 & Hn1)
  | Hs : watch_listener _ _ = _ |- _ => apply watch_listener_Ok in Hs as (Hw & Hc2 & Hn2)
  | Hs : parse_gas_sponsor_address _ _ = _ |- _ => unfold parse_gas_sponsor_address, from_sum in Hs;
      apply lift_Ok in Hs as [Ha ->]
  end.
  cbn in *. injection Hex as <-.
  split_and!; [by eexists| | | |].
  - do 4 eexists. split_and!; [done|exact Hsamp|]. rewrite <- Hread. unfold get_latest_estimate, read_cell. cbn.
    by rewrite Hc2, Hc1.
  - destruct (address_from_hex_string _); congruence.
  - lia.
  - lia.
Qed.

(** A concrete start-up: the library answers as it should. *)
#[local] Instance toy_types : StartupTypes := {| Aes128Gcm := list Z; HmacKey := string;
  SigningKey := list Z; DarkpoolClient := unit; DbPool := unit; ConnectionManager := unit; PriceClient := unit |}.
Definition toy_lib (component : res string (Z * Z * Z)) (price l1_fee l1_gas : Z) : @StartupLib toy_types := {|
  telemetry_outcome _ := Ok tt; remap_outcome _ := Ok tt; darkpool_outcome _ _ := Ok tt;
  protocol_fee _ base _ := Ok (base + 1); db_outcome _ := Ok tt; redis_open_outcome _ := Ok tt;
  redis_connect_outcome _ := Some (Ok tt); price_client_outcome _ := Ok tt; timer_outcome _ := Ok tt;
  thread_outcome _ := Ok tt; l1_component _ := component;
  gas_price _ := Ok price; l1_base_fee _ := Ok l1_fee; l1_gas_used _ := Ok l1_gas;
  fill_bytes _ _ := []; all_tokens := [7; 8]; usdc_address := 7; NATIVE_ASSET_ADDRESS := 9;
  address_from_hex_string s := if String.eqb s "0x5" then inr 5 else inl "invalid address"%string;
  base64_decode _ := inr []; hex_decode _ := inr [1]; aes_from_slice k := inr k;
  hmac_from_base64 k := inr k; signing_key_from_slice k := inr k |}.
Definition toy_cli (sponsor : string) : Cli :=
  mk_cli _ "db" "k" "m" "http://relayer" "a" 3000 ArbitrumOne 200 500 None None "rpc" "0x5" "0x5" "prices" "redis" "redis"
    sponsor "00" (of_Z 25) (of_Z 10) false false false "127.0.0.1" 8125 None.
Definition toy_boot : Boot := mk_boot _ [] ∅ ∅ 0 None.
Definition good_lib : StartupLib := toy_lib (Ok (1000, 100, 3)) 100 30000000000 1600.

Lemma setup_shares_state_witness :
  exists sv, (setup (SL := good_lib) Arbitrum (toy_cli "0x5") toy_boot).1 = Ok sv /\
    address_from_hex_string (StartupLib := good_lib) "0x5" = inr (sponsor_address sv).
Proof.
  destruct (setup (SL := good_lib) Arbitrum (toy_cli "0x5") toy_boot) as [r b'] eqn:Hs.
  assert (match r with Ok _ => True | _ => False end) as Hr.
  { change r with (r, b').1. rewrite <- Hs. vm_compute. exact I. }
  destruct r as [sv| |]; [|done..]. exists sv. split; [done|].
  exact (proj1 (proj2 (proj2 (setup_shares_state (SL := good_lib) Arbitrum (toy_cli "0x5") toy_boot sv b' Hs)))).
Defined.

(** When the start-up returns an error, no thread has been started and no listener
    is watched. *)
Theorem failed_setup_starts_nothing {ST : StartupTypes} {SL : StartupLib} f (args : Cli) b e b' :
  setup f args b = (Err e, b') -> calm b b'.
Proof.
  revert b e b'. change (fails_calm (setup f args)). unfold setup.
  repeat match goal with
  | |- fails_calm (expect (start_listener _) ≫= _) => fail 1
  | |- fails_calm (_ ≫= _) => apply fails_calm_bind; [|intros]
  | |- fails_calm (let '(_, _) := ?x in _) => destruct x
  end; try (unfold configure_telemetry_from_args, setup_token_mapping, set_external_match_fees, create_db_pool,
    parse_gas_sponsor_address;
    by auto using calm_set_fees, calm_redis, calm_darkpool, calm_keys, calm_limiter, calm_sampler, calm_with_error,
      calm_expect, calm_invoke, calm_from_sum, calm_alloc).
  intros b0 e b'. match goal with |- ?m b0 = _ -> _ => assert (never_fails m) as Hn end.
  { apply never_fails_bind; [apply never_fails_expect|intros l].
    apply never_fails_bind; [|done]. unfold watch_listener.
    apply never_fails_bind; [apply never_fails_expect|done]. }
  intros Heq. specialize (Hn b0 e). by rewrite Heq in Hn.
Qed.

Lemma failed_setup_starts_nothing_witness :
  calm toy_boot (setup (SL := good_lib) Arbitrum (toy_cli "sponsor") toy_boot).2.
Proof.
  apply (failed_setup_starts_nothing (SL := good_lib) Arbitrum (toy_cli "sponsor") toy_boot
    (Setup "invalid address")). vm_compute. reflexivity.
Defined.

(** The server does not outlive its listener: after a successful start-up, however the
    listener ends (no runtime, no block number, no subscription, a malformed event, a
    panic at the end of the stream), its watcher cancels the token, and the process
    returns the error that says so, if the HTTP server has not ended it before. *)
Theorem server_stops_with_listener {ST : StartupTypes} {SL : StartupLib} f (args : Cli) b sv b'
    runtime block subscribe logs :
  setup f args b = (Ok sv, b') ->
  exists l, watched b' = Some l /\
    watcher l (executor_thread runtime (execute block subscribe logs).2) = true /\
    forall first, exists e, main_select first = Err e /\
      (first = TokenCancelled -> e = Custom "Chain event listener crashed").
Proof.
  intros (ex & Hw)%setup_watches. eexists. split; [exact Hw|]. split.
  - unfold watcher. cbn. by destruct (executor_thread _ _).
  - intros []; by eexists.
Qed.

Lemma server_stops_with_listener_witness :
  exists sv b', setup (SL := good_lib) Arbitrum (toy_cli "0x5") toy_boot = (Ok sv, b') /\
  exists l, watched b' = Some l /\ watcher l (executor_thread (Ok tt) (execute (Ok 1) (Ok tt) [(Some 3, Ok 42)]).2) = true.
Proof.
  destruct (setup (SL := good_lib) Arbitrum (toy_cli "0x5") toy_boot) as [r b'] eqn:Hs.
  assert (match r with Ok _ => True | _ => False end) as Hr.
  { change r with (r, b').1. rewrite <- Hs. vm_compute. exact I. }
  destruct r as [sv| |]; [|done..]. exists sv, b'. split; [done|].
  destruct (server_stops_with_listener (SL := good_lib) Arbitrum (toy_cli "0x5") toy_boot sv b'
    (Ok tt) (Ok 1) (Ok tt) [(Some 3, Ok 42)] Hs) as (l & Hl & Hc & _). eauto.
Defined.

(** The fees of the external matches: once they are set, every token of the mapping
    and the native asset has the fee the contract gave for it against USDC, and no
    other pair has changed, that of USDC with itself included. *)
Theorem match_fees_set {ST : StartupTypes} {SL : StartupLib} dc b b' :
  set_external_match_fees dc b = (Ok tt, b') ->
  (forall t, t ∈ all_tokens \/ t = NATIVE_ASSET_ADDRESS -> t <> usdc_address ->
    exists h fee, protocol_fee h t usdc_address = Ok fee /\ fees b' !! (t, usdc_address) = Some fee) /\
  (forall x y, y <> usdc_address \/ x = usdc_address \/ ((x ∉ all_tokens) /\ x <> NATIVE_ASSET_ADDRESS) ->
    fees b' !! (x, y) = fees b !! (x, y)).
Proof.
  intros [H1 H2]%set_fees_spec. split.
  - intros t Ht. apply H2. set_solver.
  - intros x y Hxy. apply H1. intros t [Ht| ->%list_elem_of_singleton]%elem_of_app Hu [= -> ->]; naive_solver.
Qed.

Lemma match_fees_set_witness :
  exists h fee, protocol_fee (StartupLib := good_lib) h 8 7 = Ok fee /\
    fees (set_external_match_fees (SL := good_lib) (tt : @DarkpoolClient toy_types) toy_boot).2 !! (8, 7) = Some fee.
Proof.
  apply (match_fees_set (SL := good_lib) (tt : @DarkpoolClient toy_types) toy_boot);
    [reflexivity|left; cbn; set_solver|done].
Defined.

(** The gas estimate: a tick of the timer writes the cost of the sample it took, or,
    when the sampling fails, leaves the latest estimate; nothing else changes but the
    record of the calls. *)
Theorem timer_keeps_latest {ST : StartupTypes} {SL : StartupLib} f s b :
  fees (timer_tick f s b) = fees b /\ watched (timer_tick f s b) = watched b /\
  (forall c, c <> latest_estimate s -> read_cell c (timer_tick f s b) = read_cell c b) /\
  match (sample_gas_prices f s b).1 with
  | Ok e => get_latest_estimate s (timer_tick f s b) = gas_cost e
  | _ => get_latest_estimate s (timer_tick f s b) = get_latest_estimate s b
  end.
Proof.
  pose proof (sample_only_calls f s b) as (Hf & Hc & Hn & Hw).
  unfold timer_tick, estimate_gas_cost, get_latest_estimate, read_cell, mbind, eff_bind.
  destruct (sample_gas_prices f s b) as [[e|e|] b1]; cbn in *; rewrite ?Hc; [|done..].
  split_and!; [done..| |by rewrite lookup_insert_eq].
  intros c Hne. by rewrite lookup_insert_ne by done.
Qed.

(** What is charged for the data that a transaction posts to L1.  On Arbitrum the
    precompile answers in units of L2 gas; on Ethereum there is nothing to post. *)
Theorem arbitrum_and_ethereum_cost {ST : StartupTypes} {SL : StartupLib} s b l1 fee l1_fee price :
  (l1_component (calls b) = Ok (l1, fee, l1_fee) ->
   0 <= l1 -> 0 <= fee -> (500000 + l1) * fee < 2 ^ 256 -> 500000 + l1 < 2 ^ 256 ->
   get_latest_estimate s (timer_tick Arbitrum s b) = 500000 * fee + l1 * fee) /\
  (gas_price (calls b) = Ok price -> 0 <= price -> 500000 * price < 2 ^ 256 ->
   get_latest_estimate s (timer_tick Ethereum s b) = 500000 * price).
Proof.
  assert (forall e, 0 <= gas_estimate_for_l1 e -> 0 <= l2_base_fee e -> 500000 + gas_estimate_for_l1 e < 2 ^ 256 ->
    (500000 + gas_estimate_for_l1 e) * l2_base_fee e < 2 ^ 256 ->
    gas_cost e = (500000 + gas_estimate_for_l1 e) * l2_base_fee e) as Hcost.
  { intros e H1 H2 H3 H4. unfold gas_cost, umul, uadd, ESTIMATED_L2_GAS. 
    rewrite (uwrap_id _ (500000 + _)) by (unfold in_u; lia). apply uwrap_id. unfold in_u. nia. }
  assert (forall f e, (sample_gas_prices f s b).1 = Ok e -> get_latest_estimate s (timer_tick f s b) = gas_cost e) as Htick.
  { intros f e He. unfold timer_tick, estimate_gas_cost, get_latest_estimate, read_cell, mbind, eff_bind.
    destruct (sample_gas_prices f s b) as [r b1]. cbn in He. subst r. cbn. by rewrite lookup_insert_eq. }
  split.
  - intros Hl Hl1 Hfee Hlt Hlt'. rewrite (Htick Arbitrum (mk_estimation l1 fee (umul 256 l1_fee 16))).
    + rewrite Hcost; cbn; lia.
    + unfold sample_gas_prices, mbind, eff_bind, gets. cbn.
      unfold arbitrum_estimate_l1_gas_component, mbind, eff_bind, invoke. by rewrite Hl.
  - intros Hp Hp0 Hlt. rewrite (Htick Ethereum (mk_estimation 0 price 0)).
    + rewrite Hcost; cbn; lia.
    + unfold sample_gas_prices, mbind, eff_bind, gets. cbn.
      unfold ethereum_estimate_l1_gas_component, mbind, eff_bind, invoke. by rewrite Hp.
Qed.

Lemma arbitrum_and_ethereum_cost_witness :
  get_latest_estimate (mk_sampler 0 5) (timer_tick (SL := good_lib) Arbitrum (mk_sampler 0 5) toy_boot) = 50100000 /\
  get_latest_estimate (mk_sampler 0 5) (timer_tick (SL := good_lib) Ethereum (mk_sampler 0 5) toy_boot) = 50000000.
Proof.
  destruct (arbitrum_and_ethereum_cost (SL := good_lib) (mk_sampler 0 5) toy_boot 1000 100 3 100) as [Ha He].
  rewrite Ha, He by (reflexivity || lia). done.
Defined.

(** On Base the oracle answers with the L1 gas of the data, which is charged at the L2
    gas price: the L1 base fee that was read does not enter the estimate.  With a gas
    price of 100 wei and an L1 base fee of 30 gwei the cost of the data, 48 * 10^12
    wei, is estimated at 160000. *)
Theorem base_l1_gas_priced_at_l2_fee {ST : StartupTypes} {SL : StartupLib} s b price l1_gas l1_fee h1 h2 :
  gas_price (calls b) = Ok price ->
  h1 = calls b ++ [GetGasPrice] -> l1_base_fee h1 = Ok l1_fee ->
  h2 = h1 ++ [L1BaseFee GAS_ORACLE_ADDRESS] -> l1_gas_used h2 = Ok l1_gas ->
  get_latest_estimate s (timer_tick Base s b) = umul 256 (uadd 256 ESTIMATED_L2_GAS l1_gas) price.
Proof.
  intros Hp -> Hf -> Hg.
  unfold timer_tick, estimate_gas_cost, get_latest_estimate, read_cell, sample_gas_prices, mbind, eff_bind, gets.
  cbn [estimate_l1_gas_component].
  unfold base_estimate_l1_gas_component, mbind, eff_bind, invoke. rewrite Hp. cbn. rewrite Hf, Hg. cbn.
  by rewrite lookup_insert_eq.
Qed.

Lemma base_l1_gas_priced_at_l2_fee_witness :
  get_latest_estimate (mk_sampler 0 5) (timer_tick (SL := good_lib) Base (mk_sampler 0 5) toy_boot) =
    500000 * 100 + 1600 * 100 /\
  1600 * 30000000000 = 48 * 10 ^ 12.
Proof.
  split; [|reflexivity].
  rewrite (base_l1_gas_priced_at_l2_fee (SL := good_lib) (mk_sampler 0 5) toy_boot 100 1600 30000000000
    [GetGasPrice] [GetGasPrice; L1BaseFee GAS_ORACLE_ADDRESS]); reflexivity.
Defined.

(** The log stream is read from the configured websocket, else from the RPC client; the
    guarded panics of [ws_client] are never reached. *)
Theorem log_provider_never_panics {ST : StartupTypes} {P} (connect_ws : string -> res string P) http ex :
  (forall a, connect_ws a <> Panic) ->
  log_provider connect_ws http ex <> Panic /\
  (ex_websocket_addr ex = None -> log_provider connect_ws http ex = Ok (http (ex_darkpool_client ex))) /\
  (forall addr p, ex_websocket_addr ex = Some addr -> connect_ws addr = Ok p -> log_provider connect_ws http ex = Ok p).
Proof.
  intros Hc. unfold log_provider, ws_client, has_websocket_listener.
  destruct (ex_websocket_addr ex) as [addr|]; cbn; split_and!; try done.
  - specialize (Hc addr). by destruct (connect_ws addr).
  - intros ? p [= <-] Hp. by rewrite Hp.
Qed.

Lemma log_provider_never_panics_witness :
  log_provider (fun _ : string => Ok 1) (fun _ => 2) (new_executor (mk_listener_config toy_types ArbitrumOne 5 (Some "ws://node"%string) 0
    (new_rate_limiter 500 200 (of_Z 25)) tt (mk_sampler 0 5) tt)) = Ok 1.
Proof.
  apply (log_provider_never_panics (ST := toy_types) (fun _ : string => Ok 1) (fun _ => 2)
    (new_executor (mk_listener_config toy_types ArbitrumOne 5 (Some "ws://node"%string) 0
    (new_rate_limiter 500 200 (of_Z 25)) tt (mk_sampler 0 5) tt)) (fun _ H => ltac:(discriminate H))) with (addr := "ws://node"%string);
    reflexivity.
Defined.

(** The command line: what is required is taken as given, and what has a default has
    it when nothing is given: 500 quotes and 200 bundles per minute, the local Redis for
    both stores, no sampling of metrics. *)
Theorem cli_required_and_defaults {ST : StartupTypes} arg flag pu16 pu64 pf64 pchain (c : Cli) :
  parse_cli arg flag pu16 pu64 pf64 pchain = Some c ->
  Forall (fun p => arg p.1 = Some p.2)
    [("DATABASE_URL", database_url c); ("ENCRYPTION_KEY", encryption_key c); ("MANAGEMENT_KEY", management_key c);
     ("RELAYER_URL", relayer_url c); ("RELAYER_ADMIN_KEY", relayer_admin_key c); ("RPC_URL", rpc_url c);
     ("DARKPOOL_ADDRESS", darkpool_address c); ("PERMIT2_ADDRESS", permit2_address c);
     ("PRICE_REPORTER_URL", price_reporter_url c); ("GAS_SPONSOR_ADDRESS", gas_sponsor_address c);
     ("GAS_SPONSOR_AUTH_KEY", gas_sponsor_auth_key c)]%string /\
  (arg "QUOTE_RATE_LIMIT"%string = None -> pu64 "500"%string = Some (quote_rate_limit c)) /\
  (arg "BUNDLE_RATE_LIMIT"%string = None -> pu64 "200"%string = Some (bundle_rate_limit c)) /\
  (arg "REDIS_URL"%string = None -> redis_url c = "redis://localhost:6379"%string) /\
  (arg "EXECUTION_COST_REDIS_URL"%string = None -> execution_cost_redis_url c = "redis://localhost:6379"%string) /\
  (arg "METRICS_SAMPLING_RATE"%string = None -> metrics_sampling_rate c = None).
Proof.
  unfold parse_cli, with_default. intros H.
  repeat match type of H with (_ ≫= _) = Some _ => apply bind_Some in H as (? & ? & H) end.
  injection H as <-. cbn. split; [repeat constructor; assumption|].
  split_and!; intros E; rewrite E in *; cbn in *; congruence.
Qed.

Lemma cli_required_and_defaults_witness :
  exists c : @Cli toy_types, parse_cli (fun n => if String.eqb n "PORT" then None else if String.eqb n "STATSD_PORT" then None
      else if String.eqb n "QUOTE_RATE_LIMIT" then None else if String.eqb n "METRICS_SAMPLING_RATE" then None else Some "x"%string)
    (fun _ => false) (fun s => if String.eqb s "3000" then Some 3000 else Some 8125) (fun s => if String.eqb s "500" then Some 500 else Some 1)
    (fun _ => Some (of_Z 1)) (fun _ => Some ArbitrumOne) = Some c /\ Some 500 = Some (quote_rate_limit c).
Proof.
  eexists. split; [reflexivity|].
  exact (proj1 (proj2 (cli_required_and_defaults (ST := toy_types) (fun n => if String.eqb n "PORT" then None else if String.eqb n "STATSD_PORT" then None
      else if String.eqb n "QUOTE_RATE_LIMIT" then None else if String.eqb n "METRICS_SAMPLING_RATE" then None else Some "x"%string)
    (fun _ => false) (fun s => if String.eqb s "3000" then Some 3000 else Some 8125) (fun s => if String.eqb s "500" then Some 500 else Some 1)
    (fun _ => Some (of_Z 1)) (fun _ => Some ArbitrumOne) _ eq_refl)) eq_refl).
Defined.
