(* ===== verification/Logging.v ===== *)
(** * The log lines of the services (logger.rs of the auth server, the funds manager, the
    price reporter, the indexer, the prover service and the pool runner)

    Each service writes its log through [log_task!], which gives every line the form
    [[task] [outcome] description] and the fields [task] and [outcome]; both
    vocabularies are closed.  The macros of the services are copies of one another:
    what they share is in [Envelope], and a module per service has its tasks.  The
    theorems show that the two labels can be read back from the text whatever the
    description, and that no two tasks of a service share a label. *)
From Stdlib Require Import ZArith Lia Ascii.
From stdpp Require Import strings list.
From S2P Require Import Prelude.
Local Open Scope string_scope.

(** ** The envelope *)
Inductive Outcome := Started | OutcomeOk | Skipped | Partial | Retrying | Failed.
#[export] Instance Outcome_eq_dec : EqDecision Outcome.
Proof. solve_decision. Defined.
Inductive Level := INFO | WARN | ERROR.

Definition outcome_as_str (o : Outcome) : string :=
  match o with
  | Started => "started"
  | OutcomeOk => "ok"
  | Skipped => "skipped"
  | Partial => "partial"
  | Retrying => "retrying"
  | Failed => "failed"
  end.
Definition level (o : Outcome) : Level :=
  match o with
  | Started | OutcomeOk | Skipped => INFO
  | Partial | Retrying => WARN
  | Failed => ERROR
  end.

(** An event as tracing gets it: the level, the fields and the message. *)
Record event := mk_event { ev_level : Level; ev_fields : list (string * string); ev_message : string }.

(** The muncher moves the fields of the call, one at a time, behind those it has. *)
Fixpoint munch (fields rest : list (string * string)) : list (string * string) :=
  match rest with
  | [] => fields
  | f :: rest => munch (fields ++ [f])%list rest
  end.
Definition message (task outcome description : string) : string :=
  "[" +:+ task +:+ "] [" +:+ outcome +:+ "] " +:+ description.
Definition log_line (task : string) (o : Outcome) (fields : list (string * string)) (description : string) : event :=
  let outcome := outcome_as_str o in
  mk_event (level o) ([("task", task); ("outcome", outcome)] ++ munch [] fields)%list
    (message task outcome description).

(** A vocabulary of tasks: finite, with a label for each. *)
Class Vocabulary (Task : Type) := {
  as_str : Task -> string;
  tasks : list Task;
  tasks_all t : t ∈ tasks;
}.
Definition log_task `{Vocabulary Task} (t : Task) : Outcome -> list (string * string) -> string -> event :=
  log_line (as_str t).

(** ** The services *)
(** auth/auth-server/src/logger.rs *)
Inductive AuthTask :=
  | AuthServiceLifecycle | AuthHandleRejection | AuthChainEventListener | AuthProxyRequest
  | AuthExternalMatchQuote | AuthExternalMatchAssemble | AuthRfqtQuote | AuthRfqtLevels
  | AuthGasSponsorship | AuthRateLimit | AuthTelemetry | AuthDb.
Definition auth_as_str (t : AuthTask) : string :=
  match t with
  | AuthServiceLifecycle => "service-lifecycle"
  | AuthHandleRejection => "handle-rejection"
  | AuthChainEventListener => "chain-event-listener"
  | AuthProxyRequest => "proxy-request"
  | AuthExternalMatchQuote => "external-match-quote"
  | AuthExternalMatchAssemble => "external-match-assemble"
  | AuthRfqtQuote => "rfqt-quote"
  | AuthRfqtLevels => "rfqt-levels"
  | AuthGasSponsorship => "gas-sponsorship"
  | AuthRateLimit => "rate-limit"
  | AuthTelemetry => "telemetry"
  | AuthDb => "db"
  end.
#[refine, export] Instance auth_tasks : Vocabulary AuthTask := {
  as_str := auth_as_str;
  tasks := [AuthServiceLifecycle; AuthHandleRejection; AuthChainEventListener; AuthProxyRequest; AuthExternalMatchQuote; AuthExternalMatchAssemble; AuthRfqtQuote; AuthRfqtLevels; AuthGasSponsorship; AuthRateLimit; AuthTelemetry; AuthDb];
}.
Proof. intros []; rewrite list_elem_of_In; cbn; tauto. Defined.
Definition auth_log_task : AuthTask -> Outcome -> list (string * string) -> string -> event := log_task.

(** funds-manager/funds-manager-server/src/logger.rs *)
Inductive FundsTask :=
  | FundsServiceLifecycle | FundsHandleHttpRequest | FundsAuth | FundsHandleRpcRequest
  | FundsSignRpc | FundsPollFireblocksTx | FundsFireblocksRateLimit | FundsFetchVaultBalances
  | FundsFetchFireblocksMetadata | FundsCustodyTransfer | FundsWithdraw | FundsDeposit
  | FundsGasWallet | FundsGasSponsorRefill | FundsHotWallet | FundsErc20Approve
  | FundsIndexFees | FundsRedeemFees | FundsSwap | FundsFetchQuote
  | FundsSubmitOrder | FundsOnChainTx | FundsFetchRelayerWallet | FundsDb
  | FundsRecordMetric | FundsHandleRejection | FundsUncaughtPanic | FundsHealthSnapshot.
Definition funds_as_str (t : FundsTask) : string :=
  match t with
  | FundsServiceLifecycle => "service-lifecycle"
  | FundsHandleHttpRequest => "handle-http-request"
  | FundsAuth => "auth"
  | FundsHandleRpcRequest => "handle-rpc-request"
  | FundsSignRpc => "sign-rpc"
  | FundsPollFireblocksTx => "poll-fireblocks-tx"
  | FundsFireblocksRateLimit => "fireblocks-rate-limit"
  | FundsFetchVaultBalances => "fetch-vault-balances"
  | FundsFetchFireblocksMetadata => "fetch-fireblocks-metadata"
  | FundsCustodyTransfer => "custody-transfer"
  | FundsWithdraw => "withdraw"
  | FundsDeposit => "deposit"
  | FundsGasWallet => "gas-wallet"
  | FundsGasSponsorRefill => "gas-sponsor-refill"
  | FundsHotWallet => "hot-wallet"
  | FundsErc20Approve => "erc20-approve"
  | FundsIndexFees => "index-fees"
  | FundsRedeemFees => "redeem-fees"
  | FundsSwap => "swap"
  | FundsFetchQuote => "fetch-quote"
  | FundsSubmitOrder => "submit-order"
  | FundsOnChainTx => "on-chain-tx"
  | FundsFetchRelayerWallet => "fetch-relayer-wallet"
  | FundsDb => "db"
  | FundsRecordMetric => "record-metric"
  | FundsHandleRejection => "handle-rejection"
  | FundsUncaughtPanic => "uncaught-panic"
  | FundsHealthSnapshot => "health-snapshot"
  end.
#[refine, export] Instance funds_tasks : Vocabulary FundsTask := {
  as_str := funds_as_str;
  tasks := [FundsServiceLifecycle; FundsHandleHttpRequest; FundsAuth; FundsHandleRpcRequest; FundsSignRpc; FundsPollFireblocksTx; FundsFireblocksRateLimit; FundsFetchVaultBalances; FundsFetchFireblocksMetadata; FundsCustodyTransfer; FundsWithdraw; FundsDeposit; FundsGasWallet; FundsGasSponsorRefill; FundsHotWallet; FundsErc20Approve; FundsIndexFees; FundsRedeemFees; FundsSwap; FundsFetchQuote; FundsSubmitOrder; FundsOnChainTx; FundsFetchRelayerWallet; FundsDb; FundsRecordMetric; FundsHandleRejection; FundsUncaughtPanic; FundsHealthSnapshot];
}.
Proof. intros []; rewrite list_elem_of_In; cbn; tauto. Defined.
Definition funds_log_task : FundsTask -> Outcome -> list (string * string) -> string -> event := log_task.

(** price-reporter/src/logger.rs *)
Inductive PricesTask :=
  | PricesServiceLifecycle | PricesPriceStream | PricesExchangeConnection | PricesSubscription
  | PricesHeartbeat | PricesHttpServer | PricesWsServer.
Definition prices_as_str (t : PricesTask) : string :=
  match t with
  | PricesServiceLifecycle => "service-lifecycle"
  | PricesPriceStream => "price-stream"
  | PricesExchangeConnection => "exchange-connection"
  | PricesSubscription => "subscription"
  | PricesHeartbeat => "heartbeat"
  | PricesHttpServer => "http-server"
  | PricesWsServer => "ws-server"
  end.
#[refine, export] Instance prices_tasks : Vocabulary PricesTask := {
  as_str := prices_as_str;
  tasks := [PricesServiceLifecycle; PricesPriceStream; PricesExchangeConnection; PricesSubscription; PricesHeartbeat; PricesHttpServer; PricesWsServer];
}.
Proof. intros []; rewrite list_elem_of_In; cbn; tauto. Defined.
Definition prices_log_task : PricesTask -> Outcome -> list (string * string) -> string -> event := log_task.

(** indexer/darkpool-indexer/src/logger.rs *)
Inductive IndexingTask :=
  | IndexingServiceLifecycle | IndexingReceiveSqsMessages | IndexingHandleSqsMessage | IndexingRegisterMasterViewSeed
  | IndexingProcessNullifierSpend | IndexingDb.
Definition indexing_as_str (t : IndexingTask) : string :=
  match t with
  | IndexingServiceLifecycle => "service-lifecycle"
  | IndexingReceiveSqsMessages => "receive-sqs-messages"
  | IndexingHandleSqsMessage => "handle-sqs-message"
  | IndexingRegisterMasterViewSeed => "register-master-view-seed"
  | IndexingProcessNullifierSpend => "process-nullifier-spend"
  | IndexingDb => "db"
  end.
#[refine, export] Instance indexing_tasks : Vocabulary IndexingTask := {
  as_str := indexing_as_str;
  tasks := [IndexingServiceLifecycle; IndexingReceiveSqsMessages; IndexingHandleSqsMessage; IndexingRegisterMasterViewSeed; IndexingProcessNullifierSpend; IndexingDb];
}.
Proof. intros []; rewrite list_elem_of_In; cbn; tauto. Defined.
Definition indexing_log_task : IndexingTask -> Outcome -> list (string * string) -> string -> event := log_task.

(** prover-service/server/src/logger.rs *)
Inductive ProvingTask :=
  | ProvingServiceLifecycle | ProvingCircuitSetup | ProvingProve | ProvingHandleRejection.
Definition proving_as_str (t : ProvingTask) : string :=
  match t with
  | ProvingServiceLifecycle => "service-lifecycle"
  | ProvingCircuitSetup => "circuit-setup"
  | ProvingProve => "prove"
  | ProvingHandleRejection => "handle-rejection"
  end.
#[refine, export] Instance proving_tasks : Vocabulary ProvingTask := {
  as_str := proving_as_str;
  tasks := [ProvingServiceLifecycle; ProvingCircuitSetup; ProvingProve; ProvingHandleRejection];
}.
Proof. intros []; rewrite list_elem_of_In; cbn; tauto. Defined.
Definition proving_log_task : ProvingTask -> Outcome -> list (string * string) -> string -> event := log_task.

(** pool-runner/src/logger.rs *)
Inductive PoolTask :=
  | PoolServiceLifecycle | PoolHttpServer | PoolAdminWsListener | PoolPoolRouter
  | PoolFillWaiter.
Definition pool_as_str (t : PoolTask) : string :=
  match t with
  | PoolServiceLifecycle => "service-lifecycle"
  | PoolHttpServer => "http-server"
  | PoolAdminWsListener => "admin-ws-listener"
  | PoolPoolRouter => "pool-router"
  | PoolFillWaiter => "fill-waiter"
  end.
#[refine, export] Instance pool_tasks : Vocabulary PoolTask := {
  as_str := pool_as_str;
  tasks := [PoolServiceLifecycle; PoolHttpServer; PoolAdminWsListener; PoolPoolRouter; PoolFillWaiter];
}.
Proof. intros []; rewrite list_elem_of_In; cbn; tauto. Defined.
Definition pool_log_task : PoolTask -> Outcome -> list (string * string) -> string -> event := log_task.

(** ** The panic hook of the funds manager

    The payload of a panic as the hook sees it, and where it was raised. *)
Inductive payload := PStr (s : string) | PString (s : string) | POther.
Definition panic_payload (p : payload) : string :=
  match p with PStr s => s | PString s => s | POther => "<non-string panic payload>" end.
Definition install_panic_hook (show_line : Z -> string) (p : payload) (location : option (string * Z)) : event :=
  let payload := panic_payload p in
  let location := match location with Some (file, line) => file +:+ ":" +:+ show_line line | None => "<unknown>" end in
  funds_log_task FundsUncaughtPanic Failed [("location", location); ("payload", payload)]
    ("panic at " +:+ location +:+ ": " +:+ payload).

(** ** Reading a line back *)

(** The text up to a character, and what follows it. *)
Fixpoint until (c : ascii) (s : string) : option (string * string) :=
  match s with
  | EmptyString => None
  | String a s =>
      if Ascii.eqb a c then Some (EmptyString, s)
      else match until c s with Some (x, y) => Some (String a x, y) | None => None end
  end.
Fixpoint skip (n : nat) (s : string) : string :=
  match n, s with S n, String _ s => skip n s | _, _ => s end.
(** The two labels and the description of a message. *)
Definition read_message (s : string) : option (string * string * string) :=
  match until "]" (skip 1 s) with
  | Some (task, rest) =>
      match until "]" (skip 2 rest) with
      | Some (outcome, rest) => Some (task, outcome, skip 1 rest)
      | None => None
      end
  | None => None
  end.

(** Kebab case: lower-case letters, digits and dashes. *)
Definition kebab_char (a : ascii) : bool :=
  let n := nat_of_ascii a in
  (Nat.leb 97 n && Nat.leb n 122) || (Nat.leb 48 n && Nat.leb n 57) || Nat.eqb n 45.
Fixpoint kebab (s : string) : bool :=
  match s with EmptyString => true | String a s => kebab_char a && kebab s end.

Lemma until_kebab s rest : kebab s = true -> until "]" (s +:+ String "]" rest) = Some (s, rest).
Proof.
  induction s as [|a s IH]; intros Hk; [done|].
  cbn in Hk. apply andb_true_iff in Hk as [Ha Hs].
  change (String a s +:+ String "]" rest) with (String a (s +:+ String "]" rest)). cbn [until].
  destruct (Ascii.eqb_spec a "]") as [-> |_]; [by vm_compute in Ha|]. by rewrite IH.
Qed.
Lemma read_message_spec task outcome description :
  kebab task = true -> kebab outcome = true ->
  read_message (message task outcome description) = Some (task, outcome, description).
Proof.
  intros Ht Ho. unfold read_message, message.
  change (skip 1 ("[" +:+ ?x)) with x.
  change ("] [" +:+ outcome +:+ "] " +:+ description) with
    (String "]" (String " " (String "[" (outcome +:+ "] " +:+ description)))).
  change (skip 1 ("[" +:+ task +:+ ?x)) with (task +:+ x).
  rewrite until_kebab by done. cbn [skip].
  change ("] " +:+ description) with (String "]" (String " " description)).
  by rewrite until_kebab.
Qed.
Lemma outcome_kebab o : kebab (outcome_as_str o) = true.
Proof. by destruct o. Qed.
Lemma outcome_as_str_inj o o' : outcome_as_str o = outcome_as_str o' -> o = o'.
Proof. by destruct o, o'. Qed.
Lemma munch_app fields rest : munch fields rest = (fields ++ rest)%list.
Proof.
  revert fields. induction rest as [|f rest IH]; intros fields; cbn; [by rewrite app_nil_r|].
  by rewrite IH, <- app_assoc.
Qed.

(** What a service owes its vocabulary: kebab-case labels, all different. *)
Class GoodVocabulary Task `{Vocabulary Task} := {
  as_str_kebab t : kebab (as_str t) = true;
  as_str_inj t t' : as_str t = as_str t' -> t = t';
}.
#[export] Instance auth_good : GoodVocabulary AuthTask.
Proof. split; [by intros []|by intros [] []]. Qed.
#[export] Instance funds_good : GoodVocabulary FundsTask.
Proof. split; [by intros []|by intros [] []]. Qed.
#[export] Instance prices_good : GoodVocabulary PricesTask.
Proof. split; [by intros []|by intros [] []]. Qed.
#[export] Instance indexing_good : GoodVocabulary IndexingTask.
Proof. split; [by intros []|by intros [] []]. Qed.
#[export] Instance proving_good : GoodVocabulary ProvingTask.
Proof. split; [by intros []|by intros [] []]. Qed.
#[export] Instance pool_good : GoodVocabulary PoolTask.
Proof. split; [by intros []|by intros [] []]. Qed.

(** The task and the outcome of a line of any service can be read back from its text,
    whatever the description; two lines with the same text are of the same task and
    the same outcome; the fields come after the two labels in the order of the call;
    and the level is that of the outcome. *)
Theorem log_line_read_back `{GoodVocabulary Task} (t : Task) o fields description :
  read_message (ev_message (log_task t o fields description)) = Some (as_str t, outcome_as_str o, description) /\
  (forall t' o' fields' description',
    ev_message (log_task t' o' fields' description') = ev_message (log_task t o fields description) ->
    t' = t /\ o' = o /\ description' = description) /\
  ev_fields (log_task t o fields description) = ([("task", as_str t); ("outcome", outcome_as_str o)] ++ fields)%list /\
  (ev_level (log_task t o fields description) = ERROR <-> o = Failed).
Proof.
  assert (forall t o d, read_message (message (as_str t) (outcome_as_str o) d) = Some (as_str t, outcome_as_str o, d))
    as Hread by (intros; apply read_message_spec; [apply as_str_kebab|apply outcome_kebab]).
  split_and!.
  - apply Hread.
  - intros t' o' f' d' Heq. cbn in Heq. pose proof (Hread t' o' d') as Hr. rewrite Heq, Hread in Hr.
    injection Hr as Ht Ho ->. split_and!; [by apply as_str_inj|by apply outcome_as_str_inj|done].
  - cbn. by rewrite munch_app.
  - by destruct o.
Qed.

(** A panic of the funds manager becomes an event at the level of errors, whose task is
    that of panics and whose text says where and why. *)
Theorem panic_is_logged show_line p location :
  ev_level (install_panic_hook show_line p location) = ERROR /\
  exists where_, read_message (ev_message (install_panic_hook show_line p location)) =
    Some ("uncaught-panic", "failed", "panic at " +:+ where_ +:+ ": " +:+ panic_payload p).
Proof. split; [done|]. eexists. by apply read_message_spec. Qed.
