(* ===== verification/FundsStartup.v ===== *)
(** * Start-up of the funds manager (funds-manager-server/src: cli.rs, server.rs, main.rs,
    db/mod.rs, relayer_client.rs, health_snapshot.rs; the constructors of
    custody_client/mod.rs and execution_client/mod.rs; the rest of helpers.rs)

    The command line and its validation, the configuration per chain, the clients
    that are built from it and the server that holds them.  Calls to libraries and
    services are recorded, and what they return may depend on all the calls before. *)
From Stdlib Require Import ZArith Lia Ascii.
From stdpp Require Import gmap strings list.
From S2P Require Import Prelude F64 AuthError Fireblocks FundsManager Logging.
From S2P Require GasWallets.
Local Open Scope Z_scope.

(** ** helpers.rs: the contracts of a chain *)
Definition ARBITRUM_ONE_DARKPOOL_ADDRESS : Z := 0x30bd8eab29181f790d7e495786d4b96d7afdc518.
Definition ARBITRUM_SEPOLIA_DARKPOOL_ADDRESS : Z := 0x9af58f1ff20ab22e819e40b57ffd784d115a9ef5.
Definition BASE_MAINNET_DARKPOOL_ADDRESS : Z := 0xb4a96068577141749CC8859f586fE29016C935dB.
Definition BASE_SEPOLIA_DARKPOOL_ADDRESS : Z := 0x653C95391644EEE16E4975a7ef1f46e0B8276695.
Definition ETHEREUM_MAINNET_DARKPOOL_ADDRESS : Z := 0x0000000000000000000000000000000000000000.
Definition ETHEREUM_SEPOLIA_DARKPOOL_ADDRESS : Z := 0x45537c28F245645CC1E7F7258FCC18A189CE16e3.
Definition ARBITRUM_ONE_GAS_SPONSOR_ADDRESS : Z := 0xbacedc261add2e273801b9f64133bb709efbc3d8.
Definition ARBITRUM_SEPOLIA_GAS_SPONSOR_ADDRESS : Z := 0xaab1a91fdc6498d1dc1acba9bf7d751cd744653c.
Definition BASE_MAINNET_GAS_SPONSOR_ADDRESS : Z := 0xE1AD298b51a8924C539d1530E8E5E39232006771.
Definition BASE_SEPOLIA_GAS_SPONSOR_ADDRESS : Z := 0x2fDB4e70Db12599b04642b3d023E75f6439c5707.
Definition ETHEREUM_MAINNET_GAS_SPONSOR_ADDRESS : Z := 0x0000000000000000000000000000000000000000.
Definition ETHEREUM_SEPOLIA_GAS_SPONSOR_ADDRESS : Z := 0x8E330790c68b9462123848e418BaDB3399c7D26F.
Definition ARBITRUM_ONE_GAS_SPONSOR_ADDRESS_V2 : Z := 0xcE7a8D45daa9a5B29f6d255552F577d53fF9EBcf.
Definition ARBITRUM_SEPOLIA_GAS_SPONSOR_ADDRESS_V2 : Z := 0x44183ad1d4ec082e9EEb7e9665211CC35De5123b.
Definition BASE_MAINNET_GAS_SPONSOR_ADDRESS_V2 : Z := 0xD9E0507D706408D0f14E22e50880189Fd915be80.
Definition BASE_SEPOLIA_GAS_SPONSOR_ADDRESS_V2 : Z := 0x37f529F812d6D5ABa07BFcb9cB374f2450B782eE.
Definition ETHEREUM_MAINNET_GAS_SPONSOR_ADDRESS_V2 : Z := 0x0000000000000000000000000000000000000000.
Definition ETHEREUM_SEPOLIA_GAS_SPONSOR_ADDRESS_V2 : Z := 0x2fDB4e70Db12599b04642b3d023E75f6439c5707.

(** A chain without contracts panics. *)
Definition get_darkpool_address {E} (c : Chain) : res E Z :=
  match c with
  | ArbitrumOne => Ok ARBITRUM_ONE_DARKPOOL_ADDRESS
  | ArbitrumSepolia => Ok ARBITRUM_SEPOLIA_DARKPOOL_ADDRESS
  | BaseMainnet => Ok BASE_MAINNET_DARKPOOL_ADDRESS
  | BaseSepolia => Ok BASE_SEPOLIA_DARKPOOL_ADDRESS
  | EthereumMainnet => Ok ETHEREUM_MAINNET_DARKPOOL_ADDRESS
  | EthereumSepolia => Ok ETHEREUM_SEPOLIA_DARKPOOL_ADDRESS
  | Devnet => Panic
  end.
Definition get_gas_sponsor_address {E} (c : Chain) : res E Z :=
  match c with
  | ArbitrumOne => Ok ARBITRUM_ONE_GAS_SPONSOR_ADDRESS
  | ArbitrumSepolia => Ok ARBITRUM_SEPOLIA_GAS_SPONSOR_ADDRESS
  | BaseMainnet => Ok BASE_MAINNET_GAS_SPONSOR_ADDRESS
  | BaseSepolia => Ok BASE_SEPOLIA_GAS_SPONSOR_ADDRESS
  | EthereumMainnet => Ok ETHEREUM_MAINNET_GAS_SPONSOR_ADDRESS
  | EthereumSepolia => Ok ETHEREUM_SEPOLIA_GAS_SPONSOR_ADDRESS
  | Devnet => Panic
  end.
Definition get_gas_sponsor_address_v2 {E} (c : Chain) : res E Z :=
  match c with
  | ArbitrumOne => Ok ARBITRUM_ONE_GAS_SPONSOR_ADDRESS_V2
  | ArbitrumSepolia => Ok ARBITRUM_SEPOLIA_GAS_SPONSOR_ADDRESS_V2
  | BaseMainnet => Ok BASE_MAINNET_GAS_SPONSOR_ADDRESS_V2
  | BaseSepolia => Ok BASE_SEPOLIA_GAS_SPONSOR_ADDRESS_V2
  | EthereumMainnet => Ok ETHEREUM_MAINNET_GAS_SPONSOR_ADDRESS_V2
  | EthereumSepolia => Ok ETHEREUM_SEPOLIA_GAS_SPONSOR_ADDRESS_V2
  | Devnet => Panic
  end.
Definition get_secret_prefix (c : Chain) : res FundsManagerError string :=
  match c with
  | ArbitrumOne => Ok "/arbitrum/one"%string
  | ArbitrumSepolia => Ok "/arbitrum/sepolia"%string
  | BaseMainnet => Ok "/base/mainnet"%string
  | BaseSepolia => Ok "/base/sepolia"%string
  | EthereumMainnet => Ok "/ethereum/mainnet"%string
  | EthereumSepolia => Ok "/ethereum/sepolia"%string
  | Devnet => Err (CustomError "Unsupported chain")
  end.

(** ** cli.rs: the command line *)
Definition environment_to_string (e : Environment) : string :=
  match e with Mainnet => "mainnet" | Testnet => "testnet" end.

Record Cli := mk_cli {
  hmac_key : option string;
  disable_auth : bool;
  environment : Environment;
  price_reporter_url : string;
  chain_configs_bucket : option string;
  chain_configs_path : option string;
  db_url : string;
  fireblocks_api_key : string;
  fireblocks_api_secret : string;
  port : Z;
  cli_max_gas_withdrawal_amount : f64;
  cli_max_gas_refill_amount : f64;
  datadog_enabled : bool;
  metrics_enabled : bool;
  otlp_enabled : bool;
  statsd_host : string;
  statsd_port : Z;
}.

(** [Cli::validate] *)
Definition validate (c : Cli) : res string unit :=
  match hmac_key c, disable_auth c with
  | None, false => Err "Either --hmac-key or --disable-auth must be provided"%string
  | _, _ =>
      match chain_configs_bucket c, chain_configs_path c with
      | None, None => Err "Either --chain-configs-bucket or --chain-configs-path must be provided"%string
      | _, _ => Ok tt
      end
  end.

Section ParseCli.
(** The value of an argument, from the command line or its environment variable. *)
Context (arg : string -> option string) (flag : string -> bool)
  (parse_u16 : string -> option Z) (parse_f64 : string -> option f64) (parse_environment : string -> option Environment).
(** [Cli::parse]: [None] on a usage error; [conflicts_with] refuses the key together
    with the flag that disables authentication, and both sources of configuration. *)
Definition parse_cli : option Cli :=
  environment ← parse_environment (default "testnet"%string (arg "ENVIRONMENT"));
  price_reporter_url ← arg "PRICE_REPORTER_URL";
  db_url ← arg "DATABASE_URL";
  fireblocks_api_key ← arg "FIREBLOCKS_API_KEY";
  fireblocks_api_secret ← arg "FIREBLOCKS_API_SECRET";
  port ← parse_u16 (default "3000"%string (arg "--port"));
  max_withdrawal ← parse_f64 (default "1.0"%string (arg "MAX_GAS_WITHDRAWAL_AMOUNT"));
  max_refill ← parse_f64 (default "0.1"%string (arg "MAX_GAS_REFILL_AMOUNT"));
  statsd_port ← parse_u16 (default "8125"%string (arg "STATSD_PORT"));
  match arg "HMAC_KEY", flag "--disable-auth" with
  | Some _, true => None
  | hmac_key, disable_auth =>
      match arg "CHAIN_CONFIGS_BUCKET", arg "CHAIN_CONFIGS_PATH" with
      | Some _, Some _ => None
      | bucket, path =>
          Some (mk_cli hmac_key disable_auth environment price_reporter_url bucket path db_url
            fireblocks_api_key fireblocks_api_secret port max_withdrawal max_refill
            (flag "ENABLE_DATADOG") (flag "ENABLE_METRICS") (flag "ENABLE_OTLP")
            (default "127.0.0.1"%string (arg "STATSD_HOST")) statsd_port)
      end
  end.
End ParseCli.

(** ** The configuration of a chain *)
Record ChainConfig := mk_chain_config {
  relayer_url : string;
  relayer_decryption_key : string;
  rpc_url : string;
  ws_rpc_url : string;
  protocol_decryption_key : option string;
  lifi_api_key : option string;
  bebop_api_key : option string;
  max_price_deviations : list (string * f64);
  permit2_addr : Z;
  max_gas_refill_amount : option f64;
  max_gas_withdrawal_amount : option f64;
  gas_top_up_amount : option f64;
  gas_refill_tolerance : option f64;
}.

(** ** The clients *)
Definition DEFAULT_TOP_UP_AMOUNT : f64 := of_parts 5764607523034235 (-59). (* 0.01 *)
Definition BLOCK_POLLING_INTERVAL : Z := 100.
Definition METRICS_PREFIX : string := "funds-manager".
Definition DEFAULT_OTLP_COLLECTOR_ENDPOINT : string := "http://localhost:4317".
Definition CHAIN_CONFIGS_OBJECT_NAME : string := "chain_configs.json".
Definition DEFAULT_REGION : string := "us-east-2".

Class FundsTypes := {
  DynProvider : Type;
  DbPool : Type;
  PriceClient : Type;
  FireblocksApi : Type;
  HmacKey : Type;
  PrivateKeySigner : Type;
  DecryptionKey : Type;
}.

(** [build_provider]: the base connection with the fillers (a nonce fetched for every
    transaction, chain id, gas, blob gas), and the wallet that signs, if any. *)
Record provider `{FundsTypes} := mk_provider { base : DynProvider; simple_nonces : bool; wallet : option PrivateKeySigner }.
Definition build_provider `{FundsTypes} (base_provider : DynProvider) (wallet : option PrivateKeySigner) : provider :=
  mk_provider _ base_provider true wallet.

(** custody_client/mod.rs *)
Record CustodyClient `{FundsTypes} := mk_custody {
  cc_chain : Chain;
  cc_chain_id : Z;
  cc_fireblocks_client : FireblocksApi;
  cc_base_provider : DynProvider;
  cc_db_pool : DbPool;
  cc_gas_sponsor_address : Z;
  cc_gas_sponsor_address_v2 : Z;
  cc_price_reporter : PriceClient;
  cc_max_gas_refill_amount : f64;
  cc_max_gas_withdrawal_amount : f64;
  cc_gas_top_up_amount : f64;
  cc_gas_refill_tolerance : f64;
}.
(** A venue: its key, the provider that signs for it, the wallet and the chain. *)
Record VenueClient `{FundsTypes} := mk_venue {
  vn_api_key : option string; vn_base_provider : DynProvider; vn_wallet : PrivateKeySigner; vn_chain : Chain }.
Record AllExecutionVenues `{FundsTypes} := mk_venues { lifi : VenueClient; cowswap : VenueClient; bebop : VenueClient }.
(** execution_client/mod.rs *)
Record ExecutionClient `{FundsTypes} := mk_execution {
  ec_chain : Chain;
  ec_rpc_provider : provider;
  ec_price_reporter : PriceClient;
  ec_hot_wallet_address : Z;
  ec_venues : AllExecutionVenues;
  ec_max_price_deviations : list (string * f64);
}.
Record MetricsRecorder `{FundsTypes} := mk_recorder {
  mr_price_reporter : PriceClient; mr_base_provider : DynProvider; mr_chain : Chain }.
Record ChainClients `{FundsTypes} := mk_clients {
  custody_client : CustodyClient; execution_client : ExecutionClient; metrics_recorder : MetricsRecorder }.

Inductive fcall :=
  | FConfigureTelemetry (datadog otlp metrics : bool) (collector host : string) (port : Z) (prefix : string)
  | FFetchS3 (bucket key : string)
  | FReadFile (path : string)
  | FSetupTokenRemaps (c : Chain)
  | FNewPriceClient (url : string)
  | FBuildDbPool (url : string)
  | FNewDarkpoolClient (darkpool permit2 : Z) (c : Chain) (rpc_url : string) (polling_ms : Z)
  | FChainId
  | FConnectWs (url : string)
  | FNewFireblocks (key secret : string)
  | FGetQuoterHotWallet (c : Chain)
  | FGetHotWalletPrivateKey (address : string)
  | FServe (port : Z).

Class FundsLib `{FundsTypes} := {
  f_telemetry : list fcall -> res string unit;
  f_s3 : list fcall -> res FundsManagerError string;
  f_read_file : list fcall -> res string string;
  f_parse_configs : string -> string + list (Chain * ChainConfig);
  f_remaps : list fcall -> res string unit;
  f_price_client : list fcall -> res PriceReporterClientError PriceClient;
  f_db_pool : list fcall -> res string DbPool;
  f_darkpool : list fcall -> res string unit;
  f_chain_id : list fcall -> res string Z;
  f_connect_ws : list fcall -> res string DynProvider;
  f_fireblocks : list fcall -> res FundsManagerError FireblocksApi;
  f_quoter_wallet : list fcall -> res FundsManagerError string;
  f_private_key : list fcall -> res FundsManagerError PrivateKeySigner;
  signer_address : PrivateKeySigner -> Z;
  hmac_from_hex : string -> option HmacKey;
  decryption_key_from_hex : string -> string + DecryptionKey;
}.

Section Build.
Context {FT : FundsTypes} {FL : FundsLib}.
Abbreviation run E A := (eff (list fcall) E A).

Definition ask {E A} (c : fcall) (outcome : list fcall -> res E A) : run E A := fun h => (outcome h, h ++ [c]).
Definition as_error {E F A} (f : E -> F) (m : run E A) : run F A := fun h =>
  let '(r, h') := m h in (map_err f r, h').
Definition of_sum {E F A} (f : E -> F) (x : E + A) : run F A :=
  lift (match x with inl e => Err (f e) | inr a => Ok a end).

Definition configure_telemetry (c : Cli) : run FundsManagerError unit :=
  as_error CustomError (ask (FConfigureTelemetry (datadog_enabled c) (otlp_enabled c) (metrics_enabled c)
    DEFAULT_OTLP_COLLECTOR_ENDPOINT (statsd_host c) (statsd_port c) METRICS_PREFIX) f_telemetry).

(** An invalid key panics. *)
Definition get_hmac_key {E} (c : Cli) : run E (option HmacKey) :=
  match hmac_key c with
  | None => mret None
  | Some key => k ← lift (unwrap (hmac_from_hex key)); mret (Some k)
  end.

Definition parse_chain_configs (c : Cli) : run FundsManagerError (list (Chain * ChainConfig)) :=
  json_str ← match chain_configs_bucket c with
    | Some bucket => ask (FFetchS3 bucket CHAIN_CONFIGS_OBJECT_NAME) f_s3
    | None =>
        path ← lift (unwrap (chain_configs_path c));
        as_error CustomError (ask (FReadFile path) f_read_file)
    end;
  of_sum ParseError (f_parse_configs json_str).

Definition new_custody_client (chain : Chain) (chain_id : Z) (api_key api_secret : string) (base_provider : DynProvider)
    (db_pool : DbPool) (sponsor sponsor_v2 : Z) (price_reporter : PriceClient)
    (max_refill max_withdrawal top_up tolerance : f64) : run FundsManagerError CustodyClient :=
  fireblocks_client ← ask (FNewFireblocks api_key api_secret) f_fireblocks;
  mret (mk_custody _ chain chain_id fireblocks_client base_provider db_pool sponsor sponsor_v2 price_reporter
    max_refill max_withdrawal top_up tolerance).

Definition new_execution_client (chain : Chain) (lifi_api_key bebop_api_key : option string) (base_provider : DynProvider)
    (price_reporter : PriceClient) (quoter_hot_wallet : PrivateKeySigner) (deviations : list (string * f64))
    : ExecutionClient :=
  let hot_wallet_address := signer_address quoter_hot_wallet in
  let rpc_provider := build_provider base_provider None in
  let lifi := mk_venue _ lifi_api_key base_provider quoter_hot_wallet chain in
  let cowswap := mk_venue _ None base_provider quoter_hot_wallet chain in
  let bebop := mk_venue _ bebop_api_key base_provider quoter_hot_wallet chain in
  mk_execution _ chain rpc_provider price_reporter hot_wallet_address (mk_venues _ lifi cowswap bebop) deviations.

(** The text of an error of the custody client goes into an on-chain error. *)
Definition on_chain {A} (m : run FundsManagerError A) : run FundsManagerError A :=
  as_error (fun e => OnChain (funds_error_to_string e)) m.

Definition build_clients (config : ChainConfig) (chain : Chain)
    (api_key api_secret : string) (db_pool : DbPool) (price_reporter : PriceClient) (cli_args : Cli)
    : run FundsManagerError ChainClients :=
  darkpool_address ← lift (get_darkpool_address chain);
  _ ← as_error CustomError (ask (FNewDarkpoolClient darkpool_address (permit2_addr config) chain (rpc_url config)
    BLOCK_POLLING_INTERVAL) f_darkpool);
  chain_id ← as_error OnChain (ask FChainId f_chain_id);
  base_provider ← as_error OnChain (ask (FConnectWs (ws_rpc_url config)) f_connect_ws);
  gas_sponsor_address ← lift (get_gas_sponsor_address chain);
  gas_sponsor_address_v2 ← lift (get_gas_sponsor_address_v2 chain);
  let max_refill := default (cli_max_gas_refill_amount cli_args) (max_gas_refill_amount config) in
  let max_withdrawal := default (cli_max_gas_withdrawal_amount cli_args) (max_gas_withdrawal_amount config) in
  let top_up := default DEFAULT_TOP_UP_AMOUNT (gas_top_up_amount config) in
  let tolerance := default GasWallets.DEFAULT_GAS_REFILL_TOLERANCE (gas_refill_tolerance config) in
  custody_client ← new_custody_client chain chain_id api_key api_secret base_provider db_pool
    gas_sponsor_address gas_sponsor_address_v2 price_reporter max_refill max_withdrawal top_up tolerance;
  quoter_hot_wallet ← on_chain (ask (FGetQuoterHotWallet chain) f_quoter_wallet);
  quoter_key ← on_chain (ask (FGetHotWalletPrivateKey quoter_hot_wallet) f_private_key);
  let execution_client := new_execution_client chain (lifi_api_key config) (bebop_api_key config) base_provider
    price_reporter quoter_key (max_price_deviations config) in
  let metrics_recorder := mk_recorder _ price_reporter base_provider chain in
  (* the keys of the fee indexer are parsed, and not used *)
  _ ← of_sum ParseError (decryption_key_from_hex (relayer_decryption_key config));
  _ ← match protocol_decryption_key config with
    | Some key => _ ← of_sum ParseError (decryption_key_from_hex key); mret tt
    | None => mret tt
    end;
  mret (mk_clients _ custody_client execution_client metrics_recorder).

(** ** server.rs *)
Record Server := mk_server {
  server_environment : Environment;
  server_hmac_key : option HmacKey;
  chain_clients : list (Chain * ChainClients);
  price_reporter : PriceClient;
}.
(** The errors that [build_from_cli] boxes. *)
Inductive BoxError := BFunds (e : FundsManagerError) | BPrice (e : PriceReporterClientError) | BText (msg : string).

Fixpoint setup_remaps (chains : list Chain) : run BoxError unit :=
  match chains with
  | [] => mret tt
  | c :: chains => _ ← as_error BText (ask (FSetupTokenRemaps c) f_remaps); setup_remaps chains
  end.
(** [HashMap::insert] *)
Fixpoint insert_client {A} (c : Chain) (x : A) (m : list (Chain * A)) : list (Chain * A) :=
  match m with
  | [] => [(c, x)]
  | (c', y) :: m => if decide (c' = c) then (c, x) :: m else (c', y) :: insert_client c x m
  end.
Fixpoint lookup_client {A} (c : Chain) (m : list (Chain * A)) : option A :=
  match m with
  | [] => None
  | (c', y) :: m => if decide (c' = c) then Some y else lookup_client c m
  end.
Fixpoint build_all (args : Cli) (db_pool : DbPool) (prices : PriceClient)
    (configs : list (Chain * ChainConfig)) (acc : list (Chain * ChainClients))
    : run BoxError (list (Chain * ChainClients)) :=
  match configs with
  | [] => mret acc
  | (chain, config) :: configs =>
      clients ← as_error BFunds (build_clients config chain (fireblocks_api_key args)
        (fireblocks_api_secret args) db_pool prices args);
      build_all args db_pool prices configs (insert_client chain clients acc)
  end.
Definition build_from_cli (args : Cli) : run BoxError Server :=
  chain_configs ← as_error BFunds (parse_chain_configs args);
  _ ← setup_remaps (map fst chain_configs);
  prices ← as_error BPrice (ask (FNewPriceClient (price_reporter_url args)) f_price_client);
  key ← get_hmac_key args;
  db_pool ← as_error (fun e => BFunds (Db e)) (ask (FBuildDbPool (db_url args)) f_db_pool);
  clients ← build_all args db_pool prices chain_configs [];
  mret (mk_server (environment args) key clients prices).

Definition get_custody_client (show_chain : Chain -> string) (s : Server) (c : Chain) : res FundsManagerError CustodyClient :=
  get_client show_chain (fun c => custody_client <$> lookup_client c (chain_clients s)) "custody client" c.
Definition get_execution_client (show_chain : Chain -> string) (s : Server) (c : Chain) : res FundsManagerError ExecutionClient :=
  get_client show_chain (fun c => execution_client <$> lookup_client c (chain_clients s)) "execution client" c.
Definition get_metrics_recorder (show_chain : Chain -> string) (s : Server) (c : Chain) : res FundsManagerError MetricsRecorder :=
  get_client show_chain (fun c => metrics_recorder <$> lookup_client c (chain_clients s)) "metrics recorder" c.

(** ** main.rs *)
Definition async_main (cli : Cli) : run BoxError unit :=
  _ ← lift (map_err BText (validate cli));
  _ ← as_error BFunds (configure_telemetry cli);
  server ← build_from_cli cli;
  modify (fun h => h ++ [FServe (port cli)]).
End Build.

(** ** helpers.rs: balances and other helpers *)
Section Balances.
(** Addresses, the units of a balance and decimals are the libraries'. *)
Context (parse_address : string -> string + Z) (format_units : Z -> Z -> string + string)
  (parse_f64 : string -> string + f64)
  (balance_of : Z -> Z -> res string Z) (decimals : Z -> res string Z) (get_balance : Z -> res string Z).
Definition result_of {A} (f : string -> FundsManagerError) (x : string + A) : res FundsManagerError A :=
  match x with inl e => Err (f e) | inr a => Ok a end.

Definition get_erc20_balance_raw (token_address address : string) : res FundsManagerError Z :=
  token ← result_of ParseError (parse_address token_address);
  addr ← result_of ParseError (parse_address address);
  map_err OnChain (balance_of token addr).
Definition get_erc20_balance (token_address address : string) : res FundsManagerError f64 :=
  token ← result_of ParseError (parse_address token_address);
  addr ← result_of ParseError (parse_address address);
  decimals ← map_err OnChain (decimals token);
  balance ← map_err OnChain (balance_of token addr);
  bal_str ← result_of ParseError (format_units balance decimals);
  result_of ParseError (parse_f64 bal_str).
Definition get_ether_balance (address : string) : res FundsManagerError f64 :=
  addr ← result_of ParseError (parse_address address);
  balance ← map_err OnChain (get_balance addr);
  balance_str ← result_of ParseError (format_units balance 18);
  result_of ParseError (parse_f64 balance_str).

(** The sponsors of a chain, as the text of their addresses. *)
Definition gas_sponsor_addresses `{FundsTypes} (show_address : Z -> string) (c : CustodyClient) : list string :=
  [show_address (cc_gas_sponsor_address c); show_address (cc_gas_sponsor_address_v2 c)].
Definition get_signing_provider `{FundsTypes} (c : CustodyClient) (w : PrivateKeySigner) : provider :=
  build_provider (cc_base_provider c) (Some w).
Definition get_basic_provider `{FundsTypes} (c : CustodyClient) : provider := build_provider (cc_base_provider c) None.
End Balances.

(** Headers that the other version of the library refuses are skipped. *)
Definition convert_headers (valid_name valid_value : string -> bool) (hs : headers) : headers :=
  List.filter (fun h => valid_name h.1 && valid_value h.2) hs.

(** [round_up], over the decimals of a library: away from zero. *)
Class Decimals := {
  decimal : Type;
  from_f64 : f64 -> option decimal;
  to_f64 : decimal -> option f64;
  with_scale_round_up : Z -> decimal -> decimal;
}.
Definition round_up `{Decimals} (value : f64) (decimals : Z) : res FundsManagerError f64 :=
  d ← ok_or (from_f64 value) (Conversion "Failed to convert to a bigdecimal");
  ok_or (to_f64 (with_scale_round_up decimals d)) (Conversion "Failed to convert to a f64").

(** ** health_snapshot.rs *)
Definition HEALTH_SNAPSHOT_INTERVAL : Z := 30.
Section Snapshot.
Context (show : Z -> string).
Local Open Scope string_scope.
Definition emit_snapshot (now : Z) (l : FireblocksLimiter) : Logging.event * FireblocksLimiter :=
  let '(fb, l') := snapshot_and_reset now l in
  let cooldown_suffix :=
    if (st_cooldown_remaining_ms fb >? 0)%Z then " cooldown_ms=" +:+ show (st_cooldown_remaining_ms fb) else "" in
  (funds_log_task FundsHealthSnapshot OutcomeOk
     [("fb_bucket", show (st_bucket fb)); ("fb_capacity", show (st_capacity fb));
      ("fb_cooldown_ms", show (st_cooldown_remaining_ms fb)); ("fb_consecutive_429s", show (st_consecutive_429s fb));
      ("fb_throttled_window", show (st_throttled_window fb)); ("fb_acquired_window", show (st_acquired_window fb));
      ("fb_peak_wait_ms_window", show (st_peak_wait_ms_window fb))]
     ("fb={bucket=" +:+ show (st_bucket fb) +:+ "/" +:+ show (st_capacity fb) +:+
      " throttled=" +:+ show (st_throttled_window fb) +:+ "/" +:+ show (st_acquired_window fb) +:+
      " peak_wait_ms=" +:+ show (st_peak_wait_ms_window fb) +:+
      " consecutive_429s=" +:+ show (st_consecutive_429s fb) +:+ cooldown_suffix +:+ "}"),
   l').
(** The loop at the ticks of the interval, with what the rest of the process does to
    the limiter before each: the first tick is skipped. *)
Fixpoint snapshots (ticks : list (Z * (FireblocksLimiter -> FireblocksLimiter))) (l : FireblocksLimiter)
    : list Logging.event * FireblocksLimiter :=
  match ticks with
  | [] => ([], l)
  | (now, work) :: ticks =>
      let '(ev, l) := emit_snapshot now (work l) in
      let '(evs, l) := snapshots ticks l in (ev :: evs, l)
  end.
Definition spawn_health_snapshot_task (ticks : list (Z * (FireblocksLimiter -> FireblocksLimiter)))
    (l : FireblocksLimiter) : list Logging.event * FireblocksLimiter :=
  match ticks with
  | [] => ([], l)
  | (_, work) :: ticks => snapshots ticks (work l)
  end.
End Snapshot.

(** ** relayer_client.rs *)
Definition SIG_EXPIRATION_BUFFER_MS : Z := 5000.
Record RelayerClient := mk_relayer { base_url : string; relayer_chain : Chain }.
Inductive http_method := HGet | HPost.
(** A request as it is sent; the body of a [GET] is empty. *)
Record http_request := mk_http { hr_method : http_method; hr_url : string; hr_headers : headers; hr_body : string }.

Section Relayer.
Context {HmacKey Req Resp : Type}.
(** The names of the two headers, the signature over path, headers and body, its
    encoding, and the texts are the libraries'; [send] answers a request with a status
    and the text of the body, or fails. *)
Context (AUTH_HEADER EXPIRATION_HEADER : string)
  (create_request_signature : string -> headers -> string -> HmacKey -> string) (b64_encode : string -> string)
  (show : Z -> string) (valid_name valid_value : string -> bool)
  (serialize : Req -> string + string) (deserialize : string -> string + Resp)
  (client_built : bool) (send : http_request -> res string (Z * res string string)).

Definition relayer_client_new (base_url : string) (chain : Chain) : RelayerClient := mk_relayer base_url chain.
Definition header_insert (name value : string) (hs : headers) : headers :=
  (List.filter (fun h => negb (String.eqb h.1 name)) hs ++ [(name, value)])%list.
Definition add_expiring_auth_to_headers (now_ms : Z) (path : string) (hs : headers) (body : string) (key : HmacKey)
    (expiration_ms : Z) : headers :=
  let expiration_ts := uadd 64 now_ms expiration_ms in
  let hs := header_insert EXPIRATION_HEADER (show expiration_ts) hs in
  let sig := create_request_signature path (convert_headers valid_name valid_value hs) body key in
  header_insert AUTH_HEADER (b64_encode sig) hs.

Definition reqwest_client : res FundsManagerError unit :=
  if client_built then Ok tt else Err (CustomError "Failed to create reqwest client").
Definition is_success (status : Z) : bool := (200 <=? status) && (status <? 300).
(** The text of a failed reply is unwrapped. *)
Definition post_relayer_with_headers (c : RelayerClient) (path : string) (body : Req) (hs : headers)
    : res FundsManagerError Resp :=
  _ ← reqwest_client;
  b ← result_of HttpError (serialize body);
  resp ← map_err HttpError (send (mk_http HPost (base_url c +:+ path)%string hs b));
  if negb (is_success resp.1) then
    match resp.2 with
    | Ok text => Err (HttpError ("Failed to send request: " +:+ show resp.1 +:+ ", " +:+ text)%string)
    | _ => Panic
    end
  else
    text ← map_err ParseError resp.2;
    result_of ParseError (deserialize text).
Definition post_relayer (c : RelayerClient) (path : string) (body : Req) : res FundsManagerError Resp :=
  post_relayer_with_headers c path body [].
Definition post_relayer_with_auth (now_ms : Z) (c : RelayerClient) (path : string) (body : Req) (key : HmacKey)
    : res FundsManagerError Resp :=
  body_ser ← result_of CustomError (serialize body);
  post_relayer_with_headers c path body
    (add_expiring_auth_to_headers now_ms path [] body_ser key SIG_EXPIRATION_BUFFER_MS).
Definition get_relayer_with_headers (c : RelayerClient) (path : string) (hs : headers) : res FundsManagerError Resp :=
  _ ← reqwest_client;
  resp ← map_err HttpError (send (mk_http HGet (base_url c +:+ path)%string hs ""));
  if negb (is_success resp.1) then Err (HttpError ("Failed to get relayer path: " +:+ show resp.1)%string)
  else
    text ← map_err ParseError resp.2;
    result_of ParseError (deserialize text).
Definition get_relayer (c : RelayerClient) (path : string) : res FundsManagerError Resp :=
  get_relayer_with_headers c path [].
Definition get_relayer_with_auth (now_ms : Z) (c : RelayerClient) (path : string) (key : HmacKey)
    : res FundsManagerError Resp :=
  get_relayer_with_headers c path (add_expiring_auth_to_headers now_ms path [] "" key SIG_EXPIRATION_BUFFER_MS).
End Relayer.

(** ** Lemmas *)
Section Facts.
Context {FT : FundsTypes} {FL : FundsLib}.

Lemma as_error_Ok {E F A} (f : E -> F) (m : eff (list fcall) E A) h a h' :
  as_error f m h = (Ok a, h') -> m h = (Ok a, h').
Proof. unfold as_error. destruct (m h) as [r h1]. intros [= Hr ->]. by rewrite (map_err_Ok _ _ _ Hr). Qed.

Lemma lookup_insert_client {A} c c' (x : A) m :
  lookup_client c (insert_client c' x m) = if decide (c' = c) then Some x else lookup_client c m.
Proof.
  induction m as [|[d y] m IH]; cbn; [done|].
  destruct (decide (d = c')) as [->|Hd]; cbn; repeat case_decide; congruence.
Qed.

(** The clients of a chain are for that chain, on one provider and one price reporter;
    the swaps of every venue are signed by the quoter's hot wallet. *)
Definition clients_for (args : Cli) (prices : PriceClient) (config : ChainConfig) (c : Chain) (cl : ChainClients) : Prop :=
  let cc := custody_client cl in let ec := execution_client cl in
  cc_chain cc = c /\ ec_chain ec = c /\ mr_chain (metrics_recorder cl) = c /\
  cc_price_reporter cc = prices /\ ec_price_reporter ec = prices /\ mr_price_reporter (metrics_recorder cl) = prices /\
  base (ec_rpc_provider ec) = cc_base_provider cc /\ wallet (ec_rpc_provider ec) = None /\
  get_gas_sponsor_address (E := unit) c = Ok (cc_gas_sponsor_address cc) /\
  get_gas_sponsor_address_v2 (E := unit) c = Ok (cc_gas_sponsor_address_v2 cc) /\
  cc_max_gas_refill_amount cc = default (cli_max_gas_refill_amount args) (max_gas_refill_amount config) /\
  cc_max_gas_withdrawal_amount cc = default (cli_max_gas_withdrawal_amount args) (max_gas_withdrawal_amount config) /\
  exists k, ec_hot_wallet_address ec = signer_address k /\
    Forall (fun v => vn_wallet v = k /\ vn_chain v = c)
      [lifi (ec_venues ec); cowswap (ec_venues ec); bebop (ec_venues ec)].

Lemma build_clients_Ok config chain key secret db prices args h cl h' :
  build_clients config chain key secret db prices args h = (Ok cl, h') ->
  clients_for args prices config chain cl.
Proof.
  unfold build_clients, new_custody_client. intros H.
  repeat match type of H with (_ ≫= _) _ = (Ok _, _) => apply eff_bind_Ok in H as (? & ? & ? & H) end.
  injection H as <- _.
  repeat match goal with
  | Hm : (_ ≫= _) _ = (Ok _, _) |- _ => apply eff_bind_Ok in Hm as (? & ? & ? & Hm)
  | Hm : mret (mk_custody _ _ _ _ _ _ _ _ _ _ _ _ _) _ = _ |- _ => injection Hm as <- _
  | Hm : lift _ _ = (Ok _, _) |- _ => apply lift_Ok in Hm as [? ->]
  end.
  unfold clients_for; cbn; split_and!; try done;
    try (destruct chain; cbn in *; congruence).
  eexists. split; [done|]. repeat constructor.
Qed.

Lemma build_all_Ok args db prices configs acc h cls h' :
  build_all args db prices configs acc h = (Ok cls, h') -> NoDup (map fst configs) ->
  forall c, match lookup_client c configs with
    | Some config => exists cl, lookup_client c cls = Some cl /\ clients_for args prices config c cl
    | None => lookup_client c cls = lookup_client c acc
    end.
Proof.
  revert acc h. induction configs as [|[chain config] configs IH]; intros acc h; cbn; [by intros [= <- _]|].
  intros (cl & h1 & Hb & H)%eff_bind_Ok [Hn Hnd]%NoDup_cons c.
  apply as_error_Ok, build_clients_Ok in Hb. specialize (IH _ _ H Hnd c).
  destruct (decide (chain = c)) as [->|Hne].
  - assert (lookup_client c configs = None) as Hl.
    { clear -Hn. induction configs as [|[d y] configs IH]; cbn in *; [done|].
      case_decide as Hd; subst; [by destruct Hn; left|]. apply IH. intros ?. apply Hn. by right. }
    rewrite Hl in IH. exists cl. split; [|done]. rewrite IH, lookup_insert_client. by rewrite decide_True.
  - rewrite lookup_insert_client, decide_False in IH by done. done.
Qed.
End Facts.

(** ** Theorems *)

(** Toy libraries for concrete runs. *)
#[local] Instance toy_funds_types : FundsTypes := {| DynProvider := unit; DbPool := unit; PriceClient := unit;
  FireblocksApi := unit; HmacKey := string; PrivateKeySigner := Z; DecryptionKey := string |}.
Definition toy_config : ChainConfig :=
  mk_chain_config "relayer" "dk" "rpc" "ws" None None None [] 1 None (Some f1) None None.
#[local] Instance toy_funds_lib : FundsLib := {|
  f_telemetry _ := Ok tt; f_s3 _ := Ok "configs"%string; f_read_file _ := Ok "configs"%string;
  f_parse_configs _ := inr [(ArbitrumOne, toy_config); (BaseMainnet, toy_config)];
  f_remaps _ := Ok tt; f_price_client _ := Ok tt; f_db_pool _ := Ok tt; f_darkpool _ := Ok tt;
  f_chain_id _ := Ok 42161; f_connect_ws _ := Ok tt; f_fireblocks _ := Ok tt; f_quoter_wallet _ := Ok "0x1"%string;
  f_private_key _ := Ok 77; signer_address k := k + 1; hmac_from_hex := Some; decryption_key_from_hex := inr |}.
Definition toy_funds_cli (key : option string) (disable : bool) : Cli :=
  mk_cli key disable Testnet "prices" (Some "bucket"%string) None "db" "k" "s" 3000 (of_Z 1) (of_Z 2) false false false "127.0.0.1" 8125.

(** A server that was built has, for every configured chain, a custody client, an
    execution client and a metrics recorder of that chain on one price reporter, with
    the limits of the chain's configuration or those of the command line; for any
    other chain it has an error. *)
Theorem server_has_configured_chains {FT : FundsTypes} {FL : FundsLib} show_chain args h s h' configs h1 :
  parse_chain_configs args h = (Ok configs, h1) -> NoDup (map fst configs) ->
  build_from_cli args h = (Ok s, h') ->
  forall c, match lookup_client c configs with
    | Some config => exists cl, clients_for args (price_reporter s) config c cl /\
        get_custody_client show_chain s c = Ok (custody_client cl) /\
        get_execution_client show_chain s c = Ok (execution_client cl) /\
        get_metrics_recorder show_chain s c = Ok (metrics_recorder cl)
    | None => exists m1 m2 m3, get_custody_client show_chain s c = Err (CustomError m1) /\
        get_execution_client show_chain s c = Err (CustomError m2) /\
        get_metrics_recorder show_chain s c = Err (CustomError m3)
    end.
Proof.
  intros Hp Hnd Hb c. unfold build_from_cli in Hb.
  apply eff_bind_Ok in Hb as (configs' & h2 & Hc%as_error_Ok & Hb). rewrite Hp in Hc. injection Hc as <- <-.
  repeat match type of Hb with (_ ≫= _) _ = (Ok _, _) => apply eff_bind_Ok in Hb as (? & ? & ? & Hb) end.
  injection Hb as <- _.
  match goal with H : build_all _ _ _ _ _ _ = _ |- _ => pose proof (build_all_Ok _ _ _ _ _ _ _ _ H Hnd c) as Hall end.
  unfold get_custody_client, get_execution_client, get_metrics_recorder, get_client. cbn [chain_clients price_reporter].
  destruct (lookup_client c configs) as [config|].
  - destruct Hall as (cl & -> & Hcl). exists cl. done.
  - rewrite Hall. do 3 eexists. done.
Qed.

Lemma server_has_configured_chains_witness :
  exists s, (build_from_cli (toy_funds_cli None true) []).1 = Ok s /\
  exists cl, get_custody_client (fun _ => "chain"%string) s BaseMainnet = Ok (custody_client cl) /\
    cc_max_gas_withdrawal_amount (custody_client cl) = f1.
Proof.
  destruct (build_from_cli (toy_funds_cli None true) []) as [r h'] eqn:Hb.
  assert (match r with Ok _ => True | _ => False end) as Hr.
  { change r with (r, h').1. rewrite <- Hb. vm_compute. exact I. }
  destruct r as [s| |]; [|done..]. exists s. split; [done|].
  destruct (server_has_configured_chains (FT := toy_funds_types) (FL := toy_funds_lib) (fun _ => "chain"%string) (toy_funds_cli None true) [] s h'
    [(ArbitrumOne, toy_config); (BaseMainnet, toy_config)] [FFetchS3 "bucket" "chain_configs.json"]
    eq_refl ltac:(repeat constructor; rewrite ?list_elem_of_In; cbn; intuition congruence) Hb BaseMainnet)
    as (cl & Hcl & Hc & _). exists cl. split; [done|]. by destruct Hcl as (_ & _ & _ & _ & _ & _ & _ & _ & _ & _ & _ & Hw & _).
Defined.

(** The process serves requests without authentication only when it was asked to: if
    it gets as far as serving, its configuration was valid, and either there is a key,
    which parses, or authentication was disabled by its flag. *)
Theorem auth_disabled_only_on_request {FT : FundsTypes} {FL : FundsLib} cli h h' :
  async_main cli h = (Ok tt, h') ->
  exists s h1 h2, build_from_cli cli h1 = (Ok s, h2) /\ h' = (h2 ++ [FServe (port cli)])%list /\
    match server_hmac_key s with
    | Some k => exists key, hmac_key cli = Some key /\ hmac_from_hex key = Some k
    | None => hmac_key cli = None /\ disable_auth cli = true
    end /\
    (is_Some (chain_configs_bucket cli) \/ is_Some (chain_configs_path cli)).
Proof.
  unfold async_main. intros ([] & h0 & [Hv%map_err_Ok ->]%lift_Ok & H)%eff_bind_Ok.
  apply eff_bind_Ok in H as (u & h1 & _ & H). apply eff_bind_Ok in H as (s & h2 & Hb & [= <-]).
  exists s, h1, h2. split; [done|]. split; [done|].
  unfold build_from_cli in Hb. apply eff_bind_Ok in Hb as (cfgs & h3 & _ & Hb).
  apply eff_bind_Ok in Hb as (u1 & h4 & _ & Hb). apply eff_bind_Ok in Hb as (pr & h5 & _ & Hb).
  apply eff_bind_Ok in Hb as (key & h6 & Hk & Hb). apply eff_bind_Ok in Hb as (db & h7 & _ & Hb).
  apply eff_bind_Ok in Hb as (cls & h8 & _ & [= <- _]). cbn [server_hmac_key].
  unfold validate in Hv. unfold get_hmac_key in Hk. split.
  - destruct (hmac_key cli) as [k|].
    + apply eff_bind_Ok in Hk as (k' & h9 & [Hk' ->]%lift_Ok & [= <- _]).
      exists k. split; [done|]. by destruct (hmac_from_hex k); simplify_eq/=.
    + injection Hk as <- _. by destruct (disable_auth cli).
  - destruct (hmac_key cli), (disable_auth cli), (chain_configs_bucket cli), (chain_configs_path cli); eauto; done.
Qed.

Lemma auth_disabled_only_on_request_witness :
  exists s h1 h2, build_from_cli (toy_funds_cli None true) h1 = (Ok s, h2) /\
    match server_hmac_key s with Some _ => False | None => True end.
Proof.
  destruct (async_main (toy_funds_cli None true) []) as [r h'] eqn:Hm.
  assert (r = Ok tt) as ->. { change r with (r, h').1. rewrite <- Hm. vm_compute. reflexivity. }
  destruct (auth_disabled_only_on_request (toy_funds_cli None true) [] h' Hm) as (s & h1 & h2 & Hb & _ & Hk & _).
  exists s, h1, h2. split; [done|]. destruct (server_hmac_key s); [|done]. by destruct Hk as (? & ? & _).
Defined.

(** The contracts of a chain: each has its own darkpool, and the two gas sponsors of a
    chain differ and are not the zero address; but on Ethereum mainnet all three are
    placeholders, the zero address. *)
Theorem contract_addresses c :
  match c with
  | Devnet => get_darkpool_address (E := unit) c = Panic
  | EthereumMainnet =>
      get_darkpool_address (E := unit) c = Ok 0 /\ get_gas_sponsor_address (E := unit) c = Ok 0 /\
      get_gas_sponsor_address_v2 (E := unit) c = Ok 0
  | _ => exists d s s2, get_darkpool_address (E := unit) c = Ok d /\ get_gas_sponsor_address (E := unit) c = Ok s /\
      get_gas_sponsor_address_v2 (E := unit) c = Ok s2 /\ NoDup [0; d; s; s2] /\
      (forall c', get_darkpool_address (E := unit) c' = Ok d -> c' = c) /\
      Forall (in_u 160) [d; s; s2]
  end.
Proof.
  destruct c; try (by split_and!); try done;
    (do 3 eexists; split_and!; [reflexivity..| | |];
      [by apply (bool_decide_unpack _); vm_compute
      |intros []; vm_compute; congruence
      |repeat constructor; vm_compute; congruence]).
Qed.

(** A request to the relayer with the wallet's authentication: when it is answered, what
    was sent expires five seconds after it was made, and its signature covers the
    path, the expiration and the very body that was sent. *)
Theorem relayer_request_signed {HmacKey Req Resp} AUTH EXP sign b64 show vn vv ser deser built send
    now_ms c path (body : Req) (key : HmacKey) (resp : Resp) :
  AUTH <> EXP -> vn EXP = true -> (forall z, vv (show z) = true) ->
  post_relayer_with_auth AUTH EXP sign b64 show vn vv ser deser built send now_ms c path body key = Ok resp ->
  exists rq status text, send rq = Ok (status, Ok text) /\ is_success status = true /\ deser text = inr resp /\
    hr_method rq = HPost /\ hr_url rq = (base_url c +:+ path)%string /\ ser body = inr (hr_body rq) /\
    let expiration := (EXP, show (uadd 64 now_ms 5000)) in
    hr_headers rq = [expiration; (AUTH, b64 (sign path [expiration] (hr_body rq) key))].
Proof.
  intros Hne Hvn Hvv. unfold post_relayer_with_auth, post_relayer_with_headers, reqwest_client.
  destruct (ser body) as [e|b] eqn:Hs; [done|]. destruct built; [|done].
  cbn -[add_expiring_auth_to_headers].
  assert (forall b', add_expiring_auth_to_headers AUTH EXP sign b64 show vn vv now_ms path [] b' key SIG_EXPIRATION_BUFFER_MS =
    [(EXP, show (uadd 64 now_ms 5000)); (AUTH, b64 (sign path [(EXP, show (uadd 64 now_ms 5000))] b' key))]) as Hh.
  { intros b'. unfold add_expiring_auth_to_headers, header_insert, convert_headers, SIG_EXPIRATION_BUFFER_MS. cbn.
    rewrite Hvn, Hvv. cbn. destruct (String.eqb_spec EXP AUTH); [congruence|done]. }
  rewrite Hh. match goal with |- context [send ?r] => destruct (send r) as [[status text]|e|] eqn:Hsend end; cbn; [|done..].
  destruct (is_success status) eqn:Hst; cbn; [|by destruct text].
  destruct text as [text|e|]; cbn; [|done..]. destruct (deser text) as [e|x] eqn:Hd; cbn; [done|].
  intros [= ->]. eexists _, status, text. split_and!; [exact Hsend|done..].
Qed.

Lemma relayer_request_signed_witness :
  exists rq, hr_url rq = "http://relayer/v0/x"%string /\ hr_body rq = "body"%string.
Proof.
  destruct (relayer_request_signed (HmacKey := unit) "auth" "exp" (fun _ _ _ _ => "sig"%string) id (fun _ => "1"%string)
    (fun _ => true) (fun _ => true) (fun b : string => inr b) (fun t : string => inr t) true
    (fun r => Ok (200, Ok (hr_url r))) 7 (mk_relayer "http://relayer" ArbitrumOne) "/v0/x" "body"%string tt "http://relayer/v0/x"%string)
    as (rq & st & text & _ & _ & _ & _ & Hu & Hb & _); [done|done|done|reflexivity|].
  exists rq. split; [exact Hu|]. injection Hb as Hb. done.
Defined.

(** A snapshot reports the counters of its window and starts a new one; the tokens, the
    cooldown and the count of refusals are left; and there is one line per tick of the
    interval but the first. *)
Theorem snapshots_report_windows show now l ticks :
  let '(ev, l') := emit_snapshot show now l in
  (("fb_acquired_window", show (acquired_window l)) ∈ ev_fields ev)%string /\
  (("fb_throttled_window", show (throttled_window l)) ∈ ev_fields ev)%string /\
  acquired_window l' = 0 /\ throttled_window l' = 0 /\ peak_wait_ms_window l' = 0 /\
  permits l' = permits l /\ cooldown_until l' = cooldown_until l /\ consecutive_429s l' = consecutive_429s l /\
  length (spawn_health_snapshot_task show ticks l).1 = pred (length ticks).
Proof.
  destruct (emit_snapshot show now l) as [ev l'] eqn:He.
  unfold emit_snapshot, snapshot_and_reset in He. injection He as <- <-.
  cbn. split_and!; try done; try (rewrite list_elem_of_In; cbn; tauto).
  assert (forall ts l, length (snapshots show ts l).1 = length ts) as Hs.
  { clear. intros ts. induction ts as [|[now work] ts IH]; intros l; cbn; [done|].
    specialize (IH (snapshot_and_reset now (work l)).2). unfold snapshot_and_reset in *. cbn in *.
    destruct (snapshots show ts _) as [evs l2]. cbn in *. by rewrite IH. }
  destruct ticks as [|[t work] ticks]; cbn; [done|]. by rewrite Hs.
Qed.
