(* ===== verification/SolverServer.v ===== *)
(** * The server of the solver (renegade-solver/src: main.rs, cli.rs, error.rs,
    uniswapx/mod.rs, uniswapx/executor_client/, uniswapx/uniswap_api/)

    What surrounds the solver of [Uniswapx]: the command line, the executor client that
    submits transactions, the map of supported tokens, the request for open orders
    and the types of its answer, and the process that ties them together. *)
From Stdlib Require Import ZArith Lia Ascii.
From stdpp Require Import gmap strings list.
From S2P Require Import Prelude AuthError Uniswapx Warp.
Import Uniswapx.Solver.
Local Open Scope Z_scope.

(** ** cli.rs *)
Definition DEFAULT_METRICS_PREFIX : string := "renegade-solver".
Definition DEFAULT_OTLP_COLLECTOR_ENDPOINT : string := "http://localhost:4317".
Definition DEFAULT_STATSD_HOST : string := "127.0.0.1".
Definition DEFAULT_STATSD_PORT : Z := 8125.

Record Cli := mk_cli {
  uniswapx_url : string;
  price_reporter_url : string;
  renegade_api_key : string;
  renegade_api_secret : string;
  chain_id : Chain;
  contract_address : string;
  rpc_url : string;
  private_key : string;
  port : Z;
  datadog_enabled : bool;
  otlp_enabled : bool;
  metrics_enabled : bool;
}.
Definition parse_cli (arg : string -> option string) (flag : string -> bool) (parse_u16 : string -> option Z)
    (parse_chain : string -> option Chain) : option Cli :=
  uniswapx_url ← arg "UNISWAPX_URL";
  price_reporter_url ← arg "PRICE_REPORTER_URL";
  renegade_api_key ← arg "RENEGADE_API_KEY";
  renegade_api_secret ← arg "RENEGADE_API_SECRET";
  chain_id ← parse_chain (default "base-mainnet"%string (arg "CHAIN_ID"));
  contract_address ← arg "EXECUTOR_ADDRESS";
  rpc_url ← arg "RPC_URL";
  private_key ← arg "PRIVATE_KEY";
  port ← match arg "--port" with Some p => parse_u16 p | None => Some 3000 end;
  Some (mk_cli uniswapx_url price_reporter_url renegade_api_key renegade_api_secret chain_id contract_address rpc_url
    private_key port (flag "ENABLE_DATADOG") (flag "ENABLE_OTLP") (flag "ENABLE_METRICS")).

(** ** executor_client/errors.rs and mod.rs *)
Inductive ExecutorConfigError := RpcClientInitialization (msg : string) | AddressParsing (msg : string).
Inductive ExecutorError :=
  | Config (e : ExecutorConfigError)
  | ContractInteraction (msg : string)
  | Rpc (msg : string)
  | PendingTransaction (msg : string).

Definition BLOCK_POLLING_INTERVAL : Z := 500.

Section Executor.
(** The parsers of alloy, and the signer a key stands for. *)
Context {Signer Url : Type} (parse_signer : string -> string + Signer) (parse_url : string -> string + Url)
  (parse_address : string -> string + Z).

Record ExecutorConfig := mk_config { cfg_contract_address : string; cfg_rpc_url : string; cfg_private_key : Signer }.
(** A provider over HTTP that signs with the wallet and polls at its interval. *)
Record ExecutorProvider := mk_provider { pv_url : Url; pv_wallet : Signer; pv_poll_interval_ms : Z }.
Record ExecutorClient := mk_client { ec_contract : Z; ec_provider : ExecutorProvider }.

Definition config_result {A} (f : string -> ExecutorConfigError) (x : string + A) : res ExecutorConfigError A :=
  match x with inl e => Err (f e) | inr a => Ok a end.
Definition get_provider (c : ExecutorConfig) : res ExecutorConfigError ExecutorProvider :=
  url ← config_result RpcClientInitialization (parse_url (cfg_rpc_url c));
  Ok (mk_provider url (cfg_private_key c) BLOCK_POLLING_INTERVAL).
Definition get_contract_address (c : ExecutorConfig) : res ExecutorConfigError Z :=
  config_result AddressParsing (parse_address (cfg_contract_address c)).
Definition executor_client_new (cli : Cli) : res ExecutorConfigError ExecutorClient :=
  private_key ← config_result AddressParsing (parse_signer (private_key cli));
  let config := mk_config (contract_address cli) (rpc_url cli) private_key in
  provider ← get_provider config;
  contract_address ← get_contract_address config;
  Ok (mk_client contract_address provider).
End Executor.

(** *** Transactions: what was sent, and the receipt *)
Record receipt := mk_receipt { rc_hash : Z; rc_status : bool }.
Section Transactions.
Context {Call : Type} (show_hash : Z -> string).
(** [send] submits a call at a gas price, [get_receipt] waits for it. *)
Context (latest_block : res string (option (option Z))) (send : Call -> Z -> res string Z)
  (get_receipt : Z -> res string receipt).

Definition send_tx (tx : Call) : eff (list (Call * Z)) ExecutorError receipt :=
  gas_price ← lift (map_err Rpc (get_adjusted_gas_price latest_block));
  _ ← modify (fun sent => sent ++ [(tx, gas_price)])%list;
  hash ← lift (map_err ContractInteraction (send tx gas_price));
  r ← lift (map_err ContractInteraction (get_receipt hash));
  if negb (rc_status r) then
    lift (Err (ContractInteraction ("tx (" +:+ show_hash (rc_hash r) +:+ ") failed with status 0")%string))
  else mret r.
End Transactions.

(** *** contract_interaction.rs: the call of the settlement *)
Record settle_call (Order Payload Statement Proofs Linking : Type) := mk_settle {
  sc_contract : Z; sc_order : Order; sc_payload : Payload; sc_statement : Statement; sc_proofs : Proofs; sc_linking : Linking }.
Definition execute_atomic_match_settle {Signer Url O P S Pr L} show_hash latest_block send get_receipt
    (c : ExecutorClient (Signer := Signer) (Url := Url)) (order : O) (payload : P) (statement : S) (proofs : Pr) (linking : L)
    : eff (list (settle_call O P S Pr L * Z)) ExecutorError receipt :=
  r ← send_tx show_hash latest_block send get_receipt
    (mk_settle O P S Pr L (ec_contract c) order payload statement proofs linking);
  mret r.

(** ** uniswapx/mod.rs: the supported tokens *)
Definition NATIVE_ETH_SYMBOL : string := "ETH".
(** [bimap::BiMap]: an insertion removes the pairs that share a side with it. *)
Definition bimap : Type := list (Address * string).
Definition bimap_insert (a : Address) (s : string) (m : bimap) : bimap :=
  (a, s) :: filter (fun p => p.1 <> a /\ p.2 <> s) m.
Definition contains_left (a : Address) (m : bimap) : bool := bool_decide (a ∈ map fst m).
Definition get_by_right (s : string) (m : bimap) : option Address :=
  fst <$> head (filter (fun p => p.2 = s) m).

Record api_token := mk_token { token_address : string; token_symbol : string }.
Fixpoint insert_tokens (parse_address : string -> string + Address) (tokens : list api_token) (m : bimap)
    : res SolverError bimap :=
  match tokens with
  | [] => Ok m
  | t :: tokens =>
      match parse_address (token_address t) with
      | inl _ => Panic
      | inr addr => insert_tokens parse_address tokens (bimap_insert addr (token_symbol t) m)
      end
  end.
Definition load_supported_tokens (parse_address : string -> string + Address)
    (get_supported_tokens : res SolverError (list api_token)) : res SolverError bimap :=
  let map := bimap_insert 0 NATIVE_ETH_SYMBOL [] in
  tokens ← get_supported_tokens;
  insert_tokens parse_address tokens map.

(** The views that the solver has of the map. *)
Definition supported_set (m : bimap) : gset Address := list_to_set (map fst m).
Definition get_token_address (m : bimap) (symbol : string) : option Address := get_by_right symbol m.

(** ** uniswap_api/methods.rs: the request *)
Definition ORDER_STATUS_PARAM : string := "orderStatus".
Definition CHAIN_ID_PARAM : string := "chainId".
Definition ORDER_TYPE_PARAM : string := "orderType".
Definition ORDER_STATUS_OPEN : string := "open".
Definition CHAIN_ID_BASE : string := "8453".
Definition ORDER_TYPE_PRIORITY : string := "Priority".
Definition get_default_query_params : list (string * string) :=
  [(ORDER_STATUS_PARAM, ORDER_STATUS_OPEN); (CHAIN_ID_PARAM, CHAIN_ID_BASE); (ORDER_TYPE_PARAM, ORDER_TYPE_PRIORITY)].
(** [form_urlencoded::Serializer], with the encoding of a component. *)
Definition append_pair (encode : string -> string) (query : string) (kv : string * string) : string :=
  ((if String.eqb query "" then "" else query +:+ "&") +:+ encode kv.1 +:+ "=" +:+ encode kv.2)%string.
Definition build_request_url (encode : string -> string) (base_url : string) : string :=
  (base_url +:+ "/orders?" +:+ foldl (append_pair encode) "" get_default_query_params)%string.

(** ** uniswap_api/types.rs *)
Inductive OrderType := Dutch | Priority.
Definition order_type_str (t : OrderType) : string := match t with Dutch => "Dutch" | Priority => "Priority" end.
Definition order_type_of (s : string) : option OrderType :=
  if String.eqb s "Dutch" then Some Dutch else if String.eqb s "Priority" then Some Priority else None.
Inductive OrderStatus := Open | Expired | Error | Cancelled | Filled | InsufficientFunds.
Definition order_status_str (t : OrderStatus) : string :=
  match t with
  | Open => "open" | Expired => "expired" | Error => "error" | Cancelled => "cancelled" | Filled => "filled"
  | InsufficientFunds => "insufficient-funds"
  end.
Definition order_status_of (s : string) : option OrderStatus :=
  if String.eqb s "open" then Some Open else if String.eqb s "expired" then Some Expired
  else if String.eqb s "error" then Some Error else if String.eqb s "cancelled" then Some Cancelled
  else if String.eqb s "filled" then Some Filled else if String.eqb s "insufficient-funds" then Some InsufficientFunds
  else None.
(** Bytes that are not an order panic. *)
Definition decode_priority_order {PO} (hex_decode : string -> string + list Z) (abi_decode : list Z -> option PO)
    (o : OrderEntity) : res SolverError PO :=
  match hex_decode (encoded_order o) with
  | inl e => Err (AbiEncoding e)
  | inr bytes => unwrap (abi_decode bytes)
  end.

(** ** error.rs and main.rs *)
Inductive reply := PongJson | ErrorJson (code : Z) (msg : string).
Section Front.
Context `{WarpLib} (show_error : SolverError -> string).
Definition as_solver_error (c : cause SolverError) : option SolverError :=
  match c with Warp.Custom e => Some e | _ => None end.
Definition handle_rejection (err : Rejection SolverError) : res (Rejection SolverError) reply :=
  match find_cause as_solver_error err with
  | Some e => Ok (ErrorJson 500 ("Internal server error: " +:+ show_error e)%string)
  | None => Err err
  end.
Definition ping_handler : route (R := unit) (E := SolverError) (S := unit) (A := reply) :=
  mk_route [Path "ping"; IsGet] (fun _ _ => mret PongJson).
Definition serve (rq : Request unit) : res (Rejection SolverError) reply :=
  match (run_route rq ping_handler tt).1 with Err e => handle_rejection e | r => r end.
End Front.

(** ** The process: everything is unwrapped before the server is started. *)
Section Main.
Context {Signer Url Client PriceClient : Type} (parse_signer : string -> string + Signer) (parse_url : string -> string + Url)
  (parse_address : string -> string + Address).
Context (telemetry : res string unit) (remaps : res string unit) (price_client : string -> res PriceReporterClientError PriceClient)
  (base_mainnet_client : string -> string -> res SolverError Client) (supported_tokens : Client -> res SolverError (list api_token)).

Record UniswapXSolver := mk_solver {
  base_url : string;
  solver_tokens : bimap;
  renegade_client : Client;
  executor_client : ExecutorClient (Signer := Signer) (Url := Url);
  price_reporter_client : PriceClient;
  solver_chain : Chain;
}.
Definition solver_new (cli : Cli) (executor : ExecutorClient) (prices : PriceClient) : res SolverError UniswapXSolver :=
  renegade_client ← base_mainnet_client (renegade_api_key cli) (renegade_api_secret cli);
  tokens ← load_supported_tokens parse_address (supported_tokens renegade_client);
  Ok (mk_solver (uniswapx_url cli) tokens renegade_client executor prices (chain_id cli)).
Definition expect_ok {E A} (r : res E A) : res SolverError A := match r with Ok a => Ok a | _ => Panic end.
(** What is served on the port, and the solver that polls. *)
Definition main (cli : Cli) : res SolverError (Z * UniswapXSolver) :=
  _ ← expect_ok telemetry;
  _ ← expect_ok remaps;
  executor ← expect_ok (executor_client_new parse_signer parse_url parse_address cli);
  prices ← expect_ok (price_client (price_reporter_url cli));
  uniswapx ← expect_ok (solver_new cli executor prices);
  Ok (port cli, uniswapx).
End Main.

(** ** Lemmas on the map of tokens *)
Definition bimap_ok (m : bimap) : Prop := NoDup (map fst m) /\ NoDup (map snd m).

Lemma NoDup_map_filter {A B} (f : A -> B) (P : A -> Prop) `{forall x, Decision (P x)} l :
  NoDup (map f l) -> NoDup (map f (filter P l)).
Proof.
  induction l as [|x l IH]; [done|]. rewrite filter_cons. intros [Hx Hl]%NoDup_cons.
  case_decide; [|by apply IH]. apply NoDup_cons. split; [|by apply IH].
  intros (y & Hy & Hin)%list_elem_of_fmap. apply list_elem_of_filter in Hin as [_ Hin].
  apply Hx. rewrite Hy. apply list_elem_of_fmap. eauto.
Qed.
Lemma bimap_ok_insert a s m : bimap_ok m -> bimap_ok (bimap_insert a s m).
Proof.
  intros [H1 H2]. unfold bimap_insert, bimap_ok. rewrite !map_cons, !NoDup_cons.
  split_and!; auto using NoDup_map_filter;
    intros ([x y] & Hx & [[? ?] _]%list_elem_of_filter)%list_elem_of_fmap; done.
Qed.

Lemma elem_of_bimap_insert a s m p :
  p ∈ bimap_insert a s m <-> p = (a, s) \/ (p ∈ m /\ p.1 <> a /\ p.2 <> s).
Proof. unfold bimap_insert. rewrite elem_of_cons, list_elem_of_filter. tauto. Qed.

Lemma get_by_right_spec m a s : bimap_ok m -> (get_by_right s m = Some a <-> (a, s) ∈ m).
Proof.
  intros [_ Hnd]. unfold get_by_right, bimap in *. split.
  - intros ([x y] & Hh & ->)%fmap_Some. apply head_Some_elem_of, list_elem_of_filter in Hh as [Hs Hin].
    cbn in Hs. by subst.
  - induction m as [|[x y] m IH]; [set_solver|]. cbn in Hnd. apply NoDup_cons in Hnd as [Hy Hm].
    rewrite filter_cons. intros [[= -> ->]|Hin]%elem_of_cons; [by rewrite decide_True|].
    rewrite decide_False; [by apply IH|]. cbn. intros ->. apply Hy, list_elem_of_fmap. by exists (a, s).
Qed.

(** What the insertions do to a map. *)
Lemma insert_tokens_spec parse tokens m m' :
  insert_tokens parse tokens m = Ok m' -> bimap_ok m ->
  exists entries, Forall2 (fun t e => parse (token_address t) = inr e.1 /\ token_symbol t = e.2) tokens entries /\
    bimap_ok m' /\ (forall p, p ∈ m' -> p ∈ m \/ p ∈ entries) /\
    (NoDup (map fst entries) -> NoDup (map snd entries) -> forall p, p ∈ entries -> p ∈ m') /\
    (forall p, p ∈ m -> Forall (fun e : Address * string => p.1 <> e.1 /\ p.2 <> e.2) entries -> p ∈ m').
Proof.
  revert m. induction tokens as [|t tokens IH]; intros m; cbn.
  { intros [= <-] Hm. exists []. split_and!; [constructor|done|auto|set_solver|auto]. }
  destruct (parse (token_address t)) as [e|addr] eqn:Hp; [done|]. intros Hi Hm.
  destruct (IH _ Hi (bimap_ok_insert _ _ _ Hm)) as (es & Hes & Hok & Hfrom & Hin & Hkeep).
  exists ((addr, token_symbol t) :: es). split_and!.
  - by constructor.
  - done.
  - intros p [Hpm|Hpe]%Hfrom; [|set_solver]. apply elem_of_bimap_insert in Hpm as [-> |[? _]]; set_solver.
  - cbn. intros [Ha1 Ha2]%NoDup_cons [Hs1 Hs2]%NoDup_cons p [-> |Hpe]%elem_of_cons; [|by apply Hin].
    apply Hkeep; [apply elem_of_bimap_insert; by left|]. apply Forall_forall. intros [x y] Hxy. cbn.
    split; intros <-; [apply Ha1|apply Hs1]; apply list_elem_of_fmap; by eexists (_, _).
  - intros p Hpm [Hpe Hrest]%Forall_cons. apply Hkeep; [|done]. apply elem_of_bimap_insert. by right.
Qed.

Lemma contains_left_supported a m : contains_left a m = is_token_supported (supported_set m) a.
Proof. unfold contains_left, is_token_supported, supported_set. apply bool_decide_ext. by rewrite elem_of_list_to_set. Qed.

(** ** Theorems *)

(** The tokens of the solver: when the addresses and the symbols of the API are all
    different, and none is the zero address or "ETH", every token is supported under
    its symbol, the native asset at the zero address, and nothing else. *)
Theorem supported_tokens_loaded parse tokens m :
  load_supported_tokens parse (Ok tokens) = Ok m ->
  exists entries, Forall2 (fun t e => parse (token_address t) = inr e.1 /\ token_symbol t = e.2) tokens entries /\
    (NoDup (0 :: map fst entries) -> NoDup (NATIVE_ETH_SYMBOL :: map snd entries) ->
     (forall a s, get_token_address m s = Some a <-> (a, s) = (0, NATIVE_ETH_SYMBOL) \/ (a, s) ∈ entries) /\
     (forall a, is_token_supported (supported_set m) a = true <-> a = 0 \/ a ∈ map fst entries)).
Proof.
  unfold load_supported_tokens. intros Hi. assert (bimap_ok (bimap_insert 0 NATIVE_ETH_SYMBOL [])) as H0.
  { apply bimap_ok_insert. split; constructor. }
  destruct (insert_tokens_spec _ _ _ _ Hi H0) as (es & Hes & Hok & Hfrom & Hin & Hkeep).
  exists es. split; [done|]. intros [Ha1 Ha2]%NoDup_cons [Hs1 Hs2]%NoDup_cons.
  assert (forall p, p ∈ m <-> p = (0, NATIVE_ETH_SYMBOL) \/ p ∈ es) as Hm.
  { intros p. split.
    - intros [Hp|Hp]%Hfrom; [left|by right]. apply elem_of_bimap_insert in Hp as [->|[Hp _]]; [done|set_solver].
    - intros [->|Hp]; [|by apply Hin]. apply Hkeep; [apply elem_of_bimap_insert; by left|].
      apply Forall_forall. intros [x y] Hxy. cbn.
      split; intros <-; [apply Ha1|apply Hs1]; apply list_elem_of_fmap; by eexists (_, _). }
  split.
  - intros a s. unfold get_token_address. by rewrite get_by_right_spec, Hm.
  - intros a. unfold is_token_supported, supported_set. rewrite bool_decide_eq_true, elem_of_list_to_set, !list_elem_of_fmap.
    setoid_rewrite Hm. split.
    + intros ([x y] & -> & [[= -> ->]|Hp]); [by left|right]. by exists (x, y).
    + intros [->|([x y] & -> & Hp)]; [exists (0, NATIVE_ETH_SYMBOL)|exists (x, y)]; auto.
Qed.

Definition toy_parse (s : string) : string + Address :=
  if String.eqb s "0x1" then inr 1 else if String.eqb s "0x2" then inr 2 else inl "bad"%string.
Lemma supported_tokens_loaded_witness :
  exists m, load_supported_tokens toy_parse (Ok [mk_token "0x1" "WETH"; mk_token "0x2" "USDC"]) = Ok m /\
    get_token_address m "USDC" = Some 2.
Proof.
  eexists. split; [reflexivity|].
  destruct (supported_tokens_loaded toy_parse [mk_token "0x1" "WETH"; mk_token "0x2" "USDC"] _ eq_refl)
    as (es & Hes & Hspec).
  inversion Hes as [|? [a1 s1] ? ? [E1 E2] Hes']; subst. inversion Hes' as [|? [a2 s2] ? ? [E3 E4] Hes'']; subst.
  inversion Hes''; subst. cbn in E1, E2, E3, E4. injection E1 as <-. injection E3 as <-. subst.
  destruct Hspec as [Hs _]; [by apply (bool_decide_unpack _); vm_compute..|]. apply Hs.
  right. rewrite list_elem_of_In. cbn. auto.
Defined.

(** A token whose symbol is "ETH" takes the place of the native asset: the zero address
    is no longer supported, so orders that pay in ether are dropped. *)
Theorem native_asset_displaced parse tokens t addr m :
  load_supported_tokens parse (Ok (tokens ++ [t])) = Ok m ->
  token_symbol t = NATIVE_ETH_SYMBOL -> parse (token_address t) = inr addr -> addr <> 0 ->
  Forall (fun t => parse (token_address t) <> inr 0) tokens ->
  is_token_supported (supported_set m) 0 = false.
Proof.
  intros Hl Hs Hp Ha Hts.
  assert (forall m0 m1, insert_tokens parse (tokens ++ [t]) m0 = Ok m1 ->
    exists m2, m1 = bimap_insert addr NATIVE_ETH_SYMBOL m2 /\ forall p, p ∈ m2 -> p.1 = 0 -> p ∈ m0) as Hins.
  { clear Hl. induction tokens as [|x tokens IH]; intros m0 m1; cbn.
    - rewrite Hp, Hs. intros [= <-]. eauto.
    - apply Forall_cons in Hts as [Hx Hts]. destruct (parse (token_address x)) as [e|a] eqn:Hpx; [done|].
      intros (m2 & -> & Hm2)%(IH Hts). exists m2. split; [done|]. intros p Hin H0.
      specialize (Hm2 p Hin H0). apply elem_of_bimap_insert in Hm2 as [->|[? _]]; [|done]. cbn in H0. congruence. }
  destruct (Hins _ _ Hl) as (m2 & -> & Hm2).
  unfold is_token_supported, supported_set. apply bool_decide_eq_false. rewrite elem_of_list_to_set, list_elem_of_fmap.
  intros ([x y] & Hx & Hin). cbn in Hx. subst x. apply elem_of_bimap_insert in Hin as [[= <- _]|(Hin & _ & Hy)]; [done|].
  specialize (Hm2 _ Hin eq_refl). apply elem_of_bimap_insert in Hm2 as [[= ->]|[Hin' _]]; [by cbn in Hy|set_solver].
Qed.

Lemma native_asset_displaced_witness :
  exists m, load_supported_tokens toy_parse (Ok [mk_token "0x2" "USDC"; mk_token "0x1" "ETH"]) = Ok m /\
    is_token_supported (supported_set m) 0 = false.
Proof.
  eexists. split; [reflexivity|].
  apply (native_asset_displaced toy_parse [mk_token "0x2" "USDC"] (mk_token "0x1" "ETH") 1);
    [reflexivity|reflexivity|reflexivity|lia|by repeat constructor].
Defined.

(** A settlement: at most one transaction is sent, at twice the base fee of the latest
    block; none when that is not known; and what is returned is the receipt of a
    transaction that succeeded. *)
Theorem send_tx_spec {Call} show_hash block (send : Call -> Z -> res string Z) get_receipt tx sent :
  let '(r, sent') := send_tx show_hash block send get_receipt tx sent in
  match block with
  | Ok (Some (Some fee)) =>
      sent' = (sent ++ [(tx, umul 64 fee 2)])%list /\
      (forall rc, r = Ok rc -> rc_status rc = true /\
        exists hash, send tx (umul 64 fee 2) = Ok hash /\ get_receipt hash = Ok rc)
  | _ => sent' = sent /\ forall rc, r <> Ok rc
  end.
Proof.
  destruct (send_tx show_hash block send get_receipt tx sent) as [r sent'] eqn:Hs.
  unfold send_tx, mbind, eff_bind, lift, modify, get_adjusted_gas_price in Hs.
  destruct block as [[[fee|]|]|e|]; cbn in Hs; try (injection Hs as <- <-; done).
  destruct (send tx _) as [hash|e|] eqn:Hsend; cbn in Hs; try (injection Hs as <- <-; done).
  destruct (get_receipt hash) as [rc|e|] eqn:Hr; cbn in Hs; try (injection Hs as <- <-; done).
  destruct (rc_status rc) eqn:Hst; cbn in Hs; injection Hs as <- <-; split; try done.
  intros rc' [= <-]. eauto.
Qed.

(** The orders asked for are the open priority orders of Base, whatever chain the
    solver was configured for; an encoder that leaves letters and digits alone
    gives this text. *)
Theorem request_url encode base :
  (forall p, p ∈ get_default_query_params -> encode p.1 = p.1 /\ encode p.2 = p.2) ->
  build_request_url encode base = (base +:+ "/orders?orderStatus=open&chainId=8453&orderType=Priority")%string.
Proof.
  intros He. unfold build_request_url. f_equal.
  assert (forall p, p ∈ get_default_query_params -> forall q, append_pair encode q p = append_pair id q p) as Hp.
  { intros p Hin q. unfold append_pair. by destruct (He p Hin) as [-> ->]. }
  unfold get_default_query_params in *. cbn [foldl].
  rewrite !Hp by (rewrite list_elem_of_In; cbn; tauto). reflexivity.
Qed.
Lemma request_url_witness :
  build_request_url id "https://api" = "https://api/orders?orderStatus=open&chainId=8453&orderType=Priority"%string.
Proof. apply (request_url id "https://api"). done. Defined.

(** Types and statuses of orders are read back from their text, which is what the
    request asks for. *)
Theorem order_kinds_roundtrip t s :
  order_type_of (order_type_str t) = Some t /\ order_status_of (order_status_str s) = Some s /\
  order_status_of ORDER_STATUS_OPEN = Some Open /\ order_type_of ORDER_TYPE_PRIORITY = Some Priority.
Proof. by destruct t, s. Qed.

(** The server answers a ping, and leaves every other request to warp. *)
Theorem solver_serves_ping `{WarpLib} show_error m segs :
  match accepts [Path "ping"; IsGet] m segs with
  | Some _ => serve show_error (mk_req m segs tt) = Ok PongJson
  | None => exists e, serve show_error (mk_req m segs tt) = Err e /\ causes e = refusal [Path "ping"; IsGet] m segs
  end.
Proof.
  unfold serve. destruct (accepts [Path "ping"; IsGet] m segs) as [ps|] eqn:Ha.
  - by rewrite (run_route_hit (mk_req m segs tt) ping_handler ps).
  - destruct (run_route_miss (mk_req m segs tt) ping_handler tt Ha) as (e & -> & Hc). cbn.
    unfold handle_rejection, find_cause. rewrite Hc, misses_cons. cbn [misses map concat]. rewrite app_nil_r.
    cbn [ping_handler r_match rq_method rq_segments].
    assert (omap as_solver_error (refusal [Path "ping"; IsGet] m segs) = []) as ->.
    { cbn. repeat case_match; done. }
    exists e. split; [done|]. rewrite Hc, misses_cons. cbn [misses map concat]. by rewrite app_nil_r.
Qed.
