(* ===== verification/PriceSession.v ===== *)
(** * The connections of the price reporter (price-reporter/src: ws_server.rs, http_server.rs,
    cli.rs)

    A websocket connection is a loop over two sources: the streams the client has
    subscribed to, and its messages.  [PriceServer] models what one message does; here
    is the loop, as a fold over the order in which its sources are ready, with
    everything that is written to the client.  The accept loop of the HTTP server and
    the command line complete the process of [PriceFeeds]. *)
From Stdlib Require Import ZArith Lia Ascii.
From stdpp Require Import gmap strings list.
From S2P Require Import Prelude F64.
From S2P Require PriceReporter Logging.
From S2P Require Import PriceServer PriceFeeds.
Local Open Scope Z_scope.
Import PriceReporter (ServerError(..), ExchangeConnectionError(..), Message(..)).

Abbreviation PriceTopic := (Exchange * Token * Token)%type.
Abbreviation subs := (list (PriceTopic * (nat * option nat))).
Abbreviation streams := PriceReporter.GlobalPriceStreams.

Section Connection.
Context `{TL : TokenLib} (lists_symbol : Exchange -> string -> res ExchangeConnectionError bool)
  (canonical : gmap string Exchange) (decode : string -> option WebsocketMessage).

(** What is written to the client. *)
Inductive frame := PriceMessage (topic : string) (price : f64) | Response (r : ws_reply).

(** The next thing that is ready: a price of a stream or its end, or a message of the
    client, the end of the messages, or an error of the socket.  [sent] is what the
    socket makes of a write. *)
Inductive ready_event :=
  | PriceReady (t : PriceTopic) (price : f64) (sent : res string unit)
  | StreamEnded (t : PriceTopic)
  | Incoming (m : option (res string Message)) (sent : res string unit).

Record session := mk_session {
  subscriptions : subs;
  registry : streams;
  written : list frame;
}.

Inductive status := Listening | Ended (r : res ServerError unit).

(** A write that fails ends the connection. *)
Definition write (f : frame) (sent : res string unit) (s : session) : status * session :=
  match sent with
  | Ok _ => (Listening, mk_session (subscriptions s) (registry s) (written s ++ [f]))
  | Err e => (Ended (Err (WebsocketSend e)), s)
  | Panic => (Ended Panic, s)
  end.

(** One turn of the loop.  Only a stream of the map can be ready; one that has ended
    leaves the map without a word to the client. *)
Definition turn (ev : ready_event) (s : session) : status * session :=
  match ev with
  | PriceReady t price sent =>
      if bool_decide (t ∈ map fst (subscriptions s)) then write (PriceMessage (get_price_topic_str t) price) sent s
      else (Listening, s)
  | StreamEnded t => (Listening, mk_session (sub_remove t (subscriptions s)) (registry s) (written s))
  | Incoming None _ => (Ended (Ok tt), s)
  | Incoming (Some (Ok Close)) _ => (Ended (Ok tt), s)
  | Incoming (Some (Ok m)) sent =>
      match handle_ws_message lists_symbol canonical decode m (subscriptions s, registry s) with
      | (Ok reply, (l, reg)) =>
          let s' := mk_session l reg (written s) in
          match reply with Some r => write (Response r) sent s' | None => (Listening, s') end
      | (Err e, (l, reg)) => (Ended (Err e), mk_session l reg (written s))
      | (Panic, (l, reg)) => (Ended Panic, mk_session l reg (written s))
      end
  | Incoming (Some (Err e)) _ => (Ended (Err (WebsocketReceive e)), s)
  | Incoming (Some Panic) _ => (Ended Panic, s)
  end.
Fixpoint connection_loop (evs : list ready_event) (s : session) : status * session :=
  match evs with
  | [] => (Listening, s)
  | ev :: evs =>
      match turn ev s with
      | (Listening, s') => connection_loop evs s'
      | ended => ended
      end
  end.
(** [handle_connection]: the address of the peer, the handshake, the loop. *)
Definition handle_connection (peer_addr : res string unit) (accepted : res string unit) (evs : list ready_event)
    (reg : streams) : status * session :=
  let s := mk_session [] reg [] in
  match map_err GetPeerAddr peer_addr with
  | Ok _ =>
      match map_err WebsocketConnection accepted with
      | Ok _ => connection_loop evs s
      | Err e => (Ended (Err e), s)
      | Panic => (Ended Panic, s)
      end
  | Err e => (Ended (Err e), s)
  | Panic => (Ended Panic, s)
  end.

(** ** Lemmas *)
Lemma connection_loop_app evs1 evs2 s :
  connection_loop (evs1 ++ evs2) s =
  match connection_loop evs1 s with (Listening, s') => connection_loop evs2 s' | ended => ended end.
Proof.
  revert s. induction evs1 as [|ev evs1 IH]; intros s; cbn; [done|].
  destruct (turn ev s) as [[] s']; [apply IH|done].
Qed.

Definition topics (s : session) : list PriceTopic := (subscriptions s).*1.
(** The topic that a text of the client resolves to. *)
Definition resolve (topic : string) : res ServerError PriceTopic := p ← from_topic topic; topic_of p.
Definition subscribes (t : PriceTopic) (text : string) : Prop :=
  exists topic, decode text = Some (Subscribe topic) /\ resolve topic = Ok t.
Definition unsubscribes (t : PriceTopic) (text : string) : Prop :=
  exists topic, decode text = Some (Unsubscribe topic) /\ resolve topic = Ok t.

(** What a message of the client does to the subscriptions: nothing, or one entry is put
    at the end, or one is taken out. *)
Lemma handle_ws_message_subs m l reg r l' reg' :
  handle_ws_message lists_symbol canonical decode m (l, reg) = (r, (l', reg')) ->
  (l' = l /\ forall text t, m = Text text -> unsubscribes t text -> False) \/
  (exists text t h, m = Text text /\ subscribes t text /\ l' = sub_insert t h l) \/
  (exists text t, m = Text text /\ unsubscribes t text /\ l' = sub_remove t l).
Proof.
  destruct m as [text| |]; cbn; [|by intros [= <- <- <-]; left..].
  destruct (decode text) as [[topic|topic]|] eqn:Hd.
  - intros H. assert (forall t, unsubscribes t text -> False) as Hu by (intros t (? & ? & _); congruence).
    unfold lift, mret, eff_ret, mbind, eff_bind in H. destruct (from_topic topic) as [p|e|] eqn:Hp; cbn in H;
      [|injection H as <- <- <-; left; split; [done|by intros ? ? [= <-]; apply Hu]..].
    destruct (get_or_create_price_stream lists_symbol canonical p reg) as [[h|e|] reg1]; cbn in H;
      [|injection H as <- <- <-; left; split; [done|by intros ? ? [= <-]; apply Hu]..].
    destruct (topic_of p) as [t|e|] eqn:Ht; cbn in H;
      [|injection H as <- <- <-; left; split; [done|by intros ? ? [= <-]; apply Hu]..].
    injection H as <- <- <-. right. left. exists text, t, h. split_and!; [done| |done].
    exists topic. split; [done|]. unfold resolve. by rewrite Hp.
  - destruct (p ← from_topic topic; topic_of p) as [t|e|] eqn:Ht; cbn; intros [= <- <- <-].
    + right. right. exists text, t. split_and!; [done|by exists topic|done].
    + left. split; [done|]. intros ? t [= <-] (? & ? & ?). unfold resolve in *. simplify_eq. congruence.
    + left. split; [done|]. intros ? t [= <-] (? & ? & ?). unfold resolve in *. simplify_eq. congruence.
  - intros [= <- <- <-]. left. split; [done|]. intros ? t [= <-] (? & ? & _). congruence.
Qed.
Definition ev_subscribes (t : PriceTopic) (ev : ready_event) : Prop :=
  exists text sent, ev = Incoming (Some (Ok (Text text))) sent /\ subscribes t text.
Definition ev_unsubscribes (t : PriceTopic) (ev : ready_event) : Prop :=
  exists text sent, ev = Incoming (Some (Ok (Text text))) sent /\ unsubscribes t text.
(** The client subscribed to the topic and has not unsubscribed since. *)
Definition live (t : PriceTopic) (evs : list ready_event) : Prop :=
  exists pre ev post, evs = pre ++ ev :: post /\ ev_subscribes t ev /\ Forall (fun ev => ~ ev_unsubscribes t ev) post.

Lemma write_subs f sent s : subscriptions (write f sent s).2 = subscriptions s.
Proof. by destruct sent. Qed.
Lemma unsub_text t text sent : ev_unsubscribes t (Incoming (Some (Ok (Text text))) sent) -> unsubscribes t text.
Proof. by intros (? & ? & [= <- <-] & ?). Qed.

(** One turn keeps the map free of repetitions; a topic of it was there and has not been
    left, or has been subscribed to now. *)
Lemma turn_topics ev s : NoDup (topics s) ->
  NoDup (topics (turn ev s).2) /\
  forall x, x ∈ topics (turn ev s).2 -> (x ∈ topics s /\ ~ ev_unsubscribes x ev) \/ ev_subscribes x ev.
Proof.
  unfold topics. intros Hnd.
  assert (forall ev, (forall text sent, ev <> Incoming (Some (Ok (Text text))) sent) ->
    forall x, ~ ev_unsubscribes x ev) as Hq by (intros ev' H x (? & ? & -> & _); by eapply H).
  destruct ev as [t price sent|t|[[m|e|]|] sent]; cbn [turn].
  - assert (subscriptions (if bool_decide (t ∈ map fst (subscriptions s)) then
      write (PriceMessage (get_price_topic_str t) price) sent s else (Listening, s)).2 = subscriptions s) as ->
      by (case_bool_decide; [apply write_subs|done]).
    split; [done|]. intros x Hx. left. split; [done|]. by apply Hq.
  - destruct (sub_remove_topics t (subscriptions s) Hnd) as [Hr Hx]. split; [done|].
    intros x [Hin _]%Hx. left. split; [done|]. by apply Hq.
  - destruct m as [text| |]; [|split; [done|]; intros x Hx; left; split; [done|by apply Hq]..].
    destruct (handle_ws_message lists_symbol canonical decode (Text text) (subscriptions s, registry s))
      as [r [l reg]] eqn:Hh.
    assert (subscriptions (match r with
      | Ok (Some rep) => write (Response rep) sent (mk_session l reg (written s))
      | Ok None => (Listening, mk_session l reg (written s))
      | Err e => (Ended (Err e), mk_session l reg (written s))
      | Panic => (Ended Panic, mk_session l reg (written s))
      end).2 = l) as Hl by (destruct r as [[rep|]|e|]; [apply write_subs|done..]).
    destruct r as [[rep|]|e|]; cbn in Hl |- *; rewrite ?Hl; clear Hl;
    (apply handle_ws_message_subs in Hh as [[-> Hu]|[(? & t & h & [= <-] & Hs & ->)|(? & t & [= <-] & Hs & ->)]];
     [split; [done|]; intros x Hx; left; split; [done|]; intros Hun%unsub_text; by eapply Hu
     |destruct (sub_insert_topics t h (subscriptions s) Hnd) as [Hi Hx]; split; [done|];
      intros x [-> |Hin]%Hx; [right; by exists text, sent|left; split; [done|];
        intros (? & Hd & _)%unsub_text; destruct Hs as (? & Hd' & _); congruence]
     |destruct (sub_remove_topics t (subscriptions s) Hnd) as [Hr Hx]; split; [done|];
      intros x [Hin Hne]%Hx; left; split; [done|]; intros (? & Hd & Ht)%unsub_text;
      destruct Hs as (? & Hd' & Ht'); congruence]).
  - split; [done|]. intros x Hx. left. split; [done|]. by apply Hq.
  - split; [done|]. intros x Hx. left. split; [done|]. by apply Hq.
  - split; [done|]. intros x Hx. left. split; [done|]. by apply Hq.
Qed.

Lemma loop_topics evs s : NoDup (topics s) ->
  NoDup (topics (connection_loop evs s).2) /\
  forall x, x ∈ topics (connection_loop evs s).2 ->
    live x evs \/ (x ∈ topics s /\ Forall (fun ev => ~ ev_unsubscribes x ev) evs) \/
    exists r, (connection_loop evs s).1 = Ended r.
Proof.
  revert s. induction evs as [|ev evs IH]; intros s Hnd; cbn.
  - split; [done|]. intros x Hx. right. left. by split; [|constructor].
  - destruct (turn_topics ev s Hnd) as [Hnd' Hx]. destruct (turn ev s) as [[|r] s'] eqn:Ht; cbn in *.
    + destruct (IH s' Hnd') as [Hn Hl]. split; [done|]. intros x Hin.
      destruct (Hl x Hin) as [(pre & ev' & post & -> & Hs & Hp)|[[Hin' Hf]|Hr]]; [| |by right; right].
      * left. by exists (ev :: pre), ev', post.
      * apply Hx in Hin' as [[Hin' Hu]|Hs]; [right; left; by split; [|constructor]|].
        left. by exists [], ev, evs.
    + split; [done|]. intros x _. right. right. by exists r.
Qed.

(** Over a whole connection: no topic is listed twice, and a price is only ever written
    for a topic that the client subscribed to and has not unsubscribed from since, under
    the name the subscription was acknowledged with. *)
Theorem prices_only_while_subscribed evs reg s t price sent :
  connection_loop evs (mk_session [] reg []) = (Listening, s) ->
  NoDup (topics s) /\
  (written (turn (PriceReady t price sent) s).2 <> written s ->
   live t evs /\
   written (turn (PriceReady t price sent) s).2 = written s ++ [PriceMessage (get_price_topic_str t) price] /\
   get_price_topic_str t ∈ get_subscribed_topics (subscriptions s)).
Proof.
  intros Hl. destruct (loop_topics evs (mk_session [] reg [])) as [Hnd Hx]; [constructor|]. rewrite Hl in Hnd, Hx.
  split; [done|]. cbn [turn]. case_bool_decide as Ht; [|done]. intros Hw. split_and!.
  - destruct (Hx t Ht) as [?|[[[]%not_elem_of_nil _]|[r [=]]]]; done.
  - destruct sent; [done|by destruct Hw..].
  - unfold get_subscribed_topics. apply list_elem_of_fmap in Ht as ([t' h] & -> & Hin).
    by apply (list_elem_of_fmap_2 (fun p => get_price_topic_str p.1) _ (t', h)).
Qed.

(** The texts of the client and their answers. *)
Definition is_text (ev : ready_event) : option string :=
  match ev with Incoming (Some (Ok (Text text))) _ => Some text | _ => None end.
Definition answer_of (f : frame) : option ws_reply := match f with Response r => Some r | PriceMessage _ _ => None end.
Definition answers (l : list frame) : list ws_reply := omap answer_of l.

(** A text is answered, or its handler panics: errors are answers. *)
Lemma text_reply text st :
  (exists rep st', handle_ws_message lists_symbol canonical decode (Text text) st = (Ok (Some rep), st')) \/
  exists st', handle_ws_message lists_symbol canonical decode (Text text) st = (Panic, st').
Proof.
  cbn. destruct (decode text) as [msg|]; [|left; eauto].
  destruct (handle_subscription_message lists_symbol canonical msg st) as [[] st']; eauto.
Qed.
Lemma write_listening f sent s s' : write f sent s = (Listening, s') -> written s' = written s ++ [f].
Proof. by destruct sent; intros [= <-]. Qed.
Lemma turn_answers ev s s' : turn ev s = (Listening, s') ->
  length (answers (written s')) = (length (answers (written s)) + length (option_list (is_text ev)))%nat.
Proof.
  unfold answers. destruct ev as [t price sent|t|[[m|e|]|] sent]; cbn [turn].
  - case_bool_decide; [intros Hw%write_listening|intros [= <-]]; cbn; [|lia].
    rewrite Hw, omap_app. cbn. rewrite app_nil_r. lia.
  - intros [= <-]. cbn. lia.
  - destruct m as [text| |]; [|done|intros [= <-]; cbn; lia].
    destruct (text_reply text (subscriptions s, registry s)) as [[rep [[l reg] ->]]|[[l reg] ->]]; [|done].
    intros Hw%write_listening. rewrite Hw. cbn. rewrite omap_app, length_app. cbn. lia.
  - done.
  - done.
  - done.
Qed.
(** Every text of the client is answered once, as long as the connection lasts: also one
    that is not a request, and one whose subscription fails. *)
Theorem texts_answered evs reg s :
  connection_loop evs (mk_session [] reg []) = (Listening, s) ->
  length (answers (written s)) = length (omap is_text evs).
Proof.
  assert (forall s0, connection_loop evs s0 = (Listening, s) ->
    length (answers (written s)) = (length (answers (written s0)) + length (omap is_text evs))%nat) as H; [|apply H].
  induction evs as [|ev evs IH]; intros s0; cbn; [intros [= <-]; lia|].
  destruct (turn ev s0) as [[|r] s1] eqn:Ht; [|done]. intros H%IH. apply turn_answers in Ht.
  destruct (is_text ev); cbn in *; lia.
Qed.

(** A connection that ends without an error was closed by the client. *)
Theorem closed_by_client evs s s' :
  connection_loop evs s = (Ended (Ok tt), s') ->
  exists pre m sent post, evs = pre ++ Incoming m sent :: post /\ (m = None \/ m = Some (Ok Close)) /\
    connection_loop pre s = (Listening, s').
Proof.
  assert (forall f sent s s1, write f sent s <> (Ended (Ok tt), s1)) as Hw by (intros f [] ? ?; done).
  revert s. induction evs as [|ev evs IH]; intros s; cbn; [done|].
  destruct (turn ev s) as [[|r] s1] eqn:Ht.
  - intros (pre & m & sent & post & -> & Hm & Hp)%IH. exists (ev :: pre), m, sent, post. cbn. by rewrite Ht.
  - intros [= -> ->]. destruct ev as [t price sent|t|[[m|e|]|] sent]; cbn [turn] in Ht.
    + case_bool_decide; [by apply Hw in Ht|done].
    + done.
    + destruct m as [text| |].
      * destruct (text_reply text (subscriptions s, registry s)) as [[rep [[l reg] Hr]]|[[l reg] Hr]];
          rewrite Hr in Ht; [by apply Hw in Ht|done].
      * injection Ht as <-. exists [], (Some (Ok Close)), sent, evs. auto.
      * done.
    + done.
    + done.
    + injection Ht as <-. exists [], None, sent, evs. auto.
Qed.
End Connection.

(** ** errors.rs, exchanges/error.rs *)
Definition invalid_pair_info `{TL : TokenLib} (p : PairInfo) : ServerError :=
  InvalidPairInfo (exchange_to_string (p_exchange p) +:+ ":" +:+ p_base p +:+ ":" +:+ p_quote p).
Definition exchange_error_to_string (e : ExchangeConnectionError) : string :=
  match e with
  | PriceReporter.AlreadyInitialized e _ _ =>
      "tried to initialize an ExchangeConnection that was already initialized: " +:+ e
  | ConnectionHangup m => "remote connection hangup: " +:+ m
  | PriceReporter.Crypto m => "cryptographic error: " +:+ m
  | PriceReporter.Custom m => "custom error: " +:+ m
  | PriceReporter.HandshakeFailure m => "initial websocket subscription failed: " +:+ m
  | PriceReporter.RateLimited => "websocket connection rate limited"
  | InvalidMessage m => "could not parse remote server message: " +:+ m
  | PriceReporter.MaxRetries e =>
      "maximum retry count exceeded while trying to re-establish an exchange connection to " +:+ e
  | SendError m => "error sending on the `write` end of the websocket: " +:+ m
  | PriceReporter.SaveState m => "error saving the state of a price stream: " +:+ m
  | PriceReporter.UnsupportedExchange e => "an unsupported exchange was requested: " +:+ e
  | PriceReporter.UnsupportedPair b q e =>
      "the given pair (" +:+ b +:+ ", " +:+ q +:+ ") is not supported by the exchange (" +:+ e +:+ ")"
  end%string.
Definition server_error_to_string (e : ServerError) : string :=
  match e with
  | TokenRemap m => "Error setting up the token remapping: " +:+ m
  | InvalidPairInfo m => "Invalid (exchange, base, quote) tuple: " +:+ m
  | ExchangeConnection e => "Error establishing exchange connection: " +:+ exchange_error_to_string e
  | GetPeerAddr m => "Error getting peer address: " +:+ m
  | WebsocketConnection m => "Error establishing websocket connection: " +:+ m
  | WebsocketSend m => "Error sending message over websocket: " +:+ m
  | WebsocketReceive m => "Error receiving message over websocket: " +:+ m
  | Serde m => "Error during de/serialization: " +:+ m
  | HttpServer m => "Error in HTTP server: " +:+ m
  | Unauthorized m => "Unauthorized: " +:+ m
  | NoAdminKey => "No admin key provided"
  | TelemetrySetup m => "Error setting up telemetry: " +:+ m
  | PriceStreamClosed => "Price stream closed"
  end%string.

(** ** http_server.rs: the accept loop *)
Definition HEADER_READ_TIMEOUT : Z := 300.
Definition IDLE_TIMEOUT_ERR_SUBSTR : string := "read header from client timeout".
(** price-reporter-client/src/lib.rs *)
Definition POOL_IDLE_TIMEOUT_SECS : Z := 20.

(** [served] is what hyper makes of the connection. *)
Definition handle_stream (served : res string unit) : res ServerError unit := map_err HttpServer served.
(** The task of a connection: what it logs. *)
Definition stream_task (served : res string unit) : list Logging.event :=
  match handle_stream served with
  | Err e =>
      let error := [("error"%string, server_error_to_string e)] in
      [if str_contains IDLE_TIMEOUT_ERR_SUBSTR (server_error_to_string e)
       then Logging.prices_log_task Logging.PricesHttpServer Logging.OutcomeOk error "idle keep-alive connection closed"
       else Logging.prices_log_task Logging.PricesHttpServer Logging.Failed error "error handling stream"]
  | _ => []
  end.
(** The connections in the order in which they are accepted; [None]: still accepting. *)
Fixpoint accept_loop (accepts : list (res string (res string unit))) : option (res ServerError unit) * list Logging.event :=
  match accepts with
  | [] => (None, [])
  | a :: accepts =>
      match map_err HttpServer a with
      | Ok served => let '(r, log) := accept_loop accepts in (r, stream_task served ++ log)
      | Err e => (Some (Err e), [])
      | Panic => (Some Panic, [])
      end
  end.
Definition execution_loop (bound : res string unit) (accepts : list (res string (res string unit)))
    : option (res ServerError unit) * list Logging.event :=
  match map_err HttpServer bound with
  | Ok _ => accept_loop accepts
  | Err e => (Some (Err e), [])
  | Panic => (Some Panic, [])
  end.

Lemma str_contains_app a p b : str_contains p (a +:+ p +:+ b) = true.
Proof.
  induction a as [|c a IH]; [|change (str_contains p (String c (a +:+ p +:+ b)) = true); cbn [str_contains];
    by rewrite IH, orb_true_r].
  change (str_contains p (p +:+ b) = true). destruct (p +:+ b)%string eqn:Hp; cbn [str_contains]; rewrite <-Hp, prefix_app; done.
Qed.
(** A connection that idles out is logged as information; any other failure of a
    connection at the level of errors, and none of them ends the server. *)
Theorem connection_failures_logged served1 pre post msg :
  str_contains IDLE_TIMEOUT_ERR_SUBSTR (server_error_to_string (HttpServer msg)) = false ->
  let idle := (pre +:+ IDLE_TIMEOUT_ERR_SUBSTR +:+ post)%string in
  let '(r, log) := execution_loop (Ok tt) [Ok (Err idle); Ok (Err msg); Ok served1] in
  r = None /\ (Logging.ev_level <$> take 2 log) = [Logging.INFO; Logging.ERROR] /\
  drop 2 log = stream_task served1.
Proof.
  intros Hm idle. unfold execution_loop. cbn [map_err accept_loop].
  unfold stream_task at 1 2. cbn [handle_stream map_err]. rewrite Hm.
  assert (str_contains IDLE_TIMEOUT_ERR_SUBSTR (server_error_to_string (HttpServer idle)) = true) as ->.
  { exact (str_contains_app ("Error in HTTP server: " +:+ pre) IDLE_TIMEOUT_ERR_SUBSTR post). }
  split_and!; [done..|]. cbn. by rewrite app_nil_r.
Qed.
(** A connection that cannot be accepted ends the server: the later ones are not served. *)
Theorem accept_error_ends_http e served rest :
  accept_loop ((Ok <$> served) ++ Err e :: rest) = (Some (Err (HttpServer e)), concat (stream_task <$> served)).
Proof. induction served as [|sv served IH]; [done|]. cbn in *. by rewrite IH. Qed.
(** Clients drop an idle connection before the server does. *)
Lemma client_reaps_first : POOL_IDLE_TIMEOUT_SECS < HEADER_READ_TIMEOUT.
Proof. done. Qed.

(** ** cli.rs *)
Record Cli := mk_cli {
  http_port : Z;
  ws_port : Z;
  admin_key : option string;
  token_remap_path : option string;
  chains : list Chain;
  coinbase_api_key : option string;
  coinbase_api_secret : option string;
  eth_ws_addr : option string;
  disabled_exchanges : list Exchange;
  datadog_enabled : bool;
  metrics_enabled : bool;
}.
(** utils/mod.rs *)
Record PriceReporterConfig (HmacKey : Type) := mk_config {
  cf_ws_port : Z;
  cf_http_port : Z;
  cf_token_remap_path : option string;
  cf_chains : list Chain;
  cf_exchange_conn_config : ExchangeConnectionsConfig;
  cf_admin_key : option HmacKey;
  cf_disabled_exchanges : list Exchange;
}.
Arguments cf_token_remap_path {_} _.
Arguments cf_chains {_} _.
Arguments cf_exchange_conn_config {_} _.
Arguments cf_admin_key {_} _.
Arguments cf_disabled_exchanges {_} _.

Section CommandLine.
(** The value of an argument, from the command line or its environment variable; the
    parsers of the types. *)
Context (arg : string -> option string) (flag : string -> bool) (parse_u16 : string -> option Z)
  (parse_chain : string -> option Chain) (parse_exchange : string -> option Exchange).
Definition with_default (env dflt : string) : string := default dflt (arg env).
(** A list is split at its commas, and every part has to parse. *)
Definition comma_list {A} (parse : string -> option A) (s : string) : option (list A) := mapM parse (split_on ","%char s).
(** [Cli::parse()]: [None] when the process exits with a usage error. *)
Definition parse_cli : option Cli :=
  http_port ← parse_u16 (with_default "HTTP_PORT" "3000");
  ws_port ← parse_u16 (with_default "WS_PORT" "4000");
  chains ← comma_list parse_chain (with_default "CHAIN_ID" "devnet");
  disabled ← comma_list parse_exchange (with_default "DISABLED_EXCHANGES" "uniswapv3");
  Some (mk_cli http_port ws_port (arg "ADMIN_KEY") (arg "TOKEN_REMAP_PATH") chains (arg "CB_API_KEY")
    (arg "CB_API_SECRET") (arg "ETH_WS_ADDR") disabled (flag "ENABLE_DATADOG") (flag "ENABLE_METRICS")).
End CommandLine.

Section Process.
Context {HmacKey : Type} (from_base64_string : string -> res string HmacKey).

Definition parse_price_reporter_config (c : Cli) : res ServerError (PriceReporterConfig HmacKey) :=
  key ← map_err Serde (match admin_key c with
    | Some key => k ← from_base64_string key; Ok (Some k)
    | None => Ok None
    end);
  Ok (mk_config _ (ws_port c) (http_port c) (token_remap_path c) (chains c)
    (mk_conn_config (coinbase_api_key c) (coinbase_api_secret c) (eth_ws_addr c)) key (disabled_exchanges c)).

Definition METRICS_PREFIX : string := "price-reporter".
Definition DEFAULT_STATSD_HOST : string := "127.0.0.1".
Definition DEFAULT_STATSD_PORT : Z := 8125.
(** The arguments of [configure_telemetry_with_metrics_config]: datadog, otlp, metrics,
    the collector, the host and port of statsd, and the prefix. *)
Context (setup_telemetry : bool -> bool -> bool -> string -> string -> Z -> string -> res string unit).
Definition configure_telemetry (c : Cli) : res ServerError unit :=
  map_err TelemetrySetup (setup_telemetry (datadog_enabled c) false (metrics_enabled c) ""
    DEFAULT_STATSD_HOST DEFAULT_STATSD_PORT METRICS_PREFIX).

(** *** main.rs, up to its loop.  The tokens of the library are those after the mapping
    has been read; the canonical exchanges are its global map. *)
Context `{TL : TokenLib} (all_exchanges : list Exchange) (usdc : Token) (all_base_tokens : list Token)
  (exchange_stable : Exchange -> Token) (iter : list (Token * Exchange) -> list (Token * Exchange))
  (read_remap : option string -> Chain -> res string (gmap string Exchange))
  (setup_token_remaps : option string -> Chain -> res string unit) (bind_ws : Z -> res string unit).

Record process := mk_process {
  canonical_exchanges : gmap string Exchange;
  price_streams : streams;
  (** tasks started for the default streams *)
  spawned : list PairInfo;
  (** the port of the websockets, once bound *)
  listening : option Z;
  (** the configuration the HTTP server was started with *)
  http_started : option (PriceReporterConfig HmacKey);
}.
Definition process_new : process := mk_process ∅ PriceReporter.streams_new [] None None.

(** The blocking task of the mapping: its error is wrapped as text, its panic is raised
    again by the [unwrap] of the join handle. *)
Definition set_up_remaps (cfg : PriceReporterConfig HmacKey) : eff process ServerError unit := fun st =>
  let '(r, m) := setup_all_token_remaps read_remap setup_token_remaps (cf_token_remap_path cfg) (cf_chains cfg)
    (canonical_exchanges st) in
  (map_err (fun e => TokenRemap (server_error_to_string e)) r,
   mk_process m (price_streams st) (spawned st) (listening st) (http_started st)).
Definition start_streams (cfg : PriceReporterConfig HmacKey) : eff process ServerError unit := fun st =>
  match init_default_price_streams all_exchanges usdc all_base_tokens exchange_stable iter
          (cf_exchange_conn_config cfg) (cf_disabled_exchanges cfg) (price_streams st) with
  | (Ok ps, s) => (Ok tt, mk_process (canonical_exchanges st) s (spawned st ++ ps) (listening st) (http_started st))
  | (Err e, s) => (Err e, mk_process (canonical_exchanges st) s (spawned st) (listening st) (http_started st))
  | (Panic, s) => (Panic, mk_process (canonical_exchanges st) s (spawned st) (listening st) (http_started st))
  end.
Definition start_servers (cfg : PriceReporterConfig HmacKey) : eff process ServerError unit := fun st =>
  match map_err WebsocketConnection (bind_ws (cf_ws_port _ cfg)) with
  | Ok _ => (Ok tt, mk_process (canonical_exchanges st) (price_streams st) (spawned st)
      (Some (cf_ws_port _ cfg)) (Some cfg))
  | Err e => (Err e, st)
  | Panic => (Panic, st)
  end.
Definition main_start (c : Cli) : eff process ServerError unit :=
  _ ← lift (configure_telemetry c);
  cfg ← lift (parse_price_reporter_config c);
  _ ← set_up_remaps cfg;
  _ ← start_streams cfg;
  start_servers cfg.

Lemma config_fields c cfg : parse_price_reporter_config c = Ok cfg ->
  cf_ws_port _ cfg = ws_port c /\ cf_http_port _ cfg = http_port c /\
  cf_disabled_exchanges cfg = disabled_exchanges c /\
  match admin_key c with
  | None => cf_admin_key cfg = None
  | Some key => exists k, from_base64_string key = Ok k /\ cf_admin_key cfg = Some k
  end.
Proof.
  unfold parse_price_reporter_config. intros (k & Hk & [= <-])%bind_Ok_inv. cbn. split_and!; [done..|].
  destruct (admin_key c) as [key|]; [|by injection Hk as <-].
  destruct (from_base64_string key) as [k'|e|]; [|done..]. injection Hk as <-. by exists k'.
Qed.

(** Either the process listens for websockets on the port it was given and its HTTP
    server runs with the configuration read from the command line, or it ends with an
    error and serves neither; a key for the admin API that does not parse is such an
    error, a key that is not given disables the API. *)
Theorem start_serves_both_or_neither c r st :
  main_start c process_new = (r, st) ->
  (r = Ok tt -> listening st = Some (ws_port c) /\ exists cfg, http_started st = Some cfg /\
     parse_price_reporter_config c = Ok cfg /\
     (cf_admin_key cfg = None <-> admin_key c = None)) /\
  (r <> Ok tt -> listening st = None /\ http_started st = None) /\
  (forall key e, configure_telemetry c = Ok tt -> admin_key c = Some key -> from_base64_string key = Err e ->
     r = Err (Serde e)).
Proof.
  unfold main_start, lift, mbind, eff_bind. intros H.
  destruct (configure_telemetry c) as [[]|e|]; [|injection H as <- <-; by split_and!..].
  destruct (parse_price_reporter_config c) as [cfg|e|] eqn:Hc; cycle 1.
  { injection H as <- <-. split_and!; [done|done|]. intros key e' _ Hk He. revert Hc.
    unfold parse_price_reporter_config. rewrite Hk, He. cbn. congruence. }
  { injection H as <- <-. split_and!; [done|done|]. intros key e' _ Hk He. revert Hc.
    unfold parse_price_reporter_config. rewrite Hk, He. cbn. congruence. }
  destruct (config_fields c cfg Hc) as (Hws & _ & _ & Ha).
  assert (forall key e, admin_key c = Some key -> from_base64_string key <> Err e) as Hk.
  { intros key e Hk. rewrite Hk in Ha. destruct Ha as (k & -> & _). done. }
  assert (cf_admin_key cfg = None <-> admin_key c = None) as Hn.
  { destruct (admin_key c); [destruct Ha as (? & _ & ->)|rewrite Ha]; done. }
  unfold set_up_remaps, start_streams, start_servers in H.
  destruct (setup_all_token_remaps _ _ _ _ _) as [[[]|e|] m]; cbn in H;
    [|injection H as <- <-; (split_and!; [done|done|]; intros ? ? _ ? ?; exfalso; by eapply Hk)..].
  destruct (init_default_price_streams _ _ _ _ _ _ _ _) as [[ps|e|] s1]; cbn in H;
    [|injection H as <- <-; (split_and!; [done|done|]; intros ? ? _ ? ?; exfalso; by eapply Hk)..].
  destruct (bind_ws (cf_ws_port HmacKey cfg)) as [[]|e|]; cbn in H; injection H as <- <-;
    (split_and!; [|done|intros ? ? _ ? ?; exfalso; by eapply Hk]); [|done..].
  intros _. cbn. rewrite Hws. split; [done|]. by exists cfg.
Qed.
End Process.

(** ** Witnesses *)
Module PriceSessionWitness.
Import PriceServerWitness.
#[local] Existing Instance tokens.
Definition decode2 (s : string) : option WebsocketMessage :=
  if String.prefix "+" s then Some (Subscribe (String.substring 1 100 s))
  else if String.prefix "-" s then Some (Unsubscribe (String.substring 1 100 s)) else None.
Definition weth_usdc : PriceTopic := (Coinbase, mk_token "0xaa" ArbitrumOne, mk_token "0xbb" ArbitrumOne).
Definition client_text (s : string) : ready_event := Incoming (Some (Ok (Text s))) (Ok tt).
Definition evs1 : list ready_event :=
  [client_text "+coinbase-0xaa-0xbb"; PriceReady weth_usdc (of_Z 10) (Ok tt); client_text "hello"]%string.
Definition run1 := connection_loop lists ∅ decode2 evs1 (mk_session [] PriceReporter.streams_new []).

Lemma prices_only_while_subscribed_witness :
  live decode2 weth_usdc evs1 /\
  (written (turn lists ∅ decode2 (PriceReady weth_usdc (of_Z 11) (Ok tt)) run1.2).2 <> written run1.2).
Proof.
  assert (written (turn lists ∅ decode2 (PriceReady weth_usdc (of_Z 11) (Ok tt)) run1.2).2 <> written run1.2) as Hne
    by (intros H%(f_equal length); vm_compute in H; done).
  split; [|exact Hne].
  refine (proj1 (proj2 (prices_only_while_subscribed lists ∅ decode2 evs1 PriceReporter.streams_new run1.2
    weth_usdc (of_Z 11) (Ok tt) _) Hne)).
  change (run1 = (Listening, run1.2)). assert (run1.1 = Listening) as Hl by (vm_compute; reflexivity).
  rewrite <-Hl. apply surjective_pairing.
Defined.
Lemma texts_answered_witness : length (answers (written run1.2)) = 2%nat.
Proof.
  refine (texts_answered lists ∅ decode2 evs1 PriceReporter.streams_new run1.2 _).
  change (run1 = (Listening, run1.2)). assert (run1.1 = Listening) as Hl by (vm_compute; reflexivity).
  rewrite <-Hl. apply surjective_pairing.
Defined.
End PriceSessionWitness.
