(* ===== verification/ExchangeWire.v ===== *)
(** * The connections to the exchanges (price-reporter/src/exchanges: mod.rs, connection.rs,
    binance.rs, kraken.rs, okx.rs)

    [PriceServer] models what the messages of an exchange become and [PriceFeeds] the
    check of a pair; here is what is sent to open a connection and to keep it alive, the
    stream with its initial value as it is polled, and the choice of the exchange.
    Everything that goes out is kept in order; JSON is kept as its fields. *)
From Stdlib Require Import ZArith Lia Ascii.
From stdpp Require Import gmap strings list.
From S2P Require Import Prelude F64.
From S2P Require PriceReporter.
From S2P Require Import PriceServer PriceFeeds.
Local Open Scope Z_scope.
Import PriceReporter (ExchangeConnectionError(..), Message(..)).
Abbreviation R := (res ExchangeConnectionError).

(** ** connection.rs: a stream that may start with a value *)
Record InitializablePriceStream := mk_stream {
  stream : list (R f64);
  buffered_value : f64;
  buffered_value_consumed : bool;
}.
Definition stream_new (l : list (R f64)) : InitializablePriceStream := mk_stream l f0 true.
Definition new_with_initial (l : list (R f64)) (initial_value : f64) : InitializablePriceStream :=
  mk_stream l initial_value false.
(** [None]: the underlying stream has nothing more. *)
Definition poll_next (s : InitializablePriceStream) : option (R f64) * InitializablePriceStream :=
  if negb (buffered_value_consumed s) then (Some (Ok (buffered_value s)), mk_stream (stream s) (buffered_value s) true)
  else match stream s with
       | [] => (None, s)
       | x :: l => (Some x, mk_stream l (buffered_value s) true)
       end.
Fixpoint poll_n (n : nat) (s : InitializablePriceStream) : list (R f64) :=
  match n with
  | O => []
  | S n => let '(x, s) := poll_next s in option_list x ++ poll_n n s
  end.
Lemma poll_n_consumed n l v : poll_n n (mk_stream l v true) = take n l.
Proof. revert l. induction n as [|n IH]; intros l; [done|]. destruct l as [|x l]; cbn; [|by rewrite IH].
  assert (poll_n n (mk_stream [] v true) = take n []) as -> by apply IH. by rewrite take_nil.
Qed.
(** The initial value comes first and once, and a stream without one starts with the
    messages: what is read is what [PriceServer] says the connection yields. *)
Theorem stream_yields initial midpoint items n :
  poll_n n (match initial with
            | Some v => new_with_initial (omap (on_item midpoint) items) v
            | None => stream_new (omap (on_item midpoint) items)
            end) = take n (price_stream initial midpoint items).
Proof.
  unfold price_stream. destruct initial as [v|]; cbn; [|apply poll_n_consumed].
  destruct n as [|n]; [done|]. cbn. by rewrite poll_n_consumed.
Qed.

(** ** What goes out *)
Inductive wire :=
  | Get (url : string)
  | Open (url : string)
  | SubscribeKraken (pair : list string) (name : string)
  | SubscribeOkx (channel instId : string)
  | PingFrame
  | TextFrame (text : string).

Section Exchanges.
Context `{TL : TokenLib}.
Abbreviation W := (eff (list wire) ExchangeConnectionError).
Definition emit (w : wire) : W unit := modify (fun sent => sent ++ [w]).

(** The outcomes of a connection: the handshake, the write of the subscription, and
    Binance's first prices. *)
Record outcomes := mk_outcomes {
  oc_handshake : unit + WsError;
  oc_send : res string unit;
  oc_bid : R f64;
  oc_offer : R f64;
}.
Definition open_ws (url : string) (o : outcomes) : W unit := _ ← emit (Open url); lift (ws_connect (oc_handshake o)).

Definition KRAKEN_WS_BASE_URL : string := "wss://ws.kraken.com".
Definition OKX_WS_BASE_URL : string := "wss://ws.okx.com:8443/ws/v5/public".
Definition BINANCE_REST_BASE_URL : string := "https://api.binance.com/api/v3".
Definition BINANCE_WS_BASE_URL : string := "wss://stream.binance.com:443/ws".
Definition OKX_PING_MESSAGE : string := "ping".

(** *** binance.rs *)
Definition binance_websocket_url (base quote : Token) : R string :=
  base_ticker ← get_base_exchange_ticker base quote Binance;
  quote_ticker ← get_quote_exchange_ticker base quote Binance;
  Ok (BINANCE_WS_BASE_URL +:+ "/" +:+ to_lowercase base_ticker +:+ to_lowercase quote_ticker +:+ "@bookTicker")%string.
Definition binance_fetch (base quote : Token) (o : outcomes) : W f64 :=
  base_ticker ← lift (get_base_exchange_ticker base quote Binance);
  quote_ticker ← lift (get_quote_exchange_ticker base quote Binance);
  _ ← emit (Get (BINANCE_REST_BASE_URL +:+ "/ticker/bookTicker?symbol=" +:+ base_ticker +:+ quote_ticker)%string);
  lift (fetch_price_report (oc_bid o) (oc_offer o)).
Definition binance_open (base quote : Token) (o : outcomes) : W f64 :=
  initial ← binance_fetch base quote o;
  url ← lift (binance_websocket_url base quote);
  _ ← open_ws url o;
  mret initial.
(** *** kraken.rs *)
Definition kraken_open (base quote : Token) (o : outcomes) : W unit :=
  _ ← open_ws KRAKEN_WS_BASE_URL o;
  base_ticker ← lift (get_base_exchange_ticker base quote Kraken);
  quote_ticker ← lift (get_quote_exchange_ticker base quote Kraken);
  _ ← emit (SubscribeKraken [(base_ticker +:+ "/" +:+ quote_ticker)%string] "spread");
  lift (ws_send (oc_send o)).
(** *** okx.rs *)
Definition okx_open (base quote : Token) (o : outcomes) : W unit :=
  _ ← open_ws OKX_WS_BASE_URL o;
  base_ticker ← lift (get_base_exchange_ticker base quote Okx);
  quote_ticker ← lift (get_quote_exchange_ticker base quote Okx);
  _ ← emit (SubscribeOkx "bbo-tbt" (base_ticker +:+ "-" +:+ quote_ticker)%string);
  lift (ws_send (oc_send o)).

(** *** [send_keepalive]: Coinbase keeps the default, which sends nothing. *)
Definition send_keepalive (e : Exchange) (sent : res string unit) : W unit :=
  match e with
  | Binance | Kraken => _ ← emit PingFrame; lift (ws_ping sent)
  | Okx => _ ← emit (TextFrame OKX_PING_MESSAGE); lift (ws_send sent)
  | _ => mret tt
  end.

(** *** mod.rs: [coinbase] is the connection of [PriceFeeds]. *)
Definition connect_exchange (coinbase : W unit) (e : Exchange) (base quote : Token) (o : outcomes) : W (option f64) :=
  match e with
  | Binance => initial ← binance_open base quote o; mret (Some initial)
  | Coinbase => _ ← coinbase; mret None
  | Kraken => _ ← kraken_open base quote o; mret None
  | Okx => _ ← okx_open base quote o; mret None
  | _ => lift (Err (PriceReporter.UnsupportedExchange (exchange_to_string e)))
  end.

(** What a connection subscribes to, as the symbol of the pair. *)
Definition subscribed (e : Exchange) (symbol : string) (sent : list wire) : Prop :=
  match e with
  | Binance => sent = [Get (BINANCE_REST_BASE_URL +:+ "/ticker/bookTicker?symbol=" +:+ symbol)%string;
      Open (BINANCE_WS_BASE_URL +:+ "/" +:+ to_lowercase symbol +:+ "@bookTicker")%string]
  | Kraken => sent = [Open KRAKEN_WS_BASE_URL; SubscribeKraken [symbol] "spread"]
  | Okx => sent = [Open OKX_WS_BASE_URL; SubscribeOkx "bbo-tbt" symbol]
  | _ => False
  end.

Lemma to_lowercase_app a b : to_lowercase (a +:+ b) = (to_lowercase a +:+ to_lowercase b)%string.
Proof. induction a as [|c a IH]; [done|]. change (String (lower_ascii c) (to_lowercase (a +:+ b)) = String (lower_ascii c) (to_lowercase a +:+ to_lowercase b)). by rewrite IH. Qed.
Lemma append_assoc' a b c : ((a +:+ b) +:+ c = a +:+ b +:+ c)%string.
Proof. induction a as [|x a IH]; [done|]. change (String x ((a +:+ b) +:+ c) = String x (a +:+ b +:+ c)). by rewrite IH. Qed.

(** What is checked is what is subscribed to: when an exchange is found to support a pair,
    the symbol that it was asked about is the one its connection asks the prices of,
    and when the connection comes up nothing else has been sent. *)
Theorem checked_is_subscribed lists coinbase e base quote o initial sent :
  e = Binance \/ e = Kraken \/ e = Okx ->
  supports_pair lists e base quote = Ok true ->
  connect_exchange coinbase e base quote o [] = (Ok initial, sent) ->
  exists b q, exchange_tickers base e = Some b /\ exchange_tickers quote e = Some q /\
    lists e (symbol e b q) = Ok true /\ subscribed e (symbol e b q) sent /\
    (is_Some initial <-> e = Binance).
Proof.
  unfold supports_pair. intros He Hs Hc.
  destruct (negb (exchange_lists_pair_tokens e base quote)); [done|].
  destruct (exchange_tickers base e) as [b|] eqn:Hb; [|done]. destruct (exchange_tickers quote e) as [q|] eqn:Hq; [|done].
  exists b, q. split_and!; [done..| |].
  - destruct He as [-> | [-> | ->]]; cbn [connect_exchange] in Hc;
      unfold binance_open, binance_fetch, kraken_open, okx_open, open_ws, emit, modify, lift, mret, eff_ret, mbind, eff_bind,
        binance_websocket_url, get_base_exchange_ticker, get_quote_exchange_ticker, get_exchange_ticker in Hc;
      rewrite ?Hb, ?Hq in Hc; cbn -[String.append to_lowercase] in Hc.
    + destruct (fetch_price_report (oc_bid o) (oc_offer o)) as [v|err|]; [|done..].
      cbn -[String.append to_lowercase] in Hc. destruct (ws_connect (oc_handshake o)) as [[]|err|]; [|done..].
      injection Hc as <- <-. cbn [subscribed symbol]. by rewrite to_lowercase_app, append_assoc'.
    + destruct (ws_connect (oc_handshake o)) as [[]|err|]; [|done..]. cbn -[String.append] in Hc.
      destruct (ws_send (oc_send o)) as [[]|err|]; [|done..]. by injection Hc as <- <-.
    + destruct (ws_connect (oc_handshake o)) as [[]|err|]; [|done..]. cbn -[String.append] in Hc.
      destruct (ws_send (oc_send o)) as [[]|err|]; [|done..]. by injection Hc as <- <-.
  - destruct He as [-> | [-> | ->]]; cbn [connect_exchange] in Hc; apply eff_bind_Ok in Hc as (? & ? & _ & [= <- _]);
      split; try done; by intros [? [=]].
Qed.
(** The exchanges that have no connection are refused before anything is sent. *)
Lemma unsupported_exchange_refused coinbase e base quote o sent :
  e = UniswapV3 \/ e = Renegade ->
  connect_exchange coinbase e base quote o sent =
    (Err (PriceReporter.UnsupportedExchange (exchange_to_string e)), sent).
Proof. by intros [-> | ->]. Qed.
End Exchanges.

(** ** Witnesses *)
Module ExchangeWireWitness.
Import PriceServerWitness.
#[local] Instance listed : TokenLib.
Proof.
  refine {| remaps := [(ArbitrumOne, arbitrum)]; from_ticker_on_chain := find_ticker;
    exchange_from_str := exchange_name; exchange_to_string _ := "exchange"%string; token_to_string := tk_addr;
    stable_ticker _ := USDC_TICKER; exchange_tickers _ _ := Some "T"%string;
    supported_exchanges _ := [Kraken]; default_chain := ArbitrumOne |}.
  - apply NoDup_singleton.
  - intros c m addr ticker [= -> ->]%list_elem_of_singleton. unfold arbitrum.
    by intros [[= -> ->]|[[= -> ->]|?%not_elem_of_nil]%elem_of_cons]%elem_of_cons.
Defined.
Definition up : outcomes := mk_outcomes (inl tt) (Ok tt) (Ok f1) (Ok f1).
Lemma checked_is_subscribed_witness :
  exists b q, lists Kraken (symbol Kraken b q) = Ok true /\
    subscribed Kraken (symbol Kraken b q) [Open "wss://ws.kraken.com"; SubscribeKraken ["T/T"] "spread"]%string.
Proof.
  destruct (checked_is_subscribed (TL := listed) lists (mret tt) Kraken (mk_token "0xaa" ArbitrumOne)
    (mk_token "0xbb" ArbitrumOne) up None [Open "wss://ws.kraken.com"; SubscribeKraken ["T/T"] "spread"]%string)
    as (b & q & _ & _ & Hl & Hs & _).
  - auto.
  - vm_compute. reflexivity.
  - vm_compute. reflexivity.
  - exists b, q. split; assumption.
Defined.
End ExchangeWireWitness.
