(* ===== verification/PriceEndToEnd.v ===== *)
(** * Prices from the reporter to its clients (price-reporter-client/src/price_stream.rs,
    price-reporter/src/ws_server.rs)

    The two ends of a websocket connection, each modelled on its own: the client of
    [PriceClient] subscribes to its mints and reads prices by mint, the server of
    [PriceSession] resolves the topics and writes prices by topic.  Here they are put
    together: [connect_and_subscribe] is the part of the client that speaks first;
    [frame_text] is what the server writes of a frame and [read] what the client makes
    of that text.  The JSON codec of the messages and the texts of exchanges and
    tokens are those of the libraries. *)
From Stdlib Require Import ZArith Lia Ascii.
From stdpp Require Import gmap strings list.
From S2P Require Import Prelude F64 AuthError.
From S2P Require PriceReporter PriceClient.
From S2P Require Import PriceServer PriceSession.
Local Open Scope Z_scope.
Import PriceReporter (ServerError(..), ExchangeConnectionError(..), Message(..)).

(** ** price_stream.rs: the client subscribes

    The messages that were sent are kept; [sends] is what the socket makes of each. *)
Section Subscribe.
Context (renegade : string).
Definition subscription (mint : string) : WebsocketMessage := Subscribe (PriceClient.construct_price_topic renegade mint).
Fixpoint subscribe_all (mints : list string) (sends : nat -> res string unit)
    : eff (list WebsocketMessage) PriceReporterClientError unit :=
  match mints with
  | [] => mret tt
  | mint :: mints => fun sent =>
      match map_err PRWebSocket (sends (length sent)) with
      | Ok _ => subscribe_all mints sends (sent ++ [subscription mint])
      | Err e => (Err e, sent)
      | Panic => (Panic, sent)
      end
  end.
Definition ws_connect (connected : res string unit) : res PriceReporterClientError unit := map_err PRWebSocket connected.
Definition connect_and_subscribe (connected : res string unit) (sends : nat -> res string unit) (mints : list string)
    : eff (list WebsocketMessage) PriceReporterClientError unit :=
  _ ← lift (ws_connect connected); subscribe_all mints sends.

(** The client streams only after it has asked for every one of its mints, in order. *)
Lemma subscribe_all_spec mints sends sent r sent' :
  subscribe_all mints sends sent = (r, sent') ->
  (exists n, sent' = sent ++ take n (subscription <$> mints)) /\
  (r = Ok tt -> sent' = sent ++ (subscription <$> mints)).
Proof.
  revert sent. induction mints as [|mint mints IH]; intros sent; cbn.
  - intros [= <- <-]. rewrite app_nil_r. split; [exists 0%nat; by rewrite app_nil_r|done].
  - destruct (sends (length sent)) as [[]|e|]; cbn.
    + intros [[n Hn] Hr]%IH. split.
      * exists (S n). by rewrite Hn, <-app_assoc.
      * intros Hok. by rewrite Hr, <-app_assoc.
    + intros [= <- <-]. split; [exists 0%nat; by rewrite app_nil_r|done].
    + intros [= <- <-]. split; [exists 0%nat; by rewrite app_nil_r|done].
Qed.
End Subscribe.

(** ** Strings *)
Lemma lower_not_dash c : Ascii.eqb (lower_ascii c) "-"%char = Ascii.eqb c "-"%char.
Proof. by destruct c as [[] [] [] [] [] [] [] []]. Qed.
Lemma str_mem_lower s : str_mem "-"%char (to_lowercase s) = str_mem "-"%char s.
Proof. induction s as [|c s IH]; cbn -[Ascii.eqb]; [done|]. by rewrite lower_not_dash, IH. Qed.

Definition letter (c : ascii) : bool := (("a" <=? lower_ascii c) && (lower_ascii c <=? "z"))%char.

(** ** The two ends *)
Section EndToEnd.
Context `{TL : TokenLib} (lists_symbol : Exchange -> string -> res ExchangeConnectionError bool)
  (canonical : gmap string Exchange).
(** The codec of the requests; the text of the exchange, which has no dash in it and is read
    back; and the text of a token, its address. *)
Context (encode : WebsocketMessage -> string) (decode : string -> option WebsocketMessage)
  (decode_encode : forall m, decode (encode m) = Some m)
  (renegade_read : exchange_from_str (exchange_to_string Renegade) = Some Renegade)
  (renegade_plain : str_mem "-"%char (exchange_to_string Renegade) = false)
  (token_text : forall t, token_to_string t = tk_addr t).
Abbreviation renegade := (exchange_to_string Renegade).

(** A request of the client as it arrives. *)
Definition arrives (m : WebsocketMessage) : ready_event := Incoming (Some (Ok (Text (encode m)))) (Ok tt).
(** The JSON of a price message and of the answer to a subscription, the text of a
    parsing error, and what the client parses as a price message.  serde writes the
    number of a price that is finite and null for any other, which it does not read
    as a number; [reread] is what it makes of the text of a finite one (the number
    itself, or next to it when serde_json is built without float_roundtrip).  A price
    message is a JSON object with its two fields, or an array: an answer has other
    fields, and no text that starts with a letter is either. *)
Context (price_json : string -> f64 -> string) (response_json : list string -> string) (parse_error : string)
  (parse_price : string -> option PriceClient.PriceMessage) (reread : f64 -> f64)
  (parse_finite : forall topic price, is_finite price = true ->
     parse_price (price_json topic price) = Some (PriceClient.mk_message topic (reread price)))
  (parse_null : forall topic price, is_finite price = false -> parse_price (price_json topic price) = None)
  (parse_response : forall topics, parse_price (response_json topics) = None)
  (parse_prose : forall c text, letter c = true -> parse_price (String c text) = None).

(** The text of a frame of the server. *)
Definition frame_text (f : frame) : string :=
  match f with
  | PriceMessage topic price => price_json topic price
  | Response (SubscriptionResponse topics) => response_json topics
  | Response (ErrorText e) => server_error_to_string e
  | Response InvalidRequest => ("Invalid request: " +:+ parse_error)%string
  end.
(** A frame of the server as the client reads it. *)
Definition read (f : frame) : PriceClient.ws_item := PriceClient.WsText (parse_price (frame_text f)).

(** No answer of the server is read as a price. *)
Lemma answer_no_price r : read (Response r) = PriceClient.WsText None.
Proof.
  unfold read. f_equal. destruct r as [topics|e|]; cbn [frame_text]; [apply parse_response| |by apply parse_prose].
  by destruct e; apply parse_prose.
Qed.

Lemma token_and_chain mint b c : get_token_and_chain mint = Some (b, c) ->
  b = mk_token (to_lowercase mint) c /\ exists m, (c, m) ∈ remaps.
Proof.
  unfold get_token_and_chain. intros ([i [c' m]] & Hf & [= -> ->])%fmap_Some.
  apply list_find_Some in Hf as (Hi & _ & _). split; [done|]. exists m. by eapply list_elem_of_lookup_2.
Qed.
(** The topic of a mint resolves to the token with that address. *)
Lemma resolved_mint mint t : str_mem "-"%char mint = false ->
  resolve (PriceClient.construct_price_topic renegade mint) = Ok t ->
  exists c q, t = (Renegade, mk_token (to_lowercase mint) c, q).
Proof.
  intros Hm. unfold resolve, PriceClient.construct_price_topic. intros (p & Hp & Ht)%bind_Ok_inv.
  unfold from_topic in Hp. change PriceClient.TOPIC_SEP with "-"%char in Hp. rewrite split_two in Hp by done.
  cbn [mbind res_bind lookup list_lookup unwrap] in Hp. rewrite renegade_read in Hp. cbn [ok_or mbind res_bind unwrap] in Hp.
  rewrite decide_True in Hp by done. unfold new_default_stable in Hp.
  apply bind_Ok_inv in Hp as ([b c] & Hb & Hp). unfold ok_or in Hb.
  destruct (get_token_and_chain mint) as [bc|] eqn:Hg; [|done]. injection Hb as ->.
  apply token_and_chain in Hg as [-> [m Hin]]. apply bind_Ok_inv in Hp as (q & _ & Hp).
  apply (pair_tokens _ _ _ m) in Hp as (He & Hbase & Hquote); [|done].
  unfold topic_of in Ht. rewrite Hbase, Hquote, He in Ht. injection Ht as <-. by exists c, q.
Qed.
(** A price of a topic with the address of a mint is a price of the mint, when it is
    finite; another one is not read. *)
Lemma price_read e mint c q price now st : str_mem "-"%char mint = false -> str_mem "-"%char (exchange_to_string e) = false ->
  PriceClient.handle_item now (read (PriceMessage (get_price_topic_str (e, mk_token (to_lowercase mint) c, q)) price)) st =
  (PriceClient.Continue,
   if is_finite price then PriceClient.update_price now (to_lowercase mint) (reread price) st else st).
Proof.
  intros Hm He.
  assert (PriceClient.get_base_mint_from_topic (get_price_topic_str (e, mk_token (to_lowercase mint) c, q)) =
    Ok (to_lowercase mint)) as Hmint.
  { unfold PriceClient.get_base_mint_from_topic, get_price_topic_str, PriceClient.TOPIC_SEP. cbn [fst snd].
    rewrite !token_text. cbn [tk_addr].
    change (exchange_to_string e +:+ "-" +:+ to_lowercase mint +:+ "-" +:+ tk_addr q)%string
      with (exchange_to_string e +:+ String "-"%char (to_lowercase mint +:+ String "-"%char (tk_addr q)))%string.
    by rewrite split_on_app, split_on_app by (done || by rewrite str_mem_lower). }
  unfold read. cbn [frame_text]. destruct (is_finite price) eqn:Hf.
  - rewrite parse_finite by done. unfold PriceClient.handle_item. cbn [PriceClient.topic PriceClient.price]. by rewrite Hmint.
  - by rewrite parse_null.
Qed.

(** C28. A client that has subscribed to its mints, and a server that has handled the
    subscriptions: every topic [t] of the server is of a token whose address is one of
    the mints of the client, in lower case; a finite price that the server then writes
    for [t] is read by the client as the price of that mint, as the JSON reader gives
    it, and nothing else of its state but the timer changes; a price that is not
    finite is not read, and no answer of the server is taken for a price. *)
Theorem prices_reach_their_mints mints sends sent reg s t price now st :
  Forall (fun mint => str_mem "-"%char mint = false) mints ->
  connect_and_subscribe renegade (Ok tt) sends mints [] = (Ok tt, sent) ->
  connection_loop lists_symbol canonical decode (arrives <$> sent) (mk_session [] reg []) = (Listening, s) ->
  t ∈ topics s ->
  exists mint c quote f, mint ∈ mints /\ t = (Renegade, mk_token (to_lowercase mint) c, quote) /\
    written (turn lists_symbol canonical decode (PriceReady t price (Ok tt)) s).2 = written s ++ [f] /\
    PriceClient.handle_item now (read f) st =
      (PriceClient.Continue,
       if is_finite price then PriceClient.update_price now (to_lowercase mint) (reread price) st else st) /\
    Forall (fun f => PriceClient.handle_item now (read f) st = (PriceClient.Continue, st)) (written s).
Proof.
  intros Hm Hc Hl Ht. apply (subscribe_all_spec renegade mints sends []) in Hc as [_ Hc].
  rewrite (Hc eq_refl) in Hl. clear Hc. cbn [app] in Hl.
  destruct (loop_topics lists_symbol canonical decode (arrives <$> (subscription renegade <$> mints)) (mk_session [] reg [])) as [_ Hx]; [constructor|].
  rewrite Hl in Hx. destruct (Hx t Ht) as [(pre & ev & post & Hev & (text & snt & -> & topic & Hd & Hr) & _)|[[[]%not_elem_of_nil _]|[r [=]]]].
  assert (Incoming (Some (Ok (Text text))) snt ∈ arrives <$> (subscription renegade <$> mints))
    as (msg & Heq & (mint & -> & Hin)%list_elem_of_fmap)%list_elem_of_fmap by (rewrite Hev; set_solver).
  injection Heq as -> ->. rewrite decode_encode in Hd. injection Hd as <-.
  rewrite Forall_forall in Hm.
  apply resolved_mint in Hr as (c & q & ->); [|by apply Hm].
  exists mint, c, q, (PriceMessage (get_price_topic_str (Renegade, mk_token (to_lowercase mint) c, q)) price).
  split_and!; [done|done| |by apply price_read; [apply Hm|]|].
  - cbn [turn]. by rewrite bool_decide_true.
  - clear -Hl parse_response parse_prose. assert (forall s0, connection_loop lists_symbol canonical decode
        (arrives <$> (subscription renegade <$> mints)) s0 = (Listening, s) ->
      Forall (fun f => exists r, f = Response r) (written s0) -> Forall (fun f => exists r, f = Response r) (written s)) as H.
    { clear Hl. induction mints as [|mint mints IH]; intros s0; cbn; [by intros [= ->]|].
      destruct (text_reply lists_symbol canonical decode (encode (subscription renegade mint)) (subscriptions s0, registry s0))
        as [(rep & [l rg] & Hr)|([l rg] & Hr)]; cbn in Hr; rewrite Hr; [|done].
      intros H Hw. eapply IH; [exact H|]. cbn. apply Forall_app. split; [done|]. repeat constructor. by exists rep. }
    eapply Forall_impl; [by apply (H _ Hl)|]. intros f [r ->]. cbn beta. by rewrite answer_no_price.
Qed.
End EndToEnd.

(** ** Witnesses *)
Module PriceEndToEndWitness.
Definition exchange_name (e : Exchange) : string := match e with Renegade => "renegade" | _ => "coinbase" end.
Definition read_exchange (n : string) : option Exchange :=
  if String.eqb n "renegade" then Some Renegade else if String.eqb n "coinbase" then Some Coinbase else None.
#[local] Instance mapped : TokenLib.
Proof.
  refine {| remaps := [(ArbitrumOne, PriceServerWitness.arbitrum)]; from_ticker_on_chain := PriceServerWitness.find_ticker;
    exchange_from_str := read_exchange; exchange_to_string := exchange_name; token_to_string := tk_addr;
    stable_ticker _ := USDC_TICKER; exchange_tickers _ _ := Some "T"%string;
    supported_exchanges _ := [Coinbase]; default_chain := ArbitrumOne |}.
  - apply NoDup_singleton.
  - intros c m addr ticker [= -> ->]%list_elem_of_singleton. unfold PriceServerWitness.arbitrum.
    by intros [[= -> ->]|[[= -> ->]|?%not_elem_of_nil]%elem_of_cons]%elem_of_cons.
Defined.
Definition encode1 (m : WebsocketMessage) : string :=
  match m with Subscribe t => String "+"%char t | Unsubscribe t => String "-"%char t end.
Definition decode1 (s : string) : option WebsocketMessage :=
  match s with
  | String "+" t => Some (Subscribe t)
  | String "-" t => Some (Unsubscribe t)
  | _ => None
  end%char.
Lemma decode_encode1 m : decode1 (encode1 m) = Some m.
Proof. by destruct m. Qed.
Definition canonical1 : gmap string Exchange := {["WETH"%string := Coinbase]}.
Definition session1 := connection_loop PriceServerWitness.lists canonical1 decode1
  (arrives encode1 <$> [subscription "renegade" "0xAA"]) (mk_session [] PriceReporter.streams_new []).
Definition weth : PriceTopic := (Renegade, mk_token "0xaa" ArbitrumOne, mk_token "0xbb" ArbitrumOne).
(** A toy codec: a price message is an object with its topic and a price of ten, or
    null. *)
Definition json1 (topic : string) (price : f64) : string :=
  if is_finite price then String "{"%char (String "n"%char topic) else String "{"%char (String "0"%char topic).
Definition parse1 (text : string) : option PriceClient.PriceMessage :=
  match text with
  | String "{" (String "n" topic) => Some (PriceClient.mk_message topic (of_Z 10))
  | _ => None
  end%char.
Lemma parse1_prose c text : letter c = true -> parse1 (String c text) = None.
Proof. by destruct c as [[] [] [] [] [] [] [] []]; vm_compute; intros ?. Qed.
(** The price of ten of the first topic reaches the client as the price of the mint. *)
Lemma prices_reach_their_mints_witness :
  exists f, written (turn PriceServerWitness.lists canonical1 decode1 (PriceReady weth (of_Z 10) (Ok tt)) session1.2).2 =
      written session1.2 ++ [f] /\
    PriceClient.handle_item 0 (read json1 (fun _ => "{}"%string) "" parse1 f) (PriceClient.state_new true) =
      (PriceClient.Continue, PriceClient.update_price 0 "0xaa" (of_Z 10) (PriceClient.state_new true)).
Proof.
  assert (session1.1 = Listening) as Hl by (vm_compute; reflexivity).
  assert (session1 = (Listening, session1.2)) as He by (rewrite <-Hl; apply surjective_pairing).
  assert (topics session1.2 = [weth]) as Ht by (vm_compute; reflexivity).
  destruct (prices_reach_their_mints (TL := mapped) PriceServerWitness.lists canonical1 encode1 decode1 decode_encode1 eq_refl eq_refl
    (fun _ => eq_refl) json1 (fun _ => "{}"%string) "" parse1 (fun _ => of_Z 10)
    ltac:(intros topic price Hf; unfold json1; by rewrite Hf) ltac:(intros topic price Hf; unfold json1; by rewrite Hf)
    (fun _ => eq_refl) parse1_prose ["0xAA"%string] (fun _ => Ok tt) [subscription "renegade" "0xAA"] PriceReporter.streams_new
    session1.2 weth (of_Z 10) 0 (PriceClient.state_new true)) as (mint & c & q & f & Hin & Hmint & Hw & Hread & _).
  - repeat constructor.
  - reflexivity.
  - exact He.
  - rewrite Ht. left.
  - exists f. split; [exact Hw|]. apply list_elem_of_singleton in Hin as ->. exact Hread.
Defined.
End PriceEndToEndWitness.
