(* ===== verification/RelayerProxy.v ===== *)
(** * Requests to the relayer (auth/auth-server/src: server/mod.rs,
    http_utils/request_response.rs)

    Every handler that needs the relayer sends its request through
    [send_admin_request], which takes the headers of the client, adds those of the
    trace, and authenticates the request with the key of the admin.  Headers are a
    multimap in the order of their insertion.  The signature, its encoding, the
    validity of names and values, and the relayer are parameters. *)
From Stdlib Require Import ZArith Lia.
From stdpp Require Import strings list.
From S2P Require Import Prelude AuthError.
From S2P Require Logging.
Local Open Scope Z_scope.

Abbreviation headers := (list (string * string)).

(** ** Header maps (the http library)

    The names of a map are in lower case.  [insert] drops the values that the name had,
    [append] keeps them. *)
Definition get_all (name : string) (hs : headers) : list string :=
  omap (fun h => if String.eqb h.1 name then Some h.2 else None) hs.
Definition insert_header (name value : string) (hs : headers) : headers :=
  List.filter (fun h => negb (String.eqb h.1 name)) hs ++ [(name, value)].
Definition append_header (name value : string) (hs : headers) : headers := hs ++ [(name, value)].
Definition CONTENT_LENGTH : string := "content-length".

(** ** http_utils/request_response.rs *)
Inductive HttpError := Network (msg : string) | Api (msg : string) | Parsing (msg : string).
Definition http_error_to_string (e : HttpError) : string :=
  match e with
  | Network m => "Network error: " +:+ m
  | Api m => "API error: " +:+ m
  | Parsing m => "Parsing error: " +:+ m
  end%string.
Definition is_success (status : Z) : bool := (200 <=? status) && (status <? 300).

Inductive method := GET | POST.
Record http_request := mk_http { hr_method : method; hr_url : string; hr_headers : headers; hr_body : string }.
(** A reply: its body may fail to arrive. *)
Record http_reply := mk_reply { rp_status : Z; rp_headers : headers; rp_body : res string string }.

Section Requests.
Context {Body : Type} (serialize : option Body -> string) (show_status : Z -> string).
(** [send] is the network, with a time limit in seconds. *)
Definition send_post_request (client_built : res string unit) (send : Z -> http_request -> res string http_reply)
    (url : string) (body : option Body) (timeout_secs : Z) : res HttpError http_reply :=
  _ ← map_err Network client_built;
  response ← map_err Network (send timeout_secs
    (mk_http POST url [("content-type", "application/json")]%string (serialize body)));
  if negb (is_success (rp_status response)) then
    message ← map_err Parsing (rp_body response);
    Err (Api ("Status " +:+ show_status (rp_status response) +:+ ": " +:+ message))
  else Ok response.
Definition empty_json_reply : string := "{}".
End Requests.

(** What the library decides of names and values: those it accepts, and that names are
    brought to lower case; the signature over path, headers and body, and its text. *)
Class HeaderLib (HmacKey : Type) := {
  AUTH_HEADER : string;
  EXPIRATION_HEADER : string;
  valid_name : string -> bool;
  valid_value : string -> bool;
  create_request_signature : string -> headers -> string -> HmacKey -> list Z;
  b64_encode : list Z -> string;
  show_int : Z -> string;
}.
(** The documented facts: the two names are header names of their own, which both
    versions of the library accept, as they do the length; names are accepted in
    lower case too; the text of a signature and of an integer is a value; and the
    signature does not cover the header that it is sent in. *)
Class GoodHeaderLib (HmacKey : Type) `{HeaderLib HmacKey} := {
  names_differ : AUTH_HEADER <> EXPIRATION_HEADER /\ AUTH_HEADER <> CONTENT_LENGTH /\ EXPIRATION_HEADER <> CONTENT_LENGTH;
  own_names_valid : valid_name AUTH_HEADER && valid_name EXPIRATION_HEADER && valid_name CONTENT_LENGTH = true;
  lower_valid n : valid_name n = true -> valid_name (to_lowercase n) = true;
  int_valid z : valid_value (show_int z) = true;
  b64_valid s : valid_value (b64_encode s) = true;
  signature_skips_auth path hs hs' body key :
    List.filter (fun h => negb (String.eqb h.1 AUTH_HEADER)) hs =
    List.filter (fun h => negb (String.eqb h.1 AUTH_HEADER)) hs' ->
    create_request_signature path hs body key = create_request_signature path hs' body key;
}.

Section Proxy.
Context {HmacKey : Type} {HL : HeaderLib HmacKey}.

(** What one of the two versions of the library refuses is skipped. *)
Definition convert_headers (hs : headers) : headers :=
  List.filter (fun h => valid_name h.1 && valid_value h.2) hs.

(** ** server/mod.rs *)
Definition ADMIN_AUTH_DURATION_MS : Z := 5000.
Definition add_trace_context_headers (trace_context : list (string * string)) (hs : headers) : headers :=
  fold_left (fun hs kv => if valid_name kv.1 && valid_value kv.2 then append_header (to_lowercase kv.1) kv.2 hs else hs)
    trace_context hs.
Definition admin_authenticate (relayer_admin_key : HmacKey) (now_ms : Z) (path : string) (hs : headers) (body : string)
    : res AuthServerError headers :=
  let expiration_ts := uadd 64 now_ms ADMIN_AUTH_DURATION_MS in
  let hs := insert_header EXPIRATION_HEADER (show_int expiration_ts) hs in
  let converted_headers := convert_headers hs in
  let b64_sig := b64_encode (create_request_signature path converted_headers body relayer_admin_key) in
  sig_header ← unwrap (if valid_value b64_sig then Some b64_sig else None);
  Ok (insert_header AUTH_HEADER sig_header hs).

Record response := mk_response { rs_status : Z; rs_headers : headers; rs_body : string }.
(** The relayer; the requests that were sent and what was logged are kept. *)
Record proxy_state := mk_proxy { sent : list http_request; logged : list Logging.event }.
Context (relayer : http_request -> res string http_reply).

Definition send_admin_request (relayer_url : string) (key : HmacKey) (now_ms : Z) (trace : list (string * string))
    (m : method) (path : string) (hs : headers) (body : string) : eff proxy_state AuthServerError response := fun st =>
  let hs := insert_header CONTENT_LENGTH (show_int (Z.of_nat (String.length body))) hs in
  let hs := add_trace_context_headers trace hs in
  match admin_authenticate key now_ms path hs body with
  | Ok hs =>
      let req := mk_http m (relayer_url +:+ path) hs body in
      let st := mk_proxy (sent st ++ [req]) (logged st) in
      match relayer req with
      | Ok resp =>
          match rp_body resp with
          | Ok body => (Ok (mk_response (rp_status resp) (rp_headers resp) body), st)
          | Err e => (Err (Serde ("Failed to read response body: " +:+ e)), st)
          | Panic => (Panic, st)
          end
      | Err e =>
          (Err (Custom e), mk_proxy (sent st) (logged st ++
            [Logging.auth_log_task Logging.AuthProxyRequest Logging.Failed
               [("subject", "forward"); ("error", e)]%string "error proxying request"]))
      | Panic => (Panic, st)
      end
  | Err e => (Err e, st)
  | Panic => (Panic, st)
  end.

(** The relayer as the handlers of the matches and of the markets call it: the answer to a
    path and a body is a status and a body. *)
Definition proxied {Body} (url : string) (key : HmacKey) (now_ms : Z) (trace : list (string * string)) (m : method)
    (hs : headers) (to_text : Body -> string) (path : string) (body : Body) : res AuthServerError (Z * string) :=
  resp ← (send_admin_request url key now_ms trace m path hs (to_text body) (mk_proxy [] [])).1;
  Ok (rs_status resp, rs_body resp).

(** ** What the relayer is sent *)
Lemma filter_comm {A} (f g : A -> bool) l : List.filter f (List.filter g l) = List.filter g (List.filter f l).
Proof.
  induction l as [|x l IH]; [done|]. cbn.
  destruct (g x) eqn:Hg, (f x) eqn:Hf; cbn; rewrite ?Hg, ?Hf; by rewrite IH.
Qed.
Lemma get_all_app n hs hs' : get_all n (hs ++ hs') = get_all n hs ++ get_all n hs'.
Proof. apply omap_app. Qed.
Lemma get_all_filter n m hs :
  get_all n (List.filter (fun h => negb (String.eqb h.1 m)) hs) = if String.eqb n m then [] else get_all n hs.
Proof.
  unfold get_all. induction hs as [|[k v] hs IH]; cbn; [by destruct (String.eqb n m)|].
  destruct (String.eqb_spec k m) as [->|Hm]; cbn; rewrite IH;
    destruct (String.eqb_spec n m) as [->|Hnm]; try done.
  - destruct (String.eqb_spec m n); [congruence|done].
  - by destruct (String.eqb_spec k m).
Qed.
Lemma get_all_insert n m v hs : get_all n (insert_header m v hs) = if String.eqb n m then [v] else get_all n hs.
Proof.
  unfold insert_header. rewrite get_all_app, get_all_filter. cbn. rewrite (String.eqb_sym m n).
  destruct (String.eqb n m); [done|by rewrite app_nil_r].
Qed.
(** The values that the trace has for a name. *)
Definition trace_values (n : string) (trace : list (string * string)) : list string :=
  omap (fun kv => if valid_name kv.1 && valid_value kv.2 && String.eqb (to_lowercase kv.1) n then Some kv.2 else None) trace.
Lemma get_all_trace n trace hs : get_all n (add_trace_context_headers trace hs) = get_all n hs ++ trace_values n trace.
Proof.
  revert hs. induction trace as [|[k v] trace IH]; intros hs; [cbn; by rewrite app_nil_r|].
  change (add_trace_context_headers ((k, v) :: trace) hs) with (add_trace_context_headers trace
    (if valid_name k && valid_value v then append_header (to_lowercase k) v hs else hs)).
  rewrite IH. unfold trace_values. cbn. destruct (valid_name k && valid_value v); cbn; [|done].
  unfold append_header. rewrite get_all_app. cbn. destruct (String.eqb (to_lowercase k) n); cbn;
    [by rewrite <-app_assoc|by rewrite app_nil_r].
Qed.

Context {GH : GoodHeaderLib HmacKey}.
(** The signature that is sent is the one over the headers that are sent. *)
Lemma signature_verifies path v hs body key :
  create_request_signature path (convert_headers hs) body key =
  create_request_signature path (convert_headers (insert_header AUTH_HEADER v hs)) body key.
Proof.
  apply signature_skips_auth. unfold convert_headers. rewrite !(filter_comm (fun h => negb _)). f_equal.
  unfold insert_header. rewrite List.filter_app. cbn. rewrite String.eqb_refl. cbn. rewrite app_nil_r.
  symmetry. apply List.forallb_filter_id. apply List.forallb_forall. intros x Hx. by apply List.filter_In in Hx as [_ Hx].
Qed.

(** The headers of a request that both versions of the library accept. *)
Definition accepted (h : string * string) : bool := valid_name h.1 && valid_value h.2.
Lemma accepted_insert n v hs :
  valid_name n = true -> valid_value v = true ->
  List.filter accepted (insert_header n v hs) = insert_header n v (List.filter accepted hs).
Proof.
  intros Hn Hv. unfold insert_header. rewrite List.filter_app, (filter_comm accepted). cbn.
  unfold accepted at 2. cbn. by rewrite Hn, Hv.
Qed.
Lemma accepted_trace trace hs :
  List.filter accepted (add_trace_context_headers trace hs) = add_trace_context_headers trace (List.filter accepted hs).
Proof.
  revert hs. unfold add_trace_context_headers. induction trace as [|[k v] trace IH]; intros hs; [done|].
  cbn [fold_left fst snd]. rewrite IH. f_equal. destruct (valid_name k) eqn:Hk, (valid_value v) eqn:Hv; try done.
  cbn. unfold append_header. rewrite List.filter_app. cbn. unfold accepted at 2. cbn.
  by rewrite (lower_valid _ Hk), Hv.
Qed.

(** C36. Whatever headers a client sends, the relayer is sent one request, to the given path
    with the given body, that has one expiration, five seconds from now, and one
    signature, made with the key of the admin over the path, the body and the headers
    that are sent, less those one version of the library refuses: the expiration is
    among those signed, and when the client's headers are accepted all of them are.
    The client's other headers go along unchanged, with those of the trace.  The reply
    is the relayer's, with its status, headers and body. *)
Theorem admin_request_authenticated url key now_ms trace m path hs body st r st' :
  send_admin_request url key now_ms trace m path hs body st = (r, st') ->
  exists req, sent st' = sent st ++ [req] /\
    hr_method req = m /\ hr_url req = (url +:+ path)%string /\ hr_body req = body /\
    get_all EXPIRATION_HEADER (hr_headers req) = [show_int (uadd 64 now_ms 5000)] /\
    get_all AUTH_HEADER (hr_headers req) =
      [b64_encode (create_request_signature path
         (List.filter (fun h => valid_name h.1 && valid_value h.2) (hr_headers req)) body key)] /\
    In (EXPIRATION_HEADER, show_int (uadd 64 now_ms 5000))
      (List.filter (fun h => valid_name h.1 && valid_value h.2) (hr_headers req)) /\
    (Forall (fun h => valid_name h.1 = true /\ valid_value h.2 = true) hs ->
       List.filter (fun h => valid_name h.1 && valid_value h.2) (hr_headers req) = hr_headers req) /\
    get_all CONTENT_LENGTH (hr_headers req) =
      show_int (Z.of_nat (String.length body)) :: trace_values CONTENT_LENGTH trace /\
    (forall n, n <> AUTH_HEADER -> n <> EXPIRATION_HEADER -> n <> CONTENT_LENGTH ->
       get_all n (hr_headers req) = get_all n hs ++ trace_values n trace) /\
    (forall resp, r = Ok resp <-> relayer req = Ok (mk_reply (rs_status resp) (rs_headers resp) (Ok (rs_body resp)))).
Proof.
  destruct names_differ as (Hae & Hac & Hec).
  pose proof own_names_valid as [[Hva Hve]%andb_true_iff Hvc]%andb_true_iff.
  unfold send_admin_request, admin_authenticate. rewrite b64_valid. cbn [unwrap mbind res_bind].
  match goal with |- context [mk_http m _ ?h body] => set (req := mk_http m (url +:+ path) h body) end.
  intros H. exists req. split.
  { destruct (relayer req) as [[? ? []]|?|]; injection H as <- <-; done. }
  split_and!; [done..| | | | | | |].
  - unfold req; cbn [hr_headers]. rewrite !get_all_insert. rewrite String.eqb_refl. by destruct (String.eqb_spec EXPIRATION_HEADER AUTH_HEADER).
  - unfold req; cbn [hr_headers]. rewrite get_all_insert, String.eqb_refl. do 2 f_equal. apply signature_verifies.
  - apply List.filter_In. cbn. rewrite Hve, int_valid. split; [|done]. unfold insert_header at 1.
    apply in_or_app. left. apply List.filter_In. cbn. split; [apply in_or_app; right; by left|].
    by destruct (String.eqb_spec EXPIRATION_HEADER AUTH_HEADER).
  - intros Hhs. fold accepted. unfold req; cbn [hr_headers].
    match goal with |- context [b64_encode ?t] => generalize t end. intros sig.
    rewrite 2!accepted_insert, accepted_trace, accepted_insert by auto using int_valid, b64_valid.
    rewrite (List.forallb_filter_id accepted hs); [done|]. apply List.forallb_forall. intros h Hh%list_elem_of_In.
    rewrite Forall_forall in Hhs. apply Hhs in Hh as [Hn Hv]. unfold accepted. by rewrite Hn, Hv.
  - unfold req; cbn [hr_headers]. rewrite !get_all_insert, get_all_trace, get_all_insert, String.eqb_refl.
    destruct (String.eqb_spec CONTENT_LENGTH AUTH_HEADER); [congruence|].
    by destruct (String.eqb_spec CONTENT_LENGTH EXPIRATION_HEADER).
  - intros n Hn1 Hn2 Hn3. unfold req; cbn [hr_headers]. rewrite !get_all_insert, get_all_trace, get_all_insert.
    by destruct (String.eqb_spec n AUTH_HEADER), (String.eqb_spec n EXPIRATION_HEADER), (String.eqb_spec n CONTENT_LENGTH).
  - intros [status rhs rbody]. cbn. destruct (relayer req) as [[s0 h0 b0]|e|]; cbn in H.
    + destruct b0; injection H as <- <-; split; congruence.
    + injection H as <- <-. split; congruence.
    + injection H as <- <-. split; congruence.
Qed.

(** A handler sees a status and a body exactly when the relayer gave them to the request
    that was sent for it. *)
Lemma proxied_answer {Body} url key now_ms trace m hs (to_text : Body -> string) path body status text :
  proxied url key now_ms trace m hs to_text path body = Ok (status, text) <->
  exists req rhs, sent (send_admin_request url key now_ms trace m path hs (to_text body) (mk_proxy [] [])).2 = [req] /\
    relayer req = Ok (mk_reply status rhs (Ok text)).
Proof.
  unfold proxied, send_admin_request, admin_authenticate. rewrite b64_valid. cbn [unwrap mbind res_bind].
  match goal with |- context [relayer ?q] => set (req := q) end.
  destruct (relayer req) as [[s0 h0 [b0|e|]]|e|] eqn:Hr; cbn; (split; [|intros (q & rhs & [= <-] & Hq); congruence]);
    [|done..]. intros [= -> ->]. by exists req, h0.
Qed.

(** A relayer that cannot be reached is one line at the level of errors. *)
Lemma unreachable_relayer_logged url key now_ms trace m path hs body st e :
  (forall req, relayer req = Err e) ->
  let '(r, st') := send_admin_request url key now_ms trace m path hs body st in
  r = Err (Custom e) /\ exists ev, logged st' = logged st ++ [ev] /\ Logging.ev_level ev = Logging.ERROR.
Proof.
  intros Hr. unfold send_admin_request, admin_authenticate. rewrite b64_valid. cbn [unwrap mbind res_bind].
  rewrite Hr. split; [done|]. by eexists.
Qed.
End Proxy.

(** ** Witnesses *)
Module RelayerProxyWitness.
Definition toy_sign (path : string) (hs : headers) (body : string) (key : unit) : list Z :=
  [Z.of_nat (length (List.filter (fun h => negb (String.eqb h.1 "x-renegade-auth")) hs))].
#[local] Instance toy_lib : HeaderLib unit := {|
  AUTH_HEADER := "x-renegade-auth"%string; EXPIRATION_HEADER := "x-renegade-auth-expiration"%string;
  valid_name _ := true; valid_value _ := true; create_request_signature := toy_sign;
  b64_encode l := match l with [2] => "two"%string | _ => "other"%string end;
  show_int z := if (z =? 5007)%Z then "5007"%string else "n"%string |}.
#[local] Instance toy_good : GoodHeaderLib unit.
Proof.
  constructor; [done..|]. intros path hs hs' body key H. cbn in H |- *. unfold toy_sign. by rewrite H.
Defined.
Definition client_headers : headers := [("x-renegade-auth", "mine"); ("x-renegade-api-key", "k")]%string.
Definition run1 := send_admin_request (HL := toy_lib) (fun _ => Ok (mk_reply 200 [] (Ok "pong"%string)))
  "http://relayer" tt 7 [] POST "/v2/x" client_headers "body" (mk_proxy [] []).
Lemma admin_request_authenticated_witness :
  exists req, sent run1.2 = [req] /\ length (get_all "x-renegade-auth" (hr_headers req)) = 1%nat /\
    get_all "x-renegade-auth-expiration" (hr_headers req) = ["5007"%string] /\
    List.filter (fun h => valid_name h.1 && valid_value h.2) (hr_headers req) = hr_headers req.
Proof.
  destruct (admin_request_authenticated (HL := toy_lib) (GH := toy_good) (fun _ => Ok (mk_reply 200 [] (Ok "pong"%string)))
    "http://relayer" tt 7 [] POST "/v2/x" client_headers "body" (mk_proxy [] []) run1.1 run1.2)
    as (req & Hs & _ & _ & _ & He & Ha & _ & Hall & _); [apply surjective_pairing|].
  exists req. split_and!; [exact Hs| |exact He|].
  - change "x-renegade-auth"%string with (AUTH_HEADER (HmacKey := unit)). by rewrite Ha.
  - apply Hall. by repeat constructor.
Defined.
End RelayerProxyWitness.
