(* ===== verification/ProverService.v ===== *)
(** * The prover service (prover-service: server/src/{main,prover,middleware,error}.rs,
    api/src/lib.rs)

    Twenty endpoints, one per circuit, behind HTTP basic authentication.  Each proves
    its circuit on the witness and the statement of the request on a blocking
    thread; the settlement endpoints also link the proof to the validity proofs it
    settles.  The proving library is a parameter: every call to it is recorded with
    its outcome, which may depend on all the calls before it. *)
From Stdlib Require Import ZArith Lia Ascii.
From stdpp Require Import gmap strings list.
From S2P Require Import Prelude Warp.
Local Open Scope string_scope.

(** ** The circuits and the library *)
Inductive Circuit :=
  (* updates *)
  | ValidBalanceCreate | ValidDeposit | ValidOrderCancellation | ValidWithdrawal
  (* validity *)
  | IntentAndBalanceValidity | IntentAndBalanceFirstFillValidity | IntentOnlyValidity
  | IntentOnlyFirstFillValidity | NewOutputBalanceValidity | OutputBalanceValidity
  (* settlement *)
  | IntentAndBalanceBoundedSettlement | IntentAndBalancePrivateSettlement
  | IntentAndBalancePublicSettlement | IntentOnlyBoundedSettlement | IntentOnlyPublicSettlement
  (* fees *)
  | ValidNoteRedemption | ValidPrivateProtocolFeePayment | ValidPrivateRelayerFeePayment
  | ValidPublicProtocolFeePayment | ValidPublicRelayerFeePayment.
#[export] Instance Circuit_eq_dec : EqDecision Circuit.
Proof. solve_decision. Defined.

(** Witnesses, statements, proofs and errors of the library. *)
Class ProverTypes := {
  Witness : Circuit -> Type;
  Statement : Circuit -> Type;
  PlonkProof : Type;
  PlonkLinkProof : Type;
  ProofLinkingHint : Type;
  LibError : Type;
}.

(** ** error.rs *)
Inductive ProverServiceError :=
  | BadRequest (msg : string)
  | CustomError (msg : string)
  | Prover (msg : string)
  | Setup (msg : string)
  | Unauthorized (msg : string).

Definition error_to_string (e : ProverServiceError) : string :=
  match e with
  | BadRequest msg => "bad request: " +:+ msg
  | CustomError msg => "error: " +:+ msg
  | Prover msg => "error proving circuit: " +:+ msg
  | Setup msg => "error setting up server: " +:+ msg
  | Unauthorized msg => "unauthorized: " +:+ msg
  end.
Definition json_error (msg : string) (code : Z) : Z * string := (code, msg).
Definition to_reply (e : ProverServiceError) : Z * string :=
  match e with
  | BadRequest msg => json_error msg 400
  | Unauthorized msg => json_error msg 401
  | x => json_error (error_to_string x) 500
  end.

Section Api.
Context `{ProverTypes}.

(** ** The responses and requests of the API *)
Record ProofResponse := mk_proof_response { pr_proof : PlonkProof }.
Record ProofAndHintResponse := mk_proof_and_hint_response {
  ph_proof : PlonkProof; ph_link_hint : ProofLinkingHint }.
Record SettlementProofResponse := mk_settlement_response {
  sr_proof : PlonkProof; sr_link_proof : PlonkLinkProof }.
Record PrivateSettlementProofResponse := mk_private_response {
  vr_proof : PlonkProof;
  vr_validity_link_proof_0 : PlonkLinkProof;
  vr_validity_link_proof_1 : PlonkLinkProof;
  vr_output_balance_link_proof_0 : PlonkLinkProof;
  vr_output_balance_link_proof_1 : PlonkLinkProof }.
Record PublicSettlementProofResponse := mk_public_response {
  ur_proof : PlonkProof;
  ur_validity_link_proof : PlonkLinkProof;
  ur_output_balance_link_proof : PlonkLinkProof }.

Record ValidBalanceCreateRequest := mk_vbc {
  vbc_statement : Statement ValidBalanceCreate; vbc_witness : Witness ValidBalanceCreate }.
Record ValidDepositRequest := mk_vd {
  vd_statement : Statement ValidDeposit; vd_witness : Witness ValidDeposit }.
Record ValidOrderCancellationRequest := mk_voc {
  voc_statement : Statement ValidOrderCancellation; voc_witness : Witness ValidOrderCancellation }.
Record ValidWithdrawalRequest := mk_vw {
  vw_statement : Statement ValidWithdrawal; vw_witness : Witness ValidWithdrawal }.
Record IntentAndBalanceValidityRequest := mk_ibv {
  ibv_statement : Statement IntentAndBalanceValidity; ibv_witness : Witness IntentAndBalanceValidity }.
Record IntentAndBalanceFirstFillValidityRequest := mk_ibf {
  ibf_statement : Statement IntentAndBalanceFirstFillValidity;
  ibf_witness : Witness IntentAndBalanceFirstFillValidity }.
Record IntentOnlyValidityRequest := mk_iov {
  iov_statement : Statement IntentOnlyValidity; iov_witness : Witness IntentOnlyValidity }.
Record IntentOnlyFirstFillValidityRequest := mk_iof {
  iof_statement : Statement IntentOnlyFirstFillValidity; iof_witness : Witness IntentOnlyFirstFillValidity }.
Record NewOutputBalanceValidityRequest := mk_nob {
  nob_statement : Statement NewOutputBalanceValidity; nob_witness : Witness NewOutputBalanceValidity }.
Record OutputBalanceValidityRequest := mk_obv {
  obv_statement : Statement OutputBalanceValidity; obv_witness : Witness OutputBalanceValidity }.

Record IntentAndBalanceBoundedSettlementRequest := mk_ibb {
  ibb_statement : Statement IntentAndBalanceBoundedSettlement;
  ibb_witness : Witness IntentAndBalanceBoundedSettlement;
  ibb_validity_link_hint : ProofLinkingHint;
  ibb_output_balance_link_hint : ProofLinkingHint }.
Record IntentAndBalancePrivateSettlementRequest := mk_ibp {
  ibp_statement : Statement IntentAndBalancePrivateSettlement;
  ibp_witness : Witness IntentAndBalancePrivateSettlement;
  ibp_validity_link_hint_0 : ProofLinkingHint;
  ibp_validity_link_hint_1 : ProofLinkingHint;
  ibp_output_balance_link_hint_0 : ProofLinkingHint;
  ibp_output_balance_link_hint_1 : ProofLinkingHint }.
Record IntentAndBalancePublicSettlementRequest := mk_ibu {
  ibu_statement : Statement IntentAndBalancePublicSettlement;
  ibu_witness : Witness IntentAndBalancePublicSettlement;
  ibu_validity_link_hint : ProofLinkingHint;
  ibu_output_balance_link_hint : ProofLinkingHint }.
Record IntentOnlyBoundedSettlementRequest := mk_iob {
  iob_statement : Statement IntentOnlyBoundedSettlement;
  iob_witness : Witness IntentOnlyBoundedSettlement;
  iob_validity_link_hint : ProofLinkingHint }.
Record IntentOnlyPublicSettlementRequest := mk_iou {
  iou_statement : Statement IntentOnlyPublicSettlement;
  iou_witness : Witness IntentOnlyPublicSettlement;
  iou_validity_link_hint : ProofLinkingHint }.

Record ValidNoteRedemptionRequest := mk_vnr {
  vnr_statement : Statement ValidNoteRedemption; vnr_witness : Witness ValidNoteRedemption }.
Record ValidPrivateProtocolFeePaymentRequest := mk_vpp {
  vpp_statement : Statement ValidPrivateProtocolFeePayment; vpp_witness : Witness ValidPrivateProtocolFeePayment }.
Record ValidPrivateRelayerFeePaymentRequest := mk_vpr {
  vpr_statement : Statement ValidPrivateRelayerFeePayment; vpr_witness : Witness ValidPrivateRelayerFeePayment }.
Record ValidPublicProtocolFeePaymentRequest := mk_vup {
  vup_statement : Statement ValidPublicProtocolFeePayment; vup_witness : Witness ValidPublicProtocolFeePayment }.
Record ValidPublicRelayerFeePaymentRequest := mk_vur {
  vur_statement : Statement ValidPublicRelayerFeePayment; vur_witness : Witness ValidPublicRelayerFeePayment }.

Definition request_of (c : Circuit) : Type :=
  match c with
  | ValidBalanceCreate => ValidBalanceCreateRequest
  | ValidDeposit => ValidDepositRequest
  | ValidOrderCancellation => ValidOrderCancellationRequest
  | ValidWithdrawal => ValidWithdrawalRequest
  | IntentAndBalanceValidity => IntentAndBalanceValidityRequest
  | IntentAndBalanceFirstFillValidity => IntentAndBalanceFirstFillValidityRequest
  | IntentOnlyValidity => IntentOnlyValidityRequest
  | IntentOnlyFirstFillValidity => IntentOnlyFirstFillValidityRequest
  | NewOutputBalanceValidity => NewOutputBalanceValidityRequest
  | OutputBalanceValidity => OutputBalanceValidityRequest
  | IntentAndBalanceBoundedSettlement => IntentAndBalanceBoundedSettlementRequest
  | IntentAndBalancePrivateSettlement => IntentAndBalancePrivateSettlementRequest
  | IntentAndBalancePublicSettlement => IntentAndBalancePublicSettlementRequest
  | IntentOnlyBoundedSettlement => IntentOnlyBoundedSettlementRequest
  | IntentOnlyPublicSettlement => IntentOnlyPublicSettlementRequest
  | ValidNoteRedemption => ValidNoteRedemptionRequest
  | ValidPrivateProtocolFeePayment => ValidPrivateProtocolFeePaymentRequest
  | ValidPrivateRelayerFeePayment => ValidPrivateRelayerFeePaymentRequest
  | ValidPublicProtocolFeePayment => ValidPublicProtocolFeePaymentRequest
  | ValidPublicRelayerFeePayment => ValidPublicRelayerFeePaymentRequest
  end.

(** ** Calls to the library, with what came of them ([Panic]: the thread panicked) *)
Inductive link_kind := LinkIntentAndBalance (party : Z) | LinkOutputBalance (party : Z) | LinkIntentOnly.
Inductive call :=
  | Proved (c : Circuit) (w : Witness c) (s : Statement c) (out : res LibError (PlonkProof * ProofLinkingHint))
  | Linked (k : link_kind) (validity settlement : ProofLinkingHint) (out : res LibError PlonkLinkProof).

(** A reply with status 200 and its body, or an error with its status. *)
Inductive reply :=
  | Pong
  | ProofJson (r : ProofResponse)
  | ProofAndHintJson (r : ProofAndHintResponse)
  | SettlementJson (r : SettlementProofResponse)
  | PrivateSettlementJson (r : PrivateSettlementProofResponse)
  | PublicSettlementJson (r : PublicSettlementProofResponse)
  | ErrorJson (e : Z * string).
End Api.

(** ** The proving library

    Its functions may answer differently each time (they draw randomness), so their
    outcome may depend on the calls made before; [link_*] are the three linkers of
    the circuits crate.  [JoinError] is the text of a panicked thread.
    [tokio::try_join!] polls its futures in order, which starts each of them, and
    answers with the first failure it sees: [seen_at_once] says whether a failure is
    seen before the next future is started, [first_failed] which of several wins. *)
Class ProverLib `{ProverTypes, WarpLib} := {
  lib_error_to_string : LibError -> string;
  join_error_to_string : list call -> string;
  singleprover_prove_with_hint : list call -> forall c : Circuit, Witness c -> Statement c ->
    res LibError (PlonkProof * ProofLinkingHint);
  link_sized_intent_and_balance_settlement_with_party :
    list call -> Z -> ProofLinkingHint -> ProofLinkingHint -> res LibError PlonkLinkProof;
  link_sized_output_balance_settlement_with_party :
    list call -> Z -> ProofLinkingHint -> ProofLinkingHint -> res LibError PlonkLinkProof;
  link_sized_intent_only_settlement :
    list call -> ProofLinkingHint -> ProofLinkingHint -> res LibError PlonkLinkProof;
  seen_at_once : list call -> bool;
  first_failed : list call -> Rejection ProverServiceError -> list (Rejection ProverServiceError) ->
    Rejection ProverServiceError;
  first_failed_in cs e es : first_failed cs e es ∈ e :: es;
}.

(** ** prover.rs *)
Section Prover.
Context `{ProverLib}.

Abbreviation prover_eff := (eff (list call) (Rejection ProverServiceError)).

Definition custom (e : ProverServiceError) : Rejection ProverServiceError := reject (Custom e).

Definition contains (sub s : string) : bool :=
  match String.index 0 sub s with Some _ => true | None => false end.

(** Runs the closure on a blocking thread; its call is recorded. *)
Definition run_blocking {A} (f : list call -> res LibError A) (record : res LibError A -> call)
    : prover_eff A := fun cs =>
  let out := f cs in
  let cs' := (cs ++ [record out])%list in
  match out with
  | Ok r => (Ok r, cs')
  | Panic => (Err (custom (CustomError (join_error_to_string cs'))), cs')
  | Err e =>
      let err_str := lib_error_to_string e in
      if contains "WrongQuotientPolyDegree" err_str
      then (Err (custom (BadRequest ("Invalid witness: " +:+ err_str))), cs')
      else (Err (custom (Prover err_str)), cs')
  end.

Definition prove_circuit (c : Circuit) (w : Witness c) (st : Statement c)
    : prover_eff (PlonkProof * ProofLinkingHint) :=
  run_blocking (fun cs => singleprover_prove_with_hint cs c w st) (Proved c w st).
Definition generate_proof_json (c : Circuit) (w : Witness c) (st : Statement c) : prover_eff reply :=
  p ← prove_circuit c w st;
  mret (ProofJson (mk_proof_response p.1)).
Definition generate_proof_and_hint_json (c : Circuit) (w : Witness c) (st : Statement c) : prover_eff reply :=
  p ← prove_circuit c w st;
  mret (ProofAndHintJson (mk_proof_and_hint_response p.1 p.2)).

Definition blocking_intent_and_balance_link (party_id : Z) (validity_hint settlement_hint : ProofLinkingHint)
    : prover_eff PlonkLinkProof :=
  run_blocking
    (fun cs => link_sized_intent_and_balance_settlement_with_party cs party_id validity_hint settlement_hint)
    (Linked (LinkIntentAndBalance party_id) validity_hint settlement_hint).
Definition blocking_output_balance_link (party_id : Z) (output_hint settlement_hint : ProofLinkingHint)
    : prover_eff PlonkLinkProof :=
  run_blocking
    (fun cs => link_sized_output_balance_settlement_with_party cs party_id output_hint settlement_hint)
    (Linked (LinkOutputBalance party_id) output_hint settlement_hint).
Definition blocking_intent_only_link (validity_hint settlement_hint : ProofLinkingHint)
    : prover_eff PlonkLinkProof :=
  run_blocking
    (fun cs => link_sized_intent_only_settlement cs validity_hint settlement_hint)
    (Linked LinkIntentOnly validity_hint settlement_hint).

(** [try_join!]: the failures seen so far, or the one that ended the round. *)
Inductive joined (A : Type) :=
  | JOk (a : A)
  | JFailed (e : Rejection ProverServiceError) (es : list (Rejection ProverServiceError))
  | JStopped (e : Rejection ProverServiceError)
  | JPanicked.
Arguments JOk {A} _.
Arguments JFailed {A} _ _.
Arguments JStopped {A} _.
Arguments JPanicked {A}.
Definition poll {A} (t : prover_eff A) : list call -> joined A * list call := fun cs =>
  match t cs with
  | (Ok a, cs) => (JOk a, cs)
  | (Err e, cs) => (if seen_at_once cs then JStopped e else JFailed e [], cs)
  | (Panic, cs) => (JPanicked, cs)
  end.
Definition and_poll {A B} (t : list call -> joined A * list call) (u : list call -> joined B * list call)
    : list call -> joined (A * B) * list call := fun cs =>
  match t cs with
  | (JStopped e, cs) => (JStopped e, cs)
  | (JPanicked, cs) => (JPanicked, cs)
  | (JOk a, cs) =>
      match u cs with
      | (JOk b, cs) => (JOk (a, b), cs)
      | (JFailed e es, cs) => (JFailed e es, cs)
      | (JStopped e, cs) => (JStopped e, cs)
      | (JPanicked, cs) => (JPanicked, cs)
      end
  | (JFailed e es, cs) =>
      match u cs with
      | (JOk _, cs) => (JFailed e es, cs)
      | (JFailed e' es', cs) => (JFailed e (es ++ e' :: es')%list, cs)
      | (JStopped e', cs) => (JStopped e', cs)
      | (JPanicked, cs) => (JPanicked, cs)
      end
  end.
Definition try_join {A} (t : list call -> joined A * list call) : prover_eff A := fun cs =>
  match t cs with
  | (JOk a, cs) => (Ok a, cs)
  | (JFailed e es, cs) => (Err (first_failed cs e es), cs)
  | (JStopped e, cs) => (Err e, cs)
  | (JPanicked, cs) => (Panic, cs)
  end.

Definition PARTY_0 : Z := 0.
Definition PARTY_1 : Z := 1.

(** *** Updates *)
Definition handle_valid_balance_create (request : ValidBalanceCreateRequest) : prover_eff reply :=
  generate_proof_json ValidBalanceCreate (vbc_witness request) (vbc_statement request).
Definition handle_valid_deposit (request : ValidDepositRequest) : prover_eff reply :=
  generate_proof_json ValidDeposit (vd_witness request) (vd_statement request).
Definition handle_valid_order_cancellation (request : ValidOrderCancellationRequest) : prover_eff reply :=
  generate_proof_json ValidOrderCancellation (voc_witness request) (voc_statement request).
Definition handle_valid_withdrawal (request : ValidWithdrawalRequest) : prover_eff reply :=
  generate_proof_json ValidWithdrawal (vw_witness request) (vw_statement request).

(** *** Validity *)
Definition handle_intent_and_balance_validity (request : IntentAndBalanceValidityRequest) : prover_eff reply :=
  generate_proof_and_hint_json IntentAndBalanceValidity (ibv_witness request) (ibv_statement request).
Definition handle_intent_and_balance_first_fill_validity (request : IntentAndBalanceFirstFillValidityRequest) : prover_eff reply :=
  generate_proof_and_hint_json IntentAndBalanceFirstFillValidity (ibf_witness request) (ibf_statement request).
Definition handle_intent_only_validity (request : IntentOnlyValidityRequest) : prover_eff reply :=
  generate_proof_and_hint_json IntentOnlyValidity (iov_witness request) (iov_statement request).
Definition handle_intent_only_first_fill_validity (request : IntentOnlyFirstFillValidityRequest) : prover_eff reply :=
  generate_proof_and_hint_json IntentOnlyFirstFillValidity (iof_witness request) (iof_statement request).
Definition handle_new_output_balance_validity (request : NewOutputBalanceValidityRequest) : prover_eff reply :=
  generate_proof_and_hint_json NewOutputBalanceValidity (nob_witness request) (nob_statement request).
Definition handle_output_balance_validity (request : OutputBalanceValidityRequest) : prover_eff reply :=
  generate_proof_and_hint_json OutputBalanceValidity (obv_witness request) (obv_statement request).

(** *** Settlements *)
Definition handle_intent_and_balance_bounded_settlement (request : IntentAndBalanceBoundedSettlementRequest)
    : prover_eff reply :=
  p ← prove_circuit IntentAndBalanceBoundedSettlement (ibb_witness request) (ibb_statement request);
  let '(proof, settlement_link_hint) := p in
  links ← try_join
    (and_poll
      (poll (blocking_intent_and_balance_link PARTY_0 (ibb_validity_link_hint request) settlement_link_hint))
      (poll (blocking_output_balance_link PARTY_0 (ibb_output_balance_link_hint request) settlement_link_hint)));
  let '(validity_link_proof, output_balance_link_proof) := links in
  mret (PublicSettlementJson (mk_public_response proof validity_link_proof output_balance_link_proof)).
Definition handle_intent_and_balance_private_settlement (request : IntentAndBalancePrivateSettlementRequest)
    : prover_eff reply :=
  p ← prove_circuit IntentAndBalancePrivateSettlement (ibp_witness request) (ibp_statement request);
  let '(proof, settlement_link_hint) := p in
  links ← try_join
    (and_poll (and_poll (and_poll
      (poll (blocking_intent_and_balance_link PARTY_0 (ibp_validity_link_hint_0 request) settlement_link_hint))
      (poll (blocking_intent_and_balance_link PARTY_1 (ibp_validity_link_hint_1 request) settlement_link_hint)))
      (poll (blocking_output_balance_link PARTY_0 (ibp_output_balance_link_hint_0 request) settlement_link_hint)))
      (poll (blocking_output_balance_link PARTY_1 (ibp_output_balance_link_hint_1 request) settlement_link_hint)));
  let '(validity_link_proof_0, validity_link_proof_1, output_balance_link_proof_0, output_balance_link_proof_1) :=
    links in
  mret (PrivateSettlementJson (mk_private_response proof validity_link_proof_0 validity_link_proof_1
    output_balance_link_proof_0 output_balance_link_proof_1)).
Definition handle_intent_and_balance_public_settlement (request : IntentAndBalancePublicSettlementRequest)
    : prover_eff reply :=
  p ← prove_circuit IntentAndBalancePublicSettlement (ibu_witness request) (ibu_statement request);
  let '(proof, settlement_link_hint) := p in
  links ← try_join
    (and_poll
      (poll (blocking_intent_and_balance_link PARTY_0 (ibu_validity_link_hint request) settlement_link_hint))
      (poll (blocking_output_balance_link PARTY_0 (ibu_output_balance_link_hint request) settlement_link_hint)));
  let '(validity_link_proof, output_balance_link_proof) := links in
  mret (PublicSettlementJson (mk_public_response proof validity_link_proof output_balance_link_proof)).
Definition handle_intent_only_bounded_settlement (request : IntentOnlyBoundedSettlementRequest)
    : prover_eff reply :=
  p ← prove_circuit IntentOnlyBoundedSettlement (iob_witness request) (iob_statement request);
  let '(proof, settlement_link_hint) := p in
  link_proof ← blocking_intent_only_link (iob_validity_link_hint request) settlement_link_hint;
  mret (SettlementJson (mk_settlement_response proof link_proof)).
Definition handle_intent_only_public_settlement (request : IntentOnlyPublicSettlementRequest)
    : prover_eff reply :=
  p ← prove_circuit IntentOnlyPublicSettlement (iou_witness request) (iou_statement request);
  let '(proof, settlement_link_hint) := p in
  link_proof ← blocking_intent_only_link (iou_validity_link_hint request) settlement_link_hint;
  mret (SettlementJson (mk_settlement_response proof link_proof)).

(** *** Fees *)
Definition handle_valid_note_redemption (request : ValidNoteRedemptionRequest) : prover_eff reply :=
  generate_proof_json ValidNoteRedemption (vnr_witness request) (vnr_statement request).
Definition handle_valid_private_protocol_fee_payment (request : ValidPrivateProtocolFeePaymentRequest) : prover_eff reply :=
  generate_proof_json ValidPrivateProtocolFeePayment (vpp_witness request) (vpp_statement request).
Definition handle_valid_private_relayer_fee_payment (request : ValidPrivateRelayerFeePaymentRequest) : prover_eff reply :=
  generate_proof_json ValidPrivateRelayerFeePayment (vpr_witness request) (vpr_statement request).
Definition handle_valid_public_protocol_fee_payment (request : ValidPublicProtocolFeePaymentRequest) : prover_eff reply :=
  generate_proof_json ValidPublicProtocolFeePayment (vup_witness request) (vup_statement request).
Definition handle_valid_public_relayer_fee_payment (request : ValidPublicRelayerFeePaymentRequest) : prover_eff reply :=
  generate_proof_json ValidPublicRelayerFeePayment (vur_witness request) (vur_statement request).

(** ** middleware.rs *)
Definition HTTP_AUTH_HEADER : string := "Authorization".
Definition HTTP_AUTH_USERNAME : string := "admin".

(** The parts of a request the filters look at: the authorization header, which
    warp refuses when it is not text; whether the content type, if any, is JSON; the
    body, or the error of reading it. *)
Record parts := mk_parts {
  pt_authorization : option (option string);
  pt_json_content : bool;
  pt_body : string + string;
}.

(** Decoding of a basic authorization header and of the JSON of a request. *)
Context (from_header : string -> string + (string * string))
  (decode : forall c, string -> string + request_of c).

Definition result_of {E A F} (f : E -> F) (x : E + A) : res F A :=
  match x with inl e => Err (f e) | inr a => Ok a end.

Definition check_auth (header pwd : string) : res (Rejection ProverServiceError) unit :=
  credential ← result_of (fun e => custom (BadRequest e)) (from_header header);
  if negb (String.eqb credential.1 HTTP_AUTH_USERNAME) then Err (custom (Unauthorized "invalid username"))
  else if negb (String.eqb credential.2 pwd) then Err (custom (Unauthorized "invalid password"))
  else Ok tt.
Definition basic_auth (pwd : string) (pt : parts) : res (Rejection ProverServiceError) unit :=
  match pt_authorization pt with
  | None => Err (reject (MissingHeader HTTP_AUTH_HEADER))
  | Some None => Err (reject (InvalidHeader HTTP_AUTH_HEADER))
  | Some (Some auth) => check_auth auth pwd
  end.
Definition body_json (c : Circuit) (pt : parts) : res (Rejection ProverServiceError) (request_of c) :=
  if negb (pt_json_content pt) then Err (reject UnsupportedMediaType)
  else
    body ← result_of (fun e => reject (BodyReadError e)) (pt_body pt);
    result_of (fun e => reject (BodyDeserializeError e)) (decode c body).

(** The first cause of each kind decides; [missing_header] is warp's text. *)
Definition as_custom (c : cause ProverServiceError) : option ProverServiceError :=
  match c with Custom e => Some e | _ => None end.
Definition as_body_deserialize (c : cause ProverServiceError) : option string :=
  match c with BodyDeserializeError e => Some ("Request body deserialize error: " +:+ e) | _ => None end.
Definition as_missing_header (c : cause ProverServiceError) : option string :=
  match c with MissingHeader n => Some ("Missing request header " +:+ n) | _ => None end.
Definition as_method_not_allowed (c : cause ProverServiceError) : option unit :=
  match c with MethodNotAllowed => Some tt | _ => None end.
Definition handle_rejection (err : Rejection ProverServiceError) : Z * string :=
  match find_cause as_custom err with
  | Some api_error => to_reply api_error
  | None =>
  match find_cause as_body_deserialize err with
  | Some msg => json_error msg 400
  | None =>
  match find_cause as_missing_header err with
  | Some msg => json_error msg 400
  | None =>
  if is_not_found err then json_error "Not Found" 404
  else match find_cause as_method_not_allowed err with
  | Some _ => json_error "Method Not Allowed" 405
  | None => json_error "Internal Server Error" 500
  end end end end.

(** ** main.rs: the routes *)
Definition proof_route (auth_pwd path : string) (c : Circuit) (handler : request_of c -> prover_eff reply)
    : route (R := parts) (E := ProverServiceError) (S := list call) (A := reply) :=
  mk_route [Path path; IsPost] (fun _ pt =>
    _ ← lift (basic_auth auth_pwd pt);
    request ← lift (body_json c pt);
    handler request).
Definition ping : route (R := parts) (E := ProverServiceError) (S := list call) (A := reply) :=
  mk_route [Path "ping"; IsGet] (fun _ _ => mret Pong).

Definition setup_routes (auth_pwd : string) : list (route (R := parts)) :=
  let route := proof_route auth_pwd in
  [ ping
  ; route "prove-valid-balance-create" ValidBalanceCreate handle_valid_balance_create
  ; route "prove-valid-deposit" ValidDeposit handle_valid_deposit
  ; route "prove-valid-order-cancellation" ValidOrderCancellation handle_valid_order_cancellation
  ; route "prove-valid-withdrawal" ValidWithdrawal handle_valid_withdrawal
  ; route "prove-intent-and-balance-validity" IntentAndBalanceValidity handle_intent_and_balance_validity
  ; route "prove-intent-and-balance-first-fill-validity" IntentAndBalanceFirstFillValidity handle_intent_and_balance_first_fill_validity
  ; route "prove-intent-only-validity" IntentOnlyValidity handle_intent_only_validity
  ; route "prove-intent-only-first-fill-validity" IntentOnlyFirstFillValidity handle_intent_only_first_fill_validity
  ; route "prove-new-output-balance-validity" NewOutputBalanceValidity handle_new_output_balance_validity
  ; route "prove-output-balance-validity" OutputBalanceValidity handle_output_balance_validity
  ; route "prove-intent-and-balance-bounded-settlement" IntentAndBalanceBoundedSettlement handle_intent_and_balance_bounded_settlement
  ; route "prove-intent-and-balance-private-settlement" IntentAndBalancePrivateSettlement handle_intent_and_balance_private_settlement
  ; route "prove-intent-and-balance-public-settlement" IntentAndBalancePublicSettlement handle_intent_and_balance_public_settlement
  ; route "prove-intent-only-bounded-settlement" IntentOnlyBoundedSettlement handle_intent_only_bounded_settlement
  ; route "prove-intent-only-public-settlement" IntentOnlyPublicSettlement handle_intent_only_public_settlement
  ; route "prove-valid-note-redemption" ValidNoteRedemption handle_valid_note_redemption
  ; route "prove-valid-private-protocol-fee-payment" ValidPrivateProtocolFeePayment handle_valid_private_protocol_fee_payment
  ; route "prove-valid-private-relayer-fee-payment" ValidPrivateRelayerFeePayment handle_valid_private_relayer_fee_payment
  ; route "prove-valid-public-protocol-fee-payment" ValidPublicProtocolFeePayment handle_valid_public_protocol_fee_payment
  ; route "prove-valid-public-relayer-fee-payment" ValidPublicRelayerFeePayment handle_valid_public_relayer_fee_payment
  ].
(** [recover(handle_rejection)]; a handler that panics drops the connection. *)
Definition serve (auth_pwd : string) (rq : Request parts) : list call -> option reply * list call := fun cs =>
  match routes_of (setup_routes auth_pwd) rq cs with
  | (Ok r, cs) => (Some r, cs)
  | (Err e, cs) => (Some (ErrorJson (handle_rejection e)), cs)
  | (Panic, cs) => (None, cs)
  end.
(** ** What the service promises, circuit by circuit

    The endpoint, the handler, and what of a request goes to the library: witness,
    statement, and the validity proofs to link with, by kind, party and hint. *)
Definition circuits : list Circuit :=
  [ ValidBalanceCreate; ValidDeposit; ValidOrderCancellation; ValidWithdrawal;
    IntentAndBalanceValidity; IntentAndBalanceFirstFillValidity; IntentOnlyValidity;
    IntentOnlyFirstFillValidity; NewOutputBalanceValidity; OutputBalanceValidity;
    IntentAndBalanceBoundedSettlement; IntentAndBalancePrivateSettlement;
    IntentAndBalancePublicSettlement; IntentOnlyBoundedSettlement; IntentOnlyPublicSettlement;
    ValidNoteRedemption; ValidPrivateProtocolFeePayment; ValidPrivateRelayerFeePayment;
    ValidPublicProtocolFeePayment; ValidPublicRelayerFeePayment ].
Definition endpoint (c : Circuit) : string :=
  match c with
  | ValidBalanceCreate => "prove-valid-balance-create"
  | ValidDeposit => "prove-valid-deposit"
  | ValidOrderCancellation => "prove-valid-order-cancellation"
  | ValidWithdrawal => "prove-valid-withdrawal"
  | IntentAndBalanceValidity => "prove-intent-and-balance-validity"
  | IntentAndBalanceFirstFillValidity => "prove-intent-and-balance-first-fill-validity"
  | IntentOnlyValidity => "prove-intent-only-validity"
  | IntentOnlyFirstFillValidity => "prove-intent-only-first-fill-validity"
  | NewOutputBalanceValidity => "prove-new-output-balance-validity"
  | OutputBalanceValidity => "prove-output-balance-validity"
  | IntentAndBalanceBoundedSettlement => "prove-intent-and-balance-bounded-settlement"
  | IntentAndBalancePrivateSettlement => "prove-intent-and-balance-private-settlement"
  | IntentAndBalancePublicSettlement => "prove-intent-and-balance-public-settlement"
  | IntentOnlyBoundedSettlement => "prove-intent-only-bounded-settlement"
  | IntentOnlyPublicSettlement => "prove-intent-only-public-settlement"
  | ValidNoteRedemption => "prove-valid-note-redemption"
  | ValidPrivateProtocolFeePayment => "prove-valid-private-protocol-fee-payment"
  | ValidPrivateRelayerFeePayment => "prove-valid-private-relayer-fee-payment"
  | ValidPublicProtocolFeePayment => "prove-valid-public-protocol-fee-payment"
  | ValidPublicRelayerFeePayment => "prove-valid-public-relayer-fee-payment"
  end.
Definition handle (c : Circuit) : request_of c -> prover_eff reply :=
  match c with
  | ValidBalanceCreate => handle_valid_balance_create
  | ValidDeposit => handle_valid_deposit
  | ValidOrderCancellation => handle_valid_order_cancellation
  | ValidWithdrawal => handle_valid_withdrawal
  | IntentAndBalanceValidity => handle_intent_and_balance_validity
  | IntentAndBalanceFirstFillValidity => handle_intent_and_balance_first_fill_validity
  | IntentOnlyValidity => handle_intent_only_validity
  | IntentOnlyFirstFillValidity => handle_intent_only_first_fill_validity
  | NewOutputBalanceValidity => handle_new_output_balance_validity
  | OutputBalanceValidity => handle_output_balance_validity
  | IntentAndBalanceBoundedSettlement => handle_intent_and_balance_bounded_settlement
  | IntentAndBalancePrivateSettlement => handle_intent_and_balance_private_settlement
  | IntentAndBalancePublicSettlement => handle_intent_and_balance_public_settlement
  | IntentOnlyBoundedSettlement => handle_intent_only_bounded_settlement
  | IntentOnlyPublicSettlement => handle_intent_only_public_settlement
  | ValidNoteRedemption => handle_valid_note_redemption
  | ValidPrivateProtocolFeePayment => handle_valid_private_protocol_fee_payment
  | ValidPrivateRelayerFeePayment => handle_valid_private_relayer_fee_payment
  | ValidPublicProtocolFeePayment => handle_valid_public_protocol_fee_payment
  | ValidPublicRelayerFeePayment => handle_valid_public_relayer_fee_payment
  end.
Definition witness_of (c : Circuit) : request_of c -> Witness c :=
  match c with
  | ValidBalanceCreate => vbc_witness
  | ValidDeposit => vd_witness
  | ValidOrderCancellation => voc_witness
  | ValidWithdrawal => vw_witness
  | IntentAndBalanceValidity => ibv_witness
  | IntentAndBalanceFirstFillValidity => ibf_witness
  | IntentOnlyValidity => iov_witness
  | IntentOnlyFirstFillValidity => iof_witness
  | NewOutputBalanceValidity => nob_witness
  | OutputBalanceValidity => obv_witness
  | IntentAndBalanceBoundedSettlement => ibb_witness
  | IntentAndBalancePrivateSettlement => ibp_witness
  | IntentAndBalancePublicSettlement => ibu_witness
  | IntentOnlyBoundedSettlement => iob_witness
  | IntentOnlyPublicSettlement => iou_witness
  | ValidNoteRedemption => vnr_witness
  | ValidPrivateProtocolFeePayment => vpp_witness
  | ValidPrivateRelayerFeePayment => vpr_witness
  | ValidPublicProtocolFeePayment => vup_witness
  | ValidPublicRelayerFeePayment => vur_witness
  end.
Definition statement_of (c : Circuit) : request_of c -> Statement c :=
  match c with
  | ValidBalanceCreate => vbc_statement
  | ValidDeposit => vd_statement
  | ValidOrderCancellation => voc_statement
  | ValidWithdrawal => vw_statement
  | IntentAndBalanceValidity => ibv_statement
  | IntentAndBalanceFirstFillValidity => ibf_statement
  | IntentOnlyValidity => iov_statement
  | IntentOnlyFirstFillValidity => iof_statement
  | NewOutputBalanceValidity => nob_statement
  | OutputBalanceValidity => obv_statement
  | IntentAndBalanceBoundedSettlement => ibb_statement
  | IntentAndBalancePrivateSettlement => ibp_statement
  | IntentAndBalancePublicSettlement => ibu_statement
  | IntentOnlyBoundedSettlement => iob_statement
  | IntentOnlyPublicSettlement => iou_statement
  | ValidNoteRedemption => vnr_statement
  | ValidPrivateProtocolFeePayment => vpp_statement
  | ValidPrivateRelayerFeePayment => vpr_statement
  | ValidPublicProtocolFeePayment => vup_statement
  | ValidPublicRelayerFeePayment => vur_statement
  end.
Definition links_of (c : Circuit) : request_of c -> list (link_kind * ProofLinkingHint) :=
  match c with
  | IntentAndBalanceBoundedSettlement => fun r =>
      [(LinkIntentAndBalance 0, ibb_validity_link_hint r); (LinkOutputBalance 0, ibb_output_balance_link_hint r)]
  | IntentAndBalancePrivateSettlement => fun r =>
      [(LinkIntentAndBalance 0, ibp_validity_link_hint_0 r); (LinkIntentAndBalance 1, ibp_validity_link_hint_1 r);
       (LinkOutputBalance 0, ibp_output_balance_link_hint_0 r);
       (LinkOutputBalance 1, ibp_output_balance_link_hint_1 r)]
  | IntentAndBalancePublicSettlement => fun r =>
      [(LinkIntentAndBalance 0, ibu_validity_link_hint r); (LinkOutputBalance 0, ibu_output_balance_link_hint r)]
  | IntentOnlyBoundedSettlement => fun r => [(LinkIntentOnly, iob_validity_link_hint r)]
  | IntentOnlyPublicSettlement => fun r => [(LinkIntentOnly, iou_validity_link_hint r)]
  | _ => fun _ => []
  end.
(** The reply made of a proof, its hint and the link proofs in the order of [links_of]. *)
Definition reply_of (c : Circuit) (proof : PlonkProof) (hint : ProofLinkingHint) (links : list PlonkLinkProof)
    : option reply :=
  match c, links with
  | (IntentAndBalanceValidity | IntentAndBalanceFirstFillValidity | IntentOnlyValidity
     | IntentOnlyFirstFillValidity | NewOutputBalanceValidity | OutputBalanceValidity), [] =>
      Some (ProofAndHintJson (mk_proof_and_hint_response proof hint))
  | (IntentAndBalanceBoundedSettlement | IntentAndBalancePublicSettlement), [v; o] =>
      Some (PublicSettlementJson (mk_public_response proof v o))
  | IntentAndBalancePrivateSettlement, [v0; v1; o0; o1] =>
      Some (PrivateSettlementJson (mk_private_response proof v0 v1 o0 o1))
  | (IntentOnlyBoundedSettlement | IntentOnlyPublicSettlement), [l] =>
      Some (SettlementJson (mk_settlement_response proof l))
  | _, [] => Some (ProofJson (mk_proof_response proof))
  | _, _ => None
  end.

(** The calls of a request that is answered with a proof. *)
Definition linked (hint : ProofLinkingHint) (k : link_kind * ProofLinkingHint) (l : PlonkLinkProof) : call :=
  Linked k.1 k.2 hint (Ok l).
Definition calls_of (c : Circuit) (r : request_of c) (proof : PlonkProof) (hint : ProofLinkingHint)
    (links : list PlonkLinkProof) : list call :=
  Proved c (witness_of c r) (statement_of c r) (Ok (proof, hint)) :: zip_with (linked hint) (links_of c r) links.

(** The rejection a failed call leads to, where the calls up to it are [cs]. *)
Definition failure {A} (cs : list call) (out : res LibError A) : option (Rejection ProverServiceError) :=
  match out with
  | Ok _ => None
  | Panic => Some (custom (CustomError (join_error_to_string cs)))
  | Err e =>
      if contains "WrongQuotientPolyDegree" (lib_error_to_string e)
      then Some (custom (BadRequest ("Invalid witness: " +:+ lib_error_to_string e)))
      else Some (custom (Prover (lib_error_to_string e)))
  end.
Definition call_failure (cs : list call) (cl : call) : option (Rejection ProverServiceError) :=
  match cl with Proved _ _ _ out => failure cs out | Linked _ _ _ out => failure cs out end.
(** A call made between [cs] and [cs'] failed with [e]. *)
Definition blames (cs cs' : list call) (e : Rejection ProverServiceError) : Prop :=
  exists mid cl post, cs' = (cs ++ mid ++ cl :: post)%list /\ call_failure (cs ++ mid ++ [cl])%list cl = Some e.
(** A call on behalf of a request: its proof, or one of its links. *)
Definition call_for (c : Circuit) (r : request_of c) (cl : call) : Prop :=
  (exists out, cl = Proved c (witness_of c r) (statement_of c r) out) \/
  (exists k hint out, k ∈ links_of c r /\ cl = Linked k.1 k.2 hint out).

(** ** The handlers keep the promise *)
Lemma blames_weaken cs cs1 cs' e : blames (cs ++ cs1)%list cs' e -> blames cs cs' e.
Proof.
  intros (mid & cl & post & -> & Hf). exists (cs1 ++ mid)%list, cl, post.
  by rewrite !app_assoc in *.
Qed.
Lemma blames_app cs cs' l e : blames cs cs' e -> blames cs (cs' ++ l)%list e.
Proof.
  intros (mid & cl & post & -> & Hf). exists mid, cl, (post ++ l)%list. split; [|done].
  by rewrite <- !app_assoc.
Qed.

Lemma run_blocking_spec {A} (f : list call -> res LibError A) record cs :
  (forall cs out, call_failure cs (record out) = failure cs out) ->
  exists out, let cs' := (cs ++ [record out])%list in
  match run_blocking f record cs with
  | (Ok a, cs1) => cs1 = cs' /\ out = Ok a
  | (Err e, cs1) => cs1 = cs' /\ blames cs cs' e
  | (Panic, _) => False
  end.
Proof.
  intros Hr. exists (f cs). unfold run_blocking. cbn. destruct (f cs) as [a|e|] eqn:Hf; [done| |].
  - destruct (contains _ _) eqn:Hc; (split; [done|]); exists [], (record (Err e)), [];
      (split; [done|]); rewrite Hr; cbn; by rewrite Hc.
  - split; [done|]. exists [], (record Panic), []. split; [done|]. by rewrite Hr.
Qed.

(** A round of linking that covers the links [ks]: all made and recorded, or one
    that was made is to blame. *)
Definition links_made (hint : ProofLinkingHint) (ks : list (link_kind * ProofLinkingHint)) (cs cs' : list call) : Prop :=
  exists suf, cs' = (cs ++ suf)%list /\
    Forall (fun cl => exists k out, k ∈ ks /\ cl = Linked k.1 k.2 hint out) suf.
Definition links_round {A} (hint : ProofLinkingHint) (ks : list (link_kind * ProofLinkingHint))
    (proofs : A -> list PlonkLinkProof) (t : list call -> joined A * list call) : Prop :=
  forall cs,
  match t cs with
  | (JOk a, cs') => length (proofs a) = length ks /\ cs' = (cs ++ zip_with (linked hint) ks (proofs a))%list
  | (JFailed e es, cs') => links_made hint ks cs cs' /\ Forall (blames cs cs') (e :: es)
  | (JStopped e, cs') => links_made hint ks cs cs' /\ blames cs cs' e
  | (JPanicked, _) => False
  end.

Lemma links_made_app hint ks1 ks2 cs cs1 cs2 :
  links_made hint ks1 cs cs1 -> links_made hint ks2 cs1 cs2 -> links_made hint (ks1 ++ ks2) cs cs2.
Proof.
  intros (s1 & -> & Hs1) (s2 & -> & Hs2). exists (s1 ++ s2)%list. rewrite app_assoc. split; [done|].
  apply Forall_app. split; [eapply Forall_impl; [exact Hs1|] | eapply Forall_impl; [exact Hs2|]];
    intros cl (k & out & ? & ->); exists k, out; set_solver.
Qed.
Lemma links_made_all hint ks ls cs : links_made hint ks cs (cs ++ zip_with (linked hint) ks ls)%list.
Proof.
  eexists. split; [done|]. revert ls. induction ks as [|k ks IH]; intros [|l ls]; cbn; try done.
  constructor; [exists k, (Ok l); set_solver|].
  eapply Forall_impl; [apply IH|]. intros cl (k' & out & ? & ->). exists k', out. set_solver.
Qed.
Lemma links_made_prefix hint ks cs cs' : links_made hint ks cs cs' -> exists l, cs' = (cs ++ l)%list.
Proof. intros (suf & -> & _). eauto. Qed.

Lemma poll_round hint k f t :
  t = run_blocking f (Linked k.1 k.2 hint) -> links_round hint [k] (fun l => [l]) (poll t).
Proof.
  intros -> cs. unfold poll.
  destruct (run_blocking_spec f (Linked k.1 k.2 hint) cs) as (out & Hrun); [done|].
  assert (links_made hint [k] cs (cs ++ [Linked k.1 k.2 hint out])%list) as Hm.
  { eexists. split; [done|]. repeat constructor. exists k, out. set_solver. }
  destruct (run_blocking f _ cs) as [[a|e|] cs1]; [|destruct Hrun as [-> ?]|done].
  - destruct Hrun as [-> ->]. by cbn.
  - destruct (seen_at_once _); auto.
Qed.

Lemma and_poll_round {A B} hint ks1 ks2 (p1 : A -> _) (p2 : B -> _) t u :
  links_round hint ks1 p1 t -> links_round hint ks2 p2 u ->
  links_round hint (ks1 ++ ks2) (fun ab => p1 ab.1 ++ p2 ab.2)%list (and_poll t u).
Proof.
  intros Ht Hu cs. unfold and_poll. specialize (Ht cs).
  destruct (t cs) as [[a|e es|e|] cs1]; [| | |done].
  - destruct Ht as [Hl ->]. specialize (Hu (cs ++ zip_with (linked hint) ks1 (p1 a))%list).
    destruct (u _) as [[b|e' es'|e'|] cs2]; [| | |done].
    + destruct Hu as [Hl2 ->]. cbn. rewrite !length_app, zip_with_app by done. rewrite app_assoc. split; [lia|done].
    + destruct Hu as [Hm Hb]. split; [eapply links_made_app; eauto using links_made_all|].
      eapply Forall_impl; [exact Hb|]. eauto using blames_weaken.
    + destruct Hu as [Hm Hb]. split; [eapply links_made_app; eauto using links_made_all|]. eauto using blames_weaken.
  - destruct Ht as [Hm Hb]. specialize (Hu cs1). destruct (links_made_prefix _ _ _ _ Hm) as [l1 ->].
    assert (forall l, Forall (blames cs (cs ++ l1 ++ l)%list) (e :: es)) as Hb'.
    { intros l. eapply Forall_impl; [exact Hb|]. intros x Hx. rewrite app_assoc. by apply blames_app. }
    destruct (u _) as [[b|e' es'|e'|] cs2]; [| | |done].
    + destruct Hu as [_ ->]. split; [eapply links_made_app; eauto using links_made_all|].
      rewrite <- app_assoc. apply Hb'.
    + destruct Hu as [Hm2 Hb2]. split; [by eapply links_made_app|].
      destruct (links_made_prefix _ _ _ _ Hm2) as [l2 ->].
      change (e :: es ++ e' :: es')%list with ((e :: es) ++ e' :: es')%list.
      apply Forall_app. split; [rewrite <- app_assoc; apply Hb'|].
      eapply Forall_impl; [exact Hb2|]. eauto using blames_weaken.
    + destruct Hu as [Hm2 Hb2]. split; [by eapply links_made_app|]. eauto using blames_weaken.
  - destruct Ht as [(suf & -> & Hs) Hb]. split; [|done]. exists suf. split; [done|].
    eapply Forall_impl; [exact Hs|]. intros cl (k & out & ? & ->). exists k, out. set_solver.
Qed.

Lemma try_join_round {A} hint ks (proofs : A -> _) t cs :
  links_round hint ks proofs t ->
  match try_join t cs with
  | (Ok a, cs') => length (proofs a) = length ks /\ cs' = (cs ++ zip_with (linked hint) ks (proofs a))%list
  | (Err e, cs') => links_made hint ks cs cs' /\ blames cs cs' e
  | (Panic, _) => False
  end.
Proof.
  intros Ht. unfold try_join. specialize (Ht cs). destruct (t cs) as [[a|e es|e|] cs']; try done.
  destruct Ht as [Hm Hb]. split; [done|].
  rewrite Forall_forall in Hb. apply Hb, first_failed_in.
Qed.

(** What a handler did: a reply made of the proof and the links of its request, in
    order, or a failure of a call made for it; never a panic. *)
Definition handled (c : Circuit) (r : request_of c) (cs : list call)
    (out : res (Rejection ProverServiceError) reply * list call) : Prop :=
  match out with
  | (Ok rep, cs') => exists proof hint links,
      length links = length (links_of c r) /\ reply_of c proof hint links = Some rep /\
      cs' = (cs ++ calls_of c r proof hint links)%list
  | (Err e, cs') => (exists suf, cs' = (cs ++ suf)%list /\ Forall (call_for c r) suf) /\ blames cs cs' e
  | (Panic, _) => False
  end.
Definition finished (c : Circuit) (r : request_of c) (proof : PlonkProof) (hint : ProofLinkingHint) (cs : list call)
    (out : res (Rejection ProverServiceError) reply * list call) : Prop :=
  match out with
  | (Ok rep, cs') => exists links, length links = length (links_of c r) /\
      reply_of c proof hint links = Some rep /\ cs' = (cs ++ zip_with (linked hint) (links_of c r) links)%list
  | (Err e, cs') => links_made hint (links_of c r) cs cs' /\ blames cs cs' e
  | (Panic, _) => False
  end.

Lemma prove_then c r cs (k : PlonkProof * ProofLinkingHint -> prover_eff reply) :
  (forall proof hint cs, finished c r proof hint cs (k (proof, hint) cs)) ->
  handled c r cs ((prove_circuit c (witness_of c r) (statement_of c r) ≫= k) cs).
Proof.
  intros Hk. unfold mbind, eff_bind, prove_circuit.
  destruct (run_blocking_spec (fun cs => singleprover_prove_with_hint cs c (witness_of c r) (statement_of c r))
    (Proved c (witness_of c r) (statement_of c r)) cs) as (out & Hrun); [done|].
  destruct (run_blocking _ _ cs) as [[[proof hint]|e|] cs1]; cbn in Hrun; [| |done].
  - destruct Hrun as [-> ->]. set (call := Proved _ _ _ _). specialize (Hk proof hint (cs ++ [call])%list).
    unfold handled. destruct (k (proof, hint) _) as [[rep|e|] cs2]; [| |done].
    + destruct Hk as (links & Hl & Hrep & ->). exists proof, hint, links. by rewrite <- app_assoc.
    + destruct Hk as [(suf & -> & Hsuf) Hb]. split; [|by eapply blames_weaken].
      exists (call :: suf). rewrite <- app_assoc. split; [done|]. constructor; [left; eauto|].
      eapply Forall_impl; [exact Hsuf|]. intros cl (k' & out & Hin & ->). right. eauto.
  - destruct Hrun as [-> Hb]. split; [|done]. eexists. split; [done|]. constructor; [left; eauto|done].
Qed.

Lemma finished_ret c r proof hint cs rep :
  links_of c r = [] -> reply_of c proof hint [] = Some rep -> finished c r proof hint cs ((mret rep : prover_eff reply) cs).
Proof. intros Hl Hr. exists []. rewrite Hl. cbn. by rewrite app_nil_r. Qed.
Lemma finished_join {A} c r proof hint cs (proofs : A -> _) (k : A -> prover_eff reply) t :
  links_round hint (links_of c r) proofs t ->
  (forall a cs, exists rep, k a cs = (Ok rep, cs) /\
    (length (proofs a) = length (links_of c r) -> reply_of c proof hint (proofs a) = Some rep)) ->
  finished c r proof hint cs ((try_join t ≫= k) cs).
Proof.
  intros Ht Hk. unfold mbind, eff_bind. generalize (try_join_round _ _ _ _ cs Ht).
  destruct (try_join t cs) as [[a|e|] cs']; [|done..]. intros [Hl ->].
  destruct (Hk a (cs ++ zip_with (linked hint) (links_of c r) (proofs a))%list) as (rep & -> & Hrep). cbn. eauto 6.
Qed.
Lemma finished_link c r proof hint cs (mk : PlonkLinkProof -> reply) k v f t :
  t = run_blocking f (Linked k v hint) -> links_of c r = [(k, v)] ->
  (forall l, reply_of c proof hint [l] = Some (mk l)) ->
  finished c r proof hint cs ((t ≫= fun l => mret (mk l) : prover_eff reply) cs).
Proof.
  intros -> Hk Hmk. unfold mbind, eff_bind, finished. rewrite Hk.
  destruct (run_blocking_spec f (Linked k v hint) cs) as (out & Hrun); [done|].
  destruct (run_blocking f _ cs) as [[l|e|] cs']; cbn in Hrun; [| |done].
  - destruct Hrun as [-> ->]. exists [l]. cbn. auto.
  - destruct Hrun as [-> Hb]. split; [|done]. eexists. split; [done|]. constructor; [|done]. exists (k, v), out. set_solver.
Qed.

(** The two links of one party. *)
Lemma one_party_round hint v o :
  links_round hint [(LinkIntentAndBalance 0, v); (LinkOutputBalance 0, o)] (fun l => [l.1; l.2])
    (and_poll (poll (blocking_intent_and_balance_link PARTY_0 v hint))
              (poll (blocking_output_balance_link PARTY_0 o hint))).
Proof. apply (and_poll_round hint [_] [_] (fun l => [l]) (fun l => [l])); by eapply poll_round. Qed.
Lemma both_parties_round hint v0 v1 o0 o1 :
  links_round hint
    [(LinkIntentAndBalance 0, v0); (LinkIntentAndBalance 1, v1); (LinkOutputBalance 0, o0); (LinkOutputBalance 1, o1)]
    (fun l => [l.1.1.1; l.1.1.2; l.1.2; l.2])
    (and_poll (and_poll (and_poll
      (poll (blocking_intent_and_balance_link PARTY_0 v0 hint))
      (poll (blocking_intent_and_balance_link PARTY_1 v1 hint)))
      (poll (blocking_output_balance_link PARTY_0 o0 hint)))
      (poll (blocking_output_balance_link PARTY_1 o1 hint))).
Proof.
  apply (and_poll_round hint [_; _; _] [_] (fun l => [l.1.1; l.1.2; l.2]) (fun l => [l]));
    [apply (and_poll_round hint [_; _] [_] (fun l => [l.1; l.2]) (fun l => [l]));
      [apply (and_poll_round hint [_] [_] (fun l => [l]) (fun l => [l]))|]|]; by eapply poll_round.
Qed.

Lemma handle_spec c r cs : handled c r cs (handle c r cs).
Proof.
  destruct c;
    try (apply (prove_then _ r); intros proof hint cs1; by apply finished_ret);
    (apply (prove_then _ r); intros proof hint cs1);
    try (by eapply finished_link);
    (eapply finished_join; [first [apply one_party_round | apply both_parties_round]|]).
  all: intros a cs2; repeat destruct a as [a ?]; eexists; split; [done|]; by intros.
Qed.

(** ** The requests that reach a handler

    The answer to a request before any handler runs: a circuit with its decoded
    request, the ping, or an error with its status and message. *)
Definition admitted (auth_pwd : string) (c : Circuit) (pt : parts) : res (Z * string) (request_of c) :=
  match pt_authorization pt with
  | None => Err (400%Z, "Missing request header Authorization")
  | Some None => Err (500%Z, "Internal Server Error")
  | Some (Some header) =>
      match from_header header with
      | inl e => Err (400%Z, e)
      | inr (user, pwd) =>
          if negb (String.eqb user "admin") then Err (401%Z, "invalid username")
          else if negb (String.eqb pwd auth_pwd) then Err (401%Z, "invalid password")
          else if negb (pt_json_content pt) then Err (500%Z, "Internal Server Error")
          else match pt_body pt with
          | inl _ => Err (500%Z, "Internal Server Error")
          | inr body =>
              match decode c body with
              | inl e => Err (400%Z, "Request body deserialize error: " +:+ e)
              | inr r => Ok r
              end
          end
      end
  end.
Definition circuit_at (segment : string) : option Circuit :=
  List.find (fun c => String.eqb (endpoint c) segment) circuits.

(** The reply to what a handler made of a request. *)
Definition answer (out : res (Rejection ProverServiceError) reply * list call) : option reply * list call :=
  match out with
  | (Ok r, cs) => (Some r, cs)
  | (Err e, cs) => (Some (ErrorJson (handle_rejection e)), cs)
  | (Panic, cs) => (None, cs)
  end.
Definition serve_ref (auth_pwd : string) (rq : Request parts) (cs : list call) : option reply * list call :=
  let error e := (Some (ErrorJson e), cs) in
  match rq_segments rq with
  | [] => error (404%Z, "Not Found")
  | x :: _ =>
      if String.eqb x "ping"
      then if decide (rq_method rq = GET) then (Some Pong, cs) else error (405%Z, "Method Not Allowed")
      else match circuit_at x with
      | None => error (404%Z, "Not Found")
      | Some c =>
          if decide (rq_method rq = POST)
          then match admitted auth_pwd c (rq_rest rq) with
               | Ok r => answer (handle c r cs)
               | Err e => error e
               | Panic => (None, cs)
               end
          else error (405%Z, "Method Not Allowed")
      end
  end.

Definition table_of (auth_pwd : string) : list (route (R := parts)) :=
  ping :: map (fun c => proof_route auth_pwd (endpoint c) c (handle c)) circuits.
Lemma setup_routes_table auth_pwd : setup_routes auth_pwd = table_of auth_pwd.
Proof. reflexivity. Qed.

Lemma handle_rejection_eq e e' : causes e = causes e' -> handle_rejection e = handle_rejection e'.
Proof. unfold handle_rejection, find_cause, is_not_found. by intros ->. Qed.
Lemma handle_rejection_custom e : handle_rejection (custom e) = to_reply e.
Proof. unfold handle_rejection, find_cause, custom. by rewrite causes_reject. Qed.

(** The filters of a route before its handler. *)
Lemma admitted_spec auth_pwd c pt :
  match admitted auth_pwd c pt with
  | Ok r => basic_auth auth_pwd pt = Ok tt /\ body_json c pt = Ok r
  | Err e => exists e', handle_rejection e' = e /\
      (basic_auth auth_pwd pt = Err e' \/ basic_auth auth_pwd pt = Ok tt /\ body_json c pt = Err e')
  | Panic => False
  end.
Proof.
  unfold admitted, basic_auth, check_auth, body_json.
  destruct (pt_authorization pt) as [[header|]|].
  2-3: eexists; split; [|by left]; unfold handle_rejection, find_cause, is_not_found; by rewrite causes_reject.
  destruct (from_header header) as [e|[user pwd]]; cbn.
  { eexists. split; [|by left]. by rewrite handle_rejection_custom. }
  change HTTP_AUTH_USERNAME with "admin". destruct (String.eqb user "admin"); cbn.
  2: { eexists. split; [|by left]. by rewrite handle_rejection_custom. }
  destruct (String.eqb pwd auth_pwd); cbn.
  2: { eexists. split; [|by left]. by rewrite handle_rejection_custom. }
  destruct (pt_json_content pt); cbn.
  2: eexists; split; [|by right]; unfold handle_rejection, find_cause, is_not_found; by rewrite causes_reject.
  destruct (pt_body pt) as [e|body]; cbn.
  { eexists. split; [|by right]. unfold handle_rejection, find_cause, is_not_found. by rewrite causes_reject. }
  destruct (decode c body) as [e|r]; cbn; [|done].
  eexists. split; [|by right]. unfold handle_rejection, find_cause, is_not_found. by rewrite causes_reject.
Qed.

(** The table around the route of a circuit: no other route takes its requests or
    has anything to say about them. *)
Definition position (c : Circuit) : nat :=
  S (default 0 (fst <$> list_find (fun c' => c' = c) circuits)).
Lemma table_around auth_pwd c m rest pt :
  let T := table_of auth_pwd in let rq := mk_req m (endpoint c :: rest) pt in
  let r := proof_route auth_pwd (endpoint c) c (handle c) in
  T = (take (position c) T ++ r :: drop (S (position c)) T)%list /\
  Forall (fun r => matches rq r = None) (take (position c) T ++ drop (S (position c)) T)%list /\
  misses (take (position c) T) rq = [] /\ misses (drop (S (position c)) T) rq = [].
Proof. cbn zeta. destruct c; (split; [reflexivity|]); (split; [by repeat constructor|done]). Qed.

Lemma circuit_at_Some x c : circuit_at x = Some c -> x = endpoint c.
Proof. intros [_ Heq]%find_some. by apply String.eqb_eq in Heq. Qed.
Lemma circuit_at_None x c : circuit_at x = None -> String.eqb x (endpoint c) = false.
Proof.
  intros Hn. rewrite String.eqb_sym. apply (find_none _ _ Hn). by destruct c; cbn; auto 25.
Qed.
Lemma circuit_at_endpoint c : circuit_at (endpoint c) = Some c.
Proof. by destruct c. Qed.

(** A rejection with one cause, or none, and the reply to it. *)
Lemma no_cause e : causes e = [] -> handle_rejection e = (404%Z, "Not Found").
Proof. unfold handle_rejection, find_cause, is_not_found. by intros ->. Qed.
Lemma refused_method e : causes e = [MethodNotAllowed] -> handle_rejection e = (405%Z, "Method Not Allowed").
Proof. unfold handle_rejection, find_cause, is_not_found. by intros ->. Qed.

Lemma serve_miss auth_pwd rq cs e :
  Forall (fun r => matches rq r = None) (table_of auth_pwd) ->
  (forall e', causes e' = misses (table_of auth_pwd) rq -> handle_rejection e' = e) ->
  serve auth_pwd rq cs = (Some (ErrorJson e), cs).
Proof.
  intros Hall He. unfold serve. rewrite setup_routes_table.
  destruct (routes_of_miss _ _ cs Hall) as (e' & -> & Hc). by rewrite (He e' Hc).
Qed.

Lemma serve_ping auth_pwd m rest pt cs :
  serve auth_pwd (mk_req m ("ping" :: rest) pt) cs =
    if decide (m = GET) then (Some Pong, cs) else (Some (ErrorJson (405%Z, "Method Not Allowed")), cs).
Proof.
  destruct (decide (m = GET)) as [->|Hm].
  - generalize (routes_of_hit [] ping (map (fun c => proof_route auth_pwd (endpoint c) c (handle c)) circuits)
      (mk_req GET ("ping" :: rest) pt) [] cs).
    intros Hh. unfold serve. rewrite setup_routes_table. unfold table_of. cbn [app] in Hh.
    rewrite Hh; [done|by repeat constructor|done].
  - apply serve_miss; [by repeat constructor; destruct m|]. intros e' He. apply refused_method.
    rewrite He. by destruct m.
Qed.

Lemma serve_unknown auth_pwd m segs pt cs :
  match segs with [] => True | x :: _ => x <> "ping" /\ circuit_at x = None end ->
  serve auth_pwd (mk_req m segs pt) cs = (Some (ErrorJson (404%Z, "Not Found")), cs).
Proof.
  intros Hs.
  assert (Forall (fun r => accepts (r_match r) m segs = None /\
      refusal (E := ProverServiceError) (r_match r) m segs = []) (table_of auth_pwd)) as Hall.
  { destruct segs as [|x rest]; [by repeat constructor|]. destruct Hs as [Hx%String.eqb_neq Hc].
    constructor; [cbn; by rewrite Hx|]. apply Forall_map, Forall_forall.
    intros c _. cbn. by rewrite (circuit_at_None _ c Hc). }
  apply serve_miss.
  - eapply Forall_impl; [exact Hall|]. by intros r [Hr _].
  - intros e' He. apply no_cause. rewrite He. apply misses_none.
    eapply Forall_impl; [exact Hall|]. by intros r [_ Hr].
Qed.

Lemma serve_wrong_method auth_pwd c m rest pt cs :
  m <> POST ->
  serve auth_pwd (mk_req m (endpoint c :: rest) pt) cs = (Some (ErrorJson (405%Z, "Method Not Allowed")), cs).
Proof.
  intros Hm. destruct (table_around auth_pwd c m rest pt) as (HT & [Ho1 Ho2]%Forall_app & Hm1 & Hm2).
  apply serve_miss.
  - rewrite HT. apply Forall_app. split; [done|].
    constructor; [|done]. unfold matches. cbn. rewrite String.eqb_refl. by destruct m.
  - intros e' He. apply refused_method. rewrite He, HT, misses_app, misses_cons, Hm1, Hm2.
    cbn. rewrite String.eqb_refl. by destruct m.
Qed.

(** The route of a circuit, alone in answering its requests. *)
Lemma serve_circuit auth_pwd c rest pt cs :
  serve auth_pwd (mk_req POST (endpoint c :: rest) pt) cs =
    match admitted auth_pwd c pt with
    | Ok r => answer (handle c r cs)
    | Err e => (Some (ErrorJson e), cs)
    | Panic => (None, cs)
    end.
Proof.
  destruct (table_around auth_pwd c POST rest pt) as (HT & Hothers & Hm1 & Hm2).
  set (rq := mk_req POST (endpoint c :: rest) pt) in *.
  assert (matches rq (proof_route auth_pwd (endpoint c) c (handle c)) = Some []) as Hmt.
  { unfold matches. cbn. by rewrite String.eqb_refl. }
  unfold serve. rewrite setup_routes_table. generalize (routes_of_hit _ _ _ rq [] cs Hothers Hmt).
  rewrite <- HT, Hm1, Hm2. cbn [r_run proof_route rq_rest rq].
  unfold mbind at 1 2, eff_bind at 1 2, lift, among.
  generalize (admitted_spec auth_pwd c pt). destruct (admitted auth_pwd c pt) as [r|e|]; [| |done].
  - intros [-> ->]. destruct (handle c r cs) as [[rep|e|] cs']; [by intros -> | |by intros ->].
    intros (e' & -> & He'). cbn. rewrite app_nil_r in He'. by rewrite (handle_rejection_eq _ _ He').
  - intros (e1 & <- & Hab).
    destruct Hab as [-> | [-> ->]]; intros (e' & -> & He'); rewrite app_nil_r in He';
      by rewrite (handle_rejection_eq _ _ He').
Qed.

Lemma serve_spec auth_pwd rq cs : serve auth_pwd rq cs = serve_ref auth_pwd rq cs.
Proof.
  destruct rq as [m [|x rest] pt]; (unfold serve_ref; cbn [rq_segments rq_method rq_rest]); [by apply serve_unknown|].
  destruct (String.eqb x "ping") eqn:Hping; [apply String.eqb_eq in Hping as ->; apply serve_ping|].
  apply String.eqb_neq in Hping. destruct (circuit_at x) as [c|] eqn:Hc; [|by apply (serve_unknown auth_pwd m (x :: rest))].
  apply circuit_at_Some in Hc as ->. destruct (decide (m = POST)) as [->|Hm].
  - apply serve_circuit.
  - by apply serve_wrong_method.
Qed.

(** ** Nothing is proved for strangers, and replies are what was proved *)

(** A request with valid credentials for the endpoint of [c], whose body is [r]. *)
Definition authentic (auth_pwd : string) (rq : Request parts) (c : Circuit) (r : request_of c) : Prop :=
  exists rest header body,
    rq_method rq = POST /\ rq_segments rq = endpoint c :: rest /\
    pt_authorization (rq_rest rq) = Some (Some header) /\ from_header header = inr ("admin", auth_pwd) /\
    pt_body (rq_rest rq) = inr body /\ decode c body = inr r.

Lemma admitted_authentic auth_pwd m c rest pt r :
  admitted auth_pwd c pt = Ok r -> m = POST -> authentic auth_pwd (mk_req m (endpoint c :: rest) pt) c r.
Proof.
  unfold admitted, authentic. cbn. intros Ha ->.
  destruct (pt_authorization pt) as [[header|]|]; [|done..].
  destruct (from_header header) as [e|[user pwd]] eqn:Hh; [done|].
  destruct (String.eqb user "admin") eqn:Hu; [|done]. destruct (String.eqb pwd auth_pwd) eqn:Hp; [|done].
  apply String.eqb_eq in Hu as ->. apply String.eqb_eq in Hp as ->. cbn in Ha.
  destruct (pt_json_content pt); [|done]. cbn in Ha. destruct (pt_body pt) as [|body]; [done|].
  destruct (decode c body) as [|r'] eqn:Hd; [done|]. injection Ha as ->. exists rest, header, body. eauto 10.
Qed.

(** Every request is one that an authentic client sent, or is answered without a
    call to the library. *)
Lemma serve_cases auth_pwd rq cs :
  (exists c r, authentic auth_pwd rq c r /\ serve auth_pwd rq cs = answer (handle c r cs)) \/
  (exists rest, rq_method rq = GET /\ rq_segments rq = "ping" :: rest /\ serve auth_pwd rq cs = (Some Pong, cs)) \/
  (exists e, e.1 ∈ [400; 401; 404; 405; 500]%Z /\ serve auth_pwd rq cs = (Some (ErrorJson e), cs)).
Proof.
  rewrite serve_spec. destruct rq as [m [|x rest] pt]; unfold serve_ref; cbn [rq_segments rq_method rq_rest].
  { right. right. exists (404%Z, "Not Found"). split; [set_solver|done]. }
  destruct (String.eqb x "ping") eqn:Hping.
  { apply String.eqb_eq in Hping as ->. destruct (decide (m = GET)) as [->|]; right; [left; eauto|].
    right. eexists. split; [|done]. set_solver. }
  destruct (circuit_at x) as [c|] eqn:Hc.
  2: { right. right. eexists. split; [|done]. set_solver. }
  apply circuit_at_Some in Hc as ->. destruct (decide (m = POST)) as [->|].
  2: { right. right. eexists. split; [|done]. set_solver. }
  destruct (admitted auth_pwd c pt) as [r|e|] eqn:Ha.
  - left. exists c, r. split; [by apply admitted_authentic|done].
  - right. right. exists e. split; [|done]. unfold admitted in Ha.
    repeat (case_match; simplify_eq/=); set_solver.
  - exfalso. generalize (admitted_spec auth_pwd c pt). by rewrite Ha.
Qed.

(** C12. Whatever the library answers, the service calls it only for a POST to the
    endpoint of a circuit with the user admin and the configured password, and then only
    to prove that circuit on the witness and the statement of the decoded body, and to
    link the proof with the hints that the body names, each with its party. *)
Theorem proofs_need_credentials auth_pwd rq cs :
  (serve auth_pwd rq cs).2 = cs \/
  exists c r suf, authentic auth_pwd rq c r /\ (serve auth_pwd rq cs).2 = (cs ++ suf)%list /\ Forall (call_for c r) suf.
Proof.
  destruct (serve_cases auth_pwd rq cs) as [(c & r & Ha & ->)|[(rest & _ & _ & ->)|(e & _ & ->)]]; [|by left..].
  right. exists c, r. generalize (handle_spec c r cs). unfold handled, answer.
  destruct (handle c r cs) as [[rep|e|] cs']; [| |done].
  - intros (proof & hint & links & Hl & _ & ->). eexists. split; [done|]. split; [done|].
    constructor; [left; eauto|].
    destruct (links_made_all hint (links_of c r) links []) as (suf & Hs & Hall). cbn in Hs. subst suf.
    eapply Forall_impl; [exact Hall|]. intros cl (k & out & Hk & ->). right. eauto.
  - intros [(suf & -> & Hs) _]. eauto.
Qed.

(** A reply with a proof carries the proof just made of the circuit of the endpoint
    on the witness and the statement of the request, the hint returned with it where
    the circuit is a validity circuit, and, for a settlement, one link proof for each
    hint of the request, of the right kind and party, made from that hint and the
    hint of this very proof.  Every other reply is the ping or an error: refused
    before any call, or the outcome of a call that failed, which is 400 exactly when
    the text of the failure names an unsatisfied constraint system and 500 otherwise.
    No request is dropped. *)
Theorem proof_replies_spec auth_pwd rq cs :
  match serve auth_pwd rq cs with
  | (Some Pong, cs') => cs' = cs /\ rq_method rq = GET
  | (Some (ErrorJson (code, msg)), cs') =>
      (cs' = cs /\ code ∈ [400; 401; 404; 405; 500]%Z) \/
      exists c r e, authentic auth_pwd rq c r /\ blames cs cs' (custom e) /\ (code, msg) = to_reply e /\
        match e with
        | BadRequest text => code = 400%Z /\ exists t, text = "Invalid witness: " +:+ t /\
            contains "WrongQuotientPolyDegree" t = true
        | _ => code = 500%Z
        end
  | (Some rep, cs') => exists c r proof hint links,
      authentic auth_pwd rq c r /\ length links = length (links_of c r) /\
      reply_of c proof hint links = Some rep /\ cs' = (cs ++ calls_of c r proof hint links)%list
  | (None, _) => False
  end.
Proof.
  destruct (serve_cases auth_pwd rq cs) as [(c & r & Ha & ->)|[(rest & Hm & _ & ->)|([code msg] & Hc & ->)]]; [|by auto..].
  generalize (handle_spec c r cs). unfold handled, answer. destruct (handle c r cs) as [[rep|e|] cs']; [| |done].
  - intros (proof & hint & links & Hl & Hrep & Hcs).
    assert (match rep with Pong | ErrorJson _ => False | _ => True end).
    { destruct c; cbn in Hrep; repeat (case_match; simplify_eq/=); done. }
    destruct rep; try done; exists c, r, proof, hint, links; auto.
  - intros [_ Hb]. destruct (handle_rejection e) as [code msg] eqn:Hrep. right.
    assert (exists e', e = custom e' /\ match e' with
      | BadRequest text => exists t, text = "Invalid witness: " +:+ t /\ contains "WrongQuotientPolyDegree" t = true
      | CustomError _ | Prover _ => True | _ => False end) as (e' & -> & He').
    { destruct Hb as (mid & cl & post & _ & Hf). destruct cl as [? ? ? out|? ? ? out]; cbn in Hf;
        destruct out as [?|e1|]; cbn in Hf; try done;
        try (destruct (contains _ _) eqn:Hct); simplify_eq; eexists; (split; [done|]); cbn; eauto. }
    rewrite handle_rejection_custom in Hrep. exists c, r, e'. split; [done|]. split; [done|]. split; [done|].
    destruct e'; unfold to_reply, json_error in Hrep; simplify_eq; done.
Qed.
End Prover.

(** ** main.rs: preprocessing at start-up

    The keys and layouts of all circuits are cached before the server listens.  Key
    generation panics when it fails; the layout of a circuit is fallible. *)
Record caches := mk_caches { ca_keys : list Circuit; ca_layouts : list Circuit }.

Section Preprocess.
Context (keys_ok : Circuit -> bool) (layout : Circuit -> string + unit).

Definition setup_preprocessed_keys (c : Circuit) : eff caches ProverServiceError unit := fun s =>
  if keys_ok c then (Ok tt, mk_caches (ca_keys s ++ [c])%list (ca_layouts s)) else (Panic, s).
Definition get_circuit_layout (c : Circuit) : eff caches ProverServiceError unit := fun s =>
  match layout c with
  | inr _ => (Ok tt, mk_caches (ca_keys s) (ca_layouts s ++ [c])%list)
  | inl e => (Err (Setup e), s)
  end.
Fixpoint each (f : Circuit -> eff caches ProverServiceError unit) (l : list Circuit) : eff caches ProverServiceError unit :=
  match l with
  | [] => mret tt
  | c :: l => _ ← f c; each f l
  end.
Definition preprocess_circuits : eff caches ProverServiceError unit :=
  _ ← each setup_preprocessed_keys circuits;
  each get_circuit_layout circuits.
(** The result of preprocessing is logged; only a panic, which the join reports,
    keeps the server from listening. *)
Definition async_main : option caches :=
  match preprocess_circuits (mk_caches [] []) with
  | (Ok _, s) => Some s
  | (Err _, s) => Some s
  | (Panic, _) => None
  end.

Lemma each_keys l s : Forall (fun c => keys_ok c = true) l ->
  each setup_preprocessed_keys l s = (Ok tt, mk_caches (ca_keys s ++ l)%list (ca_layouts s)).
Proof.
  intros Hl. revert s. induction Hl as [|c l Hc _ IH]; intros s; cbn; [rewrite app_nil_r; by destruct s|].
  unfold mbind, eff_bind, setup_preprocessed_keys. rewrite Hc. cbn. fold setup_preprocessed_keys.
  rewrite IH. cbn. by rewrite <- app_assoc.
Qed.
Lemma each_layouts l s :
  match each get_circuit_layout l s with
  | (Ok _, s') => s' = mk_caches (ca_keys s) (ca_layouts s ++ l)%list
  | (Err e, s') => ca_keys s' = ca_keys s /\
      exists l1 c l2 msg, l = (l1 ++ c :: l2)%list /\ layout c = inl msg /\ e = Setup msg /\
        ca_layouts s' = (ca_layouts s ++ l1)%list
  | (Panic, _) => False
  end.
Proof.
  revert s. induction l as [|c l IH]; intros s; cbn; [rewrite app_nil_r; by destruct s|].
  unfold mbind, eff_bind, get_circuit_layout at 1. destruct (layout c) as [msg|[]] eqn:Hc.
  - split; [done|]. exists [], c, l, msg. by rewrite app_nil_r.
  - specialize (IH (mk_caches (ca_keys s) (ca_layouts s ++ [c])%list)).
    destruct (each get_circuit_layout l _) as [[[]|e|] s']; cbn in IH; [| |done].
    + by rewrite <- app_assoc in IH.
    + destruct IH as [Hk (l1 & c' & l2 & msg & -> & Hl & -> & Hls)]. split; [done|].
      exists (c :: l1), c', l2, msg. by rewrite <- app_assoc in Hls.
Qed.

(** Unless key generation panics the server listens, with the keys of all circuits;
    the layouts are those before the first that failed, whose error stops nothing. *)
Theorem server_starts :
  (forall c, keys_ok c = true) ->
  exists s, async_main = Some s /\ ca_keys s = circuits /\
    (ca_layouts s = circuits \/
     exists l1 c l2 msg, circuits = (l1 ++ c :: l2)%list /\ layout c = inl msg /\ ca_layouts s = l1).
Proof.
  intros Hk. unfold async_main, preprocess_circuits, mbind, eff_bind.
  rewrite (each_keys circuits _ (proj2 (Forall_forall _ _) (fun c _ => Hk c))). cbn [ca_keys ca_layouts app].
  generalize (each_layouts circuits (mk_caches circuits [])). cbn [ca_keys ca_layouts app].
  destruct (each get_circuit_layout circuits _) as [[[]|e|] s']; [| |done].
  - intros ->. eexists. split; [done|]. auto.
  - intros [Hks (l1 & c & l2 & msg & Hl & Hm & _ & Hs)]. exists s'. split; [done|]. split; [done|]. right. eauto 10.
Qed.
End Preprocess.

(** ** A private settlement with a concrete library *)
Module ProverWitness.
#[local] Instance toy_types : ProverTypes := {|
  Witness _ := Z; Statement _ := Z; PlonkProof := Z; PlonkLinkProof := Z; ProofLinkingHint := Z; LibError := string |}.
#[refine, local] Instance toy_lib : ProverLib := {|
  lib_error_to_string e := e;
  join_error_to_string _ := "panicked";
  singleprover_prove_with_hint _ _ w st :=
    if Z.eqb w st then Ok (w, (100 + w)%Z) else Err "WrongQuotientPolyDegree(1, 2)";
  link_sized_intent_and_balance_settlement_with_party _ p v h := Ok (1000 * p + 100 * v + h)%Z;
  link_sized_output_balance_settlement_with_party _ p v h := Ok (5000 + 1000 * p + 100 * v + h)%Z;
  link_sized_intent_only_settlement _ v h := Ok (100 * v + h)%Z;
  seen_at_once _ := false;
  first_failed _ e _ := e |}.
Proof. set_solver. Defined.

Definition toy_header (h : string) : string + (string * string) :=
  if String.eqb h "Basic YWRtaW46c2VjcmV0" then inr ("admin", "secret") else inl "malformed header".
Definition toy_decode (c : Circuit) (body : string) : string + request_of c :=
  match c with
  | IntentAndBalancePrivateSettlement =>
      if String.eqb body "good" then inr (mk_ibp 7%Z 7%Z 1%Z 2%Z 3%Z 4%Z) else inr (mk_ibp 8%Z 7%Z 1%Z 2%Z 3%Z 4%Z)
  | _ => inl "expected value at line 1 column 1"
  end.
Definition toy_request (auth : option (option string)) (body : string) : Request parts :=
  mk_req POST ["prove-intent-and-balance-private-settlement"] (mk_parts auth true (inr body)).
Definition toy_serve : Request parts -> list call -> option reply * list call := serve toy_header toy_decode "secret".

Example settlement_answered :
  (toy_serve (toy_request (Some (Some "Basic YWRtaW46c2VjcmV0")) "good") []).1 =
    Some (PrivateSettlementJson (mk_private_response 7%Z 207%Z 1307%Z 5407%Z 6507%Z)).
Proof. reflexivity. Qed.
Example unsatisfied_witness :
  toy_serve (toy_request (Some (Some "Basic YWRtaW46c2VjcmV0")) "bad") [] =
    (Some (ErrorJson (400%Z, "Invalid witness: WrongQuotientPolyDegree(1, 2)")),
     [Proved IntentAndBalancePrivateSettlement 7%Z 8%Z (Err "WrongQuotientPolyDegree(1, 2)")]).
Proof. reflexivity. Qed.
Example stranger_refused :
  toy_serve (toy_request None "good") [] = (Some (ErrorJson (400%Z, "Missing request header Authorization")), []).
Proof. reflexivity. Qed.
(** A body with another content type is refused with 500. *)
Example other_content_type :
  toy_serve (mk_req POST ["prove-valid-deposit"] (mk_parts (Some (Some "Basic YWRtaW46c2VjcmV0")) false (inr ""))) [] =
    (Some (ErrorJson (500%Z, "Internal Server Error")), []).
Proof. reflexivity. Qed.
(** A circuit whose layout fails is only logged: the server listens without it. *)
Example failed_layout_still_serves :
  let layout c := if decide (c = ValidDeposit) then inl "layout" else inr tt in
  ca_layouts <$> async_main (fun _ => true) layout = Some [ValidBalanceCreate].
Proof. reflexivity. Qed.

Lemma proofs_need_credentials_witness :
  let rq := toy_request (Some (Some "Basic YWRtaW46c2VjcmV0")) "good" in
  length (toy_serve rq []).2 = 5 /\
  ((toy_serve rq []).2 = [] \/
   exists c r suf, authentic toy_header toy_decode "secret" rq c r /\ (toy_serve rq []).2 = ([] ++ suf)%list /\
     Forall (call_for c r) suf).
Proof. split; [reflexivity|]. apply (proofs_need_credentials toy_header toy_decode "secret"). Defined.
Lemma server_starts_witness :
  exists s, async_main (fun _ => true) (fun _ => inr tt) = Some s /\ ca_keys s = circuits.
Proof. destruct (server_starts (fun _ => true) (fun _ => inr tt)) as (s & ? & ? & _); [done|eauto]. Defined.
End ProverWitness.
