(* ===== verification/AuthRoutes.v ===== *)
(** * The routes of the auth server (auth-server: main.rs)

    The table of endpoints in the order of its [or]s: the filters on method and path,
    what the handler is given, and the reply to a rejection.  The handlers are a
    parameter here; the files of the auth server model them.  The theorem says
    which request reaches which handler, with what, and how it is answered. *)
From Stdlib Require Import ZArith Lia Ascii.
From stdpp Require Import gmap strings list.
From S2P Require Import Prelude Warp.
From S2P Require AuthError.
Local Open Scope string_scope.

Definition API_KEYS_PATH : string := "api-keys".

Inductive Endpoint :=
  | Ping | ExternalQuote | ExternalMatch | ExpireApiKey | WhitelistApiKey | RemoveWhitelistEntry
  | SetRateLimit | AddApiKey | GetAllKeys | GetAllUserFees | SetAssetDefaultFee | SetUserFeeOverride
  | RemoveAssetDefaultFee | RemoveUserFeeOverride | AllMarkets | MarketDepthByMint | AllMarketsDepth
  | ExchangeMetadata | RfqtLevels | RfqtQuote.
#[export] Instance Endpoint_eq_dec : EqDecision Endpoint.
Proof. solve_decision. Defined.

(** What the filters take from a request besides its method and path: the full
    path, the headers, the body or the error of reading it, the query if any. *)
Record parts := mk_parts {
  pt_full_path : string;
  pt_headers : list (string * string);
  pt_body : string + string;
  pt_query : option string;
}.

(** The arguments of a handler. *)
Record handler_args := mk_args {
  ha_params : list string;      (* the id or the mint of the path *)
  ha_path : string;
  ha_headers : list (string * string);
  ha_body : option string;
  ha_query : option string;
}.

(** A handler rejects with an error of the server. *)
Inductive server_error := OfApi (e : AuthError.ApiError) | OfServer (e : AuthError.AuthServerError).

Section Server.
Context `{WarpLib} {S Reply : Type} (is_uuid : string -> bool)
  (handler : Endpoint -> handler_args -> eff S (Rejection server_error) Reply) (pong : Reply)
  (error_reply : Z * string -> Reply).

Abbreviation auth_eff := (eff S (Rejection server_error)).

(** [warp::path!] ends the path. *)
Definition filters (ep : Endpoint) : list filt :=
  match ep with
  | Ping => [Path "ping"; IsGet]
  | GetAllKeys => [Path API_KEYS_PATH; End; IsGet]
  | AddApiKey => [Path API_KEYS_PATH; End; IsPost]
  | ExpireApiKey => [Path API_KEYS_PATH; Param is_uuid; Path "deactivate"; End; IsPost]
  | WhitelistApiKey => [Path API_KEYS_PATH; Param is_uuid; Path "whitelist"; End; IsPost]
  | RemoveWhitelistEntry => [Path API_KEYS_PATH; Param is_uuid; Path "remove-whitelist"; End; IsPost]
  | SetRateLimit => [Path API_KEYS_PATH; Param is_uuid; Path "rate-limit"; End; IsPost]
  | GetAllUserFees => [Path "v0"; Path "fees"; Path "get-per-user-fees"; End; IsGet]
  | SetAssetDefaultFee => [Path "v0"; Path "fees"; Path "set-asset-default-fee"; End; IsPost]
  | SetUserFeeOverride => [Path "v0"; Path "fees"; Path "set-user-fee-override"; End; IsPost]
  | RemoveAssetDefaultFee => [Path "v0"; Path "fees"; Path "remove-asset-default-fee"; End; IsPost]
  | RemoveUserFeeOverride => [Path "v0"; Path "fees"; Path "remove-user-fee-override"; End; IsPost]
  | ExternalQuote => [Path "v2"; Path "external-matches"; Path "get-quote"; IsPost]
  | ExternalMatch => [Path "v2"; Path "external-matches"; Path "assemble-match-bundle"; IsPost]
  | AllMarkets => [Path "v2"; Path "markets"; End; IsGet]
  | MarketDepthByMint => [Path "v2"; Path "markets"; Param (fun s => negb (String.eqb s "")); Path "depth"; End]
  | AllMarketsDepth => [Path "v2"; Path "markets"; Path "depth"; End]
  | ExchangeMetadata => [Path "v2"; Path "metadata"; Path "exchange"; IsGet]
  | RfqtLevels => [Path "rfqt"; Path "v3"; Path "levels"; End]
  | RfqtQuote => [Path "rfqt"; Path "v3"; Path "quote"; End; IsPost]
  end.

(** [warp::body::bytes] *)
Definition body_bytes (pt : parts) : res (Rejection server_error) string :=
  match pt_body pt with inl e => Err (reject (BodyReadError e)) | inr b => Ok b end.
(** An absent query is the empty string. *)
Definition with_query_string (pt : parts) : string := default "" (pt_query pt).

Definition takes_body (ep : Endpoint) : bool :=
  match ep with
  | Ping | GetAllKeys | GetAllUserFees | AllMarkets | MarketDepthByMint | AllMarketsDepth | ExchangeMetadata
  | RfqtLevels => false
  | _ => true
  end.
Definition takes_query (ep : Endpoint) : bool :=
  match ep with ExternalQuote | ExternalMatch | RfqtLevels | RfqtQuote => true | _ => false end.

Definition run (ep : Endpoint) (params : list string) (pt : parts) : auth_eff Reply :=
  match ep with
  | Ping => mret pong
  | _ =>
      body ← (if takes_body ep then b ← lift (body_bytes pt); mret (Some b) else mret None);
      let query := if takes_query ep then Some (with_query_string pt) else None in
      handler ep (mk_args params (pt_full_path pt) (pt_headers pt) body query)
  end.

(** In the order of the [or]s. *)
Definition endpoints : list Endpoint :=
  [ Ping; ExternalQuote; ExternalMatch; ExpireApiKey; WhitelistApiKey; RemoveWhitelistEntry; SetRateLimit;
    AddApiKey; GetAllKeys; GetAllUserFees; SetAssetDefaultFee; SetUserFeeOverride; RemoveAssetDefaultFee;
    RemoveUserFeeOverride; AllMarkets; MarketDepthByMint; AllMarketsDepth; ExchangeMetadata; RfqtLevels;
    RfqtQuote ].
Definition routes : list (route (R := parts)) := map (route_of filters run) endpoints.

Definition as_api_error (c : cause server_error) : option AuthError.ApiError :=
  match c with Custom (OfApi e) => Some e | _ => None end.
Definition as_server_error (c : cause server_error) : option AuthError.AuthServerError :=
  match c with Custom (OfServer e) => Some e | _ => None end.
Definition as_method_not_allowed (c : cause server_error) : option unit :=
  match c with MethodNotAllowed => Some tt | _ => None end.
Definition handle_rejection (err : Rejection server_error) : Z * string :=
  match find_cause as_api_error err with
  | Some api_error => AuthError.api_error_to_reply api_error
  | None =>
  match find_cause as_server_error err with
  | Some auth_error => AuthError.api_error_to_reply (AuthError.api_error_of auth_error)
  | None =>
  if is_not_found err then (404%Z, "Not Found")
  else match find_cause as_method_not_allowed err with
  | Some _ => (405%Z, "Method Not Allowed")
  | None => (500%Z, "Internal Server Error")
  end end end.

(** [None]: a handler panicked and the connection is dropped. *)
Definition serve (rq : Request parts) : S -> option Reply * S := fun s =>
  match routes_of routes rq s with
  | (Ok r, s) => (Some r, s)
  | (Err e, s) => (Some (error_reply (handle_rejection e)), s)
  | (Panic, s) => (None, s)
  end.

(** *** The documented interface

    The path of an endpoint for its parameter, the method it is documented with
    (the tables of auth-server-api and renegade_external_api, the comments of the
    handlers), and which endpoints take a query. *)
Definition path_of (ep : Endpoint) (param : string) : list string :=
  match ep with
  | Ping => ["ping"]
  | GetAllKeys | AddApiKey => ["api-keys"]
  | ExpireApiKey => ["api-keys"; param; "deactivate"]
  | WhitelistApiKey => ["api-keys"; param; "whitelist"]
  | RemoveWhitelistEntry => ["api-keys"; param; "remove-whitelist"]
  | SetRateLimit => ["api-keys"; param; "rate-limit"]
  | GetAllUserFees => ["v0"; "fees"; "get-per-user-fees"]
  | SetAssetDefaultFee => ["v0"; "fees"; "set-asset-default-fee"]
  | SetUserFeeOverride => ["v0"; "fees"; "set-user-fee-override"]
  | RemoveAssetDefaultFee => ["v0"; "fees"; "remove-asset-default-fee"]
  | RemoveUserFeeOverride => ["v0"; "fees"; "remove-user-fee-override"]
  | ExternalQuote => ["v2"; "external-matches"; "get-quote"]
  | ExternalMatch => ["v2"; "external-matches"; "assemble-match-bundle"]
  | AllMarkets => ["v2"; "markets"]
  | MarketDepthByMint => ["v2"; "markets"; param; "depth"]
  | AllMarketsDepth => ["v2"; "markets"; "depth"]
  | ExchangeMetadata => ["v2"; "metadata"; "exchange"]
  | RfqtLevels => ["rfqt"; "v3"; "levels"]
  | RfqtQuote => ["rfqt"; "v3"; "quote"]
  end.
Definition param_ok (ep : Endpoint) (param : string) : Prop :=
  match ep with
  | ExpireApiKey | WhitelistApiKey | RemoveWhitelistEntry | SetRateLimit => is_uuid param = true
  | MarketDepthByMint => param <> ""
  | _ => True
  end.
Definition params_of (ep : Endpoint) (param : string) : list string :=
  match ep with
  | ExpireApiKey | WhitelistApiKey | RemoveWhitelistEntry | SetRateLimit | MarketDepthByMint => [param]
  | _ => []
  end.
Definition documented (ep : Endpoint) : Method :=
  match ep with
  | Ping | GetAllKeys | GetAllUserFees | AllMarkets | MarketDepthByMint | AllMarketsDepth
  | ExchangeMetadata | RfqtLevels => GET
  | ExternalQuote | ExternalMatch | ExpireApiKey | WhitelistApiKey | RemoveWhitelistEntry
  | SetRateLimit | AddApiKey | SetAssetDefaultFee | SetUserFeeOverride | RemoveAssetDefaultFee
  | RemoveUserFeeOverride | RfqtQuote => POST
  end.
Definition with_query : list Endpoint := [ExternalQuote; ExternalMatch; RfqtLevels; RfqtQuote].
(** Where the table departs from the interface: three routes do not look at the
    method, and four do not end the path. *)
Definition any_method : list Endpoint := [MarketDepthByMint; AllMarketsDepth; RfqtLevels].
Definition open_ended : list Endpoint := [Ping; ExternalQuote; ExternalMatch; ExchangeMetadata].
(** A request that the table takes as one for [ep] with parameter [param]. *)
Definition asks (rq : Request parts) (ep : Endpoint) (param : string) : Prop :=
  (rq_method rq = documented ep \/ ep ∈ any_method) /\ param_ok ep param /\
  exists rest, rq_segments rq = (path_of ep param ++ rest)%list /\ (rest <> [] -> ep ∈ open_ended).

(** What an endpoint does with a request: its handler is given the parameter of the
    path, the full path, the headers, the body if it is one of the POST endpoints
    and the query, empty when absent, if it takes one; a body that cannot be read is
    refused. *)
Definition handled (ep : Endpoint) (param : string) (pt : parts) (s : S)
    (out : res (Rejection server_error) Reply * S) : Prop :=
  (ep = Ping /\ out = (Ok pong, s)) \/
  (ep <> Ping /\ exists args,
     ha_params args = params_of ep param /\ ha_path args = pt_full_path pt /\ ha_headers args = pt_headers pt /\
     (documented ep = GET -> ha_body args = None) /\
     (documented ep = POST -> exists b, pt_body pt = inr b /\ ha_body args = Some b) /\
     (ep ∈ with_query -> ha_query args = Some (default "" (pt_query pt))) /\
     (ep ∉ with_query -> ha_query args = None) /\
     out = handler ep args s) \/
  (documented ep = POST /\ exists e, pt_body pt = inl e /\ out = (Err (reject (BodyReadError e)), s)).

(** Membership in the lists above is computed. *)
Ltac listed := apply (bool_decide_unpack (_ ∈ _)); exact I.
Ltac unlisted H := exfalso; revert H; apply (bool_decide_unpack (_ ∉ _)); exact I.

Lemma run_handled ep param pt s : handled ep param pt s (run ep (params_of ep param) pt s).
Proof.
  unfold handled. destruct ep; [by left|..]; right;
    unfold run; cbn [takes_body takes_query documented];
    unfold body_bytes, mbind, eff_bind, lift, mret, eff_ret, with_query_string;
    try (destruct (pt_body pt) as [e|b]; [right; split; [done|]; by exists e|]);
    left; (split; [done|]); (lazymatch goal with |- context [handler _ (mk_args ?p ?f ?h ?b ?q) _] => exists (mk_args p f h b q) end);
      cbn; split_and!;
      first [ done | intros _; by exists b | let H := fresh in intros H; first [unlisted H | destruct H; listed] ].
Qed.

Lemma filters_spec ep m segs ps :
  accepts (filters ep) m segs = Some ps <->
  (m = documented ep \/ ep ∈ any_method) /\ exists param rest, param_ok ep param /\ ps = params_of ep param /\
    segs = (path_of ep param ++ rest)%list /\ (rest <> [] -> ep ∈ open_ended).
Proof.
  split.
  - intros Ha. destruct ep; cbn in Ha; split_segments Ha;
      (split; [first [by left|right; listed]|]);
      first [ exists "", segs; split_and!; [done..|intros _; listed] | exists "", []; by split_and!
            | match goal with x : string |- _ => exists x, [] end; split_and!; try done;
              by apply String.eqb_neq, negb_true_iff ].
  - intros (Hm & param & rest & Hp & -> & -> & Hrest).
    assert (ep ∈ open_ended \/ rest = []) as Hend.
    { destruct rest; [by right|left; by apply Hrest]. }
    assert (m = documented ep \/ (m <> documented ep /\ ep ∈ any_method)) as Hmm.
    { destruct Hm as [?|?]; [by left|]. destruct (decide (m = documented ep)); auto. }
    clear Hrest Hm.
    destruct ep; cbn in Hp |- *; (destruct Hmm as [->|[_ Hm]]; [|try (unlisted Hm)]);
      (destruct Hend as [Hend | ->]; [try (unlisted Hend)|]); try (apply String.eqb_neq in Hp);
      cbn; rewrite ?Hp; by try destruct m.
Qed.

Lemma filters_disjoint : pairwise_disjoint (map filters endpoints) = true.
Proof. reflexivity. Qed.
Lemma all_endpoints ep : ep ∈ endpoints.
Proof. apply (bool_decide_unpack (ep ∈ endpoints)). by destruct ep. Qed.
Lemma endpoints_distinct : NoDup endpoints.
Proof. by apply (bool_decide_unpack (NoDup endpoints)). Qed.

Lemma asks_accepts rq ep param :
  asks rq ep param -> accepts (filters ep) (rq_method rq) (rq_segments rq) = Some (params_of ep param).
Proof. intros (Hm & Hp & rest & Hs & Hr). apply filters_spec. split; [done|]. exists param, rest. auto. Qed.
Lemma accepts_asks rq ep ps :
  accepts (filters ep) (rq_method rq) (rq_segments rq) = Some ps -> exists param, asks rq ep param /\ ps = params_of ep param.
Proof.
  intros (Hm & param & rest & Hp & -> & Hs & Hr)%filters_spec. exists param. split; [|done].
  split; [done|]. split; [done|]. by exists rest.
Qed.

(** Routes that refuse a request for its method only. *)
Lemma filters_method_last ep : method_last (filters ep) = true.
Proof. by destruct ep. Qed.
Lemma misses_cases eps (rq : Request parts) :
  (forall ep, accepts (filters ep) (rq_method rq) (rq_segments rq) = None) ->
  (misses (map (route_of filters run) eps) rq <> [] /\
     exists m ep ps, accepts (filters ep) m (rq_segments rq) = Some ps) \/
  (misses (map (route_of filters run) eps) rq = [] /\
     forall m ep, ep ∈ eps -> accepts (filters ep) m (rq_segments rq) = None).
Proof.
  intros Hnone. induction eps as [|ep eps IH]; [right; set_solver|].
  cbn [map]. rewrite misses_cons. cbn [r_match route_of].
  destruct (refusal_method_last (E := server_error) (filters ep) (rq_method rq) (rq_segments rq))
    as [[-> (m & ps & Hps)]|[-> Hno]]; [apply filters_method_last|done| |].
  - left. split; [done|]. eauto.
  - destruct IH as [[Hm Hex]|[-> Hno']]; [by left|]. right. set_solver.
Qed.

(** The cases of a rejection. *)
Definition server_reply (err : Rejection server_error) : option (Z * string) :=
  match find_cause as_api_error err with
  | Some e => Some (AuthError.api_error_to_reply e)
  | None => (fun e => AuthError.api_error_to_reply (AuthError.api_error_of e)) <$> find_cause as_server_error err
  end.
Lemma handle_rejection_among e e' before after :
  Forall (fun c => c = MethodNotAllowed) before -> Forall (fun c => c = MethodNotAllowed) after ->
  causes e' = (before ++ causes e ++ after)%list -> causes e <> [] ->
  match server_reply e with
  | Some rep => handle_rejection e' = rep
  | None => (handle_rejection e').1 ∈ [405; 500]%Z
  end.
Proof.
  intros Hb Ha He Hne. unfold server_reply, handle_rejection.
  rewrite (find_among as_api_error e e' before after), (find_among as_server_error e e' before after) by done.
  destruct (find_cause as_api_error e); [done|]. destruct (find_cause as_server_error e); cbn; [done|].
  assert (is_not_found e' = false) as ->.
  { unfold is_not_found. rewrite He. destruct before, (causes e); done. }
  destruct (find_cause as_method_not_allowed e'); set_solver.
Qed.

(** What becomes of the outcome of an endpoint: its reply; the status and message of
    the error it rejects with; a dropped connection when it panics. *)
Definition answers (out : res (Rejection server_error) Reply * S) (ans : option Reply * S) : Prop :=
  match out with
  | (Ok r, s') => ans = (Some r, s')
  | (Panic, s') => ans = (None, s')
  | (Err e, s') => exists rep, ans = (Some (error_reply rep), s') /\
      (causes e <> [] -> match server_reply e with Some rep' => rep = rep' | None => rep.1 ∈ [405; 500]%Z end)
  end.

(** C29. Each endpoint of the auth server is reached by the requests with its path and
    its documented method, by those with any method for the depth routes and the
    RFQT levels, whose routes do not look at it, and by no others; no request reaches
    two of them.  Its handler is given the parameter of the path, the full path, the
    headers, the body if it is a POST endpoint, and the query (empty when absent) if
    it takes one.  Its outcome is the answer, a rejection becoming the status and
    message of its error.  A request for no endpoint changes nothing and is answered
    with 405 when its path is that of an endpoint under another method, and with 404
    otherwise. *)
Theorem auth_requests_routed rq s :
  (exists ep param out, asks rq ep param /\ handled ep param (rq_rest rq) s out /\
     answers out (serve rq s) /\
     forall ep' param', asks rq ep' param' -> ep' = ep /\ params_of ep' param' = params_of ep param) \/
  ((forall ep param, ~ asks rq ep param) /\
   exists rep, serve rq s = (Some (error_reply rep), s) /\
     ((rep = (405%Z, "Method Not Allowed") /\
       exists m ep param, asks (mk_req m (rq_segments rq) (rq_rest rq)) ep param) \/
      (rep = (404%Z, "Not Found") /\
       forall m ep param, ~ asks (mk_req m (rq_segments rq) (rq_rest rq)) ep param))).
Proof.
  destruct (table_dispatch filters run endpoints rq s filters_disjoint)
    as [ep ps before after Hep Hacc Hb Ha Hout|e Hnone Hout Hc]; fold routes in Hout.
  - left. destruct (accepts_asks _ _ _ Hacc) as (param & Hasks & ->). exists ep, param, (run ep (params_of ep param) (rq_rest rq) s).
    split; [done|]. split; [apply run_handled|]. split.
    + unfold answers, serve, among in *. destruct (run ep _ _ s) as [[r|e|] s']; [by rewrite Hout| |by rewrite Hout].
      destruct Hout as (e' & -> & He'). eexists. split; [done|]. intros Hne.
      exact (handle_rejection_among e e' before after Hb Ha He' Hne).
    + intros ep' param' Hasks'%asks_accepts.
      assert (ep' = ep) as ->.
      { eapply (endpoint_unique filters endpoints rq); eauto using all_endpoints, endpoints_distinct, filters_disjoint. }
      split; [done|]. congruence.
  - right. assert (forall ep, accepts (filters ep) (rq_method rq) (rq_segments rq) = None) as Hnone'.
    { intros ep. rewrite Forall_forall in Hnone. apply Hnone, all_endpoints. }
    split; [intros ep param Hasks%asks_accepts; by rewrite Hnone' in Hasks|].
    exists (handle_rejection e). split; [unfold serve; by rewrite Hout|].
    destruct (misses_cases endpoints rq Hnone') as [[Hm (m & ep & ps & Hacc)]|[Hm Hno]].
    + left. split.
      * generalize (misses_method (map (route_of filters run) endpoints) rq). rewrite <- Hc.
        unfold handle_rejection, find_cause, is_not_found. rewrite <- Hc in Hm.
        destruct (causes e) as [|c l]; [done|]. intros Hall.
        rewrite !omap_refused by done. by apply Forall_cons_1 in Hall as [-> _].
      * destruct (accepts_asks (mk_req m (rq_segments rq) (rq_rest rq)) ep ps Hacc) as (param & ? & _). eauto.
    + right. rewrite <- Hc in Hm. split; [unfold handle_rejection, find_cause, is_not_found; by rewrite Hm|].
      intros m ep param Hasks%asks_accepts. cbn in Hasks. by rewrite (Hno m ep (all_endpoints ep)) in Hasks.
Qed.
End Server.

(** ** Requests to a server whose handlers log their endpoint *)
Module AuthRoutesWitness.
Definition is_uuid (s : string) : bool := String.eqb s "c3f1".
Definition auth_log (ep : Endpoint) (_ : handler_args)
    : eff (list Endpoint) (Rejection server_error) (Z * string) :=
  fun s => (Ok (200%Z, "ok"), (s ++ [ep])%list).
Definition auth_serve : Request parts -> list Endpoint -> option (Z * string) * list Endpoint :=
  serve is_uuid auth_log (200%Z, "PONG") (fun e => e).
Definition auth_request (m : Method) (path : list string) : Request parts :=
  mk_req m path (mk_parts "" [] (inr "{}") None).

Example key_deactivated :
  auth_serve (auth_request POST ["api-keys"; "c3f1"; "deactivate"]) [] =
    (Some (200%Z, "ok"), [ExpireApiKey]).
Proof. reflexivity. Qed.
Example wrong_method :
  auth_serve (auth_request GET ["api-keys"; "c3f1"; "deactivate"]) [] = (Some (405%Z, "Method Not Allowed"), []).
Proof. reflexivity. Qed.
Example bad_key_id : auth_serve (auth_request POST ["api-keys"; "me"; "deactivate"]) [] = (Some (404%Z, "Not Found"), []).
Proof. reflexivity. Qed.
(** The depth routes have no filter for the method. *)
Example depth_by_any_method :
  auth_serve (auth_request OtherMethod ["v2"; "markets"; "depth"]) [] = (Some (200%Z, "ok"), [AllMarketsDepth]).
Proof. reflexivity. Qed.

(** A server whose handlers log what they are given. *)
Definition args_log (ep : Endpoint) (a : handler_args)
    : eff (list (Endpoint * handler_args)) (Rejection server_error) (Z * string) :=
  fun s => (Ok (200%Z, "ok"), (s ++ [(ep, a)])%list).
Definition quote_request : Request parts :=
  mk_req POST ["v2"; "external-matches"; "get-quote"]
    (mk_parts "/v2/external-matches/get-quote" [("x-renegade-api-key", "c3f1")] (inr "{}")
       (Some "disable_gas_sponsorship=true")).
Lemma auth_requests_routed_witness :
  asks is_uuid quote_request ExternalQuote "" /\
  exists a, (serve is_uuid args_log (200%Z, "PONG") (fun e => e) quote_request []).2 = [(ExternalQuote, a)] /\
    ha_headers a = [("x-renegade-api-key", "c3f1")] /\ ha_body a = Some "{}" /\
    ha_query a = Some "disable_gas_sponsorship=true".
Proof.
  assert (asks is_uuid quote_request ExternalQuote "") as Hq
    by (split; [by left|]; split; [done|]; by exists []).
  split; [exact Hq|].
  destruct (auth_requests_routed is_uuid args_log (200%Z, "PONG") (fun e => e) quote_request [])
    as [(ep & param & out & _ & Hh & Hans & Hu)|[Hno _]]; [|by destruct (Hno _ _ Hq)].
  destruct (Hu _ _ Hq) as [<- Hp].
  destruct Hh as [[? _]|[(_ & a & _ & _ & Hhd & _ & Hb & Hqs & _ & ->)|(_ & e & He & _)]];
    [discriminate| |discriminate He].
  exists a. destruct (Hb eq_refl) as (b & Hpb & Hab). injection Hpb as <-.
  split; [by rewrite (Hans : serve _ _ _ _ _ _ = _)|]. split; [exact Hhd|]. split; [exact Hab|].
  apply Hqs. apply (bool_decide_unpack (_ ∈ _)). exact I.
Defined.
End AuthRoutesWitness.
