(* ===== verification/FundsRoutes.v ===== *)
(** * The routes of the funds manager (funds-manager-server: main.rs, middleware.rs)

    The table of endpoints in the order of its [or]s: the filters on method and path,
    HMAC authentication and JSON bodies where the route has them, the handler, and the
    reply to a rejection.  The handlers are a parameter here; the files of the funds
    manager model them.  The theorems say which handler runs, on what, and that the
    authentication guards it. *)
From S2P Require Import FundsManager.
From Stdlib Require Import ZArith Lia Ascii.
From stdpp Require Import gmap strings list.
From S2P Require Import Prelude Warp.
Local Open Scope string_scope.

Definition X_SIGNATURE_HEADER : string := "X-Signature".
Definition PING_ROUTE : string := "ping".
Definition INDEX_FEES_ROUTE : string := "index-fees".
Definition REDEEM_FEES_ROUTE : string := "redeem-fees".
Definition GET_FEE_WALLETS_ROUTE : string := "get-fee-wallets".
Definition WITHDRAW_FEE_BALANCE_ROUTE : string := "withdraw-fee-balance".
Definition GET_FEE_HOT_WALLET_ADDRESS_ROUTE : string := "get-hot-wallet-address".
Definition GET_UNREDEEMED_FEE_TOTALS_ROUTE : string := "get-unredeemed-fee-totals".
Definition GET_VAULT_BALANCES_ROUTE : string := "get-vault-balances".
Definition WITHDRAW_CUSTODY_ROUTE : string := "withdraw".
Definition GET_DEPOSIT_ADDRESS_ROUTE : string := "deposit-address".
Definition SWAP_IMMEDIATE_ROUTE : string := "swap-immediate".
Definition SWAP_INTO_TARGET_TOKEN_ROUTE : string := "swap-into-target-token".
Definition WITHDRAW_TO_HYPERLIQUID_ROUTE : string := "withdraw-to-hyperliquid".
Definition WITHDRAW_GAS_ROUTE : string := "withdraw-gas".
Definition REFILL_GAS_ROUTE : string := "refill-gas".
Definition SET_GAS_WALLET_STATUS_ROUTE : string := "set-gas-wallet-status".
Definition REGISTER_GAS_WALLET_ROUTE : string := "register-gas-wallet".
Definition REPORT_ACTIVE_PEERS_ROUTE : string := "report-active-peers".
Definition REFILL_GAS_SPONSOR_ROUTE : string := "refill-gas-sponsor".
Definition GET_GAS_HOT_WALLET_ADDRESS_ROUTE : string := "get-hot-wallet-address".
Definition TRANSFER_TO_VAULT_ROUTE : string := "transfer-to-vault".
Definition WITHDRAW_TO_HOT_WALLET_ROUTE : string := "withdraw-to-hot-wallet".

Inductive Endpoint :=
  | Ping | IndexFees | RedeemFees | GetVaultBalances | WithdrawCustody | GetDepositAddress | SwapImmediate
  | SwapIntoTargetToken | WithdrawToHyperliquid | WithdrawGas | RefillGas | ReportActivePeers | RefillGasSponsor
  | RegisterGasWallet | SetGasWalletStatus | AddGasWallet | GetGasWallets | GetGasHotWalletAddress | GetBalances
  | WithdrawFeeBalance | GetFeeHotWalletAddress | GetUnredeemedFeeTotals | TransferToVault | TransferToHotWallet
  | GetHotWalletBalances | CreateHotWallet | Rpc.
#[export] Instance Endpoint_eq_dec : EqDecision Endpoint.
Proof. solve_decision. Defined.

(** The request as the authentication sees it; whether its signature header is text,
    whether the body could be read and the query parsed. *)
Record parts := mk_parts {
  pt_request : request;
  pt_signature_text : bool;
  pt_body_error : option string;
  pt_query_ok : bool;
}.

(** What a route extracts after method and path. *)
Inductive extraction := NoAuth | AuthBody | AuthJson | AuthQuery.
Definition arg_of (x : extraction) (payload : Type) : Type :=
  match x with NoAuth => unit | AuthBody | AuthQuery => string | AuthJson => payload end.
Definition extracts (ep : Endpoint) : extraction :=
  match ep with
  | Ping | IndexFees | RedeemFees | GetFeeHotWalletAddress | GetUnredeemedFeeTotals | GetDepositAddress
  | GetGasHotWalletAddress => NoAuth
  | GetBalances | AddGasWallet | RefillGasSponsor | GetGasWallets => AuthBody
  | GetHotWalletBalances => AuthQuery
  | _ => AuthJson
  end.

Section Server.
Context `{WarpLib} {S Reply Key : Type}.
Context (validate_expiring_auth : string -> headers -> string -> Key -> bool)
  (hex_decode : string -> option string) (verify_mac : Key -> string -> string -> bool) (hmac_key : option Key)
  (chain_from_str : string -> option Chain)
  (payload : Endpoint -> Type) (decode : forall ep, string -> res string (payload ep)).
(** A handler is given the chain of its path, if it has one, and what was extracted. *)
Context (handler : forall ep, option Chain -> arg_of (extracts ep) (payload ep) -> eff S (Rejection rejection) Reply)
  (pong : Reply) (error_reply : Z * string -> Reply).

Abbreviation funds_eff := (eff S (Rejection rejection)).

Definition with_chain_param : filt := Param (fun s => match chain_from_str s with Some _ => true | None => false end).

Definition filters (ep : Endpoint) : list filt :=
  match ep with
  | Ping => [IsGet; Path PING_ROUTE]
  | IndexFees => [IsPost; Path "fees"; with_chain_param; Path INDEX_FEES_ROUTE]
  | RedeemFees => [IsPost; Path "fees"; with_chain_param; Path REDEEM_FEES_ROUTE]
  | GetBalances => [IsGet; Path "fees"; with_chain_param; Path GET_FEE_WALLETS_ROUTE]
  | WithdrawFeeBalance => [IsPost; Path "fees"; with_chain_param; Path WITHDRAW_FEE_BALANCE_ROUTE]
  | GetFeeHotWalletAddress => [IsGet; Path "fees"; with_chain_param; Path GET_FEE_HOT_WALLET_ADDRESS_ROUTE]
  | GetUnredeemedFeeTotals => [IsGet; Path "fees"; with_chain_param; Path GET_UNREDEEMED_FEE_TOTALS_ROUTE]
  | GetVaultBalances => [IsPost; Path "custody"; Path GET_VAULT_BALANCES_ROUTE]
  | WithdrawCustody => [IsPost; Path "custody"; with_chain_param; Path "quoters"; Path WITHDRAW_CUSTODY_ROUTE]
  | GetDepositAddress => [IsGet; Path "custody"; with_chain_param; Path "quoters"; Path GET_DEPOSIT_ADDRESS_ROUTE]
  | SwapImmediate => [IsPost; Path "custody"; with_chain_param; Path "quoters"; Path SWAP_IMMEDIATE_ROUTE]
  | SwapIntoTargetToken =>
      [IsPost; Path "custody"; with_chain_param; Path "quoters"; Path SWAP_INTO_TARGET_TOKEN_ROUTE]
  | WithdrawToHyperliquid => [IsPost; Path "custody"; Path "quoters"; Path WITHDRAW_TO_HYPERLIQUID_ROUTE]
  | WithdrawGas => [IsPost; Path "custody"; with_chain_param; Path "gas"; Path WITHDRAW_GAS_ROUTE]
  | RefillGas => [IsPost; Path "custody"; with_chain_param; Path "gas"; Path REFILL_GAS_ROUTE]
  | SetGasWalletStatus =>
      [IsPost; Path "custody"; with_chain_param; Path "gas-wallets"; Path SET_GAS_WALLET_STATUS_ROUTE]
  | AddGasWallet => [IsPost; Path "custody"; with_chain_param; Path "gas-wallets"; End]
  | RegisterGasWallet => [IsPost; Path "custody"; with_chain_param; Path "gas-wallets"; Path REGISTER_GAS_WALLET_ROUTE]
  | ReportActivePeers => [IsPost; Path "custody"; with_chain_param; Path "gas-wallets"; Path REPORT_ACTIVE_PEERS_ROUTE]
  | RefillGasSponsor => [IsPost; Path "custody"; with_chain_param; Path "gas"; Path REFILL_GAS_SPONSOR_ROUTE]
  | GetGasWallets => [IsGet; Path "custody"; with_chain_param; Path "gas-wallets"; End]
  | GetGasHotWalletAddress =>
      [IsGet; Path "custody"; with_chain_param; Path "gas"; Path GET_GAS_HOT_WALLET_ADDRESS_ROUTE]
  | CreateHotWallet => [IsPost; Path "custody"; with_chain_param; Path "hot-wallets"; End]
  | GetHotWalletBalances => [IsGet; Path "custody"; with_chain_param; Path "hot-wallets"]
  | TransferToVault => [IsPost; Path "custody"; with_chain_param; Path "hot-wallets"; Path TRANSFER_TO_VAULT_ROUTE]
  | TransferToHotWallet =>
      [IsPost; Path "custody"; with_chain_param; Path "hot-wallets"; Path WITHDRAW_TO_HOT_WALLET_ROUTE]
  | Rpc => [IsPost; Path "rpc"]
  end.

Definition with_hmac_inputs (pt : parts) : res (Rejection rejection) request :=
  if negb (pt_signature_text pt) then Err (reject (InvalidHeader X_SIGNATURE_HEADER))
  else match pt_body_error pt with
  | Some e => Err (reject (BodyReadError e))
  | None => Ok (pt_request pt)
  end.
Definition with_hmac_auth (pt : parts) : res (Rejection rejection) string :=
  rq ← with_hmac_inputs pt;
  map_err (fun e => reject (Custom (ApiRejection e)))
    (verify_hmac validate_expiring_auth hex_decode verify_mac hmac_key rq).
Definition json_body (ep : Endpoint) (body : string) : res (Rejection rejection) (payload ep) :=
  map_err (fun e => reject (Custom (ApiRejection e))) (with_json_body (decode ep) body).

Definition extract (x : extraction) (ep : Endpoint) (pt : parts) : res (Rejection rejection) (arg_of x (payload ep)) :=
  match x with
  | NoAuth => Ok tt
  | AuthBody => with_hmac_auth pt
  | AuthJson => body ← with_hmac_auth pt; json_body ep body
  | AuthQuery => body ← with_hmac_auth pt; if pt_query_ok pt then Ok body else Err (reject InvalidQuery)
  end.
Definition run (ep : Endpoint) (params : list string) (pt : parts) : funds_eff Reply :=
  match ep with
  | Ping => mret pong
  | _ => arg ← lift (extract (extracts ep) ep pt); handler ep (head params ≫= chain_from_str) arg
  end.

(** In the order of the [or]s. *)
Definition endpoints : list Endpoint :=
  [ Ping; IndexFees; RedeemFees; GetVaultBalances; WithdrawCustody; GetDepositAddress; SwapImmediate;
    SwapIntoTargetToken; WithdrawToHyperliquid; WithdrawGas; RefillGas; ReportActivePeers; RefillGasSponsor;
    RegisterGasWallet; SetGasWalletStatus; AddGasWallet; GetGasWallets; GetGasHotWalletAddress; GetBalances;
    WithdrawFeeBalance; GetFeeHotWalletAddress; GetUnredeemedFeeTotals; TransferToVault; TransferToHotWallet;
    GetHotWalletBalances; CreateHotWallet; Rpc ].
Definition routes : list (route (R := parts)) := map (route_of filters run) endpoints.

Definition as_api_error (c : cause rejection) : option ApiError :=
  match c with Custom (ApiRejection e) => Some e | _ => None end.
(** A rejection without an [ApiError] is left to warp. *)
Inductive served := Answered (r : Reply) | LeftToWarp (e : Rejection rejection) | Dropped.
Definition recover (err : Rejection rejection) : served :=
  match find_cause as_api_error err with
  | Some e =>
      match handle_rejection (ApiRejection e) with
      | Some rep => Answered (error_reply rep)
      | None => LeftToWarp err
      end
  | None => LeftToWarp err
  end.
Definition serve (rq : Request parts) : S -> served * S := fun s =>
  match routes_of routes rq s with
  | (Ok r, s) => (Answered r, s)
  | (Err e, s) => (recover e, s)
  | (Panic, s) => (Dropped, s)
  end.

(** *** The documented interface *)
Definition path_of (ep : Endpoint) (chain : string) : list string :=
  match ep with
  | Ping => ["ping"]
  | IndexFees => ["fees"; chain; "index-fees"]
  | RedeemFees => ["fees"; chain; "redeem-fees"]
  | GetBalances => ["fees"; chain; "get-fee-wallets"]
  | WithdrawFeeBalance => ["fees"; chain; "withdraw-fee-balance"]
  | GetFeeHotWalletAddress => ["fees"; chain; "get-hot-wallet-address"]
  | GetUnredeemedFeeTotals => ["fees"; chain; "get-unredeemed-fee-totals"]
  | GetVaultBalances => ["custody"; "get-vault-balances"]
  | WithdrawCustody => ["custody"; chain; "quoters"; "withdraw"]
  | GetDepositAddress => ["custody"; chain; "quoters"; "deposit-address"]
  | SwapImmediate => ["custody"; chain; "quoters"; "swap-immediate"]
  | SwapIntoTargetToken => ["custody"; chain; "quoters"; "swap-into-target-token"]
  | WithdrawToHyperliquid => ["custody"; "quoters"; "withdraw-to-hyperliquid"]
  | WithdrawGas => ["custody"; chain; "gas"; "withdraw-gas"]
  | RefillGas => ["custody"; chain; "gas"; "refill-gas"]
  | SetGasWalletStatus => ["custody"; chain; "gas-wallets"; "set-gas-wallet-status"]
  | AddGasWallet | GetGasWallets => ["custody"; chain; "gas-wallets"]
  | RegisterGasWallet => ["custody"; chain; "gas-wallets"; "register-gas-wallet"]
  | ReportActivePeers => ["custody"; chain; "gas-wallets"; "report-active-peers"]
  | RefillGasSponsor => ["custody"; chain; "gas"; "refill-gas-sponsor"]
  | GetGasHotWalletAddress => ["custody"; chain; "gas"; "get-hot-wallet-address"]
  | CreateHotWallet | GetHotWalletBalances => ["custody"; chain; "hot-wallets"]
  | TransferToVault => ["custody"; chain; "hot-wallets"; "transfer-to-vault"]
  | TransferToHotWallet => ["custody"; chain; "hot-wallets"; "withdraw-to-hot-wallet"]
  | Rpc => ["rpc"]
  end.
Definition has_chain (ep : Endpoint) : bool :=
  match ep with Ping | GetVaultBalances | WithdrawToHyperliquid | Rpc => false | _ => true end.
Definition closed (ep : Endpoint) : bool :=
  match ep with AddGasWallet | GetGasWallets | CreateHotWallet => true | _ => false end.
Definition method_of (ep : Endpoint) : Method :=
  match ep with
  | Ping | GetBalances | GetFeeHotWalletAddress | GetUnredeemedFeeTotals | GetDepositAddress | GetGasWallets
  | GetGasHotWalletAddress | GetHotWalletBalances => GET
  | _ => POST
  end.
(** A request for [ep] on the chain [c]. *)
Definition asks (rq : Request parts) (ep : Endpoint) (c : option Chain) : Prop :=
  rq_method rq = method_of ep /\
  exists name rest, rq_segments rq = (path_of ep name ++ rest)%list /\ (closed ep = true -> rest = []) /\
    (if has_chain ep then c = chain_from_str name /\ is_Some c else c = None).

Lemma funds_accepts_asks rq ep ps :
  accepts (filters ep) (rq_method rq) (rq_segments rq) = Some ps -> asks rq ep (head ps ≫= chain_from_str).
Proof.
  unfold asks. destruct rq as [m segs pt]. cbn [rq_method rq_segments]. intros Ha.
  destruct ep; cbn in Ha; split_segments Ha; (split; [done|]); cbn;
    lazymatch goal with
    | Hc : match chain_from_str ?x with _ => _ end = true |- _ =>
        destruct (chain_from_str x) eqn:Hx; [|done];
        first [exists x, segs; rewrite Hx; by split_and! | exists x, []; rewrite Hx; by split_and!]
    | _ => exists "", segs; by split_and!
    end.
Qed.
Lemma funds_asks_accepts rq ep c :
  asks rq ep c -> exists ps, accepts (filters ep) (rq_method rq) (rq_segments rq) = Some ps /\ c = head ps ≫= chain_from_str.
Proof.
  intros (Hm & name & rest & Hs & Hc & Hch). rewrite Hm, Hs.
  destruct ep; cbn in Hc, Hch; try rewrite (Hc eq_refl);
    lazymatch type of Hch with
    | _ /\ _ => destruct Hch as [-> [c' Hc']]; exists [name]
    | _ => exists []
    end; cbn; (case_decide; [|done]); cbn; by rewrite ?Hc'.
Qed.

(** The name of the vault route is not that of a chain. *)
Hypothesis vaults_no_chain : chain_from_str GET_VAULT_BALANCES_ROUTE = None.

Lemma funds_filters_disjoint : pairwise_disjoint (map filters endpoints) = true.
Proof. cbn. rewrite vaults_no_chain. by destruct (chain_from_str "quoters"). Qed.
Lemma all_funds_endpoints ep : ep ∈ endpoints.
Proof. apply (bool_decide_unpack (ep ∈ endpoints)). by destruct ep. Qed.
Lemma funds_endpoints_distinct : NoDup endpoints.
Proof. by apply (bool_decide_unpack (NoDup endpoints)). Qed.

(** The endpoints that anyone may use: the liveness check, the two fee jobs, which
    answer that they are not implemented, and addresses and totals that are public. *)
Definition public_endpoints : list Endpoint :=
  [Ping; IndexFees; RedeemFees; GetFeeHotWalletAddress; GetUnredeemedFeeTotals; GetDepositAddress;
   GetGasHotWalletAddress].

(** Whether a request proves knowledge of the key of the server: its expiring
    signature is accepted, or its header has a MAC of its method, path, headers and
    body.  A server without a key checks nothing. *)
Definition authenticated (r : request) : Prop :=
  match hmac_key with
  | None => True
  | Some key =>
      validate_expiring_auth (rq_path r) (rq_headers r) (rq_body r) key = true \/
      exists sig mac, rq_signature r = Some sig /\ hex_decode sig = Some mac /\
        verify_mac key (get_request_bytes (FundsManager.rq_method r) (FundsManager.path_of (rq_path r))
                          (rq_headers r) (rq_body r)) mac = true
  end.

(** The argument of a handler is the body, or what it decodes to. *)
Definition given (ep : Endpoint) (body : string) (arg : arg_of (extracts ep) (payload ep)) : Prop :=
  match extracts ep as x return arg_of x (payload ep) -> Prop with
  | NoAuth => fun _ => False
  | AuthBody | AuthQuery => fun b => b = body
  | AuthJson => fun p => decode ep body = Ok p
  end arg.

(** What an endpoint that is not public hands to its handler. *)
Definition granted (rq : Request parts) (ep : Endpoint) (arg : arg_of (extracts ep) (payload ep)) : Prop :=
  ep ∉ public_endpoints ->
  authenticated (pt_request (rq_rest rq)) /\ given ep (rq_body (pt_request (rq_rest rq))) arg.

Lemma with_hmac_auth_Ok pt body :
  with_hmac_auth pt = Ok body ->
  verify_hmac validate_expiring_auth hex_decode verify_mac hmac_key (pt_request pt) = Ok body.
Proof.
  unfold with_hmac_auth, with_hmac_inputs. destruct (pt_signature_text pt); [|done].
  destruct (pt_body_error pt); [done|]. apply map_err_Ok.
Qed.
Lemma verify_hmac_authenticated r body :
  verify_hmac validate_expiring_auth hex_decode verify_mac hmac_key r = Ok body ->
  authenticated r /\ body = rq_body r.
Proof.
  intros Hv. pose proof (hmac_gate validate_expiring_auth hex_decode verify_mac hmac_key r) as Hg.
  rewrite Hv in Hg. destruct Hg as [-> Hg]. split; [|done]. unfold authenticated. by destruct hmac_key.
Qed.
(** The endpoints that extract nothing are the public ones. *)
Lemma guarded_extracts ep : ep ∉ public_endpoints -> extracts ep <> NoAuth.
Proof.
  intros Hep Hx. apply Hep. apply (bool_decide_unpack (ep ∈ public_endpoints)). by destruct ep.
Qed.
Lemma extract_granted rq ep arg : extract (extracts ep) ep (rq_rest rq) = Ok arg -> granted rq ep arg.
Proof.
  intros Hx Hep%guarded_extracts. unfold given, extract in *. revert arg Hx.
  destruct (extracts ep); cbn; intros arg Hx; [done| | |].
  - apply with_hmac_auth_Ok, verify_hmac_authenticated in Hx as [? ->]. done.
  - apply bind_Ok_inv in Hx as (body & Hb%with_hmac_auth_Ok%verify_hmac_authenticated & Hx).
    destruct Hb as [? ->]. split; [done|]. unfold json_body, with_json_body in Hx. by apply map_err_Ok, map_err_Ok in Hx.
  - apply bind_Ok_inv in Hx as (body & Hb%with_hmac_auth_Ok%verify_hmac_authenticated & Hx).
    destruct Hb as [? ->]. destruct (pt_query_ok _); [|done]. by injection Hx as <-.
Qed.

(** The reply to the outcome of a handler. *)
Definition funds_answers (out : res (Rejection rejection) Reply * S) (ans : served * S) : Prop :=
  match out with
  | (Ok r, s') => ans = (Answered r, s')
  | (Panic, s') => ans = (Dropped, s')
  | (Err e, s') =>
      match find_cause as_api_error e with
      | Some err => exists rep, handle_rejection (ApiRejection err) = Some rep /\ ans = (Answered (error_reply rep), s')
      | None => exists e', ans = (LeftToWarp e', s')
      end
  end.

Lemma recover_among e e' before after s' :
  Forall (fun c => c = MethodNotAllowed) before -> Forall (fun c => c = MethodNotAllowed) after ->
  causes e' = (before ++ causes e ++ after)%list -> funds_answers (Err e, s') (recover e', s').
Proof.
  intros Hb Ha He. unfold funds_answers, recover. rewrite (find_among as_api_error e e' before after) by done.
  destruct (find_cause as_api_error e) as [err|]; [|eauto].
  destruct err; cbn; eauto.
Qed.

(** C11. A handler of the funds manager runs only for a request with the method and
    path of its endpoint, on the chain the path names, and at most one runs per
    request.  Unless the endpoint is one of the seven listed as public, the request
    carries a signature accepted under the key of the server or a MAC of its method,
    path, headers and body (when the server has a key), and the handler is given its
    body, decoded.  Its outcome is the answer, an API error becoming its status and
    message.  Every other request leaves the state alone. *)
Theorem funds_handlers_guarded rq s :
  (serve rq s).2 = s \/
  exists ep c arg, asks rq ep c /\ granted rq ep arg /\ funds_answers (handler ep c arg s) (serve rq s) /\
    forall ep' c', asks rq ep' c' -> ep' = ep /\ c' = c.
Proof.
  destruct (table_dispatch filters run endpoints rq s funds_filters_disjoint)
    as [ep ps before after Hep Hacc Hb Ha Hout|e Hnone Hout Hc]; fold routes in Hout.
  2: { left. unfold serve. by rewrite Hout. }
  destruct (decide (ep = Ping)) as [->|Hping].
  { left. change (routes_of routes rq s = (Ok pong, s)) in Hout. unfold serve. by rewrite Hout. }
  assert (run ep ps (rq_rest rq) =
    (arg ← lift (extract (extracts ep) ep (rq_rest rq)); handler ep (head ps ≫= chain_from_str) arg)) as Hrun
    by (by destruct ep).
  rewrite Hrun in Hout. unfold mbind at 1, eff_bind at 1, lift in Hout.
  destruct (extract (extracts ep) ep (rq_rest rq)) as [arg|e|] eqn:Hx.
  - right. exists ep, (head ps ≫= chain_from_str), arg. split; [by apply funds_accepts_asks|].
    split; [by apply extract_granted|]. split.
    + unfold serve, among in *. destruct (handler ep _ arg s) as [[r|e|] s']; [by rewrite Hout| |by rewrite Hout].
      destruct Hout as (e' & -> & He'). exact (recover_among e e' before after s' Hb Ha He').
    + intros ep' c' (ps' & Hacc' & ->)%funds_asks_accepts.
      assert (ep' = ep) as ->.
      { eapply (endpoint_unique filters endpoints rq);
          eauto using all_funds_endpoints, funds_endpoints_distinct, funds_filters_disjoint. }
      split; [done|]. congruence.
  - left. destruct Hout as (e' & Hr & _). unfold serve. by rewrite Hr.
  - left. unfold among in Hout. unfold serve. by rewrite Hout.
Qed.

(** An unknown path is never refused as not found: the routes for the other method
    look at the method first and refuse it. *)
Theorem unknown_path_refused_as_method rq s :
  (forall ep c, ~ asks rq ep c) ->
  exists e, serve rq s = (LeftToWarp e, s) /\ is_not_found e = false /\
    Forall (fun c => c = MethodNotAllowed) (causes e).
Proof.
  intros Hno. destruct (table_dispatch filters run endpoints rq s funds_filters_disjoint)
    as [ep ps before after Hep Hacc Hb Ha Hout|e Hnone Hout Hc]; fold routes in Hout.
  { exfalso. by apply funds_accepts_asks, Hno in Hacc. }
  assert (Forall (fun c => c = MethodNotAllowed) (causes e)) as Hall by (rewrite Hc; apply misses_method).
  exists e. split; [|split; [|done]].
  - unfold serve. rewrite Hout. unfold recover, find_cause. by rewrite omap_refused.
  - unfold is_not_found. rewrite Hc. destruct rq as [m segs pt].
    unfold routes, endpoints. cbn [map]. rewrite 2!misses_cons.
    destruct m; [|reflexivity..]. by destruct (refusal (r_match (route_of filters run Ping)) _ _).
Qed.
End Server.

(** ** Requests to a server whose handlers log their endpoint *)
Module FundsRoutesWitness.
Definition chain_from_str (s : string) : option Chain := if String.eqb s "arbitrum-one" then Some ArbitrumOne else None.
Definition funds_log (ep : Endpoint) (c : option Chain) (_ : arg_of (extracts ep) string)
    : eff (list Endpoint) (Rejection rejection) (Z * string) :=
  fun s => (Ok (200%Z, "ok"), (s ++ [ep])%list).
Definition funds_serve : Request parts -> list Endpoint ->
    served (Reply := Z * string) * list Endpoint :=
  serve (Key := unit) (fun _ _ _ _ => false) (fun s => Some s) (fun _ _ mac => String.eqb mac "mac")
    (Some tt) chain_from_str (fun _ => string) (fun _ b => Ok b) funds_log (200%Z, "PONG") (fun e => e).
Definition funds_request (signature : option string) : Request parts :=
  mk_req POST ["custody"; "arbitrum-one"; "quoters"; "swap-immediate"]
    (mk_parts (mk_request "/custody/arbitrum-one/quoters/swap-immediate" signature "POST" [] "{}")
       true None true).
Example swap_unsigned :
  funds_serve (funds_request None) [] = (Answered (401%Z, "Missing signature"), []).
Proof. reflexivity. Qed.
Example swap_signed :
  funds_serve (funds_request (Some "mac")) [] = (Answered (200%Z, "ok"), [SwapImmediate]).
Proof. reflexivity. Qed.
(** Fee indexing needs no signature; its handler only answers that it is not implemented. *)
Example fees_unsigned :
  (funds_serve (mk_req POST ["fees"; "arbitrum-one"; "index-fees"] (rq_rest (funds_request None))) []).2 =
    [IndexFees].
Proof. reflexivity. Qed.

(** The request is for a guarded endpoint: its handler runs with the body of a request
    whose MAC verifies. *)
Lemma funds_handlers_guarded_witness :
  let rq := funds_request (Some "mac") in
  (funds_serve rq []).2 = [SwapImmediate] /\
  authenticated (Key := unit) (fun _ _ _ _ => false) (fun s => Some s) (fun _ _ mac => String.eqb mac "mac")
    (Some tt) (pt_request (rq_rest rq)).
Proof.
  split; [reflexivity|].
  destruct (funds_handlers_guarded (Key := unit) (fun _ _ _ _ => false) (fun s => Some s)
    (fun _ _ mac => String.eqb mac "mac") (Some tt) chain_from_str (fun _ => string) (fun _ b => Ok b) funds_log
    (200%Z, "PONG") (fun e => e) eq_refl (funds_request (Some "mac")) [])
    as [Hs|(ep & c & arg & _ & Hg & _ & Hu)]; [discriminate Hs|].
  destruct (Hu SwapImmediate (Some ArbitrumOne)) as [<- _].
  { split; [reflexivity|]. exists "arbitrum-one", []. split; [reflexivity|]. split; [intros _; reflexivity|].
    split; [reflexivity|by eexists]. }
  apply Hg. apply (bool_decide_unpack (_ ∉ _)). exact I.
Defined.
Lemma unknown_path_refused_as_method_witness :
  exists e, funds_serve (mk_req GET ["unknown"] (rq_rest (funds_request None))) [] = (LeftToWarp e, []) /\
    is_not_found e = false /\ Forall (fun c => c = MethodNotAllowed) (causes e).
Proof.
  apply unknown_path_refused_as_method; [done|].
  intros ep c (_ & name & rest & Hs & _). cbn in Hs. by destruct ep.
Defined.
End FundsRoutesWitness.
