(* ===== verification/SwapCosts.v ===== *)
(** * Swap endpoints and their costs (funds-manager-server: handlers/swap.rs,
    metrics/cost.rs, metrics/labels.rs)

    The handlers of the swap endpoints top up the gas of the quoter wallet, run the
    swap of [Swap], record what it cost, and answer.  The state is the trace of
    what reaches the outside: quotes sent to the venues and gauges set.  Prices,
    receipts and texts are the environment. *)
From Stdlib Require Import ZArith Lia Ascii SpecFloat.
From stdpp Require Import gmap strings list.
From S2P Require Import Prelude F64 AuthError Swap FundsManager.
Local Open Scope Z_scope.

(** ** labels.rs *)
Definition SWAP_EXECUTION_COST_METRIC_NAME : string := "swap_execution_cost".
Definition SWAP_EXECUTION_COST_ARTIFACT_METRIC_NAME : string := "swap_execution_cost_artifact".
Definition SWAP_GAS_COST_METRIC_NAME : string := "swap_gas_cost".
Definition SWAP_NOTIONAL_VOLUME_METRIC_NAME : string := "swap_notional_volume".
Definition SWAP_RELATIVE_SPREAD_METRIC_NAME : string := "swap_relative_spread".
Definition SELF_TRADE_VOLUME_USDC_METRIC_NAME : string := "self_trade_volume".
Definition ASSET_TAG : string := "asset".
Definition TRADE_SIDE_FACTOR_TAG : string := "side".
Definition CHAIN_TAG : string := "chain".
Definition VENUE_TAG : string := "venue".
Definition SOURCE_TAG : string := "source".

(** ** cost.rs *)
Definition OUTLIER_RELATIVE_SPREAD_THRESHOLD : f64 := lit 5 100.
Definition execution_cost_metric_name (relative_spread : f64) : string :=
  let abs_spread := fabs relative_spread in
  if negb (is_finite abs_spread) || fgtb abs_spread OUTLIER_RELATIVE_SPREAD_THRESHOLD
  then SWAP_EXECUTION_COST_ARTIFACT_METRIC_NAME
  else SWAP_EXECUTION_COST_METRIC_NAME.

Record SwapExecutionData := mk_cost_data {
  sd_buy_token_address : string;
  sd_sell_token_address : string;
  sd_sell_amount : string;
  sd_buy_amount_estimated : string;
  sd_is_buy : bool;
  sd_reference_price : f64;
  sd_transaction_hash : string;
  sd_buy_amount_actual : string;
  sd_execution_price : f64;
  sd_notional_volume_usdc : f64;
  sd_relative_spread : f64;
  sd_execution_cost_usdc : f64;
  sd_gas_cost_usd : f64;
  sd_self_trade_volume_usdc : f64;
  sd_venue : string;
  sd_received_delta : f64;
}.

(** A log of a receipt: who emitted it and the ERC-20 transfer it decodes to, if any. *)
Record transfer := mk_transfer { tf_from : Address; tf_to : Address; tf_value : Z }.
Record log := mk_log { lg_address : Address; lg_transfer : option transfer }.

(** The chain of a recorder, and what its clients answer. *)
Record MetricsRecorder := mk_recorder {
  mr_chain : Chain;
  mr_price : Address -> Chain -> res PriceReporterClientError f64;
  mr_receipt : Z -> res string (option (list log));
}.

(** What reaches the outside. *)
Inductive event :=
  | Attempted (a : attempt)
  | GaugeSet (name : string) (labels : list (string * string)) (value : f64).

(** funds-manager-api: quoters.rs *)
Record ApiExecutionQuote := mk_api_quote {
  aq_sell_token_address : string; aq_buy_token_address : string; aq_sell_amount : Z; aq_buy_amount : Z;
  aq_venue : string; aq_chain_id : Z }.
Record SwapImmediateResponse := mk_swap_response {
  sr_quote : ApiExecutionQuote; sr_tx_hash : string; sr_execution_cost : f64 }.

Section Costs.
(** The tokens of a chain, their conversion, and the texts of values. *)
Context (usdc weth : Address) (convert_to_decimal : Address -> Z -> f64) (ticker : Address -> option string)
  (addr_text hash_text : Z -> string) (f64_text : f64 -> string) (venue_text : SupportedExecutionVenue -> string)
  (chain_text : Chain -> string) (darkpool_constant : Chain -> Address).

(** helpers.rs *)
Definition get_darkpool_address (chain : Chain) : res FundsManagerError Address :=
  match chain with Devnet => Panic | c => Ok (darkpool_constant c) end.

Definition buy_amount_decimal {E} (q : ExecutionQuote) : res E f64 :=
  a ← expect_u128 (buy_amount q); Ok (convert_to_decimal (buy_token q) a).

Definition recorder_price (r : MetricsRecorder) (mint : Address) (chain : Chain) : res FundsManagerError f64 :=
  map_err PriceReporterError (mr_price r mint chain).
Definition get_wei_cost_usdc (r : MetricsRecorder) (wei : Z) : res FundsManagerError f64 :=
  price ← recorder_price r weth ArbitrumOne;
  wei_u128 ← map_err ParseError (u256_try_into_u128 wei);
  let weth_input := convert_to_decimal weth wei_u128 in
  Ok (fmul weth_input price).

(** The USDC that a log moves in or out of the darkpool. *)
Definition log_volume (darkpool_address : Address) (l : log) : res FundsManagerError f64 :=
  if negb (lg_address l =? usdc) then Ok f0
  else match lg_transfer l with
  | None => Ok f0
  | Some t =>
      if (tf_to t =? darkpool_address) || (tf_from t =? darkpool_address)
      then v ← map_err ParseError (u256_try_into_u128 (tf_value t)); Ok (convert_to_decimal usdc v)
      else Ok f0
  end.
Fixpoint log_volumes (darkpool_address : Address) (ls : list log) : res FundsManagerError (list f64) :=
  match ls with
  | [] => Ok []
  | l :: ls => v ← log_volume darkpool_address l; vs ← log_volumes darkpool_address ls; Ok (v :: vs)
  end.
(** The sum of no amounts is zero (the sign of that zero varies with the standard
    library). *)
Definition get_self_trade_volume (r : MetricsRecorder) (tx_hash : Z) : res FundsManagerError f64 :=
  receipt ← map_err OnChain (mr_receipt r tx_hash);
  logs ← ok_or receipt (OnChain ("No receipt found for tx " +:+ hash_text tx_hash));
  darkpool_address ← get_darkpool_address (mr_chain r);
  amounts ← log_volumes darkpool_address logs;
  Ok (foldl fadd f0 amounts).

(** The quotes of a client are for its chain, which is that of the recorder. *)
Definition build_swap_cost_data (r : MetricsRecorder) (o : DecayingSwapOutcome) : res FundsManagerError SwapExecutionData :=
  let quote := out_quote o in
  let base_mint := base_token usdc quote in
  reference_price ← recorder_price r base_mint (mr_chain r);
  execution_price ← get_price usdc convert_to_decimal quote (Some (out_buy_amount_actual o));
  gas_cost_usd ← get_wei_cost_usdc r (cumulative_gas_cost o);
  notional_volume_usdc ← notional_volume_usdc usdc convert_to_decimal quote (out_buy_amount_actual o);
  let trade_side_factor := if is_sell usdc quote then of_Z (-1) else f1 in
  let relative_spread :=
    fdiv (fmul trade_side_factor (fsub execution_price reference_price)) reference_price in
  let execution_cost_usdc := fmul notional_volume_usdc relative_spread in
  estimated ← buy_amount_decimal quote;
  buy_amount_actual ← map_err ParseError (u256_try_into_u128 (out_buy_amount_actual o));
  let actual := convert_to_decimal (buy_token quote) buy_amount_actual in
  sell_amount ← sell_amount_decimal convert_to_decimal quote;
  let received_delta := fsub estimated actual in
  self_trade_volume_usdc ← get_self_trade_volume r (out_tx_hash o);
  Ok {| sd_buy_token_address := addr_text (buy_token quote);
        sd_sell_token_address := addr_text (sell_token quote);
        sd_sell_amount := f64_text sell_amount;
        sd_buy_amount_estimated := f64_text estimated;
        sd_is_buy := negb (is_sell usdc quote);
        sd_reference_price := reference_price;
        sd_transaction_hash := hash_text (out_tx_hash o);
        sd_buy_amount_actual := f64_text actual;
        sd_execution_price := execution_price;
        sd_notional_volume_usdc := notional_volume_usdc;
        sd_relative_spread := relative_spread;
        sd_execution_cost_usdc := execution_cost_usdc;
        sd_gas_cost_usd := gas_cost_usd;
        sd_self_trade_volume_usdc := self_trade_volume_usdc;
        sd_venue := venue_text (quote_venue quote);
        sd_received_delta := received_delta |}.

Definition get_labels (r : MetricsRecorder) (q : ExecutionQuote) (source : string) : list (string * string) :=
  let base := base_token usdc q in
  let asset := default (addr_text base) (ticker base) in
  let side_label := if is_sell usdc q then "sell"%string else "buy"%string in
  [ (ASSET_TAG, asset); (TRADE_SIDE_FACTOR_TAG, side_label);
    (CHAIN_TAG, to_env_agnostic_name chain_text (mr_chain r)); (VENUE_TAG, venue_text (quote_venue q));
    (SOURCE_TAG, source) ].
Definition cost_gauges (r : MetricsRecorder) (q : ExecutionQuote) (d : SwapExecutionData) (source : string) : list event :=
  let labels := get_labels r q source in
  [ GaugeSet (execution_cost_metric_name (sd_relative_spread d)) labels (sd_execution_cost_usdc d);
    GaugeSet SWAP_GAS_COST_METRIC_NAME labels (sd_gas_cost_usd d);
    GaugeSet SWAP_NOTIONAL_VOLUME_METRIC_NAME labels (sd_notional_volume_usdc d);
    GaugeSet SWAP_RELATIVE_SPREAD_METRIC_NAME labels (sd_relative_spread d);
    GaugeSet SELF_TRADE_VOLUME_USDC_METRIC_NAME labels (sd_self_trade_volume_usdc d) ].
Definition record_metrics_from_cost_data (r : MetricsRecorder) (q : ExecutionQuote) (d : SwapExecutionData)
    (source : string) : eff (list event) FundsManagerError unit :=
  modify (fun evs => evs ++ cost_gauges r q d source).
Definition record_swap_cost (r : MetricsRecorder) (o : DecayingSwapOutcome) (source : string)
    : eff (list event) FundsManagerError SwapExecutionData :=
  cost_data ← lift (build_swap_cost_data r o);
  _ ← record_metrics_from_cost_data r (out_quote o) cost_data source;
  mret cost_data.

(** ** handlers/swap.rs *)
Definition DEFAULT_SOURCE : string := "unknown".
Definition SWAP_DEADLINE : Z := 280.

(** The clients of a chain: the top-up of the quoter wallet, the market of a swap,
    the recorder. *)
Record chain_clients := mk_clients {
  cc_top_up : res FundsManagerError unit;
  cc_market : nat -> market;
  cc_recorder : MetricsRecorder;
}.
Context (is_stablecoin : Address -> bool) (darkpool : list Z) (max_price_deviations : Address -> option f64)
  (clients : Chain -> option chain_clients).

Definition internal_rejection (msg : string) : rejection := ApiRejection (InternalError msg).
Definition internal {A} (m : res FundsManagerError A) : res rejection A :=
  map_err (fun e => internal_rejection (funds_error_to_string e)) m.
Definition api_quote (chain : Chain) (q : ExecutionQuote) : ApiExecutionQuote :=
  mk_api_quote (addr_text (sell_token q)) (addr_text (buy_token q)) (sell_amount q) (buy_amount q)
    (venue_text (quote_venue q)) (to_chain_id chain).

(** The cost of an outcome, zero when it cannot be computed. *)
Definition execution_cost (r : MetricsRecorder) (o : DecayingSwapOutcome) (source : string)
    : eff (list event) rejection f64 := fun evs =>
  match record_swap_cost r o source evs with
  | (Ok data, evs) => (Ok (sd_execution_cost_usdc data), evs)
  | (Err _, evs) => (Ok f0, evs)
  | (Panic, evs) => (Panic, evs)
  end.
Definition swap_response (chain : Chain) (r : MetricsRecorder) (o : DecayingSwapOutcome) (source : string)
    : eff (list event) rejection SwapImmediateResponse :=
  cost ← execution_cost r o source;
  mret (mk_swap_response (api_quote chain (out_quote o)) (hash_text (out_tx_hash o)) cost).

(** The swap with the fuel that suffices ([swap_terminates]); its attempts are
    recorded. *)
Definition run_swap (cc : chain_clients) (params : QuoteParams)
    : eff (list event) rejection (option DecayingSwapOutcome) := fun evs =>
  match swap_immediate_decaying usdc convert_to_decimal is_stablecoin darkpool max_price_deviations
          SWAP_FUEL (cc_market cc) params with
  | Some (r, tr) =>
      (map_err (fun e => internal_rejection (execution_error_to_string e)) r, evs ++ map Attempted tr)
  | None => (Panic, evs)
  end.

(** [swap_immediate_handler] and the first lines of [swap_into_target_token_handler]. *)
Definition get_clients (chain : Chain) : res rejection chain_clients :=
  cc ← internal (get_client chain_text clients "execution client" chain);
  _ ← internal (get_client chain_text clients "custody client" chain);
  _ ← internal (get_client chain_text clients "metrics recorder" chain);
  Ok cc.
Definition swap_immediate_handler (chain : Chain) (params : QuoteParams)
    : eff (list event) rejection SwapImmediateResponse :=
  cc ← lift (get_clients chain);
  let source := default DEFAULT_SOURCE (params_source params) in
  _ ← lift (internal (cc_top_up cc));
  maybe ← run_swap cc params;
  outcome ← lift (ok_or maybe (internal_rejection (execution_error_to_string (Swap.Custom "No swap executed"))));
  swap_response chain (cc_recorder cc) outcome source.

(** A run of [try_swap_into_target_token]: when it ends, with what, and the swaps it
    executes with the time at which each is done.  A run that is still going at the
    deadline is dropped. *)
Record target_run := mk_run {
  tr_elapsed : Z;
  tr_result : res ExecutionClientError (list (QuoteParams * DecayingSwapOutcome));
  tr_attempts : list (Z * attempt);
}.
Fixpoint swap_responses (chain : Chain) (r : MetricsRecorder) (source : string) (os : list DecayingSwapOutcome)
    : eff (list event) rejection (list SwapImmediateResponse) :=
  match os with
  | [] => mret []
  | o :: os =>
      resp ← swap_response chain r o source;
      rest ← swap_responses chain r source os;
      mret (resp :: rest)
  end.
Definition with_deadline (run : target_run)
    : eff (list event) rejection (list DecayingSwapOutcome) := fun evs =>
  if tr_elapsed run <? SWAP_DEADLINE
  then (map_err (fun e => internal_rejection (execution_error_to_string e))
          (os ← tr_result run; Ok (map snd os)),
        evs ++ map (fun a => Attempted a.2) (tr_attempts run))
  else (Err (internal_rejection "swap into target token exceeded 280s deadline"),
        evs ++ map (fun a => Attempted a.2) (filter (fun a => (a.1 <? SWAP_DEADLINE) = true) (tr_attempts run))).
Definition swap_into_target_token_handler (chain : Chain) (params : QuoteParams) (run : target_run)
    : eff (list event) rejection (list SwapImmediateResponse) :=
  cc ← lift (get_clients chain);
  let source := default DEFAULT_SOURCE (params_source params) in
  _ ← lift (internal (cc_top_up cc));
  outcomes ← with_deadline run;
  swap_responses chain (cc_recorder cc) source outcomes.

(** ** What the cost series hold *)

Lemma fleb_finite x t : is_finite t = true -> fleb (fabs x) t = true -> is_finite x = true.
Proof. destruct x as [[]|[]| |[] m e], t as [[]|[]| |[] m' e']; done. Qed.

Lemma threshold_finite : is_finite OUTLIER_RELATIVE_SPREAD_THRESHOLD = true.
Proof. reflexivity. Qed.
#[local] Opaque OUTLIER_RELATIVE_SPREAD_THRESHOLD.

(** The nominal series is chosen exactly for spreads at most the threshold in
    magnitude, which no NaN and no infinity is. *)
Lemma metric_name_spec spread :
  execution_cost_metric_name spread = SWAP_EXECUTION_COST_METRIC_NAME <->
  fleb (fabs spread) OUTLIER_RELATIVE_SPREAD_THRESHOLD = true.
Proof.
  unfold execution_cost_metric_name. change fgtb with (fun x y => fltb y x). cbv beta.
  destruct (is_finite (fabs spread)) eqn:Hf; cbn [negb orb].
  - destruct (fltb OUTLIER_RELATIVE_SPREAD_THRESHOLD (fabs spread)) eqn:Hlt; split; try done.
    + intros Hle%fleb_fltb_false. congruence.
    + intros _. apply fltb_false_fleb; [by apply finite_non_nan, threshold_finite|by apply finite_non_nan|done].
  - split; [done|]. intros Hle%(fleb_finite _ _ threshold_finite). by destruct spread.
Qed.

(** A spread computed within the threshold has a finite execution price and a finite
    reference price that is not zero. *)
Lemma spread_inputs_finite factor e r :
  factor = of_Z (-1) \/ factor = f1 ->
  is_finite (fdiv (fmul factor (fsub e r)) r) = true ->
  is_finite e = true /\ is_finite r = true /\ feqb r f0 = false.
Proof.
  assert (forall x s, is_finite (fdiv x (S754_zero s)) = false) as Hzero by by intros [[]|[]| |[]] [].
  destruct r as [s|s| |s mr er]; [by rewrite Hzero|..]; intros [-> | ->];
    destruct e as [[]|[]| |[] me ee]; try destruct s; done.
Qed.

(** The steps of [build_swap_cost_data] that a recorded cost shows. *)
Lemma cost_data_spec r o d :
  build_swap_cost_data r o = Ok d ->
  recorder_price r (base_token usdc (out_quote o)) (mr_chain r) = Ok (sd_reference_price d) /\
  get_price (E := FundsManagerError) usdc convert_to_decimal (out_quote o) (Some (out_buy_amount_actual o)) =
    Ok (sd_execution_price d) /\
  get_wei_cost_usdc r (cumulative_gas_cost o) = Ok (sd_gas_cost_usd d) /\
  get_self_trade_volume r (out_tx_hash o) = Ok (sd_self_trade_volume_usdc d) /\
  sd_relative_spread d =
    fdiv (fmul (if is_sell usdc (out_quote o) then of_Z (-1) else f1)
            (fsub (sd_execution_price d) (sd_reference_price d))) (sd_reference_price d) /\
  sd_execution_cost_usdc d = fmul (sd_notional_volume_usdc d) (sd_relative_spread d).
Proof. unfold build_swap_cost_data. intros Hd. inv_ok. subst d. cbn. auto 10. Qed.

(** What a fill of [bought] units is, in dollars, and its spread over the reference
    price, relative to it; the sign is turned for sales. *)
Definition fill_volume (q : ExecutionQuote) (bought : Z) : f64 :=
  if decide (buy_token q = usdc) then convert_to_decimal (buy_token q) bought
  else convert_to_decimal (sell_token q) (sell_amount q).
Definition fill_spread (q : ExecutionQuote) (bought : Z) (ref : f64) : f64 :=
  fdiv (fmul (if decide (buy_token q = usdc) then of_Z (-1) else f1)
          (fsub (dollar_price usdc convert_to_decimal q bought) ref)) ref.
Definition other_token (q : ExecutionQuote) : Address :=
  if decide (buy_token q = usdc) then sell_token q else buy_token q.

(** The five gauges of a fill, spelled out. *)
Definition fill_gauges (r : MetricsRecorder) (q : ExecutionQuote) (bought : Z) (ref gas self : f64)
    (source : string) : list event :=
  let spread := fill_spread q bought ref in
  let labels :=
    [("asset"%string, default (addr_text (other_token q)) (ticker (other_token q)));
     ("side"%string, if decide (buy_token q = usdc) then "sell"%string else "buy"%string);
     ("chain"%string, to_env_agnostic_name chain_text (mr_chain r));
     ("venue"%string, venue_text (quote_venue q)); ("source"%string, source)] in
  [ GaugeSet (if fleb (fabs spread) (lit 5 100) then "swap_execution_cost" else "swap_execution_cost_artifact")
      labels (fmul (fill_volume q bought) spread);
    GaugeSet "swap_gas_cost" labels gas;
    GaugeSet "swap_notional_volume" labels (fill_volume q bought);
    GaugeSet "swap_relative_spread" labels spread;
    GaugeSet "self_trade_volume" labels self ].

Lemma is_sell_decide q : is_sell usdc q = if decide (buy_token q = usdc) then true else false.
Proof. unfold is_sell. destruct (decide _); [by apply Z.eqb_eq|by apply Z.eqb_neq]. Qed.

Lemma notional_volume_spec {E} q bought v :
  notional_volume_usdc (E := E) usdc convert_to_decimal q bought = Ok v -> v = fill_volume q bought.
Proof.
  unfold notional_volume_usdc, sell_amount_decimal, expect_u128, fill_volume. rewrite is_sell_decide.
  destruct (decide _); intros H; apply bind_Ok_inv in H as (a & Ha & [= <-]);
    (destruct (try_into_u _ _) eqn:Et; [injection Ha as ->|done]); by apply try_into_u_Some in Et as [-> _].
Qed.

Lemma gas_cost_spec r wei gas :
  get_wei_cost_usdc r wei = Ok gas ->
  exists eth, mr_price r weth ArbitrumOne = Ok eth /\ gas = fmul (convert_to_decimal weth wei) eth.
Proof.
  unfold get_wei_cost_usdc, recorder_price, u256_try_into_u128. intros H.
  apply bind_Ok_inv in H as (eth & He%map_err_Ok & H). apply bind_Ok_inv in H as (w & Hw%map_err_Ok & [= <-]).
  destruct (try_into_u 128 wei) eqn:Et; [injection Hw as ->|done].
  apply try_into_u_Some in Et as [-> _]. eauto.
Qed.

(** The data of an outcome, and its gauges. *)
Lemma cost_data_gauges r o d source :
  build_swap_cost_data r o = Ok d ->
  exists ref eth self,
    let q := out_quote o in let bought := out_buy_amount_actual o in
    mr_price r (other_token q) (mr_chain r) = Ok ref /\ mr_price r weth ArbitrumOne = Ok eth /\
    get_self_trade_volume r (out_tx_hash o) = Ok self /\
    sd_execution_cost_usdc d = fmul (fill_volume q bought) (fill_spread q bought ref) /\
    cost_gauges r q d source =
      fill_gauges r q bought ref (fmul (convert_to_decimal weth (cumulative_gas_cost o)) eth) self source.
Proof.
  intros Hd. destruct (cost_data_spec r o d Hd) as (Hr & Hp & Hg & Hself & Hs & Hc).
  assert (Hv : notional_volume_usdc (E := FundsManagerError) usdc convert_to_decimal (out_quote o)
                 (out_buy_amount_actual o) = Ok (sd_notional_volume_usdc d)).
  { unfold build_swap_cost_data in Hd. inv_ok. by subst d. }
  apply notional_volume_spec in Hv. apply price_is_dollar in Hp. cbn [default] in Hp.
  apply gas_cost_spec in Hg as (eth & He & Hg). apply map_err_Ok in Hr.
  assert (Hsp : sd_relative_spread d =
    fill_spread (out_quote o) (out_buy_amount_actual o) (sd_reference_price d)).
  { rewrite Hs, Hp, is_sell_decide. unfold fill_spread. by destruct (decide _). }
  unfold base_token in Hr. rewrite is_sell_decide in Hr.
  exists (sd_reference_price d), eth, (sd_self_trade_volume_usdc d). cbn zeta.
  split_and!; try done.
  - unfold other_token. by destruct (decide _).
  - by rewrite Hc, Hv, Hsp.
  - unfold cost_gauges, fill_gauges, get_labels, base_token, other_token. rewrite !is_sell_decide.
    rewrite Hc, Hv, Hsp, Hg. unfold execution_cost_metric_name.
    set (spread := fill_spread _ _ _).
    assert (Hn : (if negb (is_finite (fabs spread)) || fgtb (fabs spread) OUTLIER_RELATIVE_SPREAD_THRESHOLD
                  then SWAP_EXECUTION_COST_ARTIFACT_METRIC_NAME else SWAP_EXECUTION_COST_METRIC_NAME) =
                 (if fleb (fabs spread) (lit 5 100) then "swap_execution_cost" else "swap_execution_cost_artifact")%string).
    { pose proof (metric_name_spec spread) as Hm. unfold execution_cost_metric_name in Hm.
      change (lit 5 100) with OUTLIER_RELATIVE_SPREAD_THRESHOLD.
      revert Hm. destruct (fleb _ _), (negb _ || _); intros [Hm1 Hm2]; try done;
        [by specialize (Hm2 eq_refl)|by specialize (Hm1 eq_refl)]. }
    rewrite Hn. by destruct (decide _).
Qed.

(** C37. What [record_swap_cost] does for any outcome and any answers of its clients:
    it sets nothing when the data cannot be built; otherwise it sets exactly five
    gauges, once each, with the labels of the swap: the execution cost, which is the
    volume in dollars times the spread, the gas, the volume, the spread and the self
    trades.  The cost goes to the nominal series when the spread is at most 5% in
    magnitude, and then the prices it compares are finite and the reference price is
    not zero; otherwise, NaN and infinities included, it goes to the artifact series
    and to no other. *)
Theorem nominal_costs_clean r o source evs :
  match record_swap_cost r o source evs with
  | (Ok d, evs') => exists ref eth self,
      let q := out_quote o in let bought := out_buy_amount_actual o in
      mr_price r (other_token q) (mr_chain r) = Ok ref /\ mr_price r weth ArbitrumOne = Ok eth /\
      get_self_trade_volume r (out_tx_hash o) = Ok self /\
      sd_execution_cost_usdc d = fmul (fill_volume q bought) (fill_spread q bought ref) /\
      evs' = evs ++ fill_gauges r q bought ref (fmul (convert_to_decimal weth (cumulative_gas_cost o)) eth)
                      self source /\
      (fleb (fabs (fill_spread q bought ref)) (lit 5 100) = true ->
       is_finite (dollar_price usdc convert_to_decimal q bought) = true /\ is_finite ref = true /\
       feqb ref f0 = false)
  | (Err e, evs') => evs' = evs /\ build_swap_cost_data r o = Err e
  | (Panic, evs') => evs' = evs
  end.
Proof.
  unfold record_swap_cost, mbind, eff_bind, lift.
  destruct (build_swap_cost_data r o) as [d|e|] eqn:Hd; [|done..]. cbn.
  destruct (cost_data_gauges r o d source Hd) as (ref & eth & self & H1 & H2 & H3 & H4 & H5).
  exists ref, eth, self. rewrite <- H5. split_and!; try done.
  intros Hn%(fleb_finite _ _ threshold_finite). apply spread_inputs_finite in Hn; [done|].
  destruct (decide _); auto.
Qed.

(** ** The swap endpoint *)
Lemma get_clients_Ok chain cc : get_clients chain = Ok cc -> clients chain = Some cc.
Proof.
  unfold get_clients, internal, get_client. destruct (clients chain); cbn; [congruence|done].
Qed.
Lemma get_clients_cases chain :
  (exists cc, get_clients chain = Ok cc) \/ exists msg, get_clients chain = Err (internal_rejection msg).
Proof. unfold get_clients, internal, get_client. destruct (clients chain); cbn; eauto. Qed.

Lemma swap_response_spec chain r o source evs :
  match swap_response chain r o source evs with
  | (Ok resp, evs') =>
      sr_quote resp = api_quote chain (out_quote o) /\ sr_tx_hash resp = hash_text (out_tx_hash o) /\
      match build_swap_cost_data r o with
      | Ok d => sr_execution_cost resp = sd_execution_cost_usdc d /\
                evs' = evs ++ cost_gauges r (out_quote o) d source
      | Err _ => sr_execution_cost resp = f0 /\ evs' = evs
      | Panic => False
      end
  | (Err _, _) => False
  | (Panic, evs') => evs' = evs /\ build_swap_cost_data r o = Panic
  end.
Proof.
  unfold swap_response, execution_cost, record_swap_cost, mbind, eff_bind, lift.
  by destruct (build_swap_cost_data r o) as [d|e|].
Qed.

(** No execution was reported as filled; the last one may have ended in the error. *)
Definition not_filled (msg : string) (tr : list attempt) : Prop :=
  Forall failed tr \/
  exists tr0 q e, tr = tr0 ++ [(q, Err e)] /\ Forall failed tr0 /\ msg = execution_error_to_string e.

Lemma endpoint_swap_spec cc params evs :
  exists tr, (run_swap cc params evs).2 = evs ++ map Attempted tr /\
  match (run_swap cc params evs).1 with
  | Ok (Some o) => exists tr0 q x h, tr = tr0 ++ [(q, Ok x)] /\ Forall failed tr0 /\ tx_hash x = Some h /\
      o = mk_outcome (quote q) (buy_amount_actual x) h (gas_total tr mod 2 ^ 256)
  | Ok None => Forall failed tr
  | Err e => exists msg, e = internal_rejection msg /\ not_filled msg tr
  | Panic => True
  end.
Proof.
  unfold run_swap. destruct (swap_immediate_decaying _ _ _ _ _ _ _ _) as [[r tr]|] eqn:Hrun.
  2: { exists []. cbn. by rewrite app_nil_r. }
  exists tr. split; [done|]. apply loop_trace in Hrun; [|cbn; unfold in_u; lia].
  destruct r as [[o|]|e|]; cbn in *; [|done| |done].
  - destruct Hrun as (tr0 & q & x & -> & Hf & Ht & Hq & Hb & Hg).
    exists tr0, q, x, (out_tx_hash o). split_and!; try done. destruct o. cbn in *. by subst.
  - eexists. split; [done|]. destruct Hrun as [?|(tr0 & q & -> & ?)]; [by left|right].
    exists tr0, q, e. done.
Qed.

(** C19. The swap endpoint, from the request to the reply, for any market and any
    answers of its clients: no quote is sent to a venue unless the wallet of the quoter
    was topped up first.  A reply reports the one execution that was filled, the last
    of those sent: its quote, its hash, and as its cost the dollars it moved times its
    spread over the reference price, with the amount that was really bought; or zero
    when the cost cannot be computed, which fails nothing.  The gauges set are those
    of this fill, with the gas of all executions.  An error is a 500 with its text;
    then no execution was reported as filled, and the last one may be the one whose
    venue answered that error, without saying whether it was carried out. *)
Theorem swap_endpoint_spec chain params evs :
  exists tr gauges,
  (swap_immediate_handler chain params evs).2 = evs ++ map Attempted tr ++ gauges /\
  (tr <> [] -> exists cc, clients chain = Some cc /\ cc_top_up cc = Ok tt) /\
  match (swap_immediate_handler chain params evs).1 with
  | Ok resp => exists cc tr0 q x h,
      clients chain = Some cc /\ tr = tr0 ++ [(q, Ok x)] /\ Forall failed tr0 /\ tx_hash x = Some h /\
      sr_quote resp = mk_api_quote (addr_text (sell_token (quote q))) (addr_text (buy_token (quote q)))
        (sell_amount (quote q)) (buy_amount (quote q)) (venue_text (quote_venue (quote q))) (to_chain_id chain) /\
      sr_tx_hash resp = hash_text h /\
      let r := cc_recorder cc in
      let gas := gas_total tr mod 2 ^ 256 in
      match build_swap_cost_data r (mk_outcome (quote q) (buy_amount_actual x) h gas) with
      | Ok _ => exists ref eth self,
          mr_price r (other_token (quote q)) (mr_chain r) = Ok ref /\ mr_price r weth ArbitrumOne = Ok eth /\
          get_self_trade_volume r h = Ok self /\
          sr_execution_cost resp =
            fmul (fill_volume (quote q) (buy_amount_actual x)) (fill_spread (quote q) (buy_amount_actual x) ref) /\
          gauges = fill_gauges r (quote q) (buy_amount_actual x) ref (fmul (convert_to_decimal weth gas) eth)
                     self (default "unknown"%string (params_source params))
      | Err _ => sr_execution_cost resp = f0 /\ gauges = []
      | Panic => False
      end
  | Err e => gauges = [] /\ exists msg, e = internal_rejection msg /\ handle_rejection e = Some (500, msg) /\
      not_filled msg tr
  | Panic => gauges = []
  end.
Proof.
  unfold swap_immediate_handler, mbind, eff_bind, lift.
  destruct (get_clients_cases chain) as [[cc Hcc]|[msg Hcc]]; rewrite Hcc.
  2: { exists [], []. rewrite app_nil_r. split; [done|]. split; [done|]. cbn. split; [done|]. exists msg.
       split_and!; [done..|by left]. }
  apply get_clients_Ok in Hcc. destruct (cc_top_up cc) as [[]|e|] eqn:Htop; cbn [internal map_err].
  2: { exists [], []. rewrite app_nil_r. split; [done|]. split; [done|]. cbn. split; [done|].
       eexists. split_and!; [done..|by left]. }
  2: { exists [], []. by rewrite app_nil_r. }
  destruct (endpoint_swap_spec cc params evs) as (tr & Hevs & Hr).
  destruct (run_swap cc params evs) as [[[o|]|e|] evs1]; cbn in Hevs, Hr; subst evs1.
  - destruct Hr as (tr0 & q & x & h & Htr & Hf & Ht & ->). cbn [ok_or].
    set (o := mk_outcome _ _ _ _). set (source := default DEFAULT_SOURCE (params_source params)).
    generalize (swap_response_spec chain (cc_recorder cc) o source (evs ++ map Attempted tr)).
    destruct (swap_response _ _ _ _ _) as [[resp|e|] evs2]; [| done |].
    + intros (Hq & Hh & Hc).
      assert (exists gauges, evs2 = (evs ++ map Attempted tr) ++ gauges /\
        match build_swap_cost_data (cc_recorder cc) o with
        | Ok d => sr_execution_cost resp = sd_execution_cost_usdc d /\
                  gauges = cost_gauges (cc_recorder cc) (quote q) d source
        | Err _ => sr_execution_cost resp = f0 /\ gauges = []
        | Panic => False
        end) as (gauges & -> & Hg).
      { destruct (build_swap_cost_data _ o); [destruct Hc as [? ->]; eauto|destruct Hc as [? ->]|done].
        exists []. by rewrite app_nil_r. }
      exists tr, gauges. rewrite app_assoc. split; [done|]. split; [eauto|]. cbn.
      exists cc, tr0, q, x, h. split_and!; try done. fold o.
      destruct (build_swap_cost_data (cc_recorder cc) o) as [d| |] eqn:Hd; [|done..].
      destruct (cost_data_gauges _ _ _ source Hd) as (ref & eth & self & H1 & H2 & H3 & H4 & H5).
      destruct Hg as [-> ->]. exists ref, eth, self. by split_and!.
    + intros [-> _]. exists tr, []. cbn. rewrite app_nil_r. eauto.
  - exists tr, []. cbn. rewrite app_nil_r. split; [done|]. split; [eauto|]. split; [done|].
    eexists. split_and!; [done..|by left].
  - exists tr, []. cbn. rewrite app_nil_r. destruct Hr as (msg & -> & Hn). split; [done|]. split; [eauto|].
    split; [done|]. by exists msg.
  - exists tr, []. cbn. rewrite app_nil_r. eauto.
Qed.

(** A run that is still going at the deadline is answered with 500; what it has
    executed until then stays executed and is neither reported nor recorded. *)
Theorem deadline_drops_run chain params run evs cc :
  clients chain = Some cc -> cc_top_up cc = Ok tt -> SWAP_DEADLINE <= tr_elapsed run ->
  swap_into_target_token_handler chain params run evs =
    (Err (internal_rejection "swap into target token exceeded 280s deadline"),
     evs ++ map (fun a => Attempted a.2) (filter (fun a => (a.1 <? SWAP_DEADLINE) = true) (tr_attempts run))).
Proof.
  intros Hcc Htop Hle. unfold swap_into_target_token_handler, mbind, eff_bind, lift, get_clients, get_client, internal.
  rewrite Hcc. cbn. rewrite Htop. cbn. unfold with_deadline.
  assert ((tr_elapsed run <? SWAP_DEADLINE) = false) as -> by (by apply Z.ltb_ge). done.
Qed.

(** A fill of more than a u128 panics in the price of the execution, before the check
    that would report it as an error: the swap is executed and the client gets no reply. *)
Theorem oversized_fill_panics r o p :
  recorder_price r (base_token usdc (out_quote o)) (mr_chain r) = Ok p ->
  2 ^ 128 <= out_buy_amount_actual o -> build_swap_cost_data r o = Panic.
Proof.
  intros Hp Hbig. unfold build_swap_cost_data, mbind, res_bind at 1. rewrite Hp.
  assert (get_price (E := FundsManagerError) usdc convert_to_decimal (out_quote o) (Some (out_buy_amount_actual o)) = Panic) as ->;
    [|done].
  assert (try_into_u 128 (out_buy_amount_actual o) = None) as Hnone.
  { unfold try_into_u. destruct (Z.ltb_spec (out_buy_amount_actual o) (2 ^ 128)); [lia|done]. }
  unfold get_price, expect_u128. cbn [default from_option id]. by rewrite Hnone.
Qed.
End Costs.

(** ** The swap of [SwapWitness] through the endpoint: token 9 is sold at its
    reference price of two dollars; wrapped ether is token 5 *)
Module SwapCostsWitness.
Import SwapWitness.
Definition text (n : Z) : string := if n =? 77 then "0x4d" else "0x1".
Definition recorder (receipt : res string (option (list log))) : MetricsRecorder :=
  mk_recorder BaseMainnet (fun t _ => Ok (if t =? 9 then of_Z 2 else f1)) (fun _ => receipt).
Definition toy_clients (receipt : res string (option (list log))) (top_up : res FundsManagerError unit) (c : Chain)
    : option chain_clients :=
  match c with BaseMainnet => Some (mk_clients top_up market_at (recorder receipt)) | _ => None end.
Definition post_swap (receipt : res string (option (list log))) (top_up : res FundsManagerError unit) :=
  swap_immediate_handler 6 5 TargetRun.decimal (fun _ => None) text text (fun _ => "1"%string)
    (fun _ => "Bebop"%string) (fun _ => "base-mainnet"%string) (fun _ => 40) stable pools tolerance
    (toy_clients receipt top_up) BaseMainnet order [].

(** 100 units filled for 200 dollars: spread and cost are zero, and one transfer of a
    dollar through the darkpool is seen. *)
Example swap_reported :
  (post_swap (Ok (Some [mk_log 6 (Some (mk_transfer 40 41 1000000))])) (Ok tt)).1 =
    Ok (mk_swap_response (mk_api_quote "0x1" "0x1" 100000000 200000000 "Bebop" 8453) "0x4d" (S754_zero true)) /\
  length (post_swap (Ok (Some [])) (Ok tt)).2 = 7%nat.
Proof. vm_compute. auto. Qed.
(** Without a receipt the cost is reported as zero and nothing is recorded. *)
Example cost_unknown :
  (post_swap (Ok None) (Ok tt)).1 =
    Ok (mk_swap_response (mk_api_quote "0x1" "0x1" 100000000 200000000 "Bebop" 8453) "0x4d" f0) /\
  length (post_swap (Ok None) (Ok tt)).2 = 2%nat.
Proof. vm_compute. auto. Qed.
Example no_gas_no_swap :
  post_swap (Ok None) (Err (FireblocksError "balance")) =
    (Err (internal_rejection "Fireblocks error: balance"), []).
Proof. reflexivity. Qed.

(** A run whose first swap fills after 100 seconds and which is cut off at the
    deadline: the swap is done, and the client is told that the request failed. *)
Definition slow_run : target_run := mk_run 300 (Ok []) [(100, (bebop, Ok (mk_result 200000000 7 (Some 77))))].
Lemma deadline_drops_run_witness :
  swap_into_target_token_handler 6 5 TargetRun.decimal (fun _ => None) text text (fun _ => "1"%string)
    (fun _ => "Bebop"%string) (fun _ => "base-mainnet"%string) (fun _ => 40)
    (toy_clients (Ok None) (Ok tt)) BaseMainnet order slow_run [] =
  (Err (internal_rejection "swap into target token exceeded 280s deadline"),
   [Attempted (bebop, Ok (mk_result 200000000 7 (Some 77)))]).
Proof. by eapply deadline_drops_run. Defined.
Lemma oversized_fill_panics_witness :
  build_swap_cost_data 6 5 TargetRun.decimal text text (fun _ => "1"%string) (fun _ => "Bebop"%string) (fun _ => 40)
    (recorder (Ok None)) (mk_outcome (quote bebop) (2 ^ 128) 77 12) = Panic.
Proof. apply (oversized_fill_panics _ _ _ _ _ _ _ _ _ _ (of_Z 2)); [reflexivity|apply Z.le_refl]. Defined.
Lemma swap_endpoint_spec_witness :
  exists tr gauges, (post_swap (Ok None) (Ok tt)).2 = map Attempted tr ++ gauges /\ length tr = 2%nat /\ gauges = [].
Proof.
  destruct (swap_endpoint_spec 6 5 TargetRun.decimal (fun _ => None) text text (fun _ => "1"%string)
    (fun _ => "Bebop"%string) (fun _ => "base-mainnet"%string) (fun _ => 40) stable pools tolerance
    (toy_clients (Ok None) (Ok tt)) BaseMainnet order []) as (tr & gauges & Hevs & _ & Hr).
  exists result.2, []. clear. split_and!; vm_compute; reflexivity.
Defined.
End SwapCostsWitness.
