(* ===== verification/Telemetry.v ===== *)
(** * Metrics and logs of external matches (auth-server: telemetry/, api_handlers/)

    The tasks that a quote and an assembly spawn, whole: what they write for the
    components of [ExternalMatch] (sponsorship entries, bundles) and, beside it,
    the gauges, counters and log lines that describe the reply.  The state
    [tel_state] is that of [ExternalMatch] with the metrics and the log.  The
    token map, the metric names of the crate that exports them, the arithmetic
    of settlement obligations and the random draw of the sampler are
    parameters ([TelemetryLib]). *)
From Stdlib Require Import ZArith Lia Ascii String.
From stdpp Require Import gmap strings list.
From S2P Require Import Prelude F64 AuthError RateLimiter GasSponsorship ServerCache.
From S2P Require Import Settlement ExternalMatch.
Local Open Scope Z_scope.

Create HintDb tel discriminated.

(** ** Labels (telemetry/labels.rs, telemetry/mod.rs) *)
Definition EXTERNAL_MATCH_FILL_RATIO : string := "external_match.fill_ratio".
Definition EXTERNAL_MATCH_QUOTE_REQUEST_COUNT : string := "num_external_match_quote_requests".
Definition NUM_EXTERNAL_MATCH_REQUESTS : string := "num_external_match_requests".
Definition EXTERNAL_ORDER_BASE_VOLUME : string := "external_order_base_volume".
Definition EXTERNAL_ORDER_QUOTE_VOLUME : string := "external_order_quote_volume".
Definition EXTERNAL_MATCH_BASE_VOLUME : string := "external_match_base_volume".
Definition EXTERNAL_MATCH_QUOTE_VOLUME : string := "external_match_quote_volume".
Definition UNSUCCESSFUL_RELAYER_REQUEST_COUNT : string := "num_unsuccessful_relayer_requests".
Definition QUOTE_NOT_FOUND_COUNT : string := "num_quotes_not_found".
Definition REQUEST_PATH_METRIC_TAG : string := "request_path".
Definition QUOTE_FILL_RATIO_IGNORE_THRESHOLD : Z := 100000 * 10 ^ 6.
Definition MAX_EXTERNAL_ORDER_QUOTE_VOLUME : f64 := of_Z 10000000.

(** What is exported, in order. *)
Inductive metric :=
  | Gauge (g : gauge)
  | Counter (name : string) (ts : tags).

(** The log lines: the fields of a reply, or the subject of a failure. *)
Record QuoteLog := mk_quote_log {
  ql_is_sponsored : bool;
  ql_key_description : string;
  ql_sdk_version : string;
  ql_is_buy : bool;
  ql_receive : AssetTransfer;
  ql_send : AssetTransfer;
  ql_refund : Z * bool;
}.
Record BundleLog := mk_bundle_log {
  bl_requested : Z * Z;                     (* base and quote amount *)
  bl_response : Z * Z;
  bl_fill_ratio : f64 * f64;
  bl_key_description : string;
  bl_request_id : string;
  bl_is_sponsored : bool;
  bl_endpoint : string;
  bl_sdk_version : string;
  bl_is_buy : bool;
  bl_receive : Z * Z * Address;             (* minimum, maximum, mint *)
  bl_send : Z * Z * Address;
  bl_refund : Z * bool;
}.
Record UpdateLog := mk_update_log {
  ul_key_description : string;
  ul_request_id : string;
  ul_sdk_version : string;
  ul_input : Z * Z;                         (* original and updated *)
  ul_output : Z * Z;
}.
Inductive log_line :=
  | LQuoteSent (l : QuoteLog)
  | LBundleSent (l : BundleLog)
  | LQuoteUpdated (l : UpdateLog)
  | LRelayerNon200 (key path sdk_version : string) (status : Z) (body : string)
  | LFailed (subject : string).

(** The obligation of the external party for an amount in. *)
Record SettlementObligation := mk_obligation {
  ob_input_token : Address; ob_amount_in : Z; ob_amount_out : Z }.

Class TelemetryLib `{FP : FixedPointOps} := {
  token_decimals : Address -> option Z;
  convert_to_decimal : Address -> Z -> f64;
  powi10 : Z -> f64;
  fp_to_f64 : fp -> f64;
  u256_to_u128 : Z -> res AuthServerError Z;
  to_external_obligation : MatchBundle -> Z -> SettlementObligation;
  DEFAULT_EXTERNAL_MATCH_RELAYER_FEE : f64;
  metrics_sampling_rate : f64;
  gen_bool : f64 -> Z -> res AuthServerError bool;      (* by the random draw *)
}.

(** ** server/helpers.rs: the amount in, from calldata *)
Definition be_step (acc : Z) (c : ascii) : Z := acc * 256 + Z.of_N (N_of_ascii c).
Definition from_be_bytes (l : list ascii) : Z := foldl be_step 0 l.

(** The ABI encoding of a number in [k] bytes, for the statements. *)
Fixpoint to_be_bytes (k : nat) (n : Z) : list ascii :=
  match k with
  | O => []
  | S k => to_be_bytes k (n / 256) ++ [ascii_of_N (Z.to_N (n mod 256))]
  end.
Lemma length_to_be_bytes k n : length (to_be_bytes k n) = k.
Proof. revert n. induction k as [|k IH]; intros n; [done|]. cbn. rewrite length_app, IH. cbn. lia. Qed.
Lemma be_bytes_roundtrip k n : 0 <= n < 256 ^ Z.of_nat k -> from_be_bytes (to_be_bytes k n) = n.
Proof.
  revert n. induction k as [|k IH]; intros n Hn; [cbn in *; lia|].
  unfold from_be_bytes in *. cbn. rewrite foldl_app. cbn. rewrite IH.
  - unfold be_step. pose proof (Z.mod_pos_bound n 256 ltac:(lia)).
    rewrite N_ascii_embedding by lia. rewrite Z2N.id by lia. pose proof (Z.div_mod n 256 ltac:(lia)). lia.
  - rewrite Nat2Z.inj_succ, Z.pow_succ_r in Hn by lia.
    split; [apply Z.div_pos; lia|apply Z.div_lt_upper_bound; lia].
Qed.

Section Telemetry.
Context `{FP : FixedPointOps} `{AT : AddressText} `{R : Redis} `{TK : Tokens} {AS : AuthServer}
  {TL : TelemetryLib}.

Definition get_external_party_amount_in (calldata : string) : res AuthServerError Z :=
  let bytes := String.list_ascii_of_string calldata in
  if (length bytes <? 36)%nat then Panic
  else u256_to_u128 (from_be_bytes (take 32 (drop 4 bytes))).

Record tel_state := mk_tel {
  t_auth : auth_state;
  t_metrics : list metric;
  t_log : list log_line;
}.
Abbreviation MT := (eff tel_state AuthServerError).

Definition on_auth {A} (m : eff auth_state AuthServerError A) : MT A := fun s =>
  let '(r, a) := m (t_auth s) in (r, mk_tel a (t_metrics s) (t_log s)).
Definition emit (l : list metric) : MT unit :=
  modify (fun s => mk_tel (t_auth s) (t_metrics s ++ l) (t_log s)).
Definition log_task (l : log_line) : MT unit :=
  modify (fun s => mk_tel (t_auth s) (t_metrics s) (t_log s ++ [l])).
(** An error is logged, a panic ends the task. *)
Definition or_log (subject : string) (m : MT unit) : MT unit := fun s =>
  match m s with
  | (Err _, s) => log_task (LFailed subject) s
  | x => x
  end.

(** ** telemetry/helpers.rs *)
Definition asset (mint : Address) : string := asset_of ticker_of addr_text mint.
Definition volume_gauge (mint : Address) (amount : Z) (name : string) (extra : tags) : metric :=
  Gauge (mk_gauge name ((ASSET_METRIC_TAG, asset mint) :: extra) (convert_to_decimal mint amount)).
Definition endpoint_counter (mint : Address) (name : string) (extra : tags) : metric :=
  Counter name ((ASSET_METRIC_TAG, asset mint) :: extra).
Definition fill_ratio_gauge (requested matched : Z) (ts : tags) : metric :=
  Gauge (mk_gauge EXTERNAL_MATCH_FILL_RATIO ts (fdiv (of_Z matched) (of_Z requested))).
Definition with_base_asset (base_mint : Address) (ts : tags) : tags :=
  extend_labels_with_base_asset ticker_of addr_text base_mint ts.

Definition default_relayer_fee : fp := from_f64_round_down DEFAULT_EXTERNAL_MATCH_RELAYER_FEE.
Definition quote_per_base_price (b : MatchBundle) : res AuthServerError f64 :=
  calculate_quote_per_base_price tok_usdc tok_weth tok_native token_decimals addr_text powi10
    (mk_bounded (b_match_input_mint b) (b_match_output_mint b) (fp_to_f64 (GasSponsorship.b_price_fp b))).
Definition amounts_with_price (o : ExternalOrder) (price : f64) : res AuthServerError (Z * Z) :=
  get_base_and_quote_amount_with_price tok_usdc get_protocol_fee o default_relayer_fee price.

(** The obligation that both default amounts are read from. *)
Definition default_obligation (b : MatchBundle) : res AuthServerError SettlementObligation :=
  amount_in ← get_external_party_amount_in (default ""%string (b_tx_input b));
  Ok (to_external_obligation b amount_in).
Definition get_default_base_amount (b : MatchBundle) : res AuthServerError Z :=
  ob ← default_obligation b;
  Ok (if ob_input_token ob =? tok_usdc then ob_amount_out ob else ob_amount_in ob).
Definition get_default_quote_amount (b : MatchBundle) : res AuthServerError Z :=
  ob ← default_obligation b;
  Ok (if ob_input_token ob =? tok_usdc then ob_amount_in ob else ob_amount_out ob).

Definition record_external_match_request_metrics (o : ExternalOrder) (price : f64) (labels : tags)
    : MT unit :=
  '(base_mint, quote_mint) ← lift (pick_base_and_quote_mints tok_usdc (o_input_mint o) (o_output_mint o));
  let labels := with_base_asset base_mint labels in
  '(base_amount, quote_amount) ← lift (amounts_with_price o price);
  let quote_volume_decimal := convert_to_decimal quote_mint quote_amount in
  let should_record_volume := fleb quote_volume_decimal MAX_EXTERNAL_ORDER_QUOTE_VOLUME in
  _ ← emit (if should_record_volume
            then [volume_gauge base_mint base_amount EXTERNAL_ORDER_BASE_VOLUME labels;
                  volume_gauge quote_mint quote_amount EXTERNAL_ORDER_QUOTE_VOLUME labels]
            else []);
  emit [endpoint_counter base_mint NUM_EXTERNAL_MATCH_REQUESTS labels].

Definition record_external_match_response_metrics (b : MatchBundle) (labels : tags) : MT unit :=
  '(base_mint, quote_mint) ←
     lift (pick_base_and_quote_mints tok_usdc (b_match_input_mint b) (b_match_output_mint b));
  base_amount ← lift (get_default_base_amount b);
  _ ← emit [volume_gauge base_mint base_amount EXTERNAL_MATCH_BASE_VOLUME labels];
  quote_amount ← lift (get_default_quote_amount b);
  let labels := with_base_asset base_mint labels in
  emit [volume_gauge quote_mint quote_amount EXTERNAL_MATCH_QUOTE_VOLUME labels].

Definition record_fill_ratio (requested matched : Z) (labels : tags) : MT unit :=
  emit [fill_ratio_gauge requested matched labels].

Definition record_external_match_metrics (o : ExternalOrder) (b : MatchBundle) (labels : tags)
    : MT unit :=
  price ← lift (quote_per_base_price b);
  _ ← or_log "request-metrics" (record_external_match_request_metrics o price labels);
  '(_, requested_quote_amount) ← lift (amounts_with_price o price);
  matched_quote_amount ← lift (get_default_quote_amount b);
  _ ← or_log "fill-ratio-metric" (record_fill_ratio requested_quote_amount matched_quote_amount labels);
  or_log "response-metrics" (record_external_match_response_metrics b labels).

Definition record_relayer_request_500 (key_description path : string) : MT unit :=
  emit [Counter UNSUCCESSFUL_RELAYER_REQUEST_COUNT
          [(KEY_DESCRIPTION_METRIC_TAG, key_description); (REQUEST_PATH_METRIC_TAG, path)]].
Definition record_quote_not_found (key_description : string) (base_mint : Address) : MT unit :=
  emit [Counter QUOTE_NOT_FOUND_COUNT
          [(KEY_DESCRIPTION_METRIC_TAG, key_description); (BASE_ASSET_METRIC_TAG, asset base_mint)]].

(** ** api_handlers/mod.rs *)
Definition should_sample_metrics (draw : Z) : res AuthServerError bool :=
  gen_bool metrics_sampling_rate draw.

Definition log_unsuccessful_relayer_request (status : Z) (body key_description path : string)
    (headers : HeaderMap) : MT unit :=
  log_task (LRelayerNon200 key_description path (get_sdk_version headers) status body).

Definition SponsoredMatchCtx : Type :=
  ResponseContext AssembleExternalMatchRequest SponsoredMatchResponse.
Definition refund_of (i : option GasSponsorshipInfo) : Z * bool :=
  default (0, false) ((fun i => (GasSponsorship.refund_amount i, GasSponsorship.refund_native_eth i)) <$> i).

Definition log_bundle (o : ExternalOrder) (ctx : SponsoredMatchCtx) : MT unit :=
  r ← lift (response ctx);
  let b := sm_bundle r in
  price ← lift (quote_per_base_price b);
  '(base_mint, _) ←
     lift (pick_base_and_quote_mints tok_usdc (b_match_input_mint b) (b_match_output_mint b));
  '(requested_base, requested_quote) ← lift (amounts_with_price o price);
  response_base ← lift (get_default_base_amount b);
  response_quote ← lift (get_default_quote_amount b);
  log_task (LBundleSent (mk_bundle_log (requested_base, requested_quote) (response_base, response_quote)
    (fdiv (of_Z response_base) (of_Z requested_base), fdiv (of_Z response_quote) (of_Z requested_quote))
    (p_user ctx) (p_request_id ctx) (bool_decide (is_Some (sm_info r))) (p_path ctx) (p_sdk_version ctx)
    (base_mint =? b_match_output_mint b)
    (t_amount (b_min_receive b), t_amount (b_max_receive b), t_mint (b_min_receive b))
    (t_amount (b_min_send b), t_amount (b_max_send b), t_mint (b_min_send b))
    (refund_of (sm_info r)))).

Definition bundle_labels (ctx : SponsoredMatchCtx) (is_sponsored : bool) : tags :=
  [(KEY_DESCRIPTION_METRIC_TAG, p_user ctx); (REQUEST_ID_METRIC_TAG, p_request_id ctx);
   (GAS_SPONSORED_METRIC_TAG, bool_to_string is_sponsored);
   (SDK_VERSION_METRIC_TAG, p_sdk_version ctx); (REQUEST_PATH_METRIC_TAG, p_path ctx)].
Definition handle_bundle_response (o : ExternalOrder) (ctx : SponsoredMatchCtx) : MT unit :=
  _ ← log_bundle o ctx;
  r ← lift (response ctx);
  record_external_match_metrics o (sm_bundle r) (bundle_labels ctx (bool_decide (is_Some (sm_info r)))).

(** ** external_match/mod.rs: the statuses of the relayer *)
Definition STATUS_INTERNAL_SERVER_ERROR : Z := 500.
Definition STATUS_NO_CONTENT : Z := 204.
Definition report_status {Req} (ctx : RequestContext Req) (status : Z) (body : string) : MT unit :=
  if status =? STATUS_INTERNAL_SERVER_ERROR then record_relayer_request_500 (r_user ctx) (r_path ctx)
  else if negb (status =? STATUS_OK)
  then log_unsuccessful_relayer_request status body (r_user ctx) (r_path ctx) (r_headers ctx)
  else mret tt.

(** ** external_match/quote.rs *)
Definition QuoteCtx : Type := ResponseContext ExternalQuoteRequest ApiSignedQuote.
Definition SponsoredQuoteCtx : Type := ResponseContext ExternalQuoteRequest SponsoredQuoteResponse.
Definition from_quote_response_ctx (r : SponsoredQuoteResponse) (ctx : QuoteCtx) : SponsoredQuoteCtx :=
  with_response r ctx.

Definition log_quote (ctx : SponsoredQuoteCtx) : MT unit :=
  r ← lift (response ctx);
  let m := q_match_result (s_quote (sq_signed_quote r)) in
  '(base_mint, _) ← lift (pick_base_and_quote_mints tok_usdc (m_input_mint m) (m_output_mint m));
  log_task (LQuoteSent (mk_quote_log (bool_decide (is_Some (sq_info r))) (p_user ctx) (p_sdk_version ctx)
    (base_mint =? m_output_mint m) (mk_transfer (m_output_mint m) (m_output_amount m))
    (mk_transfer (m_input_mint m) (m_input_amount m)) (refund_of (sq_info r)))).

Definition quote_labels (ctx : SponsoredQuoteCtx) : tags :=
  [(KEY_DESCRIPTION_METRIC_TAG, p_user ctx); (REQUEST_ID_METRIC_TAG, p_request_id ctx);
   (SDK_VERSION_METRIC_TAG, p_sdk_version ctx)].
Definition record_quote_metrics_helper (draw : Z) (ctx : SponsoredQuoteCtx) : MT unit :=
  _ ← log_quote ctx;
  sample ← lift (should_sample_metrics draw);
  if negb sample then mret tt
  else
    r ← lift (response ctx);
    let q := s_quote (sq_signed_quote r) in
    let price := price_price (q_price q) in
    '(_, requested_quote_amount) ← lift (amounts_with_price (external_order (p_request ctx)) price);
    let m := q_match_result q in
    '(base_mint, quote_mint) ← lift (pick_base_and_quote_mints tok_usdc (m_input_mint m) (m_output_mint m));
    let quote_is_input := quote_mint =? m_input_mint m in
    let matched_quote_amount := if quote_is_input then m_input_amount m else m_output_amount m in
    let labels := quote_labels ctx in
    _ ← record_fill_ratio requested_quote_amount matched_quote_amount labels;
    emit [endpoint_counter base_mint EXTERNAL_MATCH_QUOTE_REQUEST_COUNT labels].

(** [get_price]: the answer of the price reporter. *)
Definition record_no_quote_found_helper (get_price : Address -> res AuthServerError f64)
    (ctx : QuoteCtx) : MT unit :=
  let o := external_order (p_request ctx) in
  '(base_mint, _) ← lift (pick_base_and_quote_mints tok_usdc (o_input_mint o) (o_output_mint o));
  _ ← record_quote_not_found (p_user ctx) base_mint;
  match get_quote_amount tok_usdc get_protocol_fee get_price o fp_zero with
  | Ok quote_amt =>
      if QUOTE_FILL_RATIO_IGNORE_THRESHOLD <=? quote_amt then mret tt
      else record_fill_ratio quote_amt 0
             [(REQUEST_ID_METRIC_TAG, p_request_id ctx); (KEY_DESCRIPTION_METRIC_TAG, p_user ctx);
              (BASE_ASSET_METRIC_TAG, addr_text base_mint)]
  | Err (PriceReporter (PRStreamMissing _)) => mret tt
  | Err e => lift (Err e)
  | Panic => lift Panic
  end.

(** The tasks a reply to a quote request spawns. *)
Inductive quote_spawn :=
  | SpawnNoQuote (ctx : QuoteCtx)
  | SpawnQuote (ctx : SponsoredQuoteCtx) (cached : option CachedSponsorshipInfo).
Definition quote_post (resp : BytesResponse) (ctx : QuoteCtx)
    : res AuthServerError BytesResponse * list quote_spawn :=
  let no_quote := if p_status ctx =? STATUS_NO_CONTENT then [SpawnNoQuote ctx] else [] in
  if negb (is_success ctx) then (Ok resp, no_quote)
  else
    match (sq ← response ctx; sponsor_response sq (fst <$> p_sponsorship ctx)) with
    | Ok (sponsored_resp, cached_info) =>
        (Ok (mk_reply (reply_status resp) (quote_to_text sponsored_resp (should_stringify_body ctx))),
         no_quote ++ [SpawnQuote (from_quote_response_ctx sponsored_resp ctx) cached_info])
    | Err e => (Err e, no_quote)
    | Panic => (Panic, no_quote)
    end.

Record task_env := mk_task_env {
  te_write : transport * transport;
  te_now : Z;
  te_draw : Z;
  te_price : Address -> res AuthServerError f64;
}.
Definition run_quote_spawn (env : task_env) (sp : quote_spawn) : MT unit :=
  match sp with
  | SpawnNoQuote ctx => or_log "no-quote-metrics" (record_no_quote_found_helper (te_price env) ctx)
  | SpawnQuote ctx cached =>
      _ ← match cached with
          | Some c =>
              r ← lift (response ctx);
              or_log "cache-write" (on_auth (write_sponsorship_info_to_redis (te_write env).1 (te_write env).2
                (te_now env) (generate_quote_uuid (s_signature (sq_signed_quote r))) c))
          | None => mret tt
          end;
      or_log "quote-metrics" (record_quote_metrics_helper (te_draw env) ctx)
  end.

(** ** external_match/match_bundle.rs *)
Definition log_updated_order (ctx : SponsoredMatchCtx) (sq : ApiSignedQuote) (updated : ExternalOrder)
    : MT unit :=
  let original := q_order (s_quote sq) in
  log_task (LQuoteUpdated (mk_update_log (p_user ctx) (p_request_id ctx) (p_sdk_version ctx)
    (o_input_amount original, o_input_amount updated)
    (o_output_amount original, o_output_amount updated))).

Definition quoted_order_metrics (now : Z) (ctx : SponsoredMatchCtx) (sq : ApiSignedQuote)
    (updated : option ExternalOrder) : MT unit :=
  _ ← on_auth (record_quoted_order_metrics now ctx sq);
  o ← match updated with
      | Some u => _ ← log_updated_order ctx sq u; mret u
      | None => mret (q_order (s_quote sq))
      end;
  handle_bundle_response o ctx.
Definition direct_order_metrics (now : Z) (ctx : SponsoredMatchCtx) (o : ExternalOrder) : MT unit :=
  _ ← on_auth (record_direct_order_metrics now ctx); handle_bundle_response o ctx.
Definition assembly_metrics_helper (now : Z) (ctx : SponsoredMatchCtx) : MT unit :=
  match a_order (p_request ctx) with
  | QuotedOrder sq upd => quoted_order_metrics now ctx sq upd
  | DirectOrder o => direct_order_metrics now ctx o
  end.
Definition run_assembly_task (now : Z) (ctx : SponsoredMatchCtx) : MT unit :=
  or_log "assemble-metrics" (assembly_metrics_helper now ctx).

(** ** Steps that only describe

    A step that emits metrics and log lines leaves the rest of the server alone. *)
Definition describes {A} (m : MT A) : Prop := forall s, t_auth (m s).2 = t_auth s.

Lemma describes_bind {A B} (m : MT A) (f : A -> MT B) :
  describes m -> (forall a, describes (f a)) -> describes (m ≫= f).
Proof.
  intros Hm Hf s. unfold mbind, eff_bind. specialize (Hm s).
  destruct (m s) as [[a|e|] s1]; [|done..]. rewrite <- Hm. apply Hf.
Qed.
Lemma describes_lift {A} (r : res AuthServerError A) : describes (lift r).
Proof. done. Qed.
Lemma describes_ret {A} (a : A) : describes (mret a).
Proof. done. Qed.
Lemma describes_emit l : describes (emit l).
Proof. done. Qed.
Lemma describes_log l : describes (log_task l).
Proof. done. Qed.
Lemma describes_or_log n m : describes m -> describes (or_log n m).
Proof. intros Hm s. specialize (Hm s). unfold or_log. by destruct (m s) as [[] ?]. Qed.
Lemma describes_pair {A B C} (m : MT (A * B)) (f : A -> B -> MT C) :
  describes m -> (forall a b, describes (f a b)) -> describes ('(a, b) ← m; f a b).
Proof. intros Hm Hf. apply describes_bind; [done|]. intros []. apply Hf. Qed.
#[local] Hint Resolve describes_lift describes_ret describes_emit describes_log describes_or_log : tel.

(** Goes through a step bind by bind. *)
Ltac describe :=
  repeat first [progress auto with tel | apply describes_pair; [|intros ? ?]
               | apply describes_bind; [|intros ?] | case_match].

Lemma describes_request_metrics o price ls : describes (record_external_match_request_metrics o price ls).
Proof. unfold record_external_match_request_metrics. describe. Qed.
Lemma describes_response_metrics b ls : describes (record_external_match_response_metrics b ls).
Proof. unfold record_external_match_response_metrics. describe. Qed.
#[local] Hint Resolve describes_request_metrics describes_response_metrics : tel.
Lemma describes_match_metrics o b ls : describes (record_external_match_metrics o b ls).
Proof. unfold record_external_match_metrics, record_fill_ratio. describe. Qed.
Lemma describes_log_bundle o ctx : describes (log_bundle o ctx).
Proof. unfold log_bundle. describe. Qed.
#[local] Hint Resolve describes_match_metrics describes_log_bundle : tel.
Lemma describes_bundle o ctx : describes (handle_bundle_response o ctx).
Proof. unfold handle_bundle_response. describe. Qed.
Lemma describes_log_quote ctx : describes (log_quote ctx).
Proof. unfold log_quote. describe. Qed.
#[local] Hint Resolve describes_bundle describes_log_quote : tel.
Lemma describes_quote draw ctx : describes (record_quote_metrics_helper draw ctx).
Proof. unfold record_quote_metrics_helper, record_fill_ratio. describe. Qed.
Lemma describes_no_quote price ctx : describes (record_no_quote_found_helper price ctx).
Proof. unfold record_no_quote_found_helper, record_fill_ratio, record_quote_not_found. describe. Qed.
#[local] Hint Resolve describes_quote describes_no_quote : tel.

Lemma describes_after {A} (m : eff auth_state AuthServerError A) (f : A -> MT unit) s :
  (forall a, describes (f a)) -> t_auth ((on_auth m ≫= f) s).2 = (m (t_auth s)).2.
Proof.
  intros Hf. unfold mbind, eff_bind, on_auth. destruct (m (t_auth s)) as [[a|e|] a1]; [|done..].
  cbn. by rewrite Hf.
Qed.
Lemma or_log_auth n m s : t_auth (or_log n m s).2 = t_auth (m s).2.
Proof. unfold or_log. by destruct (m s) as [[] ?]. Qed.

(** The entry of the task that [ExternalMatch] runs for a spawned one. *)
Definition cache_task (sp : quote_spawn) : quote_task :=
  match sp with
  | SpawnNoQuote _ => None
  | SpawnQuote ctx cached => p_response ctx ≫= fun r => cache_entry generate_quote_uuid r cached
  end.

Lemma assembly_task_auth now ctx s :
  t_auth (run_assembly_task now ctx s).2 = record_assembly_metrics now (Some ctx) (t_auth s).
Proof.
  unfold run_assembly_task. rewrite or_log_auth. unfold assembly_metrics_helper. cbn.
  unfold record_assembly_metrics_helper. destruct (a_order (p_request ctx)) as [sq upd|o].
  - unfold quoted_order_metrics. apply describes_after. intros []. unfold log_updated_order. describe.
  - unfold direct_order_metrics. apply describes_after. intros []. describe.
Qed.
Lemma quote_spawn_auth env sp s :
  t_auth (run_quote_spawn env sp s).2
    = record_quote_metrics (te_write env).1 (te_write env).2 (te_now env) (cache_task sp) (t_auth s).
Proof.
  destruct sp as [ctx|ctx cached]; cbn [cache_task run_quote_spawn].
  { rewrite or_log_auth. apply describes_no_quote. }
  destruct cached as [c|]; cbn [cache_entry fmap option_fmap option_map].
  2:{ unfold mbind at 1, eff_bind. cbn. rewrite or_log_auth, describes_quote. by destruct (p_response ctx). }
  unfold response. destruct (p_response ctx) as [r|]; [|done]. cbn [unwrap mbind option_bind].
  unfold mbind at 1 2, eff_bind, lift. cbn [record_quote_metrics].
  match goal with |- context [or_log ?n (on_auth ?m) s] =>
    pose proof (or_log_auth n (on_auth m) s) as Ha; unfold on_auth at 2 in Ha end.
  destruct (write_sponsorship_info_to_redis _ _ _ _ c (t_auth s)) as [rw a1] eqn:E. cbn in Ha |- *.
  destruct (or_log _ _ s) as [[] s1]; cbn in Ha |- *; [|done..]. by rewrite or_log_auth, describes_quote.
Qed.

(** What the tasks of a reply leave to [ExternalMatch]. *)
Lemma quote_post_reply resp ctx :
  quote_post_request resp ctx
    = (reply ← (quote_post resp ctx).1; Ok (reply, mjoin (last (cache_task <$> (quote_post resp ctx).2)))).
Proof.
  unfold quote_post_request, quote_post. destruct (is_success ctx) eqn:Es; cbn [negb].
  2:{ cbn. by case_match. }
  assert ((p_status ctx =? STATUS_NO_CONTENT) = false) as ->.
  { unfold is_success in Es. apply Z.eqb_eq in Es. by rewrite Es. }
  destruct (response ctx) as [sq|e|]; [|done..]. cbn.
  destruct (sponsor_response sq _) as [[r c]|e|]; [|done..]. cbn. f_equal. f_equal. by destruct ctx.
Qed.

(** Metrics never interfere: whatever the recording of metrics does, errors and
    panics included, the spawned tasks leave the sponsorship entries, the bundle
    store and everything else of the server as the tasks of [ExternalMatch] do,
    and the reply to a quote request is the same. *)
Theorem metrics_do_not_interfere :
  (forall now ctx s,
     t_auth (run_assembly_task now ctx s).2 = record_assembly_metrics now (Some ctx) (t_auth s)) /\
  (forall env sp s,
     t_auth (run_quote_spawn env sp s).2
       = record_quote_metrics (te_write env).1 (te_write env).2 (te_now env) (cache_task sp) (t_auth s)) /\
  (forall resp ctx,
     quote_post_request resp ctx
       = (reply ← (quote_post resp ctx).1;
          Ok (reply, mjoin (last (cache_task <$> (quote_post resp ctx).2))))).
Proof. split_and!; [apply assembly_task_auth|apply quote_spawn_auth|apply quote_post_reply]. Qed.

(** ** The metrics of a bundle *)
(** What an order and the bundle that answers it are recorded as: the mints of
    the order and of the match, the amounts that were asked for and those of
    the obligation. *)
Definition bundle_metrics (labels : tags) (om mm requested : Z * Z) (ob : SettlementObligation)
    : list metric :=
  let order_labels := with_base_asset om.1 labels in
  let matched :=
    if ob_input_token ob =? tok_usdc then (ob_amount_out ob, ob_amount_in ob)
    else (ob_amount_in ob, ob_amount_out ob) in
  (if fleb (convert_to_decimal om.2 requested.2) MAX_EXTERNAL_ORDER_QUOTE_VOLUME
   then [volume_gauge om.1 requested.1 EXTERNAL_ORDER_BASE_VOLUME order_labels;
         volume_gauge om.2 requested.2 EXTERNAL_ORDER_QUOTE_VOLUME order_labels] else []) ++
  [endpoint_counter om.1 NUM_EXTERNAL_MATCH_REQUESTS order_labels;
   fill_ratio_gauge requested.2 matched.2 labels;
   volume_gauge mm.1 matched.1 EXTERNAL_MATCH_BASE_VOLUME labels;
   volume_gauge mm.2 matched.2 EXTERNAL_MATCH_QUOTE_VOLUME (with_base_asset mm.1 labels)].

Lemma amounts_mints o price rb rq :
  amounts_with_price o price = Ok (rb, rq) ->
  exists om, pick_base_and_quote_mints tok_usdc (o_input_mint o) (o_output_mint o) = Ok om.
Proof.
  unfold amounts_with_price, get_base_and_quote_amount_with_price. case_match; [done|].
  intros Ha. apply bind_Ok_inv in Ha as (om & Ha & _). eauto.
Qed.
Lemma price_mints b price :
  quote_per_base_price b = Ok price ->
  exists mm, pick_base_and_quote_mints tok_usdc (b_match_input_mint b) (b_match_output_mint b) = Ok mm.
Proof. intros H. apply bind_Ok_inv in H as (mm & H & _). eauto. Qed.
Lemma default_amounts b x :
  get_default_base_amount b = Ok x -> exists ob, default_obligation b = Ok ob.
Proof. intros H. apply bind_Ok_inv in H as (ob & H & _). eauto. Qed.

(** Once the amounts are known the metrics follow. *)
Lemma match_metrics_run o b labels price requested om mm ob s :
  quote_per_base_price b = Ok price -> amounts_with_price o price = Ok requested ->
  pick_base_and_quote_mints tok_usdc (o_input_mint o) (o_output_mint o) = Ok om ->
  pick_base_and_quote_mints tok_usdc (b_match_input_mint b) (b_match_output_mint b) = Ok mm ->
  default_obligation b = Ok ob ->
  record_external_match_metrics o b labels s
    = (Ok tt, mk_tel (t_auth s) (t_metrics s ++ bundle_metrics labels om mm requested ob) (t_log s)).
Proof.
  intros Hp Hr Hom Hmm Hob. destruct requested as [rb rq], om as [ob1 oq], mm as [mb mq].
  unfold record_external_match_metrics, record_external_match_request_metrics,
    record_external_match_response_metrics, get_default_base_amount, get_default_quote_amount,
    record_fill_ratio, emit, or_log, lift, modify, mbind, eff_bind.
  rewrite Hp, Hr, Hom, Hmm, Hob. cbn. unfold bundle_metrics. cbn.
  rewrite <- !(assoc_L (++)). by destruct (ob_input_token ob =? tok_usdc).
Qed.

(** The recording of a bundle is all or nothing: either it fails before anything
    was emitted, or all of the metrics of the order and of the bundle are there,
    in this order, with one log line. *)
Theorem bundle_metrics_all_or_nothing o ctx s :
  match handle_bundle_response o ctx s with
  | (Ok _, s') =>
      exists r price requested om mm ob line,
        response ctx = Ok r /\ quote_per_base_price (sm_bundle r) = Ok price /\
        amounts_with_price o price = Ok requested /\
        pick_base_and_quote_mints tok_usdc (o_input_mint o) (o_output_mint o) = Ok om /\
        pick_base_and_quote_mints tok_usdc (b_match_input_mint (sm_bundle r))
          (b_match_output_mint (sm_bundle r)) = Ok mm /\
        default_obligation (sm_bundle r) = Ok ob /\
        t_auth s' = t_auth s /\ t_log s' = t_log s ++ [LBundleSent line] /\
        t_metrics s' = t_metrics s ++
          bundle_metrics (bundle_labels ctx (bool_decide (is_Some (sm_info r)))) om mm requested ob
  | (_, s') => s' = s
  end.
Proof.
  unfold handle_bundle_response, log_bundle, mbind, eff_bind, lift.
  destruct (response ctx) as [r|e|]; [|done..].
  destruct (quote_per_base_price (sm_bundle r)) as [price|e|] eqn:Hp; [|done..].
  destruct (price_mints _ _ Hp) as [[mb mq] Hmm]. rewrite Hmm.
  destruct (amounts_with_price o price) as [[rb rq]|e|] eqn:Hr; [|done..].
  destruct (amounts_mints _ _ _ _ Hr) as [om Hom].
  destruct (get_default_base_amount (sm_bundle r)) as [x|e|] eqn:Hb; [|done..].
  destruct (default_amounts _ _ Hb) as [ob Hob].
  unfold get_default_quote_amount. rewrite Hob. cbn [mbind res_bind].
  unfold log_task, modify.
  rewrite (match_metrics_run _ _ _ _ _ _ _ _ _ Hp Hr Hom Hmm Hob).
  do 7 eexists. split_and!; done.
Qed.

(** ** The amount in *)
(** The amount that is read back from calldata is the one that was ABI-encoded as
    the first argument. *)
Theorem amount_in_decoded sel n rest :
  length sel = 4%nat -> in_u 256 n ->
  get_external_party_amount_in (string_of_list_ascii (sel ++ to_be_bytes 32 n ++ rest)) = u256_to_u128 n.
Proof.
  intros Hs Hn. unfold get_external_party_amount_in. rewrite list_ascii_of_string_of_list_ascii.
  rewrite !length_app, Hs, length_to_be_bytes.
  destruct (Nat.ltb_spec (4 + (32 + length rest)) 36); [lia|].
  rewrite drop_app_length' by done. rewrite take_app_length' by (by rewrite length_to_be_bytes).
  rewrite be_bytes_roundtrip; [done|]. apply Hn.
Qed.
Lemma short_calldata_panics b :
  (length (list_ascii_of_string (default ""%string (b_tx_input b))) < 36)%nat ->
  get_default_base_amount b = Panic /\ get_default_quote_amount b = Panic.
Proof.
  intros Hl. unfold get_default_base_amount, get_default_quote_amount, default_obligation,
    get_external_party_amount_in. by rewrite (proj2 (Nat.ltb_lt _ _) Hl).
Qed.

(** ** Requests without a quote *)
Lemma zero_over_zero : fdiv (of_Z 0) (of_Z 0) = fnan.
Proof. reflexivity. Qed.
Lemma zero_over_pos q : 0 < q < 2 ^ 53 -> fdiv (of_Z 0) (of_Z q) = f0.
Proof.
  intros Hq. destruct q as [|p|p]; try lia. rewrite of_Z_pos by lia.
  reflexivity.
Qed.

Lemma or_log_metrics n m s : t_metrics (or_log n m s).2 = t_metrics (m s).2.
Proof. unfold or_log. by destruct (m s) as [[] ?]. Qed.

(** A request without a quote counts once, and when its size is known and below
    the threshold a fill ratio of zero is recorded; for a size that rounds to
    zero the ratio is not a number. *)
Theorem no_quote_metrics env ctx s :
  let o := external_order (p_request ctx) in
  let after := t_metrics (run_quote_spawn env (SpawnNoQuote ctx) s).2 in
  match pick_base_and_quote_mints tok_usdc (o_input_mint o) (o_output_mint o) with
  | Ok (base_mint, _) =>
      let not_found := Counter QUOTE_NOT_FOUND_COUNT
        [(KEY_DESCRIPTION_METRIC_TAG, p_user ctx); (BASE_ASSET_METRIC_TAG, asset base_mint)] in
      after = t_metrics s ++ [not_found] \/
      exists q labels v,
        get_quote_amount tok_usdc get_protocol_fee (te_price env) o fp_zero = Ok q /\
        q < QUOTE_FILL_RATIO_IGNORE_THRESHOLD /\
        after = t_metrics s ++ [not_found; Gauge (mk_gauge EXTERNAL_MATCH_FILL_RATIO labels v)] /\
        (q = 0 -> v = fnan) /\ (0 < q -> v = f0)
  | _ => after = t_metrics s
  end.
Proof.
  cbn zeta. cbn [run_quote_spawn]. rewrite or_log_metrics. unfold record_no_quote_found_helper. cbn zeta.
  unfold mbind, eff_bind, lift.
  destruct (pick_base_and_quote_mints _ _ _) as [[base quote]|e|]; [|done..].
  unfold record_quote_not_found, emit, modify.
  destruct (get_quote_amount _ _ _ _ _) as [q|e|] eqn:Hq; [| |by left].
  2:{ left. by repeat case_match. }
  destruct (Z.leb_spec QUOTE_FILL_RATIO_IGNORE_THRESHOLD q) as [|Hlt]; [by left|]. right.
  unfold record_fill_ratio, emit, modify, fill_ratio_gauge. cbn [t_metrics snd].
  do 3 eexists. split_and!; [done|done|by rewrite <- (assoc_L (++))| |].
  - intros ->. apply zero_over_zero.
  - intros Hpos. apply zero_over_pos. split; [done|].
    unfold QUOTE_FILL_RATIO_IGNORE_THRESHOLD in Hlt. cbn in Hlt. lia.
Qed.

(** Metrics of a quote come in pairs, and only when sampled. *)
Lemma quote_metrics_sampled env ctx cached s :
  let after := t_metrics (run_quote_spawn env (SpawnQuote ctx cached) s).2 in
  after = t_metrics s \/
  gen_bool metrics_sampling_rate (te_draw env) = Ok true /\
  exists requested matched base,
    after = t_metrics s ++ [fill_ratio_gauge requested matched (quote_labels ctx);
                            endpoint_counter base EXTERNAL_MATCH_QUOTE_REQUEST_COUNT (quote_labels ctx)].
Proof.
  assert (forall s, let after := t_metrics (record_quote_metrics_helper (te_draw env) ctx s).2 in
    after = t_metrics s \/ gen_bool metrics_sampling_rate (te_draw env) = Ok true /\
    exists requested matched base,
      after = t_metrics s ++ [fill_ratio_gauge requested matched (quote_labels ctx);
                            endpoint_counter base EXTERNAL_MATCH_QUOTE_REQUEST_COUNT (quote_labels ctx)]) as Hh.
  { clear s. intros s. cbn zeta. unfold record_quote_metrics_helper, log_quote, mbind, eff_bind, lift.
    destruct (response ctx) as [r|e|]; [|by left..].
    destruct (pick_base_and_quote_mints _ _ _) as [[base quote]|e|]; [|by left..].
    unfold log_task, modify, should_sample_metrics. cbn.
    destruct (gen_bool _ _) as [[]|e|]; [|by left..]. cbn.
    destruct (amounts_with_price _ _) as [[rb rq]|e|]; [|by left..].
    right. split; [done|]. cbn. rewrite <- (assoc_L (++)). eauto. }
  cbn zeta in *. cbn [run_quote_spawn]. destruct cached as [c|].
  2:{ unfold mbind, eff_bind. cbn. rewrite or_log_metrics. apply Hh. }
  unfold mbind, eff_bind, lift. destruct (response ctx) as [r|e|]; [|by left..].
  match goal with |- context [or_log ?n (on_auth ?m) s] =>
    assert (t_metrics (or_log n (on_auth m) s).2 = t_metrics s) as Hm
      by (rewrite or_log_metrics; unfold on_auth; by destruct (m _));
    destruct (or_log n (on_auth m) s) as [[] s1] end; cbn in Hm; [|by left..].
  rewrite or_log_metrics, <- Hm. apply Hh.
Qed.
End Telemetry.

(** ** Prices of whole units against amounts of atomic units

    The price that [get_base_and_quote_amount_with_price] is given is the price
    of one whole unit of the base in whole units of USDC: [get_price] of the price
    reporter, [quote.price], and [calculate_quote_per_base_price], which
    multiplies by the difference of the decimals.  The amounts of an order are in
    atomic units.  The tokens here are WETH (8), with 18 decimals, and USDC (7),
    with 6. *)
Module Decimals.
Import SponsorshipWitness.
#[local] Existing Instance fp63.
#[local] Existing Instance binary_text.
#[local] Existing Instance RateLimiterWitness.kv_redis.
#[local] Existing Instance ExternalMatchWitness.server1.

Definition decimals (a : Address) : option Z :=
  if a =? 7 then Some 6 else if a =? 8 then Some 18 else None.
Definition to_decimal (a : Address) (n : Z) : f64 := fdiv (of_Z n) (of_Z (10 ^ default 0 (decimals a))).
#[local] Instance tokens2 : Tokens := {|
  tok_decimals := f64_prices;
  tok_usdc := 7; tok_weth := 8; tok_native := 9; is_named a := (a =? 7) || (a =? 8);
  ticker_of a := if a =? 8 then Some "WETH"%string else if a =? 7 then Some "USDC"%string else None;
  addr_text := format_z; usdc_to_decimal := to_decimal 7;
|}.
#[local] Instance lib2 : TelemetryLib := {|
  token_decimals := decimals; convert_to_decimal := to_decimal;
  powi10 n := if 0 <=? n then of_Z (10 ^ n) else fdiv f1 (of_Z (10 ^ (- n)));
  fp_to_f64 x := fdiv (of_Z x) (of_Z SCALE);
  u256_to_u128 n := unwrap (try_into_u 128 n);
  to_external_obligation b n :=
    mk_obligation (b_match_input_mint b) n (fp_mul_floor (GasSponsorship.b_price_fp b) n);
  DEFAULT_EXTERNAL_MATCH_RELAYER_FEE := f0;
  metrics_sampling_rate := f1; gen_bool p _ := Ok (feqb p f1);
|}.

(** One ether for 3000 USDC, filled whole. *)
Definition ONE_ETHER : Z := 10 ^ 18.
Definition order3 : ExternalOrder := mk_order 8 7 ONE_ETHER 0 false 0.
Definition calldata3 : string := string_of_list_ascii (to_be_bytes 4 0 ++ to_be_bytes 32 ONE_ETHER).
Definition bundle3 : MatchBundle :=
  mk_bundle 8 7 (from_integer_ratio (3000 * 10 ^ 6) ONE_ETHER + 1) (mk_transfer 7 (3000 * 10 ^ 6))
    (mk_transfer 7 0) (mk_transfer 8 ONE_ETHER) (mk_transfer 8 0) (Some 5) (Some calldata3).
Definition ctx3 : SponsoredMatchCtx :=
  mk_response "p" "" "u" "v" (mk_headers None None None)
    (mk_assemble false None (DirectOrder order3) default_engine_options) 200
    (Some (mk_sponsored_match bundle3 None)) (Some (info_zero, 6)) "rid".
Definition tel0 : tel_state := mk_tel ExternalMatchWitness.s0 [] [].
Definition run3 := handle_bundle_response order3 ctx3 tel0.

Definition fill_ratios (l : list metric) : list f64 :=
  omap (fun m => match m with
                 | Gauge g => if decide (g_name g = EXTERNAL_MATCH_FILL_RATIO) then Some (g_value g) else None
                 | Counter _ _ => None
                 end) l.
Definition records (name : string) (l : list metric) : bool :=
  existsb (fun m => match m with Gauge g => bool_decide (g_name g = name) | Counter _ _ => false end) l.

(** An order that was filled whole is recorded with a fill ratio below one in
    ten to the eleventh, and its volume is dropped as an outlier. *)
Lemma full_fill_recorded_as_tiny :
  match run3 with
  | (Ok _, s) =>
      (t_amount (b_max_receive bundle3) =? 3000 * 10 ^ 6) &&
      (match fill_ratios (t_metrics s) with [v] => fltb v (lit 1 (10 ^ 11)) | _ => false end) &&
      negb (records EXTERNAL_ORDER_QUOTE_VOLUME (t_metrics s)) &&
      records EXTERNAL_MATCH_QUOTE_VOLUME (t_metrics s)
  | _ => false
  end = true.
Proof. vm_compute. reflexivity. Qed.

(** An order to sell a billionth of an ether, worth 0.000003 USDC, passes a
    minimum of 10 USDC and is given the refund of a match. *)
Lemma dust_order_sponsored :
  generate_sponsorship_info (BD := SponsorshipWitness.f64_prices) 7 8 9 usdc_to_decimal
    (fun _ _ => 0) (fun _ => Ok (of_Z 3000)) (Ok (of_Z (25 * 10 ^ 18))) (fun _ => Ok f1) (fun _ => Ok true) (of_Z 10) 1 "u"
    (mk_order 8 7 (10 ^ 9) 0 false 0) (mk_params None None None None)
    = Ok (mk_info 25 false None).
Proof. vm_compute. reflexivity. Qed.

Lemma amount_in_decoded_witness : get_external_party_amount_in calldata3 = Ok ONE_ETHER.
Proof.
  assert (u256_to_u128 ONE_ETHER = Ok ONE_ETHER) as He by reflexivity.
  rewrite <- He. unfold calldata3. rewrite <- (app_nil_r (to_be_bytes 32 ONE_ETHER)).
  apply (amount_in_decoded (to_be_bytes 4 0) ONE_ETHER []); [reflexivity|].
  split; [discriminate|reflexivity].
Defined.
End Decimals.
