(* ===== verification/ServiceStartup.v ===== *)
(** * Start-up of the darkpool indexer and of the prover service
    (indexer/darkpool-indexer/src: cli.rs, main.rs, indexer/;
    prover-service/server/src: cli.rs, main.rs)

    The command lines, the clients of the indexer and the end of its process, and what
    the consumer of [Indexer] logs; the process of [ProverService] from its command
    line to the port it listens on.  Telemetry and connections are parameters. *)
From Stdlib Require Import ZArith Lia.
From stdpp Require Import gmap strings list.
From S2P Require Import Prelude Logging.
From S2P Require Indexer ProverService.
Local Open Scope Z_scope.

(** The arguments of [configure_telemetry_with_metrics_config]. *)
Record telemetry := mk_telemetry {
  t_datadog : bool;
  t_otlp : bool;
  t_metrics : bool;
  t_collector : string;
  t_statsd_host : string;
  t_statsd_port : Z;
  t_prefix : string;
}.
Definition DEFAULT_STATSD_HOST : string := "127.0.0.1".
Definition DEFAULT_STATSD_PORT : Z := 8125.
Definition DEFAULT_OTLP_COLLECTOR_ENDPOINT : string := "http://localhost:4317".
(** One flag gates all sinks. *)
Definition single_flag (prefix : string) (datadog_enabled : bool) : telemetry :=
  mk_telemetry datadog_enabled datadog_enabled datadog_enabled DEFAULT_OTLP_COLLECTOR_ENDPOINT
    DEFAULT_STATSD_HOST DEFAULT_STATSD_PORT prefix.

(** ** The indexer *)
Module IndexerStartup.
Import Indexer (DbError(..), HandlerError(..), Message(..), m_group_id).
Definition METRICS_PREFIX : string := "darkpool_indexer".
Record Cli := mk_cli {
  database_url : string;
  http_port : Z;
  auth_key : option string;
  sqs_queue_url : string;
  sqs_region : string;
  chain : Chain;
  ws_rpc_url : string;
  darkpool_address : string;
  datadog_enabled : bool;
}.
Section CommandLine.
(** The value of an argument; the port has no environment variable. *)
Context (arg : string -> option string) (flag : string -> bool)
  (parse_u16 : string -> option Z) (parse_chain : string -> option Chain).
Definition parse_cli : option Cli :=
  database_url ← arg "DATABASE_URL";
  http_port ← parse_u16 (default "3000" (arg "--http-port"))%string;
  sqs_queue_url ← arg "SQS_QUEUE_URL";
  chain ← arg "CHAIN" ≫= parse_chain;
  ws_rpc_url ← arg "WS_RPC_URL";
  darkpool_address ← arg "DARKPOOL_ADDRESS";
  Some (mk_cli database_url http_port (arg "HTTP_AUTH_KEY") sqs_queue_url
    (default "us-east-2" (arg "SQS_REGION"))%string chain ws_rpc_url darkpool_address (flag "ENABLE_DATADOG")).
End CommandLine.

(** indexer/error.rs *)
Inductive IndexerError := Db (e : DbError) | ApiHandler (e : HandlerError) | IndexerRpc (msg : string).
Definition db_error_to_string (e : DbError) : string :=
  match e with
  | ClientSetup m => "client setup error: " +:+ m
  | PoolConnection m => "pool connection error: " +:+ m
  | Query m => "query execution error: " +:+ m
  | DieselError m => "Diesel error: " +:+ m
  end%string.

Section Process.
Context {DbPool SqsClient DynProvider : Type}
  (configure : telemetry -> res string unit) (build_pool : string -> res string DbPool)
  (sqs_client_of : string -> SqsClient) (connect_ws : string -> res string DynProvider).

Record Indexer := mk_indexer { db : DbPool; sqs_client : SqsClient; ws_provider : DynProvider }.
Definition build_from_cli (c : Cli) : res IndexerError Indexer :=
  db ← map_err (fun e => Db (ClientSetup e)) (build_pool (database_url c));
  ws_provider ← map_err IndexerRpc (connect_ws (ws_rpc_url c));
  Ok (mk_indexer db (sqs_client_of (sqs_region c)) ws_provider).

(** How the task of the consumer ended: its own result, or the error of the join. *)
Inductive joined := Joined (r : res string unit) | JoinError (e : string).
Definition end_line (j : joined) : event :=
  match j with
  | JoinError e => indexing_log_task IndexingServiceLifecycle Failed [("error", e)] ("error joining indexer task: " +:+ e)
  | Joined (Err e) => indexing_log_task IndexingServiceLifecycle Failed [("error", e)] ("indexer task error: " +:+ e)
  | Joined _ => indexing_log_task IndexingServiceLifecycle Partial [] "indexer task exited unexpectedly"
  end%string.
(** [main]: telemetry that cannot be set up panics; [consumer] is the end of the task. *)
Definition main (consumer : Indexer -> string -> joined) (c : Cli) : res IndexerError unit * list event :=
  match configure (single_flag METRICS_PREFIX (datadog_enabled c)) with
  | Ok _ =>
      let booting := indexing_log_task IndexingServiceLifecycle Started [] "darkpool-indexer booting" in
      match build_from_cli c with
      | Ok indexer => (Ok tt, [booting; end_line (consumer indexer (sqs_queue_url c))])
      | Err e => (Err e, [booting])
      | Panic => (Panic, [booting])
      end
  | _ => (Panic, [])
  end.

(** The process succeeds exactly when both connections can be made, and then however
    its consumer ends: the failure of the consumer is one line of the log, not the
    status of the process.  The database is tried first. *)
Theorem consumer_failure_not_status consumer c :
  configure (single_flag METRICS_PREFIX (datadog_enabled c)) = Ok tt ->
  ((main consumer c).1 = Ok tt <->
     exists p w, build_pool (database_url c) = Ok p /\ connect_ws (ws_rpc_url c) = Ok w) /\
  (forall e, build_pool (database_url c) = Err e -> (main consumer c).1 = Err (Db (ClientSetup e))) /\
  (forall p w, build_pool (database_url c) = Ok p -> connect_ws (ws_rpc_url c) = Ok w ->
     exists line, (main consumer c).2 = [indexing_log_task IndexingServiceLifecycle Started [] "darkpool-indexer booting"; line] /\
       (ev_level line = INFO -> False)).
Proof.
  intros Hc. unfold main. rewrite Hc. unfold build_from_cli.
  destruct (build_pool (database_url c)) as [p|e|]; cbn; cycle 1.
  { split_and!; [split; [done|by intros (? & ? & ? & _)]|by intros ? [= ->]|done]. }
  { split_and!; [split; [done|by intros (? & ? & ? & _)]|done|done]. }
  destruct (connect_ws (ws_rpc_url c)) as [w|e|]; cbn; cycle 1.
  { split_and!; [split; [done|by intros (? & ? & _ & ?)]|done|done]. }
  { split_and!; [split; [done|by intros (? & ? & _ & ?)]|done|done]. }
  split_and!; [split; eauto|done|]. intros ? ? _ _. eexists. split; [reflexivity|].
  by destruct (consumer _ _) as [[]|].
Qed.
End Process.

(** *** The log of the consumer (main.rs)

    A reply of the queue that failed is logged, and the next one is asked for at once;
    a message without a group is logged and skipped. *)
Section Log.
Context (message_id : Message -> string).
Definition receive_lines (received : res string (list Message)) : list event :=
  match received with
  | Ok messages =>
      (fun m => indexing_log_task IndexingHandleSqsMessage Partial [("subject", message_id m)]
         ("SQS message " +:+ message_id m +:+ " has no message group ID, skipping")) <$>
      filter (fun m => m_group_id m = None) messages
  | Err e => [indexing_log_task IndexingReceiveSqsMessages Failed [("error", e)] ("error receiving messages from SQS: " +:+ e)]
  | Panic => []
  end%string.

Definition total {A} (g : gmap string (list A)) : nat := sum_list (length <$> (map_to_list g).*2).
Lemma total_push {A} (g : gmap string (list A)) k m : total (<[k := default [] (g !! k) ++ [m]]> g) = S (total g).
Proof.
  unfold total. destruct (g !! k) as [l|] eqn:Hk; cbn.
  - rewrite <-(insert_delete_id g k l Hk) at 2. rewrite <-(insert_delete_eq g).
    rewrite !map_to_list_insert by apply lookup_delete_eq. cbn. rewrite length_app. cbn. lia.
  - rewrite map_to_list_insert by done. cbn. lia.
Qed.
(** Every message of a reply is handed to exactly one task, that of its group, or is
    logged as skipped. *)
Theorem messages_handled_or_logged messages :
  length messages =
    (total (Indexer.group_messages messages) + length (receive_lines (Ok messages)))%nat /\
  (forall id, default [] (Indexer.group_messages messages !! id) = filter (fun m => m_group_id m = Some id) messages).
Proof.
  split; [|apply Indexer.group_messages_lookup]. cbn [receive_lines]. rewrite length_fmap.
  induction messages as [|m ms IH] using rev_ind; [done|].
  unfold Indexer.group_messages in *. rewrite foldl_app, filter_app, !length_app. cbn [foldl].
  rewrite filter_cons, filter_nil. destruct (m_group_id m) as [id|] eqn:Hid.
  - rewrite total_push, decide_False by done. cbn. lia.
  - rewrite decide_True by done. cbn. lia.
Qed.
End Log.
End IndexerStartup.

(** ** The prover service *)
Module ProverStartup.
Import ProverService (Circuit, caches, ProverServiceError(..)).
Definition PROVER_METRICS_PREFIX : string := "prover_service".
Record ProverCli := mk_prover_cli { port : Z; auth_password : string; prover_datadog : bool }.
Definition parse_prover_cli (arg : string -> option string) (flag : string -> bool) (parse_u16 : string -> option Z) : option ProverCli :=
  port ← parse_u16 (default "3000" (arg "PORT"))%string;
  auth_password ← arg "HTTP_AUTH_PASSWORD";
  Some (mk_prover_cli port auth_password (flag "ENABLE_DATADOG")).
Definition configure_telemetry (configure : telemetry -> res string unit) (c : ProverCli) : res ProverServiceError unit :=
  map_err Setup (configure (single_flag PROVER_METRICS_PREFIX (prover_datadog c))).

(** The process up to its listening: the caches, the port and the password of the routes. *)
Definition start (keys_ok : Circuit -> bool) (layout : Circuit -> string + unit)
    (configure : telemetry -> res string unit) (c : ProverCli) : option (caches * Z * string) :=
  match configure_telemetry configure c with
  | Ok _ => s ← ProverService.async_main keys_ok layout; Some (s, port c, auth_password c)
  | _ => None
  end.
(** A service that is started with a password on its command line asks for that password,
    with the keys of every circuit; without one it does not start. *)
Theorem prover_started keys_ok layout configure arg flag parse_u16 c :
  (forall x, keys_ok x = true) -> (forall t, configure t = Ok tt) ->
  parse_prover_cli arg flag parse_u16 = Some c ->
  arg "HTTP_AUTH_PASSWORD"%string = Some (auth_password c) /\
  exists s, start keys_ok layout configure c = Some (s, port c, auth_password c) /\
    ProverService.ca_keys s = ProverService.circuits.
Proof.
  intros Hk Hc Hp. split.
  - unfold parse_prover_cli in Hp. destruct (parse_u16 _); [|done]. cbn in Hp.
    destruct (arg "HTTP_AUTH_PASSWORD"%string); [|done]. by injection Hp as <-.
  - destruct (ProverService.server_starts keys_ok layout Hk) as (s & Hs & Hkeys & _).
    exists s. split; [|done]. unfold start, configure_telemetry. rewrite Hc. cbn. by rewrite Hs.
Qed.
End ProverStartup.
