(* ===== verification/FundsHandlers.v ===== *)
(** * Handlers of the funds manager (funds-manager/funds-manager-server/src/handlers:
    gas.rs, hot_wallets.rs, quoters.rs, vaults.rs, rpc.rs, fee_indexing.rs)

    The handlers that [GasWallets] and [Custody] leave out: those that look up the
    client of a chain, run one operation of it and answer with its result.  The reply
    to an error depends on the handler: most turn it into an [InternalError], which is
    answered with its text, and two pass it on as it is, which warp answers itself. *)
From Stdlib Require Import ZArith Lia Ascii.
From stdpp Require Import gmap strings list.
From S2P Require Import Prelude F64 FundsManager GasWallets.
From S2P Require Custody.
Local Open Scope Z_scope.

Section Common.
Context {S : Type} (display : FundsManagerError -> string).
(** The client of the chain is looked up first: [client] is the result. *)
Definition with_client {A} (client : res FundsManagerError unit) (h : eff S rejection A) : eff S rejection A :=
  _ ← lift (map_err FundsRejection client); h.
Definition internal {A} (m : eff S FundsManagerError A) : eff S rejection A := fun s =>
  let '(r, s) := m s in (map_err (fun e => ApiRejection (InternalError (display e))) r, s).
Definition passed_on {A} (m : eff S FundsManagerError A) : eff S rejection A := fun s =>
  let '(r, s) := m s in (map_err FundsRejection r, s).

Lemma with_client_Ok {A} client (h : eff S rejection A) s a s' :
  with_client client h s = (Ok a, s') -> client = Ok tt /\ h s = (Ok a, s').
Proof. unfold with_client, lift, mbind, eff_bind. by destruct client as [[]|e|]. Qed.
Lemma internal_Ok {A} (m : eff S FundsManagerError A) s a s' :
  internal m s = (Ok a, s') <-> m s = (Ok a, s').
Proof. unfold internal. destruct (m s) as [[] ?]; naive_solver. Qed.
(** An operation that fails is answered with status 500 and its text; a chain that is not
    configured is left to warp, and nothing is touched. *)
Lemma internal_replies {A} client (m : eff S FundsManagerError A) s e :
  (client = Ok tt -> (m s).1 = Err e ->
     exists rej, (with_client client (internal m) s).1 = Err rej /\ handle_rejection rej = Some (500, display e)) /\
  (client = Err e -> exists rej, with_client client (internal m) s = (Err rej, s) /\ handle_rejection rej = None).
Proof.
  unfold with_client, internal, lift, mbind, eff_bind. split.
  - intros ->. cbn. destruct (m s) as [r s']; cbn. intros ->. by eexists.
  - intros ->. by eexists.
Qed.
End Common.

(** ** handlers/gas.rs *)
Section Gas.
Context `{RO : RowOrder GasWallet} (display : FundsManagerError -> string) (tolerance top_up : f64).
Abbreviation G := (eff gas_state rejection).

Definition create_gas_wallet_handler (client : res FundsManagerError unit) (env : create_env) : G string :=
  with_client client (internal display (create_gas_wallet env)).
Definition register_gas_wallet_handler (client : res FundsManagerError unit) (env : register_env) (peer_id : string)
    : G string :=
  with_client client (internal display (register_gas_wallet tolerance top_up env peer_id)).
Definition report_active_peers_handler (client : res FundsManagerError unit) (env : report_env) (peers : list string)
    : G unit :=
  with_client client (internal display (record_active_gas_wallet env peers)).
(** db/models.rs *)
Record GasWalletEntry := mk_entry { en_address : string; en_status : string; en_peer_id : option string }.
Definition to_entry (w : GasWallet) : GasWalletEntry := mk_entry (gw_address w) (gw_status w) (gw_peer_id w).
Definition get_gas_wallets_handler (client : res FundsManagerError unit) (up : bool)
    : G (list string * list GasWalletEntry) :=
  with_client client (
    gas_wallets ← passed_on (get_all_gas_wallets up);
    mret (gw_address <$> gas_wallets, to_entry <$> gas_wallets)).

(** A peer whose registration is answered with a key is listed next as the active holder
    of a wallet, and the key is the secret of that wallet: the two handlers agree on
    who holds what. *)
Theorem registration_listed client env p s m k s' :
  represents s m ->
  register_gas_wallet_handler client env p s = (Ok k, s') ->
  exists addresses entries e,
    get_gas_wallets_handler client true s' = (Ok (addresses, entries), s') /\
    e ∈ entries /\ en_address e ∈ addresses /\ en_status e = "active" /\ en_peer_id e = Some p /\
    gs_secrets s' !! gas_wallet_secret_name (en_address e) = Some k.
Proof.
  intros Hrep [-> H%internal_Ok]%with_client_Ok.
  destruct (register_run tolerance top_up env p s m Hrep)
    as [(w & t & s1 & Heq & _ & m' & Hm' & _ & Hw)|(_ & [e He] & _)]; [|by rewrite H in He].
  rewrite H in Heq. destruct (deliver_key_run tolerance top_up env w s1) as [[Ht Hs] Hk].
  rewrite <-Heq in Ht, Hs, Hk. cbn in Ht, Hs, Hk. specialize (Hk k eq_refl).
  destruct (represents_rev s1 m' (gw_address w) (Held p t) Hm' Hw) as (row & Hrow & Ha & Hv).
  apply view_status in Hv as [(Hst & p' & t' & Hp & _ & [= <- <-])|[(_ & ? & ? & _ & _ & [=])|(_ & _ & [=])]].
  assert (row ∈ rows (gs_table s')) as Hin by (rewrite Ht; apply elem_of_rows; eauto).
  exists (gw_address <$> rows (gs_table s')), (to_entry <$> rows (gs_table s')), (to_entry row).
  split_and!; [done|by apply list_elem_of_fmap_2| |done|done|].
  - by apply (list_elem_of_fmap_2 gw_address).
  - cbn. rewrite Ha. by rewrite Hs.
Qed.

(** A wallet that was created is listed as inactive and has its key; the address of the
    answer was free. *)
Theorem creation_listed client env s a s' :
  create_gas_wallet_handler client env s = (Ok a, s') ->
  gs_table s !! a = None /\ gs_secrets s' !! gas_wallet_secret_name a = Some (ce_private_key env) /\
  exists addresses entries,
    get_gas_wallets_handler client true s' = (Ok (addresses, entries), s') /\
    mk_entry a "inactive" None ∈ entries /\ length entries = S (size (gs_table s)).
Proof.
  intros [-> H%internal_Ok]%with_client_Ok.
  unfold create_gas_wallet, add_gas_wallet, create_secrets_manager_entry, mbind, eff_bind in H.
  destruct (gs_table s !! ce_address env) eqn:Hfree; [by destruct (ce_db env)|].
  destruct (ce_db env); [|done]. cbn in H.
  destruct (gs_secrets s !! gas_wallet_secret_name (ce_address env)); [done|].
  destruct (ce_secrets env); [|done]. cbn in H. injection H as <- <-.
  split_and!; [done|cbn; apply lookup_insert_eq|].
  eexists _, _. split_and!; [reflexivity| |].
  - apply (list_elem_of_fmap_2 to_entry _ (wallet_new (ce_address env))), elem_of_rows.
    exists (ce_address env). cbn. apply lookup_insert_eq.
  - unfold rows. rewrite !length_fmap, length_map_to_list. cbn. by rewrite map_size_insert_None.
Qed.
End Gas.

(** ** handlers/hot_wallets.rs, quoters.rs, vaults.rs, rpc.rs *)
Section CustodyHandlers.
Import Custody (custody_state, custody_env, HotWallet, DepositWithdrawSource(..), JsonRpcRequest, ResponsePayload).
Import Custody (hw_vault, hw_address, cs_hot_wallets, cs_secrets, vault_name).
Context `{RO : RowOrder HotWallet} (display : FundsManagerError -> string) (chain_to_string : Chain -> string)
  (address_of : string -> string).
Abbreviation H := (eff custody_state rejection).

Definition create_hot_wallet_handler (client : res FundsManagerError unit) (env : custody_env)
    (private_key vault internal_wallet_id : string) : H string :=
  with_client client (internal display (Custody.create_hot_wallet address_of env private_key vault internal_wallet_id)).

Definition MINTS_QUERY_PARAM : string := "mints".
Definition mints_of (query_params : gmap string string) : list string :=
  default [] (split_on ","%char <$> query_params !! MINTS_QUERY_PARAM).
Definition get_hot_wallet_balances_handler (client : res FundsManagerError unit) (env : custody_env)
    (query_params : gmap string string) : H (list (string * list (string * Z))) :=
  with_client client (internal display (Custody.get_hot_wallet_balances env (mints_of query_params))).

(** The deposit addresses of the two vaults of a chain. *)
Definition get_deposit_address_handler (client : res FundsManagerError unit) (env : custody_env) (chain : Chain) : H string :=
  with_client client (internal display (Custody.get_deposit_address chain_to_string chain env Quoter)).
Definition get_gas_hot_wallet_address_handler (client : res FundsManagerError unit) (env : custody_env) (chain : Chain)
    : H string :=
  with_client client (internal display (Custody.get_deposit_address chain_to_string chain env Gas)).

(** The vaults of Fireblocks are not of one chain: they are read through the client of
    the default chain of the library. *)
Definition get_vault_balances_handler (parse_f64 : string -> option f64) (powf10 floor : f64 -> f64)
    (default_chain : Chain) (get_custody_client : Chain -> res FundsManagerError unit) (env : Chain -> custody_env)
    (vault : string) : H (list (string * Z)) :=
  with_client (get_custody_client default_chain)
    (passed_on (Custody.get_vault_token_balances parse_f64 powf10 floor default_chain (env default_chain) vault)).

(** The chain of Hyperliquid's bridge in the environment of the server. *)
Definition rpc_chain (environment : Environment) : Chain :=
  match environment with Mainnet => ArbitrumOne | Testnet => ArbitrumSepolia end.
Definition rpc_handler (usdc_on : Chain -> string) (chain_id : Chain -> Z) (chain_id_str : Chain -> string)
    (decode_typed_data : Custody.Value -> res string Custody.TypedData) (environment : Environment)
    (get_custody_client : Chain -> res FundsManagerError unit) (env : Chain -> custody_env) (rq : JsonRpcRequest)
    : H (string * ResponsePayload) :=
  let chain := rpc_chain environment in
  with_client (get_custody_client chain)
    (passed_on (Custody.handle_rpc_request usdc_on chain (chain_id chain) (chain_id_str chain) decode_typed_data (env chain) rq)).

(** *** handlers/fee_indexing.rs: the fee indexer is not built, and five of its six
    endpoints answer with a text of their own. *)
Definition index_fees_handler : H string := mret "Fee indexing not implemented"%string.
Definition redeem_fees_handler : H string := mret "Fee redemption not implemented"%string.
Definition get_fee_wallets_handler : H string := mret "Fee wallets not implemented"%string.
Definition withdraw_fee_balance_handler (wallet_id mint : string) : H string := mret "Fee withdrawal not implemented"%string.
Definition get_unredeemed_fee_totals_handler : H string := mret "Unredeemed fee totals not implemented"%string.
Definition get_fee_hot_wallet_address_handler (client : res FundsManagerError unit) (env : custody_env) (chain : Chain)
    : H string :=
  with_client client (internal display (Custody.get_deposit_address chain_to_string chain env FeeRedemption)).

(** The address given out for deposits is that of a hot wallet of the vault asked for. *)
Lemma deposit_address_in_vault client env chain src s a s' :
  with_client client (internal display (Custody.get_deposit_address chain_to_string chain env src)) s = (Ok a, s') ->
  s' = s /\ exists w, w ∈ cs_hot_wallets s /\ hw_vault w = vault_name chain_to_string src chain /\ hw_address w = a.
Proof.
  intros [_ H%internal_Ok]%with_client_Ok. revert H.
  unfold Custody.get_deposit_address, Custody.get_deposit_address_by_vault_name, Custody.get_hot_wallet_by_vault,
    Custody.hot_query, mbind, eff_bind. destruct (Custody.db_up env); [|done].
  destruct (first_row _) as [w|] eqn:Hf; [|done]. cbn. intros [= <- <-].
  apply first_row_in, list_elem_of_filter in Hf as [Hv Hin]. split; [done|]. by exists w.
Qed.

(** A hot wallet created for a vault that had none is the one whose address is given out
    for deposits to that vault, and its key is kept under its name. *)
Theorem created_hot_wallet_receives client env env' chain key id s a s' :
  create_hot_wallet_handler client env key (vault_name chain_to_string Quoter chain) id s = (Ok a, s') ->
  (forall w, w ∈ cs_hot_wallets s -> hw_vault w <> vault_name chain_to_string Quoter chain) ->
  Custody.db_up env' = true ->
  a = address_of key /\ cs_secrets s' !! Custody.hot_wallet_secret_name a = Some key /\
  get_deposit_address_handler client env' chain s' = (Ok a, s').
Proof.
  intros [-> H%internal_Ok]%with_client_Ok Hnone Hup.
  unfold Custody.create_hot_wallet, Custody.create_secret, Custody.insert_hot_wallet, mbind, eff_bind in H.
  destruct (cs_secrets s !! _); [done|]. destruct (Custody.sm_up env); [|done].
  destruct (Custody.db_up env); [|done]. cbn in H. injection H as <- <-.
  split_and!; [done|cbn; apply lookup_insert_eq|].
  unfold get_deposit_address_handler, with_client, internal, lift, Custody.get_deposit_address,
    Custody.get_deposit_address_by_vault_name, Custody.get_hot_wallet_by_vault, Custody.hot_query, mbind, eff_bind.
  rewrite Hup. cbn -[vault_name]. rewrite filter_app.
  match goal with |- context [filter ?P (cs_hot_wallets s)] => assert (filter P (cs_hot_wallets s) = []) as -> end.
  { destruct (filter _ (cs_hot_wallets s)) as [|w l] eqn:Hf; [done|].
    assert (w ∈ w :: l) as Hw by left. rewrite <-Hf in Hw. apply list_elem_of_filter in Hw as [Hv Hin].
    by destruct (Hnone w Hin). }
  rewrite filter_cons, filter_nil, decide_True by done. cbn -[vault_name].
  destruct (first_row [_]) as [w|] eqn:Hf; [|by apply first_row_none in Hf].
  apply first_row_in, list_elem_of_singleton in Hf as ->. done.
Qed.
End CustodyHandlers.
